(* ===== verification/_CoqProject ===== *)
-Q . S2P
Prelude.v
Errors.v
Memory.v
MmDefs.v
CString.v
CStringProofs.v
Heap.v
HeapProofs.v
Malloc.v
MallocProofs.v
Lists.v
PhysMem.v
PhysMemProofs.v
Paging.v
PagingProofs.v
PagingMap.v
Mm.v
MmStack.v
MmUser.v
MmExample.v
MmSbrk.v
KHeap.v
KHeapProofs.v
MmTheorems.v
MmStackProofs.v
MmFork.v
MmForkProofs.v
MmClone.v
Time.v
TimeProofs.v
Strftime.v
Sched.v
SchedProofs.v
Sync.v
SyncProofs.v
RwLock.v
Wq.v
WqProofs.v
BlockDev.v
BlockDevProofs.v
Pipe.v
PipeProofs.v
Net.v
NetProofs.v
NetIf.v
NetIfProofs.v
Ip.v
ReassemblyProofs.v
DatagramProofs.v
TransmitProofs.v
IpSocket.v
IpSocketProofs.v
Ext2.v
Ext2Read.v
Ext2Alloc.v
Ext2Tree.v
Ext2Write.v
Ext2File.v
Ext2Dir.v
Ext2DirFile.v
Ext2DirProofs.v
Ext2Stable.v
Ext2Cache.v
Ext2Names.v
Ext2CacheProofs.v
Ext2Refs.v
