(* ===== verification/Prelude.v ===== *)
(** * ctOS: a verification of parts of the kernel and of its C library

    ctOS ([src/]) is a Unix-like operating system for 32-bit x86 machines: a
    kernel ([src/kernel], [src/driver], [src/hw]), a C library ([src/lib]) and
    programs.  This library models parts of it as functions of Rocq, translated
    from the C code one function at a time, and proves what they promise.

    ** The parts and their files

    - The C library: [CString], [CStringProofs] ([lib/std/string.c]).  Strings and
      memory areas are addresses of a byte-addressed memory ([Memory]).
    - The heap: [Heap], [HeapProofs] ([lib/internal/heap.c]), and its two users
      [Malloc], [MallocProofs] ([lib/std/malloc.c]) and [KHeap], [KHeapProofs]
      ([kmalloc], [kfree], [mm_init_heap] and [mm_extend_heap] of [kernel/mm.c]).  Chunks are headers
      and footers in memory.  The function that extends the heap is a parameter that also changes the rest of the system; for
      the kernel heap that is the machine of [Paging], and extending takes physical pages and maps them.
    - Lists: [Lists] ([include/lists.h]), the macros that link structures through
      their own fields, and the bit fields; used by the scheduler, the network
      stack, the kernel stacks and the file system.
    - Memory management ([kernel/mm.c]).  [PhysMem], [PhysMemProofs]: the bitmap of
      physical pages.  [Paging], [PagingProofs], [PagingMap]: page tables, on a
      model of the processor with physical memory, the translation of addresses,
      the TLB and the control registers.  [Mm], [MmUser], [MmSbrk]: user buffers,
      the user area, memory mapped I/O, page faults.  [MmStack], [MmStackProofs]:
      the kernel stacks of the tasks, the copy of an address space for [fork] and the
      first page tables.  [MmFork], [MmForkProofs], [MmClone]: that copy is correct.
      [MmTheorems]: the theorems on page tables and user buffers; [MmExample]: a
      small machine to which the theorems are applied.  [MmDefs]: constants.
    - Scheduler: [Sched], [SchedProofs] ([kernel/sched.c]).
    - Locks: [Sync] ([kernel/locks.c], and the semaphores, condition variables and
      time-outs of [kernel/pm.c]); [SyncProofs] on spinlocks and mutexes, [RwLock] on
      read-write locks.
    - Work queues: [Wq], [WqProofs] ([kernel/wq.c]), which use the tick counter and the
      semaphores.
    - Dates: [Time], [TimeProofs], [Strftime] ([lib/std/time.c]).
    - Block devices: [BlockDev], [BlockDevProofs] ([kernel/dm.c],
      [driver/ramdisk.c], [kernel/blockcache.c]).  The class [BlockDevice] is what
      a driver promises; the RAM disk is an instance, and the block layer and the
      file system are verified against the class.
    - Pipes: [Pipe], [PipeProofs] ([kernel/fs_pipe.c]).
    - EXT2 ([kernel/fs_ext2.c]).  [Ext2]: allocation, the tree of blocks, reading,
      writing, truncating; [Ext2Read], [Ext2Alloc], [Ext2Tree], [Ext2Write],
      [Ext2File] prove them.  [Ext2Dir]: directories; [Ext2DirFile],
      [Ext2DirProofs].  [Ext2Cache]: metadata and the inodes in use; [Ext2Names]:
      creating, linking, unlinking; [Ext2Stable], [Ext2CacheProofs], [Ext2Refs]:
      reference counts.
    - Network.  [Net], [NetProofs]: messages and the checksum ([kernel/net.c],
      [lib/std/net.c]).  [NetIf], [NetIfProofs]: interfaces and routes
      ([kernel/net_if.c], [kernel/ip.c]).  [Ip], [ReassemblyProofs],
      [DatagramProofs], [TransmitProofs]: fragments; [IpSocket], [IpSocketProofs]:
      reception and raw sockets ([kernel/ip.c]).
    - [Errors]: error numbers ([include/lib/os/errors.h]).

    ** How the code is modelled

    A word is an integer of type [Z] in the range of its C type; the conversions
    [u8], [u16], [u32] and [s32] below are written where the C code wraps around.
    Structures are records with the fields of the source, or, where the code casts
    addresses to structures, bytes at the offsets of the fields.  A function that
    may stop the machine or never return has the result type [res]; functions with
    state are written in a state monad over it ([fsM] and [cM] for the file
    system, [mmM] for the memory manager).  Log output is left out.

    A spinlock is modelled by the instructions of each processor, in any order
    ([spinlock_exclusion]).  Elsewhere a section of code under a lock is one step,
    and so is a call that takes its lock at the start and gives it back at the end;
    where an error path keeps a lock, or a lock is held when it is requested, the
    locks are part of the state ([PhysMem], [Paging]).  What other threads do between steps is an environment
    (pipes, work queues), an arbitrary sequence of steps (scheduler, page allocator, kernel heap, semaphores,
    read-write locks, inode references), or nothing.

    The kernel heap runs in a memory that is addressed by virtual addresses; its bytes are those of the mapped pages when
    the heap grows, and the theorem on the kernel heap shows that all of them stay mapped, writable and in pages of their own,
    which is what makes that memory one of the machine.  A reference count of an inode that overflows is a [Fault].

    What the code gets from parts that are not modelled is an argument: the
    memory map and the location of the RAM disk that [kernel/multiboot.c] returns,
    the addresses the linker assigns, free memory for [kmalloc] in the file system,
    and the transmission of packets.

    ** Fuel

    Loops whose number of rounds is known before they start get that number.  The
    other loops get fuel; when it runs out, the result is [Hang] or [None], never
    the result of a call that returns.  Fixed amounts are those no run can exceed:
    for the check of a buffer and for unmapping a stack, the pages of the address
    space and one; for the search for a physical page, the pages of the bitmap; for
    the list of stack allocators, [PM_MAX_TASK]; for the chunks of a heap, its size;
    for the holes of a datagram, the size of its buffer; for the extension of the kernel heap, the pages added and one.  The loop that folds the
    carries of the checksum has two rounds, which are enough for 32 bits, as
    [checksum_correct] shows; the loop of [mktime] over the months has one round for
    every 28 days and one more; the formats that [strftime] expands by calling itself
    are nested at most twice, and it gets three levels.  String functions, loops over directories and a pass over a work queue
    take their fuel as an argument; the latter needs one round for each entry that is in the queue or added during the
    pass, and one more, and never ends if entries are added for ever ([process_queue_livelock]).

    Theorems on single calls say that the call returns: with the fuel given, or
    with any fuel above a bound that the theorem states.  Theorems on sequences of
    calls consider the calls that have returned.  Where they also promise that a
    further call returns (physical pages, the kernel heap, the scheduler), they say
    so; [heap_refines_store], [pipe_fifo] and [inode_cache_correct] do not.  For the
    heap and for pipes, theorems on single calls fill the gap; for releasing,
    linking, unlinking and creating inodes there are none.

    ** What the theorems show

    - The heap implements a store of disjoint blocks: allocation returns memory
      that no other block uses, with the alignment requested; release makes it
      available again; no call changes a byte of a block in use, as long as requests stay away from
      the end of the address space ([malloc_wraps_corrupts]).  The kernel heap
      stays below the area for memory mapped I/O, and all of it is mapped and writable.
    - Physical pages: which pages the boot code makes available, and that no page is handed out
      twice, and none is lost, along any sequence of calls, if the bits behind the end of the bitmap are set.
    - Page tables: mapping, unmapping and looking up a page do to the translation of
      the processor what they should, and nothing else; the tables stay well
      formed and the TLB agrees with them.  [mm_map_page], when it fails, changes no
      mapping and gives back the page it took; the first page of an area determines whether the area can be written
      ([map_read_only_area]).  The check of a user buffer accepts
      exactly the memory of the user; [do_sbrk] gives the process new pages of its
      own exactly if there are enough, but a call that fails keeps the lock on the address space; kernel stacks
      of different tasks stay apart.  [mm_clone] gives a new process the same memory in
      pages of its own, if there is enough; if there is not, it may report success for
      an incomplete copy ([mm_clone_incomplete]).
    - The scheduler picks the first task of the highest queue that is not empty, its
      queues stay consistent, and a task that waits is scheduled.
    - At most one processor holds a spinlock.  A writer holds a read-write lock
      alone; as long as a task waits within one of the functions of the lock, another
      one reads or writes, or a task within these functions can run.  A pass over a work
      queue to which finitely many entries are added meanwhile ends, calls each handler once, in order, and keeps the entries
      whose handler asks to be called again and those added after the first of these.
    - [mktime] and [localtime] are compared with the Gregorian calendar, and the dates
      for which they are wrong are named; [strftime] never writes beyond the size
      it is given.
    - The block layer reads and writes byte ranges of any device that satisfies its
      interface.  A write to an EXT2 file changes exactly the bytes of the range,
      also across indirect blocks that are allocated on the way; reading returns
      them.  Bitmaps, counters and trees stay consistent.  A name that has been
      added to a directory is found, unless it has 256 characters, the others stay.  Reference counts are the
      numbers of references that are held.
    - A pipe is a queue of bytes for records of a size that divides its buffer.
    - Fragments of a datagram, in any order, give back the datagram; what is sent as
      fragments is what is received.  The checksum is that of RFC 1071.
    - Interfaces get the address they are given, and a route; [ip_get_route] selects
      the route the code means to, which for masks of eight or more bits need not be
      the one with the longest prefix.  Datagrams reach the raw sockets they are for.
    - [memmove], [strstr] and [strtok] do what the C standard says, as do the other
      string functions that have theorems in [CStringProofs]; the list macros
      implement sequences.

    Theorems about single errors in the code stand next to the theorems of their
    part: for instance [phys_mem_overrun], [sbrk_wraps], [unmap_unmapped_releases],
    [fault_unmapped_no_signal], [pipe_wrap_corrupts], [malloc_wraps_corrupts],
    [longest_prefix_loses], [reassembly_shares_memory], [unlink_removes_prefix],
    [sem_up_loses_wakeup], [timeout_loses_wakeup], [walk_entry_corners], [map_read_only_area],
    [process_queue_livelock], [mktime_corners].

    ** Not modelled

    - Code that reads and writes registers of devices: the drivers for disks, the
      network card, the PCI bus, the console, clocks and interrupt controllers, and
      assembly other than [invlpg].  There is nothing to relate it to but the
      hardware.
    - Interrupts, system call entry, the start of further processors, and the
      order in which processors see each other's writes to memory.
    - The process manager apart from semaphores and condition variables (processes,
      tasks, signals), the virtual file system, TCP, UDP, ICMP, ARP and the
      system calls of sockets, the start of the worker threads, timers for [sleep] and
      [alarm], the program loader, FAT16, and the rest of the C library (streams,
      formatted output, name resolution).  They can be modelled in the way of the other parts, and only
      their use by the parts above is.
    - In [kernel/mm.c], the functions that print the layout of the memory.  The removal
      of an address space and the set-up of the first page tables are modelled; there
      are no theorems about them yet.
    - The TLB of another processor: a change is seen by the processor that makes it.
    - User programs, tests and build files. *)

From Stdlib Require Export ZArith Lia.
From stdpp Require Export base list gmap option numbers functions.

#[export] Set Default Goal Selector "!".
#[export] Set Warnings "-clear-no-such-hyp".

Declare Scope ctos_scope.
Delimit Scope ctos_scope with ctos.

Open Scope Z_scope.

(** ** Machine integers

    [u8], [u16], [u32] are the unsigned types of [include/ktypes.h]; a value of
    such a type is a [Z] in range and the functions below are the conversions
    the C compiler inserts.  [s32] reinterprets 32 bits as an [int]. *)

Definition u8 (x : Z) : Z := x mod 2 ^ 8.
Definition u16 (x : Z) : Z := x mod 2 ^ 16.
Definition u32 (x : Z) : Z := x mod 2 ^ 32.
Definition s32 (x : Z) : Z := (x + 2 ^ 31) mod 2 ^ 32 - 2 ^ 31.

(** ** Automation *)

Create HintDb words.
Create Rewrite HintDb words.

Lemma u32_small (x : Z) : 0 <= x < 2 ^ 32 -> u32 x = x.
Proof. intros; unfold u32; by apply Z.mod_small. Qed.

Lemma u16_small (x : Z) : 0 <= x < 2 ^ 16 -> u16 x = x.
Proof. intros; unfold u16; by apply Z.mod_small. Qed.

Lemma u8_small (x : Z) : 0 <= x < 2 ^ 8 -> u8 x = x.
Proof. intros; unfold u8; by apply Z.mod_small. Qed.

Lemma u32_range (x : Z) : 0 <= u32 x < 2 ^ 32.
Proof. apply Z.mod_pos_bound; lia. Qed.

Lemma u16_range (x : Z) : 0 <= u16 x < 2 ^ 16.
Proof. apply Z.mod_pos_bound; lia. Qed.

Lemma u8_range (x : Z) : 0 <= u8 x < 2 ^ 8.
Proof. apply Z.mod_pos_bound; lia. Qed.

Lemma s32_small (x : Z) : - 2 ^ 31 <= x < 2 ^ 31 -> s32 x = x.
Proof. intros; unfold s32; rewrite Z.mod_small; lia. Qed.

#[export] Hint Resolve u32_range u16_range u8_range : words.
#[export] Hint Rewrite u32_small u16_small u8_small s32_small using lia : words.

(** [word] removes the wrap-around of every machine operation whose operand is
    provably in range. *)
Ltac word := autorewrite * with words.
Tactic Notation "word" "in" hyp(H) := autorewrite * with words in H.

(** Boolean tests of the code, as propositions. *)
Ltac zify_bool :=
  repeat match goal with
  | H : (_ <? _) = true |- _ => apply Z.ltb_lt in H
  | H : (_ <? _) = false |- _ => apply Z.ltb_ge in H
  | H : (_ <=? _) = true |- _ => apply Z.leb_le in H
  | H : (_ <=? _) = false |- _ => apply Z.leb_gt in H
  | H : (_ =? _) = true |- _ => apply Z.eqb_eq in H
  | H : (_ =? _) = false |- _ => apply Z.eqb_neq in H
  | H : negb _ = true |- _ => apply negb_true_iff in H
  | H : negb _ = false |- _ => apply negb_false_iff in H
  end.

(** Splits on the innermost integer test of the goal. *)
Ltac case_test :=
  match goal with
  | |- context [?a =? ?b] => destruct (Z.eqb_spec a b)
  | |- context [?a <? ?b] => destruct (Z.ltb_spec a b)
  | |- context [?a <=? ?b] => destruct (Z.leb_spec a b)
  end.

(** Replaces an integer test of the goal by its provable value. *)
Ltac test_true :=
  match goal with
  | |- context [?a =? ?b] => replace (a =? b) with true by (symmetry; apply Z.eqb_eq; lia)
  | |- context [?a <? ?b] => replace (a <? b) with true by (symmetry; apply Z.ltb_lt; lia)
  | |- context [?a <=? ?b] => replace (a <=? b) with true by (symmetry; apply Z.leb_le; lia)
  end.
Ltac test_false :=
  match goal with
  | |- context [?a =? ?b] => replace (a =? b) with false by (symmetry; apply Z.eqb_neq; lia)
  | |- context [?a <? ?b] => replace (a <? b) with false by (symmetry; apply Z.ltb_ge; lia)
  | |- context [?a <=? ?b] => replace (a <=? b) with false by (symmetry; apply Z.leb_gt; lia)
  end.
Ltac tests := repeat (test_true || test_false); cbn [negb andb orb].

(** ** Results of kernel code

    A function of the kernel returns, stops the machine with [PANIC] or a failed
    [KASSERT], uses a null pointer or freed memory, or never returns. *)
Inductive res (A : Type) := Ok (a : A) | Panic | Fault | Hang.
Arguments Ok {A} a.
Arguments Panic {A}.
Arguments Fault {A}.
Arguments Hang {A}.

#[export] Instance res_ret : MRet res := @Ok.
#[export] Instance res_bind : MBind res := fun A B f r =>
  match r with Ok a => f a | Panic => Panic | Fault => Fault | Hang => Hang end.

(** A pointer that is dereferenced. *)
Definition deref {A} (p : option A) : res A := match p with Some a => Ok a | None => Fault end.

(** [KASSERT] of a pointer. *)
Definition kassert {A} (p : option A) : res A := match p with Some a => Ok a | None => Panic end.

(** ** Loops

    A C loop over a state [S] that ends with a result [R]: the body gives the
    next state or leaves the loop.  [None] when the fuel runs out. *)
Fixpoint loop {S R : Type} (fuel : nat) (body : S -> S + R) (s : S) : option R :=
  match fuel with
  | O => None
  | S fuel => match body s with inl s' => loop fuel body s' | inr r => Some r end
  end.

(** A loop with an invariant and a decreasing measure ends, in a result the exit gives. *)
Lemma loop_spec {S R : Type} (body : S -> S + R) (I : S -> Prop) (Q : R -> Prop) (measure : S -> nat) :
  (forall s, I s -> match body s with inl s' => I s' /\ (measure s' < measure s)%nat | inr r => Q r end) ->
  forall s fuel, I s -> (measure s < fuel)%nat -> exists r, loop fuel body s = Some r /\ Q r.
Proof.
  intros Hbody s fuel; revert s; induction fuel as [|fuel IH]; intros s Hs Hf; [lia|]; cbn.
  specialize (Hbody s Hs); destruct (body s) as [s'|r]; eauto.
  destruct Hbody; apply IH; auto; lia.
Qed.

(** More fuel does not change the result. *)
Lemma loop_more {S R : Type} (body : S -> S + R) fuel fuel' s r :
  loop fuel body s = Some r -> (fuel <= fuel')%nat -> loop fuel' body s = Some r.
Proof.
  revert fuel' s; induction fuel as [|fuel IH]; intros [|fuel'] s H Hle; cbn in *; try done; [lia|].
  destruct (body s); auto with lia.
Qed.

(** A loop over a counter that leaves at [i + k]. *)
Lemma loop_count {R : Type} (body : Z -> Z + R) (i k : Z) (r : R) (fuel : nat) :
  (forall j, i <= j < i + k -> body j = inl (j + 1)) -> body (i + k) = inr r ->
  0 <= k < Z.of_nat fuel -> loop fuel body i = Some r.
Proof.
  revert i k; induction fuel as [|fuel IH]; intros i k Hin Hout Hk; [lia|]; cbn.
  destruct (decide (k = 0)) as [->|].
  - by rewrite Z.add_0_r in Hout; rewrite Hout.
  - rewrite Hin by lia; apply (IH (i + 1) (k - 1)); [intros; apply Hin; lia| |lia].
    by replace (i + 1 + (k - 1)) with (i + k) by lia.
Qed.

(** The same, counting down to [i - k]. *)
Lemma loop_count_down {R : Type} (body : Z -> Z + R) (i k : Z) (r : R) (fuel : nat) :
  (forall j, i - k < j <= i -> body j = inl (j - 1)) -> body (i - k) = inr r ->
  0 <= k < Z.of_nat fuel -> loop fuel body i = Some r.
Proof.
  revert i k; induction fuel as [|fuel IH]; intros i k Hin Hout Hk; [lia|]; cbn.
  destruct (decide (k = 0)) as [->|].
  - by rewrite Z.sub_0_r in Hout; rewrite Hout.
  - rewrite Hin by lia; apply (IH (i - 1) (k - 1)); [intros; apply Hin; lia| |lia].
    by replace (i - 1 - (k - 1)) with (i - k) by lia.
Qed.

(** A decidable property has a first index below [n], or none. *)
Lemma first_index (P : nat -> Prop) `{forall i, Decision (P i)} (n : nat) :
  (exists i, (i < n)%nat /\ P i /\ forall j, (j < i)%nat -> ~ P j) \/ (forall i, (i < n)%nat -> ~ P i).
Proof.
  induction n as [|n [(i & ? & ? & ?)|IH]]; [right; lia|left; exists i; auto with lia|].
  destruct (decide (P n)); [left; exists n; auto with lia|right].
  intros i Hi; destruct (decide (i = n)) as [->|]; auto; apply IH; lia.
Qed.

(** ** Counting in a range of integers *)

Lemma seqZ_filter_le (P : Z -> bool) i n L : (forall x, i <= x < i + n -> P x = true -> x ∈ L) ->
  (length (filter (fun j => P j = true) (seqZ i n)) <= length L)%nat.
Proof.
  intros H; apply submseteq_length, NoDup_submseteq; [apply list.NoDup_filter, NoDup_seqZ|].
  intros x [Hp Hx]%list_elem_of_filter; apply elem_of_seqZ in Hx; by apply H.
Qed.

Lemma seqZ_filter_ge (P : Z -> bool) i n L : NoDup L -> (forall x, x ∈ L -> i <= x < i + n /\ P x = true) ->
  (length L <= length (filter (fun j => P j = true) (seqZ i n)))%nat.
Proof.
  intros Hn H; apply submseteq_length, NoDup_submseteq; [done|]; intros x Hx; destruct (H x Hx).
  apply list_elem_of_filter; split; [done|by apply elem_of_seqZ].
Qed.

Lemma seqZ_filter_ext (P Q : Z -> bool) i n : (forall x, i <= x < i + n -> P x = Q x) ->
  length (filter (fun j => P j = true) (seqZ i n)) = length (filter (fun j => Q j = true) (seqZ i n)).
Proof.
  intros H; apply Nat.le_antisymm; apply seqZ_filter_le; intros x Hx Hp; apply list_elem_of_filter;
    (split; [specialize (H x Hx); congruence|apply elem_of_seqZ; lia]).
Qed.

Lemma seqZ_filter_app (P : Z -> bool) i a b : 0 <= a -> 0 <= b ->
  length (filter (fun j => P j = true) (seqZ i (a + b))) =
  (length (filter (fun j => P j = true) (seqZ i a)) + length (filter (fun j => P j = true) (seqZ (i + a) b)))%nat.
Proof. intros; rewrite seqZ_app, list.filter_app, length_app by lia; done. Qed.
