(* ===== verification/Errors.v ===== *)
(** * Error numbers ([include/lib/os/errors.h]) *)

From S2P Require Import Prelude.

Definition ENOMEM : Z := 101.
Definition EAGAIN : Z := 106.
Definition EINVAL : Z := 107.
Definition EALREADY : Z := 109.
Definition ENODEV : Z := 110.
Definition EIO : Z := 111.
Definition EBUSY : Z := 112.
Definition ENOENT : Z := 116.
Definition ENOSPC : Z := 117.
Definition EPAUSE : Z := 122.
Definition EPIPE : Z := 126.
Definition EEXIST : Z := 130.
Definition ENETUNREACH : Z := 134.
Definition ENOTCONN : Z := 136.
Definition EAFNOSUPPORT : Z := 139.
Definition EMSGSIZE : Z := 143.
Definition ENOBUFS : Z := 144.
Definition EISCONN : Z := 145.
Definition EMLINK : Z := 149.
Definition ENOTEMPTY : Z := 152.
