(* ===== verification/Memory.v ===== *)
(** * Byte-addressed memory

    The kernel and the C library run on a 32-bit little-endian machine with a
    flat address space.  Components that cast addresses to structures (the heap)
    are modelled over this memory. *)

From S2P Require Import Prelude.

(** A memory gives the byte at every address; [store8] gets a byte. *)
Definition mem := Z -> Z.

Definition load8 (m : mem) (a : Z) : Z := m a.
Definition store8 (m : mem) (a v : Z) : mem := fun x => if x =? a then v else m x.

(** A 32-bit access, least significant byte first. *)
Definition load32 (m : mem) (a : Z) : Z :=
  m a + 2 ^ 8 * m (a + 1) + 2 ^ 16 * m (a + 2) + 2 ^ 24 * m (a + 3).
Definition store32 (m : mem) (a v : Z) : mem :=
  store8 (store8 (store8 (store8 m a (u8 v)) (a + 1) (u8 (v / 2 ^ 8))) (a + 2) (u8 (v / 2 ^ 16)))
    (a + 3) (u8 (v / 2 ^ 24)).

(** A 16-bit access. *)
Definition load16 (m : mem) (a : Z) : Z := m a + 2 ^ 8 * m (a + 1).
Definition store16 (m : mem) (a v : Z) : mem := store8 (store8 m a (u8 v)) (a + 1) (u8 (v / 2 ^ 8)).

(** A one-bit field: bit [i] of the byte at [a]; a write keeps the other bits. *)
Definition loadbit (m : mem) (a i : Z) : bool := Z.testbit (m a) i.
Definition storebit (m : mem) (a i : Z) (b : bool) : mem :=
  store8 m a (if b then Z.setbit (m a) i else Z.clearbit (m a) i).

(** [n] consecutive bytes. *)
Definition bytes_at (m : mem) (a : Z) (n : nat) : list Z := (fun i => m (a + Z.of_nat i)) <$> seq 0 n.

(** Two memories that agree outside [lo, hi). *)
Definition changes_only (m m' : mem) (lo hi : Z) : Prop := forall x, ~ (lo <= x < hi) -> m' x = m x.

Create HintDb mem.
Create Rewrite HintDb mem.

(** ** Laws of loads and stores *)

Lemma store8_same m a v : store8 m a v a = v.
Proof. unfold store8; by rewrite Z.eqb_refl. Qed.

Lemma store8_other m a v x : x <> a -> store8 m a v x = m x.
Proof. intros; unfold store8; by tests. Qed.

Lemma store32_other m a v x : ~ (a <= x < a + 4) -> store32 m a v x = m x.
Proof. intros; unfold store32; by rewrite !store8_other by lia. Qed.

Lemma store16_other m a v x : ~ (a <= x < a + 2) -> store16 m a v x = m x.
Proof. intros; unfold store16; by rewrite !store8_other by lia. Qed.

Lemma store16_byte m a v x : a <= x < a + 2 -> 0 <= store16 m a v x < 2 ^ 8.
Proof. intros; unfold store16, store8; repeat (case_test; [apply u8_range|]); lia. Qed.

Lemma load16_ext m m' a : (forall x, a <= x < a + 2 -> m' x = m x) -> load16 m' a = load16 m a.
Proof. intros H; unfold load16; by rewrite !H by lia. Qed.

Lemma load16_store16_same m a v : 0 <= v < 2 ^ 16 -> load16 (store16 m a v) a = v.
Proof.
  intros Hv; unfold load16, store16, store8, u8.
  rewrite !Z.eqb_refl; tests.
  Z.div_mod_to_equations; lia.
Qed.

Lemma load16_store16_other m a v b : a + 2 <= b \/ b + 2 <= a -> load16 (store16 m a v) b = load16 m b.
Proof. intros; apply load16_ext; intros; apply store16_other; lia. Qed.

Lemma storebit_other m a i b x : x <> a -> storebit m a i b x = m x.
Proof. apply store8_other. Qed.

Lemma load32_ext m m' a : (forall x, a <= x < a + 4 -> m' x = m x) -> load32 m' a = load32 m a.
Proof. intros H; unfold load32; by rewrite !H by lia. Qed.

Lemma loadbit_ext m m' a i : m' a = m a -> loadbit m' a i = loadbit m a i.
Proof. unfold loadbit; by intros ->. Qed.

Lemma load32_store32_same m a v : 0 <= v < 2 ^ 32 -> load32 (store32 m a v) a = v.
Proof.
  intros Hv; unfold load32, store32, store8, u8.
  rewrite !Z.eqb_refl; tests.
  Z.div_mod_to_equations; lia.
Qed.

Lemma load32_store32_other m a v b : a + 4 <= b \/ b + 4 <= a -> load32 (store32 m a v) b = load32 m b.
Proof. intros; apply load32_ext; intros; apply store32_other; lia. Qed.

Lemma load16_store8 m a v b : a < b \/ b + 2 <= a -> load16 (store8 m a v) b = load16 m b.
Proof. intros; apply load16_ext; intros; apply store8_other; lia. Qed.

Lemma load16_store32 m a v b : a + 4 <= b \/ b + 2 <= a -> load16 (store32 m a v) b = load16 m b.
Proof. intros; apply load16_ext; intros; apply store32_other; lia. Qed.

Lemma load32_store8 m a v b : a < b \/ b + 4 <= a -> load32 (store8 m a v) b = load32 m b.
Proof. intros; apply load32_ext; intros; apply store8_other; lia. Qed.

Lemma load32_store16 m a v b : a + 2 <= b \/ b + 4 <= a -> load32 (store16 m a v) b = load32 m b.
Proof. intros; apply load32_ext; intros; apply store16_other; lia. Qed.

Lemma load32_storebit m a i v b : a < b \/ b + 4 <= a -> load32 (storebit m a i v) b = load32 m b.
Proof. intros; apply load32_ext; intros; apply storebit_other; lia. Qed.

Lemma loadbit_store32 m a v b i : ~ (a <= b < a + 4) -> loadbit (store32 m a v) b i = loadbit m b i.
Proof. intros; apply loadbit_ext, store32_other; lia. Qed.

Lemma loadbit_storebit_other m a i v b j : a <> b -> loadbit (storebit m a i v) b j = loadbit m b j.
Proof. intros; apply loadbit_ext, storebit_other; lia. Qed.

Lemma loadbit_storebit_byte m a i v j :
  0 <= i < 8 -> 0 <= j < 8 ->
  loadbit (storebit m a i v) a j = if j =? i then v else loadbit m a j.
Proof.
  intros Hi Hj; unfold loadbit, storebit; rewrite store8_same.
  destruct v; [rewrite Z.setbit_eqb by lia | rewrite Z.clearbit_eqb by lia];
    rewrite (Z.eqb_sym i j); destruct (j =? i); cbn; rewrite ?andb_true_r, ?andb_false_r; auto.
Qed.

Lemma changes_only_refl m lo hi : changes_only m m lo hi.
Proof. by intros x _. Qed.

Lemma changes_only_trans m1 m2 m3 lo hi :
  changes_only m1 m2 lo hi -> changes_only m2 m3 lo hi -> changes_only m1 m3 lo hi.
Proof. intros H12 H23 x Hx; rewrite H23, H12; auto. Qed.

Lemma changes_only_weaken m m' lo hi lo' hi' :
  changes_only m m' lo hi -> lo' <= lo -> hi <= hi' -> changes_only m m' lo' hi'.
Proof. intros H ?? x Hx; apply H; lia. Qed.

Lemma changes_only_store32 m m' a v lo hi :
  changes_only m m' lo hi -> lo <= a -> a + 4 <= hi -> changes_only m (store32 m' a v) lo hi.
Proof. intros H ?? x Hx; rewrite store32_other by lia; auto. Qed.

Lemma changes_only_storebit m m' a i v lo hi :
  changes_only m m' lo hi -> lo <= a < hi -> changes_only m (storebit m' a i v) lo hi.
Proof. intros H ? x Hx; rewrite storebit_other by lia; auto. Qed.

#[export] Hint Resolve changes_only_refl changes_only_store32 changes_only_storebit : mem.
#[export] Hint Rewrite load16_store16_other load16_store8 load16_store32 load32_store8 load32_store16 using lia : mem.
#[export] Hint Rewrite load32_store32_same load32_store32_other load32_storebit
  loadbit_store32 loadbit_storebit_other using lia : mem.
#[export] Hint Rewrite loadbit_storebit_byte using lia : mem.

Ltac mem_simpl := autorewrite * with mem; cbn [Z.eqb Pos.eqb].

(** Bounds the changes of a memory built by stores. *)
Ltac changes :=
  repeat first [apply changes_only_store32 | apply changes_only_storebit]; try apply changes_only_refl; lia.

(** A byte range that a change does not touch reads the same. *)
Lemma bytes_at_ext m m' a n :
  (forall x, a <= x < a + Z.of_nat n -> m' x = m x) -> bytes_at m' a n = bytes_at m a n.
Proof.
  intros H; unfold bytes_at; apply list_fmap_ext; intros i j Hj.
  apply lookup_seq in Hj as [-> Hi]; apply H; lia.
Qed.

Lemma length_bytes_at m a n : length (bytes_at m a n) = n.
Proof. unfold bytes_at; by rewrite length_fmap, length_seq. Qed.

Lemma lookup_bytes_at m a n i : (i < n)%nat -> bytes_at m a n !! i = Some (m (a + Z.of_nat i)).
Proof.
  intros Hi; unfold bytes_at; rewrite list_lookup_fmap.
  by rewrite (lookup_seq_lt 0 n i Hi).
Qed.

Lemma bytes_at_app m a n k : bytes_at m a (n + k) = bytes_at m a n ++ bytes_at m (a + Z.of_nat n) k.
Proof.
  unfold bytes_at; rewrite seq_app, fmap_app; f_equal.
  rewrite Nat.add_comm, <- (fmap_add_seq n 0 k), <- list_fmap_compose.
  apply list_fmap_ext; intros i x _; cbn; f_equal; lia.
Qed.

Lemma bytes_at_store8 m a n i v :
  (i < n)%nat -> bytes_at (store8 m (a + Z.of_nat i) v) a n = <[i := v]> (bytes_at m a n).
Proof.
  intros Hi; apply list_eq; intros j; destruct (decide (j < n)%nat) as [Hj|Hj].
  - rewrite lookup_bytes_at by auto; destruct (decide (i = j)) as [->|Hne].
    + by rewrite list_lookup_insert_eq, store8_same by (rewrite length_bytes_at; lia).
    + by rewrite list_lookup_insert_ne, lookup_bytes_at, store8_other by lia.
  - rewrite !lookup_ge_None_2; auto; rewrite ?length_insert, length_bytes_at; lia.
Qed.

(** ** Copies between two objects *)

(** [memcpy(dst + to, src + from, n)]; both objects are functions of the offset. *)
Definition blit (dst : mem) (to : Z) (src : mem) (from n : Z) : mem :=
  fun x => if (to <=? x) && (x <? to + n) then src (from + (x - to)) else dst x.

Lemma blit_in dst to src from n x : to <= x < to + n -> blit dst to src from n x = src (from + (x - to)).
Proof. intros; unfold blit; by tests. Qed.

Lemma blit_out dst to src from n x : ~ (to <= x < to + n) -> blit dst to src from n x = dst x.
Proof. intros; unfold blit; repeat case_test; cbn; auto; lia. Qed.

(** Splits on whether a byte of a copy lies in the range copied. *)
Ltac case_blit :=
  match goal with
  | |- context [blit ?d ?t ?s ?f ?n ?x] =>
      destruct (decide (t <= x < t + n));
      [rewrite (blit_in d t s f n x) by assumption | rewrite (blit_out d t s f n x) by assumption]
  end.
