(* ===== verification/MmDefs.v ===== *)
(** * Layout of the address space ([include/mm.h]) *)

From S2P Require Import Prelude.

Definition MM_PAGE_SIZE : Z := 4096.
Definition MM_PT_ENTRIES : Z := 1024.

(** [MM_PAGE_START(page)], [MM_PAGE_END(page)], [MM_PAGE(address)] and
    [MM_ALIGN(x)], the first address of the page after the one that holds [x];
    the arguments are 32-bit words. *)
Definition MM_PAGE_START (page : Z) : Z := u32 (page * MM_PAGE_SIZE).
Definition MM_PAGE_END (page : Z) : Z := u32 ((page + 1) * MM_PAGE_SIZE - 1).
Definition MM_PAGE (address : Z) : Z := address / MM_PAGE_SIZE.
Definition MM_ALIGN (x : Z) : Z := u32 (MM_PAGE_END (MM_PAGE x) + 1).

Definition MM_SHARED_PAGE_TABLES : Z := 32.
Definition MM_COMMON_AREA_SIZE : Z := MM_SHARED_PAGE_TABLES * MM_PAGE_SIZE * MM_PT_ENTRIES.
Definition MM_MEMIO_PAGE_TABLES : Z := 1.
Definition MM_MEMIO_START : Z := (MM_SHARED_PAGE_TABLES - MM_MEMIO_PAGE_TABLES) * MM_PAGE_SIZE * MM_PT_ENTRIES.

Lemma align_above x : 0 <= x -> x + MM_PAGE_SIZE < 2 ^ 32 -> MM_ALIGN x = (x / MM_PAGE_SIZE + 1) * MM_PAGE_SIZE.
Proof.
  unfold MM_ALIGN, MM_PAGE_END, MM_PAGE, MM_PAGE_SIZE; intros.
  assert (4096 <= (x / 4096 + 1) * 4096 <= x + 4096) by (Z.div_mod_to_equations; lia).
  rewrite (u32_small (_ - 1)) by lia; word; lia.
Qed.

(** In the last page of the address space the macro wraps around to zero. *)
Lemma align_wraps x : 2 ^ 32 - MM_PAGE_SIZE <= x < 2 ^ 32 -> MM_ALIGN x = 0.
Proof.
  unfold MM_ALIGN, MM_PAGE_END, MM_PAGE, MM_PAGE_SIZE; intros.
  replace (x / 4096) with (2 ^ 20 - 1) by (Z.div_mod_to_equations; lia); done.
Qed.

Lemma memio_start : MM_MEMIO_START = 130023424.
Proof. done. Qed.
