(* ===== verification/CString.v ===== *)
(** * String and memory functions of the C library ([lib/std/string.c])

    Used by the kernel and by user space. A pointer is an address of the memory
    of [Memory], the null pointer is 0, and a [char] is a byte in the range 0 to
    255; the code casts to [unsigned char] wherever the sign would matter.
    Functions that run until a terminating zero get fuel. *)

From S2P Require Import Prelude Memory.

Module CString.

(** ** Lengths and copies *)

Definition strlen (fuel : nat) (m : mem) (s : Z) : option Z :=
  if s =? 0 then Some 0
  else loop fuel (fun i => if negb (m (s + i) =? 0) then inl (i + 1) else inr i) 0.

(** The first loop of [strncpy] evaluates [strlen(s2)] in every round, on the
    memory it has changed so far. *)
Definition strncpy_copy (fuel : nat) (m : mem) (s1 s2 max : Z) : option (option mem) :=
  loop fuel (fun '(i, m) =>
    if i <? max then
      match strlen fuel m s2 with
      | None => inr None
      | Some n => if i <? n then inl (i + 1, store8 m (s1 + i) (m (s2 + i))) else inr (Some m)
      end
    else inr (Some m)) (0, m).

(** [for (i = from; i < to; i++) s[i] = 0] *)
Definition zero_fill (m : mem) (s from to : Z) : mem :=
  fold_left (fun m k => store8 m (s + (from + Z.of_nat k)) 0) (seq 0 (Z.to_nat (to - from))) m.

Definition strncpy (fuel : nat) (m : mem) (s1 s2 max : Z) : option (mem * Z) :=
  if s1 =? 0 then Some (m, 0)
  else
    r ← strncpy_copy fuel m s1 s2 max;
    m ← r;
    n ← strlen fuel m s2;
    if n <? max then Some (zero_fill m s1 n max, s1) else Some (m, s1).

Definition strcpy (fuel : nat) (m : mem) (s1 s2 : Z) : option (mem * Z) :=
  if s1 =? 0 then Some (m, 0)
  else
    m ← loop fuel (fun '(i, m) =>
          let m' := store8 m (s1 + i) (m (s2 + i)) in
          if m' (s2 + i) =? 0 then inr m' else inl (i + 1, m')) (0, m);
    Some (m, s1).

Definition strcat (fuel : nat) (m : mem) (s1 s2 : Z) : option (mem * Z) :=
  n ← strlen fuel m s1;
  '(m, _) ← strcpy fuel m (s1 + n) s2;
  Some (m, s1).

(** [i] is an [int] compared with the unsigned [n]; [n] stays below 2^31. *)
Definition strncat (fuel : nat) (m : mem) (s1 s2 n : Z) : option (mem * Z) :=
  offset ← strlen fuel m s1;
  '(i, m) ← loop fuel (fun '(i, m) =>
      if i <? n then
        if m (s2 + i) =? 0 then inr (i, m) else inl (i + 1, store8 m (s1 + (i + offset)) (m (s2 + i)))
      else inr (i, m)) (0, m);
  Some (store8 m (s1 + (i + offset)) 0, s1).

(** ** Comparison *)

(** [__xtolower] *)
Definition xtolower (c : Z) : Z := if (65 <=? c) && (c <=? 90) then c - 65 + 97 else c.

(** The common body of [strncmp] and [strncasecmp]; [f] is the conversion of a character. *)
Definition cmp_loop (fuel : nat) (f : Z -> Z) (m : mem) (s1 s2 max : Z) : option Z :=
  '(i, result) ← loop fuel (fun '(i, result) =>
      if negb (m (s1 + i) =? 0) && negb (m (s2 + i) =? 0) && (0 =? result) && (i <? max)
      then inl (i + 1, f (m (s1 + i)) - f (m (s2 + i)))
      else inr (i, result)) (0, 0);
  Some (if i <? max then
          let result := if (m (s1 + i) =? 0) && negb (m (s2 + i) =? 0) then -1 else result in
          if (m (s2 + i) =? 0) && negb (m (s1 + i) =? 0) then 1 else result
        else result).

Definition strncmp (fuel : nat) (m : mem) (s1 s2 max : Z) : option Z :=
  if (s1 =? 0) || (s2 =? 0) then Some 0 else cmp_loop fuel (fun c => c) m s1 s2 max.

Definition strncasecmp (fuel : nat) (m : mem) (s1 s2 max : Z) : option Z :=
  cmp_loop fuel xtolower m s1 s2 max.

Definition strcmp (fuel : nat) (m : mem) (s1 s2 : Z) : option Z :=
  n1 ← strlen fuel m s1;
  n2 ← strlen fuel m s2;
  strncmp fuel m s1 s2 (if n1 <? n2 then n2 else n1).

Definition strcasecmp (fuel : nat) (m : mem) (s1 s2 : Z) : option Z :=
  n1 ← strlen fuel m s1;
  n2 ← strlen fuel m s2;
  strncasecmp fuel m s1 s2 (if n1 <? n2 then n2 else n1).

Definition strcoll (fuel : nat) (m : mem) (s1 s2 : Z) : option Z := strcmp fuel m s1 s2.

(** ** Memory blocks *)

Definition memcpy (m : mem) (to from n : Z) : mem * Z :=
  (fold_left (fun m i => store8 m (to + Z.of_nat i) (m (from + Z.of_nat i))) (seq 0 (Z.to_nat n)) m, to).

(** The backward loop counts with an [int]. *)
Definition memmove (m : mem) (to from n : Z) : mem * Z :=
  if to =? from then (m, to)
  else if to <=? from then memcpy m to from n
  else
    (fold_left (fun m i => store8 m (to + Z.of_nat i) (m (from + Z.of_nat i)))
       (rev (seq 0 (Z.to_nat (s32 (u32 (n - 1)) + 1)))) m, to).

Definition memset (m : mem) (s c n : Z) : mem * Z :=
  (fold_left (fun m i => store8 m (s + Z.of_nat i) (u8 c)) (seq 0 (Z.to_nat n)) m, s).

Definition memcmp (m : mem) (s1 s2 n : Z) : Z :=
  fold_left (fun result i =>
    if negb (result =? 0) then result
    else if negb (m (s1 + Z.of_nat i) =? m (s2 + Z.of_nat i))
    then if m (s2 + Z.of_nat i) <? m (s1 + Z.of_nat i) then 1 else -1
    else result) (seq 0 (Z.to_nat n)) 0.

(** ** Searching *)

(** The inner loop of [strspn] and [strcspn]: the character of the set at which it
    stops, 0 at its end. *)
Definition scan_set (fuel : nat) (m : mem) (set c : Z) : option Z :=
  loop fuel (fun ptr =>
    if negb (m ptr =? 0) then if m ptr =? c then inr (m ptr) else inl (ptr + 1) else inr (m ptr)) set.

Definition strspn (fuel : nat) (m : mem) (s accept : Z) : option Z :=
  r ← loop fuel (fun ret =>
        if negb (m (s + ret) =? 0) then
          match scan_set fuel m accept (m (s + ret)) with
          | None => inr None
          | Some c => if c =? 0 then inr (Some ret) else inl (ret + 1)
          end
        else inr (Some ret)) 0;
  r.

Definition strcspn (fuel : nat) (m : mem) (s reject : Z) : option Z :=
  r ← loop fuel (fun ret =>
        if negb (m (s + ret) =? 0) then
          match scan_set fuel m reject (m (s + ret)) with
          | None => inr None
          | Some c => if negb (c =? 0) then inr (Some ret) else inl (ret + 1)
          end
        else inr (Some ret)) 0;
  r.

(** [strtok]: [last] is its static variable. *)
Definition strtok (fuel : nat) (m : mem) (last s1 s2 : Z) : option (mem * Z * Z) :=
  let s1 := if s1 =? 0 then last else s1 in
  if s1 =? 0 then Some (m, last, 0)
  else
    start_token ← strspn fuel m s1 s2;
    len ← strlen fuel m s1;
    if start_token =? len then Some (m, last, 0)
    else
      n ← strcspn fuel m (s1 + start_token) s2;
      let sep := start_token + n in
      let last := if sep =? len then 0 else s1 + sep + 1 in
      Some (store8 m (s1 + sep) 0, last, s1 + start_token).

Definition strchr (fuel : nat) (m : mem) (s c : Z) : option Z :=
  if c =? 0 then n ← strlen fuel m s; Some (s + n)
  else
    ret ← loop fuel (fun ret =>
            if negb (m ret =? u8 c) && negb (m ret =? 0) then inl (ret + 1) else inr ret) s;
    Some (if m ret =? 0 then 0 else ret).

Definition strrchr (fuel : nat) (m : mem) (s c : Z) : option Z :=
  n ← strlen fuel m s;
  ret ← loop fuel (fun ret => if (s <=? ret) && negb (m ret =? u8 c) then inl (ret - 1) else inr ret) (s + n);
  Some (if ret <? s then 0 else ret).

Definition strstr (fuel : nat) (m : mem) (s1 s2 : Z) : option Z :=
  s2_len ← strlen fuel m s2;
  s1_len ← strlen fuel m s1;
  if s2_len =? 0 then Some s1
  else
    r ← loop fuel (fun i =>
          if i <=? s1_len - s2_len then
            match strncmp fuel m (s1 + i) s2 s2_len with
            | None => inr None
            | Some r => if r =? 0 then inr (Some (s1 + i)) else inl (i + 1)
            end
          else inr (Some 0)) 0;
    r.

Definition strpbrk (fuel : nat) (m : mem) (s1 s2 : Z) : option Z :=
  n ← strlen fuel m s1;
  r ← loop fuel (fun i =>
        if i <? n then
          match strchr fuel m s2 (m (s1 + i)) with
          | None => inr None
          | Some r => if negb (r =? 0) then inr (Some (s1 + i)) else inl (i + 1)
          end
        else inr (Some 0)) 0;
  r.

End CString.
