(* ===== verification/CStringProofs.v ===== *)
(** * Correctness of the string functions *)

From S2P Require Import Prelude Memory CString.

Module CStringProofs.
Import CString.

(** The C string [s] (its characters without the terminator) is stored at [a]. *)
Record cstr (m : mem) (a : Z) (s : list Z) : Prop := {
  cstr_addr : 0 < a;
  cstr_chars : Forall (fun c => 0 < c < 256) s;
  cstr_bytes : bytes_at m a (length s) = s;
  cstr_end : m (a + Z.of_nat (length s)) = 0;
}.

Lemma cstr_lookup m a s i : cstr m a s -> (i < length s)%nat -> s !! i = Some (m (a + Z.of_nat i)).
Proof. intros [] Hi; rewrite <- cstr_bytes0; by apply lookup_bytes_at. Qed.

(** The byte at index [i] of a string; its terminator at the end. *)
Lemma cstr_char m a s i :
  cstr m a s -> 0 <= i < Z.of_nat (length s) -> 0 < m (a + i) < 256.
Proof.
  intros Hs Hi; assert (s !! Z.to_nat i = Some (m (a + i))) as Hc.
  { rewrite (cstr_lookup m a s); auto; [|lia]; by rewrite Z2Nat.id by lia. }
  pose proof (cstr_chars _ _ _ Hs) as H; rewrite Forall_lookup in H; eauto.
Qed.

Lemma cstr_suffix m a s1 s2 : cstr m a (s1 ++ s2) -> cstr m (a + Z.of_nat (length s1)) s2.
Proof.
  intros [? H Hb He]; apply Forall_app in H as [_ H]; rewrite length_app in *.
  rewrite bytes_at_app in Hb; apply app_inj_1 in Hb as [_ Hb]; [|by rewrite length_bytes_at].
  split; auto; [lia|]; rewrite <- He; f_equal; lia.
Qed.

Lemma cstr_ext m m' a s :
  cstr m a s -> (forall x, a <= x <= a + Z.of_nat (length s) -> m' x = m x) -> cstr m' a s.
Proof.
  intros [] Hm; split; auto; [|rewrite Hm; auto; lia].
  rewrite (bytes_at_ext m); auto; intros; apply Hm; lia.
Qed.

(** ** Length *)

Lemma strlen_ok m a s fuel :
  cstr m a s -> (length s < fuel)%nat -> strlen fuel m a = Some (Z.of_nat (length s)).
Proof.
  intros Hs Hf; pose proof (cstr_addr _ _ _ Hs); unfold strlen; tests.
  apply (loop_count _ 0 (Z.of_nat (length s))); [|by rewrite Z.add_0_l, (cstr_end _ _ _ Hs)|lia].
  intros j Hj; pose proof (cstr_char _ _ _ j Hs ltac:(lia)); by tests.
Qed.

(** ** Block copies *)

(** The effect of a forward copy, as long as no byte is overwritten before it is read. *)
Lemma copy_forward m to from n :
  to <= from \/ from + Z.of_nat n <= to ->
  let m' := fold_left (fun m i => store8 m (to + Z.of_nat i) (m (from + Z.of_nat i))) (seq 0 n) m in
  changes_only m m' to (to + Z.of_nat n) /\ bytes_at m' to n = bytes_at m from n.
Proof.
  intros Hd; induction n as [|n IH].
  { split; auto with mem. }
  rewrite seq_S, fold_left_app; cbn [fold_left Nat.add].
  set (m1 := fold_left _ _ _) in *; destruct IH as [Hm1 Hb1]; [lia|]; split.
  - intros x Hx; rewrite store8_other by lia; apply Hm1; lia.
  - replace (S n) with (n + 1)%nat by lia; rewrite !bytes_at_app; f_equal.
    + rewrite (bytes_at_ext m1); auto; intros; apply store8_other; lia.
    + unfold bytes_at; cbn; rewrite Z.add_0_r, store8_same, Hm1; auto; [|lia].
      do 2 f_equal; lia.
Qed.

(** A backward copy, for a target above the source. *)
Lemma copy_backward m to from n :
  from <= to ->
  let m' := fold_left (fun m i => store8 m (to + Z.of_nat i) (m (from + Z.of_nat i))) (rev (seq 0 n)) m in
  changes_only m m' to (to + Z.of_nat n) /\ bytes_at m' to n = bytes_at m from n.
Proof.
  revert m; induction n as [|n IH]; intros m Hd.
  { split; auto with mem. }
  rewrite seq_S, rev_app_distr; cbn [rev app fold_left Nat.add].
  set (m0 := store8 _ _ _); destruct (IH m0 Hd) as [Hm1 Hb1]; set (m1 := fold_left _ _ _) in *; split.
  - intros x Hx; rewrite Hm1 by lia; apply store8_other; lia.
  - replace (S n) with (n + 1)%nat by lia; rewrite !bytes_at_app, Hb1; f_equal.
    + apply bytes_at_ext; intros; apply store8_other; lia.
    + unfold bytes_at; cbn; rewrite Z.add_0_r, Hm1, Z.add_0_r by lia; by subst m0; rewrite store8_same.
Qed.

Lemma memcpy_ok m to from n :
  0 <= n -> to <= from \/ from + n <= to ->
  exists m', memcpy m to from n = (m', to) /\ changes_only m m' to (to + n) /\
    bytes_at m' to (Z.to_nat n) = bytes_at m from (Z.to_nat n).
Proof.
  intros Hn Hd; eexists; split; [done|].
  destruct (copy_forward m to from (Z.to_nat n)) as [Hc Hb]; [lia|].
  split; auto; eapply changes_only_weaken; eauto; lia.
Qed.

Lemma memmove_ok m to from n :
  0 <= n < 2 ^ 31 ->
  exists m', memmove m to from n = (m', to) /\ changes_only m m' to (to + n) /\
    bytes_at m' to (Z.to_nat n) = bytes_at m from (Z.to_nat n).
Proof.
  intros Hn; unfold memmove; case_test; [subst|case_test].
  - eexists; split; [done|]; split; auto with mem.
  - apply memcpy_ok; lia.
  - eexists; split; [done|].
    replace (s32 (u32 (n - 1)) + 1) with n by (destruct (decide (n = 0)) as [->|]; [done|word; lia]).
    destruct (copy_backward m to from (Z.to_nat n)) as [Hc Hb]; [lia|].
    split; auto; eapply changes_only_weaken; eauto; lia.
Qed.

Lemma set_forward m s v k :
  let m' := fold_left (fun m i => store8 m (s + Z.of_nat i) v) (seq 0 k) m in
  changes_only m m' s (s + Z.of_nat k) /\ bytes_at m' s k = replicate k v.
Proof.
  induction k as [|k IH].
  { split; auto with mem. }
  rewrite seq_S, fold_left_app; cbn [fold_left Nat.add].
  set (m1 := fold_left _ _ _) in *; destruct IH as [Hm1 Hb1]; split.
  - intros x Hx; rewrite store8_other by lia; apply Hm1; lia.
  - replace (S k) with (k + 1)%nat by lia; rewrite bytes_at_app, replicate_add; f_equal.
    + rewrite (bytes_at_ext m1); auto; intros; apply store8_other; lia.
    + unfold bytes_at; cbn; by rewrite Z.add_0_r, store8_same.
Qed.

Lemma memset_ok m s c n :
  0 <= n -> exists m', memset m s c n = (m', s) /\ changes_only m m' s (s + n) /\
    bytes_at m' s (Z.to_nat n) = replicate (Z.to_nat n) (u8 c).
Proof.
  intros Hn; eexists; split; [done|].
  destruct (set_forward m s (u8 c) (Z.to_nat n)) as [Hc Hb].
  split; auto; eapply changes_only_weaken; eauto; lia.
Qed.

(** ** Comparison *)

(** What the comparison functions compute on the first [k] characters of two
    strings. If a difference is found before position [k] and just one of the
    strings ends after it, the difference of the lengths overrides it. *)
Fixpoint cmp_result (f : Z -> Z) (k : nat) (s t : list Z) : Z :=
  match k with
  | O => 0
  | S k =>
      match s, t with
      | [], [] => 0
      | [], _ :: _ => -1
      | _ :: _, [] => 1
      | x :: s, y :: t =>
          if f x - f y =? 0 then cmp_result f k s t
          else match k, s, t with
               | S _, [], _ :: _ => -1
               | S _, _ :: _, [] => 1
               | _, _, _ => f x - f y
               end
      end
  end.

Lemma cstr_nil m a : cstr m a [] -> m a = 0.
Proof. intros [_ _ _ H]; by rewrite Z.add_0_r in H. Qed.

Lemma cstr_cons m a c s : cstr m a (c :: s) -> m a = c /\ 0 < c < 256 /\ cstr m (a + 1) s.
Proof.
  intros Hs; pose proof (cstr_char _ _ _ 0 Hs ltac:(cbn; lia)) as Hc.
  pose proof (cstr_lookup _ _ _ 0 Hs ltac:(cbn; lia)) as Hl; cbn in Hl; rewrite Z.add_0_r in *.
  injection Hl as Hl; split_and!; [auto|lia..|by apply (cstr_suffix m a [c])].
Qed.

(** The loop of the comparison functions from position [i] on. *)
Lemma cmp_loop_ok f m a b s t i k fuel :
  cstr m (a + i) s -> cstr m (b + i) t -> 0 <= i -> (length s < fuel)%nat -> (k < fuel)%nat \/ (length s + 1 < fuel)%nat ->
  exists i' r,
    loop fuel (fun '(i', result) =>
      if negb (m (a + i') =? 0) && negb (m (b + i') =? 0) && (0 =? result) && (i' <? i + Z.of_nat k)
      then inl (i' + 1, f (m (a + i')) - f (m (b + i')))
      else inr (i', result)) (i, 0) = Some (i', r) /\
    (if i' <? i + Z.of_nat k then
       let result := if (m (a + i') =? 0) && negb (m (b + i') =? 0) then -1 else r in
       if (m (b + i') =? 0) && negb (m (a + i') =? 0) then 1 else result
     else r) = cmp_result f k s t.
Proof.
  revert s t i k; induction fuel as [|fuel IH]; intros s t i k Hs Ht Hi Hf Hk; [lia|]; cbn [loop].
  destruct k as [|k].
  { rewrite Z.add_0_r, Z.ltb_irrefl, andb_false_r; exists i, 0; rewrite Z.ltb_irrefl; done. }
  destruct s as [|x s]; [pose proof (cstr_nil _ _ Hs) as Ea|apply cstr_cons in Hs as (Ea & ? & Hs)]; rewrite Ea;
    (destruct t as [|y t]; [pose proof (cstr_nil _ _ Ht) as Eb|apply cstr_cons in Ht as (Eb & ? & Ht)]; rewrite Eb).
  1-3: exists i, 0; rewrite Ea, Eb; cbn [cmp_result]; tests; done.
  cbn [cmp_result]; tests; rewrite <- Z.add_assoc in Hs, Ht.
  destruct (Z.eqb_spec (f x - f y) 0) as [->|Hne].
  - destruct (IH s t (i + 1) k Hs Ht) as (i' & r & Hloop & Hr); [lia|cbn in *; lia|cbn in *; lia|].
    replace (i + 1 + Z.of_nat k) with (i + Z.of_nat (S k)) in * by lia; eauto.
  - destruct fuel as [|fuel]; [cbn in *; lia|]; cbn [loop].
    replace (0 =? f x - f y) with false by (symmetry; apply Z.eqb_neq; lia).
    rewrite andb_false_r; cbn [andb]; exists (i + 1), (f x - f y); split; [done|]; clear Ea Eb.
    destruct k as [|k]; [tests; done|].
    destruct s as [|x' s], t as [|y' t];
      try (pose proof (cstr_nil _ _ Hs) as Ea); try (pose proof (cstr_nil _ _ Ht) as Eb);
      try (apply cstr_cons in Hs as (Ea & ? & _)); try (apply cstr_cons in Ht as (Eb & ? & _));
      rewrite Ea, Eb; tests; done.
Qed.

Lemma strncmp_ok m a b s t k fuel :
  cstr m a s -> cstr m b t -> (length s + 1 < fuel)%nat ->
  strncmp fuel m a b (Z.of_nat k) = Some (cmp_result (fun c => c) k s t).
Proof.
  intros Hs Ht ?; pose proof (cstr_addr _ _ _ Hs); pose proof (cstr_addr _ _ _ Ht).
  unfold strncmp, cmp_loop; tests.
  destruct (cmp_loop_ok (fun c => c) m a b s t 0 k fuel) as (i & r & Hl & Hr); rewrite ?Z.add_0_r; auto; try lia.
  rewrite Z.add_0_l in *; rewrite Hl; by cbn [mbind option_bind]; rewrite <- Hr.
Qed.

Lemma strcmp_ok m a b s t fuel :
  cstr m a s -> cstr m b t -> (length s + 1 < fuel)%nat -> (length t < fuel)%nat ->
  strcmp fuel m a b = Some (cmp_result (fun c => c) (Nat.max (length s) (length t)) s t).
Proof.
  intros Hs Ht ??; unfold strcmp; rewrite (strlen_ok m a s), (strlen_ok m b t) by (auto; lia).
  cbn [mbind option_bind]; rewrite <- (strncmp_ok m a b s t _ fuel) by auto; f_equal; case_test; lia.
Qed.

Lemma cmp_result_zero f s t k :
  (forall x y, f x = f y -> x = y) -> cmp_result f k s t = 0 <-> take k s = take k t.
Proof.
  intros Hf; revert s t; induction k as [|k IH]; intros s t; [done|].
  destruct s as [|x s], t as [|y t]; cbn; try done.
  case_test.
  - rewrite IH; split; [intros ->; f_equal; apply Hf; lia|congruence].
  - split; [|intros [= -> _]; lia]; intros E; exfalso; destruct k, s, t; lia.
Qed.

(** The order of strings: that of their first difference. *)
Fixpoint lex (s t : list Z) : comparison :=
  match s, t with
  | [], [] => Eq
  | [], _ :: _ => Lt
  | _ :: _, [] => Gt
  | x :: s, y :: t => match x ?= y with Eq => lex s t | c => c end
  end.

Lemma cmp_result_lex s t :
  length s = length t -> (cmp_result (fun c => c) (length s) s t ?= 0) = lex s t.
Proof.
  revert t; induction s as [|x s IH]; intros [|y t] Hl; cbn in *; try done.
  injection Hl as Hl; case_test.
  - replace y with x by lia; rewrite Z.compare_refl; auto.
  - match goal with |- (?e ?= 0) = _ => replace e with (x - y) by (destruct s, t; done) end.
    destruct (Z.compare_spec x y); [lia|apply Z.compare_lt_iff; lia|apply Z.compare_gt_iff; lia].
Qed.

(** ** Spans and tokens *)

Lemma scan_set_ok m b cs c fuel :
  cstr m b cs -> c <> 0 -> (length cs < fuel)%nat ->
  scan_set fuel m b c = Some (if decide (c ∈ cs) then c else 0).
Proof.
  unfold scan_set; revert b fuel; induction cs as [|x cs IH]; intros b fuel Hcs Hc Hf;
    (destruct fuel as [|fuel]; [cbn in *; lia|]); cbn [loop].
  - rewrite (cstr_nil _ _ Hcs); done.
  - apply cstr_cons in Hcs as (-> & ? & Hcs); tests; case_test.
    + subst; rewrite decide_True by left; done.
    + rewrite IH by (auto; cbn in *; lia); f_equal; do 2 case_decide; set_solver.
Qed.

(** [s] splits into a longest prefix of characters for which [P] holds, and the rest. *)
Definition spans (P : Z -> Prop) (s p r : list Z) : Prop :=
  s = p ++ r /\ Forall P p /\ match r with [] => True | c :: _ => ~ P c end.

Lemma spans_exists (P : Z -> Prop) `{forall c, Decision (P c)} s : exists p r, spans P s p r.
Proof.
  induction s as [|c s (p & r & -> & Hp & Hr)].
  - exists [], []; split_and!; auto.
  - destruct (decide (P c)).
    + exists (c :: p), r; split_and!; auto.
    + exists [], (c :: p ++ r); split_and!; auto.
Qed.

Lemma span_byte m a p r j :
  cstr m a (p ++ r) -> 0 <= j < Z.of_nat (length p) -> m (a + j) ∈ p /\ 0 < m (a + j) < 256.
Proof.
  intros Hs Hj; split.
  - apply (list_elem_of_lookup_2 _ (Z.to_nat j)).
    pose proof (cstr_lookup m a (p ++ r) (Z.to_nat j) Hs) as Hl; rewrite length_app in Hl.
    rewrite lookup_app_l in Hl by lia; rewrite Hl, Z2Nat.id by lia; done.
  - apply (cstr_char m a (p ++ r)); auto; rewrite length_app; lia.
Qed.

Lemma strspn_ok m a b cs s p r fuel :
  cstr m a s -> cstr m b cs -> spans (fun c => c ∈ cs) s p r ->
  (length s < fuel)%nat -> (length cs < fuel)%nat -> strspn fuel m a b = Some (Z.of_nat (length p)).
Proof.
  intros Hs Hcs (-> & Hp & Hr) Hf ?; unfold strspn; rewrite length_app in Hf.
  erewrite (loop_count _ 0 (Z.of_nat (length p)) (Some (Z.of_nat (length p)))); [done| | |lia].
  - intros j Hj; destruct (span_byte _ _ _ _ j Hs) as [Hin ?]; [lia|]; tests.
    rewrite (scan_set_ok m b cs) by (auto; lia).
    rewrite Forall_forall in Hp; rewrite decide_True by (apply Hp; by apply list_elem_of_In).
    by tests.
  - rewrite Z.add_0_l; apply cstr_suffix in Hs; destruct r as [|c r].
    + by rewrite (cstr_nil _ _ Hs).
    + apply cstr_cons in Hs as (-> & ? & _); tests.
      by rewrite (scan_set_ok m b cs), decide_False by (auto; lia).
Qed.

Lemma strcspn_ok m a b cs s p r fuel :
  cstr m a s -> cstr m b cs -> spans (fun c => c ∉ cs) s p r ->
  (length s < fuel)%nat -> (length cs < fuel)%nat -> strcspn fuel m a b = Some (Z.of_nat (length p)).
Proof.
  intros Hs Hcs (-> & Hp & Hr) Hf ?; unfold strcspn; rewrite length_app in Hf.
  erewrite (loop_count _ 0 (Z.of_nat (length p)) (Some (Z.of_nat (length p)))); [done| | |lia].
  - intros j Hj; destruct (span_byte _ _ _ _ j Hs) as [Hin ?]; [lia|]; tests.
    rewrite (scan_set_ok m b cs) by (auto; lia).
    rewrite Forall_forall in Hp; rewrite decide_False by (apply Hp; by apply list_elem_of_In); done.
  - rewrite Z.add_0_l; apply cstr_suffix in Hs; destruct r as [|c r].
    + by rewrite (cstr_nil _ _ Hs).
    + apply cstr_cons in Hs as (-> & ? & _); tests.
      rewrite (scan_set_ok m b cs) by (auto; lia).
      destruct (decide (c ∈ cs)); [by tests|done].
Qed.

(** One call of [strtok] on the string [s] at [a]: no token if [s] consists of
    separators only; else the first token becomes a string of its own, and the
    rest of [s] after one separator is kept for the next call. *)
Lemma strtok_first m last a b cs s p tok rest fuel :
  cstr m a s -> cstr m b cs -> spans (fun c => c ∈ cs) s p (tok ++ rest) ->
  spans (fun c => c ∉ cs) (tok ++ rest) tok rest -> tok <> [] ->
  (length s < fuel)%nat -> (length cs < fuel)%nat ->
  strtok fuel m last a b =
    Some (store8 m (a + Z.of_nat (length p + length tok)) 0,
          if decide (rest = []) then 0 else a + Z.of_nat (length p + length tok) + 1,
          a + Z.of_nat (length p)).
Proof.
  intros Hs Hcs Hsp Hst Hne ??; pose proof (cstr_addr _ _ _ Hs); unfold strtok; tests.
  rewrite (strspn_ok m a b cs s p (tok ++ rest)), (strlen_ok m a s) by auto.
  destruct Hsp as (-> & _ & _); rewrite !length_app in *; cbn [mbind option_bind].
  assert (length tok <> 0%nat) by (by destruct tok); tests.
  apply cstr_suffix in Hs.
  rewrite (strcspn_ok m (a + Z.of_nat (length p)) b cs (tok ++ rest) tok rest);
    [|auto..|rewrite length_app; lia|lia]; cbn [mbind option_bind].
  rewrite <- Nat2Z.inj_add; case_decide as Hr.
  - subst rest; cbn [length]; by tests.
  - assert (length rest <> 0%nat) by (by destruct rest); by tests.
Qed.

Lemma strtok_none m last a b cs s fuel :
  cstr m a s -> cstr m b cs -> Forall (fun c => c ∈ cs) s ->
  (length s < fuel)%nat -> (length cs < fuel)%nat -> strtok fuel m last a b = Some (m, last, 0).
Proof.
  intros Hs Hcs Hall ??; pose proof (cstr_addr _ _ _ Hs); unfold strtok; tests.
  rewrite (strspn_ok m a b cs s s []), (strlen_ok m a s); auto; [cbn [mbind option_bind]; by tests|].
  split_and!; auto; by rewrite app_nil_r.
Qed.

(** The tokens of a string: its maximal runs of characters outside of [cs]. *)
Fixpoint tokens (cs : list Z) (cur : list Z) (s : list Z) : list (list Z) :=
  let emit rest := match cur with [] => rest | _ => cur :: rest end in
  match s with
  | [] => emit []
  | c :: s => if decide (c ∈ cs) then emit (tokens cs [] s) else tokens cs (cur ++ [c]) s
  end.

Lemma tokens_skip cs p s : Forall (fun c => c ∈ cs) p -> tokens cs [] (p ++ s) = tokens cs [] s.
Proof. induction 1 as [|c p Hc _ IH]; cbn; [done|]; by rewrite decide_True. Qed.

Lemma tokens_run cs tok cur s :
  Forall (fun c => c ∉ cs) tok -> tokens cs cur (tok ++ s) = tokens cs (cur ++ tok) s.
Proof.
  intros Htok; revert cur; induction Htok as [|c tok Hc _ IH]; intros cur; cbn; [by rewrite app_nil_r|].
  rewrite decide_False, IH by auto; by rewrite <- app_assoc.
Qed.

Lemma tokens_first cs s p tok rest :
  spans (fun c => c ∈ cs) s p (tok ++ rest) -> spans (fun c => c ∉ cs) (tok ++ rest) tok rest -> tok <> [] ->
  tokens cs [] s = tok :: tokens cs [] (tail rest).
Proof.
  intros (-> & Hp & _) (_ & Ht & Hr) Hne; rewrite tokens_skip, tokens_run by auto; cbn.
  destruct rest as [|c rest]; cbn.
  - by destruct tok.
  - rewrite decide_True; [by destruct tok|]; by apply dec_stable.
Qed.

(** The loop of a program that reads all tokens: [strtok(s1, s2)], then
    [strtok(0, s2)] until it returns the null pointer. *)
Fixpoint strtok_all (n fuel : nat) (m : mem) (last s1 s2 : Z) : option (mem * list Z) :=
  match n with
  | O => None
  | S n =>
      '(m, last, tok) ← strtok fuel m last s1 s2;
      if tok =? 0 then Some (m, [])
      else '(m, toks) ← strtok_all n fuel m last 0 s2; Some (m, tok :: toks)
  end.

(** Separator set and string do not overlap. *)
Definition apart (a n b k : Z) : Prop := a + n < b \/ b + k < a.

Lemma cstr_cut m a p tok rest :
  cstr m a (p ++ tok ++ rest) ->
  cstr (store8 m (a + Z.of_nat (length p + length tok)) 0) (a + Z.of_nat (length p)) tok.
Proof.
  intros Hs; pose proof (cstr_suffix _ _ _ _ Hs) as [? Hc Hb _].
  apply Forall_app in Hc as [Hc _]; rewrite length_app, bytes_at_app in Hb.
  apply app_inj_1 in Hb as [Hb _]; [|by rewrite length_bytes_at].
  split; auto.
  - rewrite (bytes_at_ext m); auto; intros; apply store8_other; lia.
  - rewrite <- Z.add_assoc, <- Nat2Z.inj_add; apply store8_same.
Qed.

Lemma strtok_resume fuel m a b : a <> 0 -> strtok fuel m a 0 b = strtok fuel m a a b.
Proof. intros; unfold strtok; by tests. Qed.

Lemma strtok_all_ok n fuel m last a b cs s s1 :
  cstr m a s -> cstr m b cs -> apart a (Z.of_nat (length s)) b (Z.of_nat (length cs)) ->
  s1 = a \/ s1 = 0 /\ last = a -> (length s < n)%nat -> (length s < fuel)%nat -> (length cs < fuel)%nat ->
  exists m' ptrs, strtok_all n fuel m last s1 b = Some (m', ptrs) /\
    Forall2 (cstr m') ptrs (tokens cs [] s) /\ changes_only m m' a (a + Z.of_nat (length s) + 1).
Proof.
  revert m last a s s1; induction n as [|n IH]; intros m last a s s1 Hs Hcs Hd Hs1 Hn Hf ?; [lia|].
  pose proof (cstr_addr _ _ _ Hs); cbn [strtok_all].
  assert (strtok fuel m last s1 b = strtok fuel m last a b) as ->
    by (destruct Hs1 as [->|[-> ->]]; [done|apply strtok_resume; lia]).
  destruct (spans_exists (fun c => c ∈ cs) s) as (p & r & Hsp).
  destruct (spans_exists (fun c => c ∉ cs) r) as (tok & rest & Hst).
  pose proof Hst as (-> & Htok & Hrest); pose proof Hsp as (Hpr & Hp & Hr).
  destruct (decide (tok = [])) as [->|Hne].
  - assert (rest = []) as ->.
    { destruct rest as [|c rest]; [done|]; cbn in *; by contradict Hr; apply dec_stable. }
    cbn in Hpr; rewrite app_nil_r in Hpr; subst p.
    rewrite (strtok_none m last a b cs s) by auto; cbn; eexists _, []; split; [done|].
    rewrite <- (app_nil_r s), tokens_skip by auto; split; auto with mem; constructor.
  - rewrite (strtok_first m last a b cs s p tok rest) by auto; cbn [mbind option_bind]; tests.
    rewrite (tokens_first cs s p tok rest) by auto; rewrite Hpr, !length_app in *.
    set (m1 := store8 _ _ _); pose proof (cstr_cut _ _ _ _ _ Hs : cstr m1 _ tok) as Htok1.
    assert (forall x, x <> a + Z.of_nat (length p + length tok) -> m1 x = m x) as Hm1 by (intros; by apply store8_other).
    assert (length tok <> 0%nat) by (by destruct tok).
    destruct rest as [|d rest]; cbn [tail] in *.
    + rewrite decide_True by done; destruct n as [|n]; [lia|]; cbn.
      eexists m1, [_]; split; [done|]; split; [by constructor|].
      intros x Hx; apply Hm1; lia.
    + rewrite decide_False by done; cbn [length] in *.
      replace (a + Z.of_nat (length p + length tok) + 1) with (a + Z.of_nat (length (p ++ tok ++ [d]))) in *
        by (rewrite !length_app; cbn; lia).
      assert (cstr m (a + Z.of_nat (length (p ++ tok ++ [d]))) rest) as Hrest0.
      { apply (cstr_suffix m a (p ++ tok ++ [d]) rest); by rewrite <- !app_assoc. }
      rewrite !length_app in *; cbn [length] in *; unfold apart in *.
      set (a' := a + Z.of_nat (length p + (length tok + 1))) in *.
      destruct (IH m1 a' a' rest 0) as (m2 & ptrs & -> & Hptrs & Hm2);
        auto; try lia.
      * apply (cstr_ext m); auto; intros; apply Hm1; lia.
      * apply (cstr_ext m); auto; intros; apply Hm1; lia.
      * eexists m2, (_ :: ptrs); split; [done|]; split.
        -- constructor; auto; apply (cstr_ext m1); auto; intros; apply Hm2; lia.
        -- intros x Hx; rewrite Hm2, Hm1; auto; lia.
Qed.

(** ** Substrings *)

(** [t] occurs in [s] at index [i]. *)
Definition occurs (t s : list Z) (i : nat) : Prop := take (length t) (drop i s) = t.

#[local] Instance occurs_dec t s i : Decision (occurs t s i).
Proof. unfold occurs; apply _. Defined.

Lemma occurs_bound t s i : occurs t s i -> t <> [] -> (i + length t <= length s)%nat.
Proof.
  intros H Hne; apply (f_equal length) in H; rewrite length_take, length_drop in H.
  assert (length t <> 0%nat) by (by destruct t); lia.
Qed.

Lemma strncmp_occurs m a b s t i fuel :
  cstr m a s -> cstr m b t -> (i <= length s)%nat -> (length s + 1 < fuel)%nat ->
  exists r, strncmp fuel m (a + Z.of_nat i) b (Z.of_nat (length t)) = Some r /\ (r = 0 <-> occurs t s i).
Proof.
  intros Hs Ht Hi Hf; eexists; split.
  - apply (strncmp_ok m _ b (drop i s) t); [|auto|rewrite length_drop; lia].
    pose proof (cstr_suffix m a (take i s) (drop i s)) as H; rewrite take_drop, length_take_le in H by lia; auto.
  - rewrite cmp_result_zero by auto; unfold occurs; by rewrite (take_ge t (length t)).
Qed.

Lemma strstr_ok m a b s t fuel :
  cstr m a s -> cstr m b t -> (length s + 2 < fuel)%nat -> (length t < fuel)%nat ->
  exists r, strstr fuel m a b = Some r /\
    ((r = 0 /\ forall i, ~ occurs t s i) \/
     (exists i, r = a + Z.of_nat i /\ occurs t s i /\ forall j, (j < i)%nat -> ~ occurs t s j)).
Proof.
  intros Hs Ht ??; unfold strstr; rewrite (strlen_ok m b t), (strlen_ok m a s) by (auto; lia).
  cbn [mbind option_bind]; case_test.
  { assert (t = []) as -> by (by destruct t); exists a; split; [done|]; right; exists 0%nat.
    split_and!; [lia|done|lia]. }
  assert (t <> []) as Hne by (by intros ->).
  match goal with |- context [loop fuel ?f 0] => set (body := f) end.
  assert (forall i, (i <= length s - length t)%nat -> (length t <= length s)%nat ->
    body (Z.of_nat i) = if decide (occurs t s i) then inr (Some (a + Z.of_nat i)) else inl (Z.of_nat i + 1)) as Hbody.
  { intros i ??; subst body; cbn beta; tests.
    destruct (strncmp_occurs m a b s t i fuel) as (r & -> & Hr); auto; try lia.
    destruct (Z.eqb_spec r 0); case_decide; tauto. }
  destruct (decide (length t <= length s)%nat) as [Hle|Hgt].
  2: { exists 0; rewrite (loop_count body 0 0 (Some 0) fuel); [|lia|subst body; by cbn; tests|lia].
       split; [done|]; left; split; [done|]; intros i Hi%occurs_bound; auto; lia. }
  destruct (first_index (occurs t s) (S (length s - length t))) as [(i & Hi & Ho & Hj)|Hnone].
  - exists (a + Z.of_nat i); rewrite (loop_count body 0 (Z.of_nat i) (Some (a + Z.of_nat i))); [eauto 10|..|lia].
    + intros j ?; rewrite <- (Z2Nat.id j) by lia; rewrite Hbody by lia; rewrite decide_False; [done|apply Hj; lia].
    + rewrite Z.add_0_l, Hbody by lia; by rewrite decide_True.
  - exists 0; rewrite (loop_count body 0 (Z.of_nat (S (length s - length t))) (Some 0)); [|..|lia].
    + split; [done|]; left; split; [done|]; intros i Hi; apply (Hnone i); auto; apply occurs_bound in Hi; auto; lia.
    + intros j ?; rewrite <- (Z2Nat.id j) by lia; rewrite Hbody by lia; rewrite decide_False; [done|apply Hnone; lia].
    + subst body; cbn beta; by tests.
Qed.

(** ** Properties *)

(** A memory that holds the given bytes at [a], for examples. *)
Definition place (a : Z) (bs : list Z) (m : mem) : mem :=
  fun x => if a <=? x then default (m x) (bs !! Z.to_nat (x - a)) else m x.

(** Proves [cstr] of a concrete string in a concrete memory. *)
Ltac cstr_demo := constructor; [lia|repeat constructor; lia|vm_compute; reflexivity..].

(** [memmove] copies [n] bytes correctly however source and target overlap, and
    changes nothing else, up to the largest [n] its loop counter can hold. *)
Theorem memmove_correct m to from n :
  0 <= n < 2 ^ 31 ->
  exists m', memmove m to from n = (m', to) /\ changes_only m m' to (to + n) /\
    bytes_at m' to (Z.to_nat n) = bytes_at m from (Z.to_nat n).
Proof. apply memmove_ok. Qed.

Lemma memmove_correct_witness :
  exists m', memmove (fun i => i) 102 100 5 = (m', 102) /\ changes_only (fun i => i) m' 102 107 /\
    bytes_at m' 102 5 = [100; 101; 102; 103; 104].
Proof. apply (memmove_correct (fun i => i) 102 100 5); lia. Defined.

(** [strcmp] of two strings terminates and returns zero exactly if they are
    equal; for strings of equal length the sign of the result is that of the
    lexicographic order. *)
Theorem strcmp_correct m a b s t fuel :
  cstr m a s -> cstr m b t -> (length s + 1 < fuel)%nat -> (length t < fuel)%nat ->
  exists r, strcmp fuel m a b = Some r /\ (r = 0 <-> s = t) /\ (length s = length t -> (r ?= 0) = lex s t).
Proof.
  intros; rewrite (strcmp_ok m a b s t) by auto; eexists; split_and!; [done| |].
  - rewrite cmp_result_zero by auto; rewrite !take_ge by lia; done.
  - intros E; rewrite E, Nat.max_id, <- E; by apply cmp_result_lex.
Qed.

Lemma strcmp_correct_witness :
  exists r, strcmp 9 (place 10 [97; 98; 0] (place 20 [97; 99; 0] (fun _ => 0))) 10 20 = Some r /\
    (r = 0 <-> [97; 98] = [97; 99]) /\ (r ?= 0) = Lt.
Proof.
  destruct (strcmp_correct (place 10 [97; 98; 0] (place 20 [97; 99; 0] (fun _ => 0))) 10 20 [97; 98] [97; 99] 9)
    as (r & E & H0 & Hlex); [cstr_demo|cstr_demo|cbn; lia|cbn; lia|].
  exists r; split_and!; [exact E|exact H0|exact (Hlex eq_refl)].
Defined.

(** [strcmp] does not order strings of different length: the loop checks for the
    end of either string after it has found a difference, so that "b", which is
    greater than "aa", compares as smaller. *)
Theorem strcmp_misorders :
  strcmp 9 (place 10 [98; 0] (place 20 [97; 97; 0] (fun _ => 0))) 10 20 = Some (-1) /\ lex [98] [97; 97] = Gt.
Proof. split; vm_compute; reflexivity. Qed.

(** Calling [strtok] until it returns null yields pointers to exactly the maximal
    runs of characters that are not separators, in order, each terminated in place,
    and writes to no byte outside the string. *)
Theorem strtok_correct n fuel m last a b cs s :
  cstr m a s -> cstr m b cs -> apart a (Z.of_nat (length s)) b (Z.of_nat (length cs)) ->
  (length s < n)%nat -> (length s < fuel)%nat -> (length cs < fuel)%nat ->
  exists m' ptrs, strtok_all n fuel m last a b = Some (m', ptrs) /\
    Forall2 (cstr m') ptrs (tokens cs [] s) /\ changes_only m m' a (a + Z.of_nat (length s) + 1).
Proof. intros; eapply strtok_all_ok; eauto. Qed.

Lemma strtok_correct_witness :
  exists m' ptrs, strtok_all 9 9 (place 10 [47; 97; 47; 47; 98; 99; 0] (place 30 [47; 0] (fun _ => 0))) 0 10 30 = Some (m', ptrs) /\
    Forall2 (cstr m') ptrs [[97]; [98; 99]].
Proof.
  destruct (strtok_correct 9 9 (place 10 [47; 97; 47; 47; 98; 99; 0] (place 30 [47; 0] (fun _ => 0))) 0 10 30
    [47] [47; 97; 47; 47; 98; 99]) as (m' & ptrs & E & H & _);
    [cstr_demo|cstr_demo|left; cbn; lia|cbn; lia|cbn; lia|cbn; lia|].
  exists m', ptrs; split; [exact E|exact H].
Defined.

(** [strstr] returns the address of the first occurrence of a string in another,
    and null if there is none. *)
Theorem strstr_correct m a b s t fuel :
  cstr m a s -> cstr m b t -> (length s + 2 < fuel)%nat -> (length t < fuel)%nat ->
  exists r, strstr fuel m a b = Some r /\
    ((r = 0 /\ forall i, ~ occurs t s i) \/
     (exists i, r = a + Z.of_nat i /\ occurs t s i /\ forall j, (j < i)%nat -> ~ occurs t s j)).
Proof. apply strstr_ok. Qed.

Lemma strstr_correct_witness :
  exists r, strstr 9 (place 10 [97; 97; 98; 0] (place 30 [97; 98; 0] (fun _ => 0))) 10 30 = Some r /\
    ((r = 0 /\ forall i, ~ occurs [97; 98] [97; 97; 98] i) \/
     (exists i, r = 10 + Z.of_nat i /\ occurs [97; 98] [97; 97; 98] i /\
        forall j, (j < i)%nat -> ~ occurs [97; 98] [97; 97; 98] j)).
Proof.
  apply (strstr_correct (place 10 [97; 97; 98; 0] (place 30 [97; 98; 0] (fun _ => 0))) 10 30 [97; 97; 98] [97; 98] 9);
    [cstr_demo|cstr_demo|cbn; lia|cbn; lia].
Defined.


End CStringProofs.
