(* ===== verification/Heap.v ===== *)
(** * The heap ([lib/internal/heap.c])

    The allocator behind [kmalloc] in the kernel and [malloc] in the C library.
    The heap is an address range tiled by chunks; a chunk is a packed header (the
    address of the footer and the bits [last] and [used], five bytes), the
    usable bytes, and a footer of four bytes that points back to the header. *)

From S2P Require Import Prelude Memory.

Module Heap.

(** ** Chunk headers *)

(** [heap_chunk_header_t] at address [c]: [footer] is the 32-bit word at offset
    0, [last] and [used] are bits 0 and 1 of the byte at offset 4. *)
Definition sizeof_header : Z := 5.
Definition footer (m : mem) (c : Z) : Z := load32 m c.
Definition last (m : mem) (c : Z) : bool := loadbit m (c + 4) 0.
Definition used (m : mem) (c : Z) : bool := loadbit m (c + 4) 1.
Definition set_footer (m : mem) (c v : Z) : mem := store32 m c v.
Definition set_last (m : mem) (c : Z) (b : bool) : mem := storebit m (c + 4) 0 b.
Definition set_used (m : mem) (c : Z) (b : bool) : mem := storebit m (c + 4) 1 b.

Definition HEAP_ENOHEADER : Z := 1.
Definition HEAP_ENOFOOTER : Z := 2.
Definition HEAP_EFOOTER : Z := 3.
Definition HEAP_ECHUNKRANGE : Z := 4.
Definition HEAP_ESIZE : Z := 5.

(** ** Data

    [heap_t]; [extension] is the null pointer or the function that grows the heap: called
    with the number of bytes needed and the current top it returns the new top, zero if it cannot.  It
    works on the state [W] of the rest of the system and makes bytes above the top
    accessible; [None] if it stops the machine. *)
Section Heap.
Context {W : Type}.

Record heap_t := mk_heap {
  start : Z;
  current_top : Z;
  extension : option (Z -> Z -> mem -> W -> option (Z * mem * W));
  validate : Z;
}.

Definition set_top (h : heap_t) (top : Z) : heap_t :=
  mk_heap (start h) top (extension h) (validate h).

(** ** Chunk primitives *)

Definition heap_next_chunk (m : mem) (chunk : Z) : Z :=
  if last m chunk then 0 else u32 (footer m chunk + 4).

Definition heap_chunk_get_size (m : mem) (chunk : Z) : Z :=
  s32 (u32 (footer m chunk - chunk - sizeof_header)).

Definition heap_validate_chunk (m : mem) (header : Z) : Z :=
  if header =? 0 then HEAP_ENOHEADER
  else if footer m header =? 0 then HEAP_ENOFOOTER
  else if negb (load32 m (footer m header) =? header) then HEAP_EFOOTER
  else if heap_chunk_get_size m header <? 0 then HEAP_ESIZE
  else 0.

(** The [while (current)] loop of [heap_validate]; [None] when the fuel runs out. *)
Fixpoint heap_validate_loop (fuel : nat) (m : mem) (heap : heap_t) (current : Z) : option Z :=
  match fuel with
  | O => None
  | S fuel =>
      if current =? 0 then Some 0
      else if current_top heap <? current then Some HEAP_ECHUNKRANGE
      else if current_top heap <? u32 (footer m current + 3) then Some HEAP_ECHUNKRANGE
      else if current <? start heap then Some HEAP_ECHUNKRANGE
      else
        let result := heap_validate_chunk m current in
        if negb (result =? 0) then Some result
        else heap_validate_loop fuel m heap (heap_next_chunk m current)
  end.

(** Each chunk takes at least nine bytes, so the number of bytes of the heap
    bounds the number of chunks. *)
Definition chunk_fuel (heap : heap_t) : nat := S (S (Z.to_nat (current_top heap - start heap))).

Definition heap_validate (m : mem) (heap : heap_t) : option Z :=
  if validate heap =? 0 then Some 0
  else heap_validate_loop (chunk_fuel heap) m heap (start heap).

Definition heap_previous_chunk (m : mem) (chunk : Z) : Z :=
  if chunk =? 0 then 0
  else
    let footer := u32 (chunk - 4) in
    if footer =? 0 then 0 else load32 m footer.

Definition heap_init_chunk (m : mem) (first last : Z) : mem * Z :=
  let header := first in
  let m := set_footer m header (u32 (last - 3)) in
  let m := store32 m (footer m header) header in
  let m := set_used m header false in
  (m, header).

Definition heap_init (m : mem) (first last : Z) (ext : option (Z -> Z -> mem -> W -> option (Z * mem * W))) :
    option (mem * heap_t * Z) :=
  let heap := mk_heap first last ext 0 in
  let '(m, header) := heap_init_chunk m (start heap) (current_top heap) in
  let m := set_last m header true in
  rc ← heap_validate m heap;
  Some (m, heap, rc).

(** [heap_chunk_split]: returns the memory and the error code. *)
Definition heap_chunk_split (m : mem) (chunk offset : Z) : mem * Z :=
  let header_old := chunk in
  let header_new := u32 (chunk + offset) in
  if chunk =? 0 then (m, 0)
  else
    (* first fill new header structure *)
    let m := set_footer m header_new (footer m header_old) in
    let m := set_last m header_new (last m header_old) in
    let m := set_used m header_new false in
    (* now adapt old header *)
    let m := set_footer m header_old (u32 (header_new - 4)) in
    let m := set_last m header_old false in
    (* finally adapt footers *)
    let m := store32 m (footer m header_old) chunk in
    let m := store32 m (footer m header_new) header_new in
    let rc := heap_validate_chunk m header_new in
    if negb (rc =? 0) then (m, rc)
    else
      let rc := heap_validate_chunk m header_old in
      if negb (rc =? 0) then (m, rc) else (m, 0).

(** The loop of [heap_get_aligned_address]. *)
Fixpoint heap_align_loop (fuel : nat) (chunk alignment base_aligned : Z) : option Z :=
  match fuel with
  | O => None
  | S fuel =>
      if u32 (base_aligned - sizeof_header) <? u32 (chunk + sizeof_header + 4)
      then heap_align_loop fuel chunk alignment (u32 (base_aligned + alignment))
      else Some base_aligned
  end.

(** The loop starts above [chunk + sizeof_header] and stops nine bytes further up. *)
Definition align_fuel : nat := 16.

(** An alignment of zero makes the division trap: no result. *)
Definition heap_get_aligned_address (chunk alignment : Z) : option Z :=
  if alignment =? 0 then None
  else
    let base := u32 (chunk + sizeof_header) in
    let base_aligned := u32 (base / alignment * alignment + alignment) in
    heap_align_loop align_fuel chunk alignment base_aligned.

(** [heap_consume_chunk] in three parts, each returning the memory and the
    pointer, 0 for failure.  First its end: mark the chunk as used. *)
Definition heap_consume_mark (m : mem) (heap : heap_t) (chunk : Z) : option (mem * Z) :=
  rc ← heap_validate m heap;
  if negb (rc =? 0) then Some (m, 0)
  else Some (set_used m chunk true, u32 (chunk + sizeof_header)).

(** Then the split of the upper part into the requested bytes and a remainder. *)
Definition heap_consume_upper (m : mem) (heap : heap_t) (chunk requested_size : Z) : option (mem * Z) :=
  if u32 (requested_size + 8 + sizeof_header) <? u32 (heap_chunk_get_size m chunk) then
    let offset := u32 (requested_size + sizeof_header + 4) in
    let '(m, rc) := heap_chunk_split m chunk offset in
    if negb (rc =? 0) then Some (m, 0)
    else
      rc ← heap_validate m heap;
      if negb (rc =? 0) then Some (m, 0) else heap_consume_mark m heap chunk
  else heap_consume_mark m heap chunk.

(** The whole function: split off an unaligned lower part first. *)
Definition heap_consume_chunk (m : mem) (heap : heap_t) (chunk requested_size alignment : Z) :
    option (mem * Z) :=
  rc ← heap_validate m heap;
  if negb (rc =? 0) then Some (m, 0)
  else if alignment =? 0 then None
  else
    let base := u32 (chunk + sizeof_header) in
    if negb (base mod alignment =? 0) then
      base_aligned ← heap_get_aligned_address chunk alignment;
      let offset := u32 (base_aligned - chunk - sizeof_header) in
      let '(m, rc) := heap_chunk_split m chunk offset in
      if negb (rc =? 0) then Some (m, 0)
      else
        let chunk := u32 (base_aligned - sizeof_header) in
        rc ← heap_validate m heap;
        if negb (rc =? 0) then Some (m, 0) else heap_consume_upper m heap chunk requested_size
    else heap_consume_upper m heap chunk requested_size.

Definition heap_chunk_sufficient (m : mem) (chunk requested alignment : Z) : option bool :=
  if chunk =? 0 then Some false
  else if used m chunk then Some false
  else if alignment =? 0 then None
  else
    let base := u32 (chunk + sizeof_header) in
    if base mod alignment =? 0 then Some (requested <=? u32 (heap_chunk_get_size m chunk))
    else
      base_aligned ← heap_get_aligned_address chunk alignment;
      Some (negb (footer m chunk <=? u32 (base_aligned + requested))).

(** ** Allocation *)

(** What both returns of [__ctOS_heap_malloc_aligned] do with the consumed chunk. *)
Definition heap_malloc_finish (m : mem) (w : W) (heap : heap_t) (ptr size : Z) : option (mem * W * heap_t * Z) :=
  rc ← heap_validate m heap;
  if negb (rc =? 0) then Some (m, w, heap, 0)
  else if u32 (heap_chunk_get_size m (u32 (ptr - sizeof_header))) <? size then Some (m, w, heap, 0)
  else Some (m, w, heap, ptr).

(** The search loop: the first sufficient chunk, 0 if there is none. *)
Fixpoint heap_search (fuel : nat) (m : mem) (current size alignment : Z) : option Z :=
  match fuel with
  | O => None
  | S fuel =>
      if current =? 0 then Some 0
      else
        ok ← heap_chunk_sufficient m current size alignment;
        if ok : bool then Some current
        else heap_search fuel m (heap_next_chunk m current) size alignment
  end.

(** The extension size requested. The cast of [heap->current_top] to a header
    pointer binds tighter than the [+ 1], which therefore adds the size of a header. *)
Definition heap_extension_size (heap : heap_t) (size alignment : Z) : option Z :=
  if alignment =? 1 then Some (u32 (size + 4 + sizeof_header))
  else
    a ← heap_get_aligned_address (u32 (current_top heap + sizeof_header)) alignment;
    Some (u32 (a - current_top heap + size + 8)).

Definition heap_malloc_aligned (m : mem) (w : W) (heap : heap_t) (size alignment : Z) :
    option (mem * W * heap_t * Z) :=
  if size =? 0 then Some (m, w, heap, 0)
  else
    current ← heap_search (chunk_fuel heap) m (start heap) size alignment;
    if negb (current =? 0) then
      '(m, ptr) ← heap_consume_chunk m heap current size alignment;
      heap_malloc_finish m w heap ptr size
    else
      extension_size ← heap_extension_size heap size alignment;
      match extension heap with
      | None => Some (m, w, heap, 0)
      | Some extend =>
          '(ext, m, w) ← extend extension_size (current_top heap) m w;
          if ext =? 0 then Some (m, w, heap, 0)
          else
            let current := u32 (current_top heap + 1) in
            let last := load32 m (u32 (current_top heap - 3)) in
            let m := set_last m last false in
            let m := set_last m current true in
            let '(m, _) := heap_init_chunk m (u32 (current_top heap + 1)) ext in
            let heap := set_top heap ext in
            let '(m, _) := heap_init_chunk m current (current_top heap) in
            '(m, ptr) ← heap_consume_chunk m heap current size alignment;
            heap_malloc_finish m w heap ptr size
      end.

Definition heap_malloc (m : mem) (w : W) (heap : heap_t) (size : Z) : option (mem * W * heap_t * Z) :=
  heap_malloc_aligned m w heap size 4.

(** ** Release *)

Fixpoint heap_last_free (fuel : nat) (m : mem) (last_free : Z) : option Z :=
  match fuel with
  | O => None
  | S fuel =>
      if heap_next_chunk m last_free =? 0 then Some last_free
      else if used m (heap_next_chunk m last_free) then Some last_free
      else heap_last_free fuel m (heap_next_chunk m last_free)
  end.

Fixpoint heap_first_free (fuel : nat) (m : mem) (heap : heap_t) (first_free : Z) : option Z :=
  match fuel with
  | O => None
  | S fuel =>
      if first_free <=? start heap then Some first_free
      else if used m (heap_previous_chunk m first_free) then Some first_free
      else heap_first_free fuel m heap (heap_previous_chunk m first_free)
  end.

Definition heap_free (m : mem) (heap : heap_t) (ptr : Z) : option mem :=
  let header := u32 (ptr - sizeof_header) in
  let m := set_used m header false in
  last_free ← heap_last_free (chunk_fuel heap) m header;
  first_free ← heap_first_free (chunk_fuel heap) m heap header;
  let orig_last := last m last_free in
  let '(m, c) := heap_init_chunk m first_free (u32 (footer m last_free + 3)) in
  let m := set_used m c false in
  Some (set_last m first_free orig_last).

(** ** Reallocation *)

(** [for (i = 0; i < n; i++) dst[i] = src[i]] *)
Fixpoint copy_bytes (n : nat) (i : Z) (m : mem) (dst src : Z) : mem :=
  match n with
  | O => m
  | S n => copy_bytes n (i + 1) (store8 m (dst + i) (load8 m (src + i))) dst src
  end.

Definition heap_realloc (m : mem) (w : W) (heap : heap_t) (ptr size : Z) : option (mem * W * heap_t * Z) :=
  if ptr =? 0 then heap_malloc m w heap size
  else
    let header := u32 (ptr - sizeof_header) in
    let old_size := u32 (heap_chunk_get_size m header) in
    if size <=? old_size then Some (m, w, heap, ptr)
    else
      '(m, w, heap, new_ptr) ← heap_malloc m w heap size;
      if new_ptr =? 0 then Some (m, w, heap, 0)
      else
        m ← heap_free m heap ptr;
        Some (copy_bytes (Z.to_nat old_size) 0 m new_ptr ptr, w, heap, new_ptr).

End Heap.
Arguments heap_t W : clear implicits.
End Heap.
