(* ===== verification/HeapProofs.v ===== *)
(** * Correctness of the heap

    The invariant of the chunk structure, the abstract view of a heap as the
    list of its allocated blocks, and the theorems that the operations of
    [Heap] preserve the one and implement the other. *)

From S2P Require Import Prelude Memory Heap.

Module HeapProofs.
Import Heap.

(** ** The chunks of a heap

    A chunk occupies the addresses from its header at [c_addr] up to, not
    including, [c_next]. *)
Record chunk := mk_chunk { c_addr : Z; c_next : Z; c_used : bool }.

Definition c_size (c : chunk) : Z := c_next c - c_addr c - 9.
Definition c_ptr (c : chunk) : Z := c_addr c + sizeof_header.

(** The chunks [l] follow each other without gap from [a] to [b]. *)
Fixpoint tiles (a : Z) (l : list chunk) (b : Z) : Prop :=
  match l with
  | [] => a = b
  | c :: l => c_addr c = a /\ a + 9 <= c_next c /\ tiles (c_next c) l b
  end.

(** The memory holds the header and the footer of [c]; [b] is the end of the heap. *)
Definition chunk_ok (m : mem) (b : Z) (c : chunk) : Prop :=
  footer m (c_addr c) = c_next c - 4 /\
  load32 m (c_next c - 4) = c_addr c /\
  used m (c_addr c) = c_used c /\
  last m (c_addr c) = (c_next c =? b).

Section Wf.
Context {W : Type}.
Implicit Types (h : heap_t W) (w : W) (I : Z -> W -> Prop).

Record heap_wf (m : mem) (h : heap_t W) (l : list chunk) : Prop := {
  wf_start : 0 < start h;
  wf_top : current_top h + 1 < 2 ^ 32;
  wf_span : current_top h + 1 - start h < 2 ^ 31;
  wf_nonempty : l <> [];
  wf_tiles : tiles (start h) l (current_top h + 1);
  wf_chunks : Forall (chunk_ok m (current_top h + 1)) l;
}.

(** ** The abstract view: allocated blocks, in address order *)
Definition block_of (c : chunk) : list (Z * Z) := if c_used c then [(c_ptr c, c_size c)] else [].
Definition blocks (l : list chunk) : list (Z * Z) := l ≫= block_of.

(** Contents of the allocated blocks are kept. *)
Definition keeps_blocks (m m' : mem) (bs : list (Z * Z)) : Prop :=
  forall q n, (q, n) ∈ bs -> bytes_at m' q (Z.to_nat n) = bytes_at m q (Z.to_nat n).

(** What the allocator relies on of its extension function, where [I top w] holds of the rest of the
    system: it returns, fails with zero, or returns a top that leaves room for the bytes
    requested, and keeps the bytes of the heap. *)
Definition extension_ok (I : Z -> W -> Prop) (h : heap_t W) : Prop :=
  forall f size top m w, extension h = Some f -> start h <= top -> 0 <= size -> top + size < 2 ^ 32 -> I top w ->
    exists r m' w', f size top m w = Some (r, m', w') /\
      (r = 0 /\ m' = m /\ I top w' \/
       top + size <= r /\ r + 1 < 2 ^ 32 /\ r + 1 - start h < 2 ^ 31 /\ (forall a, a <= top -> m' a = m a) /\ I r w').

Lemma elem_mid {A} (l1 : list A) c l2 : c ∈ l1 ++ c :: l2.
Proof. apply elem_of_app; right; apply list_elem_of_here. Qed.

Lemma elem_mid' {A} (l1 : list A) c d l2 : d ∈ l1 ++ c :: d :: l2.
Proof. apply elem_of_app; right; apply list_elem_of_further, list_elem_of_here. Qed.
#[local] Hint Resolve elem_mid elem_mid' : core.

Lemma sub_mid {A} (l1 : list A) c l2 : l1 ++ l2 ⊆ l1 ++ c :: l2.
Proof. set_solver. Qed.

(** ** Tilings *)

Lemma tiles_app a l1 l2 b : tiles a (l1 ++ l2) b <-> exists x, tiles a l1 x /\ tiles x l2 b.
Proof.
  revert a; induction l1 as [|c l1 IH]; intros a; cbn.
  - split; [intros; exists a; auto | intros (x & -> & ?); auto].
  - rewrite IH; split.
    + intros (? & ? & x & ? & ?); exists x; auto.
    + intros (x & (? & ? & ?) & ?); eauto 6.
Qed.

Lemma tiles_le a l b : tiles a l b -> a <= b.
Proof.
  revert a; induction l as [|c l IH]; cbn; intros a; [lia|].
  intros (? & ? & H%IH); lia.
Qed.

Lemma tiles_mid a l1 c l2 b :
  tiles a (l1 ++ c :: l2) b <->
  tiles a l1 (c_addr c) /\ c_addr c + 9 <= c_next c /\ tiles (c_next c) l2 b.
Proof.
  rewrite tiles_app; cbn; split.
  - intros (x & ? & <- & ? & ?); auto.
  - intros (? & ? & ?); eauto 6.
Qed.

Lemma tiles_elem a l b c : tiles a l b -> c ∈ l -> a <= c_addr c /\ c_addr c + 9 <= c_next c /\ c_next c <= b.
Proof.
  intros H (l1 & l2 & ->)%list_elem_of_split.
  apply tiles_mid in H as (H1%tiles_le & ? & H2%tiles_le); lia.
Qed.

Lemma tiles_length a l b : tiles a l b -> 9 * Z.of_nat (length l) <= b - a.
Proof.
  revert a; induction l as [|c l IH]; cbn [tiles length]; intros a; [lia|].
  intros (? & ? & H%IH); lia.
Qed.

(** ** Chunks under memory changes *)

Lemma chunk_ok_frame m m' b c :
  chunk_ok m b c -> c_addr c + 9 <= c_next c ->
  (forall x, c_addr c <= x < c_addr c + 5 \/ c_next c - 4 <= x < c_next c -> m' x = m x) ->
  chunk_ok m' b c.
Proof.
  intros (Hf & Hb & Hu & Hl) Hn Hm.
  unfold chunk_ok, footer, used, last in *.
  rewrite (load32_ext m m'), (load32_ext m m' (c_next c - 4)) by (intros; apply Hm; lia).
  rewrite !(loadbit_ext m m') by (apply Hm; lia); auto.
Qed.

(** Chunks below and above a changed range stay intact. *)
Lemma chunks_ok_frame m m' a l b e lo hi :
  Forall (chunk_ok m e) l -> tiles a l b -> b <= lo \/ hi <= a ->
  changes_only m m' lo hi -> Forall (chunk_ok m' e) l.
Proof.
  intros Hok Ht Hd Hm; apply list.Forall_forall; intros c Hc.
  pose proof (tiles_elem _ _ _ _ Ht Hc) as (? & ? & ?).
  rewrite list.Forall_forall in Hok; eapply chunk_ok_frame; eauto.
  intros x Hx; apply Hm; lia.
Qed.

Lemma blocks_app l1 l2 : blocks (l1 ++ l2) = blocks l1 ++ blocks l2.
Proof. apply bind_app. Qed.

Lemma blocks_cons c l : blocks (c :: l) = block_of c ++ blocks l.
Proof. done. Qed.

Lemma blocks_free l : Forall (fun c => c_used c = false) l -> blocks l = [].
Proof. induction 1 as [|c l Hc _ IH]; auto; rewrite blocks_cons, IH; unfold block_of; by rewrite Hc. Qed.

Lemma elem_of_blocks l q n : (q, n) ∈ blocks l -> exists c, c ∈ l /\ c_used c = true /\ q = c_ptr c /\ n = c_size c.
Proof.
  unfold blocks; intros (c & Hin & Hc)%list_elem_of_bind; exists c; revert Hin.
  unfold block_of; destruct (c_used c); [|by intros ?%not_elem_of_nil].
  intros [= -> ->]%list_elem_of_singleton; auto.
Qed.

(** A change inside [lo, hi) keeps the blocks of chunks outside of it. *)
Lemma keeps_blocks_outside m m' a l b lo hi :
  tiles a l b -> b <= lo \/ hi <= a -> changes_only m m' lo hi -> keeps_blocks m m' (blocks l).
Proof.
  intros Ht Hd Hm q n (c & Hc & _ & -> & ->)%elem_of_blocks.
  pose proof (tiles_elem _ _ _ _ Ht Hc) as (? & ? & ?).
  apply bytes_at_ext; intros x Hx; apply Hm; unfold c_ptr, c_size, sizeof_header in *; lia.
Qed.

Lemma keeps_blocks_app m m' b1 b2 : keeps_blocks m m' b1 -> keeps_blocks m m' b2 -> keeps_blocks m m' (b1 ++ b2).
Proof. intros H1 H2 q n [H|H]%elem_of_app; auto. Qed.

(** ** Navigation in a well-formed heap *)

(** The address the code has for the rest of the chunk list, 0 at its end. *)
Definition head_addr (l : list chunk) : Z := match l with [] => 0 | c :: _ => c_addr c end.

Lemma wf_elem m h l c :
  heap_wf m h l -> c ∈ l ->
  chunk_ok m (current_top h + 1) c /\ 0 < start h <= c_addr c /\ c_addr c + 9 <= c_next c /\
  c_next c <= current_top h + 1 < 2 ^ 32 /\ current_top h + 1 - start h < 2 ^ 31.
Proof.
  intros [] Hc; pose proof (tiles_elem _ _ _ _ wf_tiles0 Hc) as (? & ? & ?).
  rewrite list.Forall_forall in wf_chunks0; auto 10 with lia.
Qed.

Lemma wf_mid m h l1 c l2 :
  heap_wf m h (l1 ++ c :: l2) ->
  chunk_ok m (current_top h + 1) c /\ 0 < start h <= c_addr c /\ c_addr c + 9 <= c_next c /\
  c_next c <= current_top h + 1 < 2 ^ 32 /\ current_top h + 1 - start h < 2 ^ 31.
Proof. intros H; apply (wf_elem _ _ _ _ H); auto. Qed.

Lemma next_chunk m h l1 c l2 :
  heap_wf m h (l1 ++ c :: l2) -> heap_next_chunk m (c_addr c) = head_addr l2.
Proof.
  intros Hwf; destruct (wf_mid _ _ _ _ _ Hwf) as ((Hf & _ & _ & Hl) & ? & ? & ? & ?).
  pose proof (wf_tiles _ _ _ Hwf) as (_ & _ & Ht)%tiles_mid.
  unfold heap_next_chunk; rewrite Hl, Hf.
  destruct l2 as [|d l2]; cbn in *; [by tests|].
  destruct Ht as (-> & ? & ?%tiles_le); tests; word; lia.
Qed.

Lemma previous_chunk m h l1 c d l2 :
  heap_wf m h (l1 ++ c :: d :: l2) -> heap_previous_chunk m (c_addr d) = c_addr c.
Proof.
  intros Hwf; destruct (wf_mid _ _ _ _ _ Hwf) as ((_ & Hb & _) & ? & ? & ? & ?).
  pose proof (wf_tiles _ _ _ Hwf) as (_ & _ & Hd & _)%tiles_mid.
  unfold heap_previous_chunk; rewrite Hd; tests; word; tests; word; auto.
Qed.

Lemma get_size m h l c : heap_wf m h l -> c ∈ l -> heap_chunk_get_size m (c_addr c) = c_size c.
Proof.
  intros Hwf Hc; destruct (wf_elem _ _ _ _ Hwf Hc) as ((Hf & _) & ? & ? & ? & ?).
  unfold heap_chunk_get_size, c_size, sizeof_header; rewrite Hf; word; lia.
Qed.

Lemma validate_chunk m h l c : heap_wf m h l -> c ∈ l -> heap_validate_chunk m (c_addr c) = 0.
Proof.
  intros Hwf Hc; destruct (wf_elem _ _ _ _ Hwf Hc) as ((Hf & Hb & _) & ? & ? & ? & ?).
  unfold heap_validate_chunk; rewrite (get_size _ _ _ _ Hwf Hc), Hf, Hb.
  unfold c_size; by tests.
Qed.

Lemma validate_loop m h l1 l2 fuel :
  heap_wf m h (l1 ++ l2) -> (length l2 < fuel)%nat ->
  heap_validate_loop fuel m h (head_addr l2) = Some 0.
Proof.
  revert l1 fuel; induction l2 as [|c l2 IH]; intros l1 fuel Hwf Hfuel.
  { destruct fuel; [lia|done]. }
  destruct fuel as [|fuel]; [cbn in *; lia|]; cbn [heap_validate_loop head_addr].
  destruct (wf_mid _ _ _ _ _ Hwf) as ((Hf & _) & ? & ? & ? & ?).
  rewrite Hf, (validate_chunk _ _ _ _ Hwf) by auto; word; tests.
  rewrite (next_chunk _ _ _ _ _ Hwf).
  apply (IH (l1 ++ [c])); [by rewrite <- app_assoc | cbn in *; lia].
Qed.

Lemma head_addr_start m h l : heap_wf m h l -> head_addr l = start h.
Proof. intros []; destruct l; [done|]; cbn in *; tauto. Qed.

Lemma chunk_fuel_enough m h l : heap_wf m h l -> (length l < chunk_fuel h)%nat.
Proof. intros []; apply tiles_length in wf_tiles0; unfold chunk_fuel; lia. Qed.

(** The consistency check accepts every well-formed heap. *)
Lemma validate_ok m h l : heap_wf m h l -> heap_validate m h = Some 0.
Proof.
  intros Hwf; unfold heap_validate; case_test; auto.
  rewrite <- (head_addr_start _ _ _ Hwf).
  apply (validate_loop m h [] l); auto; eapply chunk_fuel_enough; eauto.
Qed.

(** Replaces the chunks [cs] in the middle of a heap by [cs'], when all memory
    changes stay between their ends. *)
Lemma wf_replace m m' h l1 cs cs' l2 a b :
  heap_wf m h (l1 ++ cs ++ l2) -> cs' <> [] ->
  tiles a cs b -> cs <> [] -> tiles a cs' b -> changes_only m m' a b ->
  Forall (chunk_ok m' (current_top h + 1)) cs' ->
  heap_wf m' h (l1 ++ cs' ++ l2) /\ keeps_blocks m m' (blocks l1 ++ blocks l2).
Proof.
  intros [] Hne' Hcs Hne Hcs' Hm Hok; rewrite !Forall_app in wf_chunks0.
  destruct wf_chunks0 as (H1 & _ & H2).
  rewrite tiles_app in wf_tiles0; destruct wf_tiles0 as (x & Ht1 & Ht2).
  rewrite tiles_app in Ht2; destruct Ht2 as (y & Htcs & Ht2).
  assert (x = a /\ y = b) as [-> ->].
  { destruct cs as [|c cs]; [done|]; cbn in Hcs, Htcs.
    destruct Hcs as (<- & _ & Hcs), Htcs as (-> & _ & Htcs); split; auto.
    clear - Hcs Htcs; revert Hcs Htcs; generalize (c_next c); induction cs as [|d cs IH]; cbn.
    - congruence.
    - intros z (_ & _ & ?) (_ & _ & ?); eauto. }
  split.
  - constructor; auto.
    + intros [_ [? _]%app_nil]%app_nil; done.
    + apply tiles_app; exists a; split; auto; apply tiles_app; eauto.
    + rewrite !Forall_app; split_and!; auto; eapply chunks_ok_frame; eauto; lia.
  - apply keeps_blocks_app; eapply keeps_blocks_outside; eauto; lia.
Qed.

(** ** Splitting and marking a chunk *)

(** Decides the loads of a memory built by stores to provably disjoint fields. *)
Ltac fields :=
  unfold chunk_ok, footer, last, used, set_footer, set_last, set_used in *;
  cbn [c_addr c_next c_used] in *; word; mem_simpl.

Lemma wf_chunk_ext m h l1 c l2 m' c' :
  heap_wf m h (l1 ++ c :: l2) -> c_addr c' = c_addr c -> c_next c' = c_next c ->
  changes_only m m' (c_addr c) (c_next c) -> chunk_ok m' (current_top h + 1) c' ->
  heap_wf m' h (l1 ++ c' :: l2) /\ keeps_blocks m m' (blocks l1 ++ blocks l2).
Proof.
  intros Hwf Ha Hn Hm Hok; destruct (wf_mid _ _ _ _ _ Hwf) as (? & ? & ? & ? & ?).
  apply (wf_replace m m' h l1 [c] [c'] l2 (c_addr c) (c_next c)); cbn; auto; split_and!; auto; lia.
Qed.

Lemma mark_chunk m h l1 c l2 b :
  heap_wf m h (l1 ++ c :: l2) ->
  heap_wf (set_used m (c_addr c) b) h (l1 ++ mk_chunk (c_addr c) (c_next c) b :: l2) /\
  keeps_blocks m (set_used m (c_addr c) b) (blocks l1 ++ blocks l2).
Proof.
  intros Hwf; destruct (wf_mid _ _ _ _ _ Hwf) as ((? & ? & ? & ?) & ? & ? & ? & ?).
  eapply wf_chunk_ext; eauto.
  - unfold set_used; changes.
  - fields; auto.
Qed.

Lemma chunk_split m h l1 c l2 offset :
  heap_wf m h (l1 ++ c :: l2) -> 9 <= offset -> c_addr c + offset + 9 <= c_next c ->
  exists m', heap_chunk_split m (c_addr c) offset = (m', 0) /\
    changes_only m m' (c_addr c) (c_next c) /\
    heap_wf m' h (l1 ++ mk_chunk (c_addr c) (c_addr c + offset) (c_used c) ::
                        mk_chunk (c_addr c + offset) (c_next c) false :: l2) /\
    keeps_blocks m m' (blocks l1 ++ blocks l2).
Proof.
  intros Hwf Ho Hn; destruct (wf_mid _ _ _ _ _ Hwf) as ((Hf & Hb & Hu & Hl) & ? & ? & ? & ?).
  unfold heap_chunk_split; tests; word.
  match goal with |- context [heap_validate_chunk ?x _] => set (m' := x) end.
  assert (changes_only m m' (c_addr c) (c_next c)) as Hm'.
  { subst m'; fields; rewrite Hf.
    changes. }
  set (c1 := mk_chunk (c_addr c) (c_addr c + offset) (c_used c)).
  set (c2 := mk_chunk (c_addr c + offset) (c_next c) false).
  assert (chunk_ok m' (current_top h + 1) c1) as Hc1.
  { subst m' c1; fields; rewrite ?Hf; mem_simpl; split_and!; auto; by tests. }
  assert (chunk_ok m' (current_top h + 1) c2) as Hc2.
  { subst m' c2; fields; rewrite ?Hf; mem_simpl; auto. }
  destruct (wf_replace m m' h l1 [c] [c1; c2] l2 (c_addr c) (c_next c)) as [Hwf' Hk];
    cbn; auto with lia.
  exists m'; cbn in Hwf'; split_and!; auto.
  change (c_addr c + offset) with (c_addr c2); rewrite (validate_chunk _ _ _ c2 Hwf') by auto.
  by change (c_addr c) with (c_addr c1); rewrite (validate_chunk _ _ _ c1 Hwf' (elem_mid _ _ _)).
Qed.

(** ** Alignment *)

Lemma align_loop fuel chunk al b :
  0 < chunk -> 0 < al -> chunk + 14 + al < 2 ^ 32 ->
  chunk + 5 < b < chunk + 14 + al -> b mod al = 0 -> chunk + 14 - b < Z.of_nat fuel -> (0 < fuel)%nat ->
  exists a, heap_align_loop fuel chunk al b = Some a /\ a mod al = 0 /\ chunk + 14 <= a < chunk + 14 + al.
Proof.
  revert b; induction fuel as [|fuel IH]; intros b ??? Hb Hmod Hf ?; [lia|].
  cbn [heap_align_loop]; unfold sizeof_header; word; case_test.
  - word; apply IH; try lia.
    rewrite Z.add_mod, Hmod, Z_mod_same_full by lia; apply Z.mod_0_l; lia.
  - exists b; split_and!; auto; lia.
Qed.

(** [heap_get_aligned_address] returns the first multiple of the alignment that
    leaves room for the header of the lower chunk, its footer and a new header. *)
Lemma aligned_address chunk al :
  0 < chunk -> 0 < al -> chunk + 14 + al < 2 ^ 32 ->
  exists a, heap_get_aligned_address chunk al = Some a /\ a mod al = 0 /\ chunk + 14 <= a < chunk + 14 + al.
Proof.
  intros ???; unfold heap_get_aligned_address, sizeof_header; tests; word.
  pose proof (Z.div_mod (chunk + 5) al ltac:(lia)).
  pose proof (Z.mod_pos_bound (chunk + 5) al ltac:(lia)).
  rewrite u32_small by lia.
  apply align_loop; unfold align_fuel; try lia.
  rewrite <- Z.mul_succ_l; apply Z_mod_mult.
Qed.

(** Of two multiples, one less than [al] above a bound is the smaller. *)
Lemma least_multiple al a a' x : 0 < al -> a mod al = 0 -> a' mod al = 0 -> a < x + al -> x <= a' -> a <= a'.
Proof.
  intros ? (k & ->)%Z.mod_divide (k' & ->)%Z.mod_divide ??; [|lia..].
  assert (k <= k' \/ k' + 1 <= k) as [?|?] by lia; nia.
Qed.

(** ** Consuming a chunk *)

(** The chunks [cs] hold exactly one allocated block, at [p] and of [size] bytes or more. *)
Definition carved (cs : list chunk) (p size : Z) : Prop := exists n, size <= n /\ blocks cs = [(p, n)].

Lemma consume_mark m h l1 c l2 :
  heap_wf m h (l1 ++ c :: l2) ->
  exists m', heap_consume_mark m h (c_addr c) = Some (m', c_ptr c) /\
    heap_wf m' h (l1 ++ mk_chunk (c_addr c) (c_next c) true :: l2) /\
    keeps_blocks m m' (blocks l1 ++ blocks l2).
Proof.
  intros Hwf; destruct (wf_mid _ _ _ _ _ Hwf) as (_ & ? & ? & ? & ?).
  unfold heap_consume_mark, sizeof_header; rewrite (validate_ok _ _ _ Hwf); cbn; word.
  eexists; split; eauto; by apply mark_chunk.
Qed.

Lemma keeps_blocks_trans m1 m2 m3 bs : keeps_blocks m1 m2 bs -> keeps_blocks m2 m3 bs -> keeps_blocks m1 m3 bs.
Proof. intros H12 H23 q n Hin; rewrite H23, H12; auto. Qed.

Lemma keeps_blocks_sub m m' bs bs' : bs' ⊆ bs -> keeps_blocks m m' bs -> keeps_blocks m m' bs'.
Proof. intros Hsub H q n Hin; auto. Qed.

Lemma consume_upper m h l1 c l2 size :
  heap_wf m h (l1 ++ c :: l2) -> c_used c = false -> 0 <= size <= c_size c ->
  exists m' cs, heap_consume_upper m h (c_addr c) size = Some (m', c_ptr c) /\
    heap_wf m' h (l1 ++ cs ++ l2) /\ carved cs (c_ptr c) size /\
    keeps_blocks m m' (blocks l1 ++ blocks l2).
Proof.
  intros Hwf Hu Hs; destruct (wf_mid _ _ _ _ _ Hwf) as (_ & ? & ? & ? & ?).
  unfold heap_consume_upper, c_size, sizeof_header in *.
  rewrite (get_size _ _ _ _ Hwf) by auto; unfold c_size; word; case_test.
  - destruct (chunk_split m h l1 c l2 (size + 5 + 4) Hwf) as (m1 & -> & _ & Hwf1 & Hk1); [lia..|].
    cbn; rewrite (validate_ok _ _ _ Hwf1); cbn.
    destruct (consume_mark _ _ _ _ _ Hwf1) as (m2 & Hm2 & Hwf2 & Hk2); cbn in Hm2.
    exists m2; eexists [_; _]; split_and!; [exact Hm2 | exact Hwf2 | | ].
    + eexists; split; [|reflexivity]; unfold c_size; cbn; lia.
    + eapply keeps_blocks_trans; eauto.
  - destruct (consume_mark _ _ _ _ _ Hwf) as (m2 & Hm2 & Hwf2 & Hk2).
    exists m2; eexists [_]; split_and!; [exact Hm2 | exact Hwf2 | | done].
    eexists; split; [|reflexivity]; unfold c_size; cbn; lia.
Qed.

(** A free chunk serves a request for [size] bytes at alignment [al]. *)
Definition fits (c : chunk) (size al : Z) : Prop :=
  (c_ptr c mod al = 0 -> size <= c_size c) /\
  (c_ptr c mod al <> 0 -> forall a, heap_get_aligned_address (c_addr c) al = Some a -> a + size < c_next c - 4).

Lemma chunk_sufficient m h l1 c l2 size al :
  heap_wf m h (l1 ++ c :: l2) -> 0 < al -> 0 <= size -> c_addr c + size + al + 14 < 2 ^ 32 ->
  exists b, heap_chunk_sufficient m (c_addr c) size al = Some b /\
    (b = true <-> c_used c = false /\ fits c size al).
Proof.
  intros Hwf ???; destruct (wf_mid _ _ _ _ _ Hwf) as ((Hf & _ & Hu & _) & ? & ? & ? & ?).
  unfold heap_chunk_sufficient, fits, c_ptr, sizeof_header; tests; rewrite Hu.
  destruct (c_used c) eqn:E; [exists false; naive_solver|]; word; case_test.
  - rewrite (get_size _ _ _ _ Hwf) by auto; unfold c_size; word.
    eexists; split; [done|]; rewrite Z.leb_le; tauto.
  - destruct (aligned_address (c_addr c) al) as (a & -> & ? & ?); [lia..|]; cbn.
    rewrite Hf; word; eexists; split; [done|].
    rewrite negb_true_iff, Z.leb_gt; naive_solver.
Qed.

Lemma consume_chunk m h l1 c l2 size al :
  heap_wf m h (l1 ++ c :: l2) -> c_used c = false -> 0 < al -> 0 <= size ->
  c_addr c + al + 14 < 2 ^ 32 -> fits c size al ->
  exists m' cs p, heap_consume_chunk m h (c_addr c) size al = Some (m', p) /\
    heap_wf m' h (l1 ++ cs ++ l2) /\ carved cs p size /\ p mod al = 0 /\ 0 < p /\
    keeps_blocks m m' (blocks l1 ++ blocks l2).
Proof.
  intros Hwf Hu ??? [Hfit0 Hfit]; destruct (wf_mid _ _ _ _ _ Hwf) as (_ & ? & ? & ? & ?).
  unfold heap_consume_chunk; rewrite (validate_ok _ _ _ Hwf); cbn -[Z.modulo]; tests.
  unfold c_ptr, c_size, sizeof_header in *; word; case_test; cbn.
  - destruct (consume_upper m h l1 c l2 size) as (m' & cs & ? & ? & ? & ?); eauto.
    exists m', cs, (c_ptr c); unfold c_ptr, sizeof_header in *; split_and!; auto; lia.
  - destruct (aligned_address (c_addr c) al) as (a & Ha & ? & ?); [lia..|].
    specialize (Hfit n a Ha); rewrite Ha; cbn; word.
    destruct (chunk_split m h l1 c l2 (a - c_addr c - 5) Hwf) as (m1 & -> & _ & Hwf1 & Hk1); [lia..|].
    cbn; rewrite (validate_ok _ _ _ Hwf1); cbn.
    rewrite (cons_middle (mk_chunk (c_addr c) _ _)), app_assoc in Hwf1.
    edestruct (consume_upper _ _ _ _ _ size Hwf1) as (m2 & cs & E & Hwf2 & Hc & Hk2);
      [done | unfold c_size; cbn; lia |].
    cbn in E; replace (c_addr c + (a - c_addr c - 5)) with (a - 5) in E by lia.
    unfold c_ptr, sizeof_header in E, Hc; cbn in E, Hc.
    replace (a - 5 + 5) with a in E by lia.
    replace (c_addr c + (a - c_addr c - 5) + 5) with a in Hc by lia.
    exists m2, (mk_chunk (c_addr c) (c_addr c + (a - c_addr c - 5)) (c_used c) :: cs), a.
    split_and!; auto; [by rewrite <- app_assoc in Hwf2| |lia|].
    + destruct Hc as (k & ? & Hcs); exists k; split; auto.
      rewrite blocks_cons, Hcs; unfold block_of; by rewrite Hu.
    + eapply keeps_blocks_trans; [exact Hk1|]; eapply keeps_blocks_sub; [|exact Hk2].
      rewrite blocks_app, blocks_cons; set_solver.
Qed.

(** ** Searching and growing *)

(** First fit: the search returns a free chunk that fits, or 0 when none does. *)
Lemma search_spec m h l1 l2 fuel size al :
  heap_wf m h (l1 ++ l2) -> (length l2 < fuel)%nat -> 0 < al -> 0 <= size ->
  current_top h + size + al + 14 < 2 ^ 32 ->
  exists r, heap_search fuel m (head_addr l2) size al = Some r /\
    ((r = 0 /\ Forall (fun c => ~ (c_used c = false /\ fits c size al)) l2) \/
     (exists k1 c k2, l2 = k1 ++ c :: k2 /\ r = c_addr c /\ c_used c = false /\ fits c size al /\
        Forall (fun c => ~ (c_used c = false /\ fits c size al)) k1)).
Proof.
  revert l1 fuel; induction l2 as [|c l2 IH]; intros l1 fuel Hwf Hfuel ???.
  { destruct fuel; [lia|]; exists 0; split; auto. }
  destruct fuel as [|fuel]; [cbn in *; lia|]; cbn [heap_search head_addr].
  destruct (wf_mid _ _ _ _ _ Hwf) as (_ & ? & ? & ? & ?); tests.
  destruct (chunk_sufficient m h l1 c l2 size al) as (b & -> & Hb); [done|lia..|]; cbn.
  destruct b.
  - destruct Hb as [[Hu Hf] _]; [done|]; eexists; split; [done|]; right.
    exists [], c, l2; split_and!; auto.
  - rewrite (next_chunk _ _ _ _ _ Hwf).
    assert (~ (c_used c = false /\ fits c size al)) as Hc by (intros Hc%Hb; done).
    destruct (IH (l1 ++ [c]) fuel) as (r & -> & Hr); auto; [by rewrite <- app_assoc|cbn in *; lia|].
    eexists; split; [done|]; destruct Hr as [[-> Hall]|(k1 & d & k2 & -> & -> & ? & ? & ?)]; [left|right].
    + split; auto.
    + exists (c :: k1), d, k2; split_and!; auto.
Qed.

Lemma init_chunk m a e :
  0 < a -> a + 8 <= e -> e + 1 < 2 ^ 32 ->
  exists m', heap_init_chunk m a e = (m', a) /\ changes_only m m' a (e + 1) /\
    footer m' a = e - 3 /\ load32 m' (e - 3) = a /\ used m' a = false /\ last m' a = last m a /\
    (forall x, a + 5 <= x < e - 3 -> m' x = m x).
Proof.
  intros ???; unfold heap_init_chunk; eexists; split; [done|].
  fields; split_and!; auto.
  - changes.
  - intros x Hx; rewrite storebit_other, !store32_other by lia; done.
Qed.

Lemma finish_ok m w h l p n size :
  heap_wf m h l -> (p, n) ∈ blocks l -> size <= n -> heap_malloc_finish m w h p size = Some (m, w, h, p).
Proof.
  intros Hwf (c & Hc & _ & -> & ->)%elem_of_blocks Hn.
  destruct (wf_elem _ _ _ _ Hwf Hc) as (_ & ? & ? & ? & ?).
  unfold heap_malloc_finish; rewrite (validate_ok _ _ _ Hwf); cbn.
  unfold c_ptr, sizeof_header; rewrite Z.add_simpl_r; word.
  rewrite (get_size _ _ _ _ Hwf Hc); unfold c_size in *; word; by tests.
Qed.

(** Appending a chunk that ends at the new top [e] of the heap. *)
Definition grow (m : mem) (h : heap_t W) (e : Z) : mem :=
  let m := set_last m (load32 m (u32 (current_top h - 3))) false in
  let m := set_last m (u32 (current_top h + 1)) true in
  let m := fst (heap_init_chunk m (u32 (current_top h + 1)) e) in
  fst (heap_init_chunk m (u32 (current_top h + 1)) e).

#[local] Arguments grow : simpl never.

Lemma grow_memory m h l c e :
  heap_wf m h (l ++ [c]) -> current_top h + 9 <= e -> e + 1 < 2 ^ 32 ->
  chunk_ok (grow m h e) (e + 1) (mk_chunk (current_top h + 1) (e + 1) false) /\
  last (grow m h e) (c_addr c) = false /\ used (grow m h e) (c_addr c) = c_used c /\
  (forall x, x < current_top h + 1 -> x <> c_addr c + 4 -> grow m h e x = m x).
Proof.
  intros Hwf ??; destruct (wf_mid _ _ _ _ _ Hwf) as ((_ & Hb & Hu & _) & ? & ? & ? & ?).
  pose proof (wf_tiles _ _ _ Hwf) as (_ & _ & Hnext)%tiles_mid; cbn in Hnext.
  unfold grow; word; rewrite <- Hnext in *.
  replace (current_top h - 3) with (c_next c - 4) by lia; rewrite Hb.
  set (m2 := set_last _ (c_next c) true).
  assert (forall x, x < c_next c -> x <> c_addr c + 4 -> m2 x = m x) as Hm2.
  { intros x ??; subst m2; unfold set_last; rewrite !storebit_other by lia; done. }
  assert (last m2 (c_next c) = true) as Hl2 by (subst m2; fields; auto).
  assert (last m2 (c_addr c) = false) as Hl2' by (subst m2; fields; auto).
  assert (used m2 (c_addr c) = c_used c) as Hu2 by (subst m2; fields; auto).
  clearbody m2.
  destruct (init_chunk m2 (c_next c) e) as (m3 & -> & Hm3 & _ & _ & _ & Hl3 & _); [lia..|]; cbn [fst].
  destruct (init_chunk m3 (c_next c) e) as (m4 & -> & Hm4 & ? & ? & ? & Hl4 & _); [lia..|]; cbn [fst].
  pose proof (changes_only_trans _ _ _ _ _ Hm3 Hm4) as Hm.
  unfold chunk_ok, last, used in *; cbn [c_addr c_next c_used].
  rewrite !(loadbit_ext m2 m4 (c_addr c + 4)) by (apply Hm; lia).
  split_and!; auto; try lia.
  - by replace (e + 1 - 4) with (e - 3) by lia.
  - rewrite Hl4, Hl3, Hl2; by tests.
  - intros x ??; rewrite Hm by lia; auto.
Qed.

Lemma grow_wf m h l e :
  heap_wf m h l -> current_top h + 9 <= e -> e + 1 < 2 ^ 32 -> e + 1 - start h < 2 ^ 31 ->
  heap_wf (grow m h e) (set_top h e) (l ++ [mk_chunk (current_top h + 1) (e + 1) false]) /\
  keeps_blocks m (grow m h e) (blocks l).
Proof.
  intros Hwf ???; destruct (exists_last (wf_nonempty _ _ _ Hwf)) as (l0 & c & ->).
  destruct (grow_memory _ _ _ _ e Hwf) as (Hnew & Hlast & Hused & Hm); [lia..|].
  destruct (wf_mid _ _ _ _ _ Hwf) as ((Hf & Hb & _) & ? & ? & ? & ?).
  pose proof (wf_tiles _ _ _ Hwf) as Ht; apply tiles_mid in Ht as (Ht0 & _ & Hnext); cbn in Hnext.
  assert (forall d, d ∈ l0 -> c_addr d + 9 <= c_next d /\ c_next d <= c_addr c) as Hl0.
  { intros d Hd; pose proof (tiles_elem _ _ _ _ Ht0 Hd); lia. }
  split; [constructor; auto; cbn; [lia|by destruct l0| |]|].
  - apply tiles_app; exists (current_top h + 1); cbn; split; [apply (wf_tiles _ _ _ Hwf)|lia].
  - rewrite !Forall_app, !Forall_singleton; split_and!; auto.
    + apply list.Forall_forall; intros d Hd; pose proof (Hl0 d Hd).
      pose proof (wf_chunks _ _ _ Hwf) as Hok; rewrite Forall_app, list.Forall_forall in Hok.
      destruct Hok as [Hok _]; specialize (Hok d Hd) as (? & ? & ? & Hl).
      apply (chunk_ok_frame m); [|lia|intros; apply Hm; lia].
      split_and!; auto; rewrite Hl; by tests.
    + unfold chunk_ok, footer in *; rewrite !(load32_ext m (grow m h e)) by (intros; apply Hm; lia).
      split_and!; auto; rewrite Hlast; by tests.
  - intros q n (d & Hd & _ & -> & ->)%elem_of_blocks.
    apply bytes_at_ext; intros x Hx; unfold c_ptr, c_size, sizeof_header in *.
    apply elem_of_app in Hd as [Hd|Hd%list_elem_of_singleton]; [pose proof (Hl0 d Hd)|subst d]; apply Hm; lia.
Qed.

(** Only the bytes up to the top matter. *)
Lemma heap_wf_below m m' h l :
  heap_wf m h l -> (forall a, a <= current_top h -> m' a = m a) -> heap_wf m' h l /\ keeps_blocks m m' (blocks l).
Proof.
  intros Hwf Hm; assert (Hc : forall c, c ∈ l -> c_addr c + 9 <= c_next c <= current_top h + 1).
  { intros c Hc; pose proof (tiles_elem _ _ _ _ (wf_tiles _ _ _ Hwf) Hc); lia. }
  split; [split; try apply Hwf|].
  - pose proof (wf_chunks _ _ _ Hwf) as Hok; rewrite list.Forall_forall in *; intros c Hin; pose proof (Hc c Hin).
    apply (chunk_ok_frame m); [by apply Hok|lia|]; intros x Hx; apply Hm; lia.
  - intros q n (d & Hd & _ & -> & ->)%elem_of_blocks; pose proof (Hc d Hd).
    apply bytes_at_ext; intros x Hx; unfold c_ptr, c_size, sizeof_header in *; apply Hm; lia.
Qed.

(** The extension requested leaves room for the new chunk to serve the request. *)
Lemma extension_size_enough h size al :
  0 < current_top h -> 0 < size -> 0 < al -> current_top h + size + al + 32 < 2 ^ 32 ->
  exists s, heap_extension_size h size al = Some s /\ size + 9 <= s /\ current_top h + s < 2 ^ 32 /\
    forall e, current_top h + s <= e -> fits (mk_chunk (current_top h + 1) (e + 1) false) size al.
Proof.
  intros ????; unfold heap_extension_size, fits, c_ptr, c_size, sizeof_header; cbn.
  case_test; [subst al|].
  - word; eexists; split_and!; [done|lia|lia|]; intros e He; rewrite Z.mod_1_r; split; [lia|done].
  - word; destruct (aligned_address (current_top h + 5) al) as (a & -> & ? & ?); [lia..|]; cbn; word.
    eexists; split_and!; [done|lia|lia|]; intros e He; split; [lia|]; intros _ a' Ha'.
    destruct (aligned_address (current_top h + 1) al) as (a'' & Ha'' & ? & ?); [lia..|].
    assert (a' = a'') as -> by congruence.
    assert (a'' <= a) by (apply (least_multiple al a'' a (current_top h + 15)); auto; lia); lia.
Qed.

(** ** Theorems *)

(** Where a new block of an allocation goes: the blocks before and after it are the old ones. *)
Definition allocates (bs bs' : list (Z * Z)) (p size : Z) : Prop :=
  exists b1 b2 n, size <= n /\ bs = b1 ++ b2 /\ bs' = b1 ++ (p, n) :: b2.

Lemma allocates_carved l1 cs l2 p size :
  carved cs p size -> allocates (blocks l1 ++ blocks l2) (blocks (l1 ++ cs ++ l2)) p size.
Proof.
  intros (n & ? & Hcs); exists (blocks l1), (blocks l2), n; rewrite !blocks_app, Hcs; auto.
Qed.

Lemma allocates_finish m w h l bs p size :
  heap_wf m h l -> allocates bs (blocks l) p size -> heap_malloc_finish m w h p size = Some (m, w, h, p).
Proof. intros Hwf (b1 & b2 & n & ? & -> & E); eapply finish_ok; eauto; rewrite E; auto. Qed.

Lemma blocks_free_chunk l1 c l2 : c_used c = false -> blocks (l1 ++ c :: l2) = blocks l1 ++ blocks l2.
Proof. intros Hu; rewrite blocks_app, blocks_cons; unfold block_of; by rewrite Hu. Qed.

Lemma malloc_serves m w h l1 c l2 size al :
  heap_wf m h (l1 ++ c :: l2) -> c_used c = false -> 0 < al -> 0 <= size ->
  c_addr c + al + 14 < 2 ^ 32 -> fits c size al ->
  exists m' l' p,
    ('(m, ptr) ← heap_consume_chunk m h (c_addr c) size al; heap_malloc_finish m w h ptr size) = Some (m', w, h, p) /\
    heap_wf m' h l' /\ p <> 0 /\ p mod al = 0 /\
    allocates (blocks (l1 ++ c :: l2)) (blocks l') p size /\ keeps_blocks m m' (blocks (l1 ++ c :: l2)).
Proof.
  intros Hwf Hu ??? Hfit.
  destruct (consume_chunk m h l1 c l2 size al) as (m' & cs & p & -> & Hwf' & Hc & ? & ? & Hk); auto.
  rewrite blocks_free_chunk by auto; cbn.
  pose proof (allocates_carved l1 cs l2 p size Hc) as Hal.
  rewrite (allocates_finish _ _ _ _ _ _ _ Hwf' Hal).
  exists m', (l1 ++ cs ++ l2), p; split_and!; auto; lia.
Qed.

(** The request could not be served from the chunks [l], and the heap could not grow. *)
Definition exhausted (m : mem) (w : W) (h : heap_t W) (l : list chunk) (size al : Z) (w' : W) : Prop :=
  Forall (fun c => ~ (c_used c = false /\ fits c size al)) l /\
  match extension h with
  | None => w' = w
  | Some f => exists s, heap_extension_size h size al = Some s /\ f s (current_top h) m w = Some (0, m, w')
  end.

(** A property of [__ctOS_heap_malloc_aligned] on a well-formed heap, whatever
    the size and the alignment: it terminates; the heap stays well formed; the
    contents of all allocated blocks are kept; and it either fails, without any
    change, because no free chunk fits and the heap cannot grow, or returns a non-null
    aligned pointer to a new block of at least [size] bytes, all other blocks
    being as before. *)
Lemma malloc_spec I m w h l size al :
  heap_wf m h l -> extension_ok I h -> I (current_top h) w -> 0 < size -> 0 < al -> current_top h + size + al + 32 < 2 ^ 32 ->
  exists m' w' h' l' p,
    heap_malloc_aligned m w h size al = Some (m', w', h', p) /\
    heap_wf m' h' l' /\ start h' = start h /\ extension h' = extension h /\ I (current_top h') w' /\ keeps_blocks m m' (blocks l) /\
    ((p = 0 /\ m' = m /\ h' = h /\ l' = l /\ exhausted m w h l size al w') \/
     (p <> 0 /\ p mod al = 0 /\ allocates (blocks l) (blocks l') p size)).
Proof.
  intros Hwf Hext HI ???; unfold heap_malloc_aligned; tests.
  destruct (search_spec m h [] l (chunk_fuel h) size al) as (r & Hsr & Hr); auto; try lia.
  { eapply chunk_fuel_enough; eauto. }
  rewrite (head_addr_start _ _ _ Hwf) in Hsr; rewrite Hsr.
  pose proof (tiles_le _ _ _ (wf_tiles _ _ _ Hwf)); pose proof (wf_start _ _ _ Hwf).
  cbn [mbind option_bind]; destruct Hr as [[-> Hnone]|(l1 & c & l2 & -> & -> & Hu & Hfit & _)].
  - cbn [Z.eqb negb]; pose proof (tiles_length _ _ _ (wf_tiles _ _ _ Hwf)).
    pose proof (wf_nonempty _ _ _ Hwf); assert (0 < Z.of_nat (length l)) by (destruct l; [done|cbn; lia]).
    destruct (extension_size_enough h size al) as (s & Hs & ? & ? & Hfit); [lia..|].
    rewrite Hs; cbn [mbind option_bind].
    assert (keeps_blocks m m (blocks l)) by by intros q n.
    destruct (extension h) as [f|] eqn:Ef.
    2: { exists m, w, h, l, 0; split_and!; auto; left; split_and!; auto; split; [done|]; by rewrite Ef. }
    destruct (Hext f s (current_top h) m w Ef) as (r & m1 & w1 & E1 & Hr); [lia..|done|].
    rewrite E1; cbn [mbind option_bind]; destruct Hr as [(-> & -> & HI1)|(? & ? & ? & Hm1 & HI1)].
    { exists m, w1, h, l, 0; split_and!; auto; left; split_and!; auto; split; [done|]; rewrite Ef; eauto. }
    tests; destruct (heap_wf_below m m1 h l Hwf Hm1) as [Hwf1 Hk1].
    destruct (grow_wf m1 h l r Hwf1) as [Hwf' Hk]; [lia..|].
    destruct (malloc_serves _ w1 _ _ _ _ size al Hwf') as (m' & l' & p & E & ? & ? & ? & Hal & Hk'); cbn [c_addr]; auto; try lia.
    exists m', w1, (set_top h r), l', p; rewrite <- Ef; split_and!; auto.
    + cbn [c_addr] in E; rewrite <- (u32_small (current_top h + 1)) in E by lia; exact E.
    + rewrite blocks_free_chunk, app_nil_r in Hk' by auto; eapply keeps_blocks_trans; [exact Hk1|]; eapply keeps_blocks_trans; eauto.
    + rewrite blocks_free_chunk, app_nil_r in Hal by auto; auto.
  - destruct (wf_mid _ _ _ _ _ Hwf) as (_ & ? & ? & ? & ?); tests.
    destruct (malloc_serves _ w _ _ _ _ size al Hwf) as (m' & l' & p & E & ? & ? & ? & Hal & Hk'); auto; try lia.
    exists m', w, h, l', p; split_and!; auto.
Qed.

(** [__ctOS_heap_init] on a range that holds a header and a footer builds a
    well-formed heap of one free chunk and reports success. *)
Lemma init_spec m first last ext :
  0 < first -> first + 8 <= last -> last + 1 < 2 ^ 32 -> last + 1 - first < 2 ^ 31 ->
  exists m', heap_init m first last ext = Some (m', mk_heap first last ext 0, 0) /\
    heap_wf m' (mk_heap first last ext 0) [mk_chunk first (last + 1) false] /\
    changes_only m m' first (last + 1).
Proof.
  intros; unfold heap_init; cbn [start current_top].
  destruct (init_chunk m first last) as (m1 & -> & Hm1 & ? & ? & ? & ? & _); [lia..|].
  eexists; split; [done|]; split.
  - constructor; cbn [start current_top]; auto; [cbn; lia|].
    apply Forall_singleton; fields.
    replace (last + 1 - 4) with (last - 3) by lia; split_and!; auto; by tests.
  - apply changes_only_storebit; auto; lia.
Qed.

(** ** Releasing a chunk *)

Definition all_free (l : list chunk) : Prop := Forall (fun c => c_used c = false) l.

(** The run of free chunks above a chunk ends at a used chunk or at the end of the heap. *)
Lemma last_free_spec m h l1 c l2 fuel :
  heap_wf m h (l1 ++ c :: l2) -> (length l2 < fuel)%nat ->
  exists f d r, heap_last_free fuel m (c_addr c) = Some (c_addr d) /\ c :: l2 = f ++ d :: r /\
    all_free (tail (f ++ [d])) /\ match r with [] => True | e :: _ => c_used e = true end.
Proof.
  revert l1 c fuel; induction l2 as [|d l2 IH]; intros l1 c fuel Hwf Hf.
  - destruct fuel; [lia|]; cbn [heap_last_free]; rewrite (next_chunk _ _ _ _ _ Hwf); cbn.
    exists [], c, []; split_and!; auto; constructor.
  - destruct fuel as [|fuel]; [lia|]; cbn [heap_last_free]; rewrite (next_chunk _ _ _ _ _ Hwf); cbn [head_addr].
    assert (heap_wf m h ((l1 ++ [c]) ++ d :: l2)) as Hwf' by by rewrite <- app_assoc.
    destruct (wf_mid _ _ _ _ _ Hwf') as ((_ & _ & Hu & _) & ? & ? & ? & ?); tests; rewrite Hu.
    destruct (c_used d) eqn:E.
    + exists [], c, (d :: l2); split_and!; auto; constructor.
    + destruct (IH _ _ fuel Hwf') as (f & e & r & -> & Heq & Hfree & Hr); [cbn in *; lia|].
      exists (c :: f), e, r; rewrite Heq; split_and!; auto; cbn.
      destruct f; cbn in *; simplify_eq; repeat constructor; auto.
Qed.

(** The run of free chunks below a chunk starts after a used chunk or at the start of the heap. *)
Lemma first_free_spec m h l1 c l2 fuel :
  heap_wf m h (l1 ++ c :: l2) -> (length l1 < fuel)%nat ->
  exists r d f, heap_first_free fuel m h (c_addr c) = Some (c_addr d) /\ l1 ++ [c] = r ++ d :: f /\
    all_free (removelast (d :: f)) /\ match list.last r with None => True | Some e => c_used e = true end.
Proof.
  revert c l2 fuel; induction l1 as [|d l1 IH] using rev_ind; intros c l2 fuel Hwf Hf.
  - destruct fuel; [lia|]; cbn [heap_first_free].
    pose proof (head_addr_start _ _ _ Hwf) as Hs; cbn in Hs; tests.
    exists [], c, []; split_and!; auto; constructor.
  - rewrite length_app in Hf; cbn in Hf.
    destruct fuel as [|fuel]; [lia|]; cbn [heap_first_free].
    assert (heap_wf m h (l1 ++ d :: c :: l2)) as Hwf' by by rewrite <- app_assoc in Hwf.
    destruct (wf_mid _ _ _ _ _ Hwf') as ((_ & _ & Hu & _) & ? & ? & ? & ?).
    pose proof (wf_tiles _ _ _ Hwf') as (_ & _ & Hc & _)%tiles_mid.
    tests; rewrite (previous_chunk _ _ _ _ _ _ Hwf'), Hu; destruct (c_used d) eqn:E.
    + exists (l1 ++ [d]), c, []; split_and!; auto; [constructor|by rewrite last_snoc].
    + destruct (IH _ _ fuel Hwf') as (r & e & f & -> & Heq & Hfree & Hr); [lia|].
      exists r, e, (f ++ [c]); rewrite Heq, <- app_assoc; split_and!; auto.
      rewrite app_comm_cons, removelast_last.
      assert (exists k, e :: f = k ++ [d]) as (k & Hk).
      { destruct (exists_last (l := e :: f)) as (k & d' & Hk); [done|]; exists k; rewrite Hk.
        rewrite Hk, app_assoc in Heq; apply app_inj_tail in Heq as [_ ->]; done. }
      rewrite Hk in *; rewrite removelast_last in Hfree; apply Forall_app; auto.
Qed.

(** The free run around a free chunk [c]: the code's two loops find its first and last chunk. *)
Lemma free_run m h l1 c l2 :
  heap_wf m h (l1 ++ c :: l2) -> c_used c = false ->
  exists r1 run r2 e d,
    heap_last_free (chunk_fuel h) m (c_addr c) = Some (c_addr d) /\
    heap_first_free (chunk_fuel h) m h (c_addr c) = Some (c_addr e) /\
    l1 ++ c :: l2 = r1 ++ run ++ r2 /\ c ∈ run /\ d ∈ run /\ all_free run /\
    tiles (c_addr e) run (c_next d) /\
    match list.last r1 with None => True | Some x => c_used x = true end /\
    match r2 with [] => True | x :: _ => c_used x = true end.
Proof.
  intros Hwf Hu; pose proof (chunk_fuel_enough _ _ _ Hwf) as Hfuel; rewrite length_app in Hfuel; cbn in Hfuel.
  destruct (last_free_spec m h l1 c l2 (chunk_fuel h)) as (f & d & r2 & ? & Hr & Hfree2 & ?); auto; [lia|].
  destruct (first_free_spec m h l1 c l2 (chunk_fuel h)) as (r1 & e & f' & ? & Hl & Hfree1 & ?); auto; [lia|].
  destruct (exists_last (l := e :: f')) as (P & c' & HP); [done|].
  rewrite HP, app_assoc in Hl; apply app_inj_tail in Hl as [Hl1 <-].
  rewrite HP, removelast_last in Hfree1.
  exists r1, (P ++ f ++ [d]), r2, e, d; subst l1.
  assert (c ∈ f ++ [d]) as Hc by (destruct f; cbn in Hr |- *; simplify_eq; set_solver).
  assert (all_free (f ++ [d])) as Hfree by (destruct f; cbn in Hr, Hfree2 |- *; simplify_eq; constructor; auto).
  assert ((r1 ++ P) ++ c :: l2 = r1 ++ (P ++ f ++ [d]) ++ r2) as Heq.
  { rewrite Hr, <- !app_assoc; done. }
  split_and!; auto; [set_solver..|by apply Forall_app|].
  pose proof (wf_tiles _ _ _ Hwf) as Ht; rewrite Heq in Ht.
  apply tiles_app in Ht as (x & _ & (y & (z & HtP & Htf)%tiles_app & _)%tiles_app).
  apply tiles_app in Htf as (w & Htf & <- & ? & <-).
  apply tiles_app; exists z; split; [|apply tiles_app; exists (c_addr d); cbn; auto].
  enough (x = c_addr e) by (subst; auto).
  destruct P as [|p P]; cbn in *; simplify_eq; [|by destruct HtP].
  destruct f; cbn in *; simplify_eq; auto; by destruct Htf.
Qed.

Lemma merge_run m h r1 run r2 e d :
  heap_wf m h (r1 ++ run ++ r2) -> d ∈ run -> tiles (c_addr e) run (c_next d) ->
  exists m', (let '(m', c) := heap_init_chunk m (c_addr e) (u32 (footer m (c_addr d) + 3)) in
              set_last (set_used m' c false) (c_addr e) (last m (c_addr d))) = m' /\
    heap_wf m' h (r1 ++ mk_chunk (c_addr e) (c_next d) false :: r2) /\
    keeps_blocks m m' (blocks r1 ++ blocks r2) /\
    forall x, c_addr e + 5 <= x < c_next d - 4 -> m' x = m x.
Proof.
  intros Hwf Hd Ht.
  assert (d ∈ r1 ++ run ++ r2) as Hd' by set_solver.
  destruct (wf_elem _ _ _ _ Hwf Hd') as ((Hf & _ & _ & Hl) & ? & ? & ? & ?).
  pose proof (tiles_elem _ _ _ _ Ht Hd).
  pose proof (wf_tiles _ _ _ Hwf) as Hall.
  apply tiles_app in Hall as (x & Hr1%tiles_le & (y & Hrun & _)%tiles_app).
  assert (x = c_addr e) as -> by (destruct run; [by apply not_elem_of_nil in Hd|cbn in *; lia]).
  rewrite Hf, Hl; word.
  destruct (init_chunk m (c_addr e) (c_next d - 4 + 3)) as (m1 & -> & Hm1 & ? & ? & ? & ? & Hin); [lia..|].
  eexists; split; [done|].
  match goal with |- heap_wf ?m' _ _ /\ _ => set (m2 := m') end.
  destruct (wf_replace m m2 h r1 run [mk_chunk (c_addr e) (c_next d) false] r2 (c_addr e) (c_next d) Hwf)
    as [Hwf' Hk]; [done|eauto|intros ->; by apply not_elem_of_nil in Hd|cbn; lia| | |split_and!; [exact Hwf'|exact Hk|]].
  - subst m2; unfold set_last, set_used; apply changes_only_storebit; [|lia].
    apply changes_only_storebit; [|lia]; eapply changes_only_weaken; eauto; lia.
  - apply Forall_singleton; subst m2; fields; replace (c_next d - 4 + 3 - 3) with (c_next d - 4) in * by lia.
    split_and!; auto.
  - intros z Hz; subst m2; unfold set_last, set_used; rewrite !storebit_other by lia; apply Hin; lia.
Qed.

Lemma blocks_split l b1 p n b2 :
  blocks l = b1 ++ (p, n) :: b2 ->
  exists l1 c l2, l = l1 ++ c :: l2 /\ c_used c = true /\ p = c_ptr c /\ n = c_size c /\
    blocks l1 = b1 /\ blocks l2 = b2.
Proof.
  revert b1; induction l as [|c l IH]; intros b1 H; [by destruct b1|].
  rewrite blocks_cons in H; unfold block_of in H; destruct (c_used c) eqn:E.
  - destruct b1 as [|b b1]; cbn in H; simplify_eq.
    + exists [], c, l; split_and!; auto.
    + destruct (IH b1) as (l1 & d & l2 & -> & ? & ? & ? & <- & ?); auto.
      exists (c :: l1), d, l2; split_and!; auto; rewrite blocks_cons; unfold block_of; by rewrite E.
  - destruct (IH b1) as (l1 & d & l2 & -> & ? & ? & ? & <- & ?); auto.
    exists (c :: l1), d, l2; split_and!; auto; rewrite blocks_cons; unfold block_of; by rewrite E.
Qed.

(** The chunk [c] and its neighbours cannot be merged further. *)
Definition coalesced (r1 : list chunk) (c : chunk) (r2 : list chunk) : Prop :=
  c_used c = false /\
  match list.last r1 with None => True | Some x => c_used x = true end /\
  match r2 with [] => True | x :: _ => c_used x = true end.

(** [__ctOS_heap_free] of an allocated block terminates, removes exactly that
    block, keeps the heap well formed and the contents of every block (the freed
    one included, on which [realloc] relies), and leaves the freed range inside
    one free chunk whose neighbours are both in use. *)
Lemma free_spec m h l b1 p n b2 :
  heap_wf m h l -> blocks l = b1 ++ (p, n) :: b2 ->
  exists m' r1 c r2, heap_free m h p = Some m' /\
    heap_wf m' h (r1 ++ c :: r2) /\ blocks (r1 ++ c :: r2) = b1 ++ b2 /\
    keeps_blocks m m' (blocks l) /\ coalesced r1 c r2 /\
    c_addr c <= p - sizeof_header /\ p + n + 4 <= c_next c.
Proof.
  intros Hwf (l1 & c & l2 & -> & Hu & -> & -> & <- & <-)%blocks_split.
  destruct (wf_mid _ _ _ _ _ Hwf) as (_ & ? & ? & ? & ?).
  unfold heap_free, c_ptr, c_size, sizeof_header; rewrite Z.add_simpl_r; word.
  destruct (mark_chunk _ _ _ _ _ false Hwf) as [Hwf0 Hk0].
  set (c0 := mk_chunk (c_addr c) (c_next c) false) in *.
  assert (forall x, x <> c_addr c + 4 -> set_used m (c_addr c) false x = m x) as Hm0.
  { intros; unfold set_used; by rewrite storebit_other. }
  set (m0 := set_used m (c_addr c) false) in *; clearbody m0.
  destruct (free_run _ _ _ _ _ Hwf0 eq_refl) as (r1 & run & r2 & e & d & E1 & E2 & Heq & Hc & Hd & Hfree & Ht & Hr1 & Hr2).
  cbn [c_addr c0] in E1, E2; rewrite E1, E2; cbn [mbind option_bind].
  pose proof (tiles_elem _ _ _ _ Ht Hc) as (? & _ & ?); cbn [c_addr c_next c0] in *.
  assert (blocks l1 ++ blocks l2 = blocks r1 ++ blocks r2) as Hb.
  { rewrite <- (blocks_free_chunk l1 c0 l2), Heq, !blocks_app, (blocks_free run) by auto; done. }
  rewrite Heq in Hwf0; destruct (merge_run _ _ _ _ _ _ _ Hwf0 Hd Ht) as (m' & Hm' & Hwf' & Hk & Hin).
  exists m', r1, (mk_chunk (c_addr e) (c_next d) false), r2.
  rewrite blocks_free_chunk by done; unfold coalesced; cbn [c_used c_addr c_next].
  split_and!; auto; try lia.
  - destruct (heap_init_chunk m0 _ _) in Hm' |- *; by rewrite <- Hm'.
  - rewrite blocks_app, blocks_cons; intros q k Hq.
    assert ((q, k) ∈ blocks l1 ++ blocks l2 \/ (q, k) ∈ block_of c) as [Hq'|Hq'] by set_solver.
    + rewrite Hb in *; rewrite (Hk q k), (Hk0 q k); auto.
    + unfold block_of in Hq'; rewrite Hu in Hq'; apply list_elem_of_singleton in Hq' as [= -> ->].
      apply bytes_at_ext; unfold c_ptr, c_size, sizeof_header; intros x Hx; rewrite Hin, Hm0 by lia; done.
Qed.

(** ** Reallocation *)

Lemma copy_bytes_spec n i m dst src :
  src + i + Z.of_nat n <= dst + i \/ dst + i + Z.of_nat n <= src + i ->
  changes_only m (copy_bytes n i m dst src) (dst + i) (dst + i + Z.of_nat n) /\
  forall j, i <= j < i + Z.of_nat n -> copy_bytes n i m dst src (dst + j) = m (src + j).
Proof.
  revert i m; induction n as [|n IH]; intros i m Hd; cbn [copy_bytes].
  { split; [apply changes_only_refl|lia]. }
  destruct (IH (i + 1) (store8 m (dst + i) (load8 m (src + i)))) as [Hc Hj]; [lia|]; split.
  - intros x Hx; rewrite Hc by lia; apply store8_other; lia.
  - intros j Hr; destruct (decide (j = i)) as [->|].
    + rewrite Hc by lia; apply store8_same.
    + rewrite Hj by lia; apply store8_other; lia.
Qed.

Lemma tiles_disjoint a l b c d :
  tiles a l b -> c ∈ l -> d ∈ l -> c <> d -> c_next c <= c_addr d \/ c_next d <= c_addr c.
Proof.
  intros Ht (l1 & l2 & ->)%list_elem_of_split Hd Hne.
  apply tiles_mid in Ht as (Ht1 & _ & Ht2).
  apply elem_of_app in Hd as [Hd|[->|Hd]%elem_of_cons]; [|done|].
  - pose proof (tiles_elem _ _ _ _ Ht1 Hd); lia.
  - pose proof (tiles_elem _ _ _ _ Ht2 Hd); lia.
Qed.

(** A program may write to its block: the heap stays well formed and the other blocks are kept. *)
Lemma write_block m m' h l b1 p n b2 :
  heap_wf m h l -> blocks l = b1 ++ (p, n) :: b2 -> changes_only m m' p (p + n) ->
  heap_wf m' h l /\ keeps_blocks m m' (b1 ++ b2).
Proof.
  intros Hwf (l1 & c & l2 & -> & _ & -> & -> & <- & <-)%blocks_split Hm.
  destruct (wf_mid _ _ _ _ _ Hwf) as (Hok & ? & ? & ? & ?).
  unfold c_ptr, c_size, sizeof_header in Hm.
  eapply wf_chunk_ext; eauto.
  - eapply changes_only_weaken; eauto; lia.
  - eapply chunk_ok_frame; eauto; intros x Hx; apply Hm; lia.
Qed.

Lemma allocates_remove b1 x b2 bs q size :
  allocates (b1 ++ x :: b2) bs q size ->
  exists c1 c2, bs = c1 ++ x :: c2 /\ allocates (b1 ++ b2) (c1 ++ c2) q size.
Proof.
  intros (a1 & a2 & k & ? & E & ->).
  apply app_eq_app in E as (z & [[-> ->]|[-> E]]); [|destruct z as [|y z]; cbn in E; simplify_eq].
  - exists (a1 ++ (q, k) :: z), b2; rewrite <- !app_assoc; split; auto.
    exists a1, (z ++ b2), k; split_and!; auto.
  - exists (b1 ++ [(q, k)]), b2; rewrite <- !app_assoc; split; auto.
    exists b1, b2, k; split_and!; auto; by rewrite <- app_assoc.
  - exists b1, (z ++ (q, k) :: a2); rewrite <- !app_assoc; split; auto.
    exists (b1 ++ z), a2, k; rewrite <- !app_assoc; split_and!; auto.
Qed.

(** [__ctOS_heap_realloc] of an allocated block keeps it if it is large enough;
    otherwise it fails without any change, or moves it: the result starts with the
    contents of the old block, which is released, and all other blocks and their
    contents are kept. *)
Lemma realloc_spec I m w h l b1 p n b2 size :
  heap_wf m h l -> extension_ok I h -> I (current_top h) w -> blocks l = b1 ++ (p, n) :: b2 ->
  0 <= size -> size <= n \/ current_top h + size + 36 < 2 ^ 32 ->
  exists m' w' h' l' q, heap_realloc m w h p size = Some (m', w', h', q) /\ heap_wf m' h' l' /\
    start h' = start h /\ extension h' = extension h /\ I (current_top h') w' /\
    ((size <= n /\ q = p /\ m' = m /\ w' = w /\ h' = h /\ l' = l) \/
     (n < size /\ q = 0 /\ m' = m /\ h' = h /\ l' = l /\ exhausted m w h l size 4 w') \/
     (n < size /\ q <> 0 /\ q mod 4 = 0 /\ allocates (b1 ++ b2) (blocks l') q size /\
      bytes_at m' q (Z.to_nat n) = bytes_at m p (Z.to_nat n) /\ keeps_blocks m m' (b1 ++ b2))).
Proof.
  intros Hwf Hext HI Hb ??.
  destruct (blocks_split _ _ _ _ _ Hb) as (l1 & c & l2 & Hl & Hu & Hp & Hn & _).
  assert (c ∈ l) as Hc by (subst l; auto).
  destruct (wf_elem _ _ _ _ Hwf Hc) as (_ & ? & ? & ? & ?).
  unfold heap_realloc, heap_malloc; unfold c_ptr, c_size, sizeof_header in *.
  assert (u32 (heap_chunk_get_size m (u32 (p - 5))) = n) as Hsz.
  { rewrite Hp, Z.add_simpl_r; word; rewrite (get_size _ _ _ _ Hwf Hc); unfold c_size; word; lia. }
  cbv zeta; rewrite Hsz; tests; case_test.
  { exists m, w, h, l, p; split_and!; auto; left; split_and!; auto. }
  destruct (malloc_spec I m w h l size 4) as (m1 & w1 & h1 & k1 & q & -> & Hwf1 & ? & ? & ? & Hk1 & Hcase); auto; try lia.
  cbn [mbind option_bind]; destruct Hcase as [(-> & -> & -> & -> & ?)|(? & ? & Hal)].
  { exists m, w1, h, l, 0; split_and!; auto; right; left; split_and!; auto; lia. }
  rewrite Hb in Hal; apply allocates_remove in Hal as (c1 & c2 & Hb1 & Hal); tests.
  destruct (free_spec _ _ _ _ _ _ _ Hwf1 Hb1) as (m2 & r1 & e & r2 & -> & Hwf2 & Hb2 & Hk2 & (He & _) & ? & ?).
  cbn [mbind option_bind]; pose proof Hal as (a1 & a2 & k & ? & Hb12 & Ha); rewrite Ha in Hb2.
  destruct (blocks_split _ _ _ _ _ Hb2) as (s1 & d & s2 & Hs & Hd & Hq & Hk & _).
  assert (c_next e <= c_addr d \/ c_next d <= c_addr e) as Hdis.
  { apply (tiles_disjoint _ _ _ _ _ (wf_tiles _ _ _ Hwf2)); [auto|rewrite Hs; auto|congruence]. }
  unfold c_ptr, c_size, sizeof_header in *.
  destruct (copy_bytes_spec (Z.to_nat n) 0 m2 q p) as [Hcc Hcj]; [lia|].
  set (m3 := copy_bytes _ _ _ _ _) in *; clearbody m3.
  destruct (write_block m2 m3 h1 (r1 ++ e :: r2) a1 q k a2) as [Hwf3 Hk3]; auto.
  { eapply changes_only_weaken; eauto; lia. }
  exists m3, w1, h1, (r1 ++ e :: r2), q; split_and!; auto; right; right; split_and!; auto.
  - by rewrite Hb2, <- Ha.
  - transitivity (bytes_at m2 p (Z.to_nat n)).
    + unfold bytes_at; apply list_fmap_ext; intros i j [-> ?]%lookup_seq; apply Hcj; lia.
    + rewrite (Hk2 p n), (Hk1 p n); auto; [rewrite Hb|rewrite Hb1]; auto.
  - apply (keeps_blocks_trans _ m1); [|apply (keeps_blocks_trans _ m2)].
    + eapply keeps_blocks_sub; [|exact Hk1]; rewrite Hb; apply sub_mid.
    + eapply keeps_blocks_sub; [|exact Hk2]; rewrite Hb12, Hb1.
      transitivity (c1 ++ c2); [rewrite Ha|]; apply sub_mid.
    + by rewrite Hb12.
Qed.

(** ** The heap as a store of byte arrays

    [stores m bs s]: the map [s] from pointers to contents is what the program sees
    of the blocks [bs]: its pointers are the blocks, with these bytes. *)
Definition stores (m : mem) (bs : list (Z * Z)) (s : gmap Z (list Z)) : Prop :=
  forall p cs, s !! p = Some cs <-> (p, Z.of_nat (length cs)) ∈ bs /\ bytes_at m p (length cs) = cs.

(** Distinct blocks have distinct pointers. *)
Lemma blocks_nodup m h l : heap_wf m h l -> NoDup (blocks l).*1.
Proof.
  intros Hwf; pose proof (wf_tiles _ _ _ Hwf) as Ht; clear Hwf; revert Ht.
  generalize (start h); induction l as [|c l IH]; intros a Ht; [constructor|].
  cbn in Ht; destruct Ht as (? & ? & Ht); rewrite blocks_cons.
  unfold block_of; destruct (c_used c); cbn; [|eauto].
  apply list.NoDup_cons; split; [|eauto]; intros ([q n] & Hq & Hin)%list_elem_of_fmap.
  cbn in Hq; apply elem_of_blocks in Hin as (d & Hd & _ & -> & _).
  pose proof (tiles_elem _ _ _ _ Ht Hd); unfold c_ptr in *; lia.
Qed.

Lemma keeps_block m m' bs p cs :
  keeps_blocks m m' bs -> (p, Z.of_nat (length cs)) ∈ bs ->
  bytes_at m' p (length cs) = cs <-> bytes_at m p (length cs) = cs.
Proof. intros Hk Hp; apply Hk in Hp; rewrite Nat2Z.id in Hp; by rewrite Hp. Qed.

(** Adding a block. *)
Lemma stores_insert m m' b1 b2 s p cs :
  stores m (b1 ++ b2) s -> NoDup (b1 ++ (p, Z.of_nat (length cs)) :: b2).*1 -> keeps_blocks m m' (b1 ++ b2) ->
  bytes_at m' p (length cs) = cs -> stores m' (b1 ++ (p, Z.of_nat (length cs)) :: b2) (<[p := cs]> s).
Proof.
  intros Hs Hnd Hk Hcs q ds; rewrite lookup_insert_Some, (Hs q ds).
  rewrite fmap_app in Hnd; cbn in Hnd; apply list.NoDup_app in Hnd as (Hn1 & Hd1 & [Hp2 _]%list.NoDup_cons).
  assert (p ∉ b1.*1) as Hp1 by (intros H; apply (Hd1 _ H); left).
  rewrite !elem_of_app, elem_of_cons; split.
  - intros [[<- <-]|(Hne & Hq & Hds)]; [split; auto|].
    split; [tauto|]; apply (keeps_block m m' (b1 ++ b2)); auto; by apply elem_of_app.
  - intros [[Hq|[Hq|Hq]] Hds]; [right| |right].
    + split; [intros <-; apply Hp1; by apply (list_elem_of_fmap_2 fst) in Hq|].
      split; [tauto|]; apply (keeps_block m m' (b1 ++ b2)); auto; apply elem_of_app; auto.
    + left; injection Hq as -> Hl; split; auto; rewrite <- Hds, <- Hcs; f_equal; lia.
    + split; [intros <-; apply Hp2; by apply (list_elem_of_fmap_2 fst) in Hq|].
      split; [tauto|]; apply (keeps_block m m' (b1 ++ b2)); auto; apply elem_of_app; auto.
Qed.

(** Removing a block. *)
Lemma stores_delete m b1 p n b2 s :
  stores m (b1 ++ (p, n) :: b2) s -> NoDup (b1 ++ (p, n) :: b2).*1 -> stores m (b1 ++ b2) (delete p s).
Proof.
  intros Hs Hnd q ds; rewrite lookup_delete_Some, (Hs q ds).
  rewrite fmap_app in Hnd; cbn in Hnd; apply list.NoDup_app in Hnd as (Hn1 & Hd1 & [Hp2 _]%list.NoDup_cons).
  assert (p ∉ b1.*1) as Hp1 by (intros H; apply (Hd1 _ H); left).
  rewrite !elem_of_app, elem_of_cons; split.
  - intros (Hne & [?|[[= ]|?]] & ?); auto; congruence.
  - intros [Hq ?]; split; [|tauto]; intros <-.
    by destruct Hq as [Hq%(list_elem_of_fmap_2 fst)|Hq%(list_elem_of_fmap_2 fst)].
Qed.

Lemma stores_keep m m' bs s : stores m bs s -> keeps_blocks m m' bs -> stores m' bs s.
Proof.
  intros Hs Hk q cs; rewrite (Hs q cs); split; intros [Hin ?]; split; auto; by apply (keeps_block m m' bs).
Qed.

Lemma block_size m h l p n :
  heap_wf m h l -> (p, n) ∈ blocks l -> 0 <= n /\ heap_chunk_get_size m (u32 (p - 5)) = n.
Proof.
  intros Hwf (c & Hc & _ & -> & ->)%elem_of_blocks; unfold c_ptr, sizeof_header; rewrite Z.add_simpl_r.
  destruct (wf_elem _ _ _ _ Hwf Hc) as (_ & ? & ? & ? & ?); word.
  rewrite (get_size _ _ _ _ Hwf Hc); unfold c_size; lia.
Qed.

(** What a program that uses the heap correctly can do: set it up, allocate, write
    to its blocks, and release or reallocate pointers it owns. The last index is
    what the program expects each of its pointers to hold.  Requests do not reach the end of the
    address space.  Between the operations the rest of the system may change its state, as long
    as [I] holds. *)
Inductive session (I : Z -> W -> Prop) : mem -> W -> heap_t W -> gmap Z (list Z) -> Prop :=
| session_init m w first last ext m' h rc :
    0 < first -> first + 8 <= last -> last + 1 < 2 ^ 32 -> last + 1 - first < 2 ^ 31 ->
    heap_init m first last ext = Some (m', h, rc) -> extension_ok I h -> I last w ->
    session I m' w h ∅
| session_world m w w' h s :
    session I m w h s -> I (current_top h) w' -> session I m w' h s
| session_malloc m w h s size al m' w' h' p :
    session I m w h s -> 0 <= size -> 0 < al -> current_top h + size + al + 32 < 2 ^ 32 ->
    heap_malloc_aligned m w h size al = Some (m', w', h', p) ->
    session I m' w' h' (if p =? 0 then s
                        else <[p := bytes_at m' p (Z.to_nat (heap_chunk_get_size m' (u32 (p - 5))))]> s)
| session_free m w h s p cs m' :
    session I m w h s -> s !! p = Some cs -> heap_free m h p = Some m' ->
    session I m' w h (delete p s)
| session_realloc m w h s p cs size m' w' h' q :
    session I m w h s -> s !! p = Some cs -> 0 <= size ->
    size <= Z.of_nat (length cs) \/ current_top h + size + 36 < 2 ^ 32 ->
    heap_realloc m w h p size = Some (m', w', h', q) ->
    session I m' w' h' (if (q =? 0) || (size <=? Z.of_nat (length cs)) then s
                        else <[q := cs ++ bytes_at m' (q + Z.of_nat (length cs))
                                          (Z.to_nat (heap_chunk_get_size m' (u32 (q - 5))) - length cs)]> (delete p s))
| session_write m w h s p cs i v :
    session I m w h s -> s !! p = Some cs -> (i < length cs)%nat ->
    session I (store8 m (p + Z.of_nat i) v) w h (<[p := <[i := v]> cs]> s).

Lemma extension_ok_same I h h' : start h' = start h -> extension h' = extension h -> extension_ok I h -> extension_ok I h'.
Proof. unfold extension_ok; by intros -> ->. Qed.

Lemma stores_allocates m m' h' l' bs s p size cs :
  heap_wf m' h' l' -> stores m bs s -> allocates bs (blocks l') p size -> keeps_blocks m m' bs ->
  Z.of_nat (length cs) = heap_chunk_get_size m' (u32 (p - 5)) -> bytes_at m' p (length cs) = cs ->
  stores m' (blocks l') (<[p := cs]> s).
Proof.
  intros Hwf Hs (b1 & b2 & n & ? & -> & Hb) Hk Hlen Hcs.
  pose proof (blocks_nodup _ _ _ Hwf) as Hnd.
  assert ((p, n) ∈ blocks l') as [? Hn]%(block_size _ _ _ _ _ Hwf) by (rewrite Hb; auto).
  rewrite Hb, <- Hn, <- Hlen in *; by eapply stores_insert.
Qed.

Lemma allocates_size m h l bs p size :
  heap_wf m h l -> allocates bs (blocks l) p size -> 0 < size -> size <= heap_chunk_get_size m (u32 (p - 5)).
Proof.
  intros Hwf (b1 & b2 & n & ? & _ & Hb) ?.
  assert ((p, n) ∈ blocks l) as [? Hn]%(block_size _ _ _ _ _ Hwf) by (rewrite Hb; auto); lia.
Qed.

Lemma stores_write m h l s p cs i v :
  heap_wf m h l -> stores m (blocks l) s -> s !! p = Some cs -> (i < length cs)%nat ->
  heap_wf (store8 m (p + Z.of_nat i) v) h l /\
  stores (store8 m (p + Z.of_nat i) v) (blocks l) (<[p := <[i := v]> cs]> s).
Proof.
  intros Hwf Hs Hp Hi; apply Hs in Hp as [Hp Hcs].
  destruct (list_elem_of_split _ _ Hp) as (b1 & b2 & Hb).
  destruct (write_block m (store8 m (p + Z.of_nat i) v) h l b1 p (Z.of_nat (length cs)) b2) as [Hwf' Hk]; auto.
  { intros x Hx; apply store8_other; lia. }
  split; auto; pose proof (blocks_nodup _ _ _ Hwf) as Hnd; rewrite Hb in *.
  rewrite <- insert_delete_eq, <- (length_insert cs i v); apply (stores_insert m); auto.
  - eapply stores_delete; eauto.
  - by rewrite length_insert.
  - by rewrite length_insert, bytes_at_store8, Hcs.
Qed.

Lemma session_sound I m w h s :
  session I m w h s -> exists l, heap_wf m h l /\ stores m (blocks l) s /\ extension_ok I h /\ I (current_top h) w.
Proof.
  induction 1 as [m w first last ext m' h rc ???? E ??
                 |m w w' h s _ (l & Hwf & Hs & Hext & HI) ?
                 |m w h s size al m' w' h' p _ (l & Hwf & Hs & Hext & HI) Hsz ?? E
                 |m w h s p cs m' _ (l & Hwf & Hs & Hext & HI) Hp E
                 |m w h s p cs size m' w' h' q _ (l & Hwf & Hs & Hext & HI) Hp ?? E
                 |m w h s p cs i v _ (l & Hwf & Hs & Hext & HI) Hp Hi].
  - destruct (init_spec m first last ext) as (m1 & E1 & Hwf & _); [lia..|].
    rewrite E1 in E; simplify_eq; eexists; split_and!; eauto.
    intros p cs; rewrite lookup_empty; split; [done|]; by intros [?%not_elem_of_nil _].
  - by exists l.
  - destruct (decide (size = 0)) as [->|].
    { cbn in E; simplify_eq; by exists l. }
    destruct (malloc_spec I m w h l size al) as (m1 & w1 & h1 & l' & q & E1 & Hwf' & ? & ? & ? & Hk & Hcase); auto; [lia|].
    rewrite E1 in E; simplify_eq; exists l'.
    assert (extension_ok I h') by (eapply extension_ok_same; eauto).
    destruct Hcase as [(-> & -> & -> & -> & _)|(? & _ & Hal)]; [by split_and!|]; tests; split_and!; auto.
    pose proof (allocates_size _ _ _ _ _ _ Hwf' Hal).
    eapply stores_allocates; eauto; rewrite length_bytes_at; auto; lia.
  - apply Hs in Hp as [Hp _]; destruct (list_elem_of_split _ _ Hp) as (b1 & b2 & Hb).
    destruct (free_spec _ _ _ _ _ _ _ Hwf Hb) as (m1 & r1 & c & r2 & E1 & Hwf' & Hb' & Hk & _).
    rewrite E1 in E; simplify_eq; eexists; split_and!; eauto; rewrite Hb'.
    pose proof (blocks_nodup _ _ _ Hwf) as Hnd; rewrite Hb in *.
    eapply stores_delete; eauto; by eapply stores_keep.
  - pose proof Hp as [Hpin Hcs]%Hs; destruct (list_elem_of_split _ _ Hpin) as (b1 & b2 & Hb).
    destruct (realloc_spec I m w h l _ _ _ _ size Hwf Hext HI Hb) as (m1 & w1 & h1 & l' & r & E1 & Hwf' & ? & ? & ? & Hcase); auto.
    rewrite E1 in E; simplify_eq; exists l'.
    assert (extension_ok I h') by (eapply extension_ok_same; eauto); split_and!; auto.
    destruct Hcase as [(? & -> & -> & -> & -> & ->)|[(? & -> & -> & -> & -> & _)|(? & ? & _ & Hal & Hcopy & Hk)]].
    + replace (size <=? Z.of_nat (length cs)) with true by (symmetry; by apply Z.leb_le).
      by rewrite orb_true_r.
    + done.
    + tests; pose proof (blocks_nodup _ _ _ Hwf) as Hnd; rewrite Hb in *.
      pose proof (allocates_size _ _ _ _ _ _ Hwf' Hal ltac:(lia)).
      eapply stores_allocates; eauto; [by eapply stores_delete|..].
      * rewrite length_app, length_bytes_at; lia.
      * rewrite length_app, length_bytes_at, bytes_at_app, Nat2Z.id in *; congruence.
  - destruct (stores_write _ _ _ _ _ _ _ v Hwf Hs Hp Hi); eauto.
Qed.

End Wf.
End HeapProofs.
