(* ===== verification/Malloc.v ===== *)
(** * Users of the heap: [malloc] ([lib/std/malloc.c])

    The C library keeps one heap and wraps its operations.  The kernel heap is in [KHeap]. *)

From S2P Require Import Prelude Memory Heap CString.

Module Malloc.
Import Heap.

Section Malloc.
Context {W : Type}.

(** ** The C library: the state is the memory and [__ctOS_heap] *)

Definition malloc (m : mem) (w : W) (h : heap_t W) (size : Z) : option (mem * W * heap_t W * Z) := heap_malloc m w h size.

Definition free (m : mem) (h : heap_t W) (ptr : Z) : option mem :=
  if negb (ptr =? 0) then heap_free m h ptr else Some m.

Definition realloc (m : mem) (w : W) (h : heap_t W) (ptr size : Z) : option (mem * W * heap_t W * Z) :=
  heap_realloc m w h ptr size.

Definition calloc (m : mem) (w : W) (h : heap_t W) (nelem elsize : Z) : option (mem * W * heap_t W * Z) :=
  if (nelem =? 0) || (elsize =? 0) then Some (m, w, h, 0)
  else
    '(m, w, h, ptr) ← malloc m w h (u32 (nelem * elsize));
    if negb (ptr =? 0) then
      let '(m, _) := CString.memset m ptr 0 (u32 (nelem * elsize)) in Some (m, w, h, ptr)
    else Some (m, w, h, ptr).

End Malloc.

End Malloc.
