(* ===== verification/MallocProofs.v ===== *)
(** * Heap and allocators: the properties

    The specification of the heap from [HeapProofs], stated for the interfaces the
    C library uses, and what they leave unchecked. *)

From S2P Require Import Prelude Memory Heap HeapProofs CString CStringProofs Malloc.

Module MallocProofs.
Import Heap HeapProofs Malloc.

(** ** Zeroed memory *)

Lemma calloc_spec {W} I m (w : W) h l nelem elsize :
  heap_wf m h l -> extension_ok I h -> I (current_top h) w -> 0 < nelem -> 0 < elsize -> current_top h + nelem * elsize + 36 < 2 ^ 32 ->
  exists m' w' h' l' p, calloc m w h nelem elsize = Some (m', w', h', p) /\ heap_wf m' h' l' /\
    ((p = 0 /\ m' = m /\ h' = h) \/
     (p <> 0 /\ p mod 4 = 0 /\ allocates (blocks l) (blocks l') p (nelem * elsize) /\
      bytes_at m' p (Z.to_nat (nelem * elsize)) = replicate (Z.to_nat (nelem * elsize)) 0 /\
      keeps_blocks m m' (blocks l))).
Proof.
  intros Hwf Hext HI ?? Hfit; assert (0 < nelem * elsize) by nia.
  pose proof (wf_start _ _ _ Hwf); pose proof (tiles_le _ _ _ (wf_tiles _ _ _ Hwf)).
  unfold calloc, malloc, heap_malloc; tests; rewrite u32_small by lia.
  destruct (malloc_spec I m w h l (nelem * elsize) 4) as (m1 & w1 & h1 & l1 & p & -> & Hwf1 & _ & _ & _ & Hk & Hcase); [auto; lia..|].
  cbn [mbind option_bind]; destruct Hcase as [(-> & -> & -> & -> & _)|(Hp & Hal & Ha)].
  { exists m, w1, h, l, 0; cbn; split_and!; auto. }
  tests; destruct (CStringProofs.memset_ok m1 p 0 (nelem * elsize)) as (m2 & -> & Hch & Hz); [lia|].
  destruct Ha as (b1 & b2 & n & Hn & Hb & Hb').
  destruct (write_block m1 m2 h1 l1 b1 p n b2) as [Hwf2 Hk2]; auto.
  { eapply changes_only_weaken; eauto; lia. }
  exists m2, w1, h1, l1, p; split_and!; auto; right; split_and!; auto; [by exists b1, b2, n|].
  rewrite Hb in *; eapply keeps_blocks_trans; eauto.
Qed.

(** ** Concrete heaps, for examples *)

(** A heap on the addresses 64 to 255, the same with its validation switched on,
    its memory, and its memory after a block of 16 bytes was allocated. *)
Definition demo_heap : heap_t unit := mk_heap 64 255 None 0.
Definition checked_heap : heap_t unit := mk_heap 64 255 None 1.
Definition demo_mem : mem :=
  match heap_init (W := unit) (fun _ => 0) 64 255 None with Some (m, _, _) => m | None => fun _ => 0 end.
Definition demo_used : mem :=
  match heap_malloc demo_mem tt demo_heap 16 with Some (m, _, _, _) => m | None => fun _ => 0 end.

Lemma demo_wf : heap_wf demo_mem demo_heap [mk_chunk 64 256 false].
Proof.
  constructor; cbn; try lia; [done|].
  apply Forall_singleton; split_and!; vm_compute; reflexivity.
Qed.


Lemma demo_used_wf :
  heap_wf demo_used demo_heap [mk_chunk 64 75 false; mk_chunk 75 100 true; mk_chunk 100 256 false].
Proof.
  constructor; cbn; try lia; [done|].
  repeat apply Forall_cons_2; [..|apply Forall_nil_2]; split_and!; vm_compute; reflexivity.
Qed.

(** There is nothing to keep of the rest of the system. *)
Definition no_world : Z -> unit -> Prop := fun _ _ => True.

Lemma demo_extension : extension_ok no_world demo_heap.
Proof. by intros f. Qed.

#[local] Opaque demo_mem demo_used.
#[local] Hint Resolve demo_wf demo_used_wf demo_extension : core.

(** ** Properties *)

(** C2. On a well-formed heap [__ctOS_heap_malloc_aligned] terminates for every size
    and alignment that does not leave the address space, keeps the heap well
    formed and the contents of all blocks, and either fails without any change,
    because no free chunk fits and the heap cannot grow, or returns an aligned
    pointer to a new block of at least the size requested, disjoint from all
    others, which stay as they are. *)
Theorem malloc_aligned_correct {W} I m (w : W) h l size al :
  heap_wf m h l -> extension_ok I h -> I (current_top h) w -> 0 < size -> 0 < al -> current_top h + size + al + 32 < 2 ^ 32 ->
  exists m' w' h' l' p,
    heap_malloc_aligned m w h size al = Some (m', w', h', p) /\
    heap_wf m' h' l' /\ I (current_top h') w' /\ keeps_blocks m m' (blocks l) /\
    ((p = 0 /\ m' = m /\ h' = h /\ l' = l /\ exhausted m w h l size al w') \/
     (p <> 0 /\ p mod al = 0 /\ allocates (blocks l) (blocks l') p size)).
Proof.
  intros; destruct (malloc_spec I m w h l size al) as (m' & w' & h' & l' & p & ? & ? & _ & _ & ? & ? & ?); auto.
  by exists m', w', h', l', p.
Qed.

Lemma malloc_aligned_correct_witness :
  exists m' h' l' p, heap_malloc_aligned demo_used tt demo_heap 20 16 = Some (m', tt, h', p) /\
    heap_wf m' h' l' /\ keeps_blocks demo_used m' [(80, 16)] /\ p = 128 /\ allocates [(80, 16)] (blocks l') p 20.
Proof.
  destruct (malloc_aligned_correct no_world demo_used tt demo_heap _ 20 16 demo_used_wf demo_extension I)
    as (m' & [] & h' & l' & p & E & Hwf & _ & Hk & Hcase); [done..|].
  assert (Hp : snd <$> heap_malloc_aligned demo_used tt demo_heap 20 16 = Some 128) by (vm_compute; reflexivity).
  rewrite E in Hp; injection Hp as ->; exists m', h', l', 128; split_and!; [assumption..|reflexivity|].
  destruct Hcase as [(H & _)|(_ & _ & Ha)]; [discriminate H|exact Ha].
Defined.

(** C3. [__ctOS_heap_free] of an allocated block terminates, removes exactly that
    block, keeps the heap well formed and the contents of all blocks, and leaves
    the freed bytes in one free chunk whose neighbours are both in use. *)
Theorem free_correct {W} m (h : heap_t W) l b1 p n b2 :
  heap_wf m h l -> blocks l = b1 ++ (p, n) :: b2 ->
  exists m' r1 c r2, heap_free m h p = Some m' /\
    heap_wf m' h (r1 ++ c :: r2) /\ blocks (r1 ++ c :: r2) = b1 ++ b2 /\
    keeps_blocks m m' (blocks l) /\ coalesced r1 c r2 /\
    c_addr c <= p - sizeof_header /\ p + n + 4 <= c_next c.
Proof. apply free_spec. Qed.

Lemma free_correct_witness :
  exists m' r1 c r2, heap_free demo_used demo_heap 80 = Some m' /\
    heap_wf m' demo_heap (r1 ++ c :: r2) /\ blocks (r1 ++ c :: r2) = [] /\ coalesced r1 c r2.
Proof.
  destruct (free_correct demo_used demo_heap _ [] 80 16 [] demo_used_wf eq_refl)
    as (m' & r1 & c & r2 & ? & ? & ? & _ & ? & _).
  exists m', r1, c, r2; split_and!; assumption.
Defined.

(** C4. [__ctOS_heap_realloc] of an allocated block on a well-formed heap, with a size that the block can hold or
    that does not reach the end of the address space ([current_top + size + 36 < 2^32]; beyond that the
    heap is corrupted, see [malloc_wraps_corrupts]): it returns the same pointer if the
    block is large enough; fails without change to heap and memory if no free chunk fits and the heap cannot grow; and else
    returns a new block of at least the size requested that
    holds the contents of the old one, which is released; all other blocks and
    their contents stay. *)
Theorem realloc_correct {W} I m (w : W) h l b1 p n b2 size :
  heap_wf m h l -> extension_ok I h -> I (current_top h) w -> blocks l = b1 ++ (p, n) :: b2 ->
  0 <= size -> size <= n \/ current_top h + size + 36 < 2 ^ 32 ->
  exists m' w' h' l' q, heap_realloc m w h p size = Some (m', w', h', q) /\ heap_wf m' h' l' /\ I (current_top h') w' /\
    ((size <= n /\ q = p /\ m' = m /\ w' = w /\ h' = h /\ l' = l) \/
     (n < size /\ q = 0 /\ m' = m /\ h' = h /\ l' = l /\ exhausted m w h l size 4 w') \/
     (n < size /\ q <> 0 /\ q mod 4 = 0 /\ allocates (b1 ++ b2) (blocks l') q size /\
      bytes_at m' q (Z.to_nat n) = bytes_at m p (Z.to_nat n) /\ keeps_blocks m m' (b1 ++ b2))).
Proof.
  intros Hwf Hext HI Hb ??; destruct (realloc_spec I m w h l b1 p n b2 size Hwf Hext HI Hb)
    as (m' & w' & h' & l' & q & ? & ? & _ & _ & ? & ?); auto.
  by exists m', w', h', l', q.
Qed.

Lemma realloc_correct_witness :
  exists m' h' l' q, heap_realloc demo_used tt demo_heap 80 40 = Some (m', tt, h', q) /\ heap_wf m' h' l' /\
    q = 116 /\ bytes_at m' q 16 = bytes_at demo_used 80 16.
Proof.
  destruct (realloc_correct no_world demo_used tt demo_heap _ [] 80 16 [] 40 demo_used_wf demo_extension I eq_refl)
    as (m' & [] & h' & l' & q & E & Hwf & _ & Hcase); [done|right; reflexivity|].
  assert (Hq : snd <$> heap_realloc demo_used tt demo_heap 80 40 = Some 116) by (vm_compute; reflexivity).
  rewrite E in Hq; injection Hq as ->; exists m', h', l', 116; split_and!; [assumption..|reflexivity|].
  destruct Hcase as [(H & _)|[(_ & H & _)|(_ & _ & _ & _ & H & _)]]; [by destruct H|discriminate H|exact H].
Defined.

(** C1. Refinement: a client initialises the heap and then performs any sequence of allocations, releases,
    reallocations and writes into blocks, releasing and writing only what it owns, where no request that needs a new block
    comes near the end of the address space: [current_top + size + alignment + 32 < 2^32] (for
    [realloc], [current_top + size + 36 < 2^32]); a larger request corrupts the heap, see [malloc_wraps_corrupts].
    Then the heap stays well
    formed and its blocks hold exactly the contents of the abstract store, a map
    from pointers to byte strings on which these operations act independently.  In between
    the rest of the system, on which the extension function works, may change in any way that
    keeps what the extension function relies on. *)
Theorem heap_refines_store {W} I m (w : W) h s :
  session I m w h s -> exists l, heap_wf m h l /\ stores m (blocks l) s.
Proof. intros (l & ? & ? & _)%session_sound; eauto. Qed.

(** A block of 19 bytes whose first byte is then written. *)
Lemma heap_refines_store_witness :
  exists m h l p, session no_world m tt h {[p := 7 :: bytes_at m (p + 1) 18]} /\ heap_wf m h l /\ p = 80 /\
    stores m (blocks l) {[p := 7 :: bytes_at m (p + 1) 18]}.
Proof.
  assert (session no_world demo_mem tt demo_heap ∅) as H0.
  { eapply (session_init no_world (fun _ => 0) tt 64 255 None); [lia..|reflexivity|exact demo_extension|exact I]. }
  destruct (malloc_spec no_world demo_mem tt demo_heap _ 19 4 demo_wf demo_extension I)
    as (m1 & [] & h1 & l1 & p & E & _); [done..|].
  assert (Hp : ('(m, _, _, q) ← heap_malloc_aligned demo_mem tt demo_heap 19 4;
     Some (q, heap_chunk_get_size m (u32 (q - 5)))) = Some (80, 19)) by (vm_compute; reflexivity).
  rewrite E in Hp; injection Hp as -> Hn.
  pose proof (session_malloc no_world demo_mem tt demo_heap ∅ 19 4 m1 tt h1 80 H0 ltac:(lia) eq_refl eq_refl E) as H1.
  cbn [Z.eqb] in H1; rewrite Hn in H1.
  pose proof (session_write no_world m1 tt h1 _ 80 (bytes_at m1 80 (Z.to_nat 19)) 0 7 H1 (lookup_insert_eq _ _ _)
    ltac:(rewrite length_bytes_at; lia)) as H2.
  assert (Es : <[80 := <[0%nat := 7]> (bytes_at m1 80 (Z.to_nat 19))]> (<[80 := bytes_at m1 80 (Z.to_nat 19)]> (∅ : gmap Z (list Z))) =
    {[80 := 7 :: bytes_at (store8 m1 (80 + Z.of_nat 0) 7) (80 + 1) 18]}).
  { rewrite insert_insert_eq; f_equal. }
  rewrite Es in H2; destruct (heap_refines_store _ _ _ _ _ H2) as (l & Hwf & Hs).
  exists (store8 m1 (80 + Z.of_nat 0) 7), h1, l, 80; split_and!; [exact H2|exact Hwf|reflexivity|exact Hs].
Defined.

(** [calloc] returns null, without a change, or a new block of [nelem * elsize]
    zero bytes, if that product does not overflow; other blocks keep their contents. *)
Theorem calloc_correct {W} I m (w : W) h l nelem elsize :
  heap_wf m h l -> extension_ok I h -> I (current_top h) w -> 0 < nelem -> 0 < elsize -> current_top h + nelem * elsize + 36 < 2 ^ 32 ->
  exists m' w' h' l' p, calloc m w h nelem elsize = Some (m', w', h', p) /\ heap_wf m' h' l' /\
    ((p = 0 /\ m' = m /\ h' = h) \/
     (p <> 0 /\ p mod 4 = 0 /\ allocates (blocks l) (blocks l') p (nelem * elsize) /\
      bytes_at m' p (Z.to_nat (nelem * elsize)) = replicate (Z.to_nat (nelem * elsize)) 0 /\
      keeps_blocks m m' (blocks l))).
Proof. apply calloc_spec. Qed.

Lemma calloc_correct_witness :
  exists m' h' l' p, calloc demo_used tt demo_heap 3 4 = Some (m', tt, h', p) /\ heap_wf m' h' l' /\
    p = 116 /\ bytes_at m' p 12 = replicate 12 0.
Proof.
  destruct (calloc_correct no_world demo_used tt demo_heap _ 3 4 demo_used_wf demo_extension I)
    as (m' & [] & h' & l' & p & E & Hwf & Hcase); [done..|].
  assert (Hp : snd <$> calloc demo_used tt demo_heap 3 4 = Some 116) by (vm_compute; reflexivity).
  rewrite E in Hp; injection Hp as ->; exists m', h', l', 116; split_and!; [assumption..|reflexivity|].
  destruct Hcase as [(H & _)|(_ & _ & _ & H & _)]; [discriminate H|exact H].
Defined.

(** A request close to the size of the address space wraps around in the
    computation of the end of the block: on a heap of 192 free bytes,
    [malloc(2^32 - 8)] returns null but has overwritten a footer, and the heap
    does not validate any more. *)
Theorem malloc_wraps_corrupts :
  ('(m, _, h, p) ← malloc demo_mem tt demo_heap (2 ^ 32 - 8); rc ← heap_validate m checked_heap;
   Some (heap_validate demo_mem checked_heap, p, rc)) = Some (Some 0, 0, HEAP_EFOOTER).
Proof. vm_compute; reflexivity. Qed.

(** [calloc] does not check the product of its arguments: a request for 2^30 + 1
    elements of four bytes is served with a block of four bytes. *)
Theorem calloc_wraps :
  ('(m, _, h, p) ← calloc demo_mem tt demo_heap (2 ^ 30 + 1) 4; Some (p, heap_chunk_get_size m (p - sizeof_header))) =
  Some (80, 4).
Proof. vm_compute; reflexivity. Qed.


End MallocProofs.
