(* ===== verification/Lists.v ===== *)
(** * Doubly-linked lists and bit fields ([include/lists.h])

    The kernel links structures through their own [next] and [prev] fields with a
    family of macros. Nodes are identified by a key (an index into a table, or an
    address); the link fields of all nodes are one store. *)

From S2P Require Import Prelude.

Module Lists.

Section Macros.
Context {K : Type} `{EqDecision K}.

(** The two link fields of a node, and the store of all link fields. The null
    pointer is [None]. *)
Record link := mk_link { next : option K; prev : option K }.
Definition links := K -> link.

(** The pointers to head and tail of a list. *)
Record anchor := mk_anchor { head : option K; tail : option K }.

Definition set_next (st : links) (x : K) (n : option K) : links :=
  fun y => if decide (y = x) then mk_link n (prev (st x)) else st y.
Definition set_prev (st : links) (x : K) (p : option K) : links :=
  fun y => if decide (y = x) then mk_link (next (st x)) p else st y.

Definition LIST_ADD_FRONT (st : links) (q : anchor) (item : K) : links * anchor :=
  match head q with
  | None => (set_prev (set_next st item None) item None, mk_anchor (Some item) (Some item))
  | Some h =>
      let st := set_prev st h (Some item) in
      let st := set_next st item (Some h) in
      let st := set_prev st item None in
      (st, mk_anchor (Some item) (tail q))
  end.

Definition LIST_ADD_END (st : links) (q : anchor) (item : K) : links * anchor :=
  match tail q with
  | None => (set_prev (set_next st item None) item None, mk_anchor (Some item) (Some item))
  | Some t =>
      let st := set_next st t (Some item) in
      let st := set_prev st item (Some t) in
      let st := set_next st item None in
      (st, mk_anchor (head q) (Some item))
  end.

(** The macro leaves head and tail alone. *)
Definition LIST_ADD_AFTER (st : links) (position item : K) : links :=
  let st := set_prev st item (Some position) in
  let st := set_next st item (next (st position)) in
  let st := match next (st position) with Some n => set_prev st n (Some item) | None => st end in
  set_next st position (Some item).

(** [None]: a null pointer is dereferenced. *)
Definition LIST_REMOVE_FRONT (st : links) (q : anchor) : option (links * anchor) :=
  h ← head q;
  Some match next (st h) with
       | Some n => (set_prev st n None, mk_anchor (Some n) (tail q))
       | None => (st, mk_anchor None None)
       end.

Definition LIST_REMOVE_END (st : links) (q : anchor) : option (links * anchor) :=
  t ← tail q;
  Some match prev (st t) with
       | Some p => (set_next st p None, mk_anchor (head q) (Some p))
       | None => (st, mk_anchor None None)
       end.

Definition LIST_REMOVE (st : links) (q : anchor) (item : K) : option (links * anchor) :=
  if decide (head q = Some item) then LIST_REMOVE_FRONT st q
  else if decide (tail q = Some item) then LIST_REMOVE_END st q
  else
    n ← next (st item);
    let st := set_prev st n (prev (st item)) in
    p ← prev (st item);
    Some (set_next st p (next (st item)), q).

(** [LIST_FOREACH]: the nodes the loop visits; [None] if it has not ended after
    [fuel] nodes. *)
Fixpoint LIST_FOREACH (fuel : nat) (st : links) (item : option K) : option (list K) :=
  match item with
  | None => Some []
  | Some x =>
      match fuel with
      | O => None
      | S fuel => l ← LIST_FOREACH fuel st (next (st x)); Some (x :: l)
      end
  end.

End Macros.
Arguments link K : clear implicits.
Arguments links K : clear implicits.
Arguments anchor K : clear implicits.

(** ** Bit fields: an array of bytes, as a function of the index *)

Definition BITFIELD_GET_BIT (field : Z -> Z) (bit : Z) : Z := Z.land (Z.shiftr (field (bit / 8)) (bit mod 8)) 1.
Definition BITFIELD_SET_BIT (field : Z -> Z) (bit : Z) : Z -> Z :=
  <[bit / 8 := u8 (Z.lor (field (bit / 8)) (Z.shiftl 1 (bit mod 8)))]> field.
Definition BITFIELD_CLEAR_BIT (field : Z -> Z) (bit : Z) : Z -> Z :=
  <[bit / 8 := u8 (Z.land (field (bit / 8)) (Z.lnot (Z.shiftl 1 (bit mod 8))))]> field.

(** ** Lists represented by links *)

Section Theory.
Context {K : Type} `{EqDecision K}.
Implicit Types (st : links K) (l : list K).

(** First node of [l], or [n] if it is empty; last node of [l], or [p]. *)
Definition first_or l (n : option K) : option K := match l with [] => n | x :: _ => Some x end.
Fixpoint last_or (p : option K) l : option K := match l with [] => p | x :: l => last_or (Some x) l end.

(** The nodes [l] are linked in this order, between [p] and [n]. *)
Fixpoint seg st (p : option K) l (n : option K) : Prop :=
  match l with
  | [] => True
  | x :: l' => prev (st x) = p /\ next (st x) = first_or l' n /\ seg st (Some x) l' n
  end.

(** [q] is a list with the nodes [l]. *)
Record dlist st (q : anchor K) l : Prop := {
  dl_head : head q = first_or l None;
  dl_tail : tail q = last_or None l;
  dl_seg : seg st None l None;
  dl_nodup : NoDup l;
}.

Lemma first_or_app l1 l2 n : first_or (l1 ++ l2) n = first_or l1 (first_or l2 n).
Proof. by destruct l1. Qed.

Lemma last_or_app p l1 l2 : last_or p (l1 ++ l2) = last_or (last_or p l1) l2.
Proof. revert p; induction l1; cbn; auto. Qed.

Lemma seg_app st p l1 l2 n :
  seg st p (l1 ++ l2) n <-> seg st p l1 (first_or l2 n) /\ seg st (last_or p l1) l2 n.
Proof.
  revert p; induction l1 as [|x l1 IH]; intros p; cbn; [tauto|].
  rewrite IH, first_or_app; tauto.
Qed.

Lemma seg_ext st st' p l n : (forall x, x ∈ l -> st' x = st x) -> seg st p l n -> seg st' p l n.
Proof.
  revert p; induction l as [|x l IH]; intros p H; cbn; [done|].
  rewrite H by left; intros (? & ? & ?); split_and!; auto; apply IH; auto; intros; apply H; by right.
Qed.

Lemma dlist_ext st st' q l : (forall x, x ∈ l -> st' x = st x) -> dlist st q l -> dlist st' q l.
Proof. intros H []; split; auto; eapply seg_ext; eauto. Qed.

Lemma set_next_other st x n y : y <> x -> set_next st x n y = st y.
Proof. intros; unfold set_next; by rewrite decide_False. Qed.

Lemma set_prev_other st x p y : y <> x -> set_prev st x p y = st y.
Proof. intros; unfold set_prev; by rewrite decide_False. Qed.

Lemma set_next_same st x n : set_next st x n x = mk_link n (prev (st x)).
Proof. unfold set_next; by rewrite decide_True. Qed.

Lemma set_prev_same st x p : set_prev st x p x = mk_link (next (st x)) p.
Proof. unfold set_prev; by rewrite decide_True. Qed.

(** Redirecting the outer pointers of a segment. *)
Lemma seg_new_prev st p p' x l n : x ∉ l -> seg st p (x :: l) n -> seg (set_prev st x p') p' (x :: l) n.
Proof.
  intros Hx (_ & Hn & Hs); cbn [seg]; rewrite set_prev_same; split_and!; auto.
  apply (seg_ext st); [intros; apply set_prev_other; congruence|done].
Qed.

Lemma seg_new_next st p x l n n' : x ∉ l -> seg st p (l ++ [x]) n -> seg (set_next st x n') p (l ++ [x]) n'.
Proof.
  intros Hx (Hs & Hp & _ & _)%seg_app; apply seg_app; cbn [seg first_or]; rewrite set_next_same; split_and!; auto.
  apply (seg_ext st); [intros; apply set_next_other; congruence|done].
Qed.

Lemma last_or_snoc p l x : last_or p (l ++ [x]) = Some x.
Proof. by rewrite last_or_app. Qed.

(** Splits a list at its last node. *)
Lemma snoc_cases l : l = [] \/ exists l' x, l = l' ++ [x].
Proof. destruct l as [|y l'] using rev_ind; eauto. Qed.

Ltac links := repeat first [rewrite set_next_same | rewrite set_prev_same
  | rewrite set_next_other by set_solver | rewrite set_prev_other by set_solver].

(** Every macro keeps the links of nodes that are neither in the list nor added. *)
Lemma add_front_ok st q l x st' q' :
  dlist st q l -> x ∉ l -> LIST_ADD_FRONT st q x = (st', q') ->
  dlist st' q' (x :: l) /\ forall y, y ∉ x :: l -> st' y = st y.
Proof.
  intros [Hh Ht Hs Hnd] Hx; unfold LIST_ADD_FRONT; rewrite Hh.
  destruct l as [|h l]; cbn [first_or]; intros [= <- <-].
  - split; [|intros; by links]; split; cbn; auto; [by links|apply NoDup_singleton].
  - apply list.NoDup_cons in Hnd as Hnd'; destruct Hnd' as [Hh' _].
    split; [|intros; by links]; split; cbn [head tail]; auto; [|by apply list.NoDup_cons].
    split; [by links|split; [by links|]].
    eapply (seg_ext (set_prev st h (Some x))); [intros; by links|]; eapply seg_new_prev; eauto.
Qed.

Lemma add_end_ok st q l x st' q' :
  dlist st q l -> x ∉ l -> LIST_ADD_END st q x = (st', q') ->
  dlist st' q' (l ++ [x]) /\ forall y, y ∉ l ++ [x] -> st' y = st y.
Proof.
  intros [Hh Ht Hs Hnd] Hx; unfold LIST_ADD_END; rewrite Ht.
  destruct (snoc_cases l) as [->|(l' & t & ->)]; cbn [last_or].
  - intros [= <- <-]; split; [|intros; by links]; split; cbn; auto; [by links|apply NoDup_singleton].
  - rewrite last_or_snoc; intros [= <- <-].
    assert (Hl : t ∉ l') by (apply list.NoDup_app in Hnd; set_solver).
    split; [|intros; by links]; split; cbn [head tail]; rewrite ?last_or_snoc; auto.
    + by rewrite Hh, <- app_assoc, !first_or_app.
    + apply seg_app; split; [|cbn; links; by rewrite last_or_snoc].
      eapply (seg_ext (set_next st t (Some x))); [intros; by links|]; cbn [first_or].
      eapply seg_new_next; eauto.
    + apply list.NoDup_app; split_and!; auto; [set_solver|apply NoDup_singleton].
Qed.

Lemma remove_front_ok st q x l :
  dlist st q (x :: l) ->
  exists st' q', LIST_REMOVE_FRONT st q = Some (st', q') /\ dlist st' q' l /\ forall y, y ∉ l -> st' y = st y.
Proof.
  intros [Hh Ht (_ & Hn & Hs) (Hx & Hnd)%list.NoDup_cons]; unfold LIST_REMOVE_FRONT; rewrite Hh; cbn.
  rewrite Hn; destruct l as [|y l]; cbn [first_or]; eexists _, _; split_and!; [done| | |done| |].
  - by split.
  - done.
  - apply list.NoDup_cons in Hnd as Hy; destruct Hy as [Hy _].
    split; auto; by eapply seg_new_prev.
  - intros; by links.
Qed.

Lemma remove_end_ok st q x l :
  dlist st q (l ++ [x]) ->
  exists st' q', LIST_REMOVE_END st q = Some (st', q') /\ dlist st' q' l /\ forall y, y ∉ l -> st' y = st y.
Proof.
  intros [Hh Ht (Hs & Hp & _ & _)%seg_app (Hnd & Hd & _)%list.NoDup_app]; unfold LIST_REMOVE_END.
  rewrite Ht, last_or_snoc; cbn; rewrite Hp; destruct (snoc_cases l) as [->|(l' & y & ->)].
  - eexists _, _; split_and!; [done|by split|done].
  - rewrite last_or_snoc; eexists _, _; split_and!; [done| |].
    + assert (y ∉ l') by (apply list.NoDup_app in Hnd; set_solver).
      split; cbn [head tail]; rewrite ?last_or_snoc; auto; [|by eapply seg_new_next].
      by rewrite Hh, first_or_app; destruct l'.
    + intros z Hz; apply set_next_other; set_solver.
Qed.

(** Removing a node from the middle of a segment. *)
Lemma unlink_ok st l1 p x n l2 :
  NoDup (l1 ++ p :: x :: n :: l2) -> seg st None (l1 ++ p :: x :: n :: l2) None ->
  next (st x) = Some n /\ prev (st x) = Some p /\
  seg (set_next (set_prev st n (Some p)) p (Some n)) None (l1 ++ p :: n :: l2) None.
Proof.
  intros (Hnd1 & Hd & Hnd2)%list.NoDup_app (Hs1 & Hp & Hpn & Hx & Hxn & Hn & Hnn & Hs2)%seg_app; cbn in *.
  split_and!; auto; rewrite !list.NoDup_cons in Hnd2; destruct Hnd2 as (Hp2 & Hx2 & Hn2 & _).
  assert (n <> p) by set_solver; assert (~ (p ∈ l1) /\ ~ (n ∈ l1)) as [] by set_solver.
  apply seg_app; cbn [seg first_or]; links; split_and!; auto.
  - apply (seg_ext st); [intros; by links|done].
  - apply (seg_ext st); [|done]; intros y Hy.
    rewrite set_next_other, set_prev_other; set_solver.
Qed.

Lemma remove_ok st q l1 x l2 :
  dlist st q (l1 ++ x :: l2) ->
  exists st' q', LIST_REMOVE st q x = Some (st', q') /\ dlist st' q' (l1 ++ l2) /\
    forall y, y ∉ l1 ++ l2 -> st' y = st y.
Proof.
  intros Hd; pose proof Hd as [Hh Ht Hs Hnd]; unfold LIST_REMOVE.
  destruct (snoc_cases l1) as [->|(l1' & p & ->)].
  { rewrite decide_True by (by rewrite Hh); cbn [app] in *; eapply remove_front_ok; eauto. }
  assert (head q <> Some x).
  { rewrite Hh; apply list.NoDup_app in Hnd; destruct l1'; set_solver. }
  rewrite decide_False by done; destruct l2 as [|n l2].
  { rewrite decide_True by (by rewrite Ht, last_or_snoc); rewrite app_nil_r in *; eapply remove_end_ok; eauto. }
  rewrite decide_False.
  2: { rewrite Ht, last_or_app; cbn; apply list.NoDup_app in Hnd as (_ & _ & Hnd).
       apply list.NoDup_cons in Hnd as [Hx _]; destruct (snoc_cases (n :: l2)) as [|(m & t & E)]; [done|].
       change (last_or (Some n) l2) with (last_or None (n :: l2)); rewrite E, last_or_snoc.
       intros [= ->]; apply Hx; rewrite E; apply elem_of_app; right; left. }
  rewrite <- app_assoc in *; cbn [app] in *.
  destruct (unlink_ok _ _ _ _ _ _ Hnd Hs) as (Hn & Hp & Hs'); rewrite Hn; cbn [mbind option_bind].
  assert (x <> n) by (apply list.NoDup_app in Hnd as (_ & _ & Hnd); rewrite !list.NoDup_cons in Hnd; set_solver).
  rewrite set_prev_other, Hp, Hn by done; cbn [mbind option_bind]; eexists _, _; split_and!; [done| |].
  - split; auto.
    + by rewrite Hh, !first_or_app.
    + rewrite Ht, !last_or_app; done.
    + apply list.NoDup_app in Hnd as (? & ? & Hnd); rewrite !list.NoDup_cons in Hnd.
      apply list.NoDup_app; rewrite !list.NoDup_cons; set_solver.
  - intros y Hy; rewrite set_next_other, set_prev_other; set_solver.
Qed.

Lemma add_after_eq st x z n :
  next (st x) = Some n -> x <> z ->
  LIST_ADD_AFTER st x z =
    set_next (set_prev (set_next (set_prev st z (Some x)) z (Some n)) n (Some z)) x (Some z).
Proof.
  intros Hn Hz; unfold LIST_ADD_AFTER; cbv zeta.
  by rewrite (set_prev_other _ _ _ x), Hn, (set_next_other _ _ _ x), (set_prev_other _ _ _ x), Hn by done.
Qed.

(** Adding a node after one that is not the last. *)
Lemma add_after_ok st q l1 x n l2 z :
  dlist st q (l1 ++ x :: n :: l2) -> z ∉ l1 ++ x :: n :: l2 ->
  dlist (LIST_ADD_AFTER st x z) q (l1 ++ x :: z :: n :: l2) /\
  forall y, y ∉ l1 ++ x :: z :: n :: l2 -> LIST_ADD_AFTER st x z y = st y.
Proof.
  intros [Hh Ht Hs Hnd] Hz; apply list.NoDup_app in Hnd as (Hnd1 & Hd & Hnd2).
  rewrite !list.NoDup_cons in Hnd2; destruct Hnd2 as (Hx & Hn & Hnd2).
  apply seg_app in Hs as (Hs1 & Hxp & Hxn & Hnp & Hnn & Hs2); cbn in *.
  assert (x <> z /\ n <> z /\ n <> x) as (? & ? & ?) by set_solver.
  rewrite (add_after_eq _ _ _ n) by done.
  match goal with |- dlist ?s _ _ /\ _ =>
    assert (E : forall y, y <> x -> y <> z -> y <> n -> s y = st y) by
      (intros; by rewrite set_next_other, set_prev_other, set_next_other, set_prev_other by done) end.
  split; [|intros y Hy; apply E; set_solver]; split.
  - by rewrite Hh, !first_or_app.
  - rewrite Ht, !last_or_app; done.
  - apply seg_app; cbn [seg first_or]; links; cbn [next prev]; split_and!; auto.
    + apply (seg_ext st); [intros y Hy; apply E; set_solver|done].
    + apply (seg_ext st); [intros y Hy; apply E; set_solver|done].
  - apply list.NoDup_app; rewrite !list.NoDup_cons; set_solver.
Qed.

(** Iteration visits exactly the nodes of the list. *)
Lemma foreach_seg st p l fuel : (length l <= fuel)%nat -> seg st p l None -> LIST_FOREACH fuel st (first_or l None) = Some l.
Proof.
  revert p fuel; induction l as [|x l IH]; intros p fuel Hf Hs; cbn in *; [by destruct fuel|].
  destruct fuel as [|fuel]; [lia|]; cbn; destruct Hs as (_ & -> & Hs).
  erewrite IH; eauto; lia.
Qed.

End Theory.

(** ** Bit fields *)

Lemma get_bit_spec field bit :
  0 <= bit -> BITFIELD_GET_BIT field bit = Z.b2z (Z.testbit (field (bit / 8)) (bit mod 8)).
Proof.
  intros; unfold BITFIELD_GET_BIT; rewrite Z.testbit_spec' by (apply Z.mod_pos_bound; lia).
  rewrite Z.shiftr_div_pow2, (Z.land_ones _ 1) by (apply Z.mod_pos_bound || lia; lia); done.
Qed.


Lemma bit_eq a b : a / 8 = b / 8 -> a mod 8 = b mod 8 -> a = b.
Proof. intros H1 H2; rewrite (Z.div_mod a 8), (Z.div_mod b 8), H1, H2; lia. Qed.

Lemma testbit_u8 x i : 0 <= i < 8 -> Z.testbit (u8 x) i = Z.testbit x i.
Proof. intros; apply (Z.mod_pow2_bits_low _ 8); lia. Qed.

Lemma testbit_shift_one k i : 0 <= k -> 0 <= i -> Z.testbit (Z.shiftl 1 k) i = (i =? k).
Proof.
  intros; rewrite Z.shiftl_spec by lia; case_test; [subst; by rewrite Z.sub_diag|].
  destruct (decide (i < k)); [apply Z.testbit_neg_r; lia|].
  apply Z.bits_above_log2; cbn; lia.
Qed.

Lemma set_bit_ok field b c :
  0 <= b -> 0 <= c -> BITFIELD_GET_BIT (BITFIELD_SET_BIT field b) c = if b =? c then 1 else BITFIELD_GET_BIT field c.
Proof.
  intros; rewrite !get_bit_spec by done; unfold BITFIELD_SET_BIT.
  pose proof (Z.mod_pos_bound b 8 eq_refl); pose proof (Z.mod_pos_bound c 8 eq_refl).
  destruct (decide (b / 8 = c / 8)) as [E|E].
  - rewrite E, fn_lookup_insert, testbit_u8, Z.lor_spec, testbit_shift_one by lia.
    destruct (Z.eqb_spec b c) as [->|Hne]; [by rewrite Z.eqb_refl, orb_true_r|].
    destruct (Z.eqb_spec (c mod 8) (b mod 8)); [|by rewrite orb_false_r]; by destruct Hne; apply bit_eq.
  - rewrite fn_lookup_insert_ne by done; destruct (Z.eqb_spec b c); [congruence|done].
Qed.

Lemma clear_bit_ok field b c :
  0 <= b -> 0 <= c -> BITFIELD_GET_BIT (BITFIELD_CLEAR_BIT field b) c = if b =? c then 0 else BITFIELD_GET_BIT field c.
Proof.
  intros; rewrite !get_bit_spec by done; unfold BITFIELD_CLEAR_BIT.
  pose proof (Z.mod_pos_bound b 8 eq_refl); pose proof (Z.mod_pos_bound c 8 eq_refl).
  destruct (decide (b / 8 = c / 8)) as [E|E].
  - rewrite E, fn_lookup_insert, testbit_u8, Z.land_spec, Z.lnot_spec, testbit_shift_one by lia.
    destruct (Z.eqb_spec b c) as [->|Hne]; [by rewrite Z.eqb_refl, andb_false_r|].
    destruct (Z.eqb_spec (c mod 8) (b mod 8)); [|by rewrite andb_true_r]; by destruct Hne; apply bit_eq.
  - rewrite fn_lookup_insert_ne by done; destruct (Z.eqb_spec b c); [congruence|done].
Qed.

(** ** Properties *)

(** C38. The list macros implement a sequence: adding at the front and at the end,
    removing any node and iterating do to the linked nodes what these operations do
    to the list of the nodes, without following a null pointer, and leave all
    nodes of other lists alone. *)
Theorem list_macros_correct {K : Type} `{EqDecision K} (st : links K) (q : anchor K) (l : list K) :
  dlist st q l ->
  (forall x, x ∉ l -> let '(st', q') := LIST_ADD_FRONT st q x in
     dlist st' q' (x :: l) /\ forall y, y ∉ x :: l -> st' y = st y) /\
  (forall x, x ∉ l -> let '(st', q') := LIST_ADD_END st q x in
     dlist st' q' (l ++ [x]) /\ forall y, y ∉ l ++ [x] -> st' y = st y) /\
  (forall l1 x l2, l = l1 ++ x :: l2 -> exists st' q', LIST_REMOVE st q x = Some (st', q') /\
     dlist st' q' (l1 ++ l2) /\ forall y, y ∉ l1 ++ l2 -> st' y = st y) /\
  LIST_FOREACH (length l) st (head q) = Some l.
Proof.
  intros Hd; split_and!.
  - intros x Hx; destruct (LIST_ADD_FRONT st q x) as [st' q'] eqn:E; by apply (add_front_ok st q).
  - intros x Hx; destruct (LIST_ADD_END st q x) as [st' q'] eqn:E; by apply (add_end_ok st q).
  - intros l1 x l2 ->; by apply remove_ok.
  - rewrite (dl_head _ _ _ Hd); eapply foreach_seg; [done|apply Hd].
Qed.

(** The list of the nodes 1 and 2. *)
Definition pair_links : links Z := <[1 := mk_link (Some 2) None]> (<[2 := mk_link None (Some 1)]> (fun _ => mk_link None None)).
Definition pair_anchor : anchor Z := mk_anchor (Some 1) (Some 2).

Lemma list_macros_correct_witness :
  LIST_FOREACH 2 pair_links (head pair_anchor) = Some [1; 2] /\
  exists st' q', LIST_REMOVE pair_links pair_anchor 2 = Some (st', q') /\ dlist st' q' [1].
Proof.
  assert (Hd : dlist pair_links pair_anchor [1; 2]).
  { split; [done|done|vm_compute; auto|]; apply list.NoDup_cons; split; [set_solver|apply NoDup_singleton]. }
  destruct (list_macros_correct pair_links pair_anchor [1; 2] Hd) as (_ & _ & Hr & Hf); split; [exact Hf|].
  destruct (Hr [1] 2 [] eq_refl) as (st' & q' & E & Hd' & _); exists st', q'; split; [exact E|exact Hd'].
Defined.

(** [LIST_ADD_AFTER] behind the last node does not move the tail: a node that is
    then added at the end replaces the node added before. *)
Theorem add_after_loses_tail :
  (let st := LIST_ADD_AFTER pair_links 2 3 in
   let '(st', q') := LIST_ADD_END st pair_anchor 4 in
   (LIST_FOREACH 9 st (head pair_anchor), tail pair_anchor, LIST_FOREACH 9 st' (head q'))) =
  (Some [1; 2; 3], Some 2, Some [1; 2; 4]).
Proof. vm_compute; reflexivity. Qed.

(** Setting or clearing a bit of a bit field changes that bit and no other. *)
Theorem bitfield_correct field b c :
  0 <= b -> 0 <= c ->
  BITFIELD_GET_BIT (BITFIELD_SET_BIT field b) c = (if b =? c then 1 else BITFIELD_GET_BIT field c) /\
  BITFIELD_GET_BIT (BITFIELD_CLEAR_BIT field b) c = (if b =? c then 0 else BITFIELD_GET_BIT field c).
Proof. split; [by apply set_bit_ok|by apply clear_bit_ok]. Qed.

Lemma bitfield_correct_witness :
  BITFIELD_GET_BIT (BITFIELD_SET_BIT (fun _ => 4) 13) 10 = 1 /\ BITFIELD_GET_BIT (BITFIELD_CLEAR_BIT (fun _ => 4) 13) 10 = 1.
Proof. apply (bitfield_correct (fun _ => 4) 13 10); lia. Defined.

End Lists.
