(* ===== verification/PhysMem.v ===== *)
(** * Physical memory ([kernel/mm.c], first part)

    The bitmap of physical pages: how it is set up from the memory map of the
    boot loader ([phys_mem_layout_init], [walk_memory_map], [locate_ramdisk],
    [phys_mem_init]) and how a page is allocated and released
    ([mm_get_phys_page_impl], [mm_put_phys_page_impl]).

    The array [phys_mem] has [MM_PHYS_MEM_PAGES / 8] bytes, and as
    [MM_PHYS_MEM_PAGES] is no multiple of eight, the bits of the last pages lie
    in the byte behind the array.  The model keeps the array as a function of
    the index, so that byte is part of the state and nothing is known of it. *)

From S2P Require Import Prelude Errors MmDefs Lists.
Import Lists.

Definition MM_PHYS_MEM_PAGES : Z := 4294967295 / MM_PAGE_SIZE.
Definition MM_HIGH_MEM_START : Z := 1048576.
Definition MB_MMAP_ENTRY_TYPE_FREE : Z := 1.

Record phys_mem_layout_t := {
  kernel_start : Z;
  kernel_end : Z;
  mem_end : Z;
  ramdisk_start : Z;
  ramdisk_end : Z;
  available : Z;
  total : Z
}.

(** The static variables of the physical memory manager. *)
Record physmem := {
  phys_mem_layout : phys_mem_layout_t;
  phys_mem : Z -> Z;
  start_search : Z;
  phys_mem_lock : bool;
  have_ramdisk : bool
}.

Record memory_map_entry_t := {
  base_addr_low : Z;
  base_addr_high : Z;
  length_low : Z;
  length_high : Z;
  mmap_type : Z
}.

(** ** Assignments to the fields *)

Definition set_layout (f : phys_mem_layout_t -> phys_mem_layout_t) (s : physmem) : physmem :=
  Build_physmem (f (phys_mem_layout s)) (phys_mem s) (start_search s) (phys_mem_lock s) (have_ramdisk s).
Definition set_phys_mem (f : Z -> Z) (s : physmem) : physmem :=
  Build_physmem (phys_mem_layout s) f (start_search s) (phys_mem_lock s) (have_ramdisk s).
Definition set_start_search (p : Z) (s : physmem) : physmem :=
  Build_physmem (phys_mem_layout s) (phys_mem s) p (phys_mem_lock s) (have_ramdisk s).
Definition set_lock (b : bool) (s : physmem) : physmem :=
  Build_physmem (phys_mem_layout s) (phys_mem s) (start_search s) b (have_ramdisk s).
Definition set_have_ramdisk (b : bool) (s : physmem) : physmem :=
  Build_physmem (phys_mem_layout s) (phys_mem s) (start_search s) (phys_mem_lock s) b.

Definition set_available (n : Z) (l : phys_mem_layout_t) : phys_mem_layout_t :=
  Build_phys_mem_layout_t (kernel_start l) (kernel_end l) (mem_end l) (ramdisk_start l) (ramdisk_end l) (u32 n) (total l).
Definition set_total (n : Z) (l : phys_mem_layout_t) : phys_mem_layout_t :=
  Build_phys_mem_layout_t (kernel_start l) (kernel_end l) (mem_end l) (ramdisk_start l) (ramdisk_end l) (available l) (u32 n).
Definition set_mem_end (n : Z) (l : phys_mem_layout_t) : phys_mem_layout_t :=
  Build_phys_mem_layout_t (kernel_start l) (kernel_end l) n (ramdisk_start l) (ramdisk_end l) (available l) (total l).
Definition set_ramdisk (lo hi : Z) (l : phys_mem_layout_t) : phys_mem_layout_t :=
  Build_phys_mem_layout_t (kernel_start l) (kernel_end l) (mem_end l) lo hi (available l) (total l).

Definition add_available (n : Z) (s : physmem) : physmem :=
  set_layout (fun l => set_available (available l + n) l) s.

(** [spinlock_get] spins for ever on a lock that is held. *)
Definition lock_phys_mem (s : physmem) : res physmem := if phys_mem_lock s then Hang else Ok (set_lock true s).
Definition unlock_phys_mem (s : physmem) : physmem := set_lock false s.

(** ** Initialization *)

(** [phys_mem_layout_init]; [_start] and [_end] are symbols of the linker, [total]
    keeps its static value. *)
Definition phys_mem_layout_init (_start _end : Z) (s : physmem) : res physmem :=
  let l := Build_phys_mem_layout_t _start (u32 (_end - 1)) 0 0 0 0 (total (phys_mem_layout s)) in
  if MM_COMMON_AREA_SIZE <=? kernel_end l then Panic else Ok (set_layout (fun _ => l) s).

(** The first and the last page of an entry that are released. *)
Definition entry_first_page (start : Z) : Z :=
  let first_page := u32 (MM_PAGE start + 1) in
  let first_page := if MM_PAGE_START (u32 (first_page - 1)) =? start then u32 (first_page - 1) else first_page in
  if MM_PAGE_START first_page <? MM_HIGH_MEM_START then MM_PAGE MM_HIGH_MEM_START else first_page.
Definition entry_last_page (end_ : Z) : Z :=
  let last_page := u32 (MM_PAGE end_ - 1) in
  if MM_PAGE_END (u32 (last_page + 1)) =? end_ then u32 (last_page + 1) else last_page.

(** [for (i = first; i <= last; i++)] *)
Definition release_page (s : physmem) (i : Z) : physmem :=
  let s := add_available 1 s in
  let s := set_layout (fun l => set_total (total l + 1) l) s in
  set_phys_mem (BITFIELD_CLEAR_BIT (phys_mem s) i) s.
Definition release_pages (first last : Z) (s : physmem) : physmem :=
  foldl release_page s (seqZ first (last - first + 1)).

(** The body of the loop of [walk_memory_map]. *)
Definition walk_entry (s : physmem) (e : memory_map_entry_t) : physmem :=
  let start := base_addr_low e in
  let size := u32 (length_low e - 1) in
  let end_ := u32 (start + size) in
  if negb (base_addr_high e =? 0) || negb (length_high e =? 0) || (2 ^ 32 - 1 - start <? size) then s
  else
    let s := if mem_end (phys_mem_layout s) <? end_ then set_layout (set_mem_end end_) s else s in
    if (mmap_type e =? MB_MMAP_ENTRY_TYPE_FREE) && (MM_HIGH_MEM_START + MM_PAGE_SIZE <=? end_)
    then release_pages (entry_first_page start) (entry_last_page end_) s
    else s.

(** [walk_memory_map]; the list holds what the calls of [multiboot_get_next_mmap_entry] return. *)
Definition walk_memory_map (entries : list memory_map_entry_t) (s : physmem) : physmem :=
  foldl walk_entry (set_layout (set_mem_end 0) s) entries.

(** A page that is marked as used, counted as no longer available. *)
Definition reserve_page (s : physmem) (i : Z) : physmem :=
  let s := add_available (-1) s in
  set_phys_mem (BITFIELD_SET_BIT (phys_mem s) i) s.

(** [locate_ramdisk]; the option is the answer of [multiboot_locate_ramdisk]. *)
Definition locate_ramdisk (rd_info : option (Z * Z)) (s : physmem) : physmem :=
  match rd_info with
  | None => set_have_ramdisk false s
  | Some (lo, hi) =>
      let s := set_layout (set_ramdisk lo hi) (set_have_ramdisk true s) in
      foldl reserve_page s (seqZ (MM_PAGE lo) (MM_PAGE hi - MM_PAGE lo + 1))
  end.

(** The loop that marks the pages of the kernel. *)
Fixpoint reserve_kernel (fuel : nat) (i : Z) (s : physmem) : res physmem :=
  match fuel with
  | O => Hang
  | S fuel =>
      let s := reserve_page s i in
      if kernel_end (phys_mem_layout s) <? MM_PAGE_END i then Ok s else reserve_kernel fuel (i + 1) s
  end.

Definition kernel_fuel (s : physmem) : nat := Z.to_nat (MM_PAGE (kernel_end (phys_mem_layout s)) + 2).

Definition phys_mem_init (entries : list memory_map_entry_t) (rd_info : option (Z * Z)) (s : physmem) : res physmem :=
  let s := set_phys_mem (foldl (fun f j => <[j := 255]> f) (phys_mem s) (seqZ 0 (MM_PHYS_MEM_PAGES / 8))) s in
  let s := set_lock false s in
  let s := walk_memory_map entries s in
  s ← reserve_kernel (kernel_fuel s) (MM_PAGE (kernel_start (phys_mem_layout s))) s;
  Ok (locate_ramdisk rd_info s).

(** ** Allocation *)

(** [while (BITFIELD_GET_BIT(phys_mem, page) && page < MM_PHYS_MEM_PAGES) page++] *)
Fixpoint search_page (fuel : nat) (f : Z -> Z) (page : Z) : option Z :=
  match fuel with
  | O => None
  | S fuel =>
      if negb (BITFIELD_GET_BIT f page =? 0) && (page <? MM_PHYS_MEM_PAGES)
      then search_page fuel f (u32 (page + 1)) else Some page
  end.

Definition search_from (f : Z -> Z) (page : Z) : res Z :=
  match search_page (Z.to_nat (MM_PHYS_MEM_PAGES - page + 1)) f page with Some p => Ok p | None => Hang end.

(** The second half of [mm_get_phys_page_impl]: the page found is marked as used. *)
Definition take_page (page : Z) (s : physmem) : res (Z * physmem) :=
  let s := set_phys_mem (BITFIELD_SET_BIT (phys_mem s) page) s in
  let s := set_start_search (u32 (page + 1)) s in
  let s := add_available (-1) s in
  Ok (MM_PAGE_START page, unlock_phys_mem s).

Definition mm_get_phys_page (s : physmem) : res (Z * physmem) :=
  s ← lock_phys_mem s;
  page ← search_from (phys_mem s) (start_search s);
  if MM_PHYS_MEM_PAGES =? page then
    let s := set_start_search 0 s in
    page ← search_from (phys_mem s) 0;
    if MM_PHYS_MEM_PAGES =? page then Ok (0, unlock_phys_mem s) else take_page page s
  else take_page page s.

Definition mm_put_phys_page (page_base : Z) (s : physmem) : res physmem :=
  s ← lock_phys_mem s;
  let s := set_phys_mem (BITFIELD_CLEAR_BIT (phys_mem s) (MM_PAGE page_base)) s in
  let s := add_available 1 s in
  let s := if MM_PAGE page_base <? start_search s then set_start_search (MM_PAGE page_base) s else s in
  Ok (unlock_phys_mem s).

(** [mm_phys_mem] and [mm_phys_mem_available], in kB. *)
Definition mm_phys_mem (s : physmem) : Z := u32 (total (phys_mem_layout s) * 4).
Definition mm_phys_mem_available (s : physmem) : Z := u32 (available (phys_mem_layout s) * 4).
