(* ===== verification/PhysMemProofs.v ===== *)
(** * Physical memory: proofs

    [phys_pages_correct] is the contract of the page allocator along any
    sequence of calls, [phys_mem_init_correct] says which pages the boot code
    releases, and [phys_mem_overrun] what happens when the memory is exhausted
    and the byte behind the bitmap has a clear bit. *)

From stdpp Require Import relations.
From S2P Require Import Prelude Errors MmDefs Lists PhysMem.
Import Lists.

(** The pages whose bit lies in the array. *)
Definition PHYS_LIMIT : Z := 8 * (MM_PHYS_MEM_PAGES / 8).

Definition bit (s : physmem) (p : Z) : Z := BITFIELD_GET_BIT (phys_mem s) p.
Definition page_free (s : physmem) (p : Z) : Prop := 0 <= p < PHYS_LIMIT /\ bit s p = 0.

(** The bits behind the array that the search looks at. *)
Definition tail_used (s : physmem) : Prop := forall p, PHYS_LIMIT <= p < MM_PHYS_MEM_PAGES -> bit s p = 1.

Record phys_ok (s : physmem) : Prop := {
  ok_unlocked : phys_mem_lock s = false;
  ok_start : 0 <= start_search s <= MM_PHYS_MEM_PAGES;
  ok_below : forall p, 0 <= p < start_search s -> bit s p = 1;
  ok_zero : bit s 0 = 1
}.

Lemma bit_cases f p : 0 <= p -> BITFIELD_GET_BIT f p = 0 \/ BITFIELD_GET_BIT f p = 1.
Proof. intros; rewrite get_bit_spec by done; destruct (Z.testbit _ _); auto. Qed.

Lemma phys_limit : PHYS_LIMIT = 1048568.
Proof. done. Qed.
Lemma phys_pages : MM_PHYS_MEM_PAGES = 1048575.
Proof. done. Qed.

(** ** The search *)

Lemma search_page_ok f n page :
  0 <= page <= MM_PHYS_MEM_PAGES -> (Z.to_nat (MM_PHYS_MEM_PAGES - page) < n)%nat ->
  exists p, search_page n f page = Some p /\ page <= p <= MM_PHYS_MEM_PAGES /\
    (forall q, page <= q < p -> BITFIELD_GET_BIT f q = 1) /\ (p = MM_PHYS_MEM_PAGES \/ BITFIELD_GET_BIT f p = 0).
Proof.
  rewrite phys_pages; revert page; induction n as [|n IH]; intros page Hp Hn; [lia|].
  cbn [search_page]; rewrite phys_pages.
  destruct (bit_cases f page ltac:(lia)) as [H|H]; rewrite H.
  - exists page; cbn; repeat split; auto with lia.
  - destruct (Z.ltb_spec page 1048575) as [Hlt|Hge]; cbn.
    + rewrite u32_small by lia; destruct (IH (page + 1)) as (p & E & Hr & Hset & Hend); [lia|lia|].
      exists p; split_and!; try done; try lia.
      intros q Hq; destruct (decide (q = page)) as [->|]; [done|apply Hset; lia].
    + exists page; repeat split; auto with lia.
Qed.

Lemma search_from_ok f page :
  0 <= page <= MM_PHYS_MEM_PAGES ->
  exists p, search_from f page = Ok p /\ page <= p <= MM_PHYS_MEM_PAGES /\
    (forall q, page <= q < p -> BITFIELD_GET_BIT f q = 1) /\ (p = MM_PHYS_MEM_PAGES \/ BITFIELD_GET_BIT f p = 0).
Proof.
  intros Hp; unfold search_from.
  destruct (search_page_ok f (Z.to_nat (MM_PHYS_MEM_PAGES - page + 1)) page) as (p & -> & H); [done|lia|eauto].
Qed.

(** ** [mm_get_phys_page] *)

(** What a call that takes page [p] does to the state. *)
Definition taken (s : physmem) (p : Z) (s' : physmem) : Prop :=
  phys_mem s' = BITFIELD_SET_BIT (phys_mem s) p /\
  phys_mem_layout s' = set_available (available (phys_mem_layout s) - 1) (phys_mem_layout s).

Lemma taken_bit s p s' q :
  taken s p s' -> 0 <= p -> 0 <= q -> bit s' q = if p =? q then 1 else bit s q.
Proof. intros [E _] Hp Hq; unfold bit; rewrite E; by apply set_bit_ok. Qed.

Lemma take_page_ok s p :
  phys_mem_lock s = true -> 0 <= p < MM_PHYS_MEM_PAGES -> bit s 0 = 1 ->
  (forall q, 0 <= q < p -> bit s q = 1) ->
  exists s', take_page p s = Ok (p * MM_PAGE_SIZE, s') /\ phys_ok s' /\ taken s p s'.
Proof.
  rewrite phys_pages; intros Hl Hp H0 Hq; eexists; split; [|split].
  - unfold take_page, MM_PAGE_START, MM_PAGE_SIZE; rewrite (u32_small (p * 4096)) by lia; done.
  - split; cbn.
    + done.
    + rewrite phys_pages, u32_small by lia; lia.
    + rewrite u32_small by lia; intros q ?; unfold bit; cbn; rewrite set_bit_ok by lia.
      case_test; [done|apply Hq; lia].
    + unfold bit; cbn; rewrite set_bit_ok by lia; by case_test.
  - split; done.
Qed.

(** The three outcomes of an allocation: the lowest free page, a page whose bit lies
    behind the array, or no page. *)
Definition got_page (s : physmem) (r : Z) (s' : physmem) : Prop :=
  exists p, page_free s p /\ (forall q, page_free s q -> p <= q) /\ r = p * MM_PAGE_SIZE /\ taken s p s'.
Definition got_tail (s : physmem) (r : Z) (s' : physmem) : Prop :=
  (forall p, ~ page_free s p) /\
  exists p, PHYS_LIMIT <= p < MM_PHYS_MEM_PAGES /\ bit s p = 0 /\ r = p * MM_PAGE_SIZE /\ taken s p s'.
Definition got_none (s : physmem) (r : Z) (s' : physmem) : Prop :=
  (forall p, ~ page_free s p) /\ tail_used s /\ r = 0 /\
  phys_mem s' = phys_mem s /\ phys_mem_layout s' = phys_mem_layout s.

Lemma take_outcome s t p :
  phys_mem_lock t = true -> phys_mem t = phys_mem s -> phys_mem_layout t = phys_mem_layout s ->
  0 <= p <= MM_PHYS_MEM_PAGES -> p <> MM_PHYS_MEM_PAGES ->
  bit s 0 = 1 -> (forall q, 0 <= q < p -> bit s q = 1) -> bit s p = 0 ->
  exists r s', take_page p t = Ok (r, s') /\ phys_ok s' /\ (got_page s r s' \/ got_tail s r s').
Proof.
  intros Ht Em El Hp Hne H0 Hq Hz.
  destruct (take_page_ok t p) as (s' & E & Hok & Hk); [done|lia|by unfold bit; rewrite Em| |].
  { intros q ?; unfold bit; rewrite Em; by apply Hq. }
  assert (Hk' : taken s p s') by (destruct Hk; split; congruence).
  exists (p * MM_PAGE_SIZE), s'; split; [done|split; [done|]].
  assert (Hno : forall q, page_free s q -> p <= q).
  { intros q [? Hq2]; destruct (decide (q < p)); [|lia]; rewrite Hq in Hq2 by lia; done. }
  destruct (decide (p < PHYS_LIMIT)); [left|right; split].
  - exists p; split; [split; [lia|done]|auto].
  - intros q Hf; pose proof (Hno q Hf); destruct Hf; lia.
  - exists p; auto with lia.
Qed.

Lemma get_phys_page_ok s :
  phys_ok s -> exists r s', mm_get_phys_page s = Ok (r, s') /\ phys_ok s' /\
    (got_page s r s' \/ got_tail s r s' \/ got_none s r s').
Proof.
  intros [Hl Hs Hb H0]; unfold mm_get_phys_page, lock_phys_mem; rewrite Hl.
  cbn -[search_from MM_PHYS_MEM_PAGES Z.eqb take_page].
  destruct (search_from_ok (phys_mem s) (start_search s) Hs) as (p & -> & Hp & Hset & Hend).
  cbn -[search_from MM_PHYS_MEM_PAGES Z.eqb take_page].
  assert (Hpre : forall q, 0 <= q < p -> bit s q = 1).
  { intros q ?; destruct (decide (q < start_search s)); [apply Hb; lia|apply Hset; lia]. }
  destruct (Z.eqb_spec MM_PHYS_MEM_PAGES p) as [<-|Hne].
  - destruct (search_from_ok (phys_mem s) 0) as (p & -> & Hp' & Hset' & Hend'); [rewrite phys_pages; lia|].
    cbn -[MM_PHYS_MEM_PAGES Z.eqb take_page].
    destruct (Z.eqb_spec MM_PHYS_MEM_PAGES p) as [<-|Hne].
    + eexists _, _; split; [done|]; split; [split; cbn; done || lia|].
      right; right; repeat split; try done; [|intros q ?; apply Hpre; revert H; rewrite phys_limit; lia].
      intros q [H Hq]; rewrite Hpre in Hq; [done|revert H; rewrite phys_limit, phys_pages; lia].
    + destruct Hend' as [|Hz]; [done|].
      destruct (take_outcome s (set_start_search 0 (set_lock true s)) p) as (r & s' & E & Hok & Hc); try done.
      exists r, s'; tauto.
  - destruct Hend as [|Hz]; [done|].
    destruct (take_outcome s (set_lock true s) p) as (r & s' & E & Hok & Hc); try done; [lia|].
    exists r, s'; tauto.
Qed.

(** ** [mm_put_phys_page] *)

Lemma put_phys_page_ok s b :
  phys_ok s -> 0 < MM_PAGE b ->
  exists s', mm_put_phys_page b s = Ok s' /\ phys_ok s' /\
    phys_mem s' = BITFIELD_CLEAR_BIT (phys_mem s) (MM_PAGE b) /\
    phys_mem_layout s' = set_available (available (phys_mem_layout s) + 1) (phys_mem_layout s).
Proof.
  intros [Hl Hs Hb H0] Hp; unfold mm_put_phys_page, lock_phys_mem; rewrite Hl; cbn.
  assert (H0' : BITFIELD_GET_BIT (BITFIELD_CLEAR_BIT (phys_mem s) (MM_PAGE b)) 0 = 1).
  { rewrite clear_bit_ok by lia; tests; done. }
  destruct (Z.ltb_spec (MM_PAGE b) (start_search s)); eexists; (split; [done|]);
    (split; [|by split]); split; cbn; try done; try lia.
  - intros q ?; unfold bit; cbn; rewrite clear_bit_ok by lia; tests; apply Hb; lia.
  - intros q ?; unfold bit; cbn; rewrite clear_bit_ok by lia; tests; apply Hb; lia.
Qed.

(** ** The allocator along any sequence of calls

    The second component of a state is the set of the page bases that callers
    hold: an allocation adds the page it returns, a release removes one. *)
Inductive phys_step : physmem * gset Z -> physmem * gset Z -> Prop :=
| step_get s o r s' : mm_get_phys_page s = Ok (r, s') -> r <> 0 -> phys_step (s, o) (s', {[r]} ∪ o)
| step_get_none s o s' : mm_get_phys_page s = Ok (0, s') -> phys_step (s, o) (s', o)
| step_put s o b s' : b ∈ o -> mm_put_phys_page b s = Ok s' -> phys_step (s, o) (s', o ∖ {[b]}).

Record ledger_ok (s0 s : physmem) (o : gset Z) : Prop := {
  led_ok : phys_ok s;
  led_tail : tail_used s;
  led_held : forall b, b ∈ o -> exists p, b = p * MM_PAGE_SIZE /\ page_free s0 p;
  led_free : forall p, page_free s p <-> page_free s0 p /\ (p * MM_PAGE_SIZE) ∉ o;
  led_count : available (phys_mem_layout s) = u32 (available (phys_mem_layout s0) - Z.of_nat (size o))
}.

Lemma page_base_inj p q : p * MM_PAGE_SIZE = q * MM_PAGE_SIZE -> p = q.
Proof. unfold MM_PAGE_SIZE; lia. Qed.

Lemma page_of_base p : MM_PAGE (p * MM_PAGE_SIZE) = p.
Proof. unfold MM_PAGE, MM_PAGE_SIZE; apply Z.div_mul; lia. Qed.

Lemma free_not_zero s p : phys_ok s -> page_free s p -> 0 < p.
Proof. intros Hs [? Hb]; destruct (decide (p = 0)) as [->|]; [|lia]; by rewrite (ok_zero _ Hs) in Hb. Qed.

(** Without a clear bit behind the array an allocation takes the lowest free page, or fails when there is none. *)
Lemma get_cases s :
  phys_ok s -> tail_used s -> exists r s', mm_get_phys_page s = Ok (r, s') /\ phys_ok s' /\
    (r <> 0 /\ got_page s r s' \/ got_none s r s').
Proof.
  intros Hs Ht; destruct (get_phys_page_ok s Hs) as (r & s' & E & Hs' & [H|[[_ (p & Hp & Hb & _)]|H]]);
    exists r, s'; split_and!; auto.
  - left; split; [|done]; destruct H as (p & Hf & _ & -> & _).
    pose proof (free_not_zero s p Hs Hf); unfold MM_PAGE_SIZE; lia.
  - by rewrite Ht in Hb.
Qed.

Lemma taken_tail s p s' : taken s p s' -> 0 <= p -> tail_used s -> tail_used s'.
Proof.
  intros Hk Hp Ht q Hq; rewrite (taken_bit s p) by (done || (revert Hq; rewrite phys_limit; lia)).
  case_test; auto.
Qed.

Lemma u32_step x n : u32 (u32 x - n) = u32 (x - n).
Proof. unfold u32; by rewrite Zminus_mod_idemp_l. Qed.

Lemma ledger_get s0 s o r s' :
  ledger_ok s0 s o -> phys_ok s' -> got_page s r s' -> (r ∉ o) /\ ledger_ok s0 s' ({[r]} ∪ o).
Proof.
  intros [Hok Ht Hheld Hfree Hc] Hs' (p & Hf & _ & -> & Hk).
  pose proof (proj1 (Hfree p) Hf) as [Hf0 Hno]; assert (0 <= p) by (destruct Hf; lia).
  split; [done|]; split.
  - done.
  - by eapply taken_tail.
  - intros b [->%elem_of_singleton|?]%elem_of_union; eauto.
  - intros q; rewrite not_elem_of_union, not_elem_of_singleton; unfold page_free at 1.
    destruct (decide (0 <= q < PHYS_LIMIT)) as [Hq|Hq]; [|split; [by intros []|by intros [[] _]]].
    rewrite (taken_bit s p) by (done || lia); destruct (Z.eqb_spec p q) as [<-|Hne].
    + split; [by intros [_ ?]|by intros [_ [? _]]].
    + split; [intros ?; destruct (proj1 (Hfree q)) as [? ?]; [done|]|intros (? & _ & ?); by apply Hfree].
      split_and!; try done. intros E; by apply Hne, page_base_inj.
  - destruct Hk as [_ ->]; cbn; rewrite Hc, u32_step; f_equal.
    rewrite size_union by set_solver; rewrite size_singleton; lia.
Qed.

Lemma ledger_put s0 s o b :
  ledger_ok s0 s o -> phys_ok s0 -> b ∈ o -> exists s', mm_put_phys_page b s = Ok s' /\ ledger_ok s0 s' (o ∖ {[b]}).
Proof.
  intros [Hok Ht Hheld Hfree Hc] Hs0 Hb; destruct (Hheld b Hb) as (p & -> & Hf).
  pose proof (free_not_zero s0 p Hs0 Hf) as Hp.
  destruct (put_phys_page_ok s (p * MM_PAGE_SIZE)) as (s' & E & Hs' & Em & El); [done|by rewrite page_of_base|].
  rewrite page_of_base in Em; exists s'; split; [done|]; split.
  - done.
  - intros q Hq; unfold bit; rewrite Em, clear_bit_ok by (revert Hq; rewrite phys_limit; lia).
    destruct Hf as [Hf _]; test_false; by apply Ht.
  - intros c [? _]%elem_of_difference; auto.
  - intros q; unfold page_free at 1.
    destruct (decide (0 <= q < PHYS_LIMIT)) as [Hq|Hq]; [|split; [by intros []|by intros [[] _]]].
    unfold bit; rewrite Em, clear_bit_ok by lia; destruct (Z.eqb_spec p q) as [<-|Hne].
    + split; [intros _; split; [done|set_solver]|intros _; by split].
    + specialize (Hfree q); unfold page_free at 1, bit in Hfree.
      rewrite Hfree, not_elem_of_difference, elem_of_singleton.
      split; [tauto|intros [? [?|E']]; [tauto|]]; by apply page_base_inj in E'.
  - rewrite El; cbn; rewrite Hc; unfold u32; rewrite Zplus_mod_idemp_l; f_equal.
    rewrite size_difference by set_solver; rewrite size_singleton.
    assert (size o <> 0%nat) by (intros ?%size_empty_inv; set_solver). lia.
Qed.

Lemma ledger_step s0 s o s' o' :
  phys_ok s0 -> ledger_ok s0 s o -> phys_step (s, o) (s', o') -> ledger_ok s0 s' o'.
Proof.
  intros Hs0 HL Hst; pose proof (get_cases s (led_ok _ _ _ HL) (led_tail _ _ _ HL)) as (r0 & t & E & Ht & Hc).
  inversion Hst as [? ? r ? E' Hr|? ? ? E'|? ? b ? Hb E']; simplify_eq.
  - rewrite E in E'; injection E' as -> ->.
    destruct Hc as [[_ Hg]|(_ & _ & ? & _)]; [|done]; by eapply ledger_get.
  - rewrite E in E'; injection E' as -> ->; destruct Hc as [[? _]|(Hno & ? & _ & Em & El)]; [done|].
    destruct HL as [? Htl ? Hfree ?]; split; try done.
    + intros q ?; unfold bit; rewrite Em; by apply Htl.
    + intros q; rewrite <- Hfree; unfold page_free, bit; by rewrite Em.
    + by rewrite El.
  - destruct (ledger_put s0 s o b) as (s1 & E1 & HL1); auto. rewrite E1 in E'; by injection E' as <-.
Qed.

Lemma ledger_run s0 s o :
  phys_ok s0 -> tail_used s0 -> 0 <= available (phys_mem_layout s0) < 2 ^ 32 ->
  rtc phys_step (s0, ∅) (s, o) -> ledger_ok s0 s o.
Proof.
  intros Hs0 Ht Ha Hrun; remember (s0, ∅) as x eqn:Ex; remember (s, o) as y eqn:Ey.
  assert (H0 : ledger_ok s0 (fst x) (snd x)).
  { subst x; cbn; split; try done; [|rewrite size_empty; by rewrite Z.sub_0_r, u32_small].
    intros p; split; [intros; split; [done|set_solver]|by intros [? _]]. }
  clear Ex; assert (ledger_ok s0 (fst y) (snd y)); [|by subst].
  clear Ey; induction Hrun as [|[? ?] [? ?] ? Hst _ IH]; [done|]; apply IH; by eapply ledger_step.
Qed.

(** C17. If the allocator starts in a state in which the seven bits for the last pages, which lie
    behind the end of the array and which [phys_mem_init] does not set ([tail_used]; [phys_mem_overrun] shows what
    happens otherwise), are set, then along any sequence of calls of [mm_get_phys_page] and [mm_put_phys_page] in
    which a caller only releases a page it holds: the pages held are distinct and were free at the
    start, a page is free exactly if it was free and nobody holds it, the counter of available
    pages is the initial one less the pages held, modulo 2^32, and the next allocation succeeds, with a page
    that nobody holds, exactly if a page is left (it returns zero otherwise). *)
Theorem phys_pages_correct s0 s o :
  phys_ok s0 -> tail_used s0 -> 0 <= available (phys_mem_layout s0) < 2 ^ 32 ->
  rtc phys_step (s0, ∅) (s, o) ->
  (forall b, b ∈ o -> exists p, b = p * MM_PAGE_SIZE /\ page_free s0 p) /\
  (forall p, page_free s p <-> page_free s0 p /\ (p * MM_PAGE_SIZE) ∉ o) /\
  available (phys_mem_layout s) = u32 (available (phys_mem_layout s0) - Z.of_nat (size o)) /\
  exists r s', mm_get_phys_page s = Ok (r, s') /\
    (r = 0 <-> forall p, page_free s0 p -> p * MM_PAGE_SIZE ∈ o) /\
    (r <> 0 -> (r ∉ o) /\ exists p, page_free s p /\ r = p * MM_PAGE_SIZE /\ forall q, page_free s q -> p <= q).
Proof.
  intros Hs0 Ht Ha Hrun; pose proof (ledger_run s0 s o Hs0 Ht Ha Hrun) as HL; destruct (HL) as [Hok Htl Hheld Hfree Hc].
  split_and!; [done|done|done|].
  destruct (get_cases s Hok Htl) as (r & s' & E & Hs' & [[Hr Hg]|(Hno & _ & -> & _)]); exists r || exists 0; exists s';
    (split; [done|split]).
  - split; [done|intros Hall]; destruct Hg as (p & Hf & _); destruct (proj1 (Hfree p) Hf) as [? []]; auto.
  - intros _; split; [by eapply ledger_get|]; destruct Hg as (p & ? & ? & ? & _); eauto.
  - split; [|done]; intros _ p Hp; destruct (decide (p * MM_PAGE_SIZE ∈ o)); [done|]; by destruct (Hno p); apply Hfree.
  - done.
Qed.

(** Pages 256 to 258 are free, the rest of the memory is in use. *)
Definition small_phys : physmem :=
  Build_physmem (Build_phys_mem_layout_t 0 0 0 0 0 3 3) (fun i => if i =? 32 then 248 else 255) 0 false false.

Lemma small_phys_bit p : 0 <= p -> bit small_phys p = if (256 <=? p) && (p <? 259) then 0 else 1.
Proof.
  intros Hp; unfold bit; rewrite get_bit_spec by done; cbn [phys_mem small_phys].
  pose proof (Z.mod_pos_bound p 8 eq_refl); pose proof (Z.div_mod p 8).
  destruct (Z.eqb_spec (p / 8) 32) as [E|E].
  - assert (Hm : p mod 8 = p - 256) by lia; rewrite Hm.
    assert (p - 256 = 0 \/ p - 256 = 1 \/ p - 256 = 2 \/ p - 256 = 3 \/ p - 256 = 4 \/ p - 256 = 5 \/
            p - 256 = 6 \/ p - 256 = 7) as [H1|[H1|[H1|[H1|[H1|[H1|[H1|H1]]]]]]] by lia; rewrite H1;
    repeat (case_test; try lia); done.
  - assert (p mod 8 = 0 \/ p mod 8 = 1 \/ p mod 8 = 2 \/ p mod 8 = 3 \/ p mod 8 = 4 \/ p mod 8 = 5 \/
            p mod 8 = 6 \/ p mod 8 = 7) as [H1|[H1|[H1|[H1|[H1|[H1|[H1|H1]]]]]]] by lia; rewrite H1;
    repeat (case_test; try lia); done.
Qed.

Lemma small_phys_ok : phys_ok small_phys.
Proof. split; [done|by rewrite phys_pages|cbn; lia|done]. Qed.

Lemma small_phys_tail : tail_used small_phys.
Proof. intros p; rewrite phys_limit; intros; rewrite small_phys_bit by lia; by tests. Qed.

Lemma small_phys_get : exists s', mm_get_phys_page small_phys = Ok (1048576, s').
Proof.
  assert (H : match mm_get_phys_page small_phys with Ok (r, _) => r =? 1048576 | _ => false end = true)
    by (vm_compute; reflexivity).
  destruct (mm_get_phys_page small_phys) as [[r s']| | |]; try done; apply Z.eqb_eq in H as ->; eauto.
Qed.

Lemma phys_pages_correct_witness :
  exists s, rtc phys_step (small_phys, ∅) (s, {[1048576]} ∪ ∅) /\ available (phys_mem_layout s) = 2.
Proof.
  destruct small_phys_get as [s E]; exists s.
  assert (Hrun : rtc phys_step (small_phys, ∅) (s, {[1048576]} ∪ ∅)) by (apply rtc_once; by apply step_get).
  split; [exact Hrun|].
  assert (Ha : 0 <= available (phys_mem_layout small_phys) < 2 ^ 32) by (cbn; lia).
  destruct (phys_pages_correct small_phys s _ small_phys_ok small_phys_tail Ha Hrun) as (_ & _ & -> & _).
  vm_compute; reflexivity.
Defined.

(** When every page is in use and the byte behind the array has a clear bit, the search does not
    fail but returns a page behind the end of the bitmap; the counter wraps around. *)
Definition full_phys : physmem :=
  Build_physmem (Build_phys_mem_layout_t 0 0 0 0 0 0 0) (fun i => if i <? 131071 then 255 else 0) 1048560 false false.

Theorem phys_mem_overrun :
  MM_PHYS_MEM_PAGES / 8 = 131071 /\
  exists s', mm_get_phys_page full_phys = Ok (4294934528, s') /\ available (phys_mem_layout s') = 2 ^ 32 - 1.
Proof.
  split; [done|].
  assert (H : match mm_get_phys_page full_phys with
              | Ok (r, s') => (r =? 4294934528) && (available (phys_mem_layout s') =? 2 ^ 32 - 1)
              | _ => false end = true) by (vm_compute; reflexivity).
  destruct (mm_get_phys_page full_phys) as [[r s']| | |]; try done.
  apply andb_true_iff in H as [->%Z.eqb_eq ?%Z.eqb_eq]; eauto.
Qed.

(** ** Initialization *)

(** A memory map entry with 32-bit fields that is not empty and does not start inside the
    last page of the address space. *)
Record entry_ok (e : memory_map_entry_t) : Prop := {
  entry_base : 0 <= base_addr_low e <= 2 ^ 32 - MM_PAGE_SIZE;
  entry_len : 0 < length_low e < 2 ^ 32
}.

(** The last address of the entry. *)
Definition entry_end (e : memory_map_entry_t) : Z := base_addr_low e + length_low e - 1.

(** Page [p] lies in an entry below 4 GB of type RAM, above the first megabyte. *)
Definition usable (e : memory_map_entry_t) (p : Z) : Prop :=
  base_addr_high e = 0 /\ length_high e = 0 /\ entry_end e < 2 ^ 32 /\ mmap_type e = MB_MMAP_ENTRY_TYPE_FREE /\
  MM_HIGH_MEM_START + MM_PAGE_SIZE <= entry_end e /\
  base_addr_low e <= p * MM_PAGE_SIZE /\ (p + 1) * MM_PAGE_SIZE - 1 <= entry_end e /\ MM_PAGE MM_HIGH_MEM_START <= p.

Lemma first_page_ok start p :
  0 <= start <= 2 ^ 32 - MM_PAGE_SIZE ->
  entry_first_page start <= p <-> start <= p * MM_PAGE_SIZE /\ MM_PAGE MM_HIGH_MEM_START <= p.
Proof.
  unfold entry_first_page, MM_PAGE_START, MM_PAGE, MM_PAGE_SIZE, MM_HIGH_MEM_START; intros Hs.
  pose proof (Z.div_mod start 4096); pose proof (Z.mod_pos_bound start 4096 eq_refl).
  rewrite (u32_small (start / 4096 + 1)) by lia.
  replace (start / 4096 + 1 - 1) with (start / 4096) by lia.
  rewrite (u32_small (start / 4096)), (u32_small (start / 4096 * 4096)) by lia.
  change (1048576 / 4096) with 256.
  destruct (Z.eqb_spec (start / 4096 * 4096) start) as [E|E].
  - rewrite u32_small by lia; case_test; lia.
  - rewrite u32_small by lia; case_test; lia.
Qed.

Lemma last_page_ok e p :
  MM_HIGH_MEM_START + MM_PAGE_SIZE <= e < 2 ^ 32 -> p <= entry_last_page e <-> (p + 1) * MM_PAGE_SIZE - 1 <= e.
Proof.
  unfold entry_last_page, MM_PAGE_END, MM_PAGE, MM_PAGE_SIZE, MM_HIGH_MEM_START; intros He.
  pose proof (Z.div_mod e 4096); pose proof (Z.mod_pos_bound e 4096 eq_refl).
  rewrite (u32_small (e / 4096 - 1)) by lia.
  replace (e / 4096 - 1 + 1) with (e / 4096) by lia.
  rewrite (u32_small (e / 4096)), (u32_small (_ * 4096 - 1)) by lia; case_test; lia.
Qed.

(** What a loop over pages that sets or clears their bits leaves. *)
Lemma foldl_bits (step : physmem -> Z -> physmem) (v : Z) (l : list Z) s p :
  (forall t i q, 0 <= i -> 0 <= q -> bit (step t i) q = if i =? q then v else bit t q) ->
  Forall (fun i => 0 <= i) l -> 0 <= p ->
  bit (foldl step s l) p = if decide (p ∈ l) then v else bit s p.
Proof.
  intros Hstep Hl Hp; revert s; induction l as [|i l IH] using rev_ind; intros s; cbn.
  - by case_decide as H; [apply elem_of_nil in H|].
  - apply list.Forall_app in Hl as [Hl Hi]; assert (Hi' : 0 <= i) by by inversion Hi.
    rewrite foldl_app; cbn; rewrite Hstep, IH by done; destruct (Z.eqb_spec i p) as [->|Hne].
    + rewrite decide_True; [done|]; rewrite elem_of_app, list_elem_of_singleton; auto.
    + destruct (decide (p ∈ l)) as [H|H]; [rewrite decide_True|rewrite decide_False];
        rewrite ?elem_of_app, ?list_elem_of_singleton; try tauto. by intros [?| ->].
Qed.

Lemma foldl_keeps {A B : Type} (f : physmem -> A -> physmem) (g : physmem -> B) (l : list A) s :
  (forall t i, g (f t i) = g t) -> g (foldl f s l) = g s.
Proof. intros H; revert s; induction l as [|i l IH]; intros s; cbn; [done|]; by rewrite IH. Qed.

Lemma seqZ_nonneg a n : 0 <= a -> Forall (fun i => 0 <= i) (seqZ a n).
Proof. intros; apply list.Forall_forall; intros x ?%elem_of_seqZ; lia. Qed.

Lemma release_bit t i q : 0 <= i -> 0 <= q -> bit (release_page t i) q = if i =? q then 0 else bit t q.
Proof. intros; unfold bit; cbn; by apply clear_bit_ok. Qed.
Lemma reserve_bit t i q : 0 <= i -> 0 <= q -> bit (reserve_page t i) q = if i =? q then 1 else bit t q.
Proof. intros; unfold bit; cbn; by apply set_bit_ok. Qed.

Lemma walk_entry_bit s e p :
  entry_ok e -> 0 <= p -> bit (walk_entry s e) p = 0 <-> usable e p \/ bit s p = 0.
Proof.
  intros [Hb Hl] Hp; unfold walk_entry.
  rewrite (u32_small (length_low e - 1)) by lia.
  destruct (Z.eqb_spec (base_addr_high e) 0) as [H1|H1]; [|cbn; unfold usable; tauto].
  destruct (Z.eqb_spec (length_high e) 0) as [H2|H2]; [|cbn; unfold usable; tauto]; cbn -[Z.ltb Z.sub].
  destruct (Z.ltb_spec (2 ^ 32 - 1 - base_addr_low e) (length_low e - 1)) as [H3|H3];
    [unfold usable, entry_end; split; [auto|intros [?|?]; [lia|done]]|].
  rewrite u32_small by lia; replace (base_addr_low e + (length_low e - 1)) with (entry_end e) by (unfold entry_end; lia).
  assert (Hm : forall t, bit (if mem_end (phys_mem_layout s) <? entry_end e then set_layout t s else s) p = bit s p)
    by (intros; by destruct (_ <? _)).
  destruct (Z.eqb_spec (mmap_type e) MB_MMAP_ENTRY_TYPE_FREE) as [H4|H4]; [|cbn; rewrite Hm; unfold usable; tauto].
  destruct (Z.leb_spec (MM_HIGH_MEM_START + MM_PAGE_SIZE) (entry_end e)) as [H5|H5];
    [|cbn; rewrite Hm; unfold usable; split; [auto|intros [?|?]; [lia|done]]].
  cbn [andb]; unfold release_pages; rewrite (foldl_bits _ 0), Hm.
  - pose proof (first_page_ok (base_addr_low e) p Hb) as Hfirst.
    pose proof (last_page_ok (entry_end e) p ltac:(unfold entry_end in *; lia)) as Hlast.
    case_decide as Hd; rewrite elem_of_seqZ in Hd.
    + split; [intros _; left|done]; destruct (proj1 Hfirst) as [? ?]; [lia|].
      assert ((p + 1) * MM_PAGE_SIZE - 1 <= entry_end e) by (apply Hlast; lia).
      unfold usable, entry_end in *; split_and!; done || lia.
    + split; [auto|intros [Hu|?]; [|done]]; destruct Hd; unfold usable in Hu.
      assert (p <= entry_last_page (entry_end e)) by (apply Hlast; tauto).
      assert (entry_first_page (base_addr_low e) <= p) by (apply Hfirst; tauto). lia.
  - apply release_bit.
  - apply seqZ_nonneg; unfold entry_first_page; repeat case_match; try apply u32_range; done.
  - done.
Qed.

Lemma walk_entry_keeps {B : Type} (g : physmem -> B) s e :
  (forall t n, g (set_layout (set_mem_end n) t) = g t) -> (forall t i, g (release_page t i) = g t) ->
  g (walk_entry s e) = g s.
Proof.
  intros H1 H2; unfold walk_entry; destruct (_ || _); [done|].
  assert (H : g (if mem_end (phys_mem_layout s) <? u32 (base_addr_low e + u32 (length_low e - 1))
    then set_layout (set_mem_end (u32 (base_addr_low e + u32 (length_low e - 1)))) s else s) = g s)
    by (destruct (_ <? _); [apply H1|done]).
  destruct (_ && _); [|done]; unfold release_pages; rewrite foldl_keeps by done; done.
Qed.

Lemma walk_bit entries s p :
  Forall entry_ok entries -> 0 <= p ->
  bit (walk_memory_map entries s) p = 0 <-> (exists e, e ∈ entries /\ usable e p) \/ bit s p = 0.
Proof.
  intros He Hp; unfold walk_memory_map.
  change (bit s p) with (bit (set_layout (set_mem_end 0) s) p).
  generalize (set_layout (set_mem_end 0) s); clear s.
  induction He as [|e l He _ IH]; intros s; cbn [foldl].
  - split; [auto|intros [(e & []%elem_of_nil & _)|?]; done].
  - rewrite IH, walk_entry_bit by done; setoid_rewrite elem_of_cons; split; [|naive_solver].
    intros [(e' & ? & ?)|[?|?]]; eauto.
Qed.

Lemma walk_keeps {B : Type} (g : physmem -> B) entries s :
  (forall t n, g (set_layout (set_mem_end n) t) = g t) -> (forall t i, g (release_page t i) = g t) ->
  g (walk_memory_map entries s) = g s.
Proof. intros H1 H2; unfold walk_memory_map; rewrite foldl_keeps by (intros; by apply walk_entry_keeps); apply H1. Qed.

(** The loop marks the pages from that of the first byte of the kernel to that of the byte behind its last one. *)
Lemma reserve_kernel_ok n i s :
  let last := (kernel_end (phys_mem_layout s) + 1) / MM_PAGE_SIZE in
  0 <= i <= last -> last < 2 ^ 20 - 1 -> (Z.to_nat (last - i) < n)%nat ->
  reserve_kernel n i s = Ok (foldl reserve_page s (seqZ i (last - i + 1))).
Proof.
  intros last; revert i s last; induction n as [|n IH]; intros i s last Hi Hl Hn; [lia|].
  assert (Hcur : last * 4096 <= kernel_end (phys_mem_layout s) + 1 < (last + 1) * 4096)
    by (unfold last, MM_PAGE_SIZE; Z.div_mod_to_equations; lia).
  cbn [reserve_kernel]; rewrite (seqZ_cons i) by lia; cbn [foldl].
  unfold MM_PAGE_END, MM_PAGE_SIZE at 1; rewrite u32_small by lia.
  change (kernel_end (phys_mem_layout (reserve_page s i))) with (kernel_end (phys_mem_layout s)); case_test.
  - replace (Z.pred (last - i + 1)) with 0 by lia; done.
  - rewrite IH; change (kernel_end (phys_mem_layout (reserve_page s i))) with (kernel_end (phys_mem_layout s));
      fold last; [|lia|lia|lia].
    do 3 f_equal; lia.
Qed.

Lemma fill_bytes (l : list Z) (g : Z -> Z) (j : Z) :
  foldl (fun f k => <[k := 255]> f) g l j = if decide (j ∈ l) then 255 else g j.
Proof.
  revert g j; induction l as [|k l IH] using rev_ind; intros g j; cbn.
  - by case_decide as H; [apply elem_of_nil in H|].
  - rewrite foldl_app; cbn; destruct (decide (k = j)) as [->|Hne].
    + rewrite fn_lookup_insert, decide_True; [done|]; rewrite elem_of_app, list_elem_of_singleton; auto.
    + rewrite fn_lookup_insert_ne, IH by done.
      destruct (decide (j ∈ l)) as [H|H]; [rewrite decide_True|rewrite decide_False];
        rewrite ?elem_of_app, ?list_elem_of_singleton; try tauto. by intros [?| ->].
Qed.

(** The bits behind the array are not set. *)
Lemma fill_tail f p : PHYS_LIMIT <= p ->
  BITFIELD_GET_BIT (foldl (fun f j => <[j := 255]> f) f (seqZ 0 (MM_PHYS_MEM_PAGES / 8))) p = BITFIELD_GET_BIT f p.
Proof.
  intros Hp; rewrite !get_bit_spec by (revert Hp; rewrite phys_limit; lia); rewrite fill_bytes, decide_False; [done|].
  intros ?%elem_of_seqZ; revert Hp; unfold PHYS_LIMIT; intros; Z.div_mod_to_equations; lia.
Qed.

Lemma fill_bits f p :
  0 <= p < PHYS_LIMIT -> BITFIELD_GET_BIT (foldl (fun f j => <[j := 255]> f) f (seqZ 0 (MM_PHYS_MEM_PAGES / 8))) p = 1.
Proof.
  intros Hp; rewrite get_bit_spec by lia; rewrite fill_bytes, decide_True.
  - pose proof (Z.mod_pos_bound p 8 eq_refl).
    assert (p mod 8 = 0 \/ p mod 8 = 1 \/ p mod 8 = 2 \/ p mod 8 = 3 \/ p mod 8 = 4 \/ p mod 8 = 5 \/
            p mod 8 = 6 \/ p mod 8 = 7) as [H1|[H1|[H1|[H1|[H1|[H1|[H1|H1]]]]]]] by lia; rewrite H1; done.
  - apply elem_of_seqZ; revert Hp; unfold PHYS_LIMIT; intros; Z.div_mod_to_equations; lia.
Qed.

(** The pages of the kernel and of the RAM disk. *)
Definition kernel_page (l : phys_mem_layout_t) (p : Z) : Prop :=
  MM_PAGE (kernel_start l) <= p <= (kernel_end l + 1) / MM_PAGE_SIZE.
Definition ramdisk_page (rd : option (Z * Z)) (p : Z) : Prop :=
  match rd with None => False | Some (lo, hi) => MM_PAGE lo <= p <= MM_PAGE hi end.

Lemma ramdisk_bit rd s p :
  match rd with None => True | Some (lo, _) => 0 <= lo end -> 0 <= p ->
  bit (locate_ramdisk rd s) p = 0 <-> bit s p = 0 /\ ~ ramdisk_page rd p.
Proof.
  destruct rd as [[lo hi]|]; cbn [locate_ramdisk ramdisk_page]; intros Hlo Hp; [|unfold bit; cbn; tauto].
  rewrite (foldl_bits _ 1); [|apply reserve_bit|apply seqZ_nonneg, Z.div_pos; unfold MM_PAGE_SIZE; lia|done].
  change (bit (set_layout (set_ramdisk lo hi) (set_have_ramdisk true s)) p) with (bit s p).
  case_decide as Hd; rewrite elem_of_seqZ in Hd; (split; [|intros [? ?]]); auto with lia; intros ?; split; auto with lia.
Qed.

Lemma ramdisk_keeps {B : Type} (g : physmem -> B) rd s :
  (forall t b, g (set_have_ramdisk b t) = g t) -> (forall t lo hi, g (set_layout (set_ramdisk lo hi) t) = g t) ->
  (forall t i, g (reserve_page t i) = g t) -> g (locate_ramdisk rd s) = g s.
Proof. intros H1 H2 H3; destruct rd as [[lo hi]|]; cbn; [|done]; by rewrite foldl_keeps, H2, H1. Qed.

Lemma kernel_pages_ok s :
  let l := phys_mem_layout s in
  0 <= kernel_start l <= kernel_end l -> kernel_end l < MM_COMMON_AREA_SIZE ->
  exists s', reserve_kernel (kernel_fuel s) (MM_PAGE (kernel_start l)) s = Ok s' /\
    phys_mem_lock s' = phys_mem_lock s /\ start_search s' = start_search s /\
    forall p, 0 <= p -> bit s' p = 0 <-> bit s p = 0 /\ ~ kernel_page l p.
Proof.
  intros l Hk Hke; unfold kernel_fuel; fold l.
  assert (Hlast : 0 <= MM_PAGE (kernel_start l) <= (kernel_end l + 1) / MM_PAGE_SIZE).
  { unfold MM_PAGE; split; [apply Z.div_pos|apply Z.div_le_mono]; unfold MM_PAGE_SIZE; lia. }
  assert (Hlast' : (kernel_end l + 1) / MM_PAGE_SIZE < 32769).
  { unfold MM_PAGE_SIZE; apply Z.div_lt_upper_bound; [lia|]; change MM_COMMON_AREA_SIZE with 134217728 in Hke; lia. }
  assert (Hfuel : (kernel_end l + 1) / MM_PAGE_SIZE <= MM_PAGE (kernel_end l) + 1)
    by (unfold MM_PAGE, MM_PAGE_SIZE; Z.div_mod_to_equations; lia).
  eexists; rewrite reserve_kernel_ok; fold l; [split; [done|]|lia|lia|lia].
  split_and!; [by rewrite (foldl_keeps _ phys_mem_lock)|by rewrite (foldl_keeps _ start_search)|].
  intros q Hq; rewrite (foldl_bits _ 1); [|apply reserve_bit|apply seqZ_nonneg; lia|lia].
  unfold kernel_page; case_decide as Hd; rewrite elem_of_seqZ in Hd.
  - split; [done|intros [_ Hn]; destruct Hn; lia].
  - split; [intros; split; [done|lia]|tauto].
Qed.

(** The number of free pages. *)
Definition free_pages (p : physmem) : nat := length (filter (fun q => (bit p q =? 0) = true) (seqZ 0 PHYS_LIMIT)).

Lemma free_pages_elem p q : q ∈ filter (fun q => (bit p q =? 0) = true) (seqZ 0 PHYS_LIMIT) <-> page_free p q.
Proof. rewrite list_elem_of_filter, elem_of_seqZ, Z.eqb_eq; unfold page_free; rewrite Z.add_0_l; tauto. Qed.

Lemma free_pages_some p : (0 < free_pages p)%nat -> exists q, page_free p q.
Proof.
  unfold free_pages; destruct (filter _ _) as [|q l] eqn:E; cbn; [lia|intros _]; exists q; apply free_pages_elem; rewrite E; by left.
Qed.

Lemma free_pages_none p : free_pages p = 0%nat -> forall q, ~ page_free p q.
Proof. unfold free_pages; intros E%nil_length_inv q Hq%free_pages_elem; rewrite E in Hq; by apply not_elem_of_nil in Hq. Qed.

Lemma free_pages_used p p' b :
  page_free p b -> (forall q, 0 <= q -> bit p' q = if b =? q then 1 else bit p q) -> free_pages p = S (free_pages p').
Proof.
  intros Hb Ht; pose proof Hb as [Hbr _]; apply free_pages_elem in Hb.
  assert (Hnd : forall P : Z -> bool, NoDup (filter (fun q => P q = true) (seqZ 0 PHYS_LIMIT))) by (intros P; apply list.NoDup_filter, NoDup_seqZ).
  unfold free_pages; match goal with |- _ = S (length ?k) => change (S (length k)) with (length (b :: k)) end; apply Permutation_length, NoDup_Permutation; [apply (Hnd (fun q => bit p q =? 0))| |].
  - apply list.NoDup_cons; split; [|apply (Hnd (fun q => bit p' q =? 0))]; intros [_ E]%free_pages_elem.
    rewrite Ht in E by lia; by rewrite Z.eqb_refl in E.
  - intros q; rewrite elem_of_cons, !free_pages_elem; unfold page_free; destruct (decide (0 <= q < PHYS_LIMIT)) as [Hq|Hq].
    + rewrite Ht by lia; apply free_pages_elem in Hb as [_ Hb].
      destruct (Z.eqb_spec b q) as [->|]; naive_solver.
    + split; [tauto|]; intros [->|]; tauto.
Qed.

Lemma free_pages_take p p' b : page_free p b -> taken p b p' -> free_pages p = S (free_pages p').
Proof. intros Hb Ht; apply (free_pages_used p p' b Hb); intros q Hq; apply taken_bit; [done|destruct Hb; lia|done]. Qed.

Lemma free_pages_zero p : (forall q, ~ page_free p q) -> free_pages p = 0%nat.
Proof. intros H; destruct (free_pages p) eqn:E; [done|]; destruct (free_pages_some p) as [q Hq]; [lia|by destruct (H q)]. Qed.

Lemma free_pages_same p p' : (forall q, 0 <= q -> bit p' q = bit p q) -> free_pages p' = free_pages p.
Proof. intros H; apply (seqZ_filter_ext (fun q => bit p' q =? 0) (fun q => bit p q =? 0)); intros q Hq; by rewrite H by lia. Qed.

(** C18. [phys_mem_init] returns for every memory map none of whose entries is empty or starts behind
    the first byte of the last page of the address space (see [walk_entry_corners] for what such an entry
    does), a kernel below the end of the common area and a RAM disk at any address.
    Afterwards a page of the bitmap is free exactly if it lies within an entry of the memory map
    that is RAM below 4 GB and ends at [0x101000] or above, is not below one megabyte
    and belongs neither to the kernel (up to the page of the byte behind its end) nor to the
    RAM disk; the state satisfies the invariant of the allocator.  The bits for the last pages, behind the
    end of the array, are not initialized: such a bit is clear afterwards exactly if it was clear before or its page
    lies in such an entry, and the page belongs neither to the kernel nor to the RAM disk. *)
Theorem phys_mem_init_correct entries rd s :
  Forall entry_ok entries -> match rd with None => True | Some (lo, _) => 0 <= lo end ->
  start_search s = 0 -> 0 <= kernel_start (phys_mem_layout s) <= kernel_end (phys_mem_layout s) ->
  kernel_end (phys_mem_layout s) < MM_COMMON_AREA_SIZE ->
  let released p := (exists e, e ∈ entries /\ usable e p) /\ ~ kernel_page (phys_mem_layout s) p /\ ~ ramdisk_page rd p in
  exists s', phys_mem_init entries rd s = Ok s' /\ phys_ok s' /\
    (forall p, page_free s' p <-> 0 <= p < PHYS_LIMIT /\ released p) /\
    (forall p, PHYS_LIMIT <= p -> bit s' p = 0 <->
       ((exists e, e ∈ entries /\ usable e p) \/ bit s p = 0) /\ ~ kernel_page (phys_mem_layout s) p /\ ~ ramdisk_page rd p).
Proof.
  intros He Hrd Hss Hk Hke released; unfold phys_mem_init.
  set (s1 := set_lock false _); set (s2 := walk_memory_map entries s1).
  assert (Hl : forall g : phys_mem_layout_t -> Z, (forall l n, g (set_mem_end n l) = g l) ->
    (forall l n, g (set_available n l) = g l) -> (forall l n, g (set_total n l) = g l) ->
    g (phys_mem_layout s2) = g (phys_mem_layout s)).
  { intros g H1 H2 H3; unfold s2; rewrite (walk_keeps (fun t => g (phys_mem_layout t))); [done|intros; apply H1|].
    intros; cbn; by rewrite H3, H2. }
  assert (Hend := Hl kernel_end ltac:(done) ltac:(done) ltac:(done)).
  assert (Hstart := Hl kernel_start ltac:(done) ltac:(done) ltac:(done)); clear Hl.
  destruct (kernel_pages_ok s2) as (s3 & -> & Hlock & Hsearch & Hker); rewrite ?Hend, ?Hstart; try done.
  unfold s2 in Hlock, Hsearch; rewrite (walk_keeps phys_mem_lock) in Hlock by done.
  rewrite (walk_keeps start_search) in Hsearch by done; cbn in Hlock, Hsearch.
  assert (Hall : forall p, 0 <= p -> bit (locate_ramdisk rd s3) p = 0 <->
    ((exists e, e ∈ entries /\ usable e p) \/ bit s1 p = 0) /\ ~ kernel_page (phys_mem_layout s) p /\ ~ ramdisk_page rd p).
  { intros p Hp; rewrite ramdisk_bit, Hker by done; unfold kernel_page; rewrite Hend, Hstart; unfold s2.
    rewrite (walk_bit entries s1 p He Hp); tauto. }
  assert (Hbit : forall p, 0 <= p < PHYS_LIMIT -> bit (locate_ramdisk rd s3) p = 0 <-> released p).
  { intros p Hp; rewrite Hall by lia; replace (bit s1 p) with 1 by (symmetry; by apply fill_bits).
    unfold released; split; [intros [[?|?] ?]; done|tauto]. }
  eexists; split; [done|]; split; [split|].
  - by rewrite (ramdisk_keeps phys_mem_lock).
  - rewrite (ramdisk_keeps start_search), Hsearch, Hss, phys_pages by done; lia.
  - rewrite (ramdisk_keeps start_search), Hsearch, Hss by done; lia.
  - destruct (bit_cases (phys_mem (locate_ramdisk rd s3)) 0) as [H|H]; [done| |done].
    apply Hbit in H as [(e & _ & Hu) _]; [|by rewrite phys_limit].
    destruct Hu as (_ & _ & _ & _ & _ & _ & _ & Hu); by destruct Hu.
  - split; [intros p; unfold page_free; split; intros [? ?]; (split; [done|]); by apply Hbit|].
    intros p Hp; rewrite Hall by (revert Hp; rewrite phys_limit; lia); unfold s1, bit; cbn; by rewrite fill_tail.
Qed.

(** A machine with 64 MB: RAM below the first megabyte's hole and above it, a kernel of one megabyte, a RAM disk. *)
Definition pc_map : list memory_map_entry_t :=
  [Build_memory_map_entry_t 0 0 654336 0 1; Build_memory_map_entry_t 654336 0 1024 0 2;
   Build_memory_map_entry_t 1048576 0 66060288 0 1].
Definition pc_phys : physmem :=
  Build_physmem (Build_phys_mem_layout_t 1048576 2097200 0 0 0 0 0) (fun _ => 0) 0 false false.

Lemma phys_mem_init_correct_witness :
  exists s', phys_mem_init pc_map (Some (4194304, 5242879)) pc_phys = Ok s' /\ page_free s' 700 /\ ~ page_free s' 512 /\
    ~ page_free s' 1100 /\ bit s' 1048570 = 0.
Proof.
  assert (He : Forall entry_ok pc_map) by (repeat constructor; cbn; unfold MM_PAGE_SIZE; lia).
  assert (Hk : 0 <= 1048576 <= 2097200) by lia; assert (Hc : 2097200 < MM_COMMON_AREA_SIZE) by reflexivity.
  destruct (phys_mem_init_correct pc_map (Some (4194304, 5242879)) pc_phys He ltac:(cbn; lia) eq_refl Hk Hc) as (s' & E & _ & H & Htail).
  exists s'; split; [exact E|]; split_and!; [rewrite H; clear H..|].
  - split; [rewrite phys_limit; lia|]; split; [|split; intros [H1 H2]; [by destruct H2|by destruct H1]].
    exists (Build_memory_map_entry_t 1048576 0 66060288 0 1); split; [by do 2 constructor 2; constructor|].
    unfold usable; split_and!; vm_compute; congruence.
  - intros (_ & _ & Hn & _); apply Hn; split; vm_compute; congruence.
  - intros (_ & _ & _ & Hn); apply Hn; split; vm_compute; congruence.
  - apply Htail; [rewrite phys_limit; lia|]; split; [right; reflexivity|split; intros [_ H2]; by destruct H2].
Defined.

(** An entry that is empty and starts at zero, or that starts behind the first byte of the last page, makes the code
    release all pages above the first megabyte, whether there is RAM or not. *)
Theorem walk_entry_corners s p :
  256 <= p < 1048575 ->
  bit (walk_entry s (Build_memory_map_entry_t 0 0 0 0 MB_MMAP_ENTRY_TYPE_FREE)) p = 0 /\
  bit (walk_entry s (Build_memory_map_entry_t 4294963201 0 4095 0 MB_MMAP_ENTRY_TYPE_FREE)) p = 0.
Proof.
  intros Hp; assert (Hr : forall f l t, 0 <= f <= p -> p <= l -> bit (release_pages f l t) p = 0).
  { intros f l t Hf Hl; unfold release_pages; rewrite (foldl_bits _ 0); [|apply release_bit|apply seqZ_nonneg; lia|lia].
    rewrite decide_True; [done|apply elem_of_seqZ; lia]. }
  assert (H1 : entry_first_page 0 = 256 /\ entry_first_page 4294963201 = 256 /\ entry_last_page 4294967295 = 1048575)
    by (vm_compute; done).
  split; unfold walk_entry; cbn [base_addr_low base_addr_high length_low length_high mmap_type].
  - change (u32 (0 + u32 (0 - 1))) with 4294967295.
    change (negb (0 =? 0) || negb (0 =? 0) || (2 ^ 32 - 1 - 0 <? u32 (0 - 1))) with false; cbv iota.
    change ((MB_MMAP_ENTRY_TYPE_FREE =? MB_MMAP_ENTRY_TYPE_FREE) && (MM_HIGH_MEM_START + MM_PAGE_SIZE <=? 4294967295)) with true.
    cbv iota; apply Hr; lia.
  - change (u32 (4294963201 + u32 (4095 - 1))) with 4294967295.
    change (negb (0 =? 0) || negb (0 =? 0) || (2 ^ 32 - 1 - 4294963201 <? u32 (4095 - 1))) with false; cbv iota.
    change ((MB_MMAP_ENTRY_TYPE_FREE =? MB_MMAP_ENTRY_TYPE_FREE) && (MM_HIGH_MEM_START + MM_PAGE_SIZE <=? 4294967295)) with true.
    cbv iota; apply Hr; lia.
Qed.
