(* ===== verification/Paging.v ===== *)
(** * Virtual memory ([kernel/mm.c], [hw/pagetables.c], [include/pagetables.h])

    The functions that read and write page tables, on a model of the machine they
    run on: physical memory, the two-level translation of the x86 processor with
    its translation lookaside buffer (TLB), and the registers CR0 and CR3.

    Every pointer the code follows is a virtual address.  [vload32] and [vstore32]
    translate it through the TLB and, if it misses, through the page tables in
    physical memory, filling the TLB; an address that is not mapped, or a write to
    a read-only page, is a page fault of the kernel ([Fault]).  So the trick by
    which the page tables of the current process are visible in the upper 4 MB of
    its address space is not assumed but proved. *)

From S2P Require Import Prelude Errors Memory MmDefs Lists PhysMem.
Import Lists.

(** ** Constants of [include/mm.h] *)

Definition MM_START_CODE : Z := 1073741824.
Definition MM_MEMIO_END : Z := MM_COMMON_AREA_SIZE - 1.
Definition MM_RESERVED_PAGES : Z := 8.
Definition MM_VIRTUAL_TOS : Z := 4290772992 - 1 - MM_PAGE_SIZE * MM_RESERVED_PAGES.
Definition MM_STACK_PAGES : Z := 128.
Definition MM_STACK_PAGES_TASK : Z := 4.
Definition MM_STACK_PAGES_TASK_USER : Z := 32.
Definition MM_STACK_PAGES_GAP : Z := 2.
Definition MM_VIRTUAL_TOS_USER : Z := MM_VIRTUAL_TOS - MM_PAGE_SIZE * MM_STACK_PAGES.
Definition MIN_HEAP_BYTES : Z := 32 * 1024 * 1024.
Definition MM_READ_WRITE : Z := 1.
Definition MM_READ_ONLY : Z := 0.
Definition MM_SUPERVISOR_PAGE : Z := 0.
Definition MM_USER_PAGE : Z := 1.
Definition PM_MAX_TASK : Z := 1024.
Definition PM_MAX_PROCESS : Z := 1024.
Definition SELECTOR_CODE_KERNEL : Z := 8.
Definition KSIGSEGV : Z := 11.

Definition MM_AREA_START (page : Z) : Z := u32 (page * MM_PAGE_SIZE * MM_PT_ENTRIES).
Definition MM_VIRTUAL_PT_ENTRY (pt w : Z) : Z := u32 (4290772992 + pt * MM_PAGE_SIZE + w * 4).
Definition PTD_OFFSET (x : Z) : Z := Z.shiftr x 22.
Definition PT_OFFSET (x : Z) : Z := Z.land (Z.shiftr x 12) 1023.

(** ** Page table entries: [pte_t] as a word *)

Definition pte_p (e : Z) : bool := Z.testbit e 0.
Definition pte_rw (e : Z) : bool := Z.testbit e 1.
Definition pte_us (e : Z) : bool := Z.testbit e 2.
Definition pte_pcd (e : Z) : bool := Z.testbit e 4.
Definition pte_page_base (e : Z) : Z := Z.shiftr e 12.

(** The bit fields [rw], [us] and [pcd] keep the lowest bit of what is assigned. *)
Definition pte_create (rw us pcd page_base : Z) : Z :=
  Z.lor 1 (Z.lor (Z.shiftl (rw mod 2) 1) (Z.lor (Z.shiftl (us mod 2) 2) (Z.lor (Z.shiftl (pcd mod 2) 4)
    (Z.shiftl (Z.shiftr page_base 12) 12)))).

(** [pte.p = 0] *)
Definition pte_clear_p (e : Z) : Z := Z.clearbit e 0.

(** ** State *)

(** A translation as the processor caches it: base of the physical page, writable, user. *)
Record xlat := mk_xlat { x_frame : Z; x_rw : bool; x_us : bool }.

Inductive lock := pt_lock (pid : Z) | sp_lock (pid : Z) | st_lock (pid : Z) | as_lock (pid : Z) | address_spaces_lock.
#[export] Instance lock_dec : EqDecision lock.
Proof. solve_decision. Defined.

Record stack_allocator_t := mk_sa {
  sa_id : Z;
  sa_valid : Z;
  lowest_page : Z;
  highest_page : Z;
  sa_pid : Z
}.

Record address_space_t := mk_as {
  as_id : Z;
  as_valid : Z;
  brk : Z;
  end_data : Z;
  as_list : anchor Z
}.

(** The machine and the static variables of the memory manager.  [pid] and
    [task_id] are what [pm_get_pid] and [pm_get_task_id] return; [signals] the
    calls of [do_kill]. *)
Record mm := mk_mm {
  pmem : physmem;
  phys : mem;
  tlb : Z -> option xlat;
  cr0 : Z;
  cr3 : Z;
  locks : list lock;
  virt_ramdisk_start : Z;
  virt_ramdisk_end : Z;
  pid : Z;
  task_id : Z;
  address_space : Z -> address_space_t;
  stack_allocator : Z -> stack_allocator_t;
  sa_links : links Z;
  signals : list (Z * Z)
}.

Definition set_pmem (x : physmem) (s : mm) : mm :=
  mk_mm x (phys s) (tlb s) (cr0 s) (cr3 s) (locks s) (virt_ramdisk_start s) (virt_ramdisk_end s) (pid s) (task_id s)
    (address_space s) (stack_allocator s) (sa_links s) (signals s).
Definition set_phys (x : mem) (s : mm) : mm :=
  mk_mm (pmem s) x (tlb s) (cr0 s) (cr3 s) (locks s) (virt_ramdisk_start s) (virt_ramdisk_end s) (pid s) (task_id s)
    (address_space s) (stack_allocator s) (sa_links s) (signals s).
Definition set_tlb (x : Z -> option xlat) (s : mm) : mm :=
  mk_mm (pmem s) (phys s) x (cr0 s) (cr3 s) (locks s) (virt_ramdisk_start s) (virt_ramdisk_end s) (pid s) (task_id s)
    (address_space s) (stack_allocator s) (sa_links s) (signals s).
Definition set_cr0 (x : Z) (s : mm) : mm :=
  mk_mm (pmem s) (phys s) (tlb s) x (cr3 s) (locks s) (virt_ramdisk_start s) (virt_ramdisk_end s) (pid s) (task_id s)
    (address_space s) (stack_allocator s) (sa_links s) (signals s).
Definition set_cr3 (x : Z) (s : mm) : mm :=
  mk_mm (pmem s) (phys s) (tlb s) (cr0 s) x (locks s) (virt_ramdisk_start s) (virt_ramdisk_end s) (pid s) (task_id s)
    (address_space s) (stack_allocator s) (sa_links s) (signals s).
Definition set_locks (x : list lock) (s : mm) : mm :=
  mk_mm (pmem s) (phys s) (tlb s) (cr0 s) (cr3 s) x (virt_ramdisk_start s) (virt_ramdisk_end s) (pid s) (task_id s)
    (address_space s) (stack_allocator s) (sa_links s) (signals s).
Definition set_virt_ramdisk (lo hi : Z) (s : mm) : mm :=
  mk_mm (pmem s) (phys s) (tlb s) (cr0 s) (cr3 s) (locks s) lo hi (pid s) (task_id s)
    (address_space s) (stack_allocator s) (sa_links s) (signals s).
Definition set_address_space (x : Z -> address_space_t) (s : mm) : mm :=
  mk_mm (pmem s) (phys s) (tlb s) (cr0 s) (cr3 s) (locks s) (virt_ramdisk_start s) (virt_ramdisk_end s) (pid s) (task_id s)
    x (stack_allocator s) (sa_links s) (signals s).
Definition set_stack_allocator (x : Z -> stack_allocator_t) (s : mm) : mm :=
  mk_mm (pmem s) (phys s) (tlb s) (cr0 s) (cr3 s) (locks s) (virt_ramdisk_start s) (virt_ramdisk_end s) (pid s) (task_id s)
    (address_space s) x (sa_links s) (signals s).
Definition set_sa_links (x : links Z) (s : mm) : mm :=
  mk_mm (pmem s) (phys s) (tlb s) (cr0 s) (cr3 s) (locks s) (virt_ramdisk_start s) (virt_ramdisk_end s) (pid s) (task_id s)
    (address_space s) (stack_allocator s) x (signals s).
Definition set_signals (x : list (Z * Z)) (s : mm) : mm :=
  mk_mm (pmem s) (phys s) (tlb s) (cr0 s) (cr3 s) (locks s) (virt_ramdisk_start s) (virt_ramdisk_end s) (pid s) (task_id s)
    (address_space s) (stack_allocator s) (sa_links s) x.

(** ** Effects *)

Definition mmM (A : Type) : Type := mm -> res (A * mm).
#[export] Instance mmM_ret : MRet mmM := fun A a s => Ok (a, s).
#[export] Instance mmM_bind : MBind mmM := fun A B f m s => '(a, s) ← m s; f a s.

Definition gets {A} (f : mm -> A) : mmM A := fun s => Ok (f s, s).
Definition modify (f : mm -> mm) : mmM unit := fun s => Ok (tt, f s).
Definition panic {A} : mmM A := fun _ => Panic.
Definition hang {A} : mmM A := fun _ => Hang.
Definition KASSERT (b : bool) : mmM unit := if b then mret tt else panic.

Definition lift_pmem {A} (f : physmem -> res (A * physmem)) : mmM A :=
  fun s => '(a, p) ← f (pmem s); Ok (a, set_pmem p s).

(** [spinlock_get] never returns if the lock is held. *)
Definition spinlock_get (l : lock) : mmM unit :=
  fun s => if decide (l ∈ locks s) then Hang else Ok (tt, set_locks (l :: locks s) s).
Definition spinlock_release (l : lock) : mmM unit := modify (fun s => set_locks (filter (fun k => k <> l) (locks s)) s).

(** ** The processor *)

(** The walk through the page tables at [dir]; the access rights of both levels are combined. *)
Definition pde (m : mem) (dir i : Z) : Z := load32 m (dir + 4 * i).
Definition pte (m : mem) (dir v : Z) : Z :=
  load32 m (pte_page_base (pde m dir (PTD_OFFSET v)) * MM_PAGE_SIZE + 4 * PT_OFFSET v).
Definition walk (m : mem) (dir v : Z) : option xlat :=
  let d := pde m dir (PTD_OFFSET v) in
  if pte_p d then
    let e := pte m dir v in
    if pte_p e then Some (mk_xlat (pte_page_base e * MM_PAGE_SIZE) (pte_rw d && pte_rw e) (pte_us d && pte_us e))
    else None
  else None.

(** Bit 31 of CR0 turns paging on, bit 16 makes the kernel respect read-only pages. *)
Definition pg_enabled (s : mm) : Z := Z.shiftr (cr0 s) 31.
Definition wp (s : mm) : bool := Z.testbit (cr0 s) 16.

Definition use_xlat (x : xlat) (w : bool) (v : Z) (s : mm) : res (Z * mm) :=
  if w && wp s && negb (x_rw x) then Fault else Ok (x_frame x + v mod MM_PAGE_SIZE, s).

(** The physical address of an access of the kernel. *)
Definition translate (w : bool) (v : Z) : mmM Z := fun s =>
  if pg_enabled s =? 0 then Ok (v, s)
  else match tlb s (MM_PAGE v) with
       | Some x => use_xlat x w v s
       | None => match walk (phys s) (cr3 s) v with
                 | None => Fault
                 | Some x => use_xlat x w v (set_tlb (<[MM_PAGE v := Some x]> (tlb s)) s)
                 end
       end.

Definition vload8 (v : Z) : mmM Z := a ← translate false v; gets (fun s => load8 (phys s) a).
Definition vstore8 (v x : Z) : mmM unit := a ← translate true v; modify (fun s => set_phys (store8 (phys s) a (u8 x)) s).
Definition vload32 (v : Z) : mmM Z := a ← translate false v; gets (fun s => load32 (phys s) a).
Definition vstore32 (v x : Z) : mmM unit := a ← translate true v; modify (fun s => set_phys (store32 (phys s) a x) s).

Definition invlpg (v : Z) : mmM unit := modify (fun s => set_tlb (<[MM_PAGE v := None]> (tlb s)) s).

(** [memset] and [memcpy] of [lib/std/string.c], on virtual addresses. *)
Fixpoint vmemset (n : nat) (ptr c : Z) : mmM unit :=
  match n with O => mret tt | S n => vstore8 ptr c;; vmemset n (u32 (ptr + 1)) c end.
Fixpoint vmemcpy (n : nat) (to from : Z) : mmM unit :=
  match n with O => mret tt | S n => x ← vload8 from; vstore8 to x;; vmemcpy n (u32 (to + 1)) (u32 (from + 1)) end.

(** Element [i] of an array of [pte_t]. *)
Definition load_pte (table i : Z) : mmM Z := vload32 (u32 (table + 4 * i)).
Definition store_pte (table i e : Z) : mmM unit := vstore32 (u32 (table + 4 * i)) e.

Definition get_phys_page : mmM Z := lift_pmem mm_get_phys_page.
Definition put_phys_page (b : Z) : mmM unit := lift_pmem (fun p => p ← mm_put_phys_page b p; Ok (tt, p)).

(** ** Page tables *)

Section Mm.
(** Address of the array of page table directories in the kernel's BSS section. *)
Context (proc_ptd : Z).

Definition mm_get_ptd_for_pid (pid : Z) : Z := proc_ptd + pid * MM_PAGE_SIZE.
Definition mm_get_ptd : mmM Z := gets (fun s => mm_get_ptd_for_pid (pid s)).

Definition mm_get_pt_address (ptd ptd_offset pg_enabled : Z) : mmM Z :=
  if pg_enabled =? 0 then
    e ← load_pte ptd ptd_offset;
    mret (u32 (pte_page_base e * MM_PAGE_SIZE))
  else mret (MM_VIRTUAL_PT_ENTRY ptd_offset 0).

Definition first_reserved_page : Z := MM_VIRTUAL_TOS + 1.

(** The scan of the reserved slots, from entry [page] of the table [pt]. *)
Fixpoint find_temp_slot (n : nat) (pt page : Z) : mmM Z :=
  match n with
  | O => mret 0
  | S n =>
      e ← load_pte pt page;
      if negb (pte_p e) then mret (u32 ((page - PT_OFFSET first_reserved_page) * MM_PAGE_SIZE + first_reserved_page))
      else find_temp_slot n pt (page + 1)
  end.

Definition mm_attach_page (phys_page : Z) : mmM Z :=
  ptd ← mm_get_ptd;
  KASSERT (MM_RESERVED_PAGES + MM_STACK_PAGES <=? MM_PT_ENTRIES);;
  me ← gets pid;
  spinlock_get (sp_lock me);;
  pt ← mm_get_pt_address ptd (PTD_OFFSET first_reserved_page) 1;
  used_page ← find_temp_slot (Z.to_nat MM_RESERVED_PAGES) pt (PT_OFFSET first_reserved_page);
  if used_page =? 0 then
    spinlock_release (sp_lock me);; mret 0
  else
    store_pte pt (PT_OFFSET used_page) (pte_create MM_READ_WRITE MM_SUPERVISOR_PAGE 0 phys_page);;
    invlpg used_page;;
    spinlock_release (sp_lock me);;
    KASSERT (MM_VIRTUAL_TOS <? used_page);;
    mret used_page.

Definition mm_detach_page (virt_page : Z) : mmM unit :=
  KASSERT (MM_VIRTUAL_TOS <? virt_page);;
  ptd ← mm_get_ptd;
  pt ← mm_get_pt_address ptd (PTD_OFFSET virt_page) 1;
  e ← load_pte pt (PT_OFFSET virt_page);
  store_pte pt (PT_OFFSET virt_page) (pte_clear_p e);;
  invlpg virt_page.

(** The page table that [mm_map_page] sets up when there is none: 0, or [ENOMEM]. *)
Definition add_page_table (pd virtual_base rw pcd pg : Z) : mmM Z :=
  page_table_base ← get_phys_page;
  if page_table_base =? 0 then mret ENOMEM
  else
    tmp_page ← (if negb (pg =? 0) then mm_attach_page page_table_base else mret page_table_base);
    if tmp_page =? 0 then put_phys_page page_table_base;; mret ENOMEM
    else
      vmemset (Z.to_nat (MM_PT_ENTRIES * 4)) tmp_page 0;;
      (if negb (pg =? 0) then mm_detach_page tmp_page else mret tt);;
      store_pte pd (PTD_OFFSET virtual_base) (pte_create rw MM_USER_PAGE pcd page_table_base);;
      (if pg =? 1 then invlpg (MM_VIRTUAL_PT_ENTRY (PTD_OFFSET virtual_base) 0) else mret tt);;
      mm_get_pt_address pd (PTD_OFFSET virtual_base) pg;;
      mret 0.

Definition mm_map_page (pd phys_base virtual_base rw us pcd pid : Z) : mmM Z :=
  pg ← gets pg_enabled;
  spinlock_get (pt_lock pid);;
  d ← load_pte pd (PTD_OFFSET virtual_base);
  rc ← (if negb (pte_p d) then add_page_table pd virtual_base rw pcd pg else mret 0);
  if negb (rc =? 0) then spinlock_release (pt_lock pid);; mret rc
  else
    pt ← mm_get_pt_address pd (PTD_OFFSET virtual_base) pg;
    store_pte pt (PT_OFFSET virtual_base) (pte_create rw us pcd phys_base);;
    (if pg =? 1 then invlpg virtual_base else mret tt);;
    spinlock_release (pt_lock pid);;
    mret 0.

Definition mm_unmap_page (pd virtual_base pid : Z) : mmM Z :=
  pg ← gets pg_enabled;
  lo ← gets virt_ramdisk_start;
  hi ← gets virt_ramdisk_end;
  if (lo <? hi) && (lo <=? virtual_base) && (virtual_base <=? hi) then panic
  else
    spinlock_get (pt_lock pid);;
    d ← load_pte pd (PTD_OFFSET virtual_base);
    (if pte_p d then
       pt ← mm_get_pt_address pd (PTD_OFFSET virtual_base) pg;
       e ← load_pte pt (PT_OFFSET virtual_base);
       store_pte pt (PT_OFFSET virtual_base) (pte_clear_p e);;
       (if pg =? 1 then invlpg virtual_base else mret tt);;
       e ← load_pte pt (PT_OFFSET virtual_base);
       put_phys_page (u32 (pte_page_base e * MM_PAGE_SIZE))
     else mret tt);;
    spinlock_release (pt_lock pid);;
    mret 0.

Definition mm_virt_to_phys (virtual : Z) : mmM Z :=
  ptd ← mm_get_ptd;
  d ← load_pte ptd (PTD_OFFSET virtual);
  if negb (pte_p d) then mret 0
  else
    pt ← mm_get_pt_address ptd (PTD_OFFSET virtual) 1;
    e ← load_pte pt (PT_OFFSET virtual);
    if negb (pte_p e) then mret 0
    else
      e ← load_pte pt (PT_OFFSET virtual);
      mret (u32 (pte_page_base e * MM_PAGE_SIZE + virtual mod MM_PAGE_SIZE)).

Definition mm_page_mapped (virtual_base : Z) : mmM bool :=
  ptd ← mm_get_ptd;
  d ← load_pte ptd (PTD_OFFSET virtual_base);
  if negb (pte_p d) then mret false
  else
    pg ← gets pg_enabled;
    pt ← mm_get_pt_address ptd (PTD_OFFSET virtual_base) pg;
    e ← load_pte pt (PT_OFFSET virtual_base);
    mret (pte_p e).

(** [access_allowed]; [sv] and [rw] are flags of type [int]. *)
Definition access_allowed (virtual_address ptd sv rw : Z) : mmM bool :=
  pt ← mm_get_pt_address ptd (PTD_OFFSET virtual_address) 1;
  if pt =? 0 then panic
  else
    e ← load_pte pt (PT_OFFSET virtual_address);
    mret (negb ((rw =? 1) && negb (pte_rw e)) && negb ((sv =? 0) && negb (pte_us e))).
End Mm.
