(* ===== verification/PagingProofs.v ===== *)
(** * Virtual memory: the invariant and the access to page tables

    [space_ok s D]: the page table directory at [D] and its page tables are well
    formed.  The lemmas [load_pd], [load_pt], [store_pd] and [store_pt] show that
    the addresses the kernel uses for directory and page tables reach the words
    the processor reads when it translates an address, with paging turned on (by
    the entry of the directory that points to itself) and off. *)

From S2P Require Import Prelude Errors Memory MmDefs Lists PhysMem PhysMemProofs Paging.
Import Lists.

(** ** Words *)

Lemma ptd_offset v : PTD_OFFSET v = v / 2 ^ 22.
Proof. unfold PTD_OFFSET; by rewrite Z.shiftr_div_pow2. Qed.

Lemma pt_offset v : PT_OFFSET v = (v / 4096) mod 1024.
Proof. unfold PT_OFFSET; rewrite Z.shiftr_div_pow2 by lia; by rewrite (Z.land_ones _ 10). Qed.

Lemma pt_offset_range v : 0 <= PT_OFFSET v < 1024.
Proof. rewrite pt_offset; apply Z.mod_pos_bound; lia. Qed.

Lemma ptd_offset_range v : 0 <= v < 2 ^ 32 -> 0 <= PTD_OFFSET v < 1024.
Proof. rewrite ptd_offset; intros; split; [apply Z.div_pos; lia|apply Z.div_lt_upper_bound; lia]. Qed.

Lemma page_base_div e : pte_page_base e = e / 4096.
Proof. unfold pte_page_base; by rewrite Z.shiftr_div_pow2. Qed.

Lemma page_range v : 0 <= v < 2 ^ 32 -> 0 <= MM_PAGE v < 2 ^ 20.
Proof. unfold MM_PAGE, MM_PAGE_SIZE; intros; Z.div_mod_to_equations; lia. Qed.

(** The offsets determine the page, and conversely. *)
Lemma offsets_page v v' :
  PTD_OFFSET v = PTD_OFFSET v' /\ PT_OFFSET v = PT_OFFSET v' <-> MM_PAGE v = MM_PAGE v'.
Proof. rewrite !ptd_offset, !pt_offset; unfold MM_PAGE, MM_PAGE_SIZE; Z.div_mod_to_equations; lia. Qed.

Lemma create_page_base rw us pcd b : pte_page_base (pte_create rw us pcd b) = b / 4096.
Proof.
  unfold pte_page_base, pte_create.
  assert (Hm : forall x, x mod 2 = 0 \/ x mod 2 = 1) by (intros x; pose proof (Z.mod_pos_bound x 2 eq_refl); lia).
  rewrite !Z.shiftr_lor, (Z.shiftr_shiftl_r (Z.shiftr b 12)) by lia; change (12 - 12) with 0; rewrite Z.shiftr_0_r, (Z.shiftr_div_pow2 b) by lia.
  by destruct (Hm rw) as [->| ->], (Hm us) as [->| ->], (Hm pcd) as [->| ->].
Qed.

Lemma create_bits rw us pcd b :
  pte_p (pte_create rw us pcd b) = true /\ pte_rw (pte_create rw us pcd b) = Z.odd rw /\
  pte_us (pte_create rw us pcd b) = Z.odd us.
Proof.
  unfold pte_p, pte_rw, pte_us, pte_create; rewrite !Z.lor_spec, !(Z.shiftl_spec_low (Z.shiftr _ _)) by lia.
  rewrite !Zmod_odd; destruct (Z.odd rw), (Z.odd us), (Z.odd pcd); done.
Qed.

Lemma create_range rw us pcd b : 0 <= b < 2 ^ 32 -> 0 <= pte_create rw us pcd b < 2 ^ 32.
Proof.
  intros Hb; pose proof (create_page_base rw us pcd b) as H; rewrite page_base_div in H.
  revert H; generalize (pte_create rw us pcd b); intros x H; Z.div_mod_to_equations; lia.
Qed.

Lemma clear_page_base e : pte_page_base (pte_clear_p e) = pte_page_base e.
Proof.
  unfold pte_page_base, pte_clear_p; apply Z.bits_inj'; intros k Hk; rewrite !Z.shiftr_spec by done.
  rewrite Z.clearbit_eqb by lia; rewrite (proj2 (Z.eqb_neq 0 (k + 12))) by lia; by rewrite andb_true_r.
Qed.

Lemma clear_not_present e : pte_p (pte_clear_p e) = false.
Proof. unfold pte_p, pte_clear_p; rewrite Z.clearbit_eqb by lia; by rewrite andb_false_r. Qed.

Lemma clear_range e : 0 <= e < 2 ^ 32 -> 0 <= pte_clear_p e < 2 ^ 32.
Proof.
  intros He; pose proof (clear_page_base e) as H; rewrite !page_base_div in H.
  revert H; generalize (pte_clear_p e); intros x H; Z.div_mod_to_equations; lia.
Qed.

(** ** The invariant *)

(** The page table at index [i] of the directory. *)
Definition table (m : mem) (D i : Z) : Z := pte_page_base (pde m D i) * MM_PAGE_SIZE.

(** All entries of the directory allow writing. *)
Definition dirs_rw (m : mem) (D : Z) : Prop :=
  forall i, 0 <= i < 1023 -> pte_p (pde m D i) = true -> pte_rw (pde m D i) = true.

Record paged (s : mm) (D : Z) : Prop := {
  pg_on : pg_enabled s = 1;
  pg_cr3 : cr3 s = D;
  pg_self : pte_p (pde (phys s) D 1023) = true /\ pte_rw (pde (phys s) D 1023) = true /\
    pte_us (pde (phys s) D 1023) = false /\ table (phys s) D 1023 = D;
  pg_ident : exists us, walk (phys s) D D = Some (mk_xlat D true us);
  pg_resv : pte_p (pde (phys s) D 1022) = true;
  pg_tlb : forall p x, 0 <= p < 2 ^ 20 -> tlb s p = Some x -> walk (phys s) D (p * MM_PAGE_SIZE) = Some x;
  pg_rw : dirs_rw (phys s) D
}.

Record tables_ok (m : mem) (pm : physmem) (D : Z) : Prop := {
  tb_bytes : forall a, 0 <= m a < 2 ^ 8;
  tb_dir : D mod MM_PAGE_SIZE = 0 /\ 0 < D < 2 ^ 27;
  tb_used : bit pm (MM_PAGE D) = 1;
  tb_self : pte_p (pde m D 1023) = true -> table m D 1023 = D;
  tb_table : forall i, 0 <= i < 1023 -> pte_p (pde m D i) = true ->
    0 < table m D i /\ table m D i <> D /\ bit pm (MM_PAGE (table m D i)) = 1;
  tb_inj : forall i j, 0 <= i < 1023 -> 0 <= j < 1023 -> pte_p (pde m D i) = true -> pte_p (pde m D j) = true ->
    table m D i = table m D j -> i = j
}.

Record space_ok (s : mm) (D : Z) : Prop := {
  sp_tables : tables_ok (phys s) (pmem s) D;
  sp_phys : phys_ok (pmem s);
  sp_tail : tail_used (pmem s);
  sp_mode : pg_enabled s = 0 \/ paged s D
}.

Lemma load32_range m a : (forall x, 0 <= m x < 2 ^ 8) -> 0 <= load32 m a < 2 ^ 32.
Proof. intros H; unfold load32; pose proof (H a); pose proof (H (a + 1)); pose proof (H (a + 2)); pose proof (H (a + 3)); lia. Qed.

Lemma store32_bytes m a v : (forall x, 0 <= m x < 2 ^ 8) -> forall x, 0 <= store32 m a v x < 2 ^ 8.
Proof. intros H x; unfold store32, store8; repeat (case_test; [apply u8_range|]); auto. Qed.

Lemma table_range m D i : (forall x, 0 <= m x < 2 ^ 8) -> 0 <= table m D i < 2 ^ 32 /\ table m D i mod 4096 = 0.
Proof.
  intros H; unfold table; rewrite page_base_div; pose proof (load32_range m (D + 4 * i) H).
  unfold pde, MM_PAGE_SIZE; Z.div_mod_to_equations; lia.
Qed.

(** The walk depends on the page of the address only. *)
Lemma walk_page m D v v' : MM_PAGE v = MM_PAGE v' -> walk m D v = walk m D v'.
Proof. intros [E1 E2]%offsets_page; unfold walk, pte; by rewrite E1, E2. Qed.

(** ** Translation *)

Lemma translate_ok s D w v x :
  paged s D -> 0 <= v < 2 ^ 32 -> walk (phys s) D v = Some x -> (w = true -> x_rw x = true) ->
  exists t, translate w v s = Ok (x_frame x + v mod MM_PAGE_SIZE, set_tlb t s) /\ paged (set_tlb t s) D.
Proof.
  intros Hp Hr Hw Hrw; unfold translate; rewrite (pg_on _ _ Hp); cbn [Z.eqb].
  assert (Huse : forall s', use_xlat x w v s' = Ok (x_frame x + v mod MM_PAGE_SIZE, s')).
  { intros s'; unfold use_xlat; destruct w; [rewrite Hrw by done; by rewrite andb_false_r|done]. }
  assert (Hv : walk (phys s) D (MM_PAGE v * MM_PAGE_SIZE) = Some x).
  { rewrite <- Hw; apply walk_page; by rewrite page_of_base. }
  destruct (tlb s (MM_PAGE v)) as [x'|] eqn:E.
  - apply (pg_tlb _ _ Hp) in E; [|by apply page_range]; assert (x' = x) as -> by congruence.
    exists (tlb s); rewrite Huse; destruct s; split; [done|by destruct Hp].
  - rewrite (pg_cr3 _ _ Hp), Hw, Huse; eexists; split; [done|].
    destruct Hp as [H1 H2 H3 H4 H5 H6 H7]; split; try done.
    intros p y Hpr; cbn; destruct (decide (p = MM_PAGE v)) as [->|Hne].
    + rewrite fn_lookup_insert; congruence.
    + rewrite fn_lookup_insert_ne by done; by apply H6.
Qed.

Lemma vload32_ok s D v x :
  paged s D -> 0 <= v < 2 ^ 32 -> walk (phys s) D v = Some x ->
  exists t, vload32 v s = Ok (load32 (phys s) (x_frame x + v mod MM_PAGE_SIZE), set_tlb t s) /\ paged (set_tlb t s) D.
Proof.
  intros Hp Hr Hw; destruct (translate_ok s D false v x Hp Hr Hw) as (t & E & Ht); [done|].
  exists t; split; [|done]; unfold vload32, mbind, mmM_bind; by rewrite E.
Qed.

Lemma vstore32_ok s D v x e :
  paged s D -> 0 <= v < 2 ^ 32 -> walk (phys s) D v = Some x -> x_rw x = true ->
  exists t, vstore32 v e s = Ok (tt, set_phys (store32 (phys s) (x_frame x + v mod MM_PAGE_SIZE) e) (set_tlb t s)) /\
    paged (set_tlb t s) D.
Proof.
  intros Hp Hr Hw Hx; destruct (translate_ok s D true v x Hp Hr Hw) as (t & E & Ht); [done|].
  exists t; split; [|done]; unfold vstore32, mbind, mmM_bind; by rewrite E.
Qed.

(** ** Access to directory and page tables *)

Lemma walk_dir s D i :
  paged s D -> D mod MM_PAGE_SIZE = 0 -> 0 <= i < 1024 -> exists us, walk (phys s) D (D + 4 * i) = Some (mk_xlat D true us).
Proof.
  intros Hp HD Hi; destruct (pg_ident _ _ Hp) as [us H]; exists us; rewrite <- H; apply walk_page.
  unfold MM_PAGE, MM_PAGE_SIZE in *; Z.div_mod_to_equations; lia.
Qed.

Lemma self_map_offsets i k :
  0 <= i < 1024 -> 0 <= k < 1024 ->
  MM_VIRTUAL_PT_ENTRY i 0 + 4 * k = 4290772992 + i * 4096 + 4 * k /\
  PTD_OFFSET (4290772992 + i * 4096 + 4 * k) = 1023 /\ PT_OFFSET (4290772992 + i * 4096 + 4 * k) = i.
Proof.
  intros Hi Hk; rewrite ptd_offset, pt_offset; unfold MM_VIRTUAL_PT_ENTRY, MM_PAGE_SIZE; rewrite u32_small by lia.
  Z.div_mod_to_equations; lia.
Qed.

(** Page table [i] is visible at [0xffc00000 + i * 4096]. *)
Lemma walk_table s D i k :
  paged s D -> tables_ok (phys s) (pmem s) D -> 0 <= i < 1024 -> pte_p (pde (phys s) D i) = true -> 0 <= k < 1024 ->
  exists us, walk (phys s) D (4290772992 + i * 4096 + 4 * k) = Some (mk_xlat (table (phys s) D i) true us).
Proof.
  intros Hp Ht Hi He Hk; destruct (self_map_offsets i k) as (_ & E1 & E2); [lia|lia|].
  destruct (pg_self _ _ Hp) as (Hs1 & Hs2 & _ & Hs3).
  assert (Hrw : pte_rw (pde (phys s) D i) = true).
  { destruct (decide (i = 1023)) as [->|]; [done|]; apply (pg_rw _ _ Hp i); [lia|done]. }
  unfold walk, pte; rewrite E1, E2, Hs1; fold (table (phys s) D 1023); rewrite Hs3; fold (pde (phys s) D i).
  rewrite He, Hs2, Hrw; eexists; reflexivity.
Qed.

Lemma set_tlb_eta s : set_tlb (tlb s) s = s.
Proof. by destruct s. Qed.

Lemma space_tlb s t D : space_ok s D -> pg_enabled s = 0 \/ paged (set_tlb t s) D -> space_ok (set_tlb t s) D.
Proof. intros [H1 H2 H3 _] H; by split. Qed.

Lemma dir_range D i : D mod MM_PAGE_SIZE = 0 /\ 0 < D < 2 ^ 27 -> 0 <= i < 1024 ->
  u32 (D + 4 * i) = D + 4 * i /\ (D + 4 * i) mod MM_PAGE_SIZE = 4 * i /\ 0 <= D + 4 * i < 2 ^ 32.
Proof.
  unfold MM_PAGE_SIZE; intros [HD Hr] Hi; assert (0 <= D + 4 * i < 2 ^ 32) by (Z.div_mod_to_equations; lia).
  rewrite u32_small by lia; split_and!; [done|Z.div_mod_to_equations; lia|lia|lia].
Qed.

Lemma load_pd s D i :
  space_ok s D -> 0 <= i < 1024 ->
  exists t, load_pte D i s = Ok (pde (phys s) D i, set_tlb t s) /\ space_ok (set_tlb t s) D.
Proof.
  intros Hs Hi; pose proof (tb_dir _ _ _ (sp_tables _ _ Hs)) as HD.
  destruct (dir_range D i HD Hi) as (Hu & Hm & Hr); unfold load_pte; rewrite Hu.
  destruct (sp_mode _ _ Hs) as [H0|Hp].
  - exists (tlb s); rewrite set_tlb_eta; split; [|done].
    unfold vload32, translate, mbind, mmM_bind; by rewrite H0.
  - destruct (walk_dir s D i Hp (proj1 HD) Hi) as [us Hw].
    destruct (vload32_ok s D _ _ Hp Hr Hw) as (t & E & Ht); exists t; cbn in E; rewrite Hm in E.
    split; [done|by apply space_tlb; auto].
Qed.

Lemma store_pd s D i e :
  space_ok s D -> 0 <= i < 1024 ->
  exists t, store_pte D i e s = Ok (tt, set_phys (store32 (phys s) (D + 4 * i) e) (set_tlb t s)) /\ space_ok (set_tlb t s) D.
Proof.
  intros Hs Hi; pose proof (tb_dir _ _ _ (sp_tables _ _ Hs)) as HD.
  destruct (dir_range D i HD Hi) as (Hu & Hm & Hr); unfold store_pte; rewrite Hu.
  destruct (sp_mode _ _ Hs) as [H0|Hp].
  - exists (tlb s); rewrite set_tlb_eta; split; [|done].
    unfold vstore32, translate, mbind, mmM_bind; by rewrite H0.
  - destruct (walk_dir s D i Hp (proj1 HD) Hi) as [us Hw].
    destruct (vstore32_ok s D _ _ e Hp Hr Hw eq_refl) as (t & E & Ht); exists t; cbn in E; rewrite Hm in E.
    split; [done|by apply space_tlb; auto].
Qed.

(** The address under which the kernel reaches page table [i]. *)
Definition pt_addr (s : mm) (D i : Z) : Z :=
  if pg_enabled s =? 0 then table (phys s) D i else MM_VIRTUAL_PT_ENTRY i 0.

Lemma pt_address s D i :
  space_ok s D -> 0 <= i < 1024 ->
  exists t, mm_get_pt_address D i (pg_enabled s) s = Ok (pt_addr s D i, set_tlb t s) /\ space_ok (set_tlb t s) D.
Proof.
  intros Hs Hi; unfold mm_get_pt_address, pt_addr; destruct (pg_enabled s =? 0).
  - destruct (load_pd s D i Hs Hi) as (t & E & Ht); exists t; split; [|done].
    unfold mbind, mmM_bind; rewrite E; cbn; unfold mret, mmM_ret; fold (table (phys s) D i).
    pose proof (table_range (phys s) D i (tb_bytes _ _ _ (sp_tables _ _ Hs))) as [? _].
    by rewrite u32_small.
  - exists (tlb s); by rewrite set_tlb_eta.
Qed.

(** In paging mode the code passes the constant 1. *)
Lemma pt_address_paged s D i : paged s D -> mm_get_pt_address D i 1 s = Ok (pt_addr s D i, s).
Proof. intros Hp; unfold mm_get_pt_address, pt_addr; by rewrite (pg_on _ _ Hp). Qed.

Lemma table_addr s D i k :
  space_ok s D -> 0 <= i < 1024 -> pte_p (pde (phys s) D i) = true -> 0 <= k < 1024 ->
  u32 (table (phys s) D i + 4 * k) = table (phys s) D i + 4 * k /\
  u32 (MM_VIRTUAL_PT_ENTRY i 0 + 4 * k) = 4290772992 + i * 4096 + 4 * k /\
  (4290772992 + i * 4096 + 4 * k) mod MM_PAGE_SIZE = 4 * k.
Proof.
  intros Hs Hi He Hk; pose proof (table_range (phys s) D i (tb_bytes _ _ _ (sp_tables _ _ Hs))) as [Hr Hm].
  destruct (self_map_offsets i k) as (-> & _); [lia|lia|]; unfold MM_PAGE_SIZE.
  split_and!; [|by rewrite u32_small by lia|]; [|Z.div_mod_to_equations; lia].
  rewrite u32_small; [done|]; revert Hr Hm; generalize (table (phys s) D i); intros; Z.div_mod_to_equations; lia.
Qed.

Lemma load_pt s D i k :
  space_ok s D -> 0 <= i < 1024 -> pte_p (pde (phys s) D i) = true -> 0 <= k < 1024 ->
  exists t, load_pte (pt_addr s D i) k s = Ok (load32 (phys s) (table (phys s) D i + 4 * k), set_tlb t s) /\
    space_ok (set_tlb t s) D.
Proof.
  intros Hs Hi He Hk; destruct (table_addr s D i k Hs Hi He Hk) as (E1 & E2 & E3); unfold load_pte, pt_addr.
  destruct (sp_mode _ _ Hs) as [H0|Hp].
  - rewrite H0; cbn [Z.eqb]; rewrite E1; exists (tlb s); rewrite set_tlb_eta; split; [|done].
    unfold vload32, translate, mbind, mmM_bind; by rewrite H0.
  - rewrite (pg_on _ _ Hp); cbn [Z.eqb]; rewrite E2.
    destruct (walk_table s D i k Hp (sp_tables _ _ Hs) Hi He Hk) as [us Hw].
    destruct (vload32_ok s D (4290772992 + i * 4096 + 4 * k) _ Hp ltac:(lia) Hw) as (t & E & Ht); exists t; cbn in E; rewrite E3 in E.
    split; [done|by apply space_tlb; auto].
Qed.

Lemma store_pt s D i k e :
  space_ok s D -> 0 <= i < 1024 -> pte_p (pde (phys s) D i) = true -> 0 <= k < 1024 ->
  exists t, store_pte (pt_addr s D i) k e s =
      Ok (tt, set_phys (store32 (phys s) (table (phys s) D i + 4 * k) e) (set_tlb t s)) /\ space_ok (set_tlb t s) D.
Proof.
  intros Hs Hi He Hk; destruct (table_addr s D i k Hs Hi He Hk) as (E1 & E2 & E3); unfold store_pte, pt_addr.
  destruct (sp_mode _ _ Hs) as [H0|Hp].
  - rewrite H0; cbn [Z.eqb]; rewrite E1; exists (tlb s); rewrite set_tlb_eta; split; [|done].
    unfold vstore32, translate, mbind, mmM_bind; by rewrite H0.
  - rewrite (pg_on _ _ Hp); cbn [Z.eqb]; rewrite E2.
    destruct (walk_table s D i k Hp (sp_tables _ _ Hs) Hi He Hk) as [us Hw].
    destruct (vstore32_ok s D (4290772992 + i * 4096 + 4 * k) _ e Hp ltac:(lia) Hw eq_refl) as (t & E & Ht); exists t; cbn in E; rewrite E3 in E.
    split; [done|by apply space_tlb; auto].
Qed.

(** ** What a store to a page table changes *)

Lemma load_other_page m a b j k e :
  a mod 4096 = 0 -> b mod 4096 = 0 -> a <> b -> 0 <= j < 1024 -> 0 <= k < 1024 ->
  load32 (store32 m (a + 4 * j) e) (b + 4 * k) = load32 m (b + 4 * k).
Proof. intros; apply load32_store32_other; Z.div_mod_to_equations; lia. Qed.

Lemma load_other_word m a j k e : j <> k -> load32 (store32 m (a + 4 * j) e) (a + 4 * k) = load32 m (a + 4 * k).
Proof. intros; apply load32_store32_other; lia. Qed.

Lemma tables_ext m m' pm D :
  tables_ok m pm D -> (forall a, 0 <= m' a < 2 ^ 8) -> (forall j, 0 <= j < 1024 -> pde m' D j = pde m D j) -> tables_ok m' pm D.
Proof.
  intros [H1 H2 H3 H4 H5 H6] Hb Hd.
  assert (Ht : forall j, 0 <= j < 1024 -> table m' D j = table m D j) by (intros; unfold table; by rewrite Hd).
  split; try done.
  - rewrite Hd, Ht by lia; done.
  - intros i Hi; rewrite Hd, Ht by lia; auto.
  - intros i j Hi Hj; rewrite !Hd, !Ht by lia; auto.
Qed.

Section Store_pt.
Context (m : mem) (pm : physmem) (D i k e : Z).
Context (Hok : tables_ok m pm D) (Hi : 0 <= i < 1023) (Hp : pte_p (pde m D i) = true) (Hk : 0 <= k < 1024).
Context (He : 0 <= e < 2 ^ 32).
Abbreviation m' := (store32 m (table m D i + 4 * k) e).

Lemma pt_pde j : 0 <= j < 1024 -> pde m' D j = pde m D j.
Proof using Hok Hi Hp Hk.
  intros Hj; apply load_other_page; [by apply table_range, (tb_bytes _ _ _ Hok)|apply (tb_dir _ _ _ Hok)| |done|done].
  by apply (tb_table _ _ _ Hok).
Qed.

Lemma pt_tables : tables_ok m' pm D.
Proof using Hok Hi Hp Hk. apply (tables_ext m); [done|apply store32_bytes, (tb_bytes _ _ _ Hok)|apply pt_pde]. Qed.

Lemma pt_entry j k' :
  0 <= j < 1024 -> pte_p (pde m D j) = true -> 0 <= k' < 1024 ->
  load32 m' (table m' D j + 4 * k') = if (j =? i) && (k' =? k) then e else load32 m (table m D j + 4 * k').
Proof using Hok Hi Hp Hk He.
  intros Hj Hpj Hk'; assert (table m' D j = table m D j) as -> by (unfold table; by rewrite pt_pde).
  pose proof (tb_bytes _ _ _ Hok) as Hb; destruct (Z.eqb_spec j i) as [->|Hji]; cbn.
  - destruct (Z.eqb_spec k' k) as [->|]; [by apply load32_store32_same|by apply load_other_word].
  - apply load_other_page; try done; try by apply table_range.
    destruct (decide (j = 1023)) as [->|].
    + rewrite (tb_self _ _ _ Hok) by done; by apply (tb_table _ _ _ Hok).
    + intros E; apply Hji; symmetry; apply (tb_inj _ _ _ Hok); auto with lia.
Qed.

(** The translation of the page the entry belongs to, and of the others. *)
Lemma pt_walk v :
  0 <= v < 2 ^ 32 ->
  walk m' D v =
    if (PTD_OFFSET v =? i) && (PT_OFFSET v =? k) then
      if pte_p e then Some (mk_xlat (pte_page_base e * MM_PAGE_SIZE) (pte_rw (pde m D i) && pte_rw e) (pte_us (pde m D i) && pte_us e)) else None
    else walk m D v.
Proof using Hok Hi Hp Hk He.
  intros Hv; pose proof (ptd_offset_range v Hv) as Hd; pose proof (pt_offset_range v) as Ht.
  unfold walk, pte; fold (table m' D (PTD_OFFSET v)) (table m D (PTD_OFFSET v)); rewrite pt_pde by done.
  destruct (pte_p (pde m D (PTD_OFFSET v))) eqn:Ep.
  - rewrite pt_entry by done; destruct (Z.eqb_spec (PTD_OFFSET v) i) as [E|]; [|done].
    destruct (PT_OFFSET v =? k); [|done]; by rewrite E.
  - destruct (Z.eqb_spec (PTD_OFFSET v) i) as [E|]; [rewrite E in Ep; congruence|done].
Qed.
End Store_pt.

(** ** Effects *)

Lemma mm_bind_ok {A B} (f : A -> mmM B) (c : mmM A) s a s' : c s = Ok (a, s') -> (x ← c; f x) s = f a s'.
Proof. intros E; unfold mbind, mmM_bind; by rewrite E. Qed.

Definition at_page (v : Z) (D : Z) (s : mm) : Prop := pg_enabled s = 0 \/ MM_PAGE v <> MM_PAGE D.

(** A store to the page table entry of [v] that is followed by [invlpg] if paging is on. *)
Lemma write_pte s D v e :
  space_ok s D -> 0 <= v < 2 ^ 32 -> PTD_OFFSET v < 1023 -> pte_p (pde (phys s) D (PTD_OFFSET v)) = true ->
  0 <= e < 2 ^ 32 -> at_page v D s ->
  exists t, let s1 := set_phys (store32 (phys s) (table (phys s) D (PTD_OFFSET v) + 4 * PT_OFFSET v) e) (set_tlb t s) in
    store_pte (pt_addr s D (PTD_OFFSET v)) (PT_OFFSET v) e s = Ok (tt, s1) /\
    (pg_enabled s = 0 -> space_ok s1 D) /\ space_ok (set_tlb (<[MM_PAGE v := None]> t) s1) D.
Proof.
  intros Hs Hv Hd Hp He Hpage; pose proof (ptd_offset_range v Hv); pose proof (pt_offset_range v) as Hk.
  destruct (store_pt s D (PTD_OFFSET v) (PT_OFFSET v) e Hs) as (t & E & Ht); auto with lia.
  exists t; cbv zeta; split; [exact E|].
  assert (Htab := pt_tables (phys s) (pmem s) D (PTD_OFFSET v) (PT_OFFSET v) e (sp_tables _ _ Hs) ltac:(lia) Hp Hk).
  split; [intros H0|]; (split; [exact Htab|by apply Hs|by apply Hs|]); [by left|].
  destruct (sp_mode _ _ Ht) as [H0|Hpg]; [by left|right]; destruct Hpg as [P1 P2 P3 [us P4] P5 P6 P7].
  destruct Hpage as [H0|Hpage]; [change (pg_enabled s = 1) in P1; congruence|].
  assert (Hother : forall w, 0 <= w < 2 ^ 32 -> MM_PAGE w <> MM_PAGE v ->
    walk (store32 (phys s) (table (phys s) D (PTD_OFFSET v) + 4 * PT_OFFSET v) e) D w = walk (phys s) D w).
  { intros w Hw Hne; rewrite (pt_walk _ (pmem s)) by (apply Hs || done || lia).
    destruct (Z.eqb_spec (PTD_OFFSET w) (PTD_OFFSET v)); [|done].
    destruct (Z.eqb_spec (PT_OFFSET w) (PT_OFFSET v)); [|done]; destruct Hne; by apply offsets_page. }
  assert (Hpde := fun j => pt_pde (phys s) (pmem s) D (PTD_OFFSET v) (PT_OFFSET v) e (sp_tables _ _ Hs) ltac:(lia) Hp Hk j).
  pose proof (tb_dir _ _ _ (sp_tables _ _ Hs)) as [_ HD].
  split; cbn; try done.
  - unfold table; rewrite !Hpde by lia; apply P3.
  - exists us; rewrite Hother by (lia || done); exact P4.
  - rewrite Hpde by lia; apply P5.
  - intros p x Hpr; destruct (decide (p = MM_PAGE v)) as [->|Hne]; [by rewrite fn_lookup_insert|].
    rewrite fn_lookup_insert_ne by done; intros Ex; rewrite Hother; [by apply P6|unfold MM_PAGE_SIZE; lia|].
    by rewrite page_of_base.
  - intros i Hi; rewrite Hpde by lia; by apply P7.
Qed.

(** ** States that differ in the page tables only *)

Definition upd (p : physmem) (m : mem) (t : Z -> option xlat) (s : mm) : mm := set_pmem p (set_phys m (set_tlb t s)).

Lemma upd_eta s : upd (pmem s) (phys s) (tlb s) s = s.
Proof. by destruct s. Qed.

Lemma space_locks s l D : space_ok s D <-> space_ok (set_locks l s) D.
Proof.
  split; (intros [H1 H2 H3 H4]; split; [exact H1|exact H2|exact H3|]; destruct H4 as [H4|[P1 P2 P3 P4 P5 P6 P7]];
    [left; exact H4|right; split; [exact P1|exact P2|exact P3|exact P4|exact P5|exact P6|exact P7]]).
Qed.

Lemma release_head (l : lock) (ls : list lock) : l ∉ ls -> filter (fun k => k <> l) (l :: ls) = ls.
Proof.
  intros H; rewrite list.filter_cons_False by (intros Hn; by apply Hn).
  induction ls as [|k ls IH]; [done|]; apply not_elem_of_cons in H as [Hne H].
  rewrite list.filter_cons_True by congruence; by rewrite IH.
Qed.

Lemma lock_ok l s : l ∉ locks s -> spinlock_get l s = Ok (tt, set_locks (l :: locks s) s).
Proof. intros; unfold spinlock_get; by rewrite decide_False. Qed.

Lemma unlock_ok l ls s : l ∉ ls -> locks s = l :: ls -> spinlock_release l s = Ok (tt, set_locks ls s).
Proof. intros H E; unfold spinlock_release, modify; by rewrite E, release_head. Qed.

(** *** Stores to a page that holds no page table *)

Definition data_frame (m : mem) (D b : Z) : Prop :=
  b mod 4096 = 0 /\ b <> D /\ forall i, 0 <= i < 1023 -> pte_p (pde m D i) = true -> table m D i <> b.

Section Data.
Context (m m' : mem) (D b : Z) (pm : physmem).
Context (Hok : tables_ok m pm D) (Hb : data_frame m D b) (Hm : forall a, MM_PAGE a <> MM_PAGE b -> m' a = m a).
Context (Hbytes : forall a, 0 <= m' a < 2 ^ 8).

Lemma data_word a k : a mod 4096 = 0 -> a <> b -> 0 <= k < 1024 -> load32 m' (a + 4 * k) = load32 m (a + 4 * k).
Proof using Hb Hm.
  destruct Hb as (H1 & _); intros Ha Hne Hk; apply load32_ext; intros x Hx; apply Hm; unfold MM_PAGE, MM_PAGE_SIZE.
  Z.div_mod_to_equations; lia.
Qed.

Lemma data_pde j : 0 <= j < 1024 -> pde m' D j = pde m D j.
Proof using Hok Hb Hm.
  intros; apply data_word; [apply (tb_dir _ _ _ Hok)| |done]; destruct Hb as (_ & Hne & _); congruence.
Qed.

Lemma data_tables : tables_ok m' pm D.
Proof using Hok Hb Hm Hbytes. apply (tables_ext m); [done|done|apply data_pde]. Qed.

Lemma data_walk v : 0 <= v < 2 ^ 32 -> walk m' D v = walk m D v.
Proof using Hok Hb Hm.
  intros Hv; pose proof (ptd_offset_range v Hv) as Hd; pose proof (pt_offset_range v) as Ht.
  unfold walk, pte; rewrite data_pde by done; destruct (pte_p (pde m D (PTD_OFFSET v))) eqn:Ep; [|done].
  rewrite data_word; [done| | |done].
  - apply (table_range m D (PTD_OFFSET v)), (tb_bytes _ _ _ Hok).
  - destruct Hb as (_ & H1 & H2); destruct (decide (PTD_OFFSET v = 1023)) as [E|].
    + rewrite E in *; fold (table m D 1023); rewrite (tb_self _ _ _ Hok) by done; congruence.
    + apply H2; [lia|done].
Qed.
End Data.

Lemma space_data s D b m' :
  space_ok s D -> data_frame (phys s) D b -> (forall a, MM_PAGE a <> MM_PAGE b -> m' a = phys s a) ->
  (forall a, 0 <= m' a < 2 ^ 8) -> space_ok (set_phys m' s) D.
Proof.
  intros Hs Hb Hm Hby; pose proof (sp_tables _ _ Hs) as Hok; split; [by eapply data_tables|by apply Hs|by apply Hs|].
  pose proof (tb_dir _ _ _ Hok) as [_ HD].
  destruct (sp_mode _ _ Hs) as [H0|[P1 P2 P3 [us P4] P5 P6 P7]]; [by left|right].
  assert (Hd := fun j => data_pde (phys s) m' D b (pmem s) Hok Hb Hm j).
  assert (Hw := fun v => data_walk (phys s) m' D b (pmem s) Hok Hb Hm v).
  split; cbn; try done.
  - unfold table; rewrite !Hd by lia; done.
  - exists us; by rewrite Hw by lia.
  - by rewrite Hd by lia.
  - intros p x Hp Ex; rewrite Hw; [by apply P6|unfold MM_PAGE_SIZE; lia].
  - intros i Hi; rewrite Hd by lia; by apply P7.
Qed.

(** *** [memset] of a page *)

Lemma vmemset_ok n s D v b off :
  space_ok s D -> data_frame (phys s) D b -> 0 <= b < 2 ^ 32 -> 0 <= v < 2 ^ 32 -> v mod 4096 = 0 ->
  (pg_enabled s = 0 -> v = b) -> (pg_enabled s = 1 -> exists us, walk (phys s) D v = Some (mk_xlat b true us)) ->
  0 <= off -> off + Z.of_nat n <= 4096 ->
  exists t m', vmemset n (u32 (v + off)) 0 s = Ok (tt, set_phys m' (set_tlb t s)) /\ space_ok (set_phys m' (set_tlb t s)) D /\
    forall x, m' x = if (b + off <=? x) && (x <? b + off + Z.of_nat n) then 0 else phys s x.
Proof.
  revert s off; induction n as [|n IH]; intros s off Hs Hb Hbr Hv Hva H0 H1 Ho Hn.
  - exists (tlb s), (phys s); rewrite set_tlb_eta; destruct s; split; [done|]; split; [done|].
    intros x; case_test; case_test; cbn; done || lia.
  - assert (Hb0 := proj1 Hb).
    assert (Ha : exists t, translate true (u32 (v + off)) s = Ok (b + off, set_tlb t s) /\ space_ok (set_tlb t s) D).
    { assert (Hu : u32 (v + off) = v + off) by (apply u32_small; Z.div_mod_to_equations; lia); rewrite Hu.
      destruct (sp_mode _ _ Hs) as [E0|Hpg].
      - exists (tlb s); rewrite set_tlb_eta; unfold translate; rewrite E0, (H0 E0); done.
      - destruct (H1 (pg_on _ _ Hpg)) as [us Hw].
        destruct (translate_ok s D true (v + off) (mk_xlat b true us)) as (t & E & Ht); try done.
        + Z.div_mod_to_equations; lia.
        + rewrite <- Hw; apply walk_page; unfold MM_PAGE, MM_PAGE_SIZE; Z.div_mod_to_equations; lia.
        + exists t; rewrite E; split; [|by apply space_tlb; auto]; cbn.
          do 3 f_equal; unfold MM_PAGE_SIZE; Z.div_mod_to_equations; lia. }
    destruct Ha as (t & Et & Hs1); cbn [vmemset].
    assert (Hst : vstore8 (u32 (v + off)) 0 s = Ok (tt, set_phys (store8 (phys s) (b + off) 0) (set_tlb t s))).
    { unfold vstore8, mbind, mmM_bind; by rewrite Et. }
    rewrite (mm_bind_ok _ _ _ _ _ Hst).
    assert (Hsame : forall a, MM_PAGE a <> MM_PAGE b -> store8 (phys s) (b + off) 0 a = phys s a).
    { intros a Ha; apply store8_other; intros ->; apply Ha; unfold MM_PAGE, MM_PAGE_SIZE; Z.div_mod_to_equations; lia. }
    assert (Hs2 : space_ok (set_phys (store8 (phys s) (b + off) 0) (set_tlb t s)) D).
    { apply (space_data _ D b); [done|done|done|]; intros a; unfold store8; case_test; [lia|].
      apply (tb_bytes _ _ _ (sp_tables _ _ Hs)). }
    destruct (IH (set_phys (store8 (phys s) (b + off) 0) (set_tlb t s)) (off + 1)) as (t' & m' & E & Hs' & Hm'); try done; try lia.
    + destruct Hb as (B1 & B2 & B3); split_and!; [done|done|]; intros i Hi; cbn; unfold table.
      rewrite (data_pde (phys s) _ D b (pmem s)) by (apply Hs || done || lia); by apply B3.
    + intros Hpg1; destruct (H1 Hpg1) as [us Hw]; exists us; cbn.
      by rewrite (data_walk (phys s) _ D b (pmem s)) by (apply Hs || done || lia).
    + exists t', m'; split; [|split; [exact Hs'|]].
      * replace (u32 (u32 (v + off) + 1)) with (u32 (v + (off + 1))); [exact E|].
        unfold u32; rewrite Zplus_mod_idemp_l; f_equal; lia.
      * intros x; rewrite Hm'; cbn; unfold store8; repeat (case_test; cbn); done || lia.
Qed.
