(* ===== verification/PagingMap.v ===== *)
(** * Virtual memory: [mm_attach_page], [mm_map_page], [mm_unmap_page] and the look-up functions *)

From S2P Require Import Prelude Errors Memory MmDefs Lists PhysMem PhysMemProofs Paging PagingProofs.
Import Lists.

(** ** Temporary mappings *)

(** Slot [k] of the reserved area: the entries 1016 to 1023 of page table 1022. *)
Definition slot_page (k : Z) : Z := first_reserved_page + (k - 1016) * MM_PAGE_SIZE.
Definition slot (m : mem) (D k : Z) : Z := load32 m (table m D 1022 + 4 * k).

Lemma slot_offsets k :
  1016 <= k < 1024 -> PTD_OFFSET (slot_page k) = 1022 /\ PT_OFFSET (slot_page k) = k /\ 2 ^ 31 < slot_page k < 2 ^ 32 /\
    slot_page k mod 4096 = 0 /\ MM_VIRTUAL_TOS < slot_page k.
Proof.
  intros Hk; rewrite ptd_offset, pt_offset; unfold slot_page.
  change first_reserved_page with 4290740224; change MM_VIRTUAL_TOS with 4290740223; unfold MM_PAGE_SIZE.
  Z.div_mod_to_equations; lia.
Qed.

Lemma reserved_offsets : PTD_OFFSET first_reserved_page = 1022 /\ PT_OFFSET first_reserved_page = 1016.
Proof. done. Qed.

Lemma find_temp_slot_ok n s D k :
  space_ok s D -> pte_p (pde (phys s) D 1022) = true -> 1016 <= k -> k + Z.of_nat n <= 1024 ->
  exists t r, find_temp_slot n (pt_addr s D 1022) k s = Ok (r, set_tlb t s) /\ space_ok (set_tlb t s) D /\
    (r = 0 /\ (forall j, k <= j < k + Z.of_nat n -> pte_p (slot (phys s) D j) = true) \/
     exists j, k <= j < k + Z.of_nat n /\ r = slot_page j /\ pte_p (slot (phys s) D j) = false).
Proof.
  intros Hs Hp; revert s k Hs Hp; induction n as [|n IH]; intros s k Hs Hp Hk Hn.
  - exists (tlb s), 0; rewrite set_tlb_eta; split; [done|]; split; [done|]; left; split; [done|lia].
  - cbn [find_temp_slot]; destruct (load_pt s D 1022 k Hs) as (t & E & Ht); [lia|done|lia|].
    rewrite (mm_bind_ok _ _ _ _ _ E); fold (slot (phys s) D k).
    destruct (pte_p (slot (phys s) D k)) eqn:Ep; cbn [negb].
    + destruct (IH (set_tlb t s) (k + 1)) as (t' & r & E' & Ht' & Hr); [done|done|lia|lia|].
      exists t', r; split; [exact E'|]; split; [exact Ht'|]; destruct Hr as [[-> Hall]|(j & Hj & -> & Hf)].
      * left; split; [done|]; intros j Hj; destruct (decide (j = k)) as [->|]; [done|apply Hall; lia].
      * right; exists j; split_and!; [lia|lia|done|done].
    + exists t, (slot_page k); split; [|split; [done|right; exists k; split_and!; done || lia]].
      destruct (slot_offsets k) as (_ & _ & Hr & _); [lia|].
      unfold mret, mmM_ret; rewrite (proj2 reserved_offsets); f_equal; f_equal.
      rewrite u32_small; [unfold slot_page; lia|]; unfold slot_page in Hr; lia.
Qed.

Lemma paged_mode s D : space_ok s D -> pg_enabled s = 1 -> paged s D.
Proof. intros Hs H1; destruct (sp_mode _ _ Hs) as [H0|]; [rewrite H0 in H1; lia|done]. Qed.

Lemma slot_not_dir k D pm m : 1016 <= k < 1024 -> tables_ok m pm D -> MM_PAGE (slot_page k) <> MM_PAGE D.
Proof.
  intros Hk Hok; destruct (slot_offsets k Hk) as (_ & _ & O3 & _); pose proof (tb_dir _ _ _ Hok) as [_ HD].
  unfold MM_PAGE, MM_PAGE_SIZE; intros E; assert (D / 4096 * 4096 <= D) by (rewrite Z.mul_comm; apply Z.mul_div_le; lia).
  pose proof (Z.mul_succ_div_gt (slot_page k) 4096 eq_refl); lia.
Qed.

Section Temp.
Context (proc_ptd : Z).

Lemma attach_ok s D b :
  space_ok s D -> pg_enabled s = 1 -> sp_lock (pid s) ∉ locks s -> 0 <= b < 2 ^ 32 ->
  exists r t m', mm_attach_page proc_ptd b s = Ok (r, set_phys m' (set_tlb t s)) /\ space_ok (set_phys m' (set_tlb t s)) D /\
    (r = 0 /\ m' = phys s /\ (forall k, 1016 <= k < 1024 -> pte_p (slot (phys s) D k) = true) \/
     exists k, 1016 <= k < 1024 /\ r = slot_page k /\ pte_p (slot (phys s) D k) = false /\
       m' = store32 (phys s) (table (phys s) D 1022 + 4 * k) (pte_create MM_READ_WRITE MM_SUPERVISOR_PAGE 0 b)).
Proof.
  intros Hs H1 Hl Hb; pose proof (paged_mode s D Hs H1) as Hpg; pose proof (pg_resv _ _ Hpg) as Hres.
  unfold mm_attach_page.
  erewrite (mm_bind_ok _ _ s) by reflexivity; erewrite (mm_bind_ok _ _ s) by reflexivity.
  erewrite (mm_bind_ok _ _ s) by reflexivity; erewrite mm_bind_ok by (by apply lock_ok).
  set (ls := sp_lock (pid s) :: locks s); set (s1 := set_locks ls s).
  assert (Hs1 : space_ok s1 D) by by apply space_locks.
  erewrite (mm_bind_ok _ _ s1) by reflexivity.
  replace (MM_VIRTUAL_PT_ENTRY (PTD_OFFSET first_reserved_page) 0) with (pt_addr s1 D 1022)
    by (unfold pt_addr; change (pg_enabled s1) with (pg_enabled s); by rewrite H1).
  rewrite (proj2 reserved_offsets).
  destruct (find_temp_slot_ok (Z.to_nat MM_RESERVED_PAGES) s1 D 1016 Hs1 Hres) as (t & r & E & Ht & Hr); [lia|done|].
  rewrite (mm_bind_ok _ _ _ _ _ E); destruct Hr as [[-> Hall]|(k & Hk & -> & Hf)].
  - cbn [Z.eqb]; erewrite mm_bind_ok by (by apply (unlock_ok _ (locks s))).
    exists 0, t, (phys s); split; [by destruct s|]; split; [|by left].
    apply (space_locks _ ls); by destruct s.
  - change (1016 <= k < 1024) in Hk; destruct (slot_offsets k Hk) as (O1 & O2 & O3 & O4 & O5); tests.
    rewrite O2; destruct (write_pte (set_tlb t s1) D (slot_page k) (pte_create MM_READ_WRITE MM_SUPERVISOR_PAGE 0 b))
      as (t' & E' & _ & Hs'); rewrite ?O1; try done; try lia; [by apply create_range| |].
    { right; by apply (slot_not_dir _ _ (pmem s) (phys s)); [|apply Hs]. }
    rewrite O1, O2 in E', Hs'; rewrite (mm_bind_ok _ _ _ _ _ E'); clear E'.
    erewrite mm_bind_ok by reflexivity; erewrite mm_bind_ok by (by apply (unlock_ok _ (locks s))).
    erewrite mm_bind_ok by reflexivity.
    eexists _, (<[MM_PAGE (slot_page k) := None]> t'), _; split; [by destruct s|]; split.
    + apply (space_locks _ ls); by destruct s.
    + right; exists k; split_and!; try done; lia.
Qed.
Lemma detach_ok s D k :
  space_ok s D -> pg_enabled s = 1 -> 1016 <= k < 1024 ->
  exists t, let m' := store32 (phys s) (table (phys s) D 1022 + 4 * k) (pte_clear_p (slot (phys s) D k)) in
    mm_detach_page proc_ptd (slot_page k) s = Ok (tt, set_phys m' (set_tlb t s)) /\ space_ok (set_phys m' (set_tlb t s)) D.
Proof.
  intros Hs H1 Hk; pose proof (paged_mode s D Hs H1) as Hpg; pose proof (pg_resv _ _ Hpg) as Hres.
  destruct (slot_offsets k Hk) as (O1 & O2 & O3 & O4 & O5); unfold mm_detach_page.
  rewrite (proj2 (Z.ltb_lt _ _) O5), O1, O2; do 3 erewrite (mm_bind_ok _ _ s) by reflexivity.
  replace (MM_VIRTUAL_PT_ENTRY 1022 0) with (pt_addr s D 1022) by (unfold pt_addr; by rewrite H1).
  destruct (load_pt s D 1022 k Hs) as (t & E & Ht); [lia|done|lia|]; rewrite (mm_bind_ok _ _ _ _ _ E); fold (slot (phys s) D k).
  destruct (write_pte (set_tlb t s) D (slot_page k) (pte_clear_p (slot (phys s) D k)))
    as (t' & E' & _ & Hs'); rewrite ?O1; try done; try lia.
  { apply clear_range, load32_range, (tb_bytes _ _ _ (sp_tables _ _ Hs)). }
  { right; by apply (slot_not_dir _ _ (pmem s) (phys s)); [|apply Hs]. }
  rewrite O1, O2 in E', Hs'; rewrite (mm_bind_ok _ _ _ _ _ E'); clear E'.
  exists (<[MM_PAGE (slot_page k) := None]> t'); split; [done|exact Hs'].
Qed.
End Temp.

(** ** Clearing a page *)

(** Page [b] is zero, and nothing else has changed but the page table of the reserved slots. *)
Record cleared (m m' : mem) (D b : Z) : Prop := {
  cl_zero : forall x, MM_PAGE x = MM_PAGE b -> m' x = 0;
  cl_other : forall x, MM_PAGE x <> MM_PAGE b ->
    (pte_p (pde m D 1022) = true -> MM_PAGE x <> MM_PAGE (table m D 1022)) -> m' x = m x;
  cl_pde : forall j, 0 <= j < 1024 -> pde m' D j = pde m D j;
  cl_walk : forall v, 0 <= v < 2 ^ 32 -> walk m' D v = walk m D v
}.

Lemma data_frame_ext m m' D b :
  (forall j, 0 <= j < 1024 -> pde m' D j = pde m D j) -> data_frame m D b -> data_frame m' D b.
Proof. intros H (H1 & H2 & H3); split_and!; [done|done|]; intros i Hi; unfold table; rewrite H by lia; by apply H3. Qed.

Lemma page_of_word a k x : a mod 4096 = 0 -> 0 <= k < 1024 -> a + 4 * k <= x < a + 4 * k + 4 -> MM_PAGE x = MM_PAGE a.
Proof. unfold MM_PAGE, MM_PAGE_SIZE; intros; Z.div_mod_to_equations; lia. Qed.

Lemma page_aligned b x : b mod 4096 = 0 -> MM_PAGE x = MM_PAGE b <-> b <= x < b + 4096.
Proof. unfold MM_PAGE, MM_PAGE_SIZE; intros; Z.div_mod_to_equations; lia. Qed.

Lemma memset_page s D v b :
  space_ok s D -> data_frame (phys s) D b -> 0 <= b < 2 ^ 32 -> 0 <= v < 2 ^ 32 -> v mod 4096 = 0 ->
  (pg_enabled s = 0 -> v = b) -> (pg_enabled s = 1 -> exists us, walk (phys s) D v = Some (mk_xlat b true us)) ->
  exists t m', vmemset (Z.to_nat (MM_PT_ENTRIES * 4)) v 0 s = Ok (tt, set_phys m' (set_tlb t s)) /\
    space_ok (set_phys m' (set_tlb t s)) D /\
    (forall x, MM_PAGE x = MM_PAGE b -> m' x = 0) /\ (forall x, MM_PAGE x <> MM_PAGE b -> m' x = phys s x).
Proof.
  intros Hs Hb Hbr Hv Hva H0 H1.
  assert (Hn : Z.of_nat (Z.to_nat (MM_PT_ENTRIES * 4)) = 4096) by reflexivity.
  destruct (vmemset_ok (Z.to_nat (MM_PT_ENTRIES * 4)) s D v b 0) as (t & m' & E & Hs' & Hm); try done; try lia.
  rewrite Z.add_0_r, u32_small in E by lia; exists t, m'; split; [exact E|]; split; [done|].
  rewrite Z.add_0_r, Hn in Hm.
  split; intros x Hx; rewrite Hm; rewrite page_aligned in Hx by apply Hb; repeat (case_test; cbn); done || lia.
Qed.

(** A page that is attached, cleared and detached again. *)
Lemma scrub_ok proc_ptd s t1 D b k :
  space_ok s D -> pg_enabled s = 1 -> data_frame (phys s) D b -> 0 <= b < 2 ^ 32 -> 1016 <= k < 1024 ->
  pte_p (slot (phys s) D k) = false ->
  let m1 := store32 (phys s) (table (phys s) D 1022 + 4 * k) (pte_create MM_READ_WRITE MM_SUPERVISOR_PAGE 0 b) in
  space_ok (set_phys m1 (set_tlb t1 s)) D ->
  exists t2 m2 t3 m3,
    vmemset (Z.to_nat (MM_PT_ENTRIES * 4)) (slot_page k) 0 (set_phys m1 (set_tlb t1 s)) = Ok (tt, set_phys m2 (set_tlb t2 s)) /\
    mm_detach_page proc_ptd (slot_page k) (set_phys m2 (set_tlb t2 s)) = Ok (tt, set_phys m3 (set_tlb t3 s)) /\
    space_ok (set_phys m3 (set_tlb t3 s)) D /\ cleared (phys s) m3 D b.
Proof.
  intros Hs H1 Hb Hbr Hk Hf m1 Hs1; pose proof (paged_mode s D Hs H1) as Hpg; pose proof (pg_resv _ _ Hpg) as Hres.
  destruct (slot_offsets k Hk) as (O1 & O2 & O3 & O4 & _).
  set (e1 := pte_create MM_READ_WRITE MM_SUPERVISOR_PAGE 0 b) in *.
  assert (He1 : 0 <= e1 < 2 ^ 32) by by apply create_range.
  assert (Hd1 := fun j => pt_pde (phys s) (pmem s) D 1022 k e1 (sp_tables _ _ Hs) ltac:(lia) Hres ltac:(lia) j).
  assert (Hw1 := fun v => pt_walk (phys s) (pmem s) D 1022 k e1 (sp_tables _ _ Hs) ltac:(lia) Hres ltac:(lia) He1 v).
  fold m1 in Hd1, Hw1.
  destruct (memset_page (set_phys m1 (set_tlb t1 s)) D (slot_page k) b) as (t2 & m2 & E2 & Hs2 & Hz & Ho); try done; try lia.
  { by apply (data_frame_ext (phys s)). }
  { intros H0; change (pg_enabled s = 0) in H0; lia. }
  { intros _; exists (pte_us (pde (phys s) D 1022) && pte_us e1); cbn; rewrite Hw1 by lia; rewrite O1, O2, !Z.eqb_refl, (pg_rw _ _ Hpg 1022) by (done || lia); cbn [andb].
    destruct (create_bits MM_READ_WRITE MM_SUPERVISOR_PAGE 0 b) as (C1 & C2 & _); fold e1 in C1, C2; rewrite C1, C2.
    unfold e1 at 1; rewrite create_page_base; do 2 f_equal; destruct Hb as [Hb _]; unfold MM_PAGE_SIZE; Z.div_mod_to_equations; lia. }
  assert (Hb1 : data_frame m1 D b) by by apply (data_frame_ext (phys s)).
  assert (Hd2 := fun j => data_pde m1 m2 D b (pmem s) (sp_tables _ _ Hs1) Hb1 Ho j).
  assert (Hw2 := fun v => data_walk m1 m2 D b (pmem s) (sp_tables _ _ Hs1) Hb1 Ho v).
  destruct (detach_ok proc_ptd (set_phys m2 (set_tlb t2 s)) D k) as (t3 & E3 & Hs3); try done.
  cbn [phys set_phys] in E3, Hs3; set (e3 := pte_clear_p (slot m2 D k)) in *.
  assert (Hres2 : pte_p (pde m2 D 1022) = true) by (rewrite Hd2, Hd1 by lia; done).
  assert (He3 : 0 <= e3 < 2 ^ 32) by (apply clear_range, load32_range, (tb_bytes _ _ _ (sp_tables _ _ Hs2))).
  assert (Hd3 := fun j => pt_pde m2 (pmem s) D 1022 k e3 (sp_tables _ _ Hs2) ltac:(lia) Hres2 ltac:(lia) j).
  assert (Hw3 := fun v => pt_walk m2 (pmem s) D 1022 k e3 (sp_tables _ _ Hs2) ltac:(lia) Hres2 ltac:(lia) He3 v).
  assert (Htab : table m2 D 1022 = table (phys s) D 1022) by (unfold table; rewrite Hd2, Hd1 by lia; done).
  assert (Hal : table (phys s) D 1022 mod 4096 = 0) by apply table_range, (tb_bytes _ _ _ (sp_tables _ _ Hs)).
  assert (Hne : MM_PAGE (table (phys s) D 1022) <> MM_PAGE b).
  { rewrite page_aligned by apply Hb; destruct Hb as (Hb0 & _ & Hb3); specialize (Hb3 1022 ltac:(lia) Hres).
    unfold MM_PAGE_SIZE in *; Z.div_mod_to_equations; lia. }
  exists t2, m2, t3; eexists; split; [exact E2|]; split; [exact E3|]; split; [exact Hs3|]; split.
  - intros x Hx; rewrite store32_other; [by apply Hz|]; intros Hin; rewrite Htab in Hin.
    apply page_of_word in Hin; [congruence|done|lia].
  - intros x Hx Hx'; specialize (Hx' Hres); rewrite store32_other; [rewrite Ho by done; unfold m1; cbn|].
    + apply store32_other; intros Hin; apply page_of_word in Hin; [done|done|lia].
    + intros Hin; rewrite Htab in Hin; apply page_of_word in Hin; [done|done|lia].
  - intros j Hj; by rewrite Hd3, Hd2, Hd1.
  - intros v Hv; rewrite Hw3, Hw2, Hw1 by done.
    destruct (Z.eqb_spec (PTD_OFFSET v) 1022) as [Ev|]; [|done]; destruct (Z.eqb_spec (PT_OFFSET v) k) as [Ek|]; [|done].
    cbn [andb]; unfold e3; rewrite clear_not_present; symmetry; unfold walk, pte; rewrite Ev, Ek, Hres.
    fold (table (phys s) D 1022) (slot (phys s) D k); by rewrite Hf.
Qed.

(** ** Allocation of the page table *)

Lemma fresh_frame s D p : space_ok s D -> page_free (pmem s) p -> data_frame (phys s) D (p * MM_PAGE_SIZE).
Proof.
  intros Hs [_ Hf]; pose proof (sp_tables _ _ Hs) as Hok; unfold MM_PAGE_SIZE; split_and!.
  - apply Z.mod_mul; lia.
  - intros E; pose proof (tb_used _ _ _ Hok) as Hu; rewrite <- E in Hu; change 4096 with MM_PAGE_SIZE in Hu.
    rewrite page_of_base in Hu; congruence.
  - intros i Hi Hp E; destruct (tb_table _ _ _ Hok i Hi Hp) as (_ & _ & Hu); rewrite E in Hu.
    change 4096 with MM_PAGE_SIZE in Hu; rewrite page_of_base in Hu; congruence.
Qed.

(** The bitmap may change as long as the directory and the page tables stay in use. *)
Lemma space_pmem s D p :
  space_ok s D -> phys_ok p -> tail_used p ->
  (bit (pmem s) (MM_PAGE D) = 1 -> bit p (MM_PAGE D) = 1) ->
  (forall i, 0 <= i < 1023 -> pte_p (pde (phys s) D i) = true -> bit p (MM_PAGE (table (phys s) D i)) = 1) ->
  space_ok (set_pmem p s) D.
Proof.
  intros [[H1 H2 H3 H4 H5 H6] _ _ Hm] Hp Ht HD HT; split; [|done|done|].
  - split; try done; [by apply HD|]; intros i Hi He; destruct (H5 i Hi He) as (A1 & A2 & A3); auto.
  - destruct Hm as [Hm|[P1 P2 P3 P4 P5 P6 P7]]; [by left|by right].
Qed.

Lemma page_nonneg a : 0 <= a -> 0 <= MM_PAGE a.
Proof. intros; apply Z.div_pos; unfold MM_PAGE_SIZE; lia. Qed.

Lemma space_taken s D n p : space_ok s D -> 0 <= n -> phys_ok p -> taken (pmem s) n p -> space_ok (set_pmem p s) D.
Proof.
  intros Hs Hn Hp Hk; pose proof (sp_tables _ _ Hs) as Hok; apply space_pmem; [done|done| | |].
  - eapply taken_tail; [done|done|apply Hs].
  - intros H; pose proof (tb_dir _ _ _ Hok) as [_ ?]; rewrite (taken_bit (pmem s) n) by (done || apply page_nonneg; lia).
    by case_test.
  - intros i Hi He; destruct (tb_table _ _ _ Hok i Hi He) as (A1 & _ & A4).
    rewrite (taken_bit (pmem s) n) by (done || apply page_nonneg; lia); by case_test.
Qed.

(** The new entry of the directory, for an empty page table at [b]. *)
Section Store_pd.
Context (m : mem) (pm : physmem) (D i b rw pcd : Z).
Context (Hok : tables_ok m pm D) (Hi : 0 <= i < 1023) (Hp : pte_p (pde m D i) = false).
Context (Hb : data_frame m D b) (Hbr : 0 < b < 2 ^ 32) (Hused : bit pm (MM_PAGE b) = 1).
Context (Hz : forall x, MM_PAGE x = MM_PAGE b -> m x = 0).
Abbreviation e := (pte_create rw MM_USER_PAGE pcd b).
Abbreviation m' := (store32 m (D + 4 * i) e).

Lemma pd_pde j : pde m' D j = if j =? i then e else pde m D j.
Proof.
  unfold pde; case_test; [subst; apply load32_store32_same, create_range; lia|by apply load_other_word].
Qed.

Lemma pd_table_new : table m' D i = b.
Proof.
  unfold table; rewrite pd_pde, Z.eqb_refl, create_page_base; destruct Hb as [Hb0 _].
  unfold MM_PAGE_SIZE; Z.div_mod_to_equations; lia.
Qed.

Lemma pd_table j : j <> i -> table m' D j = table m D j.
Proof. intros; unfold table; rewrite pd_pde; by tests. Qed.

Lemma pd_tables : tables_ok m' pm D.
Proof.
  destruct Hok as [H1 H2 H3 H4 H5 H6]; destruct Hb as (B1 & B2 & B3).
  destruct (create_bits rw MM_USER_PAGE pcd b) as (C1 & C2 & _); split; try done.
  - by apply store32_bytes.
  - rewrite pd_pde, pd_table by lia; tests; done.
  - intros j Hj; rewrite pd_pde; destruct (Z.eqb_spec j i) as [->|]; [|rewrite pd_table by done; by apply H5].
    intros _; rewrite pd_table_new; split_and!; done || lia.
  - intros j k Hj Hk; rewrite !pd_pde; destruct (Z.eqb_spec j i) as [->|], (Z.eqb_spec k i) as [->|]; try done.
    + rewrite pd_table_new, pd_table by done; intros _ Hpk E; by destruct (B3 k Hk Hpk).
    + rewrite pd_table_new, pd_table by done; intros Hpj _ E; by destruct (B3 j Hj Hpj).
    + rewrite !pd_table by done; auto.
Qed.

Lemma pd_entry a k : a mod 4096 = 0 -> a <> D -> 0 <= k < 1024 -> load32 m' (a + 4 * k) = load32 m (a + 4 * k).
Proof. intros; apply load_other_page; try done; try lia; apply (tb_dir _ _ _ Hok). Qed.

Lemma zero_entry k : 0 <= k < 1024 -> load32 m (b + 4 * k) = 0.
Proof.
  intros Hk; destruct Hb as [B1 _]; unfold load32; rewrite !Hz; [done|..]; apply page_aligned; auto; lia.
Qed.

Lemma pd_walk v : 0 <= v < 2 ^ 32 -> PTD_OFFSET v < 1023 -> walk m' D v = walk m D v.
Proof.
  intros Hv Hd; pose proof (ptd_offset_range v Hv); pose proof (pt_offset_range v) as Ht.
  assert (Hb' : forall j, table m D j mod 4096 = 0) by (intros j; apply table_range, (tb_bytes _ _ _ Hok)).
  unfold walk, pte; fold (table m' D (PTD_OFFSET v)) (table m D (PTD_OFFSET v)); rewrite pd_pde.
  destruct (Z.eqb_spec (PTD_OFFSET v) i) as [->|Hne].
  - rewrite Hp, pd_table_new; destruct (create_bits rw MM_USER_PAGE pcd b) as (-> & _).
    destruct Hb as (B1 & B2 & _); rewrite pd_entry, zero_entry by done; done.
  - rewrite pd_table by done; destruct (pte_p (pde m D (PTD_OFFSET v))) eqn:Ep; [|done].
    rewrite pd_entry; [done|done| |done]; by apply (tb_table _ _ _ Hok); [lia|].
Qed.

(** Translations that exist stay, also those of the page tables themselves. *)
Lemma pd_mono v x : 0 <= v < 2 ^ 32 -> walk m D v = Some x -> walk m' D v = Some x.
Proof.
  intros Hv; destruct (decide (PTD_OFFSET v < 1023)) as [Hd|Hd]; [by rewrite pd_walk|].
  pose proof (ptd_offset_range v Hv); assert (Ev : PTD_OFFSET v = 1023) by lia; pose proof (pt_offset_range v) as Ht.
  unfold walk, pte; rewrite Ev; fold (table m' D 1023) (table m D 1023); rewrite pd_pde, pd_table by lia; tests.
  destruct (pte_p (pde m D 1023)) eqn:Ep; [|done]; rewrite (tb_self _ _ _ Hok) by done.
  fold (pde m' D (PT_OFFSET v)) (pde m D (PT_OFFSET v)); rewrite pd_pde.
  destruct (Z.eqb_spec (PT_OFFSET v) i) as [->|]; [by rewrite Hp|done].
Qed.
End Store_pd.

Lemma write_pde s D i b rw pcd :
  space_ok s D -> 0 <= i < 1023 -> pte_p (pde (phys s) D i) = false -> data_frame (phys s) D b -> 0 < b < 2 ^ 32 ->
  bit (pmem s) (MM_PAGE b) = 1 -> pg_enabled s = 0 \/ Z.odd rw = true -> (forall x, MM_PAGE x = MM_PAGE b -> phys s x = 0) ->
  exists t, let m' := store32 (phys s) (D + 4 * i) (pte_create rw MM_USER_PAGE pcd b) in
    store_pte D i (pte_create rw MM_USER_PAGE pcd b) s = Ok (tt, set_phys m' (set_tlb t s)) /\ space_ok (set_phys m' (set_tlb t s)) D.
Proof.
  intros Hs Hi Hp Hb Hbr Hu Hrw Hz; pose proof (sp_tables _ _ Hs) as Hok; pose proof (tb_dir _ _ _ Hok) as [_ HD].
  destruct (store_pd s D i (pte_create rw MM_USER_PAGE pcd b) Hs) as (t & E & Ht); [lia|].
  exists t; split; [exact E|]; split; [by apply pd_tables|by apply Hs|by apply Hs|].
  destruct (sp_mode _ _ Ht) as [H0|[P1 P2 P3 [us P4] P5 P6 P7]]; [by left|right].
  destruct Hrw as [H0|Hrw]; [change (pg_enabled s = 1) in P1; congruence|].
  assert (Hmono := fun v x => pd_mono (phys s) (pmem s) D i b rw pcd Hok Hi Hp Hb Hbr Hz v x).
  split; cbn; try done.
  - rewrite pd_pde, pd_table by lia; tests; exact P3.
  - exists us; apply Hmono; [lia|exact P4].
  - rewrite pd_pde by lia; case_test; [apply create_bits|exact P5].
  - intros p x Hpr Ex; apply Hmono; [unfold MM_PAGE_SIZE; lia|by apply P6].
  - intros j Hj; rewrite pd_pde by lia; case_test; [|by apply P7].
    intros _; by rewrite (proj1 (proj2 (create_bits rw MM_USER_PAGE pcd b))).
Qed.

(** ** [get_phys_page] and [put_phys_page] in a well-formed address space *)

Definition same_bits (p p' : physmem) : Prop := forall q, 0 <= q -> bit p' q = bit p q.

Lemma get_page_step s D :
  space_ok s D -> exists r p, get_phys_page s = Ok (r, set_pmem p s) /\ space_ok (set_pmem p s) D /\
    (r = 0 /\ (forall n, ~ page_free (pmem s) n) /\ same_bits (pmem s) p \/
     exists n, 0 < n /\ page_free (pmem s) n /\ r = n * MM_PAGE_SIZE /\ taken (pmem s) n p).
Proof.
  intros Hs; destruct (get_cases (pmem s) (sp_phys _ _ Hs) (sp_tail _ _ Hs)) as (r & p & E & Hp & Hc); exists r, p.
  split; [unfold get_phys_page, lift_pmem; by rewrite E|].
  destruct Hc as [[Hr (n & Hf & _ & -> & Hk)]|(Hno & Ht & -> & Em & _)].
  - pose proof (free_not_zero _ _ (sp_phys _ _ Hs) Hf); split; [by eapply (space_taken s D n); [|lia|..]|right; exists n; done].
  - assert (Hsame : same_bits (pmem s) p) by (intros q _; unfold bit; by rewrite Em).
    pose proof (tb_dir _ _ _ (sp_tables _ _ Hs)) as [_ HD].
    split; [|left; done]; apply space_pmem; [done|done| | |].
    + intros q Hq; rewrite Hsame by (revert Hq; rewrite phys_limit; lia); by apply Ht.
    + intros; rewrite Hsame; [done|apply page_nonneg; lia].
    + intros i Hi He; destruct (tb_table _ _ _ (sp_tables _ _ Hs) i Hi He) as (A1 & _ & A4).
      rewrite Hsame; [done|apply page_nonneg; lia].
Qed.

Lemma put_page_step s D n :
  space_ok s D -> data_frame (phys s) D (n * MM_PAGE_SIZE) -> 0 < n < PHYS_LIMIT ->
  exists p, put_phys_page (n * MM_PAGE_SIZE) s = Ok (tt, set_pmem p s) /\ space_ok (set_pmem p s) D /\
    forall q, 0 <= q -> bit p q = if n =? q then 0 else bit (pmem s) q.
Proof.
  intros Hs (_ & B2 & B3) Hn.
  destruct (put_phys_page_ok (pmem s) (n * MM_PAGE_SIZE)) as (p & E & Hp & Em & _); [apply Hs|rewrite page_of_base; lia|].
  rewrite page_of_base in Em; exists p; unfold put_phys_page, lift_pmem; rewrite E; split; [done|].
  assert (Hb : forall q, 0 <= q -> bit p q = if n =? q then 0 else bit (pmem s) q).
  { intros q Hq; unfold bit; rewrite Em, clear_bit_ok by lia; done. }
  assert (Hpage : forall a, a mod 4096 = 0 -> a <> n * MM_PAGE_SIZE -> n <> MM_PAGE a).
  { intros a Ha Hne ->; apply Hne; unfold MM_PAGE, MM_PAGE_SIZE; Z.div_mod_to_equations; lia. }
  split; [|done]; pose proof (sp_tables _ _ Hs) as Hok; pose proof (tb_dir _ _ _ Hok) as [HD1 HD]; apply space_pmem; try done.
  - intros q Hq; rewrite Hb by (revert Hq; rewrite phys_limit; lia); test_false; by apply (sp_tail _ _ Hs).
  - intros H; rewrite Hb by (apply page_nonneg; lia); rewrite (proj2 (Z.eqb_neq _ _)); [done|apply Hpage; [done|congruence]].
  - intros i Hi He; destruct (tb_table _ _ _ Hok i Hi He) as (A1 & _ & A4).
    rewrite Hb by (apply page_nonneg; lia); rewrite (proj2 (Z.eqb_neq _ _)); [done|apply Hpage; [|by apply B3]].
    apply table_range, (tb_bytes _ _ _ Hok).
Qed.

(** Dropping a translation from the TLB is always sound. *)
Lemma space_invlpg v s D : space_ok s D -> space_ok (set_tlb (<[MM_PAGE v := None]> (tlb s)) s) D.
Proof.
  intros Hs; apply space_tlb; [done|]; destruct (sp_mode _ _ Hs) as [H0|[P1 P2 P3 P4 P5 P6 P7]]; [by left|right].
  split; try done; intros p x Hp; cbn; destruct (decide (p = MM_PAGE v)) as [->|]; [by rewrite fn_lookup_insert|].
  rewrite fn_lookup_insert_ne by done; by apply P6.
Qed.

(** ** [add_page_table] *)

(** The new page table at [b] for index [i]: it is empty and no translation has changed. *)
Record new_table (m m' : mem) (D i b rw pcd : Z) : Prop := {
  nt_new : pde m' D i = pte_create rw MM_USER_PAGE pcd b;
  nt_old : forall j, 0 <= j < 1024 -> j <> i -> pde m' D j = pde m D j;
  nt_walk : forall v, 0 <= v < 2 ^ 32 -> PTD_OFFSET v < 1023 -> walk m' D v = walk m D v;
  nt_frame : forall x, MM_PAGE x <> MM_PAGE D -> MM_PAGE x <> MM_PAGE b ->
    (pte_p (pde m D 1022) = true -> MM_PAGE x <> MM_PAGE (table m D 1022)) -> m' x = m x
}.

(** There is no free page, or no free slot to clear it in. *)
Definition no_room (s : mm) (D : Z) : Prop :=
  (forall n, ~ page_free (pmem s) n) \/
  pg_enabled s = 1 /\ forall k, 1016 <= k < 1024 -> pte_p (slot (phys s) D k) = true.

Inductive table_result (s : mm) (D i rw pcd : Z) : Z -> mm -> Prop :=
| table_none p t : no_room s D -> same_bits (pmem s) p -> table_result s D i rw pcd ENOMEM (upd p (phys s) t s)
| table_some p t m' n : ~ no_room s D -> page_free (pmem s) n -> (forall q, 0 <= q -> bit p q = if n =? q then 1 else bit (pmem s) q) ->
    new_table (phys s) m' D i (n * MM_PAGE_SIZE) rw pcd -> table_result s D i rw pcd 0 (upd p m' t s).

Lemma free_range n : 0 < n < PHYS_LIMIT -> 0 < n * MM_PAGE_SIZE < 2 ^ 32.
Proof. rewrite phys_limit; unfold MM_PAGE_SIZE; lia. Qed.

(** The last steps: the entry of the directory for the cleared page. *)
Lemma install_table s D i n rw pcd m1 t1 p :
  space_ok s D -> 0 <= i < 1023 -> pte_p (pde (phys s) D i) = false -> pg_enabled s = 0 \/ Z.odd rw = true ->
  page_free (pmem s) n -> 0 < n -> taken (pmem s) n p ->
  space_ok (upd p m1 t1 s) D -> cleared (phys s) m1 D (n * MM_PAGE_SIZE) ->
  exists t2 m2, store_pte D i (pte_create rw MM_USER_PAGE pcd (n * MM_PAGE_SIZE)) (upd p m1 t1 s) = Ok (tt, upd p m2 t2 s) /\
    space_ok (upd p m2 t2 s) D /\ new_table (phys s) m2 D i (n * MM_PAGE_SIZE) rw pcd.
Proof.
  intros Hs Hi Hp Hrw Hf Hn Hk Hs1 [C1 C2 C3 C4]; pose proof Hf as [Hfr _].
  assert (Hbr : 0 < n * MM_PAGE_SIZE < 2 ^ 32) by (apply free_range; lia).
  assert (Hp1 : pte_p (pde m1 D i) = false) by (rewrite C3 by lia; done).
  assert (Hb1 : data_frame m1 D (n * MM_PAGE_SIZE)) by (by apply (data_frame_ext (phys s)); [|by apply fresh_frame]).
  assert (Hu : bit p (MM_PAGE (n * MM_PAGE_SIZE)) = 1).
  { rewrite page_of_base, (taken_bit (pmem s) n) by (done || lia); by rewrite Z.eqb_refl. }
  destruct (write_pde (upd p m1 t1 s) D i (n * MM_PAGE_SIZE) rw pcd Hs1 Hi Hp1 Hb1 Hbr Hu Hrw C1) as (t2 & E & Hs2).
  exists t2; eexists; split; [exact E|]; split; [exact Hs2|]; cbn [phys upd set_pmem set_phys].
  split.
  - rewrite pd_pde by done; by rewrite Z.eqb_refl.
  - intros j Hj Hne; rewrite pd_pde by done; tests; by apply C3.
  - intros v Hv Hd; rewrite (pd_walk m1 p) by (done || apply Hs1); by apply C4.
  - intros x X1 X2 X3; rewrite store32_other; [by apply C2|]; intros Hin.
    apply page_of_word in Hin; [done|apply (tb_dir _ _ _ (sp_tables _ _ Hs))|lia].
Qed.

(** The page is mapped to a slot, or used directly if paging is off; cleared; and unmapped again. *)
Lemma zero_page_ok proc_ptd s D b :
  space_ok s D -> sp_lock (pid s) ∉ locks s -> data_frame (phys s) D b -> 0 < b < 2 ^ 32 ->
  let attach := if negb (pg_enabled s =? 0) then mm_attach_page proc_ptd b else mret b in
  (exists t, attach s = Ok (0, set_tlb t s) /\ space_ok (set_tlb t s) D /\ pg_enabled s = 1 /\
     forall k, 1016 <= k < 1024 -> pte_p (slot (phys s) D k) = true) \/
  exists r s1 s2 t m, attach s = Ok (r, s1) /\ r <> 0 /\ vmemset (Z.to_nat (MM_PT_ENTRIES * 4)) r 0 s1 = Ok (tt, s2) /\
    (if negb (pg_enabled s =? 0) then mm_detach_page proc_ptd r else mret tt) s2 = Ok (tt, set_phys m (set_tlb t s)) /\
    space_ok (set_phys m (set_tlb t s)) D /\ cleared (phys s) m D b /\
    ~ (pg_enabled s = 1 /\ forall k, 1016 <= k < 1024 -> pte_p (slot (phys s) D k) = true).
Proof.
  intros Hs Hl Hb Hbr attach; unfold attach; destruct (sp_mode _ _ Hs) as [H0|Hpg].
  - right; rewrite H0; cbn [Z.eqb negb].
    destruct (memset_page s D b b) as (t & m & E & Hs' & Hz & Ho); try done; try lia; [apply Hb|].
    exists b, s, (set_phys m (set_tlb t s)), t, m; split_and!; try done; try lia; try (intros [? _]; congruence).
    split; try done.
    + intros x Hx _; by apply Ho.
    + intros j Hj; by apply (data_pde (phys s) m D b (pmem s)); [apply Hs|..].
    + intros v Hv; by apply (data_walk (phys s) m D b (pmem s)); [apply Hs|..].
  - pose proof (pg_on _ _ Hpg) as H1; rewrite H1; cbn [Z.eqb negb].
    destruct (attach_ok proc_ptd s D b Hs H1 Hl) as (r & t & m & E & Hs1 & [(-> & -> & Hall)|(k & Hk & -> & Hf & ->)]); [lia| |].
    + left; exists t; split; [rewrite E; by destruct s|]; split; [by destruct s|done].
    + right; destruct (scrub_ok proc_ptd s t D b k Hs H1 Hb ltac:(lia) Hk Hf Hs1) as (t2 & m2 & t3 & m3 & E2 & E3 & Hs3 & Hc).
      destruct (slot_offsets k Hk) as (_ & _ & O3 & _).
      eexists _, _, _, t3, m3; split_and!; [exact E|lia|exact E2|exact E3|exact Hs3|exact Hc|].
      intros [_ Hall]; rewrite Hall in Hf; done.
Qed.

Lemma add_page_table_ok proc_ptd s D v rw pcd :
  space_ok s D -> 0 <= v < 2 ^ 32 -> PTD_OFFSET v < 1023 -> pte_p (pde (phys s) D (PTD_OFFSET v)) = false ->
  sp_lock (pid s) ∉ locks s -> pg_enabled s = 0 \/ Z.odd rw = true ->
  exists rc s', add_page_table proc_ptd D v rw pcd (pg_enabled s) s = Ok (rc, s') /\ space_ok s' D /\
    table_result s D (PTD_OFFSET v) rw pcd rc s'.
Proof.
  intros Hs Hv Hd Hp Hl Hrw; pose proof (ptd_offset_range v Hv) as Hi; unfold add_page_table.
  destruct (get_page_step s D Hs) as (r & p & E & Hsp & [(-> & Hno & Hsame)|(n & Hn & Hf & -> & Hk)]);
    rewrite (mm_bind_ok _ _ _ _ _ E); clear E.
  { exists ENOMEM, (set_pmem p s); split; [done|]; split; [done|].
    replace (set_pmem p s) with (upd p (phys s) (tlb s) s) by by destruct s.
    apply table_none; [by left|done]. }
  pose proof Hf as [Hfr _]; assert (Hbr := free_range n ltac:(lia)); assert (Hb := fresh_frame s D n Hs Hf).
  assert (Hbits : forall q, 0 <= q -> bit p q = if n =? q then 1 else bit (pmem s) q)
    by (intros q Hq; apply taken_bit; done || lia).
  rewrite (proj2 (Z.eqb_neq (n * MM_PAGE_SIZE) 0)) by lia.
  destruct (zero_page_ok proc_ptd (set_pmem p s) D (n * MM_PAGE_SIZE) Hsp Hl Hb Hbr)
    as [(t & E & Hst & H1 & Hall)|(r & s1 & s2 & t & m & E1 & Hr & E2 & E3 & Hs3 & Hc & Hfree)].
  - change (pg_enabled (set_pmem p s)) with (pg_enabled s) in E; rewrite (mm_bind_ok _ _ _ _ _ E); cbn [Z.eqb].
    destruct (put_page_step (set_tlb t (set_pmem p s)) D n Hst Hb ltac:(lia)) as (p' & E' & Hs' & Hb').
    rewrite (mm_bind_ok _ _ _ _ _ E'); exists ENOMEM, (upd p' (phys s) t s); split; [by destruct s|].
    split; [by destruct s|]; apply table_none; [by right|].
    intros q Hq; rewrite Hb' by done; cbn; rewrite Hbits by done.
    destruct (Z.eqb_spec n q) as [<-|]; [by destruct Hf|done].
  - change (pg_enabled (set_pmem p s)) with (pg_enabled s) in E1, E3; rewrite (mm_bind_ok _ _ _ _ _ E1).
    rewrite (proj2 (Z.eqb_neq r 0) Hr), (mm_bind_ok _ _ _ _ _ E2), (mm_bind_ok _ _ _ _ _ E3).
    change (set_phys m (set_tlb t (set_pmem p s))) with (upd p m t s) in *.
    destruct (install_table s D (PTD_OFFSET v) n rw pcd m t p) as (t2 & m2 & E4 & Hs4 & Hnt); try done; try lia.
    rewrite (mm_bind_ok _ _ _ _ _ E4).
    assert (Hinv : exists t4, (if pg_enabled s =? 1 then invlpg (MM_VIRTUAL_PT_ENTRY (PTD_OFFSET v) 0) else mret tt) (upd p m2 t2 s) =
      Ok (tt, upd p m2 t4 s) /\ space_ok (upd p m2 t4 s) D).
    { destruct (pg_enabled s =? 1); [|by exists t2]; eexists; split; [done|]; by apply (space_invlpg _ (upd p m2 t2 s)). }
    destruct Hinv as (t4 & E5 & Hs5); rewrite (mm_bind_ok _ _ _ _ _ E5).
    destruct (pt_address (upd p m2 t4 s) D (PTD_OFFSET v) Hs5) as (t5 & E6 & Hs6); [lia|].
    change (pg_enabled (upd p m2 t4 s)) with (pg_enabled s) in E6; rewrite (mm_bind_ok _ _ _ _ _ E6).
    exists 0, (upd p m2 t5 s); split; [done|]; split; [done|]; apply (table_some _ _ _ _ _ _ _ _ n); try done.
    intros [Hno|?]; [by apply (Hno n)|done].
Qed.

(** ** [mm_map_page] *)

(** The user bit the processor finds in the directory: that of the entry, set in a new one. *)
Definition dir_us (m : mem) (D i : Z) : bool := if pte_p (pde m D i) then pte_us (pde m D i) else true.

(** The write bit: that of the entry; a new one gets that of the page. *)
Definition dir_rw (m : mem) (D i : Z) (rw : bool) : bool := if pte_p (pde m D i) then pte_rw (pde m D i) else rw.

Lemma dir_rw_paged s D i : space_ok s D -> pg_enabled s = 1 -> 0 <= i < 1023 -> dir_rw (phys s) D i true = true.
Proof.
  intros Hs H1 Hi; unfold dir_rw; destruct (pte_p (pde (phys s) D i)) eqn:Ep; [|done].
  by apply (pg_rw _ _ (paged_mode _ _ Hs H1)).
Qed.

(** The pages in use afterwards: the same ones, and that of a page table if one was added. *)
Definition used_after (p p' : physmem) (new : option Z) : Prop :=
  forall q, 0 <= q -> bit p' q = if decide (new = Some q) then 1 else bit p q.

Record mapped (m m' : mem) (D v frame : Z) (rw us : bool) : Prop := {
  mp_walk : walk m' D v = Some (mk_xlat frame rw us);
  mp_other : forall w, 0 <= w < 2 ^ 32 -> PTD_OFFSET w < 1023 -> MM_PAGE w <> MM_PAGE v -> walk m' D w = walk m D w;
  mp_pde : forall j, 0 <= j < 1024 -> j <> PTD_OFFSET v \/ pte_p (pde m D j) = true -> pde m' D j = pde m D j;
  mp_frame : forall x, 0 <= x -> data_frame m' D (MM_PAGE x * MM_PAGE_SIZE) -> m' x = m x
}.

Inductive map_result (s : mm) (D v phys_base rw us : Z) : Z -> mm -> Prop :=
| map_fail p t :
    pte_p (pde (phys s) D (PTD_OFFSET v)) = false -> no_room s D -> same_bits (pmem s) p ->
    map_result s D v phys_base rw us ENOMEM (upd p (phys s) t s)
| map_done p t m' new :
    pte_p (pde (phys s) D (PTD_OFFSET v)) = true \/ ~ no_room s D ->
    mapped (phys s) m' D v (phys_base / 4096 * 4096) (dir_rw (phys s) D (PTD_OFFSET v) (Z.odd rw) && Z.odd rw)
      (dir_us (phys s) D (PTD_OFFSET v) && Z.odd us) ->
    used_after (pmem s) p new ->
    (if pte_p (pde (phys s) D (PTD_OFFSET v)) then new = None
     else exists n, new = Some n /\ page_free (pmem s) n /\ table m' D (PTD_OFFSET v) = n * MM_PAGE_SIZE) ->
    map_result s D v phys_base rw us 0 (upd p m' t s).

(** The store of the entry, once there is a page table. *)
Lemma map_entry s D v phys_base rw us pcd :
  space_ok s D -> 0 <= v < 2 ^ 32 -> PTD_OFFSET v < 1023 -> pte_p (pde (phys s) D (PTD_OFFSET v)) = true ->
  0 <= phys_base < 2 ^ 32 -> at_page v D s ->
  exists t1 t2 m',
    mm_get_pt_address D (PTD_OFFSET v) (pg_enabled s) s = Ok (pt_addr s D (PTD_OFFSET v), set_tlb t1 s) /\
    store_pte (pt_addr s D (PTD_OFFSET v)) (PT_OFFSET v) (pte_create rw us pcd phys_base) (set_tlb t1 s) =
      Ok (tt, set_phys m' (set_tlb t2 s)) /\
    (exists t3, (if pg_enabled s =? 1 then invlpg v else mret tt) (set_phys m' (set_tlb t2 s)) = Ok (tt, set_phys m' (set_tlb t3 s)) /\
      space_ok (set_phys m' (set_tlb t3 s)) D) /\
    mapped (phys s) m' D v (phys_base / 4096 * 4096) (pte_rw (pde (phys s) D (PTD_OFFSET v)) && Z.odd rw)
      (pte_us (pde (phys s) D (PTD_OFFSET v)) && Z.odd us).
Proof.
  intros Hs Hv Hd Hp Hb Ha; pose proof (ptd_offset_range v Hv) as Hi; pose proof (pt_offset_range v) as Hk.
  pose proof (sp_tables _ _ Hs) as Hok; set (e := pte_create rw us pcd phys_base).
  assert (He : 0 <= e < 2 ^ 32) by by apply create_range.
  destruct (pt_address s D (PTD_OFFSET v) Hs Hi) as (t1 & E1 & Hs1).
  destruct (write_pte (set_tlb t1 s) D v e Hs1 Hv Hd Hp He Ha) as (t2 & E2 & Hoff & Hon).
  exists t1, t2; eexists; split; [exact E1|]; split; [exact E2|]; split.
  - destruct (Z.eqb_spec (pg_enabled s) 1) as [H1|H1]; eexists; (split; [reflexivity|]).
    + exact Hon.
    + apply Hoff; destruct (sp_mode _ _ Hs) as [?|Hpg]; [done|destruct H1; apply Hpg].
  - cbn [phys set_tlb]; destruct (create_bits rw us pcd phys_base) as (C1 & C2 & C3); fold e in C1, C2, C3; split.
    + rewrite (pt_walk _ (pmem s)) by (done || lia); rewrite !Z.eqb_refl; cbn [andb]; rewrite C1, C2, C3.
      unfold e; rewrite create_page_base; done.
    + intros w Hw Hwd Hne; rewrite (pt_walk _ (pmem s)) by (done || lia).
      destruct (Z.eqb_spec (PTD_OFFSET w) (PTD_OFFSET v)); [|done].
      destruct (Z.eqb_spec (PT_OFFSET w) (PT_OFFSET v)); [|done]; destruct Hne; by apply offsets_page.
    + intros j Hj _; apply (pt_pde _ (pmem s)); done || lia.
    + intros x Hx (_ & _ & Hdf); apply store32_other; intros Hin.
      assert (Htr := table_range (phys s) D (PTD_OFFSET v) (tb_bytes _ _ _ Hok)).
      apply page_of_word in Hin; [|apply Htr|done].
      assert (Hpd : pde (store32 (phys s) (table (phys s) D (PTD_OFFSET v) + 4 * PT_OFFSET v) e) D (PTD_OFFSET v) =
        pde (phys s) D (PTD_OFFSET v)) by (apply (pt_pde _ (pmem s)); done || lia).
      apply (Hdf (PTD_OFFSET v)); [lia|by rewrite Hpd|]; unfold table at 1; rewrite Hpd; fold (table (phys s) D (PTD_OFFSET v)).
      rewrite Hin; destruct Htr as [_ Htr]; unfold MM_PAGE, MM_PAGE_SIZE; Z.div_mod_to_equations; lia.
Qed.

Lemma mapped_new m m1 m2 pm D v n rw pcd f r u :
  tables_ok m pm D -> 0 <= v < 2 ^ 32 -> PTD_OFFSET v < 1023 -> pte_p (pde m D (PTD_OFFSET v)) = false ->
  new_table m m1 D (PTD_OFFSET v) (n * MM_PAGE_SIZE) rw pcd -> mapped m1 m2 D v f r u -> mapped m m2 D v f r u.
Proof.
  intros Hok Hv Hd Hp [N1 N2 N3 N4] [M1 M2 M3 M4]; pose proof (ptd_offset_range v Hv) as Hi.
  assert (Hpde : forall j, 0 <= j < 1024 -> j <> PTD_OFFSET v \/ pte_p (pde m D j) = true -> pde m2 D j = pde m D j).
  { intros j Hj Hor; assert (j <> PTD_OFFSET v) by (destruct Hor; congruence); rewrite M3 by auto; by apply N2. }
  assert (Hnew : pte_p (pde m1 D (PTD_OFFSET v)) = true) by (rewrite N1; apply create_bits).
  split; [done| |done|].
  - intros w Hw Hwd Hne; rewrite M2 by done; by apply N3.
  - intros x Hx Hdf; rewrite M4 by done; destruct Hdf as (_ & B2 & B3); pose proof (tb_dir _ _ _ Hok) as [HD _].
    assert (Hal : forall a, a mod 4096 = 0 -> MM_PAGE x = MM_PAGE a -> a = MM_PAGE x * MM_PAGE_SIZE).
    { intros a Ha ->; unfold MM_PAGE, MM_PAGE_SIZE; Z.div_mod_to_equations; lia. }
    apply N4.
    + intros E; apply B2; symmetry; by apply Hal.
    + intros E; apply (B3 (PTD_OFFSET v)); [lia|rewrite M3 by (lia || by right); done|].
      unfold table; rewrite M3, N1, create_page_base by (lia || by right).
      rewrite Z.div_mul by done; rewrite E, page_of_base; done.
    + intros H22 E; apply (B3 1022); [lia|rewrite Hpde by (lia || by right); done|].
      unfold table; rewrite Hpde by (lia || by right); apply Hal; [apply table_range, (tb_bytes _ _ _ Hok)|done].
Qed.

Lemma locks_upd ls p m t s : set_locks ls (upd p m t s) = upd p m t (set_locks ls s).
Proof. done. Qed.

(** The end of the function, from a state in which the page table exists. *)
Lemma map_finish s D phys_base v rw us pcd pd_id p m t t0 new :
  let s0 := set_tlb t0 (set_locks (pt_lock pd_id :: locks s) s) in
  0 <= v < 2 ^ 32 -> PTD_OFFSET v < 1023 -> 0 <= phys_base < 2 ^ 32 -> at_page v D s -> pt_lock pd_id ∉ locks s ->
  pte_p (pde (phys s) D (PTD_OFFSET v)) = true \/ ~ no_room s D ->
  space_ok (upd p m t s0) D -> pte_p (pde m D (PTD_OFFSET v)) = true -> used_after (pmem s) p new ->
  (if pte_p (pde (phys s) D (PTD_OFFSET v)) then new = None
   else exists n, new = Some n /\ page_free (pmem s) n /\ table m D (PTD_OFFSET v) = n * MM_PAGE_SIZE) ->
  (forall m', mapped m m' D v (phys_base / 4096 * 4096) (pte_rw (pde m D (PTD_OFFSET v)) && Z.odd rw)
      (pte_us (pde m D (PTD_OFFSET v)) && Z.odd us) ->
    mapped (phys s) m' D v (phys_base / 4096 * 4096) (dir_rw (phys s) D (PTD_OFFSET v) (Z.odd rw) && Z.odd rw)
      (dir_us (phys s) D (PTD_OFFSET v) && Z.odd us)) ->
  exists rc s', (pt ← mm_get_pt_address D (PTD_OFFSET v) (pg_enabled s);
    store_pte pt (PT_OFFSET v) (pte_create rw us pcd phys_base);;
    (if pg_enabled s =? 1 then invlpg v else mret tt);; spinlock_release (pt_lock pd_id);; mret 0) (upd p m t s0) = Ok (rc, s') /\
    space_ok s' D /\ map_result s D v phys_base rw us rc s'.
Proof.
  intros s0 Hv Hd Hb Ha Hl Hroom Hsu Hpu Hused Hnew Hmap.
  destruct (map_entry (upd p m t s0) D v phys_base rw us pcd Hsu Hv Hd Hpu Hb Ha) as (t1 & t2 & m' & E1 & E2 & (t3 & E3 & Hs3) & Hm).
  change (pg_enabled (upd p m t s0)) with (pg_enabled s) in E1, E3.
  rewrite (mm_bind_ok _ _ _ _ _ E1), (mm_bind_ok _ _ _ _ _ E2), (mm_bind_ok _ _ _ _ _ E3).
  erewrite mm_bind_ok by (by apply (unlock_ok _ (locks s))).
  exists 0, (upd p m' t3 s); split; [by destruct s|].
  split; [apply (space_locks _ (pt_lock pd_id :: locks s)); by destruct s|].
  apply (map_done _ _ _ _ _ _ _ _ _ new); auto.
  pose proof (ptd_offset_range v Hv); assert (table m' D (PTD_OFFSET v) = table m D (PTD_OFFSET v)) as ->; [|done].
  unfold table; rewrite (mp_pde _ _ _ _ _ _ _ Hm); auto.
Qed.

Lemma map_page_ok proc_ptd s D phys_base v rw us pcd pd_id :
  space_ok s D -> 0 <= v < 2 ^ 32 -> PTD_OFFSET v < 1023 -> 0 <= phys_base < 2 ^ 32 -> at_page v D s ->
  pt_lock pd_id ∉ locks s -> sp_lock (pid s) ∉ locks s ->
  pg_enabled s = 0 \/ Z.odd rw = true \/ pte_p (pde (phys s) D (PTD_OFFSET v)) = true ->
  exists rc s', mm_map_page proc_ptd D phys_base v rw us pcd pd_id s = Ok (rc, s') /\ space_ok s' D /\
    map_result s D v phys_base rw us rc s'.
Proof.
  intros Hs Hv Hd Hb Ha Hl1 Hl2 Hrw; pose proof (ptd_offset_range v Hv) as Hi; unfold mm_map_page.
  erewrite (mm_bind_ok _ _ s) by reflexivity; erewrite mm_bind_ok by (by apply lock_ok).
  set (ls := pt_lock pd_id :: locks s).
  destruct (load_pd (set_locks ls s) D (PTD_OFFSET v)) as (t0 & E0 & Hs0); [by apply space_locks|done|].
  rewrite (mm_bind_ok _ _ _ _ _ E0); clear E0; cbn [phys set_locks]; set (s0 := set_tlb t0 (set_locks ls s)) in *.
  destruct (pte_p (pde (phys s) D (PTD_OFFSET v))) eqn:Ep; cbn [negb].
  - erewrite mm_bind_ok by reflexivity; cbn [Z.eqb negb].
    replace s0 with (upd (pmem s) (phys s) t0 s0) by by destruct s.
    apply (map_finish s D phys_base v rw us pcd pd_id (pmem s) (phys s) t0 t0 None); try done; rewrite ?Ep; try done; [by left|].
    unfold dir_us, dir_rw; by rewrite Ep.
  - change (pg_enabled s) with (pg_enabled s0) at 1.
    destruct (add_page_table_ok proc_ptd s0 D v rw pcd Hs0 Hv Hd Ep) as (rc & s1 & E & Hs1 & Hr); [|by destruct Hrw as [|[|?]]; [left|right|]|].
    { cbn; intros [?|?]%elem_of_cons; done. }
    rewrite (mm_bind_ok _ _ _ _ _ E); destruct Hr as [p t Hno Hsame|p t m' n Hroom Hf Hbits Hnt].
    + cbn [Z.eqb negb ENOMEM]; erewrite mm_bind_ok by (by apply (unlock_ok _ (locks s))).
      exists ENOMEM, (upd p (phys s) t s); split; [by destruct s|]; split; [apply (space_locks _ ls); by destruct s|].
      by apply map_fail.
    + cbn [Z.eqb negb]; apply (map_finish s D phys_base v rw us pcd pd_id p m' t t0 (Some n)); try done; rewrite ?Ep.
      * by right.
      * rewrite (nt_new _ _ _ _ _ _ _ Hnt); apply create_bits.
      * intros q Hq; rewrite Hbits by done; cbn; destruct (Z.eqb_spec n q), (decide (Some n = Some q)); congruence.
      * exists n; split_and!; try done; unfold table; rewrite (nt_new _ _ _ _ _ _ _ Hnt), create_page_base.
        by rewrite Z.div_mul.
      * intros m2; rewrite (nt_new _ _ _ _ _ _ _ Hnt); unfold dir_us, dir_rw; rewrite Ep.
        destruct (create_bits rw MM_USER_PAGE pcd (n * MM_PAGE_SIZE)) as (_ & -> & ->); cbn [Z.odd MM_USER_PAGE].
        by apply (mapped_new _ _ _ (pmem s) _ _ n rw pcd); [apply Hs|..].
Qed.

(** ** Look-up *)

Definition lookup_ok (s : mm) (D v : Z) : Prop := space_ok s D /\ 0 <= v < 2 ^ 32.

Lemma walk_present m D v :
  pte_p (pde m D (PTD_OFFSET v)) = true ->
  walk m D v = let d := pde m D (PTD_OFFSET v) in let e := load32 m (table m D (PTD_OFFSET v) + 4 * PT_OFFSET v) in
    if pte_p e then Some (mk_xlat (pte_page_base e * MM_PAGE_SIZE) (pte_rw d && pte_rw e) (pte_us d && pte_us e)) else None.
Proof. intros Hp; unfold walk; by rewrite Hp. Qed.

Lemma walk_absent m D v : pte_p (pde m D (PTD_OFFSET v)) = false -> walk m D v = None.
Proof. intros Hp; unfold walk; by rewrite Hp. Qed.

(** An address that is mapped is below 4 GB in physical memory. *)
Lemma frame_range m D v x : (forall a, 0 <= m a < 2 ^ 8) -> walk m D v = Some x ->
  0 <= x_frame x < 2 ^ 32 /\ x_frame x mod 4096 = 0.
Proof.
  intros Hb; unfold walk; destruct (pte_p (pde m D _)); [|done]; destruct (pte_p (pte m D v)); [|done].
  intros [= <-]; cbn; unfold pte; set (a := _ + _); pose proof (load32_range m a Hb) as Hr; rewrite page_base_div.
  unfold MM_PAGE_SIZE; Z.div_mod_to_equations; lia.
Qed.

Section Lookup.
Context (proc_ptd : Z).

Lemma virt_to_phys_ok s D v :
  lookup_ok s D v -> pg_enabled s = 1 -> mm_get_ptd_for_pid proc_ptd (pid s) = D ->
  exists t, space_ok (set_tlb t s) D /\
    mm_virt_to_phys proc_ptd v s =
      Ok (match walk (phys s) D v with Some x => x_frame x + v mod MM_PAGE_SIZE | None => 0 end, set_tlb t s).
Proof.
  intros (Hs & Hv) H1 HD; pose proof (ptd_offset_range v Hv) as Hi; unfold mm_virt_to_phys.
  erewrite (mm_bind_ok _ _ s) by (unfold mm_get_ptd, gets; by rewrite HD).
  destruct (load_pd s D (PTD_OFFSET v) Hs Hi) as (t1 & E1 & Hs1); rewrite (mm_bind_ok _ _ _ _ _ E1).
  destruct (pte_p (pde (phys s) D (PTD_OFFSET v))) eqn:Ep; cbn [negb]; [|exists t1; split; [done|by rewrite walk_absent]].
  rewrite walk_present by done; cbv zeta.
  erewrite (mm_bind_ok _ _ (set_tlb t1 s)) by (apply (pt_address_paged (set_tlb t1 s) D), paged_mode; done).
  destruct (load_pt (set_tlb t1 s) D (PTD_OFFSET v) (PT_OFFSET v) Hs1) as (t2 & E2 & Hs2); [lia|done|apply pt_offset_range|].
  rewrite (mm_bind_ok _ _ _ _ _ E2); cbn [phys set_tlb].
  set (e := load32 (phys s) (table (phys s) D (PTD_OFFSET v) + 4 * PT_OFFSET v)) in *.
  destruct (pte_p e) eqn:Ee; cbn [negb]; [|exists t2; done].
  destruct (load_pt (set_tlb t2 s) D (PTD_OFFSET v) (PT_OFFSET v) Hs2) as (t3 & E3 & Hs3); [lia|done|apply pt_offset_range|].
  change (pt_addr (set_tlb t2 s) D (PTD_OFFSET v)) with (pt_addr (set_tlb t1 s) D (PTD_OFFSET v)) in E3.
  change (set_tlb t2 (set_tlb t1 s)) with (set_tlb t2 s); rewrite (mm_bind_ok _ _ _ _ _ E3); exists t3; split; [done|].
  cbn [phys set_tlb]; fold e; cbn [x_frame].
  assert (Hr : 0 <= e < 2 ^ 32) by (apply load32_range, (tb_bytes _ _ _ (sp_tables _ _ Hs))).
  unfold mret, mmM_ret; rewrite u32_small; [done|]; rewrite page_base_div; unfold MM_PAGE_SIZE.
  clearbody e; Z.div_mod_to_equations; lia.
Qed.

Lemma page_mapped_ok s D v :
  lookup_ok s D v -> mm_get_ptd_for_pid proc_ptd (pid s) = D ->
  exists t, space_ok (set_tlb t s) D /\
    mm_page_mapped proc_ptd v s = Ok (match walk (phys s) D v with Some _ => true | None => false end, set_tlb t s).
Proof.
  intros (Hs & Hv) HD; pose proof (ptd_offset_range v Hv) as Hi; unfold mm_page_mapped.
  erewrite (mm_bind_ok _ _ s) by (unfold mm_get_ptd, gets; by rewrite HD).
  destruct (load_pd s D (PTD_OFFSET v) Hs Hi) as (t1 & E1 & Hs1); rewrite (mm_bind_ok _ _ _ _ _ E1).
  destruct (pte_p (pde (phys s) D (PTD_OFFSET v))) eqn:Ep; cbn [negb]; [|exists t1; split; [done|by rewrite walk_absent]].
  rewrite walk_present by done; cbv zeta; erewrite mm_bind_ok by reflexivity.
  destruct (pt_address (set_tlb t1 s) D (PTD_OFFSET v) Hs1 Hi) as (t2 & E2 & Hs2); rewrite (mm_bind_ok _ _ _ _ _ E2).
  change (pt_addr (set_tlb t1 s) D (PTD_OFFSET v)) with (pt_addr (set_tlb t2 s) D (PTD_OFFSET v)).
  destruct (load_pt (set_tlb t2 s) D (PTD_OFFSET v) (PT_OFFSET v) Hs2) as (t3 & E3 & Hs3); [lia|done|apply pt_offset_range|].
  change (set_tlb t2 (set_tlb t1 s)) with (set_tlb t2 s); rewrite (mm_bind_ok _ _ _ _ _ E3); exists t3; split; [done|].
  cbn [phys set_tlb]; unfold mret, mmM_ret; by destruct (pte_p (load32 _ _)).
Qed.

(** ** [mm_unmap_page] *)

Definition in_ramdisk (s : mm) (v : Z) : bool :=
  (virt_ramdisk_start s <? virt_ramdisk_end s) && (virt_ramdisk_start s <=? v) && (v <=? virt_ramdisk_end s).

(** The physical page the entry of [v] names, whether it is present or not. *)
Definition entry_page (m : mem) (D v : Z) : Z := pte_page_base (pte m D v).

(** Clearing the present bit of the entry of [v]. *)
Record unmapped (m m' : mem) (D v : Z) : Prop := {
  um_walk : walk m' D v = None;
  um_other : forall w, 0 <= w < 2 ^ 32 -> PTD_OFFSET w < 1023 -> MM_PAGE w <> MM_PAGE v -> walk m' D w = walk m D w;
  um_pde : forall j, 0 <= j < 1024 -> pde m' D j = pde m D j;
  um_frame : forall x, 0 <= x -> data_frame m D (MM_PAGE x * MM_PAGE_SIZE) -> m' x = m x
}.

Lemma clear_entry s D v :
  space_ok s D -> 0 <= v < 2 ^ 32 -> PTD_OFFSET v < 1023 -> pte_p (pde (phys s) D (PTD_OFFSET v)) = true -> at_page v D s ->
  exists t1 t2 t3 t4 t5 m', let pt := pt_addr s D (PTD_OFFSET v) in
    mm_get_pt_address D (PTD_OFFSET v) (pg_enabled s) s = Ok (pt, set_tlb t1 s) /\
    load_pte pt (PT_OFFSET v) (set_tlb t1 s) = Ok (pte (phys s) D v, set_tlb t2 s) /\
    store_pte pt (PT_OFFSET v) (pte_clear_p (pte (phys s) D v)) (set_tlb t2 s) = Ok (tt, set_phys m' (set_tlb t3 s)) /\
    (if pg_enabled s =? 1 then invlpg v else mret tt) (set_phys m' (set_tlb t3 s)) = Ok (tt, set_phys m' (set_tlb t4 s)) /\
    load_pte pt (PT_OFFSET v) (set_phys m' (set_tlb t4 s)) = Ok (pte_clear_p (pte (phys s) D v), set_phys m' (set_tlb t5 s)) /\
    space_ok (set_phys m' (set_tlb t5 s)) D /\ unmapped (phys s) m' D v.
Proof.
  intros Hs Hv Hd Ep Ha; pose proof (ptd_offset_range v Hv) as Hi; pose proof (pt_offset_range v) as Hk.
  pose proof (sp_tables _ _ Hs) as Hok; set (e := pte_clear_p (pte (phys s) D v)).
  assert (He : 0 <= e < 2 ^ 32) by (apply clear_range, load32_range, (tb_bytes _ _ _ Hok)).
  destruct (pt_address s D (PTD_OFFSET v) Hs Hi) as (t1 & E1 & Hs1).
  destruct (load_pt (set_tlb t1 s) D (PTD_OFFSET v) (PT_OFFSET v) Hs1) as (t2 & E2 & Hs2); [lia|done|done|].
  destruct (write_pte (set_tlb t2 s) D v e Hs2 Hv Hd Ep He Ha) as (t3 & E3 & Hoff & Hon); cbn [phys set_tlb] in *.
  set (m' := store32 (phys s) (table (phys s) D (PTD_OFFSET v) + 4 * PT_OFFSET v) e) in *.
  assert (Hpd := fun j => pt_pde (phys s) (pmem s) D (PTD_OFFSET v) (PT_OFFSET v) e Hok ltac:(lia) Ep Hk j); fold m' in Hpd.
  assert (H4 : exists t4, (if pg_enabled s =? 1 then invlpg v else mret tt) (set_phys m' (set_tlb t3 s)) =
    Ok (tt, set_phys m' (set_tlb t4 s)) /\ space_ok (set_phys m' (set_tlb t4 s)) D).
  { destruct (Z.eqb_spec (pg_enabled s) 1) as [H1|H1]; eexists; (split; [reflexivity|]); [exact Hon|].
    apply Hoff; destruct (sp_mode _ _ Hs) as [?|Hpg]; [done|destruct H1; apply Hpg]. }
  destruct H4 as (t4 & E4 & Hs4).
  destruct (load_pt (set_phys m' (set_tlb t4 s)) D (PTD_OFFSET v) (PT_OFFSET v) Hs4) as (t5 & E5 & Hs5);
    [lia|cbn; by rewrite Hpd|done|]; cbn [phys set_phys set_tlb] in E5.
  assert (Eload : load32 m' (table m' D (PTD_OFFSET v) + 4 * PT_OFFSET v) = e).
  { unfold m'; rewrite (pt_entry _ (pmem s)) by (done || lia); by rewrite !Z.eqb_refl. }
  assert (Eaddr : pt_addr (set_phys m' (set_tlb t4 s)) D (PTD_OFFSET v) = pt_addr s D (PTD_OFFSET v)).
  { unfold pt_addr, table; cbn; by rewrite Hpd. }
  rewrite Eload, Eaddr in E5; exists t1, t2, t3, t4, t5, m'; split_and!; [exact E1|exact E2|exact E3|exact E4|exact E5|exact Hs5|].
  split.
  - unfold m'; rewrite (pt_walk _ (pmem s)) by (done || lia); rewrite !Z.eqb_refl; cbn; unfold e; by rewrite clear_not_present.
  - intros w Hw Hwd Hne; unfold m'; rewrite (pt_walk _ (pmem s)) by (done || lia).
    destruct (Z.eqb_spec (PTD_OFFSET w) (PTD_OFFSET v)); [|done].
    destruct (Z.eqb_spec (PT_OFFSET w) (PT_OFFSET v)); [|done]; destruct Hne; by apply offsets_page.
  - exact Hpd.
  - intros x Hx (_ & _ & Hdf); apply store32_other; intros Hin.
    assert (Htr := table_range (phys s) D (PTD_OFFSET v) (tb_bytes _ _ _ Hok)).
    apply page_of_word in Hin; [|apply Htr|done]; apply (Hdf (PTD_OFFSET v)); [lia|done|].
    rewrite Hin; destruct Htr as [_ Htr]; unfold MM_PAGE, MM_PAGE_SIZE; Z.div_mod_to_equations; lia.
Qed.

Lemma unmap_ok s D v pd_id :
  lookup_ok s D v -> PTD_OFFSET v < 1023 -> at_page v D s -> pt_lock pd_id ∉ locks s -> in_ramdisk s v = false ->
  (pte_p (pde (phys s) D (PTD_OFFSET v)) = true -> let n := entry_page (phys s) D v in
     0 < n < PHYS_LIMIT /\ data_frame (phys s) D (n * MM_PAGE_SIZE)) ->
  exists p t m', mm_unmap_page D v pd_id s = Ok (0, upd p m' t s) /\ space_ok (upd p m' t s) D /\
    unmapped (phys s) m' D v /\
    (forall q, 0 <= q -> bit p q =
      if pte_p (pde (phys s) D (PTD_OFFSET v)) && (entry_page (phys s) D v =? q) then 0 else bit (pmem s) q).
Proof.
  intros (Hs & Hv) Hd Ha Hl Hrd Hn; pose proof (ptd_offset_range v Hv) as Hi; unfold mm_unmap_page.
  do 3 erewrite (mm_bind_ok _ _ s) by reflexivity; fold (in_ramdisk s v); rewrite Hrd.
  erewrite mm_bind_ok by (by apply lock_ok); set (ls := pt_lock pd_id :: locks s).
  destruct (load_pd (set_locks ls s) D (PTD_OFFSET v)) as (t0 & E0 & Hs0); [by apply space_locks|done|].
  rewrite (mm_bind_ok _ _ _ _ _ E0); clear E0; cbn [phys set_locks].
  pose proof (sp_tables _ _ Hs) as Hok.
  destruct (pte_p (pde (phys s) D (PTD_OFFSET v))) eqn:Ep.
  2:{ erewrite mm_bind_ok by reflexivity; erewrite mm_bind_ok by (by apply (unlock_ok _ (locks s))).
      exists (pmem s), t0, (phys s); split_and!; [by destruct s|apply (space_locks _ ls); by destruct s| |done].
      split; try done; by apply walk_absent. }
  set (s0 := set_tlb t0 (set_locks ls s)) in *; destruct (Hn eq_refl) as [Hn1 Hn2].
  destruct (clear_entry s0 D v Hs0 Hv Hd Ep Ha) as (t1 & t2 & t3 & t4 & t5 & m' & E1 & E2 & E3 & E4 & E5 & Hs5 & [U1 U2 U3 U4]).
  destruct (put_page_step (set_phys m' (set_tlb t5 s0)) D (entry_page (phys s) D v) Hs5) as (p & E6 & Hs6 & Hbits);
    [by apply (data_frame_ext (phys s))|done|].
  change (pg_enabled s0) with (pg_enabled s) in E1, E4.
  erewrite mm_bind_ok.
  2:{ rewrite (mm_bind_ok _ _ _ _ _ E1), (mm_bind_ok _ _ _ _ _ E2), (mm_bind_ok _ _ _ _ _ E3), (mm_bind_ok _ _ _ _ _ E4).
      rewrite (mm_bind_ok _ _ _ _ _ E5), clear_page_base; fold (entry_page (phys s) D v).
      pose proof (free_range _ Hn1) as Hfr; rewrite u32_small; [exact E6|].
      split; [apply Z.lt_le_incl|]; apply Hfr. }
  erewrite mm_bind_ok by (by apply (unlock_ok _ (locks s))).
  exists p, t5, m'; split_and!; [by destruct s|apply (space_locks _ ls); by destruct s|by split|exact Hbits].
Qed.
End Lookup.
