(* ===== verification/Mm.v ===== *)
(** * Address spaces ([kernel/mm.c])

    Checks of user buffers, the user area and its break, memory mapped I/O and
    page faults.  A loop over pages gets the number of its rounds, or fuel that
    exceeds the number of pages there are. *)

From S2P Require Import Prelude Errors Memory MmDefs Lists PhysMem Paging.
Import Lists.

Section Mm.
Context (proc_ptd : Z).

(** ** User buffers *)

(** The inner loop for a string: [inl] the next page boundary, [inr] the result. *)
Fixpoint scan_string (fuel : nat) (current : Z) : mmM (Z + Z) :=
  match fuel with
  | O => hang
  | S fuel =>
      c ← vload8 current;
      if c =? 0 then mret (inr 0)
      else
        let current := u32 (current + 1) in
        if current =? 0 then mret (inr (-1))
        else if current mod MM_PAGE_SIZE =? 0 then mret (inl current)
        else scan_string fuel current
  end.

(** The outer loop over the pages; for a string [current] walks along. *)
Fixpoint validate_pages (fuel : nat) (buffer len read_write current page_base : Z) : mmM Z :=
  match fuel with
  | O => hang
  | S fuel =>
      if (len =? 0) || (page_base <? u32 (buffer + len)) then
        mapped ← mm_page_mapped proc_ptd page_base;
        if negb mapped then mret (-1)
        else
          ptd ← mm_get_ptd proc_ptd;
          allowed ← access_allowed page_base ptd 0 read_write;
          if negb allowed then mret (-1)
          else if negb (len =? 0) then validate_pages fuel buffer len read_write current (u32 (page_base + MM_PAGE_SIZE))
          else
            next ← scan_string (Z.to_nat MM_PAGE_SIZE) current;
            match next with
            | inl current => validate_pages fuel buffer len read_write current current
            | inr rc => mret rc
            end
      else mret 0
  end.

(** There are 2^20 pages. *)
Definition validate_fuel : nat := Z.to_nat (2 ^ 20 + 1).

Definition mm_validate_buffer (buffer len read_write : Z) : mmM Z :=
  if buffer =? 0 then mret 0
  else if u32 (buffer + len) <? buffer then mret (-1)
  else validate_pages validate_fuel buffer len read_write buffer (MM_PAGE_START (MM_PAGE buffer)).

(** ** The user area *)

(** [for (page = region_base; page < region_end + 1; page++)]: the loop visits every byte. *)
Fixpoint add_pages (fuel : nat) (page region_end : Z) : mmM Z :=
  match fuel with
  | O => hang
  | S fuel =>
      if page <? u32 (region_end + 1) then
        mapped ← mm_page_mapped proc_ptd page;
        if negb mapped then
          phys_page ← get_phys_page;
          if phys_page =? 0 then mret ENOMEM
          else
            ptd ← mm_get_ptd proc_ptd;
            me ← gets pid;
            rc ← mm_map_page proc_ptd ptd phys_page page MM_READ_WRITE MM_USER_PAGE 0 me;
            if negb (rc =? 0) then mret ENOMEM
            else add_pages fuel (u32 (page + 1)) region_end
        else add_pages fuel (u32 (page + 1)) region_end
      else mret 0
  end.

Definition add_user_space_pages (region_base region_end : Z) : mmM Z :=
  if negb (region_base mod MM_PAGE_SIZE =? 0) || negb (u32 (region_end + 1) mod MM_PAGE_SIZE =? 0) then mret EINVAL
  else if MM_PAGE MM_VIRTUAL_TOS_USER - MM_STACK_PAGES <=? MM_PAGE (u32 (region_end + 1)) then mret EINVAL
  else add_pages (S (Z.to_nat (u32 (region_end + 1) - region_base))) region_base region_end.

Definition set_brk (p b : Z) (s : mm) : mm :=
  let a := address_space s p in
  set_address_space (<[p := mk_as (as_id a) (as_valid a) b (end_data a) (as_list a)]> (address_space s)) s.
Definition set_end_data (p e : Z) (s : mm) : mm :=
  let a := address_space s p in
  set_address_space (<[p := mk_as (as_id a) (as_valid a) (brk a) e (as_list a)]> (address_space s)) s.

Definition mm_map_user_segment (region_base region_end : Z) : mmM Z :=
  me ← gets pid;
  if region_base <? MM_START_CODE then mret 0
  else
    rc ← add_user_space_pages region_base region_end;
    if negb (rc =? 0) then mret 0
    else
      spinlock_get (as_lock me);;
      e ← gets (fun s => end_data (address_space s me));
      (if e <? region_end then modify (set_end_data me region_end);; modify (set_brk me (u32 (region_end + 1))) else mret tt);;
      spinlock_release (as_lock me);;
      mret region_base.

(** The new break for an old one and a request, rounded up to a page. *)
Definition next_brk (old_brk size : Z) : Z :=
  let new_brk := u32 (old_brk + size) in
  if negb (new_brk mod MM_PAGE_SIZE =? 0) then u32 (new_brk / MM_PAGE_SIZE * MM_PAGE_SIZE + MM_PAGE_SIZE) else new_brk.

Definition do_sbrk (size : Z) : mmM Z :=
  me ← gets pid;
  spinlock_get (as_lock me);;
  if size =? 0 then spinlock_release (as_lock me);; gets (fun s => brk (address_space s me))
  else
    old_brk ← gets (fun s => brk (address_space s me));
    rc ← add_user_space_pages old_brk (u32 (next_brk old_brk size - 1));
    if negb (rc =? 0) then mret 0
    else
      modify (set_brk me (next_brk old_brk size));;
      spinlock_release (as_lock me);;
      mret (next_brk old_brk size).

(** The loop over the pages of the user stack; [false] if the memory is exhausted. *)
Fixpoint init_stack (n : nat) (page : Z) : mmM bool :=
  match n with
  | O => mret true
  | S n =>
      mapped ← mm_page_mapped proc_ptd (MM_PAGE_START page);
      if negb mapped then
        phys_page ← get_phys_page;
        if phys_page =? 0 then mret false
        else
          ptd ← mm_get_ptd proc_ptd;
          me ← gets pid;
          mm_map_page proc_ptd ptd phys_page (MM_PAGE_START page) MM_READ_WRITE MM_USER_PAGE 0 me;;
          init_stack n (page + 1)
      else init_stack n (page + 1)
  end.

Definition mm_init_user_area : mmM Z :=
  me ← gets pid;
  ok ← init_stack (Z.to_nat MM_STACK_PAGES_TASK_USER) (MM_PAGE MM_VIRTUAL_TOS_USER - MM_STACK_PAGES_TASK_USER + 1);
  if negb ok then mret 0
  else
    spinlock_get (as_lock me);;
    modify (set_end_data me (MM_START_CODE - 1));;
    modify (set_brk me MM_START_CODE);;
    spinlock_release (as_lock me);;
    mret (MM_VIRTUAL_TOS_USER / 4 * 4).

Fixpoint teardown (n : nat) (ptd page : Z) : mmM unit :=
  match n with
  | O => mret tt
  | S n =>
      mapped ← mm_page_mapped proc_ptd page;
      me ← gets pid;
      (if (mapped : bool) then mm_unmap_page ptd page me;; mret tt else mret tt);;
      teardown n ptd (page + MM_PAGE_SIZE)
  end.

(** The pages from the end of the common area to the top of the user stack. *)
Definition mm_teardown_user_area : mmM unit :=
  ptd ← mm_get_ptd proc_ptd;
  KASSERT (negb (ptd =? 0));;
  teardown (Z.to_nat ((MM_VIRTUAL_TOS_USER - MM_COMMON_AREA_SIZE + MM_PAGE_SIZE - 1) / MM_PAGE_SIZE)) ptd MM_COMMON_AREA_SIZE.

(** ** Memory mapped I/O *)

(** The search for [pages] unmapped pages: the final values of [walk] and [base]. *)
Fixpoint find_memio (n : nat) (pages virtual walk base : Z) : mmM (Z * Z) :=
  match n with
  | O => mret (walk, base)
  | S n =>
      mapped ← mm_page_mapped proc_ptd virtual;
      let walk := if (mapped : bool) then 0 else walk + 1 in
      let base := if mapped then 0 else if base =? 0 then virtual else base in
      if pages <=? walk then mret (walk, base) else find_memio n pages (virtual + MM_PAGE_SIZE) walk base
  end.

(** [while (page-base < pages*MM_PAGE_SIZE)]; [false] if a page cannot be mapped. *)
Fixpoint map_memio (n : nat) (phys_base page base : Z) : mmM bool :=
  match n with
  | O => mret true
  | S n =>
      ptd ← mm_get_ptd proc_ptd;
      me ← gets pid;
      rc ← mm_map_page proc_ptd ptd (u32 (phys_base + (page - base))) page MM_READ_WRITE MM_SUPERVISOR_PAGE 0 me;
      if negb (rc =? 0) then mret false else map_memio n phys_base (page + MM_PAGE_SIZE) base
  end.

Definition mm_map_memio (phys_base size : Z) : mmM Z :=
  let pages := size / MM_PAGE_SIZE + 1 in
  '(walk, base) ← find_memio (Z.to_nat MM_PT_ENTRIES) pages MM_MEMIO_START 0 0;
  if walk <? pages then mret ENOMEM
  else
    ok ← map_memio (Z.to_nat pages) phys_base base base;
    mret (if negb ok then 0 else base).

(** ** Page faults *)

Record fault_context := { cr2 : Z; err_code : Z; ctx_cr3 : Z }.

Definition do_kill (p sig : Z) : mmM unit := modify (fun s => set_signals (signals s ++ [(p, sig)]) s).

Definition mm_handle_page_fault (c : fault_context) : mmM Z :=
  let address := cr2 c in
  let write_error := Z.shiftr (Z.land (err_code c) 2) 1 in
  let supervisor_mode := if negb (Z.land (err_code c) 4 =? 0) then 0 else 1 in
  let reserved_bits := Z.shiftr (Z.land (err_code c) 8) 3 in
  let instruction_fetch := Z.shiftr (Z.land (err_code c) 16) 4 in
  if negb (reserved_bits =? 0) then mret 1
  else if negb (instruction_fetch =? 0) then
    me ← gets pid;
    do_kill me KSIGSEGV;; mret 0
  else
    mapped ← mm_page_mapped proc_ptd address;
    if negb mapped then
      if negb (supervisor_mode =? 0) then panic else mret 0
    else
      allowed ← access_allowed address (ctx_cr3 c) supervisor_mode write_error;
      if (allowed : bool) then invlpg address;; mret 0 else mret 1.
End Mm.
