(* ===== verification/MmStack.v ===== *)
(** * Kernel stacks and cloning ([kernel/mm.c])

    The kernel stack area of a process is divided between its tasks by stack
    allocators, kept in a list sorted by address.  The second part of the file is
    the copy of an address space for [fork] and its removal, and the set-up of the
    first page tables. *)

From S2P Require Import Prelude Errors Memory MmDefs Lists PhysMem Paging Mm.
Import Lists.

Definition set_as_list (p : Z) (q : anchor Z) (s : mm) : mm :=
  let a := address_space s p in
  set_address_space (<[p := mk_as (as_id a) (as_valid a) (brk a) (end_data a) q]> (address_space s)) s.
Definition set_list (p : Z) (r : links Z * anchor Z) (s : mm) : mm := set_as_list p (snd r) (set_sa_links (fst r) s).
Definition set_sa (t : Z) (a : stack_allocator_t) (s : mm) : mm :=
  set_stack_allocator (<[t := a]> (stack_allocator s)) s.

(** ** Stack allocators *)

(** The loop of [mm_add_stack_allocator]. *)
Fixpoint add_sorted (fuel : nat) (me task_id : Z) (current : option Z) : mmM unit :=
  match current with
  | None => mret tt
  | Some c =>
      match fuel with
      | O => hang
      | S fuel =>
          s ← gets id;
          match next (sa_links s c) with
          | None => modify (set_list me (LIST_ADD_END (sa_links s) (as_list (address_space s me)) task_id))
          | Some n =>
              if (highest_page (stack_allocator s c) <? lowest_page (stack_allocator s task_id)) &&
                 (highest_page (stack_allocator s task_id) <? lowest_page (stack_allocator s n))
              then modify (set_sa_links (LIST_ADD_AFTER (sa_links s) c task_id))
              else add_sorted fuel me task_id (Some n)
          end
      end
  end.

Definition mm_add_stack_allocator (task_id : Z) : mmM unit :=
  s ← gets id;
  let me := pid s in
  let q := as_list (address_space s me) in
  match head q, tail q with
  | Some h, Some _ =>
      if highest_page (stack_allocator s task_id) <? lowest_page (stack_allocator s h)
      then modify (set_list me (LIST_ADD_FRONT (sa_links s) q task_id))
      else add_sorted (Z.to_nat PM_MAX_TASK) me task_id (Some h)
  | _, _ => panic
  end.

(** The walk through the list for an allocator behind which there is enough room:
    the new top page, or 0. *)
Fixpoint find_gap (fuel : nat) (sa : option Z) : mmM Z :=
  match sa with
  | None => mret 0
  | Some c =>
      match fuel with
      | O => hang
      | S fuel =>
          s ← gets id;
          let limit := match next (sa_links s c) with
                       | Some n => lowest_page (stack_allocator s n)
                       | None => MM_VIRTUAL_TOS + 1
                       end in
          let h := highest_page (stack_allocator s c) in
          if MM_STACK_PAGES_TASK + 2 * MM_STACK_PAGES_GAP <=? u32 (u32 (limit - h) / MM_PAGE_SIZE - 1)
          then mret (u32 (h + MM_PAGE_SIZE * (MM_STACK_PAGES_GAP + MM_STACK_PAGES_TASK)))
          else find_gap fuel (next (sa_links s c))
      end
  end.

Definition mm_find_free_stack (kernel_stack_base_page kernel_stack_top_page task_id : Z) : mmM Z :=
  me ← gets pid;
  spinlock_get (st_lock me);;
  q ← gets (fun s => as_list (address_space s me));
  match head q with
  | None => panic
  | Some sa =>
      low ← gets (fun s => lowest_page (stack_allocator s sa));
      let new_top_page := u32 (kernel_stack_base_page + (MM_STACK_PAGES_GAP + MM_STACK_PAGES_TASK - 1) * MM_PAGE_SIZE) in
      let new_top_page := if low <=? u32 (new_top_page + MM_STACK_PAGES_GAP * MM_PAGE_SIZE) then 0 else new_top_page in
      new_top_page ← (if new_top_page =? 0 then find_gap (Z.to_nat PM_MAX_TASK) (head q) else mret new_top_page);
      if new_top_page =? 0 then spinlock_release (st_lock me);; mret 0
      else
        modify (set_sa task_id (mk_sa task_id 1 (u32 (new_top_page - (MM_STACK_PAGES_TASK - 1) * MM_PAGE_SIZE)) new_top_page me));;
        mm_add_stack_allocator task_id;;
        spinlock_release (st_lock me);;
        mret new_top_page
  end.

Section Stack.
Context (proc_ptd : Z).

(** The loop over the pages of the new stack, from the top; [false] if the memory is exhausted. *)
Fixpoint map_stack (n : nat) (page : Z) : mmM bool :=
  match n with
  | O => mret true
  | S n =>
      mapped ← mm_page_mapped proc_ptd page;
      if negb mapped then
        stack_page_p ← get_phys_page;
        if stack_page_p =? 0 then mret false
        else
          ptd ← mm_get_ptd proc_ptd;
          me ← gets pid;
          mm_map_page proc_ptd ptd stack_page_p page MM_READ_WRITE MM_SUPERVISOR_PAGE 0 me;;
          map_stack n (u32 (page - MM_PAGE_SIZE))
      else map_stack n (u32 (page - MM_PAGE_SIZE))
  end.

(** The number of pages is returned in [*pages]. *)
Definition mm_reserve_task_stack (task_id : Z) : mmM (Z * option Z) :=
  let kernel_stack_top_page := MM_PAGE_START (MM_PAGE MM_VIRTUAL_TOS) in
  let kernel_stack_base_page := u32 (kernel_stack_top_page - (MM_STACK_PAGES - 1) * MM_PAGE_SIZE) in
  new_top_page ← mm_find_free_stack kernel_stack_base_page kernel_stack_top_page task_id;
  if new_top_page =? 0 then mret (0, None)
  else
    ok ← map_stack (Z.to_nat MM_STACK_PAGES_TASK) new_top_page;
    if negb ok then mret (0, None)
    else mret (u32 (new_top_page + MM_PAGE_SIZE - 1), Some MM_STACK_PAGES_TASK).

(** [for (page = lowest_page; page <= highest_page; page += 4096)] *)
Fixpoint unmap_stack (fuel : nat) (task_id ptd page pid : Z) : mmM unit :=
  match fuel with
  | O => hang
  | S fuel =>
      top ← gets (fun s => highest_page (stack_allocator s task_id));
      if page <=? top then mm_unmap_page ptd page pid;; unmap_stack fuel task_id ptd (u32 (page + 4096)) pid
      else mret tt
  end.

Definition mm_release_task_stack (task_id pid : Z) : mmM Z :=
  if PM_MAX_TASK <=? task_id then mret EINVAL
  else
    sa ← gets (fun s => stack_allocator s task_id);
    if sa_valid sa =? 0 then mret EINVAL
    else
      spinlock_get (st_lock pid);;
      s ← gets id;
      match LIST_REMOVE (sa_links s) (as_list (address_space s pid)) task_id with
      | None => fun _ => Fault
      | Some r =>
          modify (set_list pid r);;
          unmap_stack (Z.to_nat (2 ^ 20 + 1)) task_id (mm_get_ptd_for_pid proc_ptd pid) (lowest_page sa) pid;;
          modify (fun s => let a := stack_allocator s task_id in
                    set_sa task_id (mk_sa (sa_id a) 0 (lowest_page a) (highest_page a) (sa_pid a)) s);;
          spinlock_release (st_lock pid);;
          mret 0
      end.

Definition mm_get_kernel_stack (task_id : Z) (s : mm) : Z :=
  if PM_MAX_TASK <=? task_id then 0
  else if sa_valid (stack_allocator s task_id) =? 0 then 0
  else u32 (highest_page (stack_allocator s task_id) + MM_PAGE_SIZE - 4).

(** The loop over the allocators of one address space: [false] if one of them is not valid. *)
Fixpoint validate_list (s : mm) (l : list Z) (last : Z) : bool :=
  match l with
  | [] => true
  | c :: l =>
      let a := stack_allocator s c in
      negb (sa_valid a =? 0) && (highest_page a =? u32 (lowest_page a + MM_PAGE_SIZE * (MM_STACK_PAGES_TASK - 1))) &&
      (last <? lowest_page a) && (MM_STACK_PAGES_GAP + 1 <=? u32 (lowest_page a - last)) && validate_list s l (highest_page a)
  end.

(** [mm_validate_address_spaces], for the address spaces from [i] on. *)
Fixpoint validate_spaces (n : nat) (i : Z) (s : mm) : res Z :=
  match n with
  | O => Ok 0
  | S n =>
      let a := address_space s i in
      if as_valid a =? 0 then validate_spaces n (i + 1) s
      else match head (as_list a), tail (as_list a) with
           | Some _, Some _ =>
               match LIST_FOREACH (Z.to_nat PM_MAX_TASK) (sa_links s) (head (as_list a)) with
               | None => Hang
               | Some l => if validate_list s l 0 then validate_spaces n (i + 1) s else Ok 1
               end
           | _, _ => Ok 1
           end
  end.
Definition mm_validate_address_spaces : mm -> res Z := validate_spaces (Z.to_nat PM_MAX_PROCESS) 0.

(** ** Clone *)

Definition mm_copy_page (virtual_page_base physical_page_base : Z) : mmM Z :=
  target ← mm_attach_page proc_ptd physical_page_base;
  if target =? 0 then mret ENOMEM
  else
    vmemcpy (Z.to_nat MM_PAGE_SIZE) target virtual_page_base;;
    mm_detach_page proc_ptd target;;
    mret 0.

Definition b2z (b : bool) : Z := if b then 1 else 0.

(** Which entries are cloned: those of pages below the top of the kernel stack and, within
    the kernel stack area, only those of the stack of the current task. *)
Definition do_clone (s : mm) (page_base : Z) : bool :=
  let sa := stack_allocator s (task_id s) in
  negb ((MM_VIRTUAL_TOS_USER <? page_base) && negb ((lowest_page sa <=? page_base) && (page_base <=? highest_page sa))).

Fixpoint clone_entries (n : nat) (source_pt target_pt pt_base page : Z) : mmM Z :=
  match n with
  | O => mret 0
  | S n =>
      let page_base := u32 (pt_base + MM_PAGE_SIZE * page) in
      e ← load_pte source_pt page;
      clone ← gets (fun s => do_clone s page_base);
      if pte_p e && (page_base <? MM_VIRTUAL_TOS) && clone then
        phys_page ← get_phys_page;
        if phys_page =? 0 then mret ENOMEM
        else
          store_pte target_pt page (pte_create (b2z (pte_rw e)) (b2z (pte_us e)) (b2z (pte_pcd e)) phys_page);;
          rc ← mm_copy_page page_base phys_page;
          if negb (rc =? 0) then mret rc else clone_entries n source_pt target_pt pt_base (page + 1)
      else clone_entries n source_pt target_pt pt_base (page + 1)
  end.

Definition mm_clone_pt (source_pt target_pt pt_base : Z) : mmM Z :=
  clone_entries (Z.to_nat MM_PT_ENTRIES) source_pt target_pt pt_base 0.

(** The loop over the page tables above the common area. *)
Fixpoint clone_tables (n : nat) (source_ptd target_ptd ptd_offset : Z) : mmM Z :=
  match n with
  | O => mret 0
  | S n =>
      d ← (if MM_AREA_START ptd_offset <=? MM_VIRTUAL_TOS then load_pte source_ptd ptd_offset else mret 0);
      if (MM_AREA_START ptd_offset <=? MM_VIRTUAL_TOS) && pte_p d then
        target_pt_phys ← get_phys_page;
        if target_pt_phys =? 0 then panic
        else
          target_pt ← mm_attach_page proc_ptd target_pt_phys;
          if target_pt =? 0 then mret ENOMEM
          else
            vmemset (Z.to_nat (MM_PT_ENTRIES * 4)) target_pt 0;;
            d ← load_pte source_ptd ptd_offset;
            store_pte target_ptd ptd_offset (pte_create (b2z (pte_rw d)) (b2z (pte_us d)) (b2z (pte_pcd d)) target_pt_phys);;
            source_pt ← mm_get_pt_address source_ptd ptd_offset 1;
            mm_clone_pt source_pt target_pt (MM_AREA_START ptd_offset);;
            mm_detach_page proc_ptd target_pt;;
            clone_tables n source_ptd target_ptd (ptd_offset + 1)
      else clone_tables n source_ptd target_ptd (ptd_offset + 1)
  end.

Definition mm_clone_ptd (source_ptd target_ptd phys_target_ptd : Z) : mmM Z :=
  pg ← gets pg_enabled;
  KASSERT (pg =? 1);;
  vmemcpy (Z.to_nat (4 * MM_SHARED_PAGE_TABLES)) target_ptd source_ptd;;
  KASSERT (MM_VIRTUAL_TOS_USER + 1 =? MM_PAGE_START (MM_PAGE MM_VIRTUAL_TOS - MM_STACK_PAGES + 1));;
  rc ← clone_tables (Z.to_nat (MM_PT_ENTRIES - MM_SHARED_PAGE_TABLES)) source_ptd target_ptd MM_SHARED_PAGE_TABLES;
  if negb (rc =? 0) then mret rc
  else
    store_pte target_ptd (MM_PT_ENTRIES - 1) (pte_create 1 0 0 phys_target_ptd);;
    mret 0.

Definition mm_clone_address_space (task_id new_task_id new_pid : Z) : mmM unit :=
  spinlock_get address_spaces_lock;;
  modify (fun s =>
    let a := stack_allocator s task_id in
    let s := set_sa_links (set_prev (set_next (sa_links s) new_task_id None) new_task_id None) s in
    set_sa new_task_id (mk_sa new_task_id 1 (lowest_page a) (highest_page a) new_pid) s);;
  modify (fun s =>
    let a := address_space s (pid s) in
    set_address_space (<[new_pid := mk_as new_pid 1 (brk a) (end_data a) (mk_anchor (Some new_task_id) (Some new_task_id))]>
      (address_space s)) s);;
  spinlock_release address_spaces_lock.

Definition mm_clone (new_pid new_task_id : Z) : mmM Z :=
  let new_ptd := mm_get_ptd_for_pid proc_ptd new_pid in
  vmemset (Z.to_nat (4 * MM_PT_ENTRIES)) new_ptd 0;;
  ptd ← mm_get_ptd proc_ptd;
  rc ← mm_clone_ptd ptd new_ptd new_ptd;
  if negb (rc =? 0) then mret 0
  else
    me ← gets task_id;
    mm_clone_address_space me new_task_id new_pid;;
    mret new_ptd.

(** ** Removal of the page tables *)

Fixpoint release_tables (n : nat) (ptd i : Z) : mmM unit :=
  match n with
  | O => mret tt
  | S n =>
      e ← load_pte ptd i;
      (if pte_p e then
         (if negb (i =? MM_PT_ENTRIES - 1) then put_phys_page (u32 (pte_page_base e * MM_PAGE_SIZE)) else mret tt);;
         store_pte ptd i (pte_clear_p e)
       else mret tt);;
      release_tables n ptd (i + 1)
  end.

Definition mm_release_page_tables (pid : Z) : mmM unit :=
  let ptd := mm_get_ptd_for_pid proc_ptd pid in
  KASSERT (negb (ptd =? 0));;
  release_tables (Z.to_nat (MM_PT_ENTRIES - MM_SHARED_PAGE_TABLES)) ptd MM_SHARED_PAGE_TABLES.

(** ** The first process *)

Fixpoint init_shared (n : nat) (ptd_root i : Z) : mmM unit :=
  match n with
  | O => mret tt
  | S n =>
      pt ← get_phys_page;
      if pt =? 0 then panic
      else
        vmemset (Z.to_nat (4 * MM_PT_ENTRIES)) pt 0;;
        store_pte ptd_root i (pte_create 1 0 0 pt);;
        init_shared n ptd_root (i + 1)
  end.

(** [n] pages from [page] on, one to one. *)
Fixpoint map_identity (n : nat) (ptd_root page : Z) : mmM unit :=
  match n with
  | O => mret tt
  | S n =>
      mm_map_page proc_ptd ptd_root (MM_PAGE_START page) (MM_PAGE_START page) MM_READ_WRITE MM_SUPERVISOR_PAGE 0 0;;
      map_identity n ptd_root (page + 1)
  end.

(** The pages of the RAM disk, which does not reach the end of the physical address space; each
    step sets [virt_ramdisk_end]. *)
Fixpoint map_ramdisk (n : nat) (ptd_root page : Z) : mmM unit :=
  match n with
  | O => mret tt
  | S n =>
      lo ← gets (fun s => ramdisk_start (phys_mem_layout (pmem s)));
      v ← gets virt_ramdisk_start;
      mm_map_page proc_ptd ptd_root (u32 (lo + page * MM_PAGE_SIZE)) (u32 (v + MM_PAGE_SIZE * page)) MM_READ_WRITE MM_SUPERVISOR_PAGE 0 0;;
      modify (fun s => set_virt_ramdisk (virt_ramdisk_start s) (u32 (v + MM_PAGE_SIZE * page)) s);;
      map_ramdisk n ptd_root (page + 1)
  end.

Fixpoint init_stack_pages (n : nat) (ptd_root stack_page_v : Z) : mmM unit :=
  match n with
  | O => mret tt
  | S n =>
      stack_page_p ← get_phys_page;
      if stack_page_p =? 0 then panic
      else
        mm_map_page proc_ptd ptd_root stack_page_p stack_page_v MM_READ_WRITE MM_SUPERVISOR_PAGE 0 0;;
        init_stack_pages n ptd_root (stack_page_v + MM_PAGE_SIZE)
  end.

Definition mm_init_page_tables : mmM unit :=
  let ptd_root := mm_get_ptd_for_pid proc_ptd 0 in
  vmemset (Z.to_nat (4 * MM_PT_ENTRIES)) ptd_root 0;;
  l ← gets (fun s => phys_mem_layout (pmem s));
  if MM_MEMIO_END <? u32 (kernel_end l + MIN_HEAP_BYTES) then panic
  else
    init_shared (Z.to_nat MM_SHARED_PAGE_TABLES) ptd_root 0;;
    map_identity (Z.to_nat (MM_PAGE (kernel_end l) + 1)) ptd_root 0;;
    let v := u32 ((MM_PAGE (kernel_end l) + 1) * MM_PAGE_SIZE) in
    modify (set_virt_ramdisk v v);;
    map_ramdisk (Z.to_nat ((ramdisk_end l - ramdisk_start l + MM_PAGE_SIZE - 1) / MM_PAGE_SIZE)) ptd_root 0;;
    v ← gets virt_ramdisk_end;
    KASSERT (v <? MM_COMMON_AREA_SIZE);;
    store_pte ptd_root (MM_PT_ENTRIES - 1) (pte_create 1 0 0 ptd_root);;
    init_stack_pages (Z.to_nat MM_STACK_PAGES_TASK) ptd_root ((MM_PAGE MM_VIRTUAL_TOS - (MM_STACK_PAGES_TASK - 1)) * MM_PAGE_SIZE);;
    modify (set_cr3 ptd_root).

(** [mm_init_address_spaces] *)
Definition mm_init_address_spaces (s : mm) : mm :=
  let top := MM_VIRTUAL_TOS / MM_PAGE_SIZE * MM_PAGE_SIZE in
  let invalidate_as a := mk_as (as_id a) 0 (brk a) (end_data a) (as_list a) in
  let invalidate_sa a := mk_sa (sa_id a) 0 (lowest_page a) (highest_page a) (sa_pid a) in
  let s := set_address_space (fun i => if (0 <=? i) && (i <? PM_MAX_PROCESS) then invalidate_as (address_space s i) else address_space s i) s in
  let s := set_stack_allocator (fun i => if (0 <=? i) && (i <? PM_MAX_TASK) then invalidate_sa (stack_allocator s i) else stack_allocator s i) s in
  let s := set_address_space (<[0 := mk_as 0 1 MM_START_CODE (MM_START_CODE - 1) (mk_anchor (Some 0) (Some 0))]> (address_space s)) s in
  let s := set_sa_links (set_prev (set_next (sa_links s) 0 None) 0 None) s in
  let s := set_sa 0 (mk_sa 0 1 (top - (MM_STACK_PAGES_TASK - 1) * MM_PAGE_SIZE) top 0) s in
  set_locks (filter (fun k => k <> address_spaces_lock /\ k <> as_lock 0) (locks s)) s.

(** [mm_init_locks] *)
Definition process_lock (k : lock) : bool :=
  match k with
  | pt_lock p | sp_lock p | st_lock p => (0 <=? p) && (p <? PM_MAX_PROCESS)
  | _ => false
  end.
Definition mm_init_locks (s : mm) : mm := set_locks (filter (fun k => process_lock k = false) (locks s)) s.

Definition mm_init (_start _end : Z) (entries : list memory_map_entry_t) (rd_info : option (Z * Z)) : mmM unit :=
  lift_pmem (fun p => p ← phys_mem_layout_init _start _end p; Ok (tt, p));;
  lift_pmem (fun p => p ← phys_mem_init entries rd_info p; Ok (tt, p));;
  modify mm_init_locks;;
  modify mm_init_address_spaces;;
  mm_init_page_tables.

(** ** Information on the address space *)

(** The common kernel stack of the processor [cpu], one page each. *)
Definition mm_get_top_of_common_stack (common_kernel_stack cpu : Z) : Z :=
  u32 (common_kernel_stack + MM_PAGE_SIZE * 1 * (cpu + 1) - 4).

Definition mm_is_kernel_code (code_segment : Z) : bool := code_segment / 8 =? SELECTOR_CODE_KERNEL / 8.
Definition mm_get_initrd_base (s : mm) : Z := virt_ramdisk_start s.
Definition mm_get_initrd_top (s : mm) : Z := u32 (virt_ramdisk_end s + MM_PAGE_SIZE - 1).

(** [mm_validate]: 1 if a page of the RAM disk is not mapped. *)
Fixpoint validate_ramdisk (n : nat) (page : Z) : mmM Z :=
  match n with
  | O => mret 0
  | S n =>
      hi ← gets virt_ramdisk_end;
      if page <=? hi then
        mapped ← mm_page_mapped proc_ptd page;
        if negb mapped then mret 1 else validate_ramdisk n (u32 (page + MM_PAGE_SIZE))
      else mret 0
  end.
Definition mm_validate : mmM Z :=
  lo ← gets virt_ramdisk_start;
  hi ← gets virt_ramdisk_end;
  if lo <? hi then validate_ramdisk (Z.to_nat ((hi - lo) / MM_PAGE_SIZE + 2)) lo else mret 0.
End Stack.
