(* ===== verification/MmUser.v ===== *)
(** * User buffers: [mm_validate_buffer] accepts exactly the memory of the user *)

From S2P Require Import Prelude Errors Memory MmDefs Lists PhysMem PhysMemProofs Paging PagingProofs PagingMap Mm.
Import Lists.

(** The page of [v] is mapped and its page table entry allows user access, and writes if [rw] is 1. *)
Definition user_page (m : mem) (D rw v : Z) : Prop :=
  exists x, walk m D v = Some x /\ pte_us (pte m D v) = true /\ (rw = 1 -> x_rw x = true).

(** The byte at a mapped virtual address. *)
Definition vbyte (m : mem) (D v : Z) : Z :=
  match walk m D v with Some x => m (x_frame x + v mod MM_PAGE_SIZE) | None => 0 end.

Lemma user_page_page m D rw v v' : MM_PAGE v = MM_PAGE v' -> user_page m D rw v <-> user_page m D rw v'.
Proof.
  intros E; unfold user_page; rewrite (walk_page m D v v' E).
  apply offsets_page in E as [E1 E2]; unfold pte; by rewrite E1, E2.
Qed.

Section User.
Context (proc_ptd : Z).

(** A state of the current process with paging on. *)
Definition running (s : mm) (D : Z) : Prop := space_ok s D /\ pg_enabled s = 1 /\ mm_get_ptd_for_pid proc_ptd (pid s) = D.

Lemma running_tlb s D t : running s D -> space_ok (set_tlb t s) D -> running (set_tlb t s) D.
Proof. intros (_ & H2 & H3) H; done. Qed.

Lemma access_allowed_ok s D v sv rw :
  running s D -> 0 <= v < 2 ^ 32 -> pte_p (pde (phys s) D (PTD_OFFSET v)) = true ->
  exists t, running (set_tlb t s) D /\
    access_allowed v D sv rw s =
      Ok (negb ((rw =? 1) && negb (pte_rw (pte (phys s) D v))) && negb ((sv =? 0) && negb (pte_us (pte (phys s) D v))), set_tlb t s).
Proof.
  intros Hr Hv Hp; pose proof Hr as (Hs & H1 & HD); pose proof (ptd_offset_range v Hv) as Hi; unfold access_allowed.
  erewrite (mm_bind_ok _ _ s) by (apply (pt_address_paged s D), paged_mode; done).
  assert (Hne : pt_addr s D (PTD_OFFSET v) <> 0).
  { unfold pt_addr; rewrite H1; cbn [Z.eqb]; destruct (self_map_offsets (PTD_OFFSET v) 0) as (E & _); lia. }
  rewrite (proj2 (Z.eqb_neq _ _) Hne).
  destruct (load_pt s D (PTD_OFFSET v) (PT_OFFSET v) Hs Hi Hp (pt_offset_range v)) as (t & E & Ht).
  rewrite (mm_bind_ok _ _ _ _ _ E); exists t; done.
Qed.

(** The two checks of one page. *)
Lemma check_page s D rw v :
  running s D -> 0 <= v < 2 ^ 32 ->
  exists t1 t2 mapped allowed, running (set_tlb t1 s) D /\ running (set_tlb t2 s) D /\
    mm_page_mapped proc_ptd v s = Ok (mapped, set_tlb t1 s) /\
    (mapped = true -> access_allowed v D 0 rw (set_tlb t1 s) = Ok (allowed, set_tlb t2 s)) /\
    (mapped && allowed = true <-> user_page (phys s) D rw v).
Proof.
  intros Hr Hv; pose proof Hr as (Hs & H1 & HD); pose proof (ptd_offset_range v Hv) as Hi.
  destruct (page_mapped_ok proc_ptd s D v) as (t1 & Hs1 & E1); [by split|done|].
  assert (Hr1 := running_tlb s D t1 Hr Hs1).
  destruct (walk (phys s) D v) as [x|] eqn:Ew.
  - assert (Hp : pte_p (pde (phys s) D (PTD_OFFSET v)) = true).
    { revert Ew; unfold walk; by destruct (pte_p (pde (phys s) D (PTD_OFFSET v))). }
    destruct (access_allowed_ok (set_tlb t1 s) D v 0 rw Hr1 Hv Hp) as (t2 & Hr2 & E2).
    eexists t1, t2, true, _; split_and!; [done|exact Hr2|done|intros _; exact E2|]; cbn [phys set_tlb andb].
    assert (Hrw : x_rw x = pte_rw (pte (phys s) D v)).
    { revert Ew; unfold walk; rewrite Hp; destruct (pte_p (pte _ _ _)); [|done]; intros [= <-]; cbn [x_rw].
      destruct (decide (PTD_OFFSET v = 1023)) as [E|].
      - destruct (pg_self _ _ (paged_mode _ _ Hs H1)) as (_ & Hself & _); rewrite E; by rewrite Hself.
      - by rewrite (pg_rw _ _ (paged_mode _ _ Hs H1)) by (done || lia). }
    unfold user_page; rewrite Ew; split.
    + intros Ha; exists x; split; [done|]; rewrite Hrw; revert Ha.
      destruct (pte_us _), (pte_rw _), (Z.eqb_spec rw 1); cbn; intros; split; done || tauto.
    + intros (y & [= <-] & -> & Hw); rewrite Hrw in Hw; destruct (Z.eqb_spec rw 1); cbn [andb negb]; [by rewrite Hw|done].
  - exists t1, t1, false, false; split_and!; try done; split; [done|]; intros (x & Hx & _); congruence.
Qed.

(** The pages of the page tables belong to the kernel. *)
Lemma self_not_user s D rw v : running s D -> 0 <= v < 2 ^ 32 -> user_page (phys s) D rw v -> v < 4294963200.
Proof.
  intros (Hs & H1 & _) Hv (x & _ & Hus & _); destruct (decide (v < 4294963200)) as [|Hge]; [done|].
  destruct (pg_self _ _ (paged_mode _ _ Hs H1)) as (Hp & _ & Hself & Ht).
  assert (E1 : PTD_OFFSET v = 1023) by (rewrite ptd_offset; Z.div_mod_to_equations; lia).
  assert (E2 : PT_OFFSET v = 1023) by (rewrite pt_offset; Z.div_mod_to_equations; lia).
  unfold pte in Hus; rewrite E1, E2 in Hus; fold (table (phys s) D 1023) in Hus; rewrite Ht in Hus; unfold pde in Hself; congruence.
Qed.

(** The loop for a buffer of [len] bytes. *)
Lemma validate_pages_ok n s D buffer len rw current page :
  running s D -> 0 < len -> 0 < buffer -> buffer + len < 2 ^ 32 -> 0 <= page < 2 ^ 20 ->
  (Z.to_nat (2 ^ 20 - page) < n)%nat ->
  exists rc t, validate_pages proc_ptd n buffer len rw current (page * MM_PAGE_SIZE) s = Ok (rc, set_tlb t s) /\
    running (set_tlb t s) D /\ (rc = 0 \/ rc = -1) /\
    (rc = 0 <-> forall q, page <= q -> q * MM_PAGE_SIZE < buffer + len -> user_page (phys s) D rw (q * MM_PAGE_SIZE)).
Proof.
  revert s page; induction n as [|n IH]; intros s page Hr Hl Hb Hbl Hp Hn; [lia|].
  pose proof Hr as (Hs & H1 & HD); cbn [validate_pages]; rewrite (u32_small (buffer + len)) by lia.
  rewrite (proj2 (Z.eqb_neq len 0)) by lia; cbn [orb negb].
  destruct (Z.ltb_spec (page * MM_PAGE_SIZE) (buffer + len)) as [Hlt|Hge].
  2:{ exists 0, (tlb s); rewrite set_tlb_eta; split_and!; [done|done|by left|]; split; [|done].
      intros _ q Hq Hql; unfold MM_PAGE_SIZE in *; lia. }
  destruct (check_page s D rw (page * MM_PAGE_SIZE) Hr) as (t1 & t2 & mapped & allowed & Hr1 & Hr2 & E1 & E2 & Hiff);
    [unfold MM_PAGE_SIZE; lia|].
  rewrite (mm_bind_ok _ _ _ _ _ E1); destruct mapped; cbn [negb].
  2:{ exists (-1), t1; split_and!; [done|done|by right|]; split; [done|]; intros Hall.
      assert (user_page (phys s) D rw (page * MM_PAGE_SIZE)) as [=]%Hiff by (apply Hall; [lia|done]). }
  erewrite (mm_bind_ok _ _ (set_tlb t1 s)) by (unfold mm_get_ptd, gets; cbn; by rewrite HD).
  rewrite (mm_bind_ok _ _ _ _ _ (E2 eq_refl)); destruct allowed; cbn [negb].
  2:{ exists (-1), t2; split_and!; [done|done|by right|]; split; [done|]; intros Hall.
      assert (user_page (phys s) D rw (page * MM_PAGE_SIZE)) as [=]%Hiff by (apply Hall; [lia|done]). }
  pose proof (proj1 Hiff eq_refl) as Hu; pose proof (self_not_user s D rw (page * MM_PAGE_SIZE) Hr ltac:(unfold MM_PAGE_SIZE; lia) Hu) as Htop.
  unfold MM_PAGE_SIZE in Htop; replace (u32 (page * MM_PAGE_SIZE + MM_PAGE_SIZE)) with ((page + 1) * MM_PAGE_SIZE)
    by (rewrite u32_small; unfold MM_PAGE_SIZE; lia).
  destruct (IH (set_tlb t2 s) (page + 1) Hr2 Hl Hb Hbl) as (rc & t & E & Hrt & Hrc & Hall); [lia|lia|].
  exists rc, t; split; [exact E|]; split; [done|]; split; [done|]; rewrite Hall; split; intros H q Hq Hql.
  - destruct (decide (q = page)) as [->|]; [done|apply H; lia].
  - apply H; [lia|done].
Qed.

(** ** Strings *)

Lemma vload8_ok s D v x :
  running s D -> 0 <= v < 2 ^ 32 -> walk (phys s) D v = Some x ->
  exists t, vload8 v s = Ok (vbyte (phys s) D v, set_tlb t s) /\ running (set_tlb t s) D.
Proof.
  intros Hr Hv Hw; pose proof Hr as (Hs & H1 & HD).
  destruct (translate_ok s D false v x (paged_mode _ _ Hs H1) Hv Hw) as (t & E & Ht); [done|].
  exists t; split; [|apply running_tlb; [done|apply space_tlb; auto]].
  unfold vload8; rewrite (mm_bind_ok _ _ _ _ _ E); unfold vbyte; by rewrite Hw.
Qed.

(** The bytes from [c] to the end of its page: the scan stops at the first zero, or behind the page. *)
Lemma scan_string_ok n s D c x :
  running s D -> 0 <= c < 2 ^ 32 -> walk (phys s) D c = Some x -> 4096 - c mod 4096 <= Z.of_nat n ->
  let r := 4096 - c mod 4096 in
  exists t res, scan_string n c s = Ok (res, set_tlb t s) /\ running (set_tlb t s) D /\
    (res = inr 0 /\ (exists k, 0 <= k < r /\ vbyte (phys s) D (c + k) = 0 /\ forall i, 0 <= i < k -> vbyte (phys s) D (c + i) <> 0) \/
     (forall i, 0 <= i < r -> vbyte (phys s) D (c + i) <> 0) /\ (if c + r =? 2 ^ 32 then res = inr (-1) else res = inl (c + r))).
Proof.
  intros Hr Hc Hw Hn r; unfold r; clear r; revert s c x Hr Hc Hw Hn; induction n as [|n IH]; intros s c x Hr Hc Hw Hn.
  { pose proof (Z.mod_pos_bound c 4096 eq_refl); lia. }
  cbn [scan_string]; destruct (vload8_ok s D c x Hr Hc Hw) as (t & E & Ht); rewrite (mm_bind_ok _ _ _ _ _ E).
  destruct (Z.eqb_spec (vbyte (phys s) D c) 0) as [Hz|Hnz].
  { exists t, (inr 0); split; [done|]; split; [done|]; left; split; [done|]; exists 0; rewrite Z.add_0_r.
    split_and!; [lia|pose proof (Z.mod_pos_bound c 4096 eq_refl); lia|done|lia]. }
  pose proof (Z.mod_pos_bound c 4096 eq_refl) as Hm.
  destruct (decide (c mod 4096 = 4095)) as [Hlast|Hlast].
  - replace (4096 - c mod 4096) with 1 by lia.
    assert (Hone : forall i, 0 <= i < 1 -> vbyte (phys s) D (c + i) <> 0) by (intros i Hi; by replace (c + i) with c by lia).
    destruct (Z.eqb_spec (c + 1) (2 ^ 32)) as [Htop|Htop].
    + assert (Hu : u32 (c + 1) = 0) by (rewrite Htop; done); rewrite Hu; cbn [Z.eqb].
      exists t, (inr (-1)); split; [done|]; split; [done|]; by right.
    + rewrite u32_small by lia; rewrite (proj2 (Z.eqb_neq (c + 1) 0)) by lia.
      replace ((c + 1) mod MM_PAGE_SIZE) with 0 by (unfold MM_PAGE_SIZE; Z.div_mod_to_equations; lia); cbn [Z.eqb].
      exists t, (inl (c + 1)); split; [done|]; split; [done|]; by right.
  - assert (Hc1 : c + 1 < 2 ^ 32) by (Z.div_mod_to_equations; lia).
    assert (Hmod : (c + 1) mod 4096 = c mod 4096 + 1) by (Z.div_mod_to_equations; lia).
    assert (Hw1 : walk (phys s) D (c + 1) = Some x).
    { rewrite <- Hw; apply walk_page; unfold MM_PAGE, MM_PAGE_SIZE; Z.div_mod_to_equations; lia. }
    rewrite u32_small by lia; rewrite (proj2 (Z.eqb_neq (c + 1) 0)) by lia.
    change ((c + 1) mod MM_PAGE_SIZE) with ((c + 1) mod 4096); rewrite (proj2 (Z.eqb_neq ((c + 1) mod 4096) 0)) by lia.
    destruct (IH (set_tlb t s) (c + 1) x Ht) as (t' & res & E' & Ht' & Hres); [lia|done|lia|].
    exists t', res; split; [exact E'|]; split; [done|]; cbn [phys set_tlb] in Hres; rewrite Hmod in Hres.
    assert (Hshift : forall i, c + 1 + (i - 1) = c + i) by lia.
    destruct Hres as [(-> & k & Hk & Hz & Hall)|[Hall Hres]]; [left|right].
    + split; [done|]; exists (k + 1); split_and!; [lia|lia|by replace (c + (k + 1)) with (c + 1 + k) by lia|].
      intros i Hi; destruct (decide (i = 0)) as [->|]; [by rewrite Z.add_0_r|]; rewrite <- Hshift; apply Hall; lia.
    + split; [|by replace (c + (4096 - c mod 4096)) with (c + 1 + (4096 - (c mod 4096 + 1))) by lia].
      intros i Hi; destruct (decide (i = 0)) as [->|]; [by rewrite Z.add_0_r|]; rewrite <- Hshift; apply Hall; lia.
Qed.

(** A string of the user: it ends before the address space does and lies in user pages, its end included. *)
Definition user_string (m : mem) (D rw b : Z) : Prop :=
  exists n, 0 <= n /\ b + n < 2 ^ 32 /\
    (forall i, 0 <= i < n -> user_page m D rw (b + i) /\ vbyte m D (b + i) <> 0) /\
    user_page m D rw (b + n) /\ vbyte m D (b + n) = 0.

Lemma user_string_start m D rw b : user_string m D rw b -> user_page m D rw b.
Proof.
  intros (n & Hn & _ & Hall & He & _); destruct (decide (n = 0)) as [->|]; [by rewrite Z.add_0_r in He|].
  rewrite <- (Z.add_0_r b); apply Hall; lia.
Qed.

(** A string that fills the rest of its page continues on the next one. *)
Lemma user_string_next m D rw b r :
  0 <= r -> (forall i, 0 <= i < r -> user_page m D rw (b + i) /\ vbyte m D (b + i) <> 0) ->
  user_string m D rw b <-> user_string m D rw (b + r).
Proof.
  intros Hr Hpre; split; intros (n & Hn & Ht & Hall & He & Hz).
  - destruct (decide (n < r)) as [Hlt|Hge]; [by destruct (Hpre n ltac:(lia))|].
    exists (n - r); replace (b + r + (n - r)) with (b + n) by lia; split_and!; try done; try lia.
    intros i Hi; replace (b + r + i) with (b + (r + i)) by lia; apply Hall; lia.
  - exists (r + n); replace (b + (r + n)) with (b + r + n) by lia; split_and!; try done; try lia.
    intros i Hi; destruct (decide (i < r)); [apply Hpre; lia|]; replace (b + i) with (b + r + (i - r)) by lia; apply Hall; lia.
Qed.

Lemma validate_string_ok n s D buffer rw c :
  running s D -> 0 <= c < 2 ^ 32 -> (Z.to_nat (2 ^ 20 - MM_PAGE c) < n)%nat ->
  exists rc t, validate_pages proc_ptd n buffer 0 rw c (MM_PAGE c * MM_PAGE_SIZE) s = Ok (rc, set_tlb t s) /\
    running (set_tlb t s) D /\ (rc = 0 \/ rc = -1) /\ (rc = 0 <-> user_string (phys s) D rw c).
Proof.
  revert s c; induction n as [|n IH]; intros s c Hr Hc Hn; [lia|].
  pose proof Hr as (Hs & H1 & HD); pose proof (page_range c Hc) as Hpc; cbn [validate_pages Z.eqb orb].
  assert (Hpage : forall rw, user_page (phys s) D rw (MM_PAGE c * MM_PAGE_SIZE) <-> user_page (phys s) D rw c)
    by (intros; apply user_page_page; by rewrite page_of_base).
  destruct (check_page s D rw (MM_PAGE c * MM_PAGE_SIZE) Hr) as (t1 & t2 & mapped & allowed & Hr1 & Hr2 & E1 & E2 & Hiff);
    [unfold MM_PAGE_SIZE; lia|]; rewrite Hpage in Hiff.
  rewrite (mm_bind_ok _ _ _ _ _ E1); destruct mapped; cbn [negb].
  2:{ exists (-1), t1; split_and!; [done|done|by right|]; split; [done|]; by intros [=]%user_string_start%Hiff. }
  erewrite (mm_bind_ok _ _ (set_tlb t1 s)) by (unfold mm_get_ptd, gets; cbn; by rewrite HD).
  rewrite (mm_bind_ok _ _ _ _ _ (E2 eq_refl)); destruct allowed; cbn [negb].
  2:{ exists (-1), t2; split_and!; [done|done|by right|]; split; [done|]; by intros [=]%user_string_start%Hiff. }
  pose proof (proj1 Hiff eq_refl) as Hu; destruct (Hu) as (x & Hw & _).
  pose proof (Z.mod_pos_bound c 4096 eq_refl) as Hm.
  destruct (scan_string_ok (Z.to_nat MM_PAGE_SIZE) (set_tlb t2 s) D c x Hr2 Hc Hw) as (t3 & res & E3 & Hr3 & Hres).
  { change (Z.of_nat (Z.to_nat MM_PAGE_SIZE)) with 4096; lia. }
  rewrite (mm_bind_ok _ _ _ _ _ E3); cbn [phys set_tlb] in Hres.
  assert (Hin : forall i, 0 <= i < 4096 - c mod 4096 -> user_page (phys s) D rw (c + i)).
  { intros i Hi; apply (user_page_page _ _ _ c); [|done]; unfold MM_PAGE, MM_PAGE_SIZE; Z.div_mod_to_equations; lia. }
  destruct Hres as [(-> & k & Hk & Hz & Hall)|[Hall Hres]].
  { exists 0, t3; split_and!; [done|done|by left|]; split; [intros _|done]; exists k; split_and!; auto with lia.
    Z.div_mod_to_equations; lia. }
  assert (Hnext := user_string_next (phys s) D rw c (4096 - c mod 4096) ltac:(lia) ltac:(auto)).
  destruct (Z.eqb_spec (c + (4096 - c mod 4096)) (2 ^ 32)) as [Htop|Htop]; rewrite Hres.
  { exists (-1), t3; split_and!; [done|done|by right|]; rewrite Hnext; split; [done|]; intros (k & Hk & Hb & _); lia. }
  set (c' := c + (4096 - c mod 4096)) in *.
  assert (Hc' : 0 <= c' < 2 ^ 32) by (unfold c' in *; Z.div_mod_to_equations; lia).
  assert (Hpg : MM_PAGE c' = MM_PAGE c + 1) by (unfold MM_PAGE, MM_PAGE_SIZE, c' in *; Z.div_mod_to_equations; lia).
  assert (Hal : c' = MM_PAGE c' * MM_PAGE_SIZE) by (unfold MM_PAGE, MM_PAGE_SIZE, c' in *; Z.div_mod_to_equations; lia).
  destruct (IH (set_tlb t3 s) c' Hr3 Hc') as (rc & t & E & H); [lia|].
  exists rc, t; rewrite <- Hal in E; rewrite Hnext; split; [exact E|exact H].
Qed.
End User.
