(* ===== verification/MmExample.v ===== *)
(** * A small machine on which the theorems on virtual memory are applied

    The directory at one megabyte, three page tables, one page of the user at
    [0x40000000], a kernel stack of four pages, the directory itself and the one of
    the next process mapped one to one, and four free pages. *)

From S2P Require Import Prelude Errors Memory MmDefs Lists PhysMem PhysMemProofs Paging PagingProofs PagingMap Mm MmUser.
Import Lists.

(** A memory given by its 32-bit words. *)
Definition words (w : Z -> Z) : mem := fun a => u8 (w (a / 4) / 2 ^ (8 * (a mod 4))).

Lemma load32_words w a : a mod 4 = 0 -> 0 <= w (a / 4) < 2 ^ 32 -> load32 (words w) a = w (a / 4).
Proof.
  intros Ha Hw; unfold load32, words.
  assert ((a + 1) / 4 = a / 4 /\ (a + 2) / 4 = a / 4 /\ (a + 3) / 4 = a / 4) as (-> & -> & ->) by (Z.div_mod_to_equations; lia).
  assert (a mod 4 = 0 /\ (a + 1) mod 4 = 1 /\ (a + 2) mod 4 = 2 /\ (a + 3) mod 4 = 3) as (-> & -> & -> & ->)
    by (Z.div_mod_to_equations; lia).
  cbn -[Z.div Z.modulo Z.pow]; change (2 ^ 0) with 1; unfold u8; generalize (w (a / 4)), Hw; intros x Hx.
  Z.div_mod_to_equations; lia.
Qed.

Definition ex_dir : Z := 1048576.

(** The words of the page tables; the rest of the memory is zero. *)
Definition ex_word (i : Z) : Z :=
  if i =? 262144 then 2097155 else if i =? 262400 then 2105351 else if i =? 263166 then 2101255
  else if i =? 263167 then 1048579 else if i =? 524544 then 1048579 else if i =? 526336 then 3145735
  else if i =? 786432 then 6513249 else if i =? 526324 then 3211267 else if i =? 526325 then 3215363
  else if i =? 526326 then 3219459 else if i =? 526327 then 3223555 else if i =? 524545 then 1052675 else 0.

Definition ex_mem : mem := words ex_word.

Definition ex_phys : physmem :=
  Build_physmem (Build_phys_mem_layout_t 0 0 0 0 0 4 4) (fun i => if i =? 125 then 240 else 255) 0 false false.

Definition ex_mm : mm :=
  mk_mm ex_phys ex_mem (fun _ => None) (2 ^ 31 + 2 ^ 16) ex_dir [] 0 0 0 0
    (fun _ => mk_as 0 1 1073745920 1073745919 (mk_anchor None None)) (fun _ => mk_sa 0 0 0 0 0)
    (fun _ => mk_link None None) [].

Lemma ex_word_range i : 0 <= ex_word i < 2 ^ 32.
Proof. unfold ex_word; repeat (case_test; [lia|]); lia. Qed.

Lemma ex_load a : a mod 4 = 0 -> load32 ex_mem a = ex_word (a / 4).
Proof. intros; apply load32_words; [done|apply ex_word_range]. Qed.

Lemma ex_pde i : 0 <= i < 1024 ->
  pde ex_mem ex_dir i = if i =? 0 then 2097155 else if i =? 256 then 2105351 else if i =? 1022 then 2101255
    else if i =? 1023 then 1048579 else 0.
Proof.
  intros Hi; unfold pde, ex_dir; rewrite ex_load by (Z.div_mod_to_equations; lia).
  replace ((1048576 + 4 * i) / 4) with (262144 + i) by (Z.div_mod_to_equations; lia).
  unfold ex_word; repeat (case_test; try lia); done.
Qed.

Lemma ex_bit p : 0 <= p -> bit ex_phys p = if (1000 <=? p) && (p <? 1004) then 0 else 1.
Proof.
  intros Hp; unfold bit; rewrite get_bit_spec by done; cbn [phys_mem ex_phys].
  pose proof (Z.mod_pos_bound p 8 eq_refl); pose proof (Z.div_mod p 8).
  assert (p mod 8 = 0 \/ p mod 8 = 1 \/ p mod 8 = 2 \/ p mod 8 = 3 \/ p mod 8 = 4 \/ p mod 8 = 5 \/
          p mod 8 = 6 \/ p mod 8 = 7) as [H1|[H1|[H1|[H1|[H1|[H1|[H1|H1]]]]]]] by lia; rewrite H1 in *;
  repeat (case_test; try lia); done.
Qed.

Lemma ex_present i : 0 <= i < 1023 -> pte_p (pde ex_mem ex_dir i) = true -> i = 0 \/ i = 256 \/ i = 1022.
Proof. intros Hi; rewrite ex_pde by lia; repeat (case_test; [auto; lia|]); done. Qed.

Lemma ex_tables : tables_ok ex_mem ex_phys ex_dir.
Proof.
  split; try done.
  - intros a; apply u8_range.
  - intros i Hi [->|[->| ->]]%ex_present; unfold table; rewrite ?ex_pde by lia; done.
  - intros i j Hi Hj [->|[->| ->]]%ex_present [->|[->| ->]]%ex_present; unfold table; rewrite ?ex_pde by lia; done.
Qed.

Lemma ex_running : running ex_dir ex_mm ex_dir.
Proof.
  split; [|by split]; split; [apply ex_tables| | |right].
  - split; [done|by rewrite phys_pages|cbn; lia|done].
  - intros p Hp; rewrite phys_limit in Hp; change (pmem ex_mm) with ex_phys; rewrite ex_bit by lia; by tests.
  - split; try done; [by exists false|].
    intros i Hi [->|[->| ->]]%ex_present; [..|done]; by rewrite ex_pde by lia.
Qed.

Lemma ex_free : free_pages ex_phys = 4%nat.
Proof.
  unfold free_pages; apply Nat.le_antisymm.
  - apply (seqZ_filter_le (fun q => bit ex_phys q =? 0) _ _ [1000; 1001; 1002; 1003]); intros x Hx; rewrite phys_limit in Hx.
    rewrite ex_bit by lia; rewrite !elem_of_cons; destruct (Z.leb_spec 1000 x), (Z.ltb_spec x 1004); cbn [andb Z.eqb]; intros; done || lia.
  - apply (seqZ_filter_ge (fun q => bit ex_phys q =? 0) _ _ [1000; 1001; 1002; 1003]); [by apply (bool_decide_unpack _)|].
    intros q Hq; rewrite phys_limit; rewrite !elem_of_cons, elem_of_nil in Hq; split; [lia|]; rewrite ex_bit by lia; by tests.
Qed.
