(* ===== verification/MmSbrk.v ===== *)
(** * The user area: [add_user_space_pages], [mm_map_user_segment], [do_sbrk] *)

From S2P Require Import Prelude Errors Memory MmDefs Lists PhysMem PhysMemProofs Paging PagingProofs PagingMap Mm MmUser MmExample.
Import Lists.

(** Directory entries above the common area allow user access. *)
Definition user_dirs (m : mem) (D : Z) : Prop :=
  forall i, 32 <= i < 1023 -> pte_p (pde m D i) = true -> pte_us (pde m D i) = true.

(** The first address of the page of [v]. *)
Definition page_start (v : Z) : Z := MM_PAGE v * MM_PAGE_SIZE.

(** What has happened to the address space when the loop over the bytes from [base] has
    reached [a]: pages that were mapped stay as they are, the others below [a] have got
    a page each that was free before, writable and for the user. *)
Record grown (m0 : mem) (p0 : physmem) (D base a : Z) (p : physmem) (m : mem) : Prop := {
  gr_dirs : user_dirs m D;
  gr_outside : forall w, 0 <= w < 2 ^ 32 -> PTD_OFFSET w < 1023 -> page_start w < base \/ a <= page_start w ->
    walk m D w = walk m0 D w;
  gr_kept : forall w x, 0 <= w < 2 ^ 32 -> PTD_OFFSET w < 1023 -> walk m0 D w = Some x -> walk m D w = Some x;
  gr_new : forall w, 0 <= w < 2 ^ 32 -> base <= page_start w < a -> walk m0 D w = None ->
    exists n, walk m D w = Some (mk_xlat (n * MM_PAGE_SIZE) true true) /\ page_free p0 n /\ bit p n = 1 /\
      data_frame m D (n * MM_PAGE_SIZE);
  gr_inj : forall w w' x x', 0 <= w < 2 ^ 32 -> 0 <= w' < 2 ^ 32 -> base <= page_start w < a -> base <= page_start w' < a ->
    walk m0 D w = None -> walk m0 D w' = None -> walk m D w = Some x -> walk m D w' = Some x' ->
    x_frame x = x_frame x' -> MM_PAGE w = MM_PAGE w';
  gr_used : forall q, 0 <= q -> bit p0 q = 1 -> bit p q = 1;
  gr_data : forall x, 0 <= x -> data_frame m D (MM_PAGE x * MM_PAGE_SIZE) -> m x = m0 x
}.

Lemma data_frame_back m m' D v f r u b : mapped m m' D v f r u -> data_frame m' D b -> data_frame m D b.
Proof.
  intros Hm (B1 & B2 & B3); split_and!; [done|done|]; intros i Hi Hp.
  assert (E : pde m' D i = pde m D i) by (apply (mp_pde _ _ _ _ _ _ _ Hm); auto; lia).
  specialize (B3 i Hi); unfold table in *; rewrite E in B3; auto.
Qed.

Lemma data_frame_fwd m m' D v f r u b :
  mapped m m' D v f r u -> table m' D (PTD_OFFSET v) <> b \/ pte_p (pde m D (PTD_OFFSET v)) = true ->
  data_frame m D b -> data_frame m' D b.
Proof.
  intros Hm Hnew (B1 & B2 & B3); split_and!; [done|done|]; intros i Hi Hp.
  destruct (decide (i = PTD_OFFSET v)) as [->|Hne]; [destruct Hnew as [|Hold]; [done|]|].
  - assert (E : pde m' D (PTD_OFFSET v) = pde m D (PTD_OFFSET v)) by (apply (mp_pde _ _ _ _ _ _ _ Hm); auto; lia).
    specialize (B3 _ Hi); unfold table in *; rewrite E in *; auto.
  - assert (E : pde m' D i = pde m D i) by (apply (mp_pde _ _ _ _ _ _ _ Hm); auto; lia).
    specialize (B3 _ Hi); unfold table in *; rewrite E in *; auto.
Qed.

Lemma page_start_eq v w : MM_PAGE v = MM_PAGE w <-> page_start v = page_start w.
Proof. unfold page_start, MM_PAGE_SIZE; lia. Qed.

Lemma page_start_le v : page_start v <= v < page_start v + 4096.
Proof. unfold page_start, MM_PAGE, MM_PAGE_SIZE; Z.div_mod_to_equations; lia. Qed.

Lemma user_ptd v : 2 ^ 27 <= v < 4290772992 -> 32 <= PTD_OFFSET v < 1023.
Proof. rewrite ptd_offset; intros; Z.div_mod_to_equations; lia. Qed.

Lemma grown_bits m0 p0 D base a p p' m :
  grown m0 p0 D base a p m -> (forall q, 0 <= q -> bit p q = 1 -> bit p' q = 1) -> grown m0 p0 D base a p' m.
Proof.
  intros [G1 G2 G3 G4 G5 G6 G7] Hb; split; auto.
  intros w Hw Hr H0; destruct (G4 w Hw Hr H0) as (n & E & Hf & Hn & Hd); exists n; split_and!; auto; apply Hb; [|done].
  destruct Hf; lia.
Qed.

(** The bytes of a page that is done already. *)
Lemma grown_skip m0 p0 D base a p m :
  grown m0 p0 D base a p m -> 0 <= a -> (page_start a < a \/ walk m0 D a <> None) -> base <= page_start a -> 0 <= a < 2 ^ 32 ->
  PTD_OFFSET a < 1023 -> grown m0 p0 D base (a + 1) p m.
Proof.
  intros [G1 G2 G3 G4 G5 G6 G7] Ha Hor Hb Har Hd; pose proof (page_start_le a).
  assert (Hsplit : forall w, 0 <= w < 2 ^ 32 -> page_start w < a + 1 -> walk m0 D w = None -> page_start w < a).
  { intros w Hw Hlt H0; destruct (decide (page_start w < a)) as [|Hge]; [done|].
    assert (Ew : page_start w = a) by lia.
    assert (Ea : page_start a = page_start w).
    { rewrite <- Ew; unfold page_start; by rewrite page_of_base. }
    destruct Hor as [?|Hs]; [lia|]; destruct Hs; rewrite <- H0; apply walk_page, page_start_eq; done. }
  split; auto.
  - intros w Hw Hwd Hor'; apply G2; auto; destruct Hor'; [by left|right; lia].
  - intros w Hw Hr H0; apply G4; auto; split; [lia|apply Hsplit; auto; lia].
  - intros w w' x x' Hw Hw' Hr Hr' H0 H0'; apply G5; auto; (split; [lia|apply Hsplit; auto; lia]).
Qed.

(** The page at [a] gets the physical page [n] that was free. *)
Section Grow.
Context (s0 : mm) (D base a n : Z) (p p1 p2 : physmem) (m m2 : mem) (new : option Z) (t : Z -> option xlat).
Context (Hg : grown (phys s0) (pmem s0) D base a p m) (Ha : 2 ^ 27 <= a < 4290772992) (Hal : page_start a = a) (Hbase : base <= a).
Context (Hs : space_ok (upd p m t s0) D) (Hno : walk m D a = None).
Context (Hf : page_free p n) (Hk : taken p n p1) (Hn : 0 < n).
Context (Hm : mapped m m2 D a (n * MM_PAGE_SIZE) true (dir_us m D (PTD_OFFSET a))) (Hu : used_after p1 p2 new).
Context (Hnew : if pte_p (pde m D (PTD_OFFSET a)) then new = None
                else exists n2, new = Some n2 /\ page_free p1 n2 /\ table m2 D (PTD_OFFSET a) = n2 * MM_PAGE_SIZE).

Lemma grow_us : dir_us m D (PTD_OFFSET a) = true.
Proof.
  unfold dir_us; destruct (pte_p (pde m D (PTD_OFFSET a))) eqn:E; [|done].
  apply (gr_dirs _ _ _ _ _ _ _ Hg); [by apply user_ptd|done].
Qed.

Lemma grow_bits q : 0 <= q -> bit p q = 1 -> bit p2 q = 1.
Proof.
  intros Hq Hb; rewrite Hu by done; case_decide; [done|]; rewrite (taken_bit p n) by (done || lia); by case_test.
Qed.

Lemma grow_bit_new : bit p2 n = 1.
Proof. rewrite Hu by lia; case_decide; [done|]; rewrite (taken_bit p n) by (done || lia); by rewrite Z.eqb_refl. Qed.

(** A page in use is not the new page table. *)
Lemma grow_frame b : 0 <= b -> bit p1 b = 1 -> data_frame m D (b * MM_PAGE_SIZE) -> data_frame m2 D (b * MM_PAGE_SIZE).
Proof.
  intros Hb Hbit; apply (data_frame_fwd _ _ _ _ _ _ _ _ Hm).
  destruct (pte_p (pde m D (PTD_OFFSET a))) eqn:E; [by right|left].
  destruct Hnew as (n2 & _ & [_ Hz] & ->); intros Eb%page_base_inj; congruence.
Qed.

Lemma grow_frame_old b : 0 <= b -> bit p b = 1 -> data_frame m D (b * MM_PAGE_SIZE) -> data_frame m2 D (b * MM_PAGE_SIZE).
Proof. intros Hb Hbit; apply grow_frame; [done|]; rewrite (taken_bit p n) by (done || lia); by case_test. Qed.

Lemma grow_free : page_free (pmem s0) n.
Proof.
  destruct Hf as [Hr Hz]; split; [done|]; destruct (bit_cases (phys_mem (pmem s0)) n) as [|Hb]; [lia|done|].
  change (bit (pmem s0) n = 1) in Hb; apply (gr_used _ _ _ _ _ _ _ Hg) in Hb; [congruence|lia].
Qed.

Lemma grow_map : grown (phys s0) (pmem s0) D base (a + 1) p2 m2.
Proof.
  pose proof Hg as [G1 G2 G3 G4 G5 G6 G7]; pose proof Hm as [M1 M2 M3 M4]; rewrite grow_us in M1.
  pose proof (user_ptd a Ha) as Hpa.
  assert (Ha' : forall w, page_start w = a -> MM_PAGE w = MM_PAGE a) by (intros; apply page_start_eq; congruence).
  assert (Hwa : forall w, page_start w = a -> walk m2 D w = Some (mk_xlat (n * MM_PAGE_SIZE) true true))
    by (intros w Hw; rewrite (walk_page m2 D w a); auto).
  assert (Hne : forall w, page_start w <> a -> MM_PAGE w <> MM_PAGE a) by (intros w Hw E; apply page_start_eq in E; congruence).
  assert (Hptd : forall w, 0 <= w < 2 ^ 32 -> page_start w < a -> PTD_OFFSET w < 1023).
  { intros w Hw Hlt; pose proof (page_start_le w); rewrite ptd_offset; unfold page_start, MM_PAGE, MM_PAGE_SIZE in *.
    Z.div_mod_to_equations; lia. }
  assert (Hold : forall w, 0 <= w < 2 ^ 32 -> base <= page_start w < a + 1 -> page_start w <> a -> walk (phys s0) D w = None ->
    exists n', walk m2 D w = Some (mk_xlat (n' * MM_PAGE_SIZE) true true) /\ walk m D w = Some (mk_xlat (n' * MM_PAGE_SIZE) true true) /\
      page_free (pmem s0) n' /\ bit p n' = 1 /\ data_frame m D (n' * MM_PAGE_SIZE)).
  { intros w Hw Hr Hwa' H0; destruct (G4 w Hw ltac:(lia) H0) as (n' & E & Hf' & Hb' & Hd'); exists n'.
    split_and!; try done; rewrite M2; auto; apply Hptd; auto; lia. }
  split.
  - intros i Hi Hp; destruct (decide (i = PTD_OFFSET a /\ pte_p (pde m D i) = false)) as [[-> Hpf]|Hnot].
    + revert M1; unfold walk; rewrite Hp; destruct (pte_p (pte m2 D a)); [|done]; intros [= _ _ Hu']; by apply andb_true_iff in Hu' as [? _].
    + assert (E : pde m2 D i = pde m D i).
      { apply M3; [lia|]; destruct (decide (i = PTD_OFFSET a)); [right|by left]; destruct (pte_p (pde m D i)); tauto. }
      rewrite E in Hp; rewrite E; by apply G1.
  - intros w Hw Hwd Hor; pose proof (page_start_le w); rewrite M2 by (auto; apply Hne; lia); apply G2; auto; destruct Hor; [by left|right; lia].
  - intros w x Hw Hwd Hx; pose proof (G3 w x Hw Hwd Hx) as Hx'; rewrite M2; auto; intros E.
    rewrite (walk_page m D w a E) in Hx'; congruence.
  - intros w Hw Hr H0; destruct (decide (page_start w = a)) as [Ew|Ew].
    + exists n; split_and!; [by apply Hwa|apply grow_free|apply grow_bit_new|].
      apply grow_frame; [lia|rewrite (taken_bit p n) by (done || lia); by rewrite Z.eqb_refl|by apply (fresh_frame (upd p m t s0))].
    + destruct (Hold w Hw Hr Ew H0) as (n' & E & _ & Hf' & Hb' & Hd'); exists n'.
      assert (0 <= n') by (destruct Hf'; lia); split_and!; auto using grow_bits, grow_frame_old.
  - intros w w' x x' Hw Hw' Hr Hr' H0 H0' Hx Hx' Ef; apply page_start_eq.
    destruct (decide (page_start w = a)) as [Ew|Ew], (decide (page_start w' = a)) as [Ew'|Ew']; [congruence|..].
    + rewrite Hwa in Hx by done; destruct (Hold w' Hw' Hr' Ew' H0') as (n' & E & _ & _ & Hb' & _).
      rewrite E in Hx'; simplify_eq; cbn in Ef; apply page_base_inj in Ef as ->; destruct Hf as [_ Hz]; congruence.
    + rewrite Hwa in Hx' by done; destruct (Hold w Hw Hr Ew H0) as (n' & E & _ & _ & Hb' & _).
      rewrite E in Hx; simplify_eq; cbn in Ef; apply page_base_inj in Ef as ->; destruct Hf as [_ Hz]; congruence.
    + destruct (Hold w Hw Hr Ew H0) as (n1 & E1 & E1' & _), (Hold w' Hw' Hr' Ew' H0') as (n2 & E2 & E2' & _).
      rewrite E1 in Hx; rewrite E2 in Hx'; simplify_eq; apply page_start_eq.
      apply (G5 w w' _ _ Hw Hw' ltac:(lia) ltac:(lia) H0 H0' E1' E2' Ef).
  - intros q Hq Hb; apply grow_bits; auto.
  - intros x Hx Hd; rewrite M4 by done; apply G7; [done|by eapply data_frame_back].
Qed.
End Grow.

(** ** The pages a request needs *)

Definition is_mapped (m : mem) (D v : Z) : bool := match walk m D v with Some _ => true | None => false end.

(** Of [n] pages from page [first] on: those that are not mapped, and those that are the first ones of a
    4 MB area without a page table. *)
Definition opens_area (m : mem) (D first q : Z) : bool :=
  negb (pte_p (pde m D (q / 1024))) && ((q =? first) || (q mod 1024 =? 0)).
Definition new_pages (m : mem) (D first n : Z) : nat :=
  length (filter (fun q => negb (is_mapped m D (q * MM_PAGE_SIZE)) = true) (seqZ first n)).
Definition new_tables (m : mem) (D first n : Z) : nat :=
  length (filter (fun q => opens_area m D first q = true) (seqZ first n)).

(** A slot in which a new page table can be cleared. *)
Definition slot_available (m : mem) (D : Z) : bool := existsb (fun k => negb (pte_p (slot m D k))) (seqZ 1016 8).

(** There are enough free pages for the pages and their page tables, and a slot if there is a table to clear. *)
Definition enough (s : mm) (D first n : Z) : Prop :=
  (new_pages (phys s) D first n + new_tables (phys s) D first n <= free_pages (pmem s))%nat /\
  (new_tables (phys s) D first n = 0%nat \/ slot_available (phys s) D = true).

Lemma count_step (P : Z -> bool) first n : 0 <= n ->
  length (filter (fun j => P j = true) (seqZ first (n + 1))) =
  (length (filter (fun j => P j = true) (seqZ first n)) + (if P (first + n)%Z then 1 else 0))%nat.
Proof.
  intros Hn; rewrite seqZ_filter_app by lia; f_equal; replace (seqZ (first + n) 1) with [first + n] by (cbn; f_equal; lia).
  destruct (P (first + n)) eqn:E; [rewrite list.filter_cons_True by done|rewrite list.filter_cons_False by congruence]; done.
Qed.

Lemma count_le (P : Z -> bool) first n n' : 0 <= n <= n' ->
  (length (filter (fun j => P j = true) (seqZ first n)) <= length (filter (fun j => P j = true) (seqZ first n')))%nat.
Proof. intros Hn; replace n' with (n + (n' - n)) by lia; rewrite seqZ_filter_app by lia; lia. Qed.

Lemma slot_available_false m D : slot_available m D = false <-> forall k, 1016 <= k < 1024 -> pte_p (slot m D k) = true.
Proof.
  unfold slot_available; rewrite <- not_true_iff_false, existsb_exists; split.
  - intros H k Hk; destruct (pte_p (slot m D k)) eqn:E; [done|]; destruct H; exists k; rewrite E; split; [|done].
    apply list_elem_of_In, elem_of_seqZ; lia.
  - intros H (k & Hk%list_elem_of_In%elem_of_seqZ & Hn); by rewrite H in Hn by lia.
Qed.

Lemma slot_available_ext m m' D :
  (forall k, 1016 <= k < 1024 -> pte_p (slot m D k) = pte_p (slot m' D k)) -> slot_available m D = slot_available m' D.
Proof.
  intros H; destruct (slot_available m D) eqn:E1, (slot_available m' D) eqn:E2; try done; exfalso.
  - rewrite slot_available_false in E2; rewrite (proj2 (slot_available_false m D)) in E1; [done|]; intros; rewrite H; auto.
  - rewrite slot_available_false in E1; rewrite (proj2 (slot_available_false m' D)) in E2; [done|]; intros; rewrite <- H; auto.
Qed.

(** What the loop has used when it has reached byte [a]. *)
Record tally (s : mm) (D base a : Z) (p : physmem) (m : mem) : Prop := {
  ta_count : let n := (a + 4095) / 4096 - MM_PAGE base in
    free_pages (pmem s) = (new_pages (phys s) D (MM_PAGE base) n + new_tables (phys s) D (MM_PAGE base) n + free_pages p)%nat;
  ta_tables : forall i, 32 <= i < 1023 -> pte_p (pde m D i) =
    pte_p (pde (phys s) D i) || (base <? a) && (i * 2 ^ 22 <? a) && (base <? (i + 1) * 2 ^ 22);
  ta_slot : new_tables (phys s) D (MM_PAGE base) ((a + 4095) / 4096 - MM_PAGE base) = 0%nat \/ slot_available (phys s) D = true
}.

Section Tally.
Context (s : mm) (D base a : Z) (p : physmem) (m : mem).
Context (Hbase : 2 ^ 27 <= base <= a) (Hal : base mod 4096 = 0) (Ha : a < 4290772992).
Context (Ht : tally s D base a p m).
Abbreviation first := (MM_PAGE base).
Abbreviation n := ((a + 4095) / 4096 - first).

(** Bytes that do not begin a page add nothing. *)
Lemma tally_inner : a mod 4096 <> 0 -> tally s D base (a + 1) p m.
Proof using Hbase Hal Ht.
  intros Hn; destruct Ht as [T1 T2 T3].
  assert (E : (a + 1 + 4095) / 4096 = (a + 4095) / 4096) by (Z.div_mod_to_equations; lia).
  split; rewrite ?E; try done; intros i Hi; rewrite T2 by done.
  assert (base < a) by (destruct (decide (base = a)); [subst; done|lia]); f_equal.
  repeat case_test; try done; exfalso; Z.div_mod_to_equations; lia.
Qed.

Context (Hpage : a mod 4096 = 0).

Lemma tally_pages : (a + 1 + 4095) / 4096 - first = n + 1 /\ 0 <= n /\ first + n = MM_PAGE a /\ MM_PAGE a * MM_PAGE_SIZE = a.
Proof using Hbase Hal Hpage. unfold MM_PAGE, MM_PAGE_SIZE; Z.div_mod_to_equations; lia. Qed.

(** The page opens an area exactly if the directory has no entry for it now. *)
Lemma tally_opens : opens_area (phys s) D first (MM_PAGE a) = negb (pte_p (pde m D (PTD_OFFSET a))).
Proof using Hbase Hal Ha Ht Hpage.
  pose proof (user_ptd a ltac:(lia)) as Hi; rewrite (ta_tables _ _ _ _ _ _ Ht) by done; unfold opens_area.
  assert (E : MM_PAGE a / 1024 = PTD_OFFSET a) by (rewrite ptd_offset; unfold MM_PAGE, MM_PAGE_SIZE; rewrite Z.div_div by lia; done).
  rewrite E, negb_orb; f_equal; rewrite ptd_offset in *; unfold MM_PAGE, MM_PAGE_SIZE.
  repeat case_test; try done; exfalso; Z.div_mod_to_equations; lia.
Qed.

Lemma touched_step i : i <> PTD_OFFSET a ->
  (base <? a + 1) && (i * 2 ^ 22 <? a + 1) && (base <? (i + 1) * 2 ^ 22) = (base <? a) && (i * 2 ^ 22 <? a) && (base <? (i + 1) * 2 ^ 22).
Proof using Hbase Hal Hpage. rewrite ptd_offset; intros Hi; repeat case_test; try done; exfalso; Z.div_mod_to_equations; lia. Qed.

Lemma touched_self : (base <? a + 1) && (PTD_OFFSET a * 2 ^ 22 <? a + 1) && (base <? (PTD_OFFSET a + 1) * 2 ^ 22) = true.
Proof using Hbase Hal Hpage. rewrite ptd_offset; repeat case_test; try done; exfalso; Z.div_mod_to_equations; lia. Qed.

(** A page that was mapped before the call. *)
Lemma tally_mapped : is_mapped (phys s) D a = true -> tally s D base (a + 1) p m.
Proof using Hbase Hal Ha Ht Hpage.
  intros Hm; pose proof tally_opens as Ho; pose proof Ht as [T1 T2 T3]; destruct tally_pages as (E1 & E2 & E3 & E4).
  assert (Hp : pte_p (pde (phys s) D (PTD_OFFSET a)) = true).
  { revert Hm; unfold is_mapped, walk; by destruct (pte_p (pde (phys s) D (PTD_OFFSET a))). }
  pose proof (user_ptd a ltac:(lia)) as Hi; rewrite T2, Hp in Ho by done.
  split; cbv zeta in *; rewrite ?E1; unfold new_pages, new_tables in *; rewrite ?count_step, ?E3, ?E4, ?Ho, ?Hm by lia; cbn [negb orb]; rewrite ?Nat.add_0_r; auto.
  intros i Hi'; destruct (decide (i = PTD_OFFSET a)) as [->|]; [rewrite T2, Hp by done; done|rewrite touched_step by done; auto].
Qed.

(** A page that is mapped now. *)
Lemma tally_new p2 m2 :
  is_mapped (phys s) D a = false ->
  free_pages p = (1 + (if pte_p (pde m D (PTD_OFFSET a)) then 0 else 1) + free_pages p2)%nat ->
  (pte_p (pde m D (PTD_OFFSET a)) = false -> slot_available (phys s) D = true) ->
  (forall i, 32 <= i < 1023 -> pte_p (pde m2 D i) = pte_p (pde m D i) || (i =? PTD_OFFSET a)) ->
  tally s D base (a + 1) p2 m2.
Proof using Hbase Hal Ha Ht Hpage.
  intros Hm Hf Hs H2; pose proof tally_opens as Ho; pose proof Ht as [T1 T2 T3]; destruct tally_pages as (E1 & E2 & E3 & E4).
  pose proof (user_ptd a ltac:(lia)) as Hi.
  split; cbv zeta in *; rewrite ?E1; unfold new_pages, new_tables in *; rewrite ?count_step, ?E3, ?E4, ?Ho, ?Hm by lia; cbn [negb].
  - rewrite T1, Hf; destruct (pte_p (pde m D (PTD_OFFSET a))); cbn [negb]; lia.
  - intros i Hi'; rewrite H2, T2 by done; destruct (Z.eqb_spec i (PTD_OFFSET a)) as [->|].
    + by rewrite touched_self, !orb_true_r.
    + by rewrite orb_false_r, touched_step.
  - destruct (pte_p (pde m D (PTD_OFFSET a))); cbn [negb]; [by rewrite Nat.add_0_r|right; auto].
Qed.

(** The request needs more than there is. *)
Lemma tally_short e1 :
  is_mapped (phys s) D a = false -> a < e1 -> e1 mod 4096 = 0 ->
  (free_pages p < 1 + (if pte_p (pde m D (PTD_OFFSET a)) then 0 else 1))%nat \/
    pte_p (pde m D (PTD_OFFSET a)) = false /\ slot_available (phys s) D = false ->
  ~ enough s D first (MM_PAGE e1 - first).
Proof using Hbase Hal Ha Ht Hpage.
  intros Hm He Hal1 Hor [N1 N2]; pose proof tally_opens as Ho; pose proof Ht as [T1 T2 T3]; destruct tally_pages as (E1 & E2 & E3 & E4).
  assert (Hn : 0 <= n + 1 <= MM_PAGE e1 - first) by (unfold MM_PAGE, MM_PAGE_SIZE in *; Z.div_mod_to_equations; lia).
  assert (L1 := count_le (fun q => negb (is_mapped (phys s) D (q * MM_PAGE_SIZE))) first _ _ Hn).
  assert (L2 := count_le (opens_area (phys s) D first) first _ _ Hn).
  unfold new_pages, new_tables in *; rewrite count_step, E3, ?E4, Hm in L1 by lia; rewrite count_step, E3, Ho in L2 by lia.
  destruct Hor as [Hlt|[Hp Hs]].
  - destruct (pte_p (pde m D (PTD_OFFSET a))); cbn [negb] in *; lia.
  - rewrite Hp in L2; cbn [negb] in L2; destruct N2 as [N2|N2]; [lia|congruence].
Qed.
End Tally.

Lemma tally_start s D base : base mod 4096 = 0 -> 2 ^ 27 <= base -> tally s D base base (pmem s) (phys s).
Proof.
  intros Hal Hb; assert (E : (base + 4095) / 4096 - MM_PAGE base = 0) by (unfold MM_PAGE, MM_PAGE_SIZE; Z.div_mod_to_equations; lia).
  split; rewrite ?E; [done| |by left]; intros i Hi; by rewrite Z.ltb_irrefl, orb_false_r.
Qed.

Lemma tally_enough s D base e1 p m : e1 mod 4096 = 0 -> tally s D base e1 p m -> enough s D (MM_PAGE base) (MM_PAGE e1 - MM_PAGE base).
Proof.
  intros Hal [T1 _ T3]; assert (E : (e1 + 4095) / 4096 = MM_PAGE e1) by (unfold MM_PAGE, MM_PAGE_SIZE; Z.div_mod_to_equations; lia).
  cbv zeta in T1; rewrite E in *; split; [lia|done].
Qed.

(** What a page table that is added costs, and what it adds to the directory. *)
Lemma used_after_count p p' m m2 D a new :
  used_after p p' new ->
  (if pte_p (pde m D (PTD_OFFSET a)) then new = None
   else exists n2, new = Some n2 /\ page_free p n2 /\ table m2 D (PTD_OFFSET a) = n2 * MM_PAGE_SIZE) ->
  free_pages p = ((if pte_p (pde m D (PTD_OFFSET a)) then 0 else 1) + free_pages p')%nat.
Proof.
  intros Hu; destruct (pte_p (pde m D (PTD_OFFSET a))); [intros ->|intros (n2 & -> & Hf & _)].
  - symmetry; apply free_pages_same; intros q Hq; by rewrite Hu.
  - apply (free_pages_used p p' n2 Hf); intros q Hq; rewrite Hu by done.
    case_decide; case_test; congruence.
Qed.

Lemma mapped_tables m m2 D a f r u :
  mapped m m2 D a f r u -> forall i, 0 <= i < 1023 -> pte_p (pde m2 D i) = pte_p (pde m D i) || (i =? PTD_OFFSET a).
Proof.
  intros [M1 _ M3 _] i Hi; destruct (Z.eqb_spec i (PTD_OFFSET a)) as [->|]; [|by rewrite orb_false_r, M3 by (lia || by left)].
  destruct (pte_p (pde m D (PTD_OFFSET a))) eqn:Ep; [rewrite M3 by (lia || by right); by rewrite Ep|cbn [orb]].
  revert M1; unfold walk; by destruct (pte_p (pde m2 D (PTD_OFFSET a))).
Qed.

(** A step of the code in a state that has paging on and no lock of the page tables held. *)
Definition user_ready (proc_ptd : Z) (s : mm) (D : Z) : Prop :=
  running proc_ptd s D /\ (pt_lock (pid s) ∉ locks s) /\ (sp_lock (pid s) ∉ locks s).

Section Loop.
Context (proc_ptd : Z) (s0 : mm) (D base e1 : Z).
Context (Hready : user_ready proc_ptd s0 D) (Hbase : 2 ^ 27 <= base) (Hal : base mod 4096 = 0) (He : e1 <= 4290772992).

Lemma page_start_base a : base <= a -> base <= page_start a.
Proof using Hal. unfold page_start, MM_PAGE, MM_PAGE_SIZE; intros; Z.div_mod_to_equations; lia. Qed.

(** One byte: nothing to do, or a page to be added. *)
Lemma grown_mapped a p m x :
  grown (phys s0) (pmem s0) D base a p m -> base <= a < e1 -> walk m D a = Some x -> grown (phys s0) (pmem s0) D base (a + 1) p m.
Proof using Hbase Hal He.
  intros Hg Ha Hx; pose proof (page_start_le a); apply grown_skip; auto using page_start_base with lia.
  - destruct (decide (page_start a < a)); [by left|right]; intros H0.
    rewrite (gr_outside _ _ _ _ _ _ _ Hg) in Hx; [congruence|lia|apply user_ptd; lia|right; lia].
  - apply user_ptd; lia.
Qed.

Lemma grown_unmapped a p m : grown (phys s0) (pmem s0) D base a p m -> base <= a < e1 -> walk m D a = None -> page_start a = a.
Proof using Hbase Hal He.
  intros Hg Ha Hn; pose proof (page_start_le a); pose proof (page_start_base a); destruct (decide (page_start a = a)); [done|].
  destruct (walk (phys s0) D a) as [x|] eqn:E0.
  - rewrite (gr_kept _ _ _ _ _ _ _ Hg a x) in Hn; [done|lia|apply user_ptd; lia|done].
  - destruct (gr_new _ _ _ _ _ _ _ Hg a ltac:(lia) ltac:(lia) E0) as (k & E & _); congruence.
Qed.

Lemma add_page_ok a p m t :
  space_ok (upd p m t s0) D -> grown (phys s0) (pmem s0) D base a p m -> base <= a < e1 -> walk m D a = None ->
  (exists p' t', get_phys_page (upd p m t s0) = Ok (0, upd p' m t' s0) /\ space_ok (upd p' m t' s0) D /\ grown (phys s0) (pmem s0) D base a p' m /\
     free_pages p = 0%nat) \/
  exists n p1 t1 rc p2 m2 t2, n * MM_PAGE_SIZE <> 0 /\ get_phys_page (upd p m t s0) = Ok (n * MM_PAGE_SIZE, upd p1 m t1 s0) /\
    mm_map_page proc_ptd D (n * MM_PAGE_SIZE) a MM_READ_WRITE MM_USER_PAGE 0 (pid s0) (upd p1 m t1 s0) = Ok (rc, upd p2 m2 t2 s0) /\
    space_ok (upd p2 m2 t2 s0) D /\
    (rc = 0 /\ grown (phys s0) (pmem s0) D base (a + 1) p2 m2 /\
       free_pages p = (1 + (if pte_p (pde m D (PTD_OFFSET a)) then 0 else 1) + free_pages p2)%nat /\
       (pte_p (pde m D (PTD_OFFSET a)) = false -> slot_available m D = true) /\
       (forall i, 32 <= i < 1023 -> pte_p (pde m2 D i) = pte_p (pde m D i) || (i =? PTD_OFFSET a)) \/
     rc <> 0 /\ grown (phys s0) (pmem s0) D base a p2 m2 /\ pte_p (pde m D (PTD_OFFSET a)) = false /\
       (free_pages p = 1%nat \/ slot_available m D = false)).
Proof using Hready Hbase Hal He.
  intros Hs Hg Ha Hno; destruct Hready as ((_ & H1 & HD) & Hl1 & Hl2).
  destruct (get_page_step (upd p m t s0) D Hs) as (r & p1 & E & Hs1 & [(-> & Hz & Hsame)|(n & Hn & Hf & -> & Hk)]).
  { left; exists p1, t; split; [exact E|]; split; [exact Hs1|]; split; [|by apply free_pages_zero].
    apply (grown_bits _ _ _ _ _ p); [done|]; intros q Hq Hb; by rewrite Hsame. }
  right; change (pmem (upd p m t s0)) with p in *; change (set_pmem p1 (upd p m t s0)) with (upd p1 m t s0) in *.
  assert (Hfr : 0 < n * MM_PAGE_SIZE < 2 ^ 32) by (apply free_range; destruct Hf; lia).
  assert (Hpage : MM_PAGE a <> MM_PAGE D).
  { pose proof (tb_dir _ _ _ (sp_tables _ _ Hs)) as [_ HDr]; unfold MM_PAGE, MM_PAGE_SIZE; Z.div_mod_to_equations; lia. }
  destruct (map_page_ok proc_ptd (upd p1 m t s0) D (n * MM_PAGE_SIZE) a MM_READ_WRITE MM_USER_PAGE 0 (pid s0) Hs1)
    as (rc & s2 & E2 & Hs2 & Hr); try done; try lia; [apply user_ptd; lia|by right|by right; left|].
  assert (Hfree : free_pages p = S (free_pages p1)) by by apply (free_pages_take p p1 n).
  exists n, p1, t, rc; destruct Hr as [p2 t2 Hpf Hroom Hsame|p2 t2 m2 new Hroom Hm Hu Hnew].
  - exists p2, m, t2; split_and!; [lia|exact E|exact E2|exact Hs2|right; split_and!; [done| |done|]].
    + apply (grown_bits _ _ _ _ _ p); [done|]; intros q Hq Hb; rewrite Hsame by done; cbn.
      rewrite (taken_bit p n) by (done || lia); by case_test.
    + destruct Hroom as [Hroom|[_ Hroom]]; [left; by rewrite Hfree, (free_pages_zero p1 Hroom)|right; by apply slot_available_false].
  - cbn [phys pmem upd set_pmem set_phys] in Hm, Hu, Hnew, Hroom.
    exists p2, m2, t2; split_and!; [lia|exact E|exact E2|exact Hs2|left; split_and!; [done| |..]].
    + change (Z.odd MM_READ_WRITE) with true in Hm; change (Z.odd MM_USER_PAGE) with true in Hm; rewrite !andb_true_r in Hm.
      pose proof (user_ptd a ltac:(lia)); rewrite (dir_rw_paged (upd p1 m t s0) D) in Hm by (done || lia).
      unfold MM_PAGE_SIZE in Hm at 1; rewrite Z.div_mul in Hm by lia; change 4096 with MM_PAGE_SIZE in Hm.
      apply (grow_map s0 D base a n p p1 p2 m m2 new t); auto with lia; by apply (grown_unmapped a p m).
    + by rewrite Hfree, (used_after_count p1 p2 m m2 D a new).
    + intros Hp; destruct Hroom as [Hroom|Hroom]; [congruence|]; destruct (slot_available m D) eqn:Es; [done|].
      destruct Hroom; right; split; [done|by apply slot_available_false].
    + intros i Hi; apply (mapped_tables _ _ _ _ _ _ _ Hm); lia.
Qed.

(** A page the loop has not reached is as it was. *)
Lemma grown_is_mapped a p m : grown (phys s0) (pmem s0) D base a p m -> base <= a < e1 -> page_start a = a ->
  is_mapped (phys s0) D a = is_mapped m D a.
Proof using Hbase He.
  intros Hg Ha Hp; unfold is_mapped; rewrite (gr_outside _ _ _ _ _ _ _ Hg); [done|lia|apply user_ptd; lia|right; lia].
Qed.

(** A byte of a page that is mapped. *)
Lemma tally_present a p m x :
  grown (phys s0) (pmem s0) D base a p m -> base <= a < e1 -> walk m D a = Some x -> tally s0 D base a p m -> tally s0 D base (a + 1) p m.
Proof using Hbase Hal He.
  intros Hg Ha Hx Ht; destruct (decide (a mod 4096 = 0)) as [Hm|Hm]; [|by apply tally_inner; try lia].
  apply tally_mapped; try done; try lia; rewrite (grown_is_mapped a p m); [unfold is_mapped; by rewrite Hx|done|lia|].
  unfold page_start, MM_PAGE, MM_PAGE_SIZE; Z.div_mod_to_equations; lia.
Qed.

Context (Hal1 : e1 mod 4096 = 0) (Hlim : e1 <= 4290740224).

(** The slots are as they were. *)
Lemma grown_slots a p m t :
  grown (phys s0) (pmem s0) D base a p m -> a <= e1 -> space_ok (upd p m t s0) D -> slot_available m D = slot_available (phys s0) D.
Proof using Hready Hbase Hlim.
  intros Hg Ha Hs; pose proof Hready as ((Hs0 & Hon & _) & _).
  pose proof (pg_resv _ _ (paged_mode _ _ Hs Hon)) as H1; pose proof (pg_resv _ _ (paged_mode _ _ Hs0 Hon)) as H2.
  cbn [phys upd set_pmem set_phys] in H1; apply slot_available_ext; intros k Hk.
  destruct (slot_offsets k ltac:(lia)) as (O1 & O2 & O3 & O4 & _).
  assert (Hw : walk m D (slot_page k) = walk (phys s0) D (slot_page k)).
  { apply (gr_outside _ _ _ _ _ _ _ Hg); [lia|lia|right]; unfold page_start, MM_PAGE, MM_PAGE_SIZE.
    unfold slot_page in *; change first_reserved_page with 4290740224 in *; unfold MM_PAGE_SIZE in *; Z.div_mod_to_equations; lia. }
  revert Hw; rewrite !walk_present, O1, O2 by (by rewrite O1); cbv zeta; fold (slot m D k) (slot (phys s0) D k).
  by destruct (pte_p (slot m D k)), (pte_p (slot (phys s0) D k)).
Qed.

Lemma add_pages_ok k a p m t :
  space_ok (upd p m t s0) D -> grown (phys s0) (pmem s0) D base a p m -> base <= a <= e1 -> (Z.to_nat (e1 - a) < k)%nat ->
  tally s0 D base a p m ->
  exists rc p' m' t' a', add_pages proc_ptd k a (e1 - 1) (upd p m t s0) = Ok (rc, upd p' m' t' s0) /\ space_ok (upd p' m' t' s0) D /\
    grown (phys s0) (pmem s0) D base a' p' m' /\ base <= a' <= e1 /\
    (rc = 0 /\ a' = e1 /\ enough s0 D (MM_PAGE base) (MM_PAGE e1 - MM_PAGE base) \/
     rc = ENOMEM /\ a' < e1 /\ ~ enough s0 D (MM_PAGE base) (MM_PAGE e1 - MM_PAGE base)).
Proof using Hready Hbase Hal He Hal1 Hlim.
  revert a p m t; induction k as [|k IH]; intros a p m t Hs Hg Ha Hk Ht; [lia|].
  cbn [add_pages]; replace (e1 - 1 + 1) with e1 by lia; rewrite (u32_small e1) by lia.
  destruct (Z.ltb_spec a e1) as [Hlt|Hge].
  2: { assert (a = e1) as -> by lia; exists 0, p, m, t, e1; split_and!; auto with lia; left; split_and!; try done; by eapply tally_enough. }
  pose proof Hready as ((_ & H1 & HD) & _).
  destruct (page_mapped_ok proc_ptd (upd p m t s0) D a) as (t1 & Hs1 & E1); [split; [done|lia]|done|].
  rewrite (mm_bind_ok _ _ _ _ _ E1); change (set_tlb t1 (upd p m t s0)) with (upd p m t1 s0) in *.
  cbn [phys upd set_pmem set_phys] in *.
  assert (Hnext : u32 (a + 1) = a + 1) by (apply u32_small; lia); rewrite Hnext.
  destruct (walk m D a) as [x|] eqn:Ew; cbn [negb].
  { apply IH; auto with lia; [by apply (grown_mapped a p m x); [|lia|]|by apply (tally_present a p m x); [|lia|..]]. }
  pose proof (grown_unmapped a p m Hg ltac:(lia) Ew) as Hpage; pose proof (grown_slots a p m t Hg ltac:(lia) Hs) as Hslot.
  assert (Hmod : a mod 4096 = 0) by (revert Hpage; unfold page_start, MM_PAGE, MM_PAGE_SIZE; intros; Z.div_mod_to_equations; lia).
  assert (Hno : is_mapped (phys s0) D a = false) by (rewrite (grown_is_mapped a p m) by (done || lia); unfold is_mapped; by rewrite Ew).
  assert (Hshort := tally_short s0 D base a p m ltac:(lia) Hal ltac:(lia) Ht Hmod e1 Hno Hlt Hal1).
  destruct (add_page_ok a p m t1 Hs1 Hg ltac:(lia) Ew)
    as [(p' & t' & E2 & Hs2 & Hg2 & Hz)|(n & p1 & t2 & rc & p2 & m2 & t3 & Hn & E2 & E3 & Hs3 & Hcase)];
    rewrite (mm_bind_ok _ _ _ _ _ E2).
  { cbn [Z.eqb]; exists ENOMEM, p', m, t', a; split_and!; auto with lia; right; split_and!; try done; apply Hshort; lia. }
  rewrite (proj2 (Z.eqb_neq _ _) Hn).
  erewrite (mm_bind_ok _ _ (upd p1 m t2 s0)) by (unfold mm_get_ptd, gets; cbn; by rewrite HD).
  erewrite (mm_bind_ok _ _ (upd p1 m t2 s0)) by reflexivity; cbn [pid upd set_pmem set_phys set_tlb].
  rewrite (mm_bind_ok _ _ _ _ _ E3); destruct Hcase as [(-> & Hg3 & Hf & Hsl & Htab)|(Hrc & Hg3 & Hp & Hor)].
  - cbn [Z.eqb negb]; apply IH; auto with lia; rewrite Hslot in Hsl.
    by apply (tally_new s0 D base a p m ltac:(lia) Hal ltac:(lia) Ht Hmod).
  - rewrite (proj2 (Z.eqb_neq _ _) Hrc); cbn [negb]; exists ENOMEM, p2, m2, t3, a; split_and!; auto with lia; right.
    split_and!; try done; apply Hshort; rewrite Hp, <- Hslot; destruct Hor as [->|]; [left; lia|by right].
Qed.
End Loop.

(** The first page above which nothing is allocated, to leave room for the stack. *)
Definition user_limit : Z := MM_PAGE MM_VIRTUAL_TOS_USER - MM_STACK_PAGES.

Lemma user_limit_value : user_limit = 1047287.
Proof. done. Qed.

Lemma grown_refl s D base : user_dirs (phys s) D -> grown (phys s) (pmem s) D base base (pmem s) (phys s).
Proof. intros Hd; split; try done; intros; lia. Qed.

Lemma add_user_ok proc_ptd s D base e1 :
  user_ready proc_ptd s D -> user_dirs (phys s) D -> 2 ^ 27 <= base <= e1 -> base mod 4096 = 0 -> e1 mod 4096 = 0 -> e1 < 2 ^ 32 ->
  if user_limit <=? MM_PAGE e1 then add_user_space_pages proc_ptd base (e1 - 1) s = Ok (EINVAL, s)
  else exists rc p m t a, add_user_space_pages proc_ptd base (e1 - 1) s = Ok (rc, upd p m t s) /\ space_ok (upd p m t s) D /\
    grown (phys s) (pmem s) D base a p m /\ base <= a <= e1 /\
    (rc = 0 /\ a = e1 /\ enough s D (MM_PAGE base) (MM_PAGE e1 - MM_PAGE base) \/
     rc = ENOMEM /\ a < e1 /\ ~ enough s D (MM_PAGE base) (MM_PAGE e1 - MM_PAGE base)).
Proof.
  intros Hr Hd Hb Hal1 Hal2 He; unfold add_user_space_pages; replace (e1 - 1 + 1) with e1 by lia; rewrite (u32_small e1) by lia.
  change (base mod MM_PAGE_SIZE) with (base mod 4096); change (e1 mod MM_PAGE_SIZE) with (e1 mod 4096).
  rewrite Hal1, Hal2; cbn [Z.eqb negb orb]; fold user_limit.
  destruct (Z.leb_spec user_limit (MM_PAGE e1)) as [|Hlt]; [done|].
  rewrite user_limit_value in Hlt; unfold MM_PAGE, MM_PAGE_SIZE in Hlt.
  pose proof Hr as ((Hs & _) & _).
  assert (Hlim : e1 <= 4290740224) by (Z.div_mod_to_equations; lia).
  destruct (add_pages_ok proc_ptd s D base e1 Hr) with (k := S (Z.to_nat (e1 - base))) (a := base) (p := pmem s) (m := phys s) (t := tlb s)
    as (rc & p & m & t & a & E & H); try lia; try done.
  - by rewrite upd_eta.
  - by apply grown_refl.
  - apply tally_start; [done|lia].
  - rewrite upd_eta in E; by exists rc, p, m, t, a.
Qed.

(** The break lies in the user area, on a page boundary. *)
Definition sbrk_pre (proc_ptd : Z) (s : mm) (D : Z) : Prop :=
  user_ready proc_ptd s D /\ (as_lock (pid s) ∉ locks s) /\ user_dirs (phys s) D /\
  let b := brk (address_space s (pid s)) in 2 ^ 27 <= b < 2 ^ 32 /\ b mod 4096 = 0.

(** The break rounded up to a page. *)
Definition round_up (x : Z) : Z := (x + 4095) / 4096 * 4096.

Lemma next_brk_ok b size : 0 <= b -> 0 < size -> b + size + 4095 < 2 ^ 32 -> next_brk b size = round_up (b + size).
Proof.
  intros Hb Hs Hr; unfold next_brk, round_up, MM_PAGE_SIZE; rewrite (u32_small (b + size)) by lia.
  destruct (Z.eqb_spec ((b + size) mod 4096) 0); cbn [negb]; [Z.div_mod_to_equations; lia|].
  rewrite u32_small; Z.div_mod_to_equations; lia.
Qed.

Lemma ready_locks proc_ptd s D l :
  user_ready proc_ptd s D -> (forall q, l <> pt_lock q) -> (forall q, l <> sp_lock q) ->
  user_ready proc_ptd (set_locks (l :: locks s) s) D.
Proof.
  intros ((Hs & H1 & HD) & Hl1 & Hl2) Hp Hq; split; [split; [by apply space_locks|done]|].
  split; cbn; intros [E|?]%elem_of_cons; try done; [by apply (Hp (pid s))|by apply (Hq (pid s))].
Qed.


Lemma ex_user_dirs : user_dirs ex_mem ex_dir.
Proof. intros i Hi Hp; destruct (ex_present i ltac:(lia) Hp) as [->|[->| ->]]; [lia| |]; by rewrite ex_pde. Qed.

Lemma ex_sbrk_pre : sbrk_pre ex_dir ex_mm ex_dir.
Proof.
  split; [split; [apply ex_running|split; apply not_elem_of_nil]|]; split; [apply not_elem_of_nil|].
  split; [apply ex_user_dirs|]; cbn; split; [lia|done].
Qed.


(** A request that wraps around moves the break below the user area, into that of the kernel,
    and reports success. *)
Theorem sbrk_wraps proc_ptd s D :
  sbrk_pre proc_ptd s D -> brk (address_space s (pid s)) = 1073745920 ->
  exists s', do_sbrk proc_ptd (2 ^ 32 - 1073741824) s = Ok (4096, s') /\ brk (address_space s' (pid s)) = 4096.
Proof.
  intros (Hr & Hl & _) Hb; unfold do_sbrk.
  erewrite (mm_bind_ok _ _ s) by reflexivity; erewrite mm_bind_ok by (by apply lock_ok).
  change (2 ^ 32 - 1073741824 =? 0) with false; cbv iota.
  erewrite mm_bind_ok by reflexivity; cbn [address_space set_locks]; rewrite Hb.
  change (next_brk 1073745920 (2 ^ 32 - 1073741824)) with 4096.
  erewrite mm_bind_ok by reflexivity; cbn [Z.eqb negb]; erewrite mm_bind_ok by reflexivity.
  erewrite mm_bind_ok by reflexivity; eexists; split; [reflexivity|].
  cbn; unfold set_brk; cbn; by rewrite fn_lookup_insert.
Qed.
