(* ===== verification/KHeap.v ===== *)
(** * The kernel heap ([kernel/mm.c]): [mm_init_heap], [mm_extend_heap], [kmalloc], [kfree]

    The heap of [Heap] in the machine of [Paging].  Its bytes are kept in a memory [m] that is
    addressed by virtual addresses, so that the code of the heap can be run on it; the
    machine [mm] holds the physical pages and the page tables.  When the heap grows,
    [mm_extend_heap] takes physical pages and maps them, and the bytes of the new area
    are those of these pages.  That all bytes of the heap are mapped and writable, and that no two of its
    pages share a physical page, is proved in [KHeapProofs]. *)

From S2P Require Import Prelude Errors Memory MmDefs Lists PhysMem Paging Heap MmUser.

Module KHeap.
Import Heap.

Section KHeap.
Context (proc_ptd : Z).

(** The loop over the pages of [mm_extend_heap]; [false] if there is no physical page left.
    The result of [mm_map_page] is not used. *)
Fixpoint extend_pages (fuel : nat) (page new_top : Z) : mmM bool :=
  match fuel with
  | O => hang
  | S fuel =>
      if page <? u32 (new_top + 1) then
        phys_page ← get_phys_page;
        if phys_page =? 0 then mret false
        else
          ptd ← mm_get_ptd proc_ptd;
          me ← gets pid;
          mm_map_page proc_ptd ptd phys_page page MM_READ_WRITE MM_SUPERVISOR_PAGE 0 me;;
          extend_pages fuel (u32 (page + MM_PAGE_SIZE)) new_top
      else mret true
  end.

(** One round for each page, and one to leave the loop. *)
Definition extend_fuel (page new_top : Z) : nat := S (Z.to_nat ((new_top + 1 - page + (MM_PAGE_SIZE - 1)) / MM_PAGE_SIZE)).

Definition mm_extend_heap (size current_top : Z) : mmM Z :=
  let max_kheap_top := MM_MEMIO_START - 1 in
  KASSERT (0 =? u32 (current_top + 1) mod MM_PAGE_SIZE);;
  let new_top := u32 (MM_ALIGN (u32 (current_top + size)) - 1) in
  if new_top <=? max_kheap_top then
    let page := u32 (current_top + 1) in
    ok ← extend_pages (extend_fuel page new_top) page new_top;
    mret (if (ok : bool) then new_top else 0)
  else mret 0.

(** The memory with the bytes from [lo] to [hi] as the processor finds them. *)
Definition mapped_bytes (w : mm) (lo hi : Z) (m : mem) : mem :=
  fun a => if (lo <=? a) && (a <=? hi) then vbyte (phys w) (mm_get_ptd_for_pid proc_ptd (pid w)) a else m a.

(** [mm_extend_heap] as the heap calls it. *)
Definition heap_extension (size top : Z) (m : mem) (w : mm) : option (Z * mem * mm) :=
  match mm_extend_heap size top w with
  | Ok (r, w) => Some (r, if r =? 0 then m else mapped_bytes w (top + 1) r m, w)
  | _ => None
  end.

(** [kernel_heap], [kernel_heap_initialized] and [kernel_heap_lock]. *)
Record kernel_state := mk_kernel {
  kernel_heap : heap_t mm;
  kernel_heap_initialized : bool;
  kernel_heap_lock : bool
}.

(** A function of the heap that does not return: it has stopped the machine, or does not terminate. *)
Definition returned {A} (r : option A) : res A := match r with Some a => Ok a | None => Hang end.

(** [mm_init_heap]; [params] is the value of the kernel parameter [heap_validate]. *)
Definition mm_init_heap (m : mem) (params : Z) (w : mm) : res (mem * kernel_state * mm) :=
  let heap_start := u32 (virt_ramdisk_end w + MM_PAGE_SIZE) in
  let max_kheap_top := (MM_SHARED_PAGE_TABLES - MM_MEMIO_PAGE_TABLES) * MM_PAGE_SIZE * MM_PT_ENTRIES - 1 in
  let top := u32 (heap_start + MM_PAGE_SIZE - 1) in
  if negb (top <? max_kheap_top) then Panic
  else
    '(phys_page, w) ← get_phys_page w;
    if phys_page =? 0 then Panic
    else
      '(ptd, w) ← mm_get_ptd proc_ptd w;
      '(_, w) ← mm_map_page proc_ptd ptd phys_page heap_start MM_READ_WRITE MM_SUPERVISOR_PAGE 0 0 w;
      '(m, h, rc) ← returned (heap_init (mapped_bytes w heap_start top m) heap_start top (Some heap_extension));
      let h := mk_heap (start h) (current_top h) (extension h) params in
      if negb (rc =? 0) then Panic else Ok (m, mk_kernel h true false, w).

Definition kmalloc_aligned (m : mem) (k : kernel_state) (w : mm) (size alignment : Z) : res (mem * kernel_state * mm * Z) :=
  if kernel_heap_lock k then Hang
  else
    '(m, w, h, rc) ← returned (heap_malloc_aligned m w (kernel_heap k) size alignment);
    Ok (m, mk_kernel h (kernel_heap_initialized k) false, w, rc).

Definition kmalloc (m : mem) (k : kernel_state) (w : mm) (size : Z) : res (mem * kernel_state * mm * Z) :=
  if negb (kernel_heap_initialized k) then Ok (m, k, w, 0)
  else if kernel_heap_lock k then Hang
  else
    '(m, w, h, rc) ← returned (heap_malloc m w (kernel_heap k) size);
    Ok (m, mk_kernel h (kernel_heap_initialized k) false, w, rc).

Definition kfree (m : mem) (k : kernel_state) (ptr : Z) : res mem :=
  if ptr =? 0 then Panic
  else if kernel_heap_lock k then Hang
  else returned (heap_free m (kernel_heap k) ptr).

End KHeap.
End KHeap.
