(* ===== verification/KHeapProofs.v ===== *)
(** * The kernel heap: its pages are mapped, and its operations are those of a heap *)

From S2P Require Import Prelude Errors Memory MmDefs Lists PhysMem PhysMemProofs Paging PagingProofs PagingMap Mm MmUser MmExample MmSbrk.
From S2P Require Import Heap HeapProofs KHeap.

Module KHeapProofs.
Import Lists Heap HeapProofs KHeap.

(** ** The pages of the heap *)

(** The addresses from [lo] up to, not including, [hi] are mapped and writable, to data pages in use,
    and no two pages to the same one. *)
Record pages_ok (w : mm) (D lo hi : Z) : Prop := {
  po_page : forall a, lo <= a < hi -> exists x, walk (phys w) D a = Some x /\ x_rw x = true /\
    bit (pmem w) (MM_PAGE (x_frame x)) = 1 /\ data_frame (phys w) D (x_frame x);
  po_inj : forall a b x y, lo <= a < hi -> lo <= b < hi -> walk (phys w) D a = Some x -> walk (phys w) D b = Some y ->
    x_frame x = x_frame y -> MM_PAGE a = MM_PAGE b
}.

Section KHeap.
Context (proc_ptd : Z).

(** The memory manager, as the kernel heap that starts at [lo] needs it: paging is on, the locks are free, the directory lies
    below the heap, the page tables of the area of the kernel exist. *)
Record manager_ok (w : mm) (D lo : Z) : Prop := {
  mo_run : running proc_ptd w D;
  mo_pt : pt_lock (pid w) ∉ locks w;
  mo_sp : sp_lock (pid w) ∉ locks w;
  mo_dir : D + MM_PAGE_SIZE <= lo;
  mo_tables : forall i, 0 <= i < MM_SHARED_PAGE_TABLES -> pte_p (pde (phys w) D i) = true
}.

(** What [mm_extend_heap] relies on, and keeps, for a heap from [lo] with top [top]. *)
Definition heap_world (lo top : Z) (w : mm) : Prop :=
  lo <= top < MM_MEMIO_START /\ (top + 1) mod MM_PAGE_SIZE = 0 /\
  exists D, manager_ok w D lo /\ pages_ok w D lo (top + 1).

Lemma data_frame_page m D x : data_frame m D x -> x = MM_PAGE x * MM_PAGE_SIZE.
Proof. intros [H _]; unfold MM_PAGE, MM_PAGE_SIZE; Z.div_mod_to_equations; lia. Qed.

Lemma pages_grow w D lo page n p p2 m2 us t :
  pages_ok w D lo page -> space_ok w D -> page_free (pmem w) n -> taken (pmem w) n p -> used_after p p2 None ->
  mapped (phys w) m2 D page (n * MM_PAGE_SIZE / 4096 * 4096) true us -> pte_p (pde (phys w) D (PTD_OFFSET page)) = true ->
  0 <= lo <= page -> page < MM_MEMIO_START -> page mod 4096 = 0 ->
  pages_ok (upd p2 m2 t (set_pmem p w)) D lo (page + MM_PAGE_SIZE).
Proof.
  intros [Hp1 Hp2] Hs Hf Hk Hu Hm Hpres Hlo Hr Hal; rewrite memio_start in Hr; unfold MM_PAGE_SIZE.
  replace (n * MM_PAGE_SIZE / 4096 * 4096) with (n * MM_PAGE_SIZE) in Hm by (unfold MM_PAGE_SIZE; Z.div_mod_to_equations; lia).
  pose proof Hm as [M1 M2 _ _]; assert (0 <= n) by (destruct Hf; lia).
  assert (Hbit : forall q, 0 <= q -> bit p2 q = if n =? q then 1 else bit (pmem w) q).
  { intros q Hq; rewrite Hu by done; rewrite decide_False by done; apply taken_bit; auto. }
  assert (Hnew : forall a, page <= a < page + 4096 -> walk m2 D a = Some (mk_xlat (n * MM_PAGE_SIZE) true us)).
  { intros a Ha; rewrite (walk_page m2 D a page); [done|]; unfold MM_PAGE, MM_PAGE_SIZE; Z.div_mod_to_equations; lia. }
  assert (Hold : forall a, lo <= a < page -> walk m2 D a = walk (phys w) D a).
  { intros a Ha; apply M2; [lia|rewrite ptd_offset; Z.div_mod_to_equations; lia|].
    unfold MM_PAGE, MM_PAGE_SIZE; Z.div_mod_to_equations; lia. }
  assert (Hframe : forall a x, lo <= a < page -> walk (phys w) D a = Some x -> x_frame x <> n * MM_PAGE_SIZE /\ 0 <= MM_PAGE (x_frame x)).
  { intros a x Ha Hx; destruct (Hp1 a Ha) as (y & Hy & _ & Hb & _); assert (y = x) as -> by congruence.
    destruct (frame_range _ _ _ _ (tb_bytes _ _ _ (sp_tables _ _ Hs)) Hx); split; [|apply page_nonneg; lia].
    intros E; rewrite E, page_of_base in Hb; destruct Hf; congruence. }
  split; cbn [phys pmem upd set_pmem set_phys].
  - intros a Ha; destruct (decide (a < page)) as [Hlt|Hge].
    + destruct (Hp1 a ltac:(lia)) as (x & Hx & Hrw & Hb & Hd); exists x; rewrite Hold by lia.
      destruct (Hframe a x ltac:(lia) Hx) as [_ Hn]; split_and!; auto.
      * rewrite Hbit by done; by case_test.
      * apply (data_frame_fwd _ _ _ _ _ _ _ _ Hm); auto.
    + eexists; split; [apply Hnew; lia|]; cbn [x_rw x_frame]; split_and!; [done| |].
      * rewrite page_of_base, Hbit by done; by rewrite Z.eqb_refl.
      * apply (data_frame_fwd _ _ _ _ _ _ _ _ Hm); auto; by apply fresh_frame.
  - intros a b x y Ha Hb; destruct (decide (a < page)), (decide (b < page));
      rewrite ?(Hold a), ?(Hold b), ?(Hnew a), ?(Hnew b) by lia; intros Hx Hy E.
    + apply (Hp2 a b x y); auto; lia.
    + injection Hy as <-; destruct (Hframe a x ltac:(lia) Hx); done.
    + injection Hx as <-; destruct (Hframe b y ltac:(lia) Hy); by symmetry in E.
    + unfold MM_PAGE, MM_PAGE_SIZE; Z.div_mod_to_equations; lia.
Qed.

(** One more page: it gets a free physical page, the others keep theirs. *)
Lemma extend_page_ok w D lo page pd_id :
  manager_ok w D lo -> pages_ok w D lo page -> pt_lock pd_id ∉ locks w ->
  lo <= page < MM_MEMIO_START -> page mod MM_PAGE_SIZE = 0 ->
  (exists w', get_phys_page w = Ok (0, w') /\ manager_ok w' D lo /\ pages_ok w' D lo page /\ (forall n, ~ page_free (pmem w) n)) \/
  exists b w1 w2, b <> 0 /\ get_phys_page w = Ok (b, w1) /\ mm_get_ptd proc_ptd w1 = Ok (D, w1) /\ pid w1 = pid w /\
    mm_map_page proc_ptd D b page MM_READ_WRITE MM_SUPERVISOR_PAGE 0 pd_id w1 = Ok (0, w2) /\
    manager_ok w2 D lo /\ pages_ok w2 D lo (page + MM_PAGE_SIZE) /\ pid w2 = pid w /\ locks w2 = locks w.
Proof.
  intros [Hrun Hpt Hsp Hdir Htab] [Hp1 Hp2] Hl Hr Hal; pose proof Hrun as (Hs & H1 & HD).
  pose proof (tb_dir _ _ _ (sp_tables _ _ Hs)) as [_ HDr]; rewrite memio_start in Hr; unfold MM_PAGE_SIZE in Hal, Hdir.
  destruct (get_page_step w D Hs) as (r & p & E & Hs1 & [(-> & Hno & Hsame)|(n & Hn & Hf & -> & Hk)]).
  { left; exists (set_pmem p w); split; [exact E|]; split; [by split|]; split; [|done]; split; [|done].
    intros a Ha; destruct (Hp1 a Ha) as (x & Hx & Hrw & Hb & Hd); exists x; split_and!; auto; cbn.
    destruct (frame_range _ _ _ _ (tb_bytes _ _ _ (sp_tables _ _ Hs)) Hx); rewrite Hsame; [done|apply page_nonneg; lia]. }
  right; assert (Hfr : 0 < n * MM_PAGE_SIZE < 2 ^ 32) by (apply free_range; destruct Hf; lia).
  assert (Hd : PTD_OFFSET page < 32) by (rewrite ptd_offset; Z.div_mod_to_equations; lia).
  pose proof (ptd_offset_range page ltac:(lia)) as Hd0.
  assert (Hpres : pte_p (pde (phys w) D (PTD_OFFSET page)) = true) by (apply Htab; unfold MM_SHARED_PAGE_TABLES; lia).
  destruct (map_page_ok proc_ptd (set_pmem p w) D (n * MM_PAGE_SIZE) page MM_READ_WRITE MM_SUPERVISOR_PAGE 0 pd_id Hs1)
    as (rc & w2 & E2 & Hs2 & Hres); try done; try lia; [right; unfold MM_PAGE, MM_PAGE_SIZE; Z.div_mod_to_equations; lia|by right; left|].
  destruct Hres as [p2 t2 Hpf _ _|p2 t2 m2 new _ Hm Hu Hnew]; [cbn [phys set_pmem] in Hpf; congruence|].
  cbn [phys pmem set_pmem] in *; rewrite Hpres in Hnew; subst new.
  change (Z.odd MM_READ_WRITE) with true in Hm; rewrite andb_true_r in Hm.
  rewrite (dir_rw_paged w D) in Hm by (done || lia).
  exists (n * MM_PAGE_SIZE), (set_pmem p w), (upd p2 m2 t2 (set_pmem p w)); split_and!; try done; try lia.
  - unfold mm_get_ptd, gets; cbn; by rewrite HD.
  - split; try done. intros i Hi; cbn; rewrite (mp_pde _ _ _ _ _ _ _ Hm); auto; unfold MM_SHARED_PAGE_TABLES in Hi; lia.
  - apply (pages_grow w D lo page n p p2 m2 (dir_us (phys w) D (PTD_OFFSET page) && Z.odd MM_SUPERVISOR_PAGE) t2); try done; try lia.
    by rewrite memio_start; lia.
Qed.

Lemma extend_loop_ok k D lo new_top : forall w page,
  manager_ok w D lo -> pages_ok w D lo page -> lo <= page <= new_top + 1 -> new_top < MM_MEMIO_START ->
  page mod MM_PAGE_SIZE = 0 -> (new_top + 1) mod MM_PAGE_SIZE = 0 ->
  (Z.to_nat ((new_top + 1 - page) / MM_PAGE_SIZE) < k)%nat ->
  exists ok w', extend_pages proc_ptd k page new_top w = Ok (ok, w') /\ manager_ok w' D lo /\
    (if (ok : bool) then pages_ok w' D lo (new_top + 1) else pages_ok w' D lo page).
Proof.
  induction k as [|k IH]; intros w page Hw Hp Hr Htop Hal Hal' Hk; [lia|]; cbn [extend_pages].
  pose proof (mo_dir _ _ _ Hw); pose proof Hw as [(Hs & _) _ _ _ _]; pose proof (tb_dir _ _ _ (sp_tables _ _ Hs)) as [_ HDr].
  pose proof memio_start as Hmem; unfold MM_PAGE_SIZE in *.
  rewrite (u32_small (new_top + 1)) by lia; destruct (Z.ltb_spec page (new_top + 1)) as [Hlt|Hge].
  2: { exists true, w; split_and!; [done|done|]; by replace (new_top + 1) with page by lia. }
  destruct (extend_page_ok w D lo page (pid w) Hw Hp (mo_pt _ _ _ Hw) ltac:(lia) Hal)
    as [(w' & E & Hw' & Hp' & _)|(b & w1 & w2 & Hb & E1 & E2 & Epid & E3 & Hw2 & Hp2 & _)].
  { rewrite (mm_bind_ok _ _ _ _ _ E); cbn [Z.eqb]; by exists false, w'. }
  rewrite (mm_bind_ok _ _ _ _ _ E1), (proj2 (Z.eqb_neq _ _) Hb), (mm_bind_ok _ _ _ _ _ E2).
  erewrite (mm_bind_ok _ _ w1) by reflexivity; rewrite Epid, (mm_bind_ok _ _ _ _ _ E3), u32_small by lia.
  destruct (IH w2 (page + 4096) Hw2 Hp2) as (ok & w' & E & Hw' & Hcase); try done; try lia.
  - Z.div_mod_to_equations; lia.
  - Z.div_mod_to_equations; lia.
  - Z.div_mod_to_equations; lia.
  - exists ok, w'; split_and!; [done|done|]; destruct ok; [done|].
    split; [intros a Ha; apply (po_page _ _ _ _ Hcase)|intros a c x y Ha Hc; apply (po_inj _ _ _ _ Hcase)]; lia.
Qed.

Lemma extend_heap_ok lo size top w :
  heap_world lo top w -> 0 <= size -> top + size < 2 ^ 32 ->
  exists r w', mm_extend_heap proc_ptd size top w = Ok (r, w') /\
    (r = 0 /\ heap_world lo top w' \/ top + size <= r /\ 0 < r /\ heap_world lo r w').
Proof.
  intros (Ht & Hal & D & Hw & Hp) Hsz Hfit; unfold mm_extend_heap; pose proof memio_start as Hmem.
  pose proof (mo_dir _ _ _ Hw); pose proof Hw as [(Hs & _) _ _ _ _]; pose proof (tb_dir _ _ _ (sp_tables _ _ Hs)) as [_ HDr].
  unfold MM_PAGE_SIZE in *.
  rewrite (u32_small (top + 1)), Hal by lia; cbn [Z.eqb]; erewrite mm_bind_ok by reflexivity.
  assert (Hkeep : exists w', (mret 0 : mmM Z) w = Ok (0, w') /\ heap_world lo top w') by (exists w; split; [done|split_and!; eauto; lia]).
  rewrite (u32_small (top + size)) by lia; destruct (decide (top + size + 4096 < 2 ^ 32)).
  2: { rewrite align_wraps by (unfold MM_PAGE_SIZE; lia); change (u32 (0 - 1) <=? MM_MEMIO_START - 1) with false; cbv iota.
       destruct Hkeep as (w' & E & H'); exists 0, w'; auto. }
  rewrite align_above by (unfold MM_PAGE_SIZE; lia); unfold MM_PAGE_SIZE in *.
  assert (Hnew : top + size < ((top + size) / 4096 + 1) * 4096 <= top + size + 4096) by (Z.div_mod_to_equations; lia).
  set (e := ((top + size) / 4096 + 1) * 4096) in *; assert (He : e mod 4096 = 0) by (unfold e; apply Z.mod_mul; lia).
  rewrite (u32_small (e - 1)) by lia; destruct (Z.leb_spec (e - 1) (MM_MEMIO_START - 1)) as [Hle|Hgt].
  2: { destruct Hkeep as (w' & E & H'); exists 0, w'; auto. }
  destruct (extend_loop_ok (extend_fuel (top + 1) (e - 1)) D lo (e - 1) w (top + 1) Hw Hp) as (ok & w' & E & Hw' & Hcase);
    try done; unfold MM_PAGE_SIZE; try lia.
  - by replace (e - 1 + 1) with e by lia.
  - unfold extend_fuel, MM_PAGE_SIZE; replace (e - 1 + 1 - (top + 1) + (4096 - 1)) with (e - (top + 1) + 4095) by lia.
    replace (e - 1 + 1) with e by lia.
    assert (0 <= (e - (top + 1)) / 4096 <= (e - (top + 1) + 4095) / 4096) by (Z.div_mod_to_equations; lia); lia.
  - rewrite (mm_bind_ok _ _ _ _ _ E); destruct ok; [exists (e - 1)|exists 0]; exists w'; (split; [done|]).
    + right; split; [lia|]; split; [lia|]; split_and!; [lia|lia|unfold MM_PAGE_SIZE; by replace (e - 1 + 1) with e by lia|by exists D].
    + left; split; [done|]; split_and!; [lia|lia|done|by exists D].
Qed.

(** The extension function meets what the heap expects of it. *)
Lemma kernel_extension h :
  extension h = Some (heap_extension proc_ptd) -> 0 < start h -> extension_ok (heap_world (start h)) h.
Proof.
  intros E Hst f size top m w Ef Htop Hsz Hfit HI; rewrite E in Ef; injection Ef as <-.
  destruct (extend_heap_ok (start h) size top w HI Hsz Hfit) as (r & w' & Er & Hcase); unfold heap_extension; rewrite Er.
  eexists r, _, w'; split; [done|]; destruct Hcase as [[-> HI']|(H1 & H2 & HI')]; [by left|right].
  rewrite (proj2 (Z.eqb_neq r 0)) by lia; pose proof HI' as ([_ Hr] & _); rewrite memio_start in Hr.
  split_and!; try done; try lia; intros a Ha; unfold mapped_bytes; by rewrite (proj2 (Z.leb_gt _ _)) by lia.
Qed.

(** ** The operations *)

(** The heap of a running kernel: its blocks are the pointers in use, all its bytes are mapped, and its top
    is the last byte of a page below the area for memory mapped I/O. *)
Record kernel_ok (m : mem) (k : kernel_state) (w : mm) (s : gset Z) : Prop := {
  k_init : kernel_heap_initialized k = true;
  k_lock : kernel_heap_lock k = false;
  k_ext : extension (kernel_heap k) = Some (heap_extension proc_ptd);
  k_world : heap_world (start (kernel_heap k)) (current_top (kernel_heap k)) w;
  k_blocks : exists l, heap_wf m (kernel_heap k) l /\ s = list_to_set (blocks l).*1
}.

(** A null pointer is no block. *)
Lemma block_ptr_nonzero m (h : heap_t mm) l : heap_wf m h l -> 0 ∉ (blocks l).*1.
Proof.
  intros Hwf ([p n] & Hp & (c & Hc & _ & Hq & _)%elem_of_blocks)%list_elem_of_fmap.
  destruct (wf_elem _ _ _ _ Hwf Hc) as (_ & ? & _); unfold c_ptr, sizeof_header in Hq; cbn in Hp; lia.
Qed.

(** The new pointer is none of the old ones. *)
Lemma allocates_ptrs m (h : heap_t mm) l bs p size :
  heap_wf m h l -> allocates bs (blocks l) p size ->
  (p ∉ (list_to_set bs.*1 : gset Z)) /\ ({[p]} ∪ list_to_set bs.*1 : gset Z) = list_to_set (blocks l).*1.
Proof.
  intros Hwf (b1 & b2 & n & _ & -> & Hb); pose proof (blocks_nodup _ _ _ Hwf) as Hnd; rewrite Hb in *; split.
  - rewrite elem_of_list_to_set; rewrite fmap_app, fmap_cons in Hnd; apply list.NoDup_app in Hnd as (_ & Hd & Hnd).
    apply list.NoDup_cons in Hnd as [Hn _]; rewrite fmap_app, elem_of_app; intros [Hin|Hin]; [|done].
    apply (Hd p Hin); left.
  - rewrite !fmap_app, fmap_cons, !list_to_set_app_L, list_to_set_cons; set_solver.
Qed.

Lemma kernel_malloc m k w s size al :
  kernel_ok m k w s -> 0 <= size < 2 ^ 31 -> 0 < al <= MM_PAGE_SIZE ->
  exists m' k' w' p, kmalloc_aligned m k w size al = Ok (m', k', w', p) /\
    kernel_ok m' k' w' (if p =? 0 then s else {[p]} ∪ s) /\ (p ∉ s) /\ (p <> 0 -> p mod al = 0).
Proof.
  intros [Hi Hl He Hw (l & Hwf & ->)] Hs Ha; unfold kmalloc_aligned; rewrite Hl; pose proof (block_ptr_nonzero _ _ _ Hwf) as Hnz.
  assert (H0 : 0 ∉ (list_to_set (blocks l).*1 : gset Z)) by by rewrite elem_of_list_to_set.
  destruct (decide (size = 0)) as [->|].
  { exists m, k, w, 0; split; [destruct k; cbn in *; subst; done|]; split; [|done]; split; eauto. }
  pose proof Hw as ([_ Ht] & _); rewrite memio_start in Ht; unfold MM_PAGE_SIZE in Ha.
  destruct (malloc_spec (heap_world (start (kernel_heap k))) m w (kernel_heap k) l size al)
    as (m' & w' & h' & l' & p & E & Hwf' & Hst & Hex & Hw' & _ & Hcase); try done; try lia; [apply kernel_extension; [done|apply Hwf]|].
  rewrite E; cbn [returned mbind res_bind]; exists m', (mk_kernel h' (kernel_heap_initialized k) false), w', p; split; [done|].
  assert (Hset : (p ∉ (list_to_set (blocks l).*1 : gset Z)) /\
    (if p =? 0 then list_to_set (blocks l).*1 else {[p]} ∪ list_to_set (blocks l).*1 : gset Z) = list_to_set (blocks l').*1).
  { destruct Hcase as [(-> & -> & -> & -> & _)|(Hp & _ & Hal)]; [done|].
    rewrite (proj2 (Z.eqb_neq p 0)) by done; by apply (allocates_ptrs m' h' l' _ p size). }
  destruct Hset as [Hn ->]; split; [|split; [done|]].
  - split; cbn; [done|done|congruence|by rewrite Hst|eauto].
  - intros Hp; destruct Hcase as [(-> & _)|(_ & Hal & _)]; done.
Qed.

Lemma kernel_free m k w s p :
  kernel_ok m k w s -> p ∈ s -> exists m', kfree m k p = Ok m' /\ kernel_ok m' k w (s ∖ {[p]}).
Proof.
  intros [Hi Hl He Hw (l & Hwf & ->)] Hin; pose proof (block_ptr_nonzero _ _ _ Hwf) as Hnz.
  apply elem_of_list_to_set in Hin; assert (p <> 0) by congruence; unfold kfree; tests; rewrite Hl.
  apply list_elem_of_fmap in Hin as ([q n] & -> & Hin).
  apply list_elem_of_split in Hin as (b1 & b2 & Hb); cbn [fst] in *.
  destruct (free_spec _ _ _ _ _ _ _ Hwf Hb) as (m1 & r1 & c & r2 & H1 & Hwf1 & Hb1 & _).
  rewrite H1; exists m1; split; [done|]; split; auto; exists (r1 ++ c :: r2); split; [done|].
  pose proof (blocks_nodup _ _ _ Hwf) as Hnd; rewrite Hb in Hnd; rewrite Hb1, Hb.
  rewrite fmap_app, fmap_cons in *; apply list.NoDup_app in Hnd as (_ & Hd & Hnd); cbn [fst] in *.
  apply list.NoDup_cons in Hnd as [Hn _]; rewrite fmap_app, !list_to_set_app_L, list_to_set_cons.
  assert (q ∉ b1.*1) by (intros Hx; apply (Hd q Hx); left).
  apply set_eq; intros x; rewrite !elem_of_difference, !elem_of_union, !elem_of_singleton, !elem_of_list_to_set.
  destruct (decide (x = q)) as [->|]; tauto.
Qed.

(** A write inside a block. *)
Lemma kernel_write m k w s p i v :
  kernel_ok m k w s -> p ∈ s -> 0 <= i < heap_chunk_get_size m (p - sizeof_header) -> kernel_ok (store8 m (p + i) v) k w s.
Proof.
  intros [Hi Hl He Hw (l & Hwf & ->)] ([q n] & -> & Hin)%elem_of_list_to_set%list_elem_of_fmap Hr; cbn [fst] in *.
  pose proof Hin as (c & Hc & _ & -> & ->)%elem_of_blocks.
  unfold c_ptr, sizeof_header in *; rewrite Z.add_simpl_r, (get_size _ _ _ _ Hwf Hc) in Hr.
  destruct (list_elem_of_split _ _ Hin) as (b1 & b2 & Hb).
  destruct (write_block m (store8 m (c_addr c + 5 + i) v) _ l b1 _ _ b2 Hwf Hb) as [Hwf' _].
  { intros x Hx; apply store8_other; lia. }
  split; auto; by exists l.
Qed.

(** The state in which [mm_init_heap] is called: the end of the RAM disk is a page boundary. *)
Definition init_world (w : mm) : Prop :=
  0 <= virt_ramdisk_end w < 2 ^ 31 /\ virt_ramdisk_end w mod MM_PAGE_SIZE = 0 /\ (pt_lock 0 ∉ locks w) /\
  exists D, manager_ok w D (virt_ramdisk_end w + MM_PAGE_SIZE).

(** [mm_init_heap] sets up the heap, or stops the machine because there is no room or no page. *)
Lemma init_heap_ok m v w :
  init_world w ->
  (exists m' k w', mm_init_heap proc_ptd m v w = Ok (m', k, w') /\ kernel_ok m' k w' ∅) \/
  mm_init_heap proc_ptd m v w = Panic /\
    (MM_MEMIO_START - 1 <= virt_ramdisk_end w + 2 * MM_PAGE_SIZE - 1 \/ forall n, ~ page_free (pmem w) n).
Proof.
  intros (Hv & Hal & Hlk & D & Hw); unfold mm_init_heap; pose proof memio_start as Hmem; unfold MM_PAGE_SIZE in *.
  rewrite !(u32_small (virt_ramdisk_end w + 4096)), u32_small by lia.
  change ((MM_SHARED_PAGE_TABLES - MM_MEMIO_PAGE_TABLES) * 4096 * MM_PT_ENTRIES - 1) with (MM_MEMIO_START - 1).
  set (lo := virt_ramdisk_end w + 4096) in *; destruct (Z.ltb_spec (lo + 4096 - 1) (MM_MEMIO_START - 1)) as [Hlt|Hge];
    [cbn [negb]|right; split; [done|left; lia]].
  assert (Hp : pages_ok w D lo lo) by (split; intros; lia).
  destruct (extend_page_ok w D lo lo 0 Hw Hp Hlk ltac:(lia)) as [(w' & E & _ & _ & Hno)|(b & w1 & w2 & Hb & E1 & E2 & _ & E3 & Hw2 & Hp2 & _)].
  { unfold MM_PAGE_SIZE, lo; Z.div_mod_to_equations; lia. }
  { right; rewrite E; cbn; auto. }
  left; rewrite E1; cbn [mbind res_bind]; rewrite (proj2 (Z.eqb_neq _ _) Hb), E2; cbn [mbind res_bind]; rewrite E3; cbn [mbind res_bind].
  destruct (init_spec (mapped_bytes proc_ptd w2 lo (lo + 4096 - 1) m) lo (lo + 4096 - 1) (Some (heap_extension proc_ptd)))
    as (m1 & E & Hwf & _); [lia..|].
  rewrite E; cbn [returned mbind res_bind Z.eqb negb]; eexists _, _, w2; split; [done|]; split; cbn [kernel_heap kernel_heap_initialized kernel_heap_lock start current_top extension]; try done.
  - unfold MM_PAGE_SIZE; split; [lia|]; split.
    { replace (lo + 4096 - 1 + 1) with (virt_ramdisk_end w + 2 * 4096) by (unfold lo; lia); by rewrite Z.mod_add. }
    exists D; split; [done|].
    by replace (lo + 4096 - 1 + 1) with (lo + MM_PAGE_SIZE) by (unfold MM_PAGE_SIZE; lia).
  - destruct Hwf as [W1 W2 W3 W4 W5 W6]; eexists; split; [by constructor|done].
Qed.

(** What the kernel does with its heap: [mm_init_heap], then any sequence of
    allocations and releases of its pointers, and of writes into its blocks.  The set holds the pointers in use.  Between them the
    rest of the kernel uses the memory manager, in any way that keeps the heap mapped and the page tables well formed. *)
Inductive kernel_run : mem -> kernel_state -> mm -> gset Z -> Prop :=
| kernel_init m v w m' k w' :
    init_world w -> mm_init_heap proc_ptd m v w = Ok (m', k, w') -> kernel_run m' k w' ∅
| kernel_other m k w w' s :
    kernel_run m k w s -> heap_world (start (kernel_heap k)) (current_top (kernel_heap k)) w' -> kernel_run m k w' s
| kernel_kmalloc m k w s size m' k' w' p :
    kernel_run m k w s -> 0 <= size < 2 ^ 31 -> kmalloc m k w size = Ok (m', k', w', p) ->
    kernel_run m' k' w' (if p =? 0 then s else {[p]} ∪ s)
| kernel_kmalloc_aligned m k w s size al m' k' w' p :
    kernel_run m k w s -> 0 <= size < 2 ^ 31 -> 0 < al <= MM_PAGE_SIZE ->
    kmalloc_aligned m k w size al = Ok (m', k', w', p) ->
    kernel_run m' k' w' (if p =? 0 then s else {[p]} ∪ s)
| kernel_kfree m k w s p m' :
    kernel_run m k w s -> p ∈ s -> kfree m k p = Ok m' -> kernel_run m' k w (s ∖ {[p]})
| kernel_store m k w s p i v :
    kernel_run m k w s -> p ∈ s -> 0 <= i < heap_chunk_get_size m (p - sizeof_header) -> kernel_run (store8 m (p + i) v) k w s.

Lemma kmalloc_four m k w s size : kernel_ok m k w s -> kmalloc m k w size = kmalloc_aligned m k w size 4.
Proof. intros Hk; unfold kmalloc, kmalloc_aligned, heap_malloc; by rewrite (k_init _ _ _ _ Hk). Qed.

Lemma kernel_run_ok m k w s : kernel_run m k w s -> kernel_ok m k w s.
Proof.
  induction 1 as [m v w m' k w' Hi E|m k w w' s _ IH Hw|m k w s size m' k' w' p _ IH Hs E|m k w s size al m' k' w' p _ IH Hs Ha E
                 |m k w s p m' _ IH Hp E|m k w s p i v _ IH Hp Hr].
  - destruct (init_heap_ok m v w Hi) as [(m1 & k1 & w1 & E1 & Hk)|[E1 _]]; rewrite E in E1; by simplify_eq.
  - destruct IH; by split.
  - rewrite (kmalloc_four _ _ _ _ _ IH) in E.
    destruct (kernel_malloc m k w s size 4 IH Hs ltac:(unfold MM_PAGE_SIZE; lia)) as (m1 & k1 & w1 & p1 & E1 & Hk & _).
    rewrite E in E1; by simplify_eq.
  - destruct (kernel_malloc m k w s size al IH Hs Ha) as (m1 & k1 & w1 & p1 & E1 & Hk & _); rewrite E in E1; by simplify_eq.
  - destruct (kernel_free m k w s p IH Hp) as (m1 & E1 & Hk); rewrite E in E1; by simplify_eq.
  - by apply kernel_write.
Qed.
End KHeap.

(** ** A machine on which the theorem is applied

    The page tables of the kernel's area in the pages 512 to 543, the directory mapped one to one, four free
    pages; the RAM disk ends at two megabytes. *)
Definition kex_word (i : Z) : Z :=
  if (262144 <=? i) && (i <? 262176) then (512 + (i - 262144)) * 4096 + 3
  else if i =? 263166 then 600 * 4096 + 3 else if i =? 263167 then 1048579 else if i =? 524544 then 1048579 else 0.

Definition kex_mm : mm :=
  mk_mm ex_phys (words kex_word) (fun _ => None) (2 ^ 31 + 2 ^ 16) ex_dir [] 2097152 2097152 0 0
    (fun _ => mk_as 0 1 1073741824 1073741823 (mk_anchor None None)) (fun _ => mk_sa 0 0 0 0 0)
    (fun _ => mk_link None None) [].

Lemma kex_pde i : 0 <= i < 1024 ->
  pde (words kex_word) ex_dir i =
    if i <? 32 then (512 + i) * 4096 + 3 else if i =? 1022 then 600 * 4096 + 3 else if i =? 1023 then 1048579 else 0.
Proof.
  intros Hi; unfold pde, ex_dir.
  assert (Hw : (1048576 + 4 * i) / 4 = 262144 + i) by (Z.div_mod_to_equations; lia).
  rewrite load32_words; rewrite ?Hw; [unfold kex_word|Z.div_mod_to_equations; lia|unfold kex_word];
    repeat (case_test; cbn [andb]; try lia).
Qed.

Lemma kex_present i : 0 <= i < 1023 -> pte_p (pde (words kex_word) ex_dir i) = true ->
  exists f, table (words kex_word) ex_dir i = f * 4096 /\ pte_rw (pde (words kex_word) ex_dir i) = true /\
    (i < 32 /\ f = 512 + i \/ i = 1022 /\ f = 600).
Proof.
  intros Hi Hp; unfold table; rewrite kex_pde in * by lia.
  assert (Hb : forall f, 512 <= f < 1024 -> pte_page_base (f * 4096 + 3) = f /\ pte_rw (f * 4096 + 3) = true).
  { intros f Hf; rewrite page_base_div; split; [Z.div_mod_to_equations; lia|].
    unfold pte_rw; rewrite Z.add_comm, Z.bit0_odd || rewrite Z.testbit_odd; rewrite Z.shiftr_div_pow2 by lia.
    replace ((f * 4096 + 3) / 2 ^ 1) with (1 + 2 * (f * 1024)) by (Z.div_mod_to_equations; lia); by rewrite Z.odd_add_mul_2. }
  destruct (Z.ltb_spec i 32); [destruct (Hb (512 + i)) as [E1 E2]; [lia|]; rewrite E1, E2; exists (512 + i); auto|].
  destruct (Z.eqb_spec i 1022); [exists 600; auto|]; case_test; [lia|done].
Qed.

Lemma kex_tables : tables_ok (words kex_word) ex_phys ex_dir.
Proof.
  split; try done.
  - intros a; apply u8_range.
  - intros i Hi Hp; destruct (kex_present i Hi Hp) as (f & -> & _ & Hf); unfold ex_dir; split_and!; [lia|lia|].
    unfold MM_PAGE, MM_PAGE_SIZE; rewrite Z.div_mul, ex_bit by lia; by tests.
  - intros i j Hi Hj Hp Hq; destruct (kex_present i Hi Hp) as (f & -> & _ & Hf), (kex_present j Hj Hq) as (g & -> & _ & Hg); lia.
Qed.

Lemma kex_manager : manager_ok ex_dir kex_mm ex_dir (virt_ramdisk_end kex_mm + MM_PAGE_SIZE).
Proof.
  assert (Hs : space_ok kex_mm ex_dir).
  { split; [apply kex_tables| | |right].
    - split; [done|by rewrite phys_pages|cbn; lia|done].
    - intros p Hp; rewrite phys_limit in Hp; change (pmem kex_mm) with ex_phys; rewrite ex_bit by lia; by tests.
    - split; try done; [by exists false|]; intros i Hi Hp; by destruct (kex_present i Hi Hp) as (f & _ & Hrw & _). }
  split; [by split|apply not_elem_of_nil|apply not_elem_of_nil|cbn; unfold MM_PAGE_SIZE, ex_dir; lia|].
  intros i Hi; unfold MM_SHARED_PAGE_TABLES in Hi; change (phys kex_mm) with (words kex_word); rewrite kex_pde by lia; tests.
  unfold pte_p; rewrite Z.bit0_odd; replace ((512 + i) * 4096 + 3) with (1 + 2 * ((512 + i) * 2048 + 1)) by lia; by rewrite Z.odd_add_mul_2.
Qed.

Lemma kex_init : init_world ex_dir kex_mm.
Proof. split; [cbn; lia|]; split; [done|]; split; [apply not_elem_of_nil|]; exists ex_dir; apply kex_manager. Qed.

End KHeapProofs.
