(* ===== verification/MmTheorems.v ===== *)
(** * The main theorems on page tables and user buffers *)

From S2P Require Import Prelude Errors Memory MmDefs Lists PhysMem PhysMemProofs Paging PagingProofs PagingMap Mm MmUser MmExample.
Import Lists.



(** The entry of the directory for a new page table gets the write bit of the page.  With paging on the
    new table is then not writable at the address at which the kernel uses it, and the store of the page table entry is a
    page fault of the kernel.  With paging off, a second page of the same 4 MB area, mapped as
    writable, is not writable. *)
Theorem map_read_only_area :
  mm_map_page ex_dir ex_dir 3149824 2147483648 MM_READ_ONLY MM_USER_PAGE 0 0 ex_mm = Fault /\
  exists s s', mm_map_page ex_dir ex_dir 3149824 2147483648 MM_READ_ONLY MM_USER_PAGE 0 0 (set_cr0 0 ex_mm) = Ok (0, s) /\
    mm_map_page ex_dir ex_dir 3153920 2147487744 MM_READ_WRITE MM_USER_PAGE 0 0 s = Ok (0, s') /\
    walk (phys s') ex_dir 2147487744 = Some (mk_xlat 3153920 false true).
Proof.
  split; [vm_compute; reflexivity|].
  assert (H : match mm_map_page ex_dir ex_dir 3149824 2147483648 MM_READ_ONLY MM_USER_PAGE 0 0 (set_cr0 0 ex_mm) with
    | Ok (r, s) => (r =? 0) && match mm_map_page ex_dir ex_dir 3153920 2147487744 MM_READ_WRITE MM_USER_PAGE 0 0 s with
      | Ok (r', s') => (r' =? 0) && match walk (phys s') ex_dir 2147487744 with
        | Some (mk_xlat f w u) => (f =? 3153920) && negb w && u | None => false end
      | _ => false end
    | _ => false end = true) by (vm_compute; reflexivity).
  destruct (mm_map_page _ _ 3149824 _ _ _ _ _ (set_cr0 0 ex_mm)) as [[r s]| | |]; [|discriminate H..].
  apply andb_true_iff in H as [->%Z.eqb_eq H]; exists s.
  destruct (mm_map_page _ _ 3153920 _ _ _ _ _ s) as [[r' s']| | |]; [|discriminate H..].
  apply andb_true_iff in H as [->%Z.eqb_eq H]; exists s'; split; [reflexivity|]; split; [reflexivity|].
  destruct (walk (phys s') ex_dir 2147487744) as [[f w u]|]; [|discriminate H].
  apply andb_true_iff in H as [[->%Z.eqb_eq Hw%negb_true_iff]%andb_true_iff ->]; by rewrite Hw.
Qed.

(** After [mm_map_page] has returned 0, [mm_virt_to_phys] gives for every address of the
    page the address in the physical page, as does the processor. *)
Theorem map_virt_to_phys proc_ptd s s' D phys_base v w us pcd :
  running proc_ptd s D -> 0 <= v < 2 ^ 32 -> PTD_OFFSET v < 1023 -> 0 <= phys_base < 2 ^ 32 -> phys_base mod 4096 = 0 ->
  MM_PAGE v <> MM_PAGE D -> pt_lock (pid s) ∉ locks s -> sp_lock (pid s) ∉ locks s ->
  mm_map_page proc_ptd D phys_base v MM_READ_WRITE us pcd (pid s) s = Ok (0, s') ->
  0 <= w < 2 ^ 32 -> MM_PAGE w = MM_PAGE v ->
  exists t, mm_virt_to_phys proc_ptd w s' = Ok (phys_base + w mod MM_PAGE_SIZE, set_tlb t s') /\
    exists t', translate true w s' = Ok (phys_base + w mod MM_PAGE_SIZE, set_tlb t' s').
Proof.
  intros (Hs & H1 & HD) Hv Hd Hb Hal Hpage Hl1 Hl2 E Hw Hwv.
  destruct (map_page_ok proc_ptd s D phys_base v MM_READ_WRITE us pcd (pid s) Hs) as (rc & s1 & E1 & Hs1 & Hr);
    [lia|done|done|by right|done|done|by right; left|].
  rewrite E in E1; injection E1 as <- <-; inversion Hr as [|p t m' new _ Hm Hu Hnew]; subst.
  assert (Hwalk : walk m' (mm_get_ptd_for_pid proc_ptd (pid s)) w =
    Some (mk_xlat phys_base true (dir_us (phys s) (mm_get_ptd_for_pid proc_ptd (pid s)) (PTD_OFFSET v) && Z.odd us))).
  { rewrite (walk_page _ _ w v Hwv), (mp_walk _ _ _ _ _ _ _ Hm), dir_rw_paged by (done || pose proof (ptd_offset_range v Hv); lia).
    do 2 f_equal; Z.div_mod_to_equations; lia. }
  destruct (virt_to_phys_ok proc_ptd (upd p m' t s) (mm_get_ptd_for_pid proc_ptd (pid s)) w) as (t1 & _ & E1); [by split|done|done|].
  exists t1; split; [rewrite E1; cbn [phys upd set_pmem set_phys]; by rewrite Hwalk|].
  destruct (translate_ok (upd p m' t s) (mm_get_ptd_for_pid proc_ptd (pid s)) true w _ (paged_mode _ _ Hs1 H1) Hw Hwalk) as (t2 & E2 & _);
    [done|]; exists t2; exact E2.
Qed.

Lemma map_virt_to_phys_witness :
  exists s' t, mm_map_page ex_dir ex_dir 3149824 1073745920 MM_READ_WRITE MM_USER_PAGE 0 0 ex_mm = Ok (0, s') /\
    mm_virt_to_phys ex_dir 1073745929 s' = Ok (3149833, set_tlb t s').
Proof.
  assert (E : exists s', mm_map_page ex_dir ex_dir 3149824 1073745920 MM_READ_WRITE MM_USER_PAGE 0 0 ex_mm = Ok (0, s')).
  { destruct (map_page_ok ex_dir ex_mm ex_dir 3149824 1073745920 MM_READ_WRITE MM_USER_PAGE 0 0 (proj1 ex_running))
      as (rc & s' & E & _ & Hr);
      [lia|reflexivity|lia|right; vm_compute; congruence|apply not_elem_of_nil|apply not_elem_of_nil|right; left; reflexivity|].
    destruct Hr as [p t Hp _ _|p t m' new _ _ _ _]; [vm_compute in Hp; discriminate|eexists; exact E]. }
  destruct E as [s' E]; exists s'.
  destruct (map_virt_to_phys ex_dir ex_mm s' ex_dir 3149824 1073745920 1073745929 MM_USER_PAGE 0 ex_running) as (t & Et & _);
    [lia|reflexivity|lia|reflexivity|vm_compute; congruence|apply not_elem_of_nil|apply not_elem_of_nil|exact E|lia|reflexivity|].
  exists t; split; [exact E|exact Et].
Defined.

(** C19. [mm_unmap_page] for a page that is mapped to a data page: it returns 0, the processor no
    longer translates the page (also not from the TLB), every other page is translated as
    before, the data pages keep their contents, and exactly the physical page that was mapped
    is returned to the pool. *)
Theorem mm_unmap_page_correct s D v pd_id n rw us :
  lookup_ok s D v -> PTD_OFFSET v < 1023 -> at_page v D s -> pt_lock pd_id ∉ locks s -> in_ramdisk s v = false ->
  walk (phys s) D v = Some (mk_xlat (n * MM_PAGE_SIZE) rw us) -> 0 < n < PHYS_LIMIT -> data_frame (phys s) D (n * MM_PAGE_SIZE) ->
  exists s', mm_unmap_page D v pd_id s = Ok (0, s') /\ space_ok s' D /\ locks s' = locks s /\
    unmapped (phys s) (phys s') D v /\ (pg_enabled s = 1 -> forall w, translate w v s' = Fault) /\
    forall q, 0 <= q -> bit (pmem s') q = if n =? q then 0 else bit (pmem s) q.
Proof.
  intros Hlk Hd Ha Hl Hrd Hw Hn Hdf; pose proof Hlk as [Hs Hv].
  assert (Hp : pte_p (pde (phys s) D (PTD_OFFSET v)) = true /\ entry_page (phys s) D v = n).
  { revert Hw; unfold walk, entry_page; destruct (pte_p (pde _ _ _)); [|done]; destruct (pte_p (pte _ _ _)); [|done].
    intros [= E _ _]; split; [done|by apply page_base_inj]. }
  destruct Hp as [Hp <-].
  destruct (unmap_ok s D v pd_id Hlk Hd Ha Hl Hrd) as (p & t & m' & E & Hs' & Hu & Hb); [done|].
  eexists; split; [exact E|]; split; [done|]; split; [done|]; split; [exact Hu|]; split.
  - intros H1 w; pose proof (paged_mode _ _ Hs' H1) as Hpg; unfold translate.
    rewrite (pg_on _ _ Hpg); cbn [Z.eqb]; destruct (tlb (upd p m' t s) (MM_PAGE v)) as [x|] eqn:Et.
    + apply (pg_tlb _ _ Hpg) in Et; [|by apply page_range]; rewrite (walk_page _ _ _ v) in Et by apply page_of_base.
      change (phys (upd p m' t s)) with m' in Et; rewrite (um_walk _ _ _ _ Hu) in Et; done.
    + rewrite (pg_cr3 _ _ Hpg); change (phys (upd p m' t s)) with m'; by rewrite (um_walk _ _ _ _ Hu).
  - intros q Hq; cbn; rewrite Hb by done; by rewrite Hp.
Qed.

Lemma mm_unmap_page_correct_witness :
  exists s', mm_unmap_page ex_dir 1073741824 0 ex_mm = Ok (0, s') /\ bit (pmem s') 768 = 0 /\ translate false 1073741824 s' = Fault.
Proof.
  assert (Hlk : lookup_ok ex_mm ex_dir 1073741824) by (split; [apply ex_running|lia]).
  destruct (mm_unmap_page_correct ex_mm ex_dir 1073741824 0 768 true true Hlk) as (s' & E & _ & _ & _ & Ht & Hb).
  - reflexivity.
  - right; vm_compute; congruence.
  - apply not_elem_of_nil.
  - reflexivity.
  - vm_compute; reflexivity.
  - rewrite phys_limit; lia.
  - split_and!; [reflexivity|vm_compute; congruence|].
    intros i Hi Hp; destruct (ex_present i Hi Hp) as [->|[->| ->]]; vm_compute; congruence.
  - exists s'; split; [exact E|]; split; [rewrite Hb by lia; reflexivity|apply Ht; reflexivity].
Defined.

(** A page that is not mapped but whose area has a page table: the code releases the page named in
    the unused entry, for an entry that was never used physical page zero. *)
Theorem unmap_unmapped_releases :
  walk ex_mem ex_dir 1073745920 = None /\
  exists s', mm_unmap_page ex_dir 1073745920 0 ex_mm = Ok (0, s') /\ bit (pmem s') 0 = 0 /\
    available (phys_mem_layout (pmem s')) = available (phys_mem_layout (pmem ex_mm)) + 1.
Proof.
  split; [vm_compute; reflexivity|].
  assert (H : match mm_unmap_page ex_dir 1073745920 0 ex_mm with
              | Ok (r, s') => (r =? 0) && (bit (pmem s') 0 =? 0) && (available (phys_mem_layout (pmem s')) =? 5)
              | _ => false end = true) by (vm_compute; reflexivity).
  destruct (mm_unmap_page ex_dir 1073745920 0 ex_mm) as [[r s']| | |]; try done.
  apply andb_true_iff in H as [[->%Z.eqb_eq Hb%Z.eqb_eq]%andb_true_iff Ha%Z.eqb_eq]; exists s'; by rewrite Ha.
Qed.

(** C13. [mm_validate_buffer] always returns, 0 or -1.  A buffer of a given length is accepted
    exactly if it does not reach the end of the address space and each of its bytes lies in a
    mapped page that is marked as a page of the user, and as writable if that is asked for; a
    string exactly if this holds for its bytes up to the terminating zero.  A null pointer is
    accepted.  The call changes nothing but the TLB. *)
Theorem validate_buffer_correct proc_ptd s D buffer len rw :
  running proc_ptd s D -> 0 <= buffer < 2 ^ 32 -> 0 <= len < 2 ^ 32 ->
  exists rc t, mm_validate_buffer proc_ptd buffer len rw s = Ok (rc, set_tlb t s) /\ space_ok (set_tlb t s) D /\
    (rc = 0 \/ rc = -1) /\
    (rc = 0 <-> buffer = 0 \/
       0 < len /\ buffer + len < 2 ^ 32 /\ (forall a, buffer <= a < buffer + len -> user_page (phys s) D rw a) \/
       len = 0 /\ user_string (phys s) D rw buffer).
Proof.
  intros Hr Hb Hl; unfold mm_validate_buffer.
  destruct (Z.eqb_spec buffer 0) as [->|Hne].
  { exists 0, (tlb s); rewrite set_tlb_eta; split_and!; [done|by apply Hr|by left|tauto]. }
  assert (Hps : MM_PAGE_START (MM_PAGE buffer) = MM_PAGE buffer * MM_PAGE_SIZE).
  { unfold MM_PAGE_START; apply u32_small; unfold MM_PAGE, MM_PAGE_SIZE; Z.div_mod_to_equations; lia. }
  destruct (decide (len = 0)) as [->|Hlen].
  - rewrite Z.add_0_r, (u32_small buffer), Z.ltb_irrefl, Hps by lia.
    destruct (validate_string_ok proc_ptd validate_fuel s D buffer rw buffer Hr Hb) as (rc & t & E & Ht & Hrc & Hiff);
      [pose proof (page_range _ Hb); unfold validate_fuel; lia|].
    exists rc, t; split_and!; [done|apply Ht|done|rewrite Hiff]; split; [tauto|intros [?|[?|?]]; [done|lia|tauto]].
  - destruct (decide (buffer + len < 2 ^ 32)) as [Hsum|Hsum].
    + rewrite (u32_small (buffer + len)) by lia; test_false; rewrite Hps.
      destruct (validate_pages_ok proc_ptd validate_fuel s D buffer len rw buffer (MM_PAGE buffer) Hr) as (rc & t & E & Ht & Hrc & Hiff);
        [lia|lia|lia|by apply page_range|pose proof (page_range _ Hb); unfold validate_fuel; lia|].
      exists rc, t; split_and!; [done|apply Ht|done|rewrite Hiff]; split.
      * intros Hall; right; left; split_and!; [lia|lia|]; intros a Ha.
        apply (user_page_page _ _ _ (MM_PAGE a * MM_PAGE_SIZE)); [by rewrite page_of_base|].
        apply Hall; unfold MM_PAGE, MM_PAGE_SIZE; Z.div_mod_to_equations; lia.
      * intros [?|[(_ & _ & Hall)|[? _]]] q Hq Hql; [done| |done].
        destruct (decide (q = MM_PAGE buffer)) as [->|].
        -- apply (user_page_page _ _ _ buffer); [by rewrite page_of_base|apply Hall; lia].
        -- apply Hall; unfold MM_PAGE, MM_PAGE_SIZE in *; Z.div_mod_to_equations; lia.
    + assert (Hu : u32 (buffer + len) = buffer + len - 2 ^ 32).
      { unfold u32; rewrite <- (Z.mod_add _ (-1)) by lia; apply Z.mod_small; lia. }
      rewrite Hu; test_true; exists (-1), (tlb s); rewrite set_tlb_eta; split_and!; [done|by apply Hr|by right|].
      split; [done|intros [?|[?|?]]; lia].
Qed.

(** The page of the user in the example, its end, and the string ["abc"] at its start. *)
Lemma validate_buffer_correct_witness :
  exists t, mm_validate_buffer ex_dir 1073741824 4096 1 ex_mm = Ok (0, set_tlb t ex_mm).
Proof.
  destruct (validate_buffer_correct ex_dir ex_mm ex_dir 1073741824 4096 1 ex_running) as (rc & t & E & _ & _ & Hiff); [lia|lia|].
  exists t; rewrite E; do 2 f_equal; apply Hiff; right; left; split_and!; [lia|lia|].
  intros a Ha; apply (user_page_page _ _ _ 1073741824).
  - unfold MM_PAGE, MM_PAGE_SIZE; Z.div_mod_to_equations; lia.
  - eexists; split; [vm_compute; reflexivity|]; split; [vm_compute; reflexivity|reflexivity].
Defined.

(** Evaluates the tests of an error code. *)
Ltac eval_code :=
  repeat match goal with |- context [Z.shiftr (Z.land ?a ?b) ?c] =>
    let v := eval vm_compute in (Z.shiftr (Z.land a b) c) in change (Z.shiftr (Z.land a b) c) with v end;
  repeat match goal with |- context [Z.land ?a 4] =>
    let v := eval vm_compute in (Z.land a 4) in change (Z.land a 4) with v end;
  cbn [Z.eqb negb].

(** A page fault of the user at an address that is not mapped: the handler returns success without
    a signal and without a change to the page tables, so that the access is repeated. *)
Theorem fault_unmapped_no_signal proc_ptd s D c :
  running proc_ptd s D -> 0 <= cr2 c < 2 ^ 32 -> err_code c = 4 \/ err_code c = 6 -> walk (phys s) D (cr2 c) = None ->
  exists t, mm_handle_page_fault proc_ptd c s = Ok (0, set_tlb t s).
Proof.
  intros (Hs & _ & HD) Hv Herr Hw; destruct (page_mapped_ok proc_ptd s D (cr2 c)) as (t & _ & E); [by split|done|].
  rewrite Hw in E; exists t; unfold mm_handle_page_fault; destruct Herr as [-> | ->]; eval_code;
    rewrite (mm_bind_ok _ _ _ _ _ E); done.
Qed.

(** A fault at a mapped address that the page table entry allows is a stale entry of the TLB: it
    is dropped, and the next access is translated through the page tables. *)
Theorem fault_stale_tlb proc_ptd s D c :
  running proc_ptd s D -> ctx_cr3 c = D -> 0 <= cr2 c < 2 ^ 32 -> err_code c = 7 -> user_page (phys s) D 1 (cr2 c) ->
  exists t, mm_handle_page_fault proc_ptd c s = Ok (0, set_tlb (<[MM_PAGE (cr2 c) := None]> t) s) /\ running proc_ptd (set_tlb t s) D.
Proof.
  intros Hr Hcr3 Hv Herr Hu; destruct (check_page proc_ptd s D 1 (cr2 c) Hr Hv) as (t1 & t2 & mp & al & _ & Hr2 & E1 & E2 & Hiff).
  apply Hiff in Hu as [-> ->]%andb_true_iff; exists t2; split; [|done]; unfold mm_handle_page_fault; rewrite Herr, Hcr3.
  eval_code; rewrite (mm_bind_ok _ _ _ _ _ E1); cbn [negb].
  by rewrite (mm_bind_ok _ _ _ _ _ (E2 eq_refl)).
Qed.
