(* ===== verification/MmStackProofs.v ===== *)
(** * Kernel stacks: proofs

    The stack areas of the tasks of a process lie within the kernel stack area,
    in the order of the list, with at least two unused pages between them;
    [mm_find_free_stack] finds the first place for a new one, if there is one. *)

From S2P Require Import Prelude Errors Memory MmDefs Lists PhysMem PhysMemProofs Paging PagingProofs PagingMap Mm MmExample MmStack.
Import Lists.

Definition STACK_TOP : Z := MM_PAGE_START (MM_PAGE MM_VIRTUAL_TOS).
Definition STACK_BASE : Z := u32 (STACK_TOP - (MM_STACK_PAGES - 1) * MM_PAGE_SIZE).

Lemma stack_top : STACK_TOP = 4290736128.
Proof. done. Qed.
Lemma stack_base : STACK_BASE = 4290215936.
Proof. done. Qed.

Abbreviation low f t := (lowest_page (f t)) (only parsing).
Abbreviation high f t := (highest_page (f t)) (only parsing).

(** A stack of four pages within the area. *)
Record area_ok (a : stack_allocator_t) : Prop := {
  ar_valid : sa_valid a <> 0;
  ar_align : lowest_page a mod 4096 = 0;
  ar_size : highest_page a = lowest_page a + 12288;
  ar_low : STACK_BASE <= lowest_page a;
  ar_high : highest_page a <= STACK_TOP
}.

(** The areas of [l] are in order, the first one starts at [lo] or above, and there are two pages between any two. *)
Fixpoint spaced (f : Z -> stack_allocator_t) (lo : Z) (l : list Z) : Prop :=
  match l with
  | [] => True
  | t :: l => area_ok (f t) /\ lo <= low f t /\ spaced f (high f t + 12288) l
  end.

Record stacks_ok (s : mm) (p : Z) (l : list Z) : Prop := {
  st_list : dlist (sa_links s) (as_list (address_space s p)) l;
  st_some : l <> [];
  st_ids : forall t, t ∈ l -> 0 <= t < PM_MAX_TASK;
  st_spaced : spaced (stack_allocator s) STACK_BASE l
}.

Lemma spaced_mono f lo lo' l : lo' <= lo -> spaced f lo l -> spaced f lo' l.
Proof. destruct l as [|t l]; cbn; [done|]; intros ? (? & ? & ?); split_and!; auto; lia. Qed.

Lemma spaced_ext f g lo l : (forall t, t ∈ l -> g t = f t) -> spaced f lo l -> spaced g lo l.
Proof.
  revert lo; induction l as [|t l IH]; intros lo H; cbn; [done|]; rewrite H by left; intros (? & ? & ?); split_and!; auto.
  apply IH; [intros; apply H; by right|done].
Qed.

(** Where the areas of [l] end. *)
Fixpoint end_of (f : Z -> stack_allocator_t) (lo : Z) (l : list Z) : Z :=
  match l with [] => lo | t :: l => end_of f (high f t + 12288) l end.

Lemma spaced_app f lo l1 l2 : spaced f lo (l1 ++ l2) <-> spaced f lo l1 /\ spaced f (end_of f lo l1) l2.
Proof. revert lo; induction l1 as [|t l1 IH]; intros lo; cbn; [tauto|]; rewrite IH; tauto. Qed.

Lemma spaced_end f lo l : spaced f lo l -> lo <= end_of f lo l.
Proof.
  revert lo; induction l as [|t l IH]; intros lo; cbn; [lia|]; intros ([] & ? & ?%IH); lia.
Qed.

Lemma spaced_area f lo l t : spaced f lo l -> t ∈ l -> area_ok (f t) /\ lo <= low f t.
Proof.
  revert lo; induction l as [|u l IH]; intros lo; cbn; [by intros _ ?%elem_of_nil|].
  intros (Ha & Hlo & Hs) [->|Ht]%elem_of_cons; [done|]; destruct (IH _ Hs Ht) as [? ?]; split; [done|].
  destruct Ha; lia.
Qed.

(** Two different tasks have areas with two pages between them. *)
Definition apart (a b : stack_allocator_t) : Prop :=
  highest_page a + 12288 <= lowest_page b \/ highest_page b + 12288 <= lowest_page a.

Lemma spaced_apart f lo l t u : NoDup l -> spaced f lo l -> t ∈ l -> u ∈ l -> t <> u -> apart (f t) (f u).
Proof.
  revert lo; induction l as [|v l IH]; intros lo; [by intros _ _ ?%elem_of_nil|].
  intros [Hv Hnd]%list.NoDup_cons (Ha & Hlo & Hs) [->|Ht]%elem_of_cons [->|Hu]%elem_of_cons Hne; [done| | |by eapply IH].
  - left; by apply (spaced_area _ _ _ _ Hs).
  - right; by apply (spaced_area _ _ _ _ Hs).
Qed.

(** ** The search *)

(** Where the next area behind [c] starts. *)
Definition limit_of (f : Z -> stack_allocator_t) (l : list Z) : Z :=
  match l with [] => MM_VIRTUAL_TOS + 1 | n :: _ => low f n end.

Definition fits (f : Z -> stack_allocator_t) (c : Z) (l : list Z) : Prop := high f c + 36864 <= limit_of f l.
#[export] Instance fits_dec f c l : Decision (fits f c l) := Z_le_dec _ _.

Lemma limit_range f lo c l : spaced f lo (c :: l) -> high f c < limit_of f l <= 4290740224 /\ limit_of f l mod 4096 = 0.
Proof.
  intros ([_ _ _ _ Hh] & _ & Hs); rewrite stack_top in Hh; destruct l as [|n l]; cbn.
  - split; [change MM_VIRTUAL_TOS with 4290740223; lia|done].
  - destruct Hs as ([_ Hal Hsz _ Hh'] & Hlo & _); rewrite stack_top in Hh'; split; [lia|done].
Qed.

(** The test of the code for the room behind [c]. *)
Lemma fits_test f lo c l :
  spaced f lo (c :: l) ->
  (MM_STACK_PAGES_TASK + 2 * MM_STACK_PAGES_GAP <=? u32 (u32 (limit_of f l - high f c) / MM_PAGE_SIZE - 1)) =
  bool_decide (fits f c l).
Proof.
  intros Hs; pose proof (limit_range f lo c l Hs) as [Hr Hal]; destruct Hs as ([_ Ha Hsz Hl Hh] & _ & _).
  rewrite stack_top in Hh; rewrite stack_base in Hl; apply eq_true_iff_eq; rewrite bool_decide_eq_true; unfold fits.
  revert Hr Hal; generalize (limit_of f l); intros lim Hr Hal.
  change (MM_STACK_PAGES_TASK + 2 * MM_STACK_PAGES_GAP) with 8; unfold MM_PAGE_SIZE.
  rewrite (u32_small (lim - _)) by lia.
  assert (1 <= (lim - high f c) / 4096) by (Z.div_mod_to_equations; lia).
  rewrite u32_small by (Z.div_mod_to_equations; lia).
  rewrite Z.leb_le; Z.div_mod_to_equations; lia.
Qed.

(** No allocator of [l] has room behind it. *)
Fixpoint no_fit (f : Z -> stack_allocator_t) (l : list Z) : Prop :=
  match l with [] => True | c :: l => ~ fits f c l /\ no_fit f l end.

Lemma find_gap_ok fuel s lo p l :
  seg (sa_links s) p l None -> spaced (stack_allocator s) lo l -> (length l <= fuel)%nat ->
  let f := stack_allocator s in
  exists r, find_gap fuel (first_or l None) s = Ok (r, s) /\
    (r = 0 /\ no_fit f l \/
     exists l1 c l2, l = l1 ++ c :: l2 /\ fits f c l2 /\ r = high f c + 24576 /\
       (forall l1' d l1'', l1 = l1' ++ d :: l1'' -> ~ fits f d (l1'' ++ c :: l2))).
Proof.
  intros Hseg Hsp Hlen f; revert lo p fuel Hseg Hsp Hlen; induction l as [|c l IH]; intros lo p fuel Hseg Hsp Hlen.
  { exists 0; split; [by destruct fuel|by left]. }
  destruct fuel as [|fuel]; [cbn in Hlen; lia|]; cbn [first_or find_gap].
  pose proof Hseg as (_ & Hn & Hseg'); erewrite (mm_bind_ok _ _ s) by reflexivity; cbn [id].
  assert (Hlim : match next (sa_links s c) with Some n => lowest_page (stack_allocator s n) | None => MM_VIRTUAL_TOS + 1 end =
    limit_of f l) by (rewrite Hn; by destruct l).
  rewrite Hlim; fold f; rewrite (fits_test f lo c l Hsp); case_bool_decide as Hf.
  - exists (high f c + 24576); split; [|right; exists [], c, l; split_and!; try done; intros [|] ? ? ?; done].
    pose proof (limit_range f lo c l Hsp) as [Hr _]; destruct Hsp as ([_ _ Hsz Hl Hh] & _); rewrite stack_base in Hl.
    rewrite stack_top in Hh; unfold mret, mmM_ret.
    change (MM_PAGE_SIZE * (MM_STACK_PAGES_GAP + MM_STACK_PAGES_TASK)) with 24576.
    rewrite u32_small; [done|]; unfold fits in Hf; fold f in Hh, Hsz, Hl; lia.
  - destruct Hsp as (Ha & Hlo & Hsp'); cbn in Hlen.
    destruct (IH _ _ fuel Hseg' Hsp' ltac:(lia)) as (r & E & Hcase); rewrite Hn; exists r; split; [exact E|].
    destruct Hcase as [[-> Hno]|(l1 & d & l2 & -> & Hfit & -> & Hfirst)]; [by left|right].
    exists (c :: l1), d, l2; split_and!; try done.
    intros [|x l1'] e l1'' [= -> ->]; [done|]; eauto.
Qed.

(** ** Insertion *)

(** The new allocator goes behind [c], the last one below it. *)
Lemma add_sorted_ok fuel s me t lo p l1 c l2 :
  let f := stack_allocator s in
  seg (sa_links s) p (l1 ++ c :: l2) None -> spaced f lo (l1 ++ c :: l2) -> (length l1 < fuel)%nat ->
  high f c < low f t -> low f t <= high f t -> match l2 with [] => True | n :: _ => high f t < low f n end ->
  add_sorted fuel me t (first_or (l1 ++ c :: l2) None) s =
    Ok (tt, match l2 with
            | [] => set_list me (LIST_ADD_END (sa_links s) (as_list (address_space s me)) t) s
            | _ => set_sa_links (LIST_ADD_AFTER (sa_links s) c t) s
            end).
Proof.
  intros f Hseg Hsp Hlen Hc Ht Hn; revert lo p fuel Hseg Hsp Hlen; induction l1 as [|d l1 IH]; intros lo p fuel Hseg Hsp Hlen;
    (destruct fuel as [|fuel]; [cbn in Hlen; lia|]); cbn [app first_or add_sorted];
    erewrite (mm_bind_ok _ _ s) by reflexivity; cbn [id]; destruct Hseg as (_ & -> & Hseg); fold f.
  - destruct l2 as [|n l2]; [done|]; cbn [first_or].
    rewrite (proj2 (Z.ltb_lt _ _) Hc), (proj2 (Z.ltb_lt _ _) Hn); done.
  - destruct Hsp as (Hd & _ & Hsp); fold (app l1 (c :: l2)) in *.
    assert (Hfirst : exists n, first_or (l1 ++ c :: l2) None = Some n /\ low f n <= high f c).
    { destruct l1 as [|n l1]; cbn in Hsp |- *; eexists; (split; [done|]); destruct Hsp as ([] & _ & Hsp).
      - lia.
      - destruct (spaced_area f _ _ c Hsp) as [[] ?]; [apply elem_of_app; right; left|lia]. }
    destruct Hfirst as (n & Efirst & Hlow); rewrite Efirst, (proj2 (Z.ltb_ge (high f t) (low f n))) by lia; rewrite andb_false_r.
    rewrite <- Efirst; eapply IH; [exact Hseg|exact Hsp|cbn in Hlen; lia].
Qed.

(** What does not belong to the stacks of process [p] stays as it is. *)
Record stack_frame (s s' : mm) (p t : Z) : Prop := {
  sf_pmem : pmem s' = pmem s;
  sf_phys : phys s' = phys s;
  sf_tlb : tlb s' = tlb s;
  sf_locks : locks s' = locks s;
  sf_other : forall u, u <> t -> stack_allocator s' u = stack_allocator s u;
  sf_as : forall q, q <> p -> address_space s' q = address_space s q;
  sf_brk : brk (address_space s' p) = brk (address_space s p)
}.

(** A place [a] for a stack with two pages left free below and above it. *)
Definition place (f : Z -> stack_allocator_t) (l : list Z) (a : Z) : Prop :=
  a mod 4096 = 0 /\ STACK_BASE + 8192 <= a /\ a + 24576 <= MM_VIRTUAL_TOS + 1 /\
  forall t, t ∈ l -> apart (mk_sa 0 1 a (a + 12288) 0) (f t).

(** No room behind any allocator: no place above the first one. *)
Lemma no_fit_place f lo l a :
  spaced f lo l -> no_fit f l -> a mod 4096 = 0 -> a + 24576 <= MM_VIRTUAL_TOS + 1 ->
  (forall t, t ∈ l -> apart (mk_sa 0 1 a (a + 12288) 0) (f t)) -> l = [] \/ a + 24576 <= limit_of f l.
Proof.
  intros Hsp Hno Hal Htop Hap; destruct l as [|c l]; [by left|right].
  revert lo c Hsp Hno Hap; induction l as [|n l IH]; intros lo c Hsp Hno Hap.
  - destruct Hno as [Hno _]; destruct Hsp as (Ha & _ & _).
    destruct (Hap c ltac:(left)) as [H|H]; cbn in *; [lia|]; destruct Hno; unfold fits; cbn; destruct Ha; lia.
  - destruct Hno as [Hno Hno']; pose proof Hsp as (Ha & _ & Hsp').
    pose proof (IH _ n Hsp' Hno' ltac:(intros; apply Hap; by right)) as Hbelow.
    destruct (Hap c ltac:(left)) as [H|H]; cbn in *; [lia|]; destruct Hno; unfold fits; cbn; destruct Ha; lia.
Qed.

(** The new list is in order again. *)
Lemma spaced_insert f lo l1 c l2 t :
  t ∉ l1 ++ c :: l2 -> spaced f lo (l1 ++ c :: l2) -> area_ok (f t) -> high f c + 12288 <= low f t ->
  match l2 with [] => True | n :: _ => high f t + 12288 <= low f n end -> spaced f lo (l1 ++ c :: t :: l2).
Proof.
  intros _ (H1 & Hc & Hlo & H2)%spaced_app Ht Hct Htn; apply spaced_app; split; [done|]; cbn; split_and!; auto.
  destruct l2 as [|n l2]; [done|]; destruct H2 as (Hn & _ & H2); by split_and!.
Qed.

Lemma ids_length l : NoDup l -> (forall t, t ∈ l -> 0 <= t < PM_MAX_TASK) -> (length l <= Z.to_nat PM_MAX_TASK)%nat.
Proof.
  intros Hnd Hl; rewrite <- (length_seqZ 0 PM_MAX_TASK); apply submseteq_length, NoDup_submseteq; [done|].
  intros t Ht; apply elem_of_seqZ; specialize (Hl t Ht); lia.
Qed.

(** Where the new allocator belongs: before the first one, or behind [c]. *)
Inductive spot (f : Z -> stack_allocator_t) (t : Z) : list Z -> list Z -> Prop :=
| spot_front h l : high f t + 12288 <= low f h -> spot f t (h :: l) (t :: h :: l)
| spot_behind l1 c l2 : high f c + 12288 <= low f t ->
    match l2 with [] => True | n :: _ => high f t + 12288 <= low f n end -> spot f t (l1 ++ c :: l2) (l1 ++ c :: t :: l2).

Lemma add_allocator_ok s t l l' :
  let f := stack_allocator s in
  dlist (sa_links s) (as_list (address_space s (pid s))) l -> (forall u, u ∈ l -> 0 <= u < PM_MAX_TASK) ->
  spaced f STACK_BASE l -> t ∉ l -> area_ok (f t) -> spot f t l l' ->
  exists s', mm_add_stack_allocator t s = Ok (tt, s') /\ dlist (sa_links s') (as_list (address_space s' (pid s))) l' /\
    spaced f STACK_BASE l' /\ stack_allocator s' = f /\ stack_frame s s' (pid s) t /\ pid s' = pid s.
Proof.
  intros f Hd Hids Hsp Ht Ha Hspot; unfold mm_add_stack_allocator; erewrite (mm_bind_ok _ _ s) by reflexivity; cbn [id].
  pose proof (dl_head _ _ _ Hd) as Hh; pose proof (dl_tail _ _ _ Hd) as Htl.
  assert (Hlen := ids_length l (dl_nodup _ _ _ Hd) Hids).
  assert (Htail : exists z, tail (as_list (address_space s (pid s))) = Some z).
  { rewrite Htl; destruct (snoc_cases l) as [->|(k & z & ->)]; [inversion Hspot; by destruct l1|exists z; apply last_or_snoc]. }
  destruct Htail as [z Hz]; pose proof Ha as [_ _ Hsz Hlo _].
  destruct Hspot as [h l Hfit|l1 c l2 Hc Hn].
  - rewrite Hh, Hz; cbn [first_or]; fold f; rewrite (proj2 (Z.ltb_lt (high f t) (low f h))) by lia.
    destruct (LIST_ADD_FRONT (sa_links s) (as_list (address_space s (pid s))) t) as [st q] eqn:E.
    destruct (add_front_ok _ _ _ _ _ _ Hd Ht E) as [Hd' _].
    eexists; split; [reflexivity|]; cbn; rewrite fn_lookup_insert; split_and!; try done.
    + by destruct Hsp as (? & ? & ?).
    + by destruct Hsp as (? & ? & ?).
    + split; try done; cbn; [intros; by rewrite fn_lookup_insert_ne|by rewrite fn_lookup_insert].
  - assert (Hnot : (high f t <? low f (default c (List.hd_error (l1 ++ c :: l2)))) = false).
    { apply Z.ltb_ge; destruct l1 as [|d l1]; cbn; [pose proof (spaced_area f _ _ c Hsp ltac:(left)) as [[] _]; lia|].
      destruct Hsp as ([] & _ & Hsp); destruct (spaced_area f _ _ c Hsp) as [[] ?]; [apply elem_of_app; right; left|lia]. }
    assert (Hhd : first_or (l1 ++ c :: l2) None = Some (default c (List.hd_error (l1 ++ c :: l2)))) by by destruct l1.
    rewrite Hh, Hhd, Hz; fold f; rewrite Hnot, <- Hhd.
    rewrite (add_sorted_ok _ s (pid s) t STACK_BASE None l1 c l2); fold f; [|apply Hd|done| |lia|lia|destruct l2; [done|lia]].
    2:{ rewrite length_app in Hlen; cbn in Hlen; lia. }
    eexists; split; [reflexivity|]; destruct l2 as [|n l2].
    + destruct (LIST_ADD_END (sa_links s) (as_list (address_space s (pid s))) t) as [st q] eqn:E.
      destruct (add_end_ok _ _ _ _ _ _ Hd Ht E) as [Hd' _]; rewrite <- app_assoc in Hd'.
      cbn; rewrite fn_lookup_insert; split_and!; try done; [by apply spaced_insert|].
      split; try done; cbn; [intros; by rewrite fn_lookup_insert_ne|by rewrite fn_lookup_insert].
    + destruct (add_after_ok _ _ _ _ _ _ t Hd Ht) as [Hd' _].
      cbn; split_and!; try done; by apply spaced_insert.
Qed.

(** If no allocator of [l1] has room behind it, a place below [c] is below all of them. *)
Lemma place_below f l1 c l2 a :
  (forall l1' d l1'', l1 = l1' ++ d :: l1'' -> ~ fits f d (l1'' ++ c :: l2)) ->
  (forall u, u ∈ l1 -> apart (mk_sa 0 1 a (a + 12288) 0) (f u)) -> a + 24576 <= low f c ->
  a + 24576 <= limit_of f (l1 ++ c :: l2).
Proof.
  revert c l2; induction l1 as [|d l1 IH] using rev_ind; intros c l2 Hno Hap Ha; [done|].
  rewrite <- app_assoc; cbn [app]; apply IH.
  - intros l1' e l1'' ->; specialize (Hno l1' e (l1'' ++ [d])); rewrite <- !app_assoc in Hno; by apply Hno.
  - intros; apply Hap, elem_of_app; by left.
  - pose proof (Hno l1 d [] eq_refl) as Hd; unfold fits in Hd; cbn in Hd.
    destruct (Hap d) as [H|H]; [apply elem_of_app; right; left| |]; cbn in H; lia.
Qed.

(** The decision of the code, for the list [l] of the allocators: a place in front, the first gap, or nothing. *)
Lemma choose_ok s l :
  let f := stack_allocator s in
  seg (sa_links s) None l None -> spaced f STACK_BASE l -> l <> [] -> (length l <= Z.to_nat PM_MAX_TASK)%nat ->
  let top := if limit_of f l <=? STACK_BASE + 28672 then 0 else STACK_BASE + 20480 in
  exists r, (if top =? 0 then find_gap (Z.to_nat PM_MAX_TASK) (first_or l None) else mret top) s = Ok (r, s) /\
    (r = 0 /\ (forall a, ~ place f l a) \/
     r <> 0 /\ place f l (r - 12288) /\ (forall a, place f l a -> r - 12288 <= a) /\
       forall g t, (forall u, u ∈ l -> g u = f u) -> low g t = r - 12288 -> high g t = r -> exists l', spot g t l l' /\ l' ≡ₚ t :: l).
Proof.
  intros f Hseg Hsp Hne Hlen; destruct l as [|h l0]; [done|]; set (l := h :: l0) in *; cbv zeta.
  pose proof (spaced_area f _ _ h Hsp ltac:(left)) as [[_ Hal Hsz _ Hhh] _]; rewrite stack_top in Hhh.
  change (limit_of f l) with (low f h); rewrite stack_base.
  destruct (Z.leb_spec (low f h) (4290215936 + 28672)) as [Hlow|Hlow].
  - rewrite Z.eqb_refl; destruct (find_gap_ok _ s STACK_BASE None l Hseg Hsp Hlen) as (r & E & Hcase); fold f in Hcase.
    exists r; split; [exact E|]; destruct Hcase as [[-> Hno]|(l1 & c & l2 & El & Hfit & -> & Hfirst)]; [left|right].
    { split; [done|]; intros a (Ha1 & Ha2 & Ha3 & Ha4); rewrite stack_base in Ha2.
      destruct (no_fit_place f _ l a Hsp Hno Ha1 Ha3 Ha4) as [|H]; [done|]; cbn in H; lia. }
    rewrite El in Hsp; apply spaced_app in Hsp as Hsp'; destruct Hsp' as [Hsp1 Hsp2].
    pose proof (limit_range f _ c l2 Hsp2) as [Hlim _]; unfold fits in Hfit.
    destruct (spaced_area f _ _ c Hsp) as [[_ Hcal Hcsz Hclo _] _]; [apply elem_of_app; right; left|]; rewrite stack_base in Hclo.
    split_and!; [lia| | |].
    + split_and!; [Z.div_mod_to_equations; lia|rewrite stack_base; lia|change MM_VIRTUAL_TOS with 4290740223; lia|].
      intros u; rewrite El, elem_of_app, elem_of_cons; unfold apart; cbn; intros [Hu|[->|Hu]]; [|lia|].
      * right; destruct (list_elem_of_split _ _ Hu) as (k1 & k2 & ->); rewrite <- app_assoc in Hsp; cbn in Hsp.
        apply spaced_app in Hsp as (_ & _ & _ & Hsp).
        destruct (spaced_area f _ _ c Hsp) as [_ ?]; [apply elem_of_app; right; left|lia].
      * left; destruct l2 as [|n l2]; [by apply elem_of_nil in Hu|]; cbn in Hfit; destruct Hsp2 as (_ & _ & Hn & Hlo & Hsp2).
        apply elem_of_cons in Hu as [->|Hu]; [lia|].
        destruct (spaced_area f _ _ u Hsp2 Hu) as [_ ?]; destruct Hn; lia.
    + intros a (Ha1 & Ha2 & Ha3 & Ha4); rewrite stack_base in Ha2; rewrite El in Ha4.
      destruct (Ha4 c) as [H|H]; [apply elem_of_app; right; left| |]; cbn in H; [|lia].
      pose proof (place_below f l1 c l2 a Hfirst ltac:(intros; apply Ha4, elem_of_app; by left) ltac:(lia)) as Hb.
      rewrite <- El in Hb; cbn in Hb; lia.
    + intros g t Hg Hgl Hgh; rewrite El in Hg |- *; exists (l1 ++ c :: t :: l2); split.
      * assert (Egc : g c = f c) by (apply Hg, elem_of_app; right; left).
        apply spot_behind; [rewrite Egc; lia|]; destruct l2 as [|n l2]; [done|]; cbn in Hfit.
        rewrite (Hg n) by (apply elem_of_app; right; right; left); lia.
      * rewrite (Permutation_app_comm l1), (Permutation_app_comm l1 (c :: l2)); cbn; by rewrite Permutation_swap.
  - exists (4290215936 + 20480); split; [done|right]; split_and!; [lia| | |].
    + split_and!; [done|rewrite stack_base; lia|by compute|]; unfold apart; cbn; intros u Hu; left.
      assert (Hh : low f h <= low f u); [|Z.div_mod_to_equations; lia].
      apply elem_of_cons in Hu as [->|Hu]; [lia|]; destruct Hsp as ([] & _ & Hsp); destruct (spaced_area f _ _ u Hsp Hu) as [_ ?]; lia.
    + intros a (_ & Ha2 & _); rewrite stack_base in Ha2; lia.
    + intros g t Hg Hgl Hgh; exists (t :: l); split; [|done]; apply spot_front.
      rewrite (Hg h ltac:(left)); Z.div_mod_to_equations; lia.
Qed.

(** C20. [mm_find_free_stack] for a task without a stack area: if there is a place of four pages
    in the kernel stack area of the process with two free pages below and above it, it reserves
    the lowest such place for the task and returns its top page; otherwise it returns 0 and
    changes nothing.  The list of stack allocators stays sorted, and the areas within the kernel
    stack area and apart from each other. *)
Theorem find_free_stack_correct s t l :
  stacks_ok s (pid s) l -> t ∉ l -> 0 <= t < PM_MAX_TASK -> st_lock (pid s) ∉ locks s ->
  exists r s', mm_find_free_stack STACK_BASE STACK_TOP t s = Ok (r, s') /\ stack_frame s s' (pid s) t /\ pid s' = pid s /\
    (r = 0 /\ s' = s /\ (forall a, ~ place (stack_allocator s) l a) \/
     r <> 0 /\ (exists l', l' ≡ₚ t :: l /\ stacks_ok s' (pid s) l') /\
       stack_allocator s' t = mk_sa t 1 (r - 12288) r (pid s) /\ place (stack_allocator s) l (r - 12288) /\
       forall a, place (stack_allocator s) l a -> r - 12288 <= a).
Proof.
  intros [Hd Hne Hids Hsp] Ht Htr Hl; unfold mm_find_free_stack; assert (Hlen := ids_length l (dl_nodup _ _ _ Hd) Hids).
  erewrite (mm_bind_ok _ _ s) by reflexivity; erewrite mm_bind_ok by (by apply lock_ok).
  set (s1 := set_locks (st_lock (pid s) :: locks s) s); erewrite (mm_bind_ok _ _ s1) by reflexivity.
  destruct (choose_ok s1 l (dl_seg _ _ _ Hd) Hsp Hne Hlen) as (r & Er & Hcase).
  change (stack_allocator s1) with (stack_allocator s) in Er, Hcase.
  assert (Hhead : head (as_list (address_space s1 (pid s))) = first_or l None) by apply Hd.
  rewrite Hhead; destruct l as [|h l0]; [done|]; cbn [first_or]; set (l := h :: l0) in *.
  erewrite (mm_bind_ok _ _ s1) by reflexivity.
  change (u32 (STACK_BASE + (MM_STACK_PAGES_GAP + MM_STACK_PAGES_TASK - 1) * MM_PAGE_SIZE)) with (STACK_BASE + 20480).
  change (u32 (STACK_BASE + 20480 + MM_STACK_PAGES_GAP * MM_PAGE_SIZE)) with (STACK_BASE + 28672).
  change (lowest_page (stack_allocator s1 h)) with (limit_of (stack_allocator s) l).
  rewrite (mm_bind_ok _ _ _ _ _ Er); destruct Hcase as [[-> Hno]|(Hr & Hplace & Hmin & Hspot)].
  { cbn [Z.eqb]; erewrite mm_bind_ok by (by apply (unlock_ok _ (locks s))).
    exists 0, s; split; [by destruct s|]; split; [by split|]; split; [done|by left]. }
  rewrite (proj2 (Z.eqb_neq r 0) Hr); erewrite (mm_bind_ok _ _ s1) by reflexivity.
  pose proof Hplace as (P1 & P2 & P3 & _); rewrite stack_base in P2; change MM_VIRTUAL_TOS with 4290740223 in P3.
  change ((MM_STACK_PAGES_TASK - 1) * MM_PAGE_SIZE) with 12288; rewrite (u32_small (r - 12288)) by lia.
  set (s2 := set_sa t (mk_sa t 1 (r - 12288) r (pid s)) s1).
  assert (Hf2 : forall u, u ∈ l -> stack_allocator s2 u = stack_allocator s u)
    by (intros u Hu; cbn; rewrite fn_lookup_insert_ne; [done|congruence]).
  assert (Ht2 : stack_allocator s2 t = mk_sa t 1 (r - 12288) r (pid s)) by (cbn; by rewrite fn_lookup_insert).
  destruct (Hspot (stack_allocator s2) t Hf2) as (l' & Hsp' & Hperm); [by rewrite Ht2|by rewrite Ht2|].
  destruct (add_allocator_ok s2 t l l') as (s3 & E3 & Hd3 & Hsp3 & Hf3 & Hframe & Hpid); try done.
  { by apply (spaced_ext (stack_allocator s)). }
  { rewrite Ht2; split; cbn; rewrite ?stack_base, ?stack_top; try lia; Z.div_mod_to_equations; lia. }
  rewrite (mm_bind_ok _ _ _ _ _ E3).
  erewrite mm_bind_ok by (apply (unlock_ok _ (locks s)); [done|by rewrite (sf_locks _ _ _ _ Hframe)]).
  exists r, (set_locks (locks s) s3); split; [done|]; destruct Hframe as [F1 F2 F3 F4 F5 F6 F7]; split; [|split; [done|right]].
  { split; cbn; try done; intros u Hu; rewrite F5 by done; cbn; by rewrite fn_lookup_insert_ne. }
  split_and!; [done| |by rewrite <- Ht2, <- Hf3|done|done].
  exists l'; split; [done|]; split; cbn; [done|intros ->; by apply Permutation_nil_cons in Hperm| |by rewrite Hf3].
  intros u; rewrite Hperm, elem_of_cons; intros [->|?]; auto.
Qed.

(** The first task of process zero, with its stack at the top of the area. *)
Definition stack_mm : mm := mm_init_address_spaces ex_mm.

Lemma stack_mm_ok : stacks_ok stack_mm 0 [0].
Proof.
  split; [split; [done|done|done|apply NoDup_singleton]|done|intros t ->%list_elem_of_singleton; done|].
  cbn; split_and!; [split; done|by compute|done].
Qed.

Lemma find_free_stack_correct_witness :
  exists s', mm_find_free_stack STACK_BASE STACK_TOP 7 stack_mm = Ok (STACK_BASE + 20480, s') /\ exists l, l ≡ₚ [7; 0] /\ stacks_ok s' 0 l.
Proof.
  assert (H7 : 7 ∉ [0]) by (intros ?%list_elem_of_singleton; lia).
  assert (Hl : st_lock 0 ∉ locks stack_mm) by apply not_elem_of_nil.
  destruct (find_free_stack_correct stack_mm 7 [0] stack_mm_ok H7) as (r & s' & E & _ & _ & Hcase); [done|exact Hl|].
  assert (Hp : place (stack_allocator stack_mm) [0] (STACK_BASE + 8192)).
  { split_and!; [done|lia|by compute|]; intros t ->%list_elem_of_singleton; left; by compute. }
  destruct Hcase as [(_ & _ & Hno)|(_ & Hl' & _ & (_ & Hlow & _) & Hmin)]; [by destruct (Hno _ Hp)|].
  specialize (Hmin _ Hp); assert (r = STACK_BASE + 20480) as -> by lia; exists s'; split; [exact E|exact Hl'].
Defined.

(** ** Release *)

Lemma space_same s s' D :
  pmem s' = pmem s -> phys s' = phys s -> tlb s' = tlb s -> cr0 s' = cr0 s -> cr3 s' = cr3 s -> space_ok s D -> space_ok s' D.
Proof.
  intros E1 E2 E3 E4 E5 [H1 H2 H3 H4]; split; rewrite ?E1, ?E2; try done.
  unfold pg_enabled; rewrite E4; destruct H4 as [H4|[P1 P2 P3 P4 P5 P6 P7]]; [by left|right].
  split; rewrite ?E2, ?E3, ?E5; try done; unfold pg_enabled; by rewrite E4.
Qed.

(** The page [v] is mapped to the physical page [n], which holds no page table. *)
Definition data_page (s : mm) (D v n : Z) : Prop :=
  (exists x, walk (phys s) D v = Some x /\ x_frame x = n * MM_PAGE_SIZE) /\ 0 < n < PHYS_LIMIT /\
  data_frame (phys s) D (n * MM_PAGE_SIZE).

Lemma data_page_entry s D v n :
  data_page s D v n -> pte_p (pde (phys s) D (PTD_OFFSET v)) = true /\ entry_page (phys s) D v = n.
Proof.
  intros ((x & Hw & Hf) & _); revert Hw; unfold walk, entry_page; destruct (pte_p (pde _ _ _)); [|done].
  destruct (pte_p (pte _ _ _)); [|done]; intros [= <-]; split; [done|by apply page_base_inj].
Qed.

(** The [k] pages from [page] on, of which the allocator of the task names the last one. *)
Lemma unmap_stack_ok k fuel s D t q page F :
  space_ok s D -> STACK_BASE <= page -> page mod 4096 = 0 -> page + 4096 * Z.of_nat k = high (stack_allocator s) t + 4096 ->
  high (stack_allocator s) t <= STACK_TOP -> pt_lock q ∉ locks s -> (k < fuel)%nat ->
  (forall i, 0 <= i < Z.of_nat k -> in_ramdisk s (page + 4096 * i) = false /\ data_page s D (page + 4096 * i) (F (page + 4096 * i))) ->
  exists p m tl, unmap_stack fuel t D page q s = Ok (tt, upd p m tl s) /\ space_ok (upd p m tl s) D /\
    (forall i, 0 <= i < Z.of_nat k -> walk m D (page + 4096 * i) = None) /\
    (forall w, 0 <= w < 2 ^ 32 -> PTD_OFFSET w < 1023 -> (w < page \/ page + 4096 * Z.of_nat k <= w) -> walk m D w = walk (phys s) D w) /\
    (forall n, 0 <= n -> bit p n = 0 <-> bit (pmem s) n = 0 \/ exists i, 0 <= i < Z.of_nat k /\ F (page + 4096 * i) = n).
Proof.
  revert fuel s page; induction k as [|k IH]; intros fuel s page Hs Hlo Hal Hend Htop Hl Hf Hpages;
    (destruct fuel as [|fuel]; [lia|]); cbn [unmap_stack]; erewrite (mm_bind_ok _ _ s) by reflexivity.
  - rewrite (proj2 (Z.leb_gt page _)) by lia; exists (pmem s), (phys s), (tlb s); rewrite upd_eta; split_and!; try done; try lia.
    intros n _; split; [by left|intros [?|(i & ? & _)]; [done|lia]].
  - rewrite (proj2 (Z.leb_le page _)) by lia; rewrite stack_base in Hlo; rewrite stack_top in Htop.
    destruct (Hpages 0 ltac:(lia)) as [Hrd Hdp]; rewrite Z.mul_0_r, Z.add_0_r in Hrd, Hdp.
    destruct (data_page_entry s D page _ Hdp) as [Hp He]; pose proof Hdp as (_ & Hn & Hdf).
    assert (Hoff : forall v, 4290215936 <= v < 4290740224 -> PTD_OFFSET v = 1022) by (intros; rewrite ptd_offset; Z.div_mod_to_equations; lia).
    assert (HDp : MM_PAGE page <> MM_PAGE D).
    { pose proof (tb_dir _ _ _ (sp_tables _ _ Hs)) as [_ HDr]; unfold MM_PAGE, MM_PAGE_SIZE; Z.div_mod_to_equations; lia. }
    destruct (unmap_ok s D page q) as (p & tl & m & E & Hs1 & Hu & Hb); try done; [split; [done|lia]|rewrite Hoff by lia; done|by right| |].
    { intros _; rewrite He; done. }
    rewrite (mm_bind_ok _ _ _ _ _ E), u32_small by lia; rewrite Hp, He in Hb; cbn [andb] in Hb.
    assert (Hother : forall i, 1 <= i < Z.of_nat (S k) -> walk m D (page + 4096 * i) = walk (phys s) D (page + 4096 * i)).
    { intros i Hi; apply (um_other _ _ _ _ Hu); [lia|rewrite Hoff; lia|unfold MM_PAGE, MM_PAGE_SIZE; Z.div_mod_to_equations; lia]. }
    assert (Hsh : forall i, page + 4096 + 4096 * i = page + 4096 * (i + 1)) by lia.
    destruct (IH fuel (upd p m tl s) (page + 4096)) as (p' & m' & tl' & E' & Hs' & Hnone & Hkeep & Hbits); try done; try lia.
    { rewrite stack_base; lia. } { Z.div_mod_to_equations; lia. } { cbn; lia. }
    { intros i Hi; rewrite Hsh; destruct (Hpages (i + 1) ltac:(lia)) as [Hr1 ((x & Hw & Hx) & Hn1 & Hd1)]; split; [done|].
      split_and!; [exists x; cbn; by rewrite Hother by lia|apply Hn1|apply Hn1|].
      by apply (data_frame_ext (phys s)); [apply (um_pde _ _ _ _ Hu)|]. }
    exists p', m', tl'; split_and!; [exact E'|exact Hs'| | |].
    + intros i Hi; destruct (decide (i = 0)) as [->|].
      * rewrite Hkeep; [cbn; rewrite Z.mul_0_r, Z.add_0_r; apply Hu|lia|rewrite Hoff; lia|left; lia].
      * replace (page + 4096 * i) with (page + 4096 + 4096 * (i - 1)) by lia; apply Hnone; lia.
    + intros w Hw Hwd Hor; rewrite Hkeep; auto with lia; cbn; apply (um_other _ _ _ _ Hu); auto.
      unfold MM_PAGE, MM_PAGE_SIZE; Z.div_mod_to_equations; lia.
    + intros n Hn0; rewrite Hbits by done; cbn; rewrite Hb by done; split.
      * intros [H0|(i & Hi & <-)]; [|right; exists (i + 1); rewrite Hsh; split; [lia|done]].
        destruct (Z.eqb_spec (F page) n) as [<-|]; [right; exists 0; rewrite Z.mul_0_r, Z.add_0_r; split; [lia|done]|by left].
      * intros [H0|(i & Hi & <-)]; [left; by case_test|].
        destruct (decide (i = 0)) as [->|]; [left; rewrite Z.mul_0_r, Z.add_0_r, Z.eqb_refl; done|].
        right; exists (i - 1); split; [lia|]; f_equal; lia.
Qed.

Lemma spaced_remove f lo l1 t l2 : spaced f lo (l1 ++ t :: l2) -> spaced f lo (l1 ++ l2).
Proof.
  intros (H1 & [] & Hlo & H2)%spaced_app; apply spaced_app; split; [done|].
  apply (spaced_mono _ (high f t + 12288)); [lia|done].
Qed.

(** C21. [mm_release_task_stack] for a task of a process that has another task, whose stack pages
    are mapped: it returns 0, the task has left the sorted list of stack allocators and its
    allocator is invalid, its four pages are no longer mapped and their physical pages are free;
    no other page is changed, and no physical page but these is released. *)
Theorem release_task_stack_correct proc_ptd s p t l1 l2 F :
  let D := mm_get_ptd_for_pid proc_ptd p in
  stacks_ok s p (l1 ++ t :: l2) -> l1 ++ l2 <> [] -> space_ok s D -> st_lock p ∉ locks s -> pt_lock p ∉ locks s ->
  let a := low (stack_allocator s) t in
  (forall i, 0 <= i < 4 -> in_ramdisk s (a + 4096 * i) = false /\ data_page s D (a + 4096 * i) (F (a + 4096 * i))) ->
  exists s', mm_release_task_stack proc_ptd t p s = Ok (0, s') /\ space_ok s' D /\ stacks_ok s' p (l1 ++ l2) /\
    locks s' = locks s /\ sa_valid (stack_allocator s' t) = 0 /\ (forall u, u <> t -> stack_allocator s' u = stack_allocator s u) /\
    (forall i, 0 <= i < 4 -> walk (phys s') D (a + 4096 * i) = None) /\
    (forall w, 0 <= w < 2 ^ 32 -> PTD_OFFSET w < 1023 -> w < a \/ a + 16384 <= w -> walk (phys s') D w = walk (phys s) D w) /\
    (forall n, 0 <= n -> bit (pmem s') n = 0 <-> bit (pmem s) n = 0 \/ exists i, 0 <= i < 4 /\ F (a + 4096 * i) = n).
Proof.
  intros D [Hd Hne Hids Hsp] Hne' Hs Hl1 Hl2 a Hpages; unfold mm_release_task_stack.
  assert (Hin : t ∈ l1 ++ t :: l2) by (apply elem_of_app; right; left); specialize (Hids t Hin) as Ht.
  rewrite (proj2 (Z.leb_gt PM_MAX_TASK t)) by lia; erewrite (mm_bind_ok _ _ s) by reflexivity.
  destruct (spaced_area _ _ _ t Hsp Hin) as [[Hv Hal Hsz Hlo Hhi] _]; rewrite (proj2 (Z.eqb_neq _ _) Hv).
  erewrite mm_bind_ok by (by apply lock_ok); erewrite mm_bind_ok by reflexivity; cbn [id].
  set (ls := st_lock p :: locks s); destruct (remove_ok _ _ _ _ _ Hd) as (st & q & E & Hd' & _).
  change (sa_links (set_locks ls s)) with (sa_links s); change (address_space (set_locks ls s)) with (address_space s).
  rewrite E; erewrite mm_bind_ok by reflexivity; set (s1 := set_list p (st, q) (set_locks ls s)).
  destruct (unmap_stack_ok 4 (Z.to_nat (2 ^ 20 + 1)) s1 D t p a F) as (pm & m & tl & E' & Hs' & Hnone & Hkeep & Hbits); try done.
  { by apply (space_same s). } { cbn; unfold a; lia. } { cbn; intros [?|?]%elem_of_cons; done. } { lia. }
  fold D; fold a; rewrite (mm_bind_ok _ _ _ _ _ E'); erewrite mm_bind_ok by reflexivity.
  erewrite mm_bind_ok by (by apply (unlock_ok _ (locks s))).
  eexists; split; [reflexivity|]; split_and!; try done.
  - by apply (space_same (upd pm m tl s1)).
  - split; [cbn; by rewrite fn_lookup_insert|done| |].
    + intros u Hu; apply Hids; rewrite elem_of_app in Hu |- *; rewrite elem_of_cons; tauto.
    + apply (spaced_ext (stack_allocator s)); [|by apply (spaced_remove _ _ _ t)]; intros u Hu; cbn.
      rewrite fn_lookup_insert_ne; [done|]; intros ->; pose proof (dl_nodup _ _ _ Hd) as Hnd.
      apply list.NoDup_app in Hnd as (_ & H1 & [H2 _]%list.NoDup_cons); apply elem_of_app in Hu as [Hu|Hu]; [|done].
      apply (H1 u Hu); left.
  - cbn; by rewrite fn_lookup_insert.
  - intros u Hu; cbn; by rewrite fn_lookup_insert_ne.
Qed.

(** A second task with its stack at the bottom of the area. *)
Definition two_stacks : mm :=
  let s := set_sa 7 (mk_sa 7 1 (STACK_BASE + 8192) (STACK_BASE + 20480) 0) stack_mm in
  set_list 0 (LIST_ADD_FRONT (sa_links s) (as_list (address_space s 0)) 7) s.

Lemma two_stacks_ok : stacks_ok two_stacks 0 [7; 0].
Proof.
  split; [split; [done|done|done|]|done| |].
  - apply list.NoDup_cons; split; [intros ?%list_elem_of_singleton; lia|apply NoDup_singleton].
  - intros t [->| ->%list_elem_of_singleton]%elem_of_cons; done.
  - cbn; split_and!; by compute || by split.
Qed.

Lemma release_task_stack_correct_witness :
  exists s', mm_release_task_stack ex_dir 0 0 two_stacks = Ok (0, s') /\ stacks_ok s' 0 [7] /\ bit (pmem s') 784 = 0.
Proof.
  assert (Hs : space_ok two_stacks ex_dir) by (apply (space_same ex_mm); try reflexivity; apply ex_running).
  destruct (release_task_stack_correct ex_dir two_stacks 0 0 [7] [] (fun v => 784 + (v - 4290723840) / 4096) two_stacks_ok)
    as (s' & E & _ & Hst & _ & _ & _ & _ & _ & Hb).
  - discriminate.
  - exact Hs.
  - apply not_elem_of_nil.
  - apply not_elem_of_nil.
  - intros i Hi; assert (i = 0 \/ i = 1 \/ i = 2 \/ i = 3) as [->|[->|[->| ->]]] by lia;
      (split; [reflexivity|split_and!; [eexists; split; [vm_compute; reflexivity|reflexivity]|reflexivity|reflexivity|
        split_and!; [reflexivity|vm_compute; congruence|]]]);
      intros j Hj Hp; destruct (ex_present j Hj Hp) as [->|[->| ->]]; vm_compute; congruence.
  - exists s'; split; [exact E|split; [exact Hst|]]; apply Hb; [lia|right; exists 0; split; [lia|reflexivity]].
Defined.
