(* ===== verification/MmFork.v ===== *)
(** * The copy of an address space for [fork]

    [mm_clone] (modelled in [MmStack]) gives a new process a directory of its own:
    the page tables of the kernel are shared, the pages of the user and the kernel
    stack of the current task are copied.  This file holds the invariant of the copy
    and what each step does to memory; [MmForkProofs] follows the code. *)

From S2P Require Import Prelude Errors Memory MmDefs Lists PhysMem PhysMemProofs Paging PagingProofs PagingMap Mm MmStack MmUser.
Import Lists.

(** ** [memcpy] between two mapped pages *)

Lemma page_offset v off : v mod 4096 = 0 -> 0 <= off < 4096 ->
  (v + off) mod MM_PAGE_SIZE = off /\ MM_PAGE (v + off) = MM_PAGE v.
Proof. unfold MM_PAGE, MM_PAGE_SIZE; intros; Z.div_mod_to_equations; lia. Qed.

Lemma translate_page s D w v x off :
  space_ok s D -> pg_enabled s = 1 -> walk (phys s) D v = Some x -> (w = true -> x_rw x = true) ->
  0 <= v < 2 ^ 32 -> v mod 4096 = 0 -> 0 <= off < 4096 ->
  exists t, translate w (u32 (v + off)) s = Ok (x_frame x + off, set_tlb t s) /\ space_ok (set_tlb t s) D.
Proof.
  intros Hs H1 Hw Hrw Hv Hva Ho; destruct (page_offset v off Hva Ho) as [E1 E2].
  assert (Hr : 0 <= v + off < 2 ^ 32) by (Z.div_mod_to_equations; lia); rewrite u32_small by lia.
  destruct (translate_ok s D w (v + off) x) as (t & E & Ht); [by apply paged_mode|done| |done|].
  - rewrite <- Hw; by apply walk_page.
  - rewrite E1 in E; exists t; split; [done|]; apply space_tlb; auto.
Qed.

Lemma vmemcpy_ok n s D v b us vs x off :
  space_ok s D -> pg_enabled s = 1 -> data_frame (phys s) D b -> 0 <= v < 2 ^ 32 -> v mod 4096 = 0 ->
  walk (phys s) D v = Some (mk_xlat b true us) -> 0 <= vs < 2 ^ 32 -> vs mod 4096 = 0 -> walk (phys s) D vs = Some x ->
  x_frame x <> b -> 0 <= off -> off + Z.of_nat n <= 4096 ->
  exists t m', vmemcpy n (u32 (v + off)) (u32 (vs + off)) s = Ok (tt, set_phys m' (set_tlb t s)) /\
    space_ok (set_phys m' (set_tlb t s)) D /\
    forall a, m' a = if (b + off <=? a) && (a <? b + off + Z.of_nat n) then phys s (x_frame x + (a - b)) else phys s a.
Proof.
  revert s off; induction n as [|n IH]; intros s off Hs H1 Hb Hv Hva Hw Hvs Hvsa Hx Hne Ho Hn.
  - exists (tlb s), (phys s); rewrite set_tlb_eta; destruct s; split; [done|]; split; [done|].
    intros a; case_test; case_test; cbn; done || lia.
  - pose proof (tb_bytes _ _ _ (sp_tables _ _ Hs)) as Hby; destruct (frame_range _ _ _ _ Hby Hx) as [_ Hxa].
    assert (Hba := proj1 Hb); cbn [vmemcpy].
    destruct (translate_page s D false vs x off) as (t1 & E1 & Hs1); try done; [lia|].
    assert (Hl : vload8 (u32 (vs + off)) s = Ok (phys s (x_frame x + off), set_tlb t1 s)).
    { unfold vload8, mbind, mmM_bind; by rewrite E1. }
    rewrite (mm_bind_ok _ _ _ _ _ Hl).
    destruct (translate_page (set_tlb t1 s) D true v (mk_xlat b true us) off) as (t2 & E2 & Hs2); try done; [lia|].
    set (m1 := store8 (phys s) (b + off) (phys s (x_frame x + off))).
    assert (Hst : vstore8 (u32 (v + off)) (phys s (x_frame x + off)) (set_tlb t1 s) = Ok (tt, set_phys m1 (set_tlb t2 s))).
    { unfold vstore8, mbind, mmM_bind; rewrite E2; unfold m1, u8; cbn; rewrite Z.mod_small by apply Hby; done. }
    rewrite (mm_bind_ok _ _ _ _ _ Hst).
    assert (Hsame : forall a, MM_PAGE a <> MM_PAGE b -> m1 a = phys s a).
    { intros a Ha; apply store8_other; intros ->; apply Ha, page_offset; [done|lia]. }
    assert (Hs3 : space_ok (set_phys m1 (set_tlb t2 s)) D).
    { apply (space_data _ D b); [done|done|done|]; intros a; unfold m1, store8; case_test; apply Hby. }
    destruct (IH (set_phys m1 (set_tlb t2 s)) (off + 1)) as (t' & m' & E & Hs' & Hm'); try done; try lia.
    + apply (data_frame_ext (phys s)); [|done]; intros j Hj; by apply (data_pde (phys s) _ D b (pmem s)); [apply Hs|..].
    + cbn; rewrite (data_walk (phys s) m1 D b (pmem s)); [done|apply Hs|done|done|done].
    + cbn; rewrite (data_walk (phys s) m1 D b (pmem s)); [done|apply Hs|done|done|done].
    + exists t', m'; split; [|split; [exact Hs'|]].
      * replace (u32 (u32 (v + off) + 1)) with (u32 (v + (off + 1))) by (unfold u32; rewrite Zplus_mod_idemp_l; f_equal; lia).
        replace (u32 (u32 (vs + off) + 1)) with (u32 (vs + (off + 1))) by (unfold u32; rewrite Zplus_mod_idemp_l; f_equal; lia).
        exact E.
      * intros a; rewrite Hm'; cbn [phys set_phys]; unfold m1, store8.
        repeat (case_test; cbn); try done; try lia; try (f_equal; lia).
        exfalso; unfold MM_PAGE_SIZE in *; Z.div_mod_to_equations; lia.
Qed.

(** A store to an entry of a page that holds data. *)
Lemma store_data s D v b us i e :
  space_ok s D -> pg_enabled s = 1 -> data_frame (phys s) D b -> 0 <= v < 2 ^ 32 -> v mod 4096 = 0 ->
  walk (phys s) D v = Some (mk_xlat b true us) -> 0 <= i < 1024 ->
  exists t, let m' := store32 (phys s) (b + 4 * i) e in
    store_pte v i e s = Ok (tt, set_phys m' (set_tlb t s)) /\ space_ok (set_phys m' (set_tlb t s)) D.
Proof.
  intros Hs H1 Hb Hv Hva Hw Hi; destruct (translate_page s D true v (mk_xlat b true us) (4 * i)) as (t & E & Ht); try done; [lia|].
  exists t; split; [unfold store_pte, vstore32, mbind, mmM_bind; by rewrite E|].
  apply (space_data _ D b); [done|done| |apply store32_bytes, (tb_bytes _ _ _ (sp_tables _ _ Hs))].
  intros a Ha; apply store32_other; intros Hin; apply Ha; by apply (page_of_word b i); [apply Hb|..].
Qed.

(** ** Pages that are copied *)

(** Addresses up to the top of the user stack, and of the kernel stack of the current task. *)
Definition private_area (s : mm) (v : Z) : bool :=
  let sa := stack_allocator s (task_id s) in
  (v <=? MM_VIRTUAL_TOS_USER) || ((lowest_page sa <=? v) && (v <=? highest_page sa)).

(** Page [q] of the address space is copied. *)
Definition copied (s : mm) (D q : Z) : bool :=
  pte_p (pde (phys s) D (q / 1024)) && pte_p (pte (phys s) D (q * MM_PAGE_SIZE)) &&
  (q * MM_PAGE_SIZE <? MM_VIRTUAL_TOS) && private_area s (q * MM_PAGE_SIZE).

Lemma do_clone_area s v : do_clone s v = private_area s v.
Proof.
  unfold do_clone, private_area; rewrite negb_andb, negb_involutive; f_equal; by rewrite Z.ltb_antisym, negb_involutive.
Qed.

(** The page tables above the area of the kernel are [32] to [1022]. *)
Definition has_table (s : mm) (D i : Z) : bool := pte_p (pde (phys s) D i).

Definition tables_from (s : mm) (D i n : Z) : nat := length (filter (fun j => has_table s D j = true) (seqZ i n)).
Definition pages_from (s : mm) (D q n : Z) : nat := length (filter (fun j => copied s D j = true) (seqZ q n)).

(** An entry with the rights of [e] for the page at [b]. *)
Definition copy_entry (e b : Z) : Z := pte_create (b2z (pte_rw e)) (b2z (pte_us e)) (b2z (pte_pcd e)) b.

Lemma copy_entry_spec e b : b mod 4096 = 0 ->
  pte_p (copy_entry e b) = true /\ pte_rw (copy_entry e b) = pte_rw e /\ pte_us (copy_entry e b) = pte_us e /\
  pte_page_base (copy_entry e b) * MM_PAGE_SIZE = b.
Proof.
  intros Hb; unfold copy_entry; rewrite create_page_base.
  destruct (create_bits (b2z (pte_rw e)) (b2z (pte_us e)) (b2z (pte_pcd e)) b) as (-> & -> & ->).
  split_and!; [done|by destruct (pte_rw e)|by destruct (pte_us e)|unfold MM_PAGE_SIZE; Z.div_mod_to_equations; lia].
Qed.

Lemma seqZ_filter_1 (P : Z -> bool) i : length (filter (fun j => P j = true) (seqZ i 1)) = if P i then 1%nat else 0%nat.
Proof. rewrite seqZ_cons by lia; cbn [seqZ]; rewrite list.filter_cons; case_decide as H; [by rewrite H|by destruct (P i)]. Qed.

(** ** The invariant of the new address space *)

Section Copy.
Context (s0 : mm) (D C : Z).
Abbreviation m0 := (phys s0).
Abbreviation p0 := (pmem s0).

(** What has been copied: the page tables below [I], under the keys [-32], [-33] and so
    on, and the pages below [N], under their numbers. *)
Definition active (I N key : Z) : bool :=
  if key <? 0 then (32 <=? - key) && (- key <? I) && has_table s0 D (- key)
  else (32768 <=? key) && (key <? N) && copied s0 D key.

(** A page that was free at the start and is in use now. *)
Definition fresh (p : physmem) (b : Z) : Prop :=
  b mod 4096 = 0 /\ 0 < b < 2 ^ 32 /\ bit p0 (MM_PAGE b) = 0 /\ bit p (MM_PAGE b) = 1.

(** The physical page that holds page [q] of the old address space. *)
Definition source (q : Z) : Z := pte_page_base (pte m0 D (q * MM_PAGE_SIZE)) * MM_PAGE_SIZE.

(** The directory at [C] and its page tables; [f] tells which page holds a copy. *)
Record child (I N : Z) (f : Z -> Z) (p : physmem) (m : mem) : Prop := {
  ch_fresh : forall key, active I N key = true -> fresh p (f key);
  ch_inj : forall k k', active I N k = true -> active I N k' = true -> f k = f k' -> k = k';
  ch_shared : forall i, 0 <= i < 32 -> pde m C i = pde m0 C i;
  ch_dir : forall i, 32 <= i < 1023 -> pde m C i = if active I N (- i) then copy_entry (pde m0 D i) (f (- i)) else 0;
  ch_entry : forall q, 32768 <= q -> active I N (- (q / 1024)) = true ->
    load32 m (f (- (q / 1024)) + 4 * (q mod 1024)) =
      if active I N q then copy_entry (pte m0 D (q * MM_PAGE_SIZE)) (f q) else 0
}.

(** The contents of the copies. *)
Definition contents (N : Z) (f : Z -> Z) (m : mem) : Prop :=
  forall q x, active 0 N q = true -> 0 <= x < 4096 -> m (f q + x) = m0 (source q + x).

(** [P] are the pages that have changed. *)
Lemma page_word_ext (P : Z -> Prop) (m m' : mem) a k :
  (forall x, ~ P (MM_PAGE x) -> m' x = m x) -> ~ P (MM_PAGE a) -> a mod 4096 = 0 -> 0 <= k < 1024 ->
  load32 m' (a + 4 * k) = load32 m (a + 4 * k).
Proof. intros Hm Hne Ha Hk; apply load32_ext; intros x Hx; apply Hm; apply page_of_word in Hx; [congruence|done|done]. Qed.

Context (HC : C mod 4096 = 0) (HCu : bit p0 (MM_PAGE C) = 1).

Lemma child_ext (P : Z -> Prop) I N f p m m' :
  child I N f p m -> (forall x, ~ P (MM_PAGE x) -> m' x = m x) -> ~ P (MM_PAGE C) ->
  (forall i, 0 < i -> active I N (- i) = true -> ~ P (MM_PAGE (f (- i)))) -> child I N f p m'.
Proof using HC.
  intros [H1 H2 H0 H3 H4] Hm HbC Hb; split; [done|done| | |].
  - intros i Hi; rewrite <- H0 by done; apply (page_word_ext P); done || lia.
  - intros i Hi; rewrite <- H3 by done; apply (page_word_ext P); done || lia.
  - intros q Hq Ha; rewrite <- H4 by done; apply (page_word_ext P); [done| |by apply H1|].
    + apply Hb; [Z.div_mod_to_equations; lia|done].
    + apply Z.mod_pos_bound; lia.
Qed.

Lemma active_0 I N q : active 0 N q = true -> active I N q = true.
Proof. unfold active; case_test; [|done]; rewrite !andb_true_iff; lia. Qed.

Lemma active_page_inv N q : active 0 N q = true -> 32768 <= q < N /\ copied s0 D q = true.
Proof. unfold active; case_test; rewrite !andb_true_iff, ?Z.leb_le, ?Z.ltb_lt; [lia|by intros [[? ?] ?]]. Qed.

Lemma contents_ext (P : Z -> Prop) I N f p m m' :
  child I N f p m -> contents N f m -> (forall x, ~ P (MM_PAGE x) -> m' x = m x) ->
  (forall q, active 0 N q = true -> ~ P (MM_PAGE (f q))) -> contents N f m'.
Proof.
  intros Hc Hd Hm Hb q x Hq Hx; rewrite <- Hd by done; apply Hm.
  destruct (ch_fresh _ _ _ _ _ Hc q (active_0 I N q Hq)) as (Ha & _); rewrite (proj2 (page_offset (f q) x Ha Hx)); auto.
Qed.

Lemma child_bits I N f p p' m :
  (forall q, 0 <= q -> bit p q = 1 -> bit p' q = 1) -> child I N f p m -> child I N f p' m.
Proof.
  intros Hp [H1 H2 H3 H4]; split; try done; intros key Ha; destruct (H1 key Ha) as (A1 & A2 & A3 & A4).
  split_and!; try done; try lia; apply Hp; [apply page_nonneg; lia|done].
Qed.

(** The next page table, when it is empty. *)
Lemma child_table i f p m b :
  child i (1024 * i) f p m -> 32 <= i < 1023 -> has_table s0 D i = true -> fresh p b ->
  (forall key, active i (1024 * i) key = true -> f key <> b) -> (forall x, MM_PAGE x = MM_PAGE b -> m x = 0) ->
  child (i + 1) (1024 * i) (<[- i := b]> f) p (store32 m (C + 4 * i) (copy_entry (pde m0 D i) b)).
Proof using HC HCu.
  intros [H1 H2 H0 H3 H4] Hi Ht Hb Hne Hz.
  assert (Hact : forall key, active (i + 1) (1024 * i) key = bool_decide (key = - i) || active i (1024 * i) key).
  { intros key; unfold active; case_test; case_bool_decide; subst; try lia; tests; [by rewrite Z.opp_involutive| |done].
    f_equal; f_equal; apply eq_bool_prop_intro; rewrite !Is_true_true, !Z.ltb_lt; lia. }
  assert (Hin : active i (1024 * i) (- i) = false) by (unfold active; by tests).
  assert (Hbb : MM_PAGE C <> MM_PAGE b) by (intros E; destruct Hb as (_ & _ & Hb & _); congruence).
  split.
  - intros key; rewrite Hact; case_bool_decide; subst; [by rewrite fn_lookup_insert|].
    rewrite fn_lookup_insert_ne by done; apply H1.
  - intros k k'; rewrite !Hact; case_bool_decide; case_bool_decide; subst; rewrite ?fn_lookup_insert, ?fn_lookup_insert_ne by done; try done.
    + intros _ Ha E; by destruct (Hne k' Ha).
    + intros Ha _ E; by destruct (Hne k Ha).
    + cbn; auto.
  - intros j Hj; rewrite <- H0 by done; apply load_other_word; lia.
  - intros j Hj; rewrite Hact; case_bool_decide as Ej.
    + assert (j = i) as -> by lia; rewrite fn_lookup_insert; apply load32_store32_same, create_range; destruct Hb; lia.
    + rewrite fn_lookup_insert_ne by done; unfold pde; rewrite load_other_word by lia; by apply H3.
  - intros q Hq; rewrite !Hact; case_bool_decide as Ej.
    + rewrite Ej, fn_lookup_insert; intros _; rewrite bool_decide_false by lia.
      assert (Hn : active i (1024 * i) q = false).
      { unfold active; tests; rewrite (proj2 (Z.ltb_ge q _)) by (Z.div_mod_to_equations; lia); done. }
      cbn [orb]; rewrite Hn.
      pose proof (Z.mod_pos_bound q 1024 eq_refl) as Hr; destruct Hb as (Hba & _).
      rewrite load_other_page; [|done|done|by intros ->|lia|lia]; unfold load32; rewrite !Hz; try done; apply page_aligned; auto; lia.
    + rewrite !fn_lookup_insert_ne by lia; rewrite (bool_decide_false (q = - i)) by lia; cbn [orb]; intros Ha.
      destruct (H1 _ Ha) as (A1 & _ & A3 & _); pose proof (Z.mod_pos_bound q 1024 eq_refl).
      rewrite load_other_page; [by apply H4|done|done| |lia|done]; intros E; rewrite <- E in A3; congruence.
Qed.

Lemma active_next I q key : 32768 <= q ->
  active I (q + 1) key = (bool_decide (key = q) && copied s0 D q) || active I q key.
Proof.
  intros Hq; unfold active; case_test; case_bool_decide; subst; try lia; tests; try done.
  - by destruct (copied s0 D q).
  - f_equal; f_equal; apply eq_bool_prop_intro; rewrite !Is_true_true, !Z.ltb_lt; lia.
Qed.

Lemma active_self I q : 32768 <= q -> active I q q = false.
Proof. intros; unfold active; by tests. Qed.

(** The next entry of the page table that is being copied. *)
Lemma child_entry q f p m b :
  child (q / 1024 + 1) q f p m -> 32768 <= q < 1023 * 1024 -> copied s0 D q = true -> fresh p b ->
  (forall key, active (q / 1024 + 1) q key = true -> f key <> b) ->
  child (q / 1024 + 1) (q + 1) (<[q := b]> f) p
    (store32 m (f (- (q / 1024)) + 4 * (q mod 1024)) (copy_entry (pte m0 D (q * MM_PAGE_SIZE)) b)).
Proof using HC HCu.
  intros [H1 H2 H0 H3 H4] Hq Hc Hb Hne; set (i := q / 1024) in *.
  assert (Hi : 32 <= i < 1023) by (unfold i; Z.div_mod_to_equations; lia).
  assert (Hact : forall key, active (i + 1) (q + 1) key = bool_decide (key = q) || active (i + 1) q key).
  { intros key; rewrite active_next, Hc by lia; by rewrite andb_true_r. }
  assert (Hai : active (i + 1) q (- i) = true).
  { revert Hc; unfold copied, active, has_table; fold i; rewrite Z.opp_involutive; tests; by rewrite !andb_true_iff; intros [[[-> _] _] _]. }
  destruct (H1 _ Hai) as (F1 & F2 & F3 & _); pose proof (Z.mod_pos_bound q 1024 eq_refl) as Hr.
  assert (HCf : f (- i) <> C) by congruence.
  split.
  - intros key; rewrite Hact; case_bool_decide; subst; [by rewrite fn_lookup_insert|].
    rewrite fn_lookup_insert_ne by done; apply H1.
  - intros k k'; rewrite !Hact; case_bool_decide; case_bool_decide; subst; rewrite ?fn_lookup_insert, ?fn_lookup_insert_ne by done; try done.
    + intros _ Ha E; by destruct (Hne k' Ha).
    + intros Ha _ E; by destruct (Hne k Ha).
    + cbn; auto.
  - intros j Hj; rewrite <- H0 by done; apply load_other_page; done || lia.
  - intros j Hj; rewrite Hact, bool_decide_false, fn_lookup_insert_ne by lia; cbn [orb].
    rewrite <- H3 by done; apply load_other_page; done || lia.
  - intros r Hr'; rewrite !Hact, !(bool_decide_false (- (r / 1024) = q)) by (Z.div_mod_to_equations; lia); cbn [orb]; intros Ha.
    rewrite (fn_lookup_insert_ne f q (- (r / 1024))) by (Z.div_mod_to_equations; lia); case_bool_decide as Er.
    + subst r; rewrite fn_lookup_insert; apply load32_store32_same, create_range; destruct Hb; lia.
    + rewrite fn_lookup_insert_ne by done; cbn [orb]; rewrite <- H4 by done.
      pose proof (Z.mod_pos_bound r 1024 eq_refl); destruct (decide (r / 1024 = i)) as [Ei|Hne'].
      * rewrite Ei; apply load_other_word; intros E; apply Er; unfold i in *; Z.div_mod_to_equations; lia.
      * apply load_other_page; [done|by apply H1| |lia|lia]; intros E; apply H2 in E; [lia|done|done].
Qed.

Lemma child_skip I q f p m : child I q f p m -> 32768 <= q -> copied s0 D q = false -> child I (q + 1) f p m.
Proof.
  intros [H1 H2 H0 H3 H4] Hq Hc.
  assert (Hact : forall key, active I (q + 1) key = active I q key) by (intros; by rewrite active_next, Hc, andb_false_r by lia).
  split; repeat setoid_rewrite Hact; done.
Qed.

Lemma contents_next q f m b :
  contents q f m -> 32768 <= q ->
  (copied s0 D q = true -> forall x, 0 <= x < 4096 -> m (b + x) = m0 (source q + x)) -> contents (q + 1) (<[q := b]> f) m.
Proof.
  intros Hd Hq Hb r x; rewrite active_next by done; case_bool_decide as Er; [subst r|].
  - rewrite active_self, orb_false_r, fn_lookup_insert by done; cbn [andb]; auto.
  - rewrite fn_lookup_insert_ne by done; cbn [andb orb]; apply Hd.
Qed.

Lemma contents_skip q f m : contents q f m -> 32768 <= q -> copied s0 D q = false -> contents (q + 1) f m.
Proof. intros Hd Hq Hc r x; rewrite active_next, Hc, andb_false_r by done; apply Hd. Qed.

(** Without a page table there is nothing to copy. *)
Lemma child_no_table i f p m :
  child i (1024 * i) f p m -> contents (1024 * i) f m -> 32 <= i -> has_table s0 D i = false ->
  child (i + 1) (1024 * (i + 1)) f p m /\ contents (1024 * (i + 1)) f m.
Proof.
  intros [H1 H2 H0 H3 H4] Hd Hi Ht.
  assert (Hact : forall key, active (i + 1) (1024 * (i + 1)) key = active i (1024 * i) key).
  { intros key; unfold active; case_test.
    - destruct (decide (key = - i)) as [->|]; [rewrite Z.opp_involutive, Ht; by rewrite !andb_false_r|].
      f_equal; f_equal; apply eq_bool_prop_intro; rewrite !Is_true_true, !Z.ltb_lt; lia.
    - destruct (decide (key / 1024 = i)) as [E|].
      + unfold copied; rewrite E; fold (has_table s0 D i); rewrite Ht; by rewrite !andb_false_r.
      + f_equal; f_equal; apply eq_bool_prop_intro; rewrite !Is_true_true, !Z.ltb_lt; Z.div_mod_to_equations; lia. }
  split; [split; repeat setoid_rewrite Hact; done|].
  intros q x Hq; apply Hd; revert Hq; unfold active; case_test; [rewrite !andb_true_iff; lia|].
  specialize (Hact q); revert Hact; unfold active; tests; by intros ->.
Qed.

(** The last entry of the new directory. *)
Lemma child_self I N f p m e : child I N f p m -> child I N f p (store32 m (C + 4 * 1023) e).
Proof using HC HCu.
  intros [H1 H2 H0 H3 H4]; split; [done|done| | |].
  - intros i Hi; rewrite <- H0 by done; apply load_other_word; lia.
  - intros i Hi; rewrite <- H3 by done; apply load_other_word; lia.
  - intros q Hq Ha; rewrite <- H4 by done; destruct (H1 _ Ha) as (A1 & _ & A3 & _).
    apply load_other_page; [done|done|intros E; rewrite <- E in A3; congruence|lia|apply Z.mod_pos_bound; lia].
Qed.
End Copy.
