(* ===== verification/MmForkProofs.v ===== *)
(** * The copy of an address space for [fork]: the loops

    The steps of the copy keep the old address space ([kept]) and extend the new one
    ([child] and [contents] of [MmFork]). *)

From S2P Require Import Prelude Errors Memory MmDefs Lists PhysMem PhysMemProofs Paging PagingProofs PagingMap Mm MmStack MmUser MmFork.
Import Lists.

Section Clone.
Context (proc_ptd : Z) (s0 : mm) (D C : Z).
Abbreviation m0 := (phys s0).
Abbreviation p0 := (pmem s0).
Abbreviation T := (table (phys s0) D 1022).

(** Nothing that was in use has changed but the new directory at [C] and the page table
    of the reserved slots, of which those in [A] are in use. *)
Record kept (A : list Z) (p : physmem) (m : mem) : Prop := {
  kp_pde : forall j, 0 <= j < 1024 -> pde m D j = pde m0 D j;
  kp_bits : forall q, 0 <= q -> bit p0 q = 1 -> bit p q = 1;
  kp_mem : forall x, 0 <= x -> bit p0 (MM_PAGE x) = 1 -> MM_PAGE x <> MM_PAGE C -> MM_PAGE x <> MM_PAGE T -> m x = m0 x;
  kp_used : forall k, k ∈ A -> 1016 <= k < 1024 /\ pte_p (slot m D k) = true;
  kp_low : forall k, 0 <= k < 1016 -> slot m D k = slot m0 D k;
  kp_walk : forall v, 0 <= v < 2 ^ 32 -> (forall k, k ∈ A -> MM_PAGE v <> MM_PAGE (slot_page k)) -> walk m D v = walk m0 D v
}.

Context (Hs0 : space_ok s0 D) (Hon : pg_enabled s0 = 1) (Hsp : sp_lock (pid s0) ∉ locks s0).
Context (HC : data_frame (phys s0) D C) (HCu : bit (pmem s0) (MM_PAGE C) = 1).

Lemma resv : pte_p (pde m0 D 1022) = true.
Proof using Hs0 Hon. by apply pg_resv, paged_mode. Qed.

Lemma T_facts : T mod 4096 = 0 /\ 0 < T /\ bit p0 (MM_PAGE T) = 1 /\ MM_PAGE T <> MM_PAGE C.
Proof using Hs0 Hon HC.
  pose proof (sp_tables _ _ Hs0) as Hok; destruct (tb_table _ _ _ Hok 1022 ltac:(lia) resv) as (H1 & _ & H2).
  pose proof (table_range m0 D 1022 (tb_bytes _ _ _ Hok)) as [_ Ha]; split_and!; [done|done|done|].
  destruct HC as (C1 & _ & C3); specialize (C3 1022 ltac:(lia) resv).
  unfold MM_PAGE, MM_PAGE_SIZE in *; Z.div_mod_to_equations; lia.
Qed.

Lemma kept_table A p m j : kept A p m -> 0 <= j < 1024 -> table m D j = table m0 D j.
Proof. intros Hk Hj; unfold table; by rewrite (kp_pde _ _ _ Hk). Qed.

Lemma kept_frame A p m b : kept A p m -> data_frame m0 D b -> data_frame m D b.
Proof. intros Hk; apply data_frame_ext, (kp_pde _ _ _ Hk). Qed.

Lemma walk_slot m k : pde m D 1022 = pde m0 D 1022 -> 1016 <= k < 1024 ->
  walk m D (slot_page k) = None <-> pte_p (slot m D k) = false.
Proof using Hs0 Hon.
  intros Ed Hk; destruct (slot_offsets k Hk) as (O1 & O2 & _); unfold walk, pte; rewrite O1, O2.
  fold (table m D 1022) (slot m D k); rewrite Ed, resv; by destruct (pte_p (slot m D k)).
Qed.

Lemma slot_page_inj k k' : MM_PAGE (slot_page k) = MM_PAGE (slot_page k') -> k = k'.
Proof. unfold slot_page, MM_PAGE, MM_PAGE_SIZE, first_reserved_page; intros; Z.div_mod_to_equations; lia. Qed.

Lemma slot_free A p m k : kept A p m -> 1016 <= k < 1024 -> k ∉ A -> pte_p (slot m D k) = pte_p (slot m0 D k).
Proof using Hs0 Hon.
  intros Hk Hr Hn; assert (E : walk m D (slot_page k) = walk m0 D (slot_page k)).
  { destruct (slot_offsets k Hr) as (_ & _ & ? & _); apply (kp_walk _ _ _ Hk); [lia|].
    intros j Hj ->%slot_page_inj; done. }
  pose proof (walk_slot m k (kp_pde _ _ _ Hk 1022 ltac:(lia)) Hr) as H1; pose proof (walk_slot m0 k eq_refl Hr) as H2.
  rewrite E in H1; destruct (pte_p (slot m D k)), (pte_p (slot m0 D k)); naive_solver.
Qed.

(** A store to the entry of a slot; [A'] are the slots in use afterwards. *)
Lemma slot_store A A' p m t k e :
  space_ok (upd p m t s0) D -> kept A p m -> 1016 <= k < 1024 -> 0 <= e < 2 ^ 32 ->
  (forall j, j ∈ A' <-> (j = k /\ pte_p e = true) \/ (j <> k /\ j ∈ A)) -> (pte_p e = false -> pte_p (slot m0 D k) = false) ->
  let m' := store32 m (table m D 1022 + 4 * k) e in
  (forall x, MM_PAGE x <> MM_PAGE T -> m' x = m x) /\
  (forall v, 0 <= v < 2 ^ 32 -> MM_PAGE v <> MM_PAGE (slot_page k) -> walk m' D v = walk m D v) /\
  kept A' p m'.
Proof using Hs0 Hon HC.
  intros Hs Hk Hr He HA Hf m'; pose proof (sp_tables _ _ Hs) as Hok; destruct T_facts as (T1 & T2 & T3 & T4).
  assert (Hres : pte_p (pde m D 1022) = true) by (rewrite (kp_pde _ _ _ Hk) by lia; apply resv).
  assert (ET := kept_table A p m 1022 Hk ltac:(lia)).
  assert (Hd := fun j => pt_pde m p D 1022 k e Hok ltac:(lia) Hres ltac:(lia) j); fold m' in Hd.
  assert (Hw := fun v => pt_walk m p D 1022 k e Hok ltac:(lia) Hres ltac:(lia) He v); fold m' in Hw.
  assert (Hx : forall x, MM_PAGE x <> MM_PAGE T -> m' x = m x).
  { intros x Hx; apply store32_other; intros Hin; rewrite ET in Hin; apply page_of_word in Hin; [done|done|lia]. }
  assert (Hv : forall v, 0 <= v < 2 ^ 32 -> MM_PAGE v <> MM_PAGE (slot_page k) -> walk m' D v = walk m D v).
  { intros v Hv Hne; rewrite Hw by done; destruct (slot_offsets k Hr) as (O1 & O2 & _).
    destruct (Z.eqb_spec (PTD_OFFSET v) 1022); [|done]; destruct (Z.eqb_spec (PT_OFFSET v) k); [|done].
    destruct Hne; apply offsets_page; split; congruence. }
  assert (Hsl : forall j, 0 <= j < 1024 -> slot m' D j = if j =? k then e else slot m D j).
  { intros j Hj; unfold slot, m'; rewrite (pt_entry m p) by (done || lia); by rewrite Z.eqb_refl. }
  split_and!; [done|done|]; destruct Hk as [K1 K2 K3 K4 K5 K6]; split.
  - intros j Hj; by rewrite Hd, K1.
  - done.
  - intros x X1 X2 X3 X4; rewrite Hx by done; auto.
  - intros j [[-> Hp]|[Hne [Hj Hp]%K4]]%HA; rewrite Hsl by lia; [by rewrite Z.eqb_refl|by test_false].
  - intros j Hj; rewrite Hsl by lia; test_false; auto.
  - intros v V1 V2; destruct (decide (MM_PAGE v = MM_PAGE (slot_page k))) as [E|Hne].
    + rewrite !(walk_page _ _ _ _ E); destruct (pte_p e) eqn:Ep; [by destruct (V2 k); [apply HA; left|]|].
      rewrite (proj2 (walk_slot m0 k eq_refl Hr)) by auto; apply walk_slot; [rewrite Hd, K1 by lia; done|done|].
      rewrite Hsl, Z.eqb_refl by lia; done.
    + rewrite Hv by done; apply K6; [done|]; intros j Hj Ev; destruct (decide (j = k)) as [->|]; [done|].
      apply (V2 j); [apply HA; right|]; done.
Qed.

(** A change to a page that belongs to the new address space. *)
Lemma kept_data A p m t m' b :
  space_ok (upd p m t s0) D -> kept A p m -> data_frame m D b -> MM_PAGE b = MM_PAGE C \/ bit p0 (MM_PAGE b) = 0 ->
  (forall x, MM_PAGE x <> MM_PAGE b -> m' x = m x) ->
  kept A p m' /\ forall v, 0 <= v < 2 ^ 32 -> walk m' D v = walk m D v.
Proof using Hs0 Hon HC.
  intros Hs [K1 K2 K3 K4 K5 K6] Hb Ho Hm; pose proof (sp_tables _ _ Hs) as Hok; destruct T_facts as (T1 & T2 & T3 & T4).
  assert (Hd := fun j => data_pde m m' D b p Hok Hb Hm j); assert (Hw := fun v => data_walk m m' D b p Hok Hb Hm v).
  assert (Hsl : forall k, 0 <= k < 1024 -> slot m' D k = slot m D k).
  { intros k Hk; unfold slot; unfold table at 1; rewrite Hd by lia; fold (table m D 1022).
    assert (ET : table m D 1022 = T) by (unfold table; by rewrite K1 by lia); rewrite ET.
    apply (page_word_ext (eq (MM_PAGE b))); [auto| |done|lia]; intros E; rewrite <- E in *; destruct Ho; congruence. }
  split; [|done]; split.
  - intros j Hj; by rewrite Hd, K1.
  - done.
  - intros x X1 X2 X3 X4; rewrite Hm; [auto|intros E; rewrite E in *; destruct Ho; congruence].
  - intros k [Hk Hp]%K4; by rewrite Hsl by lia.
  - intros k Hk; rewrite Hsl by lia; auto.
  - intros v V1 V2; rewrite Hw by done; auto.
Qed.

Lemma attach_step A p m t b :
  space_ok (upd p m t s0) D -> kept A p m -> (exists k, 1016 <= k < 1024 /\ (k ∉ A) /\ pte_p (slot m0 D k) = false) ->
  b mod 4096 = 0 -> 0 <= b < 2 ^ 32 ->
  exists k us t' m', mm_attach_page proc_ptd b (upd p m t s0) = Ok (slot_page k, upd p m' t' s0) /\ 1016 <= k < 1024 /\
    (k ∉ A) /\ pte_p (slot m0 D k) = false /\ space_ok (upd p m' t' s0) D /\ kept (k :: A) p m' /\
    walk m' D (slot_page k) = Some (mk_xlat b true us) /\ (forall x, MM_PAGE x <> MM_PAGE T -> m' x = m x) /\
    (forall v, 0 <= v < 2 ^ 32 -> MM_PAGE v <> MM_PAGE (slot_page k) -> walk m' D v = walk m D v).
Proof using Hs0 Hon Hsp HC.
  intros Hs Hk (kf & F1 & F2 & F3) Hba Hb.
  destruct (attach_ok proc_ptd (upd p m t s0) D b Hs Hon Hsp Hb) as (r & t' & m' & E & Hs' & [(_ & _ & Hfull)|(k & Hr & -> & Hf & Em)]).
  { specialize (Hfull kf F1); cbn in Hfull; rewrite (slot_free A p m) in Hfull by done; congruence. }
  assert (Hres : pte_p (pde m D 1022) = true) by (rewrite (kp_pde _ _ _ Hk) by lia; apply resv).
  cbn [phys upd set_pmem set_phys] in Hf, Em; assert (He := create_range MM_READ_WRITE MM_SUPERVISOR_PAGE 0 b Hb).
  destruct (create_bits MM_READ_WRITE MM_SUPERVISOR_PAGE 0 b) as (C1 & C2 & _).
  assert (Hn : k ∉ A) by (intros [_ ?]%(kp_used _ _ _ Hk); congruence).
  destruct (slot_store A (k :: A) p m t k _ Hs Hk Hr He) as (S1 & S2 & S3); [| |rewrite <- Em in *].
  { intros j; rewrite elem_of_cons, C1; destruct (decide (j = k)) as [->|]; naive_solver. }
  { by rewrite C1. }
  destruct (slot_offsets k Hr) as (O1 & O2 & O3 & _).
  exists k; eexists; exists t', m'; split_and!; try done; try lia.
  - by rewrite <- (slot_free A p m).
  - rewrite Em, (pt_walk m p) by (done || lia || apply (sp_tables _ _ Hs)); rewrite O1, O2, !Z.eqb_refl, C1, C2, create_page_base.
    pose proof (pg_rw _ _ (paged_mode _ _ Hs Hon) 1022 ltac:(lia) Hres) as Hrw; cbn [phys upd set_pmem set_phys] in Hrw; rewrite Hrw.
    cbn [andb]; do 2 f_equal; unfold MM_PAGE_SIZE; Z.div_mod_to_equations; lia.
Qed.

Lemma detach_step A p m t k :
  space_ok (upd p m t s0) D -> kept (k :: A) p m -> k ∉ A -> pte_p (slot m0 D k) = false ->
  exists t' m', mm_detach_page proc_ptd (slot_page k) (upd p m t s0) = Ok (tt, upd p m' t' s0) /\
    space_ok (upd p m' t' s0) D /\ kept A p m' /\ (forall x, MM_PAGE x <> MM_PAGE T -> m' x = m x) /\
    (forall v, 0 <= v < 2 ^ 32 -> MM_PAGE v <> MM_PAGE (slot_page k) -> walk m' D v = walk m D v).
Proof using Hs0 Hon HC.
  intros Hs Hk Hn Hf; destruct (kp_used _ _ _ Hk k ltac:(by left)) as [Hr _].
  destruct (detach_ok proc_ptd (upd p m t s0) D k Hs Hon Hr) as (t' & E & Hs'); cbn [phys upd set_pmem set_phys] in *.
  assert (He : 0 <= pte_clear_p (slot m D k) < 2 ^ 32) by (apply clear_range, load32_range, (tb_bytes _ _ _ (sp_tables _ _ Hs))).
  pose proof (clear_not_present (slot m D k)) as Hc.
  destruct (slot_store (k :: A) A p m t k _ Hs Hk Hr He) as (S1 & S2 & S3).
  { intros j; rewrite elem_of_cons, Hc; destruct (decide (j = k)) as [->|]; naive_solver. }
  { done. }
  exists t'; eexists; split_and!; [exact E|exact Hs'|exact S3|exact S1|exact S2].
Qed.

(** [mm_copy_page] *)
Lemma copy_page_step A p m t v x b :
  space_ok (upd p m t s0) D -> kept A p m -> (exists k, 1016 <= k < 1024 /\ (k ∉ A) /\ pte_p (slot m0 D k) = false) ->
  data_frame m0 D b -> bit p0 (MM_PAGE b) = 0 -> 0 <= b < 2 ^ 32 ->
  0 <= v <= MM_VIRTUAL_TOS -> v mod 4096 = 0 -> walk m D v = Some x -> x_frame x <> b -> x_frame x <> T ->
  exists t' m', mm_copy_page proc_ptd v b (upd p m t s0) = Ok (0, upd p m' t' s0) /\ space_ok (upd p m' t' s0) D /\ kept A p m' /\
    (forall a, 0 <= a < 4096 -> m' (b + a) = m (x_frame x + a)) /\
    (forall a, MM_PAGE a <> MM_PAGE b -> MM_PAGE a <> MM_PAGE T -> m' a = m a) /\
    (forall w, 0 <= w < 2 ^ 32 -> (forall k, 1016 <= k < 1024 -> k ∉ A -> MM_PAGE w <> MM_PAGE (slot_page k)) -> walk m' D w = walk m D w).
Proof using Hs0 Hon Hsp HC HCu.
  intros Hs Hk Hfr Hb Hbu Hbr Hv Hva Hw Hxb HxT; unfold mm_copy_page.
  assert (Hv' : 0 <= v < 2 ^ 32) by (change MM_VIRTUAL_TOS with 4290740223 in Hv; lia).
  destruct (attach_step A p m t b) as (k & us & t1 & m1 & E1 & Hr & Hn & Hf & Hs1 & Hk1 & Hw1 & Hx1 & Hv1); try done; [apply Hb|].
  rewrite (mm_bind_ok _ _ _ _ _ E1); destruct (slot_offsets k Hr) as (O1 & O2 & O3 & O4 & O5); tests.
  destruct (frame_range _ _ _ _ (tb_bytes _ _ _ (sp_tables _ _ Hs)) Hw) as [_ Hxa].
  assert (Hwv : walk m1 D v = Some x).
  { rewrite Hv1; [done|done|].
    intros E; apply (page_aligned (slot_page k) v O4) in E; lia. }
  assert (Hb1 : data_frame m1 D b) by by eapply kept_frame.
  destruct (vmemcpy_ok (Z.to_nat MM_PAGE_SIZE) (upd p m1 t1 s0) D (slot_page k) b us v x 0) as (t2 & m2 & E2 & Hs2 & Hm2);
    try done; try lia.
  rewrite !Z.add_0_r, !u32_small in E2 by lia.
  rewrite (mm_bind_ok _ _ _ _ _ E2); change (Z.of_nat (Z.to_nat MM_PAGE_SIZE)) with 4096 in Hm2.
  cbn [phys upd set_pmem set_phys] in Hm2; rewrite Z.add_0_r in Hm2; destruct T_facts as (T1 & T2 & T3 & T4).
  assert (Hother : forall a, MM_PAGE a <> MM_PAGE b -> m2 a = m1 a).
  { intros a Ha; rewrite Hm2; rewrite (page_aligned b a) in Ha by apply Hb; repeat (case_test; cbn); done || lia. }
  destruct (kept_data (k :: A) p m1 t1 m2 b) as [Hk2 Hv2]; try done; [by right|].
  destruct (detach_step A p m2 t2 k) as (t3 & m3 & E3 & Hs3 & Hk3 & Hx3 & Hv3); try done.
  change (set_phys m2 (set_tlb t2 (upd p m1 t1 s0))) with (upd p m2 t2 s0); rewrite (mm_bind_ok _ _ _ _ _ E3).
  exists t3, m3; split_and!; try done.
  - intros a Ha; rewrite Hx3; [rewrite Hm2|].
    + replace (b + a - b) with a by lia; tests; apply Hx1.
      rewrite (proj2 (page_offset _ a Hxa Ha)); intros E; apply HxT.
      unfold MM_PAGE, MM_PAGE_SIZE in E; Z.div_mod_to_equations; lia.
    + rewrite (proj2 (page_offset b a (proj1 Hb) Ha)); congruence.
  - intros a A1 A2; by rewrite Hx3, Hother, Hx1.
  - intros w W1 W2; rewrite Hv3, Hv2, Hv1; auto.
Qed.

(** ** The loops *)

Context (Hslots : exists k1 k2, 1016 <= k1 < 1024 /\ 1016 <= k2 < 1024 /\ k1 <> k2 /\
  pte_p (slot (phys s0) D k1) = false /\ pte_p (slot (phys s0) D k2) = false).
Context (Hframes : forall q, 32768 <= q < 1023 * 1024 -> copied s0 D q = true ->
  bit (pmem s0) (MM_PAGE (source s0 D q)) = 1 /\ source s0 D q <> C /\ source s0 D q <> table (phys s0) D 1022).

Record copying (A : list Z) (I N : Z) (f : Z -> Z) (p : physmem) (m : mem) (t : Z -> option xlat) : Prop := {
  co_space : space_ok (upd p m t s0) D;
  co_kept : kept A p m;
  co_child : child s0 D C I N f p m;
  co_contents : contents s0 D N f m
}.

Lemma fresh_page p b a : fresh s0 p b -> bit p0 (MM_PAGE a) = 1 -> MM_PAGE a <> MM_PAGE b.
Proof. intros (_ & _ & H & _) Ha E; congruence. Qed.

(** Changes to the page table of the slots do not touch the new address space. *)
Lemma child_slot I N f p m m' :
  child s0 D C I N f p m -> contents s0 D N f m -> (forall x, MM_PAGE x <> MM_PAGE T -> m' x = m x) ->
  child s0 D C I N f p m' /\ contents s0 D N f m'.
Proof using Hs0 Hon HC HCu.
  intros Hc Hd Hm; destruct T_facts as (_ & _ & T3 & T4).
  assert (Hf : forall key, active s0 D I N key = true -> MM_PAGE (f key) <> MM_PAGE T).
  { intros key Ha E; symmetry in E; revert E; eapply fresh_page; [by eapply ch_fresh|done]. }
  split.
  - apply (child_ext s0 D C (proj1 HC) (fun a => a = MM_PAGE T) I N f p m); auto.
  - apply (contents_ext s0 D C (fun a => a = MM_PAGE T) I N f p m); [done|done|done|]; intros q Hq; by apply Hf, active_0.
Qed.

Lemma get_step A I N f p m t :
  copying A I N f p m t -> (0 < free_pages p)%nat ->
  exists b p', get_phys_page (upd p m t s0) = Ok (b, upd p' m t s0) /\ copying A I N f p' m t /\ fresh s0 p' b /\ free_pages p = S (free_pages p') /\
    (forall key, active s0 D I N key = true -> f key <> b) /\ data_frame m0 D b.
Proof using Hs0.
  intros [Hs Hk Hc Hd] Hr; destruct (get_page_step _ _ Hs) as (r & p' & E & Hs' & [(_ & Hno & _)|(b & Hb & Hf & -> & Ht)]).
  { destruct (free_pages_some p Hr) as [q Hq]; by destruct (Hno q). }
  cbn [pmem upd set_pmem] in *; destruct Hf as [Hbr Hb0]; exists (b * MM_PAGE_SIZE), p'.
  assert (Hbits : forall q, 0 <= q -> bit p q = 1 -> bit p' q = 1).
  { intros q Hq Hu; rewrite (taken_bit p b) by (done || lia); by case_test. }
  assert (Hb00 : bit p0 b = 0).
  { destruct (bit_cases (phys_mem p0) b ltac:(lia)) as [|E1]; [done|]; apply (kp_bits _ _ _ Hk) in E1; [congruence|lia]. }
  assert (Hsz := free_range b ltac:(lia)).
  split_and!.
  - exact E.
  - split; [exact Hs'| |by eapply child_bits|done]; destruct Hk as [K1 K2 K3 K4 K5 K6]; split; auto.
  - split_and!; [apply Z.mod_mul; done|lia|lia|by rewrite page_of_base|].
    rewrite page_of_base, (taken_bit p b) by (done || lia); by rewrite Z.eqb_refl.
  - by apply (free_pages_take p p' b).
  - intros key Ha E1; destruct (ch_fresh _ _ _ _ _ _ _ _ Hc key Ha) as (_ & _ & _ & Hu); rewrite E1, page_of_base in Hu; congruence.
  - by apply fresh_frame.
Qed.

(** Without a free page, nothing changes. *)
Lemma get_none A I N f p m t :
  copying A I N f p m t -> free_pages p = 0%nat ->
  exists p', get_phys_page (upd p m t s0) = Ok (0, upd p' m t s0) /\ copying A I N f p' m t.
Proof.
  intros [Hs Hk Hc Hd] Hz; destruct (get_page_step _ _ Hs) as (r & p' & E & Hs' & [(-> & _ & Hsame)|(b & _ & Hf & _)]).
  2: { by destruct (free_pages_none p Hz b). }
  cbn [pmem upd set_pmem] in *; exists p'; split; [exact E|].
  split; [exact Hs'| |by eapply child_bits; [|done]; intros q Hq; rewrite Hsame|done].
  destruct Hk as [K1 K2 K3 K4 K5 K6]; split; auto; intros q Hq Hu; rewrite Hsame by done; auto.
Qed.

Lemma page_offsets q : 0 <= q < 2 ^ 20 -> PTD_OFFSET (q * MM_PAGE_SIZE) = q / 1024 /\ PT_OFFSET (q * MM_PAGE_SIZE) = q mod 1024.
Proof. rewrite ptd_offset, pt_offset; unfold MM_PAGE_SIZE; intros; Z.div_mod_to_equations; lia. Qed.

(** The entries of the old page tables, but for those of the slots. *)
Lemma source_entry A p m q :
  kept A p m -> 32768 <= q < 1023 * 1024 -> has_table s0 D (q / 1024) = true -> q * MM_PAGE_SIZE < MM_VIRTUAL_TOS ->
  load32 m (table m D (q / 1024) + 4 * (q mod 1024)) = pte m0 D (q * MM_PAGE_SIZE).
Proof using Hs0 Hon HC HCu.
  intros Hk Hq Ht Hlt; destruct (page_offsets q) as [E1 E2]; [lia|]; unfold pte; rewrite E1, E2.
  fold (table m0 D (q / 1024)); pose proof (sp_tables _ _ Hs0) as Hok; pose proof (Z.mod_pos_bound q 1024 eq_refl) as Hr.
  assert (Hi : 32 <= q / 1024 < 1023) by (Z.div_mod_to_equations; lia).
  destruct (decide (q / 1024 = 1022)) as [Ei|Hne].
  - rewrite Ei; apply (kp_low _ _ _ Hk (q mod 1024)); change MM_VIRTUAL_TOS with 4290740223 in Hlt; unfold MM_PAGE_SIZE in Hlt.
    Z.div_mod_to_equations; lia.
  - rewrite (kept_table A p m) by (done || lia); destruct (tb_table _ _ _ Hok (q / 1024) ltac:(lia) Ht) as (B1 & B2 & B4).
    pose proof (table_range m0 D (q / 1024) (tb_bytes _ _ _ Hok)) as [_ Ha].
    apply load32_ext; intros x Hx; assert (Hp : MM_PAGE x = MM_PAGE (table m0 D (q / 1024))) by (eapply page_of_word; done).
    apply (kp_mem _ _ _ Hk); rewrite ?Hp; [lia|done| |].
    + destruct HC as (C1 & _ & C3); specialize (C3 (q / 1024) ltac:(lia) Ht); intros E.
      apply C3; unfold MM_PAGE, MM_PAGE_SIZE in E; Z.div_mod_to_equations; lia.
    + intros E; apply Hne, (tb_inj _ _ _ Hok); [lia|lia|done|apply resv|]; destruct T_facts as (T1 & _).
      unfold MM_PAGE, MM_PAGE_SIZE in E; Z.div_mod_to_equations; lia.
Qed.

Lemma fresh_data p b : fresh s0 p b -> data_frame m0 D b.
Proof using Hs0.
  intros (B1 & B2 & B3 & _); pose proof (sp_tables _ _ Hs0) as Hok; split_and!; [done| |].
  - intros ->; rewrite (tb_used _ _ _ Hok) in B3; done.
  - intros i Hi Hp <-; destruct (tb_table _ _ _ Hok i Hi Hp) as (_ & _ & Hu); congruence.
Qed.

(** The walk of a page that is copied. *)
Lemma copied_walk q : 0 <= q < 2 ^ 20 -> copied s0 D q = true ->
  exists rw us, walk m0 D (q * MM_PAGE_SIZE) = Some (mk_xlat (source s0 D q) rw us).
Proof.
  intros Hq; unfold copied, walk; rewrite (proj1 (page_offsets q Hq)), !andb_true_iff; intros [[[-> ->] _] _].
  eexists _, _; reflexivity.
Qed.

Lemma page_eq a b : a mod 4096 = 0 -> b mod 4096 = 0 -> MM_PAGE a = MM_PAGE b -> a = b.
Proof. unfold MM_PAGE, MM_PAGE_SIZE; intros; Z.div_mod_to_equations; lia. Qed.

Lemma free_slot k : exists j, 1016 <= j < 1024 /\ (j ∉ [k]) /\ pte_p (slot m0 D j) = false.
Proof using Hslots.
  destruct Hslots as (k1 & k2 & H1 & H2 & Hne & F1 & F2); destruct (decide (k = k1)) as [->|].
  - exists k2; split; [done|]; split; [|done]; intros ->%list_elem_of_singleton; done.
  - exists k1; split; [done|]; split; [|done]; intros ->%list_elem_of_singleton; done.
Qed.

(** The new entry is written, through the slot that shows the new page table. *)
Lemma entry_store k q f p m t us b :
  copying [k] (q / 1024 + 1) q f p m t -> 32768 <= q < 1023 * 1024 -> copied s0 D q = true -> 1016 <= k < 1024 ->
  walk m D (slot_page k) = Some (mk_xlat (f (- (q / 1024))) true us) ->
  fresh s0 p b -> (forall key, active s0 D (q / 1024 + 1) q key = true -> f key <> b) ->
  exists t1 m1,
    store_pte (slot_page k) (q mod 1024) (copy_entry (pte m0 D (q * MM_PAGE_SIZE)) b) (upd p m t s0) = Ok (tt, upd p m1 t1 s0) /\
    space_ok (upd p m1 t1 s0) D /\ kept [k] p m1 /\ child s0 D C (q / 1024 + 1) (q + 1) (<[q := b]> f) p m1 /\
    contents s0 D q f m1 /\ (forall v, 0 <= v < 2 ^ 32 -> walk m1 D v = walk m D v).
Proof using Hs0 Hon HC HCu.
  intros [Hs Hk Hc Hd] Hq Hcp Hr Hw Hb Hne; set (i := q / 1024) in *; destruct (slot_offsets k Hr) as (O1 & O2 & O3 & O4 & O5).
  assert (Hi : active s0 D (i + 1) q (- i) = true).
  { revert Hcp; unfold copied, active, has_table; fold i; rewrite Z.opp_involutive.
    assert (32 <= i) by (unfold i; Z.div_mod_to_equations; lia); tests; by rewrite !andb_true_iff; intros [[[-> _] _] _]. }
  pose proof (ch_fresh _ _ _ _ _ _ _ _ Hc _ Hi) as Hfi; pose proof (fresh_data _ _ Hfi) as Hdi.
  destruct (store_data (upd p m t s0) D (slot_page k) (f (- i)) us (q mod 1024) (copy_entry (pte m0 D (q * MM_PAGE_SIZE)) b))
    as (t1 & E1 & Hs1); try done; try lia; [by eapply kept_frame|apply Z.mod_pos_bound; lia|].
  cbn [phys upd set_pmem set_phys] in E1, Hs1; set (m1 := store32 m _ _) in *.
  assert (Hm1 : forall x, MM_PAGE x <> MM_PAGE (f (- i)) -> m1 x = m x).
  { intros x Hx; apply store32_other; intros Hin; apply page_of_word in Hin; [done|apply Hfi|apply Z.mod_pos_bound; lia]. }
  destruct (kept_data [k] p m t m1 (f (- i))) as [Hk1 Hv1]; try done; [by eapply kept_frame|right; apply Hfi|].
  exists t1, m1; split_and!; try done; [by apply child_entry; [apply HC|..]|].
  apply (contents_ext s0 D C (fun a => a = MM_PAGE (f (- i))) (i + 1) q f p m); [done|done|done|].
  intros r Ha E; pose proof (active_page_inv _ _ _ _ Ha) as [Hpos _]; apply (active_0 s0 D (i + 1)) in Ha.
  apply page_eq in E; [|by eapply ch_fresh|by apply Hfi].
  apply (ch_inj _ _ _ _ _ _ _ _ Hc) in E; [|done|done]; unfold i in E; Z.div_mod_to_equations; lia.
Qed.

(** The page is copied. *)
Lemma entry_copy k q f p m t b :
  space_ok (upd p m t s0) D -> kept [k] p m -> child s0 D C (q / 1024 + 1) (q + 1) (<[q := b]> f) p m -> contents s0 D q f m ->
  32768 <= q < 1023 * 1024 -> copied s0 D q = true -> 1016 <= k < 1024 -> fresh s0 p b ->
  exists t' m', mm_copy_page proc_ptd (q * MM_PAGE_SIZE) b (upd p m t s0) = Ok (0, upd p m' t' s0) /\
    copying [k] (q / 1024 + 1) (q + 1) (<[q := b]> f) p m' t' /\ walk m' D (slot_page k) = walk m D (slot_page k).
Proof using Hs0 Hon Hsp HC HCu Hslots Hframes.
  intros Hs Hk Hc Hd Hq Hcp Hr Hb; destruct (Hframes q Hq Hcp) as (S1 & S2 & S3).
  destruct (copied_walk q ltac:(lia) Hcp) as (rw & us & Hws); destruct T_facts as (T1 & T2 & T3 & T4).
  assert (Htos : q * MM_PAGE_SIZE < MM_VIRTUAL_TOS) by (revert Hcp; unfold copied; rewrite !andb_true_iff; lia).
  assert (Hq32 : 0 <= q * MM_PAGE_SIZE < 2 ^ 32) by (unfold MM_PAGE_SIZE; lia).
  assert (Hqa : (q * MM_PAGE_SIZE) mod 4096 = 0) by (by apply Z.mod_mul).
  assert (Hw : walk m D (q * MM_PAGE_SIZE) = Some (mk_xlat (source s0 D q) rw us)).
  { rewrite (kp_walk _ _ _ Hk); [done|done|]; intros j ->%list_elem_of_singleton E; destruct (slot_offsets k Hr) as (_ & _ & _ & O4 & O5).
    apply (page_aligned _ _ O4) in E; lia. }
  destruct (frame_range _ _ _ _ (tb_bytes _ _ _ (sp_tables _ _ Hs0)) Hws) as [Hsr Hsa]; cbn [x_frame] in *.
  destruct (copy_page_step [k] p m t (q * MM_PAGE_SIZE) (mk_xlat (source s0 D q) rw us) b Hs Hk (free_slot k) (fresh_data _ _ Hb)) as (t' & m' & E & Hs' & Hk' & Hx & Ho & Hv);
    [apply Hb|destruct Hb; lia|lia|done|exact Hw|cbn; intros Es; destruct Hb as (_ & _ & Hb & _); congruence|done|].
  assert (Hact : forall key, active s0 D (q / 1024 + 1) q key = true -> key <> q /\ active s0 D (q / 1024 + 1) (q + 1) key = true).
  { intros key Ha; split; [intros ->; rewrite active_self in Ha; [done|lia]|]; rewrite active_next, Ha by lia; apply orb_true_r. }
  assert (Hqa' : active s0 D (q / 1024 + 1) (q + 1) q = true) by (rewrite active_next, Hcp, bool_decide_true by (done || lia); done).
  set (P := fun a => a = MM_PAGE b \/ a = MM_PAGE T).
  assert (HP : forall key, key <> q -> active s0 D (q / 1024 + 1) (q + 1) key = true -> ~ P (MM_PAGE (<[q := b]> f key))).
  { intros key Hne Ha [Ek|Ek].
    - apply page_eq in Ek; [|by eapply ch_fresh|apply Hb]; apply Hne, (ch_inj _ _ _ _ _ _ _ _ Hc); [done|done|].
      by rewrite fn_lookup_insert.
    - symmetry in Ek; revert Ek; eapply fresh_page; [by eapply ch_fresh|done]. }
  assert (Hmp : forall x, ~ P (MM_PAGE x) -> m' x = m x) by (intros x Hn; apply Ho; intros ?; apply Hn; [by left|by right]).
  exists t', m'; split; [done|]; split; [split; [done|done| |]|].
  - apply (child_ext s0 D C (proj1 HC) P _ _ _ p m); [done|done| |].
    + intros [Ec|Ec]; [by apply (fresh_page _ _ C Hb)|done].
    + intros j Hj; apply HP; lia.
  - apply contents_next; [|lia|].
    + intros r x Ha Hx0; pose proof (Hact r (active_0 _ _ _ _ _ Ha)) as [Hne Ha'].
      rewrite <- Hd by done; pose proof (HP r Hne Ha') as Hn; rewrite fn_lookup_insert_ne in Hn by done; apply Hmp.
      pose proof (ch_fresh _ _ _ _ _ _ _ _ Hc r Ha') as (Hra & _); rewrite fn_lookup_insert_ne in Hra by done.
      by rewrite (proj2 (page_offset (f r) x Hra Hx0)).
    + intros _ x Hx0; rewrite Hx by done; pose proof (proj2 (page_offset _ x Hsa Hx0)) as Ep.
      apply (kp_mem _ _ _ Hk); rewrite ?Ep; [lia|done|..]; intros Es; apply page_eq in Es; try done; apply HC.
  - destruct (slot_offsets k Hr) as (_ & _ & O3 & _); apply Hv; [lia|].
    intros j Hj Hn Es; apply Hn; apply slot_page_inj in Es as ->; by left.
Qed.

Lemma copying_tlb A I N f p m t t' : copying A I N f p m t -> space_ok (upd p m t' s0) D -> copying A I N f p m t'.
Proof. by intros [H1 H2 H3 H4] H; split. Qed.

(** The condition under which an entry is copied. *)
Lemma clone_condition A p m q :
  kept A p m -> 32768 <= q < 1023 * 1024 -> has_table s0 D (q / 1024) = true ->
  pte_p (load32 m (table m D (q / 1024) + 4 * (q mod 1024))) && (q * MM_PAGE_SIZE <? MM_VIRTUAL_TOS) &&
    do_clone s0 (q * MM_PAGE_SIZE) = copied s0 D q.
Proof using Hs0 Hon HC HCu.
  intros Hk Hq Ht; unfold copied; fold (has_table s0 D (q / 1024)); rewrite Ht, <- do_clone_area; cbn [andb].
  case_test; [by rewrite (source_entry A p m)|by rewrite !andb_false_r].
Qed.

Lemma pages_from_step q n : pages_from s0 D q (Z.of_nat (S n)) = ((if copied s0 D q then 1 else 0) + pages_from s0 D (q + 1) (Z.of_nat n))%nat.
Proof. unfold pages_from; replace (Z.of_nat (S n)) with (1 + Z.of_nat n) by lia; rewrite seqZ_filter_app, seqZ_filter_1 by lia; done. Qed.

(** One round of [clone_entries], for page table [i] and its copy in slot [k]. *)
Section Entries.
Context (i k : Z) (us : bool) (Hi : 32 <= i < 1023) (Ht : has_table s0 D i = true) (Hr : 1016 <= k < 1024).
Abbreviation entries n page := (clone_entries proc_ptd n (MM_VIRTUAL_PT_ENTRY i 0) (slot_page k) (MM_AREA_START i) page).

(** The old entry is read, and the decision is made. *)
Lemma entry_head n page f p m t :
  0 <= page < 1024 -> copying [k] (i + 1) (1024 * i + page) f p m t ->
  exists t', copying [k] (i + 1) (1024 * i + page) f p m t' /\
    entries (S n) page (upd p m t s0) =
      (if copied s0 D (1024 * i + page) then
        phys_page ← get_phys_page;
        if phys_page =? 0 then mret ENOMEM
        else
          store_pte (slot_page k) page (copy_entry (pte m0 D ((1024 * i + page) * MM_PAGE_SIZE)) phys_page);;
          rc ← mm_copy_page proc_ptd ((1024 * i + page) * MM_PAGE_SIZE) phys_page;
          if negb (rc =? 0) then mret rc else entries n (page + 1)
      else entries n (page + 1)) (upd p m t' s0).
Proof using Hs0 Hon HC HCu Hi Ht.
  intros Hp Hc; cbn [clone_entries]; pose proof (co_space _ _ _ _ _ _ _ Hc) as Hs; pose proof (co_kept _ _ _ _ _ _ _ Hc) as Hk.
  set (q := 1024 * i + page) in *; assert (Hqi : q / 1024 = i) by (unfold q; Z.div_mod_to_equations; lia).
  assert (Hqp : q mod 1024 = page) by (unfold q; Z.div_mod_to_equations; lia).
  assert (Hq : 32768 <= q < 1023 * 1024) by (unfold q; lia).
  assert (Hbase : u32 (MM_AREA_START i + MM_PAGE_SIZE * page) = q * MM_PAGE_SIZE).
  { unfold MM_AREA_START, MM_PT_ENTRIES, MM_PAGE_SIZE; rewrite (u32_small (i * 4096 * 1024)) by lia; rewrite u32_small; unfold q; lia. }
  rewrite Hbase; assert (Hti : pte_p (pde m D i) = true) by (rewrite (kp_pde _ _ _ Hk) by lia; exact Ht).
  assert (Epa : pt_addr (upd p m t s0) D i = MM_VIRTUAL_PT_ENTRY i 0)
    by (unfold pt_addr; change (pg_enabled (upd p m t s0)) with (pg_enabled s0); by rewrite Hon).
  destruct (load_pt (upd p m t s0) D i page Hs) as (t1 & E1 & Hs1); [lia|done|lia|].
  rewrite Epa in E1; rewrite (mm_bind_ok _ _ _ _ _ E1); erewrite mm_bind_ok by reflexivity; cbn [phys upd set_pmem set_phys].
  change (do_clone (set_tlb t1 (upd p m t s0))) with (do_clone s0).
  pose proof (clone_condition [k] p m q Hk Hq) as Hcond; rewrite Hqi, Hqp in Hcond; rewrite Hcond by done.
  exists t1; split; [by apply (copying_tlb _ _ _ _ _ _ t)|]; change (set_tlb t1 (upd p m t s0)) with (upd p m t1 s0).
  destruct (copied s0 D q) eqn:Ecp; [|done].
  pose proof (source_entry [k] p m q Hk Hq) as Hsrc; rewrite Hqi, Hqp in Hsrc; rewrite Hsrc; [done|done|].
  revert Ecp; unfold copied; rewrite !andb_true_iff; lia.
Qed.

(** The entry is not to be copied, or it is and there is a free page. *)
Lemma entry_round n page f p m t :
  0 <= page < 1024 -> copying [k] (i + 1) (1024 * i + page) f p m t -> walk m D (slot_page k) = Some (mk_xlat (f (- i)) true us) ->
  (copied s0 D (1024 * i + page) = true -> 0 < free_pages p)%nat ->
  exists f' p' m' t', entries (S n) page (upd p m t s0) = entries n (page + 1) (upd p' m' t' s0) /\
    copying [k] (i + 1) (1024 * i + (page + 1)) f' p' m' t' /\ walk m' D (slot_page k) = Some (mk_xlat (f' (- i)) true us) /\
    free_pages p = ((if copied s0 D (1024 * i + page) then 1 else 0) + free_pages p')%nat.
Proof using Hs0 Hon Hsp HC HCu Hslots Hframes Hi Ht Hr.
  intros Hp Hc Hw Hroom; destruct (entry_head n page f p m t Hp Hc) as (t1 & Hc1 & ->); rewrite !Z.add_assoc.
  set (q := 1024 * i + page) in *; assert (Hqi : q / 1024 = i) by (unfold q; Z.div_mod_to_equations; lia).
  assert (Hqp : q mod 1024 = page) by (unfold q; Z.div_mod_to_equations; lia).
  assert (Hq : 32768 <= q < 1023 * 1024) by (unfold q; lia); destruct (copied s0 D q) eqn:Ecp.
  - destruct (get_step _ _ _ _ _ _ _ Hc1 (Hroom eq_refl)) as (b & p1 & E2 & Hc2 & Hb & Hroom1 & Hne & _).
    rewrite (mm_bind_ok _ _ _ _ _ E2); assert (0 < b) by (destruct Hb; lia); tests.
    destruct (entry_store k q f p1 m t1 us b) as (t2 & m2 & E3 & Hs3 & Hk3 & Hc3 & Hd3 & Hv3); rewrite ?Hqi; try done.
    rewrite Hqp in E3; rewrite (mm_bind_ok _ _ _ _ _ E3).
    destruct (entry_copy k q f p1 m2 t2 b) as (t3 & m3 & E4 & Hc4 & Hw4); try done.
    rewrite (mm_bind_ok _ _ _ _ _ E4); cbn [Z.eqb negb]; destruct (slot_offsets k Hr) as (_ & _ & O3 & _); rewrite Hqi in Hc4.
    exists (<[q := b]> f), p1, m3, t3; split_and!; [done|done| |done]; rewrite Hw4, Hv3, fn_lookup_insert_ne by lia; done.
  - exists f, p, m, t1; split_and!; [done| |done|done]; destruct Hc1 as [H1 H2 H3 H4].
    split; [done|done|apply child_skip; done || lia|apply contents_skip; done || lia].
Qed.

(** All entries, if there are enough pages. *)
Lemma clone_entries_ok n : forall page f p m t,
  0 <= page -> page + Z.of_nat n = 1024 ->
  copying [k] (i + 1) (1024 * i + page) f p m t -> walk m D (slot_page k) = Some (mk_xlat (f (- i)) true us) ->
  (pages_from s0 D (1024 * i + page) (Z.of_nat n) <= free_pages p)%nat ->
  exists f' p' m' t', entries n page (upd p m t s0) = Ok (0, upd p' m' t' s0) /\
    copying [k] (i + 1) (1024 * (i + 1)) f' p' m' t' /\
    free_pages p = (pages_from s0 D (1024 * i + page) (Z.of_nat n) + free_pages p')%nat.
Proof using Hs0 Hon Hsp HC HCu Hslots Hframes Hi Ht Hr.
  induction n as [|n IH]; intros page f p m t Hp0 Hpn Hc Hw Hroom.
  - exists f, p, m, t; split; [done|]; replace (1024 * (i + 1)) with (1024 * i + page) by lia; done.
  - rewrite pages_from_step in *; destruct (entry_round n page f p m t) as (f1 & p1 & m1 & t1 & -> & Hc1 & Hw1 & Hf1); try done; [lia| |].
    { intros E; rewrite E in Hroom; lia. }
    destruct (IH (page + 1) f1 p1 m1 t1) as (f2 & p2 & m2 & t2 & E2 & Hc2 & Hf2); try done; try lia; rewrite ?Z.add_assoc in *; [lia|].
    exists f2, p2, m2, t2; split_and!; [done|done|lia].
Qed.

(** Otherwise the loop ends with an error, and the first page for which there was no
    memory is not mapped in the new address space. *)
Lemma clone_entries_full n : forall page f p m t,
  0 <= page -> page + Z.of_nat n = 1024 ->
  copying [k] (i + 1) (1024 * i + page) f p m t -> walk m D (slot_page k) = Some (mk_xlat (f (- i)) true us) ->
  (free_pages p < pages_from s0 D (1024 * i + page) (Z.of_nat n))%nat ->
  exists q f' p' m' t', entries n page (upd p m t s0) = Ok (ENOMEM, upd p' m' t' s0) /\
    1024 * i <= q < 1024 * (i + 1) /\ copied s0 D q = true /\ copying [k] (i + 1) q f' p' m' t'.
Proof using Hs0 Hon Hsp HC HCu Hslots Hframes Hi Ht Hr.
  induction n as [|n IH]; intros page f p m t Hp0 Hpn Hc Hw Hroom; [exfalso; by apply Nat.nlt_0_r in Hroom|].
  rewrite pages_from_step in Hroom; destruct (copied s0 D (1024 * i + page)) eqn:Ecp; [destruct (free_pages p) eqn:Ef|].
  - destruct (entry_head n page f p m t) as (t1 & Hc1 & ->); [lia|done|]; rewrite Ecp.
    destruct (get_none _ _ _ _ _ _ _ Hc1 Ef) as (p1 & E1 & Hc2); rewrite (mm_bind_ok _ _ _ _ _ E1).
    exists (1024 * i + page), f, p1, m, t1; split_and!; done || lia.
  - destruct (entry_round n page f p m t) as (f1 & p1 & m1 & t1 & -> & Hc1 & Hw1 & Hf1); try done; [lia|lia|].
    rewrite Ecp in Hf1; apply (IH (page + 1) f1); try done; try lia; rewrite ?Z.add_assoc; lia.
  - destruct (entry_round n page f p m t) as (f1 & p1 & m1 & t1 & -> & Hc1 & Hw1 & Hf1); try done; [lia|by rewrite Ecp|].
    rewrite Ecp in Hf1; apply (IH (page + 1) f1); try done; try lia; rewrite ?Z.add_assoc; lia.
Qed.
End Entries.

Context (HCr : 0 < C < 2 ^ 27) (Hident : exists us, walk (phys s0) D C = Some (mk_xlat C true us)).

Lemma contents_table N i b f m : 0 < i -> contents s0 D N f m -> contents s0 D N (<[- i := b]> f) m.
Proof. intros Hi Hd q x Hq Hx; pose proof (active_page_inv _ _ _ _ Hq) as [? _]; rewrite fn_lookup_insert_ne by lia; by apply Hd. Qed.

Lemma not_slot v k : 0 <= v <= MM_VIRTUAL_TOS -> 1016 <= k < 1024 -> MM_PAGE v <> MM_PAGE (slot_page k).
Proof. intros Hv Hr E; destruct (slot_offsets k Hr) as (_ & _ & _ & O4 & O5); apply (page_aligned _ _ O4) in E; lia. Qed.

(** A fresh page is cleared, through the slot [k]. *)
Lemma table_clear k us i f p m t b :
  copying [k] i (1024 * i) f p m t -> 1016 <= k < 1024 -> walk m D (slot_page k) = Some (mk_xlat b true us) -> fresh s0 p b ->
  (forall key, active s0 D i (1024 * i) key = true -> f key <> b) ->
  exists t' m', vmemset (Z.to_nat (MM_PT_ENTRIES * 4)) (slot_page k) 0 (upd p m t s0) = Ok (tt, upd p m' t' s0) /\
    copying [k] i (1024 * i) f p m' t' /\ walk m' D (slot_page k) = Some (mk_xlat b true us) /\
    (forall x, MM_PAGE x = MM_PAGE b -> m' x = 0).
Proof using Hs0 Hon HC HCu.
  intros [Hs Hk Hc Hd] Hr Hw Hb Hne; destruct (slot_offsets k Hr) as (_ & _ & O3 & O4 & _).
  pose proof (kept_frame _ _ _ _ Hk (fresh_data _ _ Hb)) as Hdb.
  destruct (memset_page (upd p m t s0) D (slot_page k) b Hs Hdb) as (t' & m' & E & Hs' & Hz & Ho); [destruct Hb; lia|lia|done|..].
  { intros H0; change (pg_enabled s0 = 0) in H0; lia. }
  { intros _; by exists us. }
  destruct (kept_data [k] p m t m' b Hs Hk Hdb) as [Hk' Hv']; [right; apply Hb|done|].
  assert (Hpg : forall key, active s0 D i (1024 * i) key = true -> MM_PAGE (f key) <> MM_PAGE b).
  { intros key Ha Ek; apply (Hne key Ha), page_eq; [by eapply ch_fresh|apply Hb|done]. }
  exists t', m'; split_and!; [exact E| |by rewrite Hv' by lia|done]; split; [exact Hs'|done| |].
  - apply (child_ext s0 D C (proj1 HC) (fun a => a = MM_PAGE b) _ _ _ p m); [done|done|by apply (fresh_page p)|auto].
  - apply (contents_ext s0 D C (fun a => a = MM_PAGE b) i _ _ p m); [done|done|done|].
    intros q Hq; by apply Hpg, active_0.
Qed.

(** The entry of the new directory. *)
Lemma table_link k us i f p m t b :
  copying [k] i (1024 * i) f p m t -> 32 <= i < 1023 -> has_table s0 D i = true -> 1016 <= k < 1024 ->
  walk m D (slot_page k) = Some (mk_xlat b true us) -> fresh s0 p b ->
  (forall key, active s0 D i (1024 * i) key = true -> f key <> b) -> (forall x, MM_PAGE x = MM_PAGE b -> m x = 0) ->
  exists t' m', store_pte C i (copy_entry (pde m0 D i) b) (upd p m t s0) = Ok (tt, upd p m' t' s0) /\
    copying [k] (i + 1) (1024 * i) (<[- i := b]> f) p m' t' /\ walk m' D (slot_page k) = Some (mk_xlat b true us).
Proof using Hs0 Hon HC HCu HCr Hident.
  intros [Hs Hk Hc Hd] Hi Ht Hr Hw Hb Hne Hz; destruct (slot_offsets k Hr) as (_ & _ & O3 & O4 & _); destruct Hident as [usC HwC].
  pose proof (kept_frame _ _ _ _ Hk HC) as HdC; rewrite <- (kp_walk _ _ _ Hk) in HwC;
    [|lia|intros j ->%list_elem_of_singleton; apply not_slot; [change MM_VIRTUAL_TOS with 4290740223; lia|done]].
  destruct (store_data (upd p m t s0) D C C usC i (copy_entry (pde m0 D i) b) Hs Hon HdC) as (t' & E & Hs'); [lia|apply HC|done|lia|].
  cbn [phys upd set_pmem set_phys] in E, Hs'; set (m' := store32 m _ _) in *.
  assert (Hm' : forall x, MM_PAGE x <> MM_PAGE C -> m' x = m x).
  { intros x Hx; apply store32_other; intros Hin; apply page_of_word in Hin; [done|apply HC|lia]. }
  destruct (kept_data [k] p m t m' C Hs Hk HdC) as [Hk' Hv']; [by left|done|].
  exists t', m'; split_and!; [exact E| |by rewrite Hv' by lia]; split; [exact Hs'|done|by apply child_table; [apply HC|..]|].
  apply contents_table; [lia|]; apply (contents_ext s0 D C (fun a => a = MM_PAGE C) i _ _ p m); [done|done|done|].
  intros q Hq%(active_0 s0 D i) Eq; symmetry in Eq; revert Eq; eapply fresh_page; [by eapply ch_fresh|done].
Qed.

Lemma copying_attach I N f p m t b :
  copying [] I N f p m t -> fresh s0 p b ->
  exists k us t' m', mm_attach_page proc_ptd b (upd p m t s0) = Ok (slot_page k, upd p m' t' s0) /\ 1016 <= k < 1024 /\
    pte_p (slot m0 D k) = false /\ copying [k] I N f p m' t' /\ walk m' D (slot_page k) = Some (mk_xlat b true us).
Proof using Hs0 Hon Hsp HC HCu Hslots.
  intros [Hs Hk Hc Hd] Hb; destruct (attach_step [] p m t b Hs Hk) as (k & us & t' & m' & E & Hr & _ & Hf & Hs' & Hk' & Hw & Hx & _).
  { destruct Hslots as (k1 & _ & H1 & _ & _ & F1 & _); exists k1; split_and!; [lia|lia|by apply not_elem_of_nil|done]. }
  { apply Hb. }
  { destruct Hb; lia. }
  destruct (child_slot _ _ _ _ _ _ Hc Hd Hx) as [Hc' Hd']; exists k, us, t', m'; split_and!; done || lia.
Qed.

Lemma copying_detach I N f p m t k :
  copying [k] I N f p m t -> pte_p (slot m0 D k) = false ->
  exists t' m', mm_detach_page proc_ptd (slot_page k) (upd p m t s0) = Ok (tt, upd p m' t' s0) /\ copying [] I N f p m' t'.
Proof using Hs0 Hon HC HCu.
  intros [Hs Hk Hc Hd] Hf; destruct (detach_step [] p m t k Hs Hk (not_elem_of_nil k) Hf) as (t' & m' & E & Hs' & Hk' & Hx & _).
  destruct (child_slot _ _ _ _ _ _ Hc Hd Hx) as [Hc' Hd']; by exists t', m'.
Qed.

(** The pages that are needed from page table [i] on. *)
Definition needed (i n : Z) : nat := (tables_from s0 D i n + pages_from s0 D (1024 * i) (1024 * n))%nat.

Lemma needed_step i n : 0 <= n -> needed i (1 + n) =
  ((if has_table s0 D i then 1 else 0) + (pages_from s0 D (1024 * i) 1024 + needed (i + 1) n))%nat.
Proof.
  intros Hn; unfold needed, tables_from, pages_from; rewrite seqZ_filter_app, seqZ_filter_1 by lia.
  replace (1024 * (1 + n)) with (1024 + 1024 * n) by lia; rewrite seqZ_filter_app by lia.
  replace (1024 * i + 1024) with (1024 * (i + 1)) by lia; lia.
Qed.

Lemma needed_last : needed 32 991 = (needed 32 990 + (1 + pages_from s0 D (1024 * 1022) 1024))%nat.
Proof using Hs0 Hon.
  unfold needed, tables_from, pages_from; change 991 with (990 + 1) at 1; rewrite seqZ_filter_app, seqZ_filter_1 by lia.
  change (1024 * 991) with (1024 * 990 + 1024); rewrite (seqZ_filter_app _ _ (1024 * 990)) by lia.
  change (32 + 990) with 1022; change (1024 * 32 + 1024 * 990) with (1024 * 1022).
  assert (has_table s0 D 1022 = true) as -> by apply resv; lia.
Qed.

(** One page table, up to its entries. *)
Lemma table_head n i f p m t :
  32 <= i < 1023 -> has_table s0 D i = true -> copying [] i (1024 * i) f p m t -> (0 < free_pages p)%nat ->
  exists k us f' p' m' t', 1016 <= k < 1024 /\ pte_p (slot m0 D k) = false /\
    clone_tables proc_ptd (S n) D C i (upd p m t s0) =
      (mm_clone_pt proc_ptd (MM_VIRTUAL_PT_ENTRY i 0) (slot_page k) (MM_AREA_START i);;
       mm_detach_page proc_ptd (slot_page k);; clone_tables proc_ptd n D C (i + 1)) (upd p' m' t' s0) /\
    copying [k] (i + 1) (1024 * i) f' p' m' t' /\ walk m' D (slot_page k) = Some (mk_xlat (f' (- i)) true us) /\
    free_pages p = S (free_pages p').
Proof using Hs0 Hon Hsp HC HCu Hslots HCr Hident.
  intros Hi Ht Hc Hroom; cbn [clone_tables]; pose proof (co_space _ _ _ _ _ _ _ Hc) as Hs; pose proof (co_kept _ _ _ _ _ _ _ Hc) as Hk.
  assert (Ha : (MM_AREA_START i <=? MM_VIRTUAL_TOS) = true).
  { unfold MM_AREA_START, MM_PT_ENTRIES, MM_PAGE_SIZE; change MM_VIRTUAL_TOS with 4290740223; rewrite u32_small; lia. }
  rewrite Ha; destruct (load_pd (upd p m t s0) D i Hs) as (t1 & E1 & Hs1); [lia|]; rewrite (mm_bind_ok _ _ _ _ _ E1).
  change (set_tlb t1 (upd p m t s0)) with (upd p m t1 s0) in *; apply (copying_tlb _ _ _ _ _ _ _ t1) in Hc; [|exact Hs1].
  cbn [phys upd set_pmem set_phys andb]; rewrite (kp_pde _ _ _ Hk) by lia; fold (has_table s0 D i); rewrite Ht.
  destruct (get_step _ _ _ _ _ _ _ Hc Hroom) as (b & p1 & E2 & Hc1 & Hb & Hroom1 & Hne & _).
  rewrite (mm_bind_ok _ _ _ _ _ E2); assert (0 < b) by (destruct Hb; lia); tests.
  destruct (copying_attach _ _ _ _ _ _ _ Hc1 Hb) as (k & us & t3 & m3 & E3 & Hr & Hf & Hc3 & Hw3).
  rewrite (mm_bind_ok _ _ _ _ _ E3); destruct (slot_offsets k Hr) as (_ & _ & O3 & _); tests.
  destruct (table_clear k us i f p1 m3 t3 b) as (t4 & m4 & E4 & Hc4 & Hw4 & Hz); try done; rewrite (mm_bind_ok _ _ _ _ _ E4).
  destruct (load_pd (upd p1 m4 t4 s0) D i) as (t5 & E5 & Hs5); [apply Hc4|lia|]; rewrite (mm_bind_ok _ _ _ _ _ E5).
  change (set_tlb t5 (upd p1 m4 t4 s0)) with (upd p1 m4 t5 s0) in *; apply (copying_tlb _ _ _ _ _ _ _ t5) in Hc4; [|exact Hs5].
  cbn [phys upd set_pmem set_phys]; rewrite (kp_pde _ _ _ (co_kept _ _ _ _ _ _ _ Hc4)) by lia; fold (copy_entry (pde m0 D i) b).
  destruct (table_link k us i f p1 m4 t5 b) as (t6 & m6 & E6 & Hc6 & Hw6); try done.
  rewrite (mm_bind_ok _ _ _ _ _ E6); erewrite mm_bind_ok by reflexivity.
  exists k, us, (<[- i := b]> f), p1, m6, t6; split_and!; try done; try lia; by rewrite fn_lookup_insert.
Qed.

(** A page table that does not exist is skipped. *)
Lemma table_skip n i f p m t :
  32 <= i < 1023 -> has_table s0 D i = false -> copying [] i (1024 * i) f p m t ->
  exists t', clone_tables proc_ptd (S n) D C i (upd p m t s0) = clone_tables proc_ptd n D C (i + 1) (upd p m t' s0) /\
    copying [] (i + 1) (1024 * (i + 1)) f p m t'.
Proof using Hs0 Hon HC HCu.
  intros Hi Ht Hc; cbn [clone_tables]; pose proof (co_space _ _ _ _ _ _ _ Hc) as Hs; pose proof (co_kept _ _ _ _ _ _ _ Hc) as Hk.
  assert (Ha : (MM_AREA_START i <=? MM_VIRTUAL_TOS) = true).
  { unfold MM_AREA_START, MM_PT_ENTRIES, MM_PAGE_SIZE; change MM_VIRTUAL_TOS with 4290740223; rewrite u32_small; lia. }
  rewrite Ha; destruct (load_pd (upd p m t s0) D i Hs) as (t1 & E1 & Hs1); [lia|]; rewrite (mm_bind_ok _ _ _ _ _ E1).
  cbn [phys upd set_pmem set_phys andb]; rewrite (kp_pde _ _ _ Hk) by lia; fold (has_table s0 D i); rewrite Ht.
  exists t1; split; [done|]; destruct Hc as [H1 H2 H3 H4]; destruct (child_no_table s0 D C i f p m H3 H4) as [H5 H6]; [lia|done|by split].
Qed.

(** The first page tables of the rest. *)
Lemma clone_tables_ok n rest : forall i f p m t,
  32 <= i -> i + Z.of_nat n <= 1023 -> copying [] i (1024 * i) f p m t -> (needed i (Z.of_nat n) <= free_pages p)%nat ->
  exists f' p' m' t', clone_tables proc_ptd (n + rest) D C i (upd p m t s0) = clone_tables proc_ptd rest D C (i + Z.of_nat n) (upd p' m' t' s0) /\
    copying [] (i + Z.of_nat n) (1024 * (i + Z.of_nat n)) f' p' m' t' /\
    free_pages p = (needed i (Z.of_nat n) + free_pages p')%nat.
Proof using Hs0 Hon Hsp HC HCu Hslots Hframes HCr Hident.
  induction n as [|n IH]; intros i f p m t Hi Hn Hc Hroom.
  { rewrite Z.add_0_r; by exists f, p, m, t. }
  replace (Z.of_nat (S n)) with (1 + Z.of_nat n) in * by lia; rewrite needed_step in * by lia; rewrite Z.add_assoc.
  change (S n + rest)%nat with (S (n + rest)); destruct (has_table s0 D i) eqn:Ht.
  - destruct (table_head (n + rest) i f p m t) as (k & us & f1 & p1 & m1 & t1 & Hr & Hf & -> & Hc1 & Hw1 & Hf1); [lia|done|done|lia|].
    destruct (clone_entries_ok i k us ltac:(lia) Ht Hr (Z.to_nat MM_PT_ENTRIES) 0 f1 p1 m1 t1) as (f2 & p2 & m2 & t2 & E2 & Hc2 & Hf2);
      rewrite ?Z.add_0_r in *; change (Z.of_nat (Z.to_nat MM_PT_ENTRIES)) with 1024 in *; try done; [lia|].
    unfold mm_clone_pt; rewrite (mm_bind_ok _ _ _ _ _ E2).
    destruct (copying_detach _ _ _ _ _ _ _ Hc2 Hf) as (t3 & m3 & E3 & Hc3); rewrite (mm_bind_ok _ _ _ _ _ E3).
    destruct (IH (i + 1) f2 p2 m3 t3) as (f4 & p4 & m4 & t4 & E4 & Hc4 & Hf4); [lia|lia|done|lia|].
    exists f4, p4, m4, t4; split_and!; [done|done|lia].
  - destruct (table_skip (n + rest) i f p m t) as (t1 & -> & Hc1); [lia|done|done|].
    assert (Hz : pages_from s0 D (1024 * i) 1024 = 0%nat).
    { apply Nat.le_0_r, (seqZ_filter_le _ _ _ []); intros x Hx; unfold copied.
      replace (x / 1024) with i by (Z.div_mod_to_equations; lia); fold (has_table s0 D i); by rewrite Ht. }
    rewrite Hz in *; destruct (IH (i + 1) f p m t1) as (f4 & p4 & m4 & t4 & E4 & Hc4 & Hf4); [lia|lia|done|lia|].
    exists f4, p4, m4, t4; split_and!; [done|done|lia].
Qed.

(** If the last page table cannot be filled, the loop nevertheless reports success. *)
Lemma clone_tables_full f p m t :
  copying [] 1022 (1024 * 1022) f p m t -> (0 < free_pages p <= pages_from s0 D (1024 * 1022) 1024)%nat ->
  exists q f' p' m' t', clone_tables proc_ptd 2 D C 1022 (upd p m t s0) = Ok (0, upd p' m' t' s0) /\
    1024 * 1022 <= q < 1024 * 1023 /\ copied s0 D q = true /\ copying [] 1023 q f' p' m' t'.
Proof using Hs0 Hon Hsp HC HCu Hslots Hframes HCr Hident.
  intros Hc Hroom; pose proof resv as Ht; fold (has_table s0 D 1022) in Ht.
  destruct (table_head 1 1022 f p m t) as (k & us & f1 & p1 & m1 & t1 & Hr & Hf & -> & Hc1 & Hw1 & Hf1); [lia|done|done|lia|].
  destruct (clone_entries_full 1022 k us ltac:(lia) Ht Hr (Z.to_nat MM_PT_ENTRIES) 0 f1 p1 m1 t1) as (q & f2 & p2 & m2 & t2 & E2 & Hq & Hcp & Hc2);
    rewrite ?Z.add_0_r in *; change (Z.of_nat (Z.to_nat MM_PT_ENTRIES)) with 1024 in *; try done; [lia|].
  unfold mm_clone_pt; rewrite (mm_bind_ok _ _ _ _ _ E2).
  destruct (copying_detach _ _ _ _ _ _ _ Hc2 Hf) as (t3 & m3 & E3 & Hc3); rewrite (mm_bind_ok _ _ _ _ _ E3).
  by exists q, f2, p2, m3, t3.
Qed.

Abbreviation last := (1024 * 1023).

Lemma self_link N f p m t :
  copying [] 1023 N f p m t ->
  exists t' m', store_pte C 1023 (pte_create 1 0 0 C) (upd p m t s0) = Ok (tt, upd p m' t' s0) /\
    copying [] 1023 N f p m' t' /\ pde m' C 1023 = pte_create 1 0 0 C.
Proof using Hs0 Hon HC HCu HCr Hident.
  intros [Hs Hk Hc Hd]; destruct Hident as [usC HwC].
  pose proof (kept_frame _ _ _ _ Hk HC) as HdC; rewrite <- (kp_walk _ _ _ Hk) in HwC; [|lia|intros j []%not_elem_of_nil].
  destruct (store_data (upd p m t s0) D C C usC 1023 (pte_create 1 0 0 C) Hs Hon HdC) as (t' & E & Hs'); [lia|apply HC|done|lia|].
  cbn [phys upd set_pmem set_phys] in E, Hs'; set (m' := store32 m _ _) in *.
  assert (Hm' : forall x, MM_PAGE x <> MM_PAGE C -> m' x = m x).
  { intros x Hx; apply store32_other; intros Hin; apply page_of_word in Hin; [done|apply HC|lia]. }
  destruct (kept_data [] p m t m' C Hs Hk HdC) as [Hk' Hv']; [by left|done|].
  exists t', m'; split_and!; [exact E| |apply load32_store32_same, create_range; lia].
  split; [exact Hs'|done|by apply child_self; [apply HC|..]|].
  apply (contents_ext s0 D C (fun a => a = MM_PAGE C) 1023 _ _ p m); [done|done|done|].
  intros q Hq%(active_0 s0 D 1023) Eq; symmetry in Eq; revert Eq; eapply fresh_page; [by eapply ch_fresh|done].
Qed.

(** ** What the new directory translates to *)

Section Result.
Context (N : Z) (f : Z -> Z) (p : physmem) (m : mem) (t : Z -> option xlat).
Context (Hcopy : copying [] 1023 N f p m t) (Hself : pde m C 1023 = pte_create 1 0 0 C).
Context (Hshared : forall i, 0 <= i < 32 -> pde (phys s0) C i = pde (phys s0) D i).

Lemma child_pde i : 0 <= i < 1023 ->
  pde m C i = if i <? 32 then pde m0 D i else if has_table s0 D i then copy_entry (pde m0 D i) (f (- i)) else 0.
Proof using Hcopy Hshared.
  intros Hi; destruct Hcopy as [_ _ Hc _]; case_test; [rewrite (ch_shared _ _ _ _ _ _ _ _ Hc) by lia; auto with lia|].
  rewrite (ch_dir _ _ _ _ _ _ _ _ Hc) by lia; unfold active; rewrite Z.opp_involutive; tests; done.
Qed.

Lemma table_fresh i : 32 <= i < 1023 -> has_table s0 D i = true -> fresh s0 p (f (- i)) /\ table m C i = f (- i).
Proof using Hcopy Hshared.
  intros Hi Ht; destruct Hcopy as [_ _ Hc _].
  assert (Hf : fresh s0 p (f (- i))).
  { apply (ch_fresh _ _ _ _ _ _ _ _ Hc); unfold active; rewrite Z.opp_involutive, Ht; by tests. }
  split; [done|]; unfold table; rewrite child_pde, Ht by lia; tests; apply copy_entry_spec, Hf.
Qed.

Lemma table_shared i : 0 <= i < 32 -> table m C i = table m0 D i.
Proof using Hcopy Hshared. intros; unfold table; rewrite child_pde by lia; by tests. Qed.

(** Addresses of the kernel are translated as before. *)
Lemma child_walk_shared v : 0 <= v < 2 ^ 27 -> walk m C v = walk m0 D v.
Proof using Hs0 Hon HC Hcopy Hshared.
  intros Hv; pose proof (pt_offset_range v) as Hr; pose proof (sp_tables _ _ Hs0) as Hok.
  assert (Hi : 0 <= PTD_OFFSET v < 32) by (rewrite ptd_offset; Z.div_mod_to_equations; lia).
  unfold walk, pte; fold (table m C (PTD_OFFSET v)) (table m0 D (PTD_OFFSET v)); rewrite table_shared, child_pde by lia; tests.
  destruct (pte_p (pde m0 D (PTD_OFFSET v))) eqn:Ep; [|done].
  destruct (tb_table _ _ _ Hok (PTD_OFFSET v) ltac:(lia) Ep) as (B1 & B2 & B4).
  pose proof (table_range m0 D (PTD_OFFSET v) (tb_bytes _ _ _ Hok)) as [_ Ha]; destruct T_facts as (T1 & _).
  assert (E : load32 m (table m0 D (PTD_OFFSET v) + 4 * PT_OFFSET v) = load32 m0 (table m0 D (PTD_OFFSET v) + 4 * PT_OFFSET v)).
  { apply load32_ext; intros x Hx; assert (Hp : MM_PAGE x = MM_PAGE (table m0 D (PTD_OFFSET v))) by (eapply page_of_word; done).
    apply (kp_mem _ _ _ (co_kept _ _ _ _ _ _ _ Hcopy)); rewrite ?Hp; [lia|done|..]; intros E; apply page_eq in E; try done.
    - destruct HC as (_ & _ & C3); by apply (C3 (PTD_OFFSET v) ltac:(lia) Ep).
    - apply HC.
    - apply (tb_inj _ _ _ Hok) in E; [lia|lia|lia|done|apply resv]. }
  by rewrite E.
Qed.

(** Its entries allow writing, as those of the old one do. *)
Lemma child_rw : dirs_rw m C.
Proof using Hs0 Hon HC HCu HCr Hcopy Hself Hshared.
  intros i Hi; rewrite child_pde by done; case_test; [by apply (pg_rw _ _ (paged_mode _ _ Hs0 Hon))|].
  destruct (has_table s0 D i) eqn:Ht; [intros _|done]; pose proof (pg_rw _ _ (paged_mode _ _ Hs0 Hon) i Hi Ht) as Hrw.
  destruct (table_fresh i ltac:(lia) Ht) as [Hf _].
  by rewrite (proj1 (proj2 (copy_entry_spec (pde m0 D i) _ (proj1 Hf)))).
Qed.

(** The new directory is well formed. *)
Lemma child_tables : tables_ok m p C.
Proof using Hs0 Hon HC HCu HCr Hcopy Hself Hshared.
  pose proof (sp_tables _ _ Hs0) as Hok; destruct Hcopy as [Hs Hk Hc _]; destruct HC as (C1 & C2 & C3).
  assert (Hpres : forall i, 0 <= i < 1023 -> pte_p (pde m C i) = true -> has_table s0 D i = true).
  { intros i Hi; rewrite child_pde by done; case_test; [done|]; by destruct (has_table s0 D i). }
  assert (Htab : forall i, 0 <= i < 1023 -> has_table s0 D i = true ->
    (i < 32 /\ table m C i = table m0 D i) \/ (32 <= i /\ fresh s0 p (f (- i)) /\ table m C i = f (- i))).
  { intros i Hi Ht; destruct (decide (i < 32)); [left; split; [done|apply table_shared; lia]|right; split; [lia|by apply table_fresh; [lia|]]]. }
  split.
  - apply (tb_bytes _ _ _ (sp_tables _ _ Hs)).
  - done.
  - apply (kp_bits _ _ _ Hk); [apply page_nonneg; lia|done].
  - intros _; unfold table; rewrite Hself, create_page_base; unfold MM_PAGE_SIZE; Z.div_mod_to_equations; lia.
  - intros i Hi Hp; pose proof (Hpres i Hi Hp) as Ht; destruct (tb_table _ _ _ Hok i Hi Ht) as (B1 & B2 & B4).
    destruct (Htab i Hi Ht) as [[_ ->]|(_ & Hf & ->)].
    + split_and!; [done|by apply C3|apply (kp_bits _ _ _ Hk); [apply page_nonneg; lia|done]].
    + destruct Hf as (_ & F2 & F3 & F4); split_and!; [lia|congruence|done].
  - intros i j Hi Hj Hpi%(Hpres i Hi) Hpj%(Hpres j Hj).
    destruct (tb_table _ _ _ Hok i Hi Hpi) as (_ & _ & Ui), (tb_table _ _ _ Hok j Hj Hpj) as (_ & _ & Uj).
    destruct (Htab i Hi Hpi) as [[Hi' ->]|(Hi' & Fi & ->)], (Htab j Hj Hpj) as [[Hj' ->]|(Hj' & Fj & ->)].
    + by apply (tb_inj _ _ _ Hok).
    + intros E; rewrite E in Ui; destruct Fj as (_ & _ & Fj & _); congruence.
    + intros E; rewrite <- E in Uj; destruct Fi as (_ & _ & Fi & _); congruence.
    + intros E; apply (ch_inj _ _ _ _ _ _ _ _ Hc) in E; [lia|..]; unfold active; rewrite Z.opp_involutive; tests; done.
Qed.
(** A page that was to be copied when the memory was exhausted is not mapped. *)
Lemma child_missing : 32768 <= N < last -> copied s0 D N = true -> walk m C (N * MM_PAGE_SIZE) = None.
Proof using Hcopy Hshared.
  intros HN Hcp; assert (Hi : 32 <= N / 1024 < 1023) by (Z.div_mod_to_equations; lia).
  destruct (page_offsets N) as [E1 E2]; [lia|]; unfold walk; rewrite E1, child_pde by lia; tests.
  assert (Ht : has_table s0 D (N / 1024) = true) by (revert Hcp; unfold copied; rewrite !andb_true_iff; by intros [[[? _] _] _]).
  rewrite Ht; destruct (table_fresh (N / 1024) Hi Ht) as [Hf Et]; destruct (copy_entry_spec (pde m0 D (N / 1024)) _ (proj1 Hf)) as (-> & _).
  unfold pte; rewrite E1, E2; fold (table m C (N / 1024)); rewrite Et; destruct Hcopy as [_ _ Hc _].
  rewrite (ch_entry _ _ _ _ _ _ _ _ Hc N), active_self by (lia || (unfold active; rewrite Z.opp_involutive, Ht; by tests)); done.
Qed.

Context (HN : N = 1024 * 1023).

(** Other addresses are mapped if and only if their page is copied, with the same rights. *)
Lemma child_walk_private v : 2 ^ 27 <= v < 4290772992 ->
  walk m C v = if copied s0 D (MM_PAGE v) then (fun x => mk_xlat (f (MM_PAGE v)) (x_rw x) (x_us x)) <$> walk m0 D v else None.
Proof using Hcopy Hshared HN.
  intros Hv; set (q := MM_PAGE v); assert (Hq : 32768 <= q < last) by (unfold q, MM_PAGE, MM_PAGE_SIZE; Z.div_mod_to_equations; lia).
  assert (Hi : 32 <= q / 1024 < 1023) by (Z.div_mod_to_equations; lia).
  assert (Ev : MM_PAGE v = MM_PAGE (q * MM_PAGE_SIZE)) by (by rewrite page_of_base).
  rewrite !(walk_page _ _ _ _ Ev); destruct (page_offsets q) as [E1 E2]; [lia|]; unfold walk; rewrite E1.
  rewrite child_pde by lia; tests; destruct (has_table s0 D (q / 1024)) eqn:Ht.
  2: { unfold copied; fold (has_table s0 D (q / 1024)); by rewrite Ht. }
  destruct (table_fresh (q / 1024) Hi Ht) as [Hf Et]; destruct (copy_entry_spec (pde m0 D (q / 1024)) _ (proj1 Hf)) as (-> & -> & -> & _).
  assert (Ha : active s0 D 1023 N (- (q / 1024)) = true) by (unfold active; rewrite Z.opp_involutive, Ht; by tests).
  assert (Hq' : active s0 D 1023 N q = copied s0 D q) by (unfold active; by tests).
  unfold pte at 1 2 3 4; rewrite E1, E2; fold (table m C (q / 1024)); rewrite Et.
  destruct Hcopy as [_ _ Hc _]; rewrite (ch_entry _ _ _ _ _ _ _ _ Hc q) by (lia || done); rewrite Hq'.
  destruct (copied s0 D q) eqn:Ecp; [|done].
  assert (Hfq : fresh s0 p (f q)) by (by apply (ch_fresh _ _ _ _ _ _ _ _ Hc)).
  destruct (copy_entry_spec (pte m0 D (q * MM_PAGE_SIZE)) _ (proj1 Hfq)) as (-> & -> & -> & ->).
  revert Ecp; unfold copied; rewrite !andb_true_iff; intros [[[-> ->] _] _]; done.
Qed.

Lemma child_bytes v : 2 ^ 27 <= v < 4290772992 -> copied s0 D (MM_PAGE v) = true -> vbyte m C v = vbyte m0 D v.
Proof using Hcopy Hshared HN.
  intros Hv Hcp; unfold vbyte; rewrite child_walk_private, Hcp by done; set (q := MM_PAGE v) in *.
  assert (Hq : 32768 <= q < last) by (unfold q, MM_PAGE, MM_PAGE_SIZE; Z.div_mod_to_equations; lia).
  assert (Ev : MM_PAGE v = MM_PAGE (q * MM_PAGE_SIZE)) by (by rewrite page_of_base).
  rewrite (walk_page _ _ _ _ Ev); destruct (copied_walk q) as (rw & us & ->); [lia|done|]; cbn.
  apply (co_contents _ _ _ _ _ _ _ Hcopy); [unfold active; by tests|apply Z.mod_pos_bound; done].
Qed.

End Result.

Lemma copying_start t :
  space_ok (upd p0 m0 t s0) D -> (forall i, 32 <= i < 1023 -> pde m0 C i = 0) -> copying [] 32 (1024 * 32) (fun _ => 0) p0 m0 t.
Proof.
  intros Hs Hz; assert (Hn : forall key, active s0 D 32 (1024 * 32) key = false).
  { intros key; unfold active; repeat (case_test; cbn [andb]); done || lia. }
  split; [done|split; try done; by intros k []%not_elem_of_nil| |].
  - split; try done; [by intros key; rewrite Hn|by intros k k'; rewrite Hn| |by intros q _; rewrite Hn].
    intros i Hi; rewrite Hn; auto.
  - intros q x Hq%(active_0 s0 D 32); by rewrite Hn in Hq.
Qed.

(** The loop over the page tables, and the last entry. *)
Lemma clone_rest t :
  space_ok (upd p0 m0 t s0) D -> (forall i, 32 <= i < 1023 -> pde m0 C i = 0) ->
  (1 + needed 32 990 <= free_pages p0)%nat ->
  exists N f p t1 m1 t2 m2, clone_tables proc_ptd (Z.to_nat (MM_PT_ENTRIES - MM_SHARED_PAGE_TABLES)) D C MM_SHARED_PAGE_TABLES (upd p0 m0 t s0)
      = Ok (0, upd p m1 t1 s0) /\
    store_pte C 1023 (pte_create 1 0 0 C) (upd p m1 t1 s0) = Ok (tt, upd p m2 t2 s0) /\
    copying [] 1023 N f p m2 t2 /\ pde m2 C 1023 = pte_create 1 0 0 C /\
    (if decide (needed 32 991 <= free_pages p0)%nat then N = last else 32768 <= N < last /\ copied s0 D N = true).
Proof using Hs0 Hon Hsp HC HCu Hslots Hframes HCr Hident.
  intros Hs Hz Hroom; pose proof (copying_start t Hs Hz) as Hc; case_decide as Hall.
  - destruct (clone_tables_ok 991 1 32 _ _ _ _ ltac:(lia) ltac:(lia) Hc Hall) as (f & p & m1 & t1 & E1 & Hc1 & _).
    change (32 + Z.of_nat 991) with 1023 in *; destruct (self_link _ _ _ _ _ Hc1) as (t2 & m2 & E2 & Hc2 & Hp).
    by exists last, f, p, t1, m1, t2, m2.
  - destruct (clone_tables_ok 990 2 32 _ _ _ _ ltac:(lia) ltac:(lia) Hc) as (f & p & m1 & t1 & E1 & Hc1 & Hf1); [change (Z.of_nat 990) with 990; lia|].
    change (32 + Z.of_nat 990) with 1022 in *; change (Z.of_nat 990) with 990 in *.
    pose proof needed_last.
    destruct (clone_tables_full _ _ _ _ Hc1) as (q & f2 & p2 & m2 & t2 & E2 & Hq & Hcp & Hc2); [lia|].
    destruct (self_link _ _ _ _ _ Hc2) as (t3 & m3 & E3 & Hc3 & Hp).
    exists q, f2, p2, t2, m2, t3, m3; split_and!; [exact (eq_trans E1 E2)|done|done|done|lia|lia|done].
Qed.
End Clone.
