(* ===== verification/MmClone.v ===== *)
(** * The copy of an address space for [fork]: [mm_clone] is correct *)

From S2P Require Import Prelude Errors Memory MmDefs Lists PhysMem PhysMemProofs Paging PagingProofs PagingMap Mm MmStack MmUser MmExample MmStackProofs MmFork MmForkProofs.
Import Lists.

(** What [mm_clone] needs: the current process runs on the directory [D]; the page at [C]
    is set aside for the new directory and mapped one to one; two of the reserved slots
    are free; and the pages that are copied are in use, and are neither the new directory nor
    the page table of the slots. *)
Record fork_ready (proc_ptd : Z) (s : mm) (D C : Z) : Prop := {
  fr_running : running proc_ptd s D;
  fr_frame : data_frame (phys s) D C;
  fr_used : bit (pmem s) (MM_PAGE C) = 1;
  fr_range : 0 < C < 2 ^ 27;
  fr_ident : exists us, walk (phys s) D C = Some (mk_xlat C true us);
  fr_sp : sp_lock (pid s) ∉ locks s;
  fr_as : address_spaces_lock ∉ locks s;
  fr_slots : exists k1 k2, 1016 <= k1 < 1024 /\ 1016 <= k2 < 1024 /\ k1 <> k2 /\
    pte_p (slot (phys s) D k1) = false /\ pte_p (slot (phys s) D k2) = false;
  fr_frames : forall q, 32768 <= q < 1023 * 1024 -> copied s D q = true ->
    bit (pmem s) (MM_PAGE (source s D q)) = 1 /\ source s D q <> C /\ source s D q <> table (phys s) D 1022
}.

(** The new address space at [C], with the copy of page [q] at [f q]. *)
Record forked (s s' : mm) (D C : Z) (f : Z -> Z) : Prop := {
  fk_tables : tables_ok (phys s') (pmem s') C;
  fk_rw : dirs_rw (phys s') C;
  fk_shared : forall v, 0 <= v < 2 ^ 27 -> walk (phys s') C v = walk (phys s) D v;
  fk_private : forall v, 2 ^ 27 <= v < 4290772992 ->
    walk (phys s') C v =
      if copied s D (MM_PAGE v) then (fun x => mk_xlat (f (MM_PAGE v)) (x_rw x) (x_us x)) <$> walk (phys s) D v else None;
  fk_bytes : forall v, 2 ^ 27 <= v < 4290772992 -> copied s D (MM_PAGE v) = true -> vbyte (phys s') C v = vbyte (phys s) D v;
  fk_fresh : forall q, 32768 <= q < 1023 * 1024 -> copied s D q = true ->
    bit (pmem s) (MM_PAGE (f q)) = 0 /\ bit (pmem s') (MM_PAGE (f q)) = 1 /\
    forall i, 32 <= i < 1023 -> pte_p (pde (phys s') C i) = true -> table (phys s') C i <> f q;
  fk_inj : forall q q', 32768 <= q < 1023 * 1024 -> 32768 <= q' < 1023 * 1024 -> copied s D q = true -> copied s D q' = true ->
    f q = f q' -> q = q';
  fk_space : space_ok s' D;
  fk_parent : forall v, 0 <= v < 2 ^ 32 -> walk (phys s') D v = walk (phys s) D v;
  fk_memory : forall x, 0 <= x -> bit (pmem s) (MM_PAGE x) = 1 -> MM_PAGE x <> MM_PAGE C ->
    MM_PAGE x <> MM_PAGE (table (phys s) D 1022) -> phys s' x = phys s x;
  fk_bits : forall q, 0 <= q -> bit (pmem s) q = 1 -> bit (pmem s') q = 1
}.

Section Fork.
Context (proc_ptd : Z) (s : mm) (D C : Z) (Hready : fork_ready proc_ptd s D C).

(** The new directory is cleared, and the entries of the kernel are copied. *)
Lemma fork_prefix :
  exists t1 m1 t2 m2, vmemset (Z.to_nat (4 * MM_PT_ENTRIES)) C 0 s = Ok (tt, set_phys m1 (set_tlb t1 s)) /\
    vmemcpy (Z.to_nat (4 * MM_SHARED_PAGE_TABLES)) C D (set_phys m1 (set_tlb t1 s)) = Ok (tt, set_phys m2 (set_tlb t2 s)) /\
    space_ok (set_phys m2 (set_tlb t2 s)) D /\ (forall x, MM_PAGE x <> MM_PAGE C -> m2 x = phys s x) /\
    (forall i, 0 <= i < 32 -> pde m2 C i = pde (phys s) D i) /\ (forall i, 32 <= i < 1023 -> pde m2 C i = 0).
Proof using Hready.
  destruct Hready as [(Hs & Hon & _) HC HCu HCr [us Hw] _ _ _ _]; pose proof (sp_tables _ _ Hs) as Hok.
  pose proof (tb_dir _ _ _ Hok) as [HDa HDr]; assert (Ca := proj1 HC); assert (HDC : D <> C) by (destruct HC as (_ & ? & _); congruence).
  destruct (memset_page s D C C Hs HC) as (t1 & m1 & E1 & Hs1 & Hz & Ho); [lia|lia|done|done|eauto|].
  assert (Hd1 := fun j => data_pde (phys s) m1 D C (pmem s) Hok HC Ho j); assert (Hw1 := fun v => data_walk (phys s) m1 D C (pmem s) Hok HC Ho v).
  destruct (pg_ident _ _ (paged_mode _ _ Hs Hon)) as [usD HwD].
  destruct (vmemcpy_ok (Z.to_nat (4 * MM_SHARED_PAGE_TABLES)) (set_phys m1 (set_tlb t1 s)) D C C us D (mk_xlat D true usD) 0)
    as (t2 & m2 & E2 & Hs2 & Hm2); try done; try lia.
  { by apply (data_frame_ext (phys s)). }
  { cbn; by rewrite Hw1 by lia. }
  { cbn; by rewrite Hw1 by lia. }
  rewrite !Z.add_0_r, !u32_small in E2 by lia; cbn [phys set_phys x_frame] in Hm2.
  change (Z.of_nat (Z.to_nat (4 * MM_SHARED_PAGE_TABLES))) with 128 in Hm2; rewrite Z.add_0_r in Hm2.
  exists t1, m1, t2, m2; split_and!; [exact E1|exact E2|exact Hs2|..].
  - intros x Hx; rewrite Hm2; pose proof (page_aligned C x Ca) as Hp; rewrite <- (Ho x Hx).
    repeat (case_test; cbn); try done; exfalso; apply Hx, Hp; lia.
  - intros i Hi; rewrite <- Hd1 by lia; unfold pde, load32.
    assert (Hin : forall a, 0 <= a < 128 -> m2 (C + a) = m1 (D + a)).
    { intros a Ha; rewrite Hm2; replace (C + a - C) with a by lia; by tests. }
    rewrite <- !Z.add_assoc, !Hin by lia; done.
  - intros i Hi; unfold pde; rewrite (load32_ext m1 m2).
    + apply (zero_entry m1 D C); [by apply (data_frame_ext (phys s))|done|lia].
    + intros x Hx; rewrite Hm2; case_test; case_test; cbn; done || lia.
Qed.

(** What depends on the old address space is the same after these steps. *)
Section Prefix.
Context (m : mem) (Hm : forall x, MM_PAGE x <> MM_PAGE C -> m x = phys s x).

Lemma prefix_pde i : 0 <= i < 1024 -> pde m D i = pde (phys s) D i.
Proof using Hready Hm.
  destruct Hready as [(Hs & _) HC _ _ _ _ _ _ _]; by apply (data_pde (phys s) m D C (pmem s) (sp_tables _ _ Hs) HC Hm).
Qed.

Lemma prefix_walk v : 0 <= v < 2 ^ 32 -> walk m D v = walk (phys s) D v.
Proof using Hready Hm.
  destruct Hready as [(Hs & _) HC _ _ _ _ _ _ _]; by apply (data_walk (phys s) m D C (pmem s) (sp_tables _ _ Hs) HC Hm).
Qed.

Lemma prefix_word i k : 0 <= i < 1023 -> pte_p (pde (phys s) D i) = true -> 0 <= k < 1024 ->
  load32 m (table m D i + 4 * k) = load32 (phys s) (table (phys s) D i + 4 * k).
Proof using Hready Hm.
  intros Hi Hp Hk; unfold table; rewrite prefix_pde by lia; fold (table (phys s) D i).
  destruct Hready as [(Hs & _) HC _ _ _ _ _ _ _]; apply (data_word (phys s) m D C HC Hm); [|by apply HC|done].
  apply table_range, (tb_bytes _ _ _ (sp_tables _ _ Hs)).
Qed.

Lemma prefix_pte q : 32768 <= q < 1023 * 1024 -> pte_p (pde (phys s) D (q / 1024)) = true ->
  pte m D (q * MM_PAGE_SIZE) = pte (phys s) D (q * MM_PAGE_SIZE).
Proof using Hready Hm.
  intros Hq Hp; destruct (page_offsets q) as [E1 E2]; [lia|]; unfold pte; rewrite E1, E2.
  apply prefix_word; [Z.div_mod_to_equations; lia|done|apply Z.mod_pos_bound; lia].
Qed.

Context (t : Z -> option xlat).
Abbreviation s1 := (set_phys m (set_tlb t s)).

Lemma prefix_copied q : 32768 <= q < 1023 * 1024 -> copied s1 D q = copied s D q.
Proof using Hready Hm.
  intros Hq; unfold copied; change (private_area s1) with (private_area s); cbn [phys set_phys].
  rewrite prefix_pde by (Z.div_mod_to_equations; lia).
  destruct (pte_p (pde (phys s) D (q / 1024))) eqn:Ep; [by rewrite prefix_pte|done].
Qed.

Lemma prefix_source q : 32768 <= q < 1023 * 1024 -> copied s D q = true -> source s1 D q = source s D q.
Proof using Hready Hm.
  intros Hq; unfold copied, source; rewrite !andb_true_iff; intros [[[Hp _] _] _]; cbn [phys set_phys]; by rewrite prefix_pte.
Qed.

Lemma prefix_needed n : 0 <= n <= 991 -> needed s1 D 32 n = needed s D 32 n.
Proof using Hready Hm.
  intros Hn; apply Nat.le_antisymm; apply Nat.add_le_mono; apply seqZ_filter_le; intros x Hx Hp; apply list_elem_of_filter;
    (split; [|apply elem_of_seqZ; lia]); revert Hp; unfold has_table; cbn [phys set_phys]; rewrite ?prefix_pde, ?prefix_copied by lia; done.
Qed.
End Prefix.

(** The steps of [mm_clone_ptd]. *)
Lemma fork_pages :
  (1 + needed s D 32 990 <= free_pages (pmem s))%nat ->
  exists t1 m1 t2 m2 N f p t3 m3,
    vmemset (Z.to_nat (4 * MM_PT_ENTRIES)) C 0 s = Ok (tt, set_phys m1 (set_tlb t1 s)) /\
    mm_clone_ptd proc_ptd D C C (set_phys m1 (set_tlb t1 s)) = Ok (0, upd p m3 t3 s) /\
    space_ok (set_phys m2 (set_tlb t2 s)) D /\ (forall x, MM_PAGE x <> MM_PAGE C -> m2 x = phys s x) /\
    (forall i, 0 <= i < 32 -> pde m2 C i = pde m2 D i) /\
    copying (set_phys m2 (set_tlb t2 s)) D C [] 1023 N f p m3 t3 /\ pde m3 C 1023 = pte_create 1 0 0 C /\
    (if decide (needed s D 32 991 <= free_pages (pmem s))%nat then N = 1024 * 1023 else 32768 <= N < 1024 * 1023 /\ copied s D N = true).
Proof using Hready.
  intros Hroom; destruct fork_prefix as (t1 & m1 & t2 & m2 & E1 & E2 & Hs2 & Hm2 & Hsh & Hz).
  pose proof Hready as [(Hs & Hon & _) HC HCu HCr [us HwC] Hsp _ Hslots Hframes].
  set (s1 := set_phys m2 (set_tlb t2 s)) in *.
  assert (Hd := fun i => prefix_pde m2 Hm2 i); assert (Hw := fun v => prefix_walk m2 Hm2 v).
  assert (HT : table m2 D 1022 = table (phys s) D 1022) by (unfold table; by rewrite Hd).
  assert (Hres : pte_p (pde (phys s) D 1022) = true) by (by apply pg_resv, paged_mode).
  assert (HC1 : data_frame (phys s1) D C) by (by apply (data_frame_ext (phys s))).
  assert (Hneed := fun n => prefix_needed m2 Hm2 t2 n); fold s1 in Hneed.
  destruct (clone_rest proc_ptd s1 D C Hs2 Hon Hsp HC1 HCu) with (t := tlb s1) as (N & f & p & t3 & m3 & t4 & m4 & E3 & E4 & Hc & Hp & HN).
  { destruct Hslots as (k1 & k2 & K1 & K2 & Kne & F1 & F2); exists k1, k2; split_and!; try lia;
      unfold slot; cbn [phys s1 set_phys]; by rewrite prefix_word by (done || lia). }
  { intros q Hq Hcp; unfold s1 in Hcp |- *; rewrite prefix_copied in Hcp by done; rewrite prefix_source by done.
    cbn [phys pmem set_phys set_tlb]; rewrite HT; by apply Hframes. }
  { done. }
  { exists us; cbn [phys s1 set_phys]; by rewrite Hw by lia. }
  { rewrite upd_eta; exact Hs2. }
  { done. }
  { rewrite Hneed by lia; done. }
  exists t1, m1, t2, m2, N, f, p, t4, m4; split_and!; [exact E1| |exact Hs2|exact Hm2| |exact Hc|exact Hp|].
  - unfold mm_clone_ptd; erewrite (mm_bind_ok (fun _ => _)) by reflexivity; change (pg_enabled (set_phys m1 (set_tlb t1 s))) with (pg_enabled s).
    rewrite Hon; erewrite mm_bind_ok by reflexivity; rewrite (mm_bind_ok _ _ _ _ _ E2); erewrite mm_bind_ok by reflexivity.
    rewrite upd_eta in E3; fold s1; rewrite (mm_bind_ok _ _ _ _ _ E3); cbn [Z.eqb negb]; change (MM_PT_ENTRIES - 1) with 1023.
    by rewrite (mm_bind_ok _ _ _ _ _ E4).
  - intros i Hi; rewrite Hsh, Hd by lia; done.
  - rewrite Hneed in HN by lia; change (pmem s1) with (pmem s) in HN; case_decide; [done|].
    destruct HN as [HN1 HN2]; unfold s1 in HN2; rewrite prefix_copied in HN2 by (done || lia); done.
Qed.

Lemma copying_forked t m f p t' m' :
  space_ok (set_phys m (set_tlb t s)) D -> (forall x, MM_PAGE x <> MM_PAGE C -> m x = phys s x) ->
  (forall i, 0 <= i < 32 -> pde m C i = pde m D i) ->
  copying (set_phys m (set_tlb t s)) D C [] 1023 (1024 * 1023) f p m' t' -> pde m' C 1023 = pte_create 1 0 0 C ->
  forked s (upd p m' t' s) D C f.
Proof using Hready.
  intros Hs1 Hm Hsh Hc Hself; pose proof Hready as [(Hs & Hon & _) HC HCu HCr _ _ _ _ Hframes].
  set (s1 := set_phys m (set_tlb t s)) in *.
  assert (HC1 : data_frame (phys s1) D C) by (apply (data_frame_ext (phys s)); [by apply prefix_pde|done]).
  assert (Hw := fun v => prefix_walk m Hm v); assert (Hcop := fun q => prefix_copied m Hm t q); fold s1 in Hcop.
  assert (HT : table m D 1022 = table (phys s) D 1022) by (unfold table; by rewrite prefix_pde).
  assert (Hpage : forall v, 2 ^ 27 <= v < 4290772992 -> 32768 <= MM_PAGE v < 1023 * 1024).
  { unfold MM_PAGE, MM_PAGE_SIZE; intros; Z.div_mod_to_equations; lia. }
  assert (Hact : forall q, 32768 <= q < 1023 * 1024 -> copied s D q = true -> active s1 D 1023 (1024 * 1023) q = true).
  { intros q Hq Hcp; unfold active; rewrite Hcop, Hcp by done; by tests. }
  split; cbn [phys pmem upd set_pmem set_phys].
  - by apply (child_tables s1 D C Hs1 Hon HC1 HCu HCr (1024 * 1023) f p m' t').
  - by apply (child_rw s1 D C Hs1 Hon HC1 HCu HCr (1024 * 1023) f p m' t').
  - intros v Hv; rewrite (child_walk_shared s1 D C Hs1 Hon HC1 (1024 * 1023) f p m' t') by done; apply Hw; lia.
  - intros v Hv; rewrite (child_walk_private s1 D C (1024 * 1023) f p m' t'), Hcop by (try done; by apply Hpage); cbn [phys s1 set_phys]; by rewrite Hw by lia.
  - intros v Hv Hcp; rewrite (child_bytes s1 D C (1024 * 1023) f p m' t') by (try done; by rewrite Hcop by by apply Hpage).
    unfold vbyte; cbn [phys s1 set_phys]; rewrite Hw by lia; destruct (walk (phys s) D v) as [x|] eqn:Ex; [|done].
    destruct (Hframes _ (Hpage v Hv) Hcp) as (_ & S2 & _); destruct (copied_walk s D (MM_PAGE v)) as (rw & us & Ew);
      [pose proof (Hpage v Hv); lia|done|].
    assert (Ev : MM_PAGE v = MM_PAGE (MM_PAGE v * MM_PAGE_SIZE)) by (by rewrite page_of_base).
    rewrite (walk_page _ _ _ _ Ev), Ew in Ex; injection Ex as <-; cbn [x_frame].
    destruct (frame_range _ _ _ _ (tb_bytes _ _ _ (sp_tables _ _ Hs)) Ew) as [_ Hsa]; cbn [x_frame] in Hsa.
    assert (Ho : 0 <= v mod MM_PAGE_SIZE < 4096) by (apply Z.mod_pos_bound; done).
    apply Hm; rewrite (proj2 (page_offset _ _ Hsa Ho)); intros E; apply S2, page_eq; [done|apply HC|done].
  - intros q Hq Hcp; destruct Hc as [_ _ Hch _]; destruct (ch_fresh _ _ _ _ _ _ _ _ Hch q (Hact q Hq Hcp)) as (F1 & F2 & F3 & F4).
    split_and!; [done|done|]; intros i Hi; rewrite (ch_dir _ _ _ _ _ _ _ _ Hch) by done.
    destruct (active s1 D 1023 (1024 * 1023) (- i)) eqn:Ea; [|done]; intros _.
    unfold table; rewrite (ch_dir _ _ _ _ _ _ _ _ Hch), Ea by done.
    destruct (copy_entry_spec (pde (phys s1) D i) _ (proj1 (ch_fresh _ _ _ _ _ _ _ _ Hch _ Ea))) as (_ & _ & _ & ->).
    intros E; apply (ch_inj _ _ _ _ _ _ _ _ Hch) in E; [lia|done|auto].
  - intros q q' Hq Hq' Hcp Hcp'; destruct Hc as [_ _ Hch _]; apply (ch_inj _ _ _ _ _ _ _ _ Hch); auto.
  - apply Hc.
  - intros v Hv; destruct Hc as [_ Hk _ _]; rewrite (kp_walk _ _ _ _ _ _ Hk); [by apply Hw|done|intros k []%not_elem_of_nil].
  - intros x Hx Hu H1 H2; destruct Hc as [_ Hk _ _]; rewrite (kp_mem _ _ _ _ _ _ Hk); [by apply Hm|done|done|done|].
    cbn [phys s1 set_phys]; by rewrite HT.
  - intros q Hq Hu; destruct Hc as [_ Hk _ _]; by apply (kp_bits _ _ _ _ _ _ Hk).
Qed.
End Fork.

(** The address space and the stack of the new process. *)
Lemma clone_address_space_ok task new_task_id new_pid s :
  address_spaces_lock ∉ locks s ->
  exists s', mm_clone_address_space task new_task_id new_pid s = Ok (tt, s') /\
    phys s' = phys s /\ pmem s' = pmem s /\ tlb s' = tlb s /\ cr0 s' = cr0 s /\ cr3 s' = cr3 s /\ locks s' = locks s /\
    stack_allocator s' = <[new_task_id := let a := stack_allocator s task in mk_sa new_task_id 1 (lowest_page a) (highest_page a) new_pid]> (stack_allocator s) /\
    address_space s' = <[new_pid := let a := address_space s (pid s) in
      mk_as new_pid 1 (brk a) (end_data a) (mk_anchor (Some new_task_id) (Some new_task_id))]> (address_space s).
Proof.
  intros Hl; unfold mm_clone_address_space; erewrite mm_bind_ok by (by apply lock_ok); do 2 erewrite mm_bind_ok by reflexivity.
  erewrite unlock_ok by (exact Hl || reflexivity); eexists; split; [reflexivity|]; by destruct s.
Qed.

(** The calls of [mm_clone], and their effect. *)
Lemma mm_clone_steps proc_ptd s D new_pid new_task_id :
  let C := mm_get_ptd_for_pid proc_ptd new_pid in
  fork_ready proc_ptd s D C -> (1 + needed s D 32 990 <= free_pages (pmem s))%nat ->
  exists s' t m N f p t' m', mm_clone proc_ptd new_pid new_task_id s = Ok (C, s') /\
    phys s' = m' /\ pmem s' = p /\ tlb s' = t' /\ cr0 s' = cr0 s /\ cr3 s' = cr3 s /\ locks s' = locks s /\
    stack_allocator s' = <[new_task_id := let a := stack_allocator s (task_id s) in
      mk_sa new_task_id 1 (lowest_page a) (highest_page a) new_pid]> (stack_allocator s) /\
    address_space s' = <[new_pid := let a := address_space s (pid s) in
      mk_as new_pid 1 (brk a) (end_data a) (mk_anchor (Some new_task_id) (Some new_task_id))]> (address_space s) /\
    space_ok (set_phys m (set_tlb t s)) D /\ (forall x, MM_PAGE x <> MM_PAGE C -> m x = phys s x) /\
    (forall i, 0 <= i < 32 -> pde m C i = pde m D i) /\
    copying (set_phys m (set_tlb t s)) D C [] 1023 N f p m' t' /\ pde m' C 1023 = pte_create 1 0 0 C /\
    (if decide (needed s D 32 991 <= free_pages (pmem s))%nat then N = 1024 * 1023 else 32768 <= N < 1024 * 1023 /\ copied s D N = true).
Proof.
  intros C Hr Hroom.
  destruct (fork_pages proc_ptd s D C Hr Hroom) as (t1 & m1 & t2 & m2 & N & f & p & t3 & m3 & E1 & E2 & Hs2 & Hm2 & Hsh & Hc & Hself & HN).
  destruct (clone_address_space_ok (task_id s) new_task_id new_pid (upd p m3 t3 s)) as (s' & E3 & S1 & S2 & S3 & S4 & S5 & S6 & S7 & S8).
  { apply (fr_as _ _ _ _ Hr). }
  exists s', t2, m2, N, f, p, t3, m3; split_and!; try done; unfold mm_clone; fold C.
  rewrite (mm_bind_ok _ _ _ _ _ E1); erewrite mm_bind_ok by reflexivity.
  change (pid (set_phys m1 (set_tlb t1 s))) with (pid s); rewrite (proj2 (proj2 (fr_running _ _ _ _ Hr))).
  rewrite (mm_bind_ok _ _ _ _ _ E2); cbn [Z.eqb negb]; erewrite mm_bind_ok by reflexivity.
  change (task_id (upd p m3 t3 s)) with (task_id s); by rewrite (mm_bind_ok _ _ _ _ _ E3).
Qed.

(** C15. [mm_clone], if there are enough free pages for the page tables and the pages to
    be copied, and two free slots: it returns the new directory, which is well formed.
    Addresses of the kernel are translated as in the old address space; other pages are
    mapped exactly if they were and belong to the user or to the kernel stack of the
    current task.  These have the same rights and the same contents,
    in physical pages that were free and that no other page or page table of the new
    process uses.  No translation of the old process changes, and no memory that
    was in use but the new directory and the page table of the reserved slots; the locks
    that were taken are free again. *)
Theorem mm_clone_correct proc_ptd s D new_pid new_task_id :
  fork_ready proc_ptd s D (mm_get_ptd_for_pid proc_ptd new_pid) -> (needed s D 32 991 <= free_pages (pmem s))%nat ->
  exists s' f, mm_clone proc_ptd new_pid new_task_id s = Ok (mm_get_ptd_for_pid proc_ptd new_pid, s') /\
    forked s s' D (mm_get_ptd_for_pid proc_ptd new_pid) f /\ locks s' = locks s /\
    stack_allocator s' = <[new_task_id := let a := stack_allocator s (task_id s) in
      mk_sa new_task_id 1 (lowest_page a) (highest_page a) new_pid]> (stack_allocator s) /\
    address_space s' = <[new_pid := let a := address_space s (pid s) in
      mk_as new_pid 1 (brk a) (end_data a) (mk_anchor (Some new_task_id) (Some new_task_id))]> (address_space s).
Proof.
  intros Hr Hroom; pose proof Hr as [(Hs & Hon & _) _ _ _ _ _ _ _ _]; pose proof (needed_last s D Hs Hon).
  destruct (mm_clone_steps proc_ptd s D new_pid new_task_id Hr)
    as (s' & t & m & N & f & p & t' & m' & E & S1 & S2 & S3 & S4 & S5 & S6 & S7 & S8 & Hs1 & Hm & Hsh & Hc & Hself & HN); [lia|].
  rewrite decide_True in HN by done; subst N; exists s', f; split; [exact E|]; split; [|done].
  destruct (copying_forked proc_ptd s D _ Hr t m f p t' m' Hs1 Hm Hsh Hc Hself) as [F1 F1' F2 F3 F4 F5 F6 F7 F8 F9 F10].
  split; rewrite ?S1, ?S2; try done; by apply (space_same (upd p m' t' s)).
Qed.

(** C16. What [mm_clone] does when the memory is exhausted while the last page table, that
    of the kernel stack, is being filled: it ignores the error and returns the new
    directory as if it had succeeded, although a page that was to be copied, and is
    mapped in the old address space, is not mapped in the new one. *)
Theorem mm_clone_incomplete proc_ptd s D new_pid new_task_id :
  fork_ready proc_ptd s D (mm_get_ptd_for_pid proc_ptd new_pid) ->
  (needed s D 32 990 < free_pages (pmem s) < needed s D 32 991)%nat ->
  exists s' q, mm_clone proc_ptd new_pid new_task_id s = Ok (mm_get_ptd_for_pid proc_ptd new_pid, s') /\
    32768 <= q < 1023 * 1024 /\ copied s D q = true /\ walk (phys s) D (q * MM_PAGE_SIZE) <> None /\
    walk (phys s') (mm_get_ptd_for_pid proc_ptd new_pid) (q * MM_PAGE_SIZE) = None.
Proof.
  intros Hr Hroom; set (C := mm_get_ptd_for_pid proc_ptd new_pid) in *; pose proof Hr as [(Hs & Hon & _) HC HCu HCr _ _ _ _ _].
  destruct (mm_clone_steps proc_ptd s D new_pid new_task_id Hr)
    as (s' & t & m & N & f & p & t' & m' & E & S1 & _ & _ & _ & _ & _ & _ & _ & Hs1 & Hm & Hsh & Hc & Hself & HN); [lia|].
  rewrite decide_False in HN by lia; destruct HN as [HN Hcp]; exists s', N; split; [exact E|]; split; [lia|]; split; [done|]; split.
  - destruct (copied_walk s D N) as (rw & us & ->); [lia|done|done].
  - rewrite S1; apply (child_missing (set_phys m (set_tlb t s)) D C N f p m' t'); [done|done|lia|].
    by rewrite (prefix_copied proc_ptd s D C Hr m Hm t N) by lia.
Qed.

(** ** Examples *)

Lemma needed_le s D i n L1 L2 :
  (forall x, i <= x < i + n -> has_table s D x = true -> x ∈ L1) ->
  (forall x, 1024 * i <= x < 1024 * i + 1024 * n -> copied s D x = true -> x ∈ L2) -> (needed s D i n <= length L1 + length L2)%nat.
Proof. intros; apply Nat.add_le_mono; by apply seqZ_filter_le. Qed.

Lemma needed_ge s D i n L1 L2 : NoDup L1 -> NoDup L2 ->
  (forall x, x ∈ L1 -> i <= x < i + n /\ has_table s D x = true) ->
  (forall x, x ∈ L2 -> 1024 * i <= x < 1024 * i + 1024 * n /\ copied s D x = true) -> (length L1 + length L2 <= needed s D i n)%nat.
Proof. intros; apply Nat.add_le_mono; by apply seqZ_filter_ge. Qed.

(** The small machine, with a stack area for all tasks. *)
Definition ex_task (lowest highest : Z) : mm := set_stack_allocator (fun _ => mk_sa 0 1 lowest highest 0) ex_mm.

Lemma ex_table lo hi i : 32 <= i < 1023 -> has_table (ex_task lo hi) ex_dir i = true -> i = 256 \/ i = 1022.
Proof. intros Hi Ht; apply ex_present in Ht; lia. Qed.

Lemma ex_entry i b q : PTD_OFFSET (q * MM_PAGE_SIZE) = i -> table ex_mem ex_dir i = 4 * b ->
  pte ex_mem ex_dir (q * MM_PAGE_SIZE) = ex_word (b + PT_OFFSET (q * MM_PAGE_SIZE)).
Proof.
  intros Ei Et; unfold pte; rewrite Ei; fold (table ex_mem ex_dir i); rewrite Et, ex_load by (Z.div_mod_to_equations; lia).
  f_equal; Z.div_mod_to_equations; lia.
Qed.

Lemma ex_table_256 : table ex_mem ex_dir 256 = 4 * 526336.
Proof. unfold table; rewrite ex_pde by lia; done. Qed.

Lemma ex_table_1022 : table ex_mem ex_dir 1022 = 4 * 525312.
Proof. unfold table; rewrite ex_pde by lia; done. Qed.

Lemma ex_user_entry k : 0 <= k < 1024 -> pte_p (ex_word (526336 + k)) = true -> k = 0.
Proof. intros Hk; unfold ex_word; repeat (case_test; try lia); done. Qed.

Lemma ex_stack_entry k : 0 <= k < 1024 -> pte_p (ex_word (525312 + k)) = true -> k ∈ [1012; 1013; 1014; 1015].
Proof.
  intros Hk Hp; rewrite !elem_of_cons; assert (Hr : 1012 <= k <= 1015); [|lia].
  revert Hp; unfold ex_word; repeat (case_test; try lia); done.
Qed.

(** In the example, the page of the user is copied, and pages of the stack may be. *)
Lemma ex_copied lo hi q : 32768 <= q < 1023 * 1024 -> copied (ex_task lo hi) ex_dir q = true ->
  q = 262144 \/ (q ∈ [1047540; 1047541; 1047542; 1047543] /\ lo <= q * MM_PAGE_SIZE <= hi).
Proof.
  intros Hq; unfold copied; destruct (page_offsets q) as [E1 E2]; [lia|]; rewrite !andb_true_iff; intros [[[Ht He] _] Hd].
  pose proof (Z.mod_pos_bound q 1024 eq_refl) as Hr; pose proof (Z.div_mod q 1024 ltac:(lia)) as Hdm.
  change (phys (ex_task lo hi)) with ex_mem in He.
  apply (ex_table lo hi (q / 1024)) in Ht as [Hi|Hi]; [| |Z.div_mod_to_equations; lia]; rewrite Hi in E1.
  - left; rewrite (ex_entry _ _ _ E1 ex_table_256), E2 in He; apply ex_user_entry in He; lia.
  - right; rewrite (ex_entry _ _ _ E1 ex_table_1022), E2 in He; apply ex_stack_entry in He; [|lia].
    rewrite !elem_of_cons, elem_of_nil in He; rewrite !elem_of_cons, elem_of_nil; split; [lia|].
    revert Hd; unfold private_area, MM_PAGE_SIZE; change MM_VIRTUAL_TOS_USER with 4290215935; cbn [stack_allocator ex_task set_stack_allocator lowest_page highest_page].
    tests; rewrite andb_true_iff; lia.
Qed.

Lemma ex_source lo hi q : q = 262144 \/ q ∈ [1047540; 1047541; 1047542; 1047543] -> 768 * 4096 <= source (ex_task lo hi) ex_dir q < 900 * 4096.
Proof.
  unfold source; change (phys (ex_task lo hi)) with ex_mem; rewrite !elem_of_cons, elem_of_nil; intros [->|[->|[->|[->|[->|[]]]]]]; vm_compute; split; done.
Qed.

Lemma ex_fork lo hi : fork_ready ex_dir (ex_task lo hi) ex_dir (mm_get_ptd_for_pid ex_dir 1).
Proof.
  change (mm_get_ptd_for_pid ex_dir 1) with 1052672; split.
  - destruct ex_running as (H1 & H2 & H3); split; [by apply (space_same ex_mm)|by split].
  - split_and!; [done|done|]; intros i Hi [->|[->| ->]]%ex_present; try done; unfold table; rewrite ex_pde by lia; done.
  - by apply ex_bit.
  - done.
  - by exists false.
  - apply not_elem_of_nil.
  - apply not_elem_of_nil.
  - by exists 1016, 1017.
  - intros q Hq Hcp; change (pmem (ex_task lo hi)) with ex_phys; change (table (phys (ex_task lo hi)) ex_dir 1022) with (table ex_mem ex_dir 1022).
    rewrite ex_table_1022.
    assert (Hs : 768 * 4096 <= source (ex_task lo hi) ex_dir q < 900 * 4096) by (apply ex_source; destruct (ex_copied lo hi q Hq Hcp) as [?|[? _]]; auto).
    split_and!; [|lia|lia]; unfold MM_PAGE, MM_PAGE_SIZE; rewrite ex_bit by (Z.div_mod_to_equations; lia).
    rewrite (proj2 (Z.leb_gt _ _)); [done|Z.div_mod_to_equations; lia].
Qed.

(** Without a stack, the four free pages are enough. *)
Lemma ex_enough : (needed (ex_task 0 0) ex_dir 32 991 <= free_pages (pmem (ex_task 0 0)))%nat.
Proof.
  apply (Nat.le_trans _ 3); [apply (needed_le _ _ _ _ [256; 1022] [262144])|].
  - intros x Hx [->| ->]%ex_table; [left|right; left|lia].
  - intros x Hx [->|[_ ?]]%ex_copied; [left|unfold MM_PAGE_SIZE in *; lia|lia].
  - change (pmem (ex_task 0 0)) with ex_phys; rewrite ex_free; cbn; lia.
Qed.

Lemma mm_clone_correct_witness : exists s' f, mm_clone ex_dir 1 1 (ex_task 0 0) = Ok (mm_get_ptd_for_pid ex_dir 1, s') /\
  forked (ex_task 0 0) s' ex_dir (mm_get_ptd_for_pid ex_dir 1) f /\ vbyte (phys s') (mm_get_ptd_for_pid ex_dir 1) 1073741824 = 97.
Proof.
  destruct (mm_clone_correct ex_dir (ex_task 0 0) ex_dir 1 1 (ex_fork 0 0) ex_enough) as (s' & f & E & Hf & _).
  exists s', f; split; [exact E|]; split; [exact Hf|].
  rewrite (fk_bytes _ _ _ _ _ Hf 1073741824); [vm_compute; reflexivity|lia|vm_compute; reflexivity].
Defined.

(** With four pages of stack, they are not. *)
Abbreviation ex_stacked := (ex_task 4290723840 4290736128).

Lemma ex_short : (needed ex_stacked ex_dir 32 990 < free_pages (pmem ex_stacked) < needed ex_stacked ex_dir 32 991)%nat.
Proof.
  assert (Hlow : (needed ex_stacked ex_dir 32 990 <= 2)%nat).
  { apply (needed_le _ _ _ _ [256] [262144]).
    - intros x Hx [->| ->]%ex_table; [left|lia|lia].
    - intros x Hx [->|[Hin _]]%ex_copied; [left| |lia]; rewrite !elem_of_cons, elem_of_nil in Hin; lia. }
  assert (Hhigh : (7 <= needed ex_stacked ex_dir 32 991)%nat).
  { apply (needed_ge _ _ _ _ [256; 1022] [262144; 1047540; 1047541; 1047542; 1047543]); [by apply (bool_decide_unpack _)|by apply (bool_decide_unpack _)|..].
    - intros x Hx; rewrite !elem_of_cons, elem_of_nil in Hx; split; [lia|]; destruct Hx as [->|[->|[]]]; vm_compute; reflexivity.
    - intros x Hx; rewrite !elem_of_cons, elem_of_nil in Hx; split; [lia|].
      destruct Hx as [->|[->|[->|[->|[->|[]]]]]]; vm_compute; reflexivity. }
  change (pmem ex_stacked) with ex_phys; rewrite ex_free; cbn [length] in *; lia.
Qed.

Lemma mm_clone_incomplete_witness : exists s' q, mm_clone ex_dir 1 1 ex_stacked = Ok (mm_get_ptd_for_pid ex_dir 1, s') /\
  walk (phys ex_stacked) ex_dir (q * MM_PAGE_SIZE) <> None /\ walk (phys s') (mm_get_ptd_for_pid ex_dir 1) (q * MM_PAGE_SIZE) = None.
Proof.
  destruct (mm_clone_incomplete ex_dir ex_stacked ex_dir 1 1 (ex_fork _ _) ex_short) as (s' & q & E & _ & _ & H1 & H2).
  exists s', q; split; [exact E|]; split; [exact H1|exact H2].
Defined.
