(* ===== verification/Time.v ===== *)
(** * Dates ([lib/std/time.c])

    [mktime], [localtime] and [strftime], which the kernel links as well, to read
    its clock.  Division of the code is [Z.quot] and [Z.rem]; a negative index into
    one of the tables is a [Fault].  The format of [strftime] is a string that the
    call does not change. *)

From Stdlib Require Import Ascii String.
From S2P Require Import Prelude Memory.

(** The tests of the code on characters are [ascii] literals. *)
Definition char (c : ascii) : Z := Z.of_N (Ascii.N_of_ascii c).

Record tm := mk_tm {
  tm_sec : Z;
  tm_min : Z;
  tm_hour : Z;
  tm_mday : Z;
  tm_mon : Z;
  tm_year : Z;
  tm_wday : Z;
  tm_yday : Z;
  tm_isdst : Z;
}.

Definition days_per_month : list Z := [31; 28; 31; 30; 31; 30; 31; 31; 30; 31; 30; 31].
Definition short_weekday_names : list string := ["Sun"; "Mon"; "Tue"; "Wed"; "Thu"; "Fri"; "Sat"]%string.
Definition long_weekday_names : list string :=
  ["Sunday"; "Monday"; "Tuesday"; "Wednesday"; "Thursday"; "Friday"; "Saturday"]%string.
Definition short_month_names : list string :=
  ["Jan"; "Feb"; "Mar"; "Apr"; "May"; "Jun"; "Jul"; "Aug"; "Sep"; "Oct"; "Nov"; "Dec"]%string.
Definition long_month_names : list string :=
  ["January"; "February"; "March"; "April"; "May"; "June"; "July"; "August"; "September"; "October";
   "November"; "December"]%string.

(** An access to a table. *)
Definition entry {A} (l : list A) (i : Z) : res A := if i <? 0 then Fault else deref (l !! Z.to_nat i).

Definition is_leap_year (year : Z) : bool :=
  let act_year := s32 (year + 1900) in
  let is_leap_year := Z.rem act_year 4 =? 0 in
  if (Z.rem act_year 100 =? 0) && negb (Z.rem act_year 400 =? 0) then false else is_leap_year.

Definition days_in_month (month year : Z) : res Z :=
  days ← entry days_per_month month;
  Ok (if is_leap_year year && (month =? 1) then days + 1 else days).

(** One round of the loop that brings the day into its month. *)
Definition fix_mday (s : Z * Z * Z) : Z * Z * Z + res (Z * Z * Z) :=
  let '(mday, mon, year) := s in
  match days_in_month mon year with
  | Ok days =>
      if days <? mday then
        let mday := s32 (mday - days) in
        let mon := s32 (mon + 1) in
        inl (if 11 <? mon then (mday, 0, s32 (year + 1)) else (mday, mon, year))
      else inr (Ok s)
  | Panic => inr Panic | Fault => inr Fault | Hang => inr Hang
  end.

(** [for (i = 0; i < mon; i++) yday += days_in_month(i, year)] *)
Fixpoint add_months (n : nat) (i year yday : Z) : res Z :=
  match n with
  | O => Ok yday
  | S n => days ← days_in_month i year; add_months n (i + 1) year (s32 (yday + days))
  end.

(** The days from the epoch to the first of January. *)
Definition year_days (year : Z) : Z :=
  let days := u32 ((year - 70) * 365) in
  if 0 <? year then
    let days := u32 (days + (Z.quot (year - 71) 4 + 1)) in
    let days := u32 (days - (Z.quot (year - 71) 100 + 1)) in
    u32 (days + Z.quot (year + 229) 400)
  else days.

(** The structure afterwards and the value returned.  A month has at least 28 days,
    which bounds the rounds of the loop. *)
Definition mktime (time : tm) : res (tm * Z) :=
  let min := s32 (tm_min time + Z.quot (tm_sec time) 60) in
  let sec := Z.rem (tm_sec time) 60 in
  let hour := s32 (tm_hour time + Z.quot min 60) in
  let min := Z.rem min 60 in
  let mday := s32 (tm_mday time + Z.quot hour 24) in
  let hour := Z.rem hour 24 in
  let year := s32 (tm_year time + Z.quot (tm_mon time) 12) in
  let mon := Z.rem (tm_mon time) 12 in
  match loop (S (Z.to_nat (mday / 28))) fix_mday (mday, mon, year) with
  | None => Hang
  | Some r =>
      '(mday, mon, year) ← r;
      yday ← add_months (Z.to_nat mon) 0 year 0;
      let yday := s32 (yday + (mday - 1)) in
      let days := u32 (year_days year + yday) in
      let wday := (days mod 7 + 4) mod 7 in
      Ok (mk_tm sec min hour mday mon year wday yday (tm_isdst time),
          s32 (u32 (u32 (u32 (u32 (days * 24 * 60 * 60) + s32 (hour * 60 * 60)) + s32 (min * 60)) + sec)))
  end.

(** [__localtime] is the static structure, whose flag for daylight saving is never set. *)
Definition localtime (__localtime : tm) (timer : Z) : res tm :=
  '(t, _) ← mktime (mk_tm timer 0 0 1 0 70 (tm_wday __localtime) (tm_yday __localtime) (tm_isdst __localtime));
  Ok t.

(** ** Formatting *)

Section Format.
Context (s maxsize : Z) (timeptr : option tm).

(** The memory and the number of bytes written so far; functions also give their return value. *)
Notation out := (mem * Z)%type.

Definition append_char (achar : Z) (o : out) : out * Z :=
  let '(m, bytes_written) := o in
  if bytes_written <? u32 (maxsize - 1) then ((store8 m (s + bytes_written) achar, u32 (bytes_written + 1)), 0)
  else (o, -1).

Fixpoint append_string (astr : string) (o : out) : out * Z :=
  match astr with
  | EmptyString => (o, 0)
  | String c astr =>
      let '(m, bytes_written) := o in
      if bytes_written <? u32 (maxsize - 1) then
        append_string astr (store8 m (s + bytes_written) (char c), u32 (bytes_written + 1))
      else (o, -1)
  end.

(** The second loop of [append_dec], for the last [n] digits. *)
Fixpoint append_digits (n : nat) (number mask : Z) (significant space : bool) (o : out) : out * Z :=
  match n with
  | O => (o, 0)
  | S n =>
      let digit := (number / mask) mod 10 in
      let significant := significant || negb (digit =? 0) in
      let c := if negb significant && space then char " " else digit + char "0" in
      let '(m, bytes_written) := o in
      if bytes_written <? u32 (maxsize - 1) then
        append_digits n number (mask / 10) significant space (store8 m (s + bytes_written) c, u32 (bytes_written + 1))
      else (o, -1)
  end.

Definition append_dec (number : Z) (width : nat) (space : bool) (o : out) : out * Z :=
  append_digits width (u32 number) (Nat.iter (width - 1) (fun mask => u32 (mask * 10)) 1) false space o.

(** The switch of [do_strftime]; [again] is the recursive call. *)
Definition conversion (again : string -> out -> res (out * Z)) (t : tm) (c : ascii) (o : out) : res (out * Z) :=
  match c with
  | "a"%char => n ← entry short_weekday_names (Z.rem (tm_wday t) 7); Ok (append_string n o)
  | "A"%char => n ← entry long_weekday_names (Z.rem (tm_wday t) 7); Ok (append_string n o)
  | "b"%char | "h"%char => n ← entry short_month_names (Z.rem (tm_mon t) 12); Ok (append_string n o)
  | "B"%char => n ← entry long_month_names (Z.rem (tm_mon t) 12); Ok (append_string n o)
  | "c"%char => again "%a %b %e %T %Y"%string o
  | "C"%char => Ok (append_dec (Z.quot (s32 (tm_year t + 1900)) 100) 2 false o)
  | "d"%char => Ok (append_dec (tm_mday t) 2 false o)
  | "D"%char => again "%m/%d/%y"%string o
  | "e"%char => Ok (append_dec (tm_mday t) 2 true o)
  | "F"%char => again "%Y-%m-%d"%string o
  | "H"%char => Ok (append_dec (tm_hour t) 2 false o)
  | "I"%char => Ok (append_dec (Z.rem (s32 (tm_hour t + 11)) 12 + 1) 2 false o)
  | "j"%char => Ok (append_dec (tm_yday t + 1) 3 false o)
  | "m"%char => Ok (append_dec (tm_mon t + 1) 2 false o)
  | "M"%char => Ok (append_dec (tm_min t) 2 false o)
  | "n"%char => Ok (append_char 10 o)
  | "p"%char => Ok (append_string (if Z.rem (tm_hour t) 24 <? 12 then "AM"%string else "PM"%string) o)
  | "S"%char => Ok (append_dec (tm_sec t) 2 false o)
  | "r"%char => again "%I:%M:%S %p"%string o
  | "R"%char => again "%H:%M"%string o
  | "t"%char => Ok (append_char 9 o)
  | "T"%char | "X"%char => again "%H:%M:%S"%string o
  | "u"%char => Ok (append_dec (if tm_wday t =? 0 then 7 else tm_wday t) 1 false o)
  | "w"%char => Ok (append_dec (tm_wday t) 1 false o)
  | "x"%char => again "%m/%d/%y"%string o
  | "y"%char => Ok (append_dec (tm_year t) 2 false o)
  | "Y"%char => Ok (append_dec (tm_year t + 1900) 4 false o)
  | "z"%char | "Z"%char => Ok (o, 0)
  | "%"%char => Ok (append_char (char "%") o)
  | _ => Ok (o, -1)
  end.

(** The loop over the format. *)
Fixpoint format_loop (again : string -> out -> res (out * Z)) (t : tm) (format : string) (o : out) : res (out * Z) :=
  let continue format r := let '(o, rc) := r : out * Z in
    if rc =? -1 then Ok (o, -1) else format_loop again t format o in
  match format with
  | EmptyString => Ok (o, 0)
  | String c format =>
      if Ascii.eqb c "%" then
        match format with
        | EmptyString => Ok (o, -1)
        | String c format =>
            if Ascii.eqb c "0" || Ascii.eqb c "E" then
              match format with
              | EmptyString => Ok (o, -1)
              | String c format => r ← conversion again t c o; continue format r
              end
            else r ← conversion again t c o; continue format r
        end
      else continue format (append_char (char c) o)
  end.

(** The recursion is at most three calls deep. *)
Fixpoint do_strftime (depth : nat) (format : string) (o : out) : res (out * Z) :=
  match depth with
  | O => Hang
  | S depth =>
      if maxsize =? 0 then Ok (o, -1)
      else match timeptr with
           | None => Ok (o, -1)
           | Some t => format_loop (do_strftime depth) t format o
           end
  end.

Definition strftime (m : mem) (format : string) : res (mem * Z) :=
  '(o, rc) ← do_strftime 3 format (m, 0);
  let '(m, bytes_written) := o in
  if rc =? -1 then Ok (m, 0) else Ok (store8 m (s + bytes_written) 0, bytes_written).

End Format.
