(* ===== verification/TimeProofs.v ===== *)
(** * Dates: [mktime] and [localtime] against the Gregorian calendar

    The calendar is defined by counting days, year by year and month by month. *)

From S2P Require Import Prelude Memory Time.

(** ** The calendar *)

Definition leap (y : Z) : bool := (y mod 4 =? 0) && (negb (y mod 100 =? 0) || (y mod 400 =? 0)).

(** Months are counted from 0. *)
Definition month_length (y m : Z) : Z :=
  if m =? 1 then (if leap y then 29 else 28)
  else if bool_decide (m ∈ [3; 5; 8; 10]) then 30 else 31.

Definition year_length (y : Z) : Z := if leap y then 366 else 365.

(** The days of the [n] years from 1970 on, and of the first [n] months of a year. *)
Fixpoint days_of_years (n : nat) : Z :=
  match n with O => 0 | S n => days_of_years n + year_length (1970 + Z.of_nat n) end.
Fixpoint days_of_months (y : Z) (n : nat) : Z :=
  match n with O => 0 | S n => days_of_months y n + month_length y (Z.of_nat n) end.

(** The days from the epoch to a day of a month; the day may lie behind its month. *)
Definition day_number (y m d : Z) : Z :=
  days_of_years (Z.to_nat (y - 1970)) + days_of_months y (Z.to_nat m) + (d - 1).

(** The seconds from the epoch to a date; months behind December count in the
    following years, and all other fields may exceed their range as well. *)
Definition moment (t : tm) : Z :=
  day_number (1900 + tm_year t + tm_mon t / 12) (tm_mon t mod 12) (tm_mday t) * 86400
    + tm_hour t * 3600 + tm_min t * 60 + tm_sec t.

(** A date with all fields in their range. *)
Record normal (t : tm) : Prop := {
  n_sec : 0 <= tm_sec t < 60;
  n_min : 0 <= tm_min t < 60;
  n_hour : 0 <= tm_hour t < 24;
  n_mon : 0 <= tm_mon t < 12;
  n_mday : 1 <= tm_mday t <= month_length (1900 + tm_year t) (tm_mon t);
  n_year : 70 <= tm_year t;
}.

Lemma month_length_range y m : 28 <= month_length y m <= 31.
Proof. unfold month_length; repeat case_match; lia. Qed.

Lemma days_of_months_year y : days_of_months y 12 = year_length y.
Proof. cbn; unfold month_length, year_length; cbn; destruct (leap y); reflexivity. Qed.

Lemma days_of_months_mono y n k : (n <= k)%nat -> days_of_months y n <= days_of_months y k.
Proof. induction 1 as [|k _ IH]; [lia|]; cbn; pose proof (month_length_range y (Z.of_nat k)); lia. Qed.

Lemma days_of_years_bound n : 365 * Z.of_nat n <= days_of_years n.
Proof. induction n as [|n IH]; [done|]; cbn [days_of_years]; unfold year_length; case_match; lia. Qed.

Lemma days_of_years_mono n k : (n <= k)%nat -> days_of_years n <= days_of_years k.
Proof. induction 1 as [|k _ IH]; [lia|]; cbn; unfold year_length; case_match; lia. Qed.

Lemma days_of_years_step y : 1970 <= y ->
  days_of_years (Z.to_nat (y + 1 - 1970)) = days_of_years (Z.to_nat (y - 1970)) + year_length y.
Proof.
  intros; replace (Z.to_nat (y + 1 - 1970)) with (S (Z.to_nat (y - 1970))) by lia; cbn.
  by replace (1970 + Z.of_nat (Z.to_nat (y - 1970))) with y by lia.
Qed.

Lemma days_of_months_step y m : 0 <= m ->
  days_of_months y (Z.to_nat (m + 1)) = days_of_months y (Z.to_nat m) + month_length y m.
Proof. intros; replace (Z.to_nat (m + 1)) with (S (Z.to_nat m)) by lia; cbn; by rewrite Z2Nat.id. Qed.

(** The day after the last one of a month is the first one of the next. *)
Lemma next_month y m d : 1970 <= y -> 0 <= m < 12 ->
  day_number y m d =
  (if 11 <? m + 1 then day_number (y + 1) 0 (d - month_length y m) else day_number y (m + 1) (d - month_length y m)).
Proof.
  intros Hy Hm; unfold day_number; case_test.
  - assert (m = 11) as -> by lia; rewrite days_of_years_step, <- days_of_months_year by done.
    change (days_of_months (y + 1) (Z.to_nat 0)) with 0; change (days_of_months y 12) with (days_of_months y (Z.to_nat (11 + 1))).
    rewrite days_of_months_step by lia; lia.
  - rewrite days_of_months_step; lia.
Qed.

(** ** Every moment has one date *)

Lemma day_in_year y m d : 0 <= m < 12 -> 1 <= d <= month_length y m ->
  0 <= days_of_months y (Z.to_nat m) + (d - 1) < year_length y.
Proof.
  intros Hm Hd; pose proof (days_of_months_mono y 0 (Z.to_nat m) ltac:(lia)) as H0; cbn in H0.
  pose proof (days_of_months_mono y (Z.to_nat (m + 1)) 12 ltac:(lia)) as H.
  rewrite days_of_months_step, days_of_months_year in H by lia; lia.
Qed.

Lemma year_unique y m d y' m' d' :
  1970 <= y -> 1970 <= y' -> 0 <= m < 12 -> 0 <= m' < 12 ->
  1 <= d <= month_length y m -> 1 <= d' <= month_length y' m' ->
  day_number y m d = day_number y' m' d' -> y' <= y.
Proof.
  intros Hy Hy' Hm Hm' Hd Hd' E; destruct (decide (y' <= y)) as [|Hlt]; [done|exfalso].
  pose proof (day_in_year y m d Hm Hd); pose proof (day_in_year y' m' d' Hm' Hd').
  pose proof (days_of_years_mono (Z.to_nat (y + 1 - 1970)) (Z.to_nat (y' - 1970)) ltac:(lia)) as H1.
  rewrite days_of_years_step in H1 by done; unfold day_number in E; lia.
Qed.

Lemma month_unique y m d m' d' :
  0 <= m -> 0 <= m' -> 1 <= d <= month_length y m -> 1 <= d' ->
  day_number y m d = day_number y m' d' -> m' <= m.
Proof.
  intros Hm Hm' Hd Hd' E; destruct (decide (m' <= m)) as [|Hlt]; [done|exfalso].
  pose proof (days_of_months_mono y (Z.to_nat (m + 1)) (Z.to_nat m') ltac:(lia)) as H1.
  rewrite days_of_months_step in H1 by done; unfold day_number in E; lia.
Qed.

Lemma day_number_inj y m d y' m' d' :
  1970 <= y -> 1970 <= y' -> 0 <= m < 12 -> 0 <= m' < 12 ->
  1 <= d <= month_length y m -> 1 <= d' <= month_length y' m' ->
  day_number y m d = day_number y' m' d' -> y = y' /\ m = m' /\ d = d'.
Proof.
  intros Hy Hy' Hm Hm' Hd Hd' E.
  pose proof (year_unique _ _ _ _ _ _ Hy Hy' Hm Hm' Hd Hd' E); pose proof (year_unique _ _ _ _ _ _ Hy' Hy Hm' Hm Hd' Hd (eq_sym E)).
  assert (y' = y) as -> by lia.
  pose proof (month_unique y m d m' d' ltac:(lia) ltac:(lia) Hd ltac:(lia) E).
  pose proof (month_unique y m' d' m d ltac:(lia) ltac:(lia) Hd' ltac:(lia) (eq_sym E)).
  assert (m' = m) as -> by lia.
  unfold day_number in E; lia.
Qed.

Lemma normal_moment t : normal t ->
  moment t = day_number (1900 + tm_year t) (tm_mon t) (tm_mday t) * 86400 + tm_hour t * 3600 + tm_min t * 60 + tm_sec t.
Proof. intros []; unfold moment; rewrite Z.div_small, Z.mod_small, Z.add_0_r by done; done. Qed.

Lemma moment_inj t t' : normal t -> normal t' -> moment t = moment t' ->
  tm_sec t = tm_sec t' /\ tm_min t = tm_min t' /\ tm_hour t = tm_hour t' /\
  tm_mday t = tm_mday t' /\ tm_mon t = tm_mon t' /\ tm_year t = tm_year t'.
Proof.
  intros H H' E; rewrite !normal_moment in E by done; destruct H, H'.
  assert (day_number (1900 + tm_year t) (tm_mon t) (tm_mday t) = day_number (1900 + tm_year t') (tm_mon t') (tm_mday t')) as Ed by lia.
  apply day_number_inj in Ed; lia.
Qed.

(** ** The steps of [mktime] *)

Lemma leap_ok year : 0 <= year < 2 ^ 30 -> is_leap_year year = leap (1900 + year).
Proof.
  intros; unfold is_leap_year, leap; word; rewrite (Z.add_comm year), !Z.rem_mod_nonneg by lia.
  repeat case_test; cbn; try reflexivity; exfalso; Z.div_mod_to_equations; lia.
Qed.

Lemma days_in_month_ok month year : 0 <= month < 12 -> 0 <= year < 2 ^ 30 ->
  days_in_month month year = Ok (month_length (1900 + year) month).
Proof.
  intros Hm Hy; unfold days_in_month; rewrite leap_ok by done; unfold month_length.
  assert (month ∈ [0; 1; 2; 3; 4; 5; 6; 7; 8; 9; 10; 11]) as H by (rewrite !elem_of_cons; lia).
  repeat (apply elem_of_cons in H as [->|H]; [by destruct (leap _)|]); by apply elem_of_nil in H.
Qed.

Lemma fix_mday_ok mday mon year N :
  0 < mday -> 0 <= mon < 12 -> 70 <= year -> day_number (1900 + year) mon mday = N -> N < 2 ^ 24 ->
  exists mday' mon' year',
    loop (S (Z.to_nat (mday / 28))) fix_mday (mday, mon, year) = Some (Ok (mday', mon', year')) /\
    1 <= mday' <= month_length (1900 + year') mon' /\ 0 <= mon' < 12 /\ 70 <= year' < 2 ^ 30 /\
    day_number (1900 + year') mon' mday' = N.
Proof.
  intros Hd Hm Hy HN Hb.
  set (I := fun s : Z * Z * Z => let '(d, m, y) := s in
    0 < d /\ 0 <= m < 12 /\ 70 <= y /\ day_number (1900 + y) m d = N).
  assert (Hyear : forall d m y, I (d, m, y) -> d <= 2 ^ 24 /\ y < 2 ^ 30).
  { intros d m y (? & ? & ? & E); unfold day_number in E.
    pose proof (days_of_years_bound (Z.to_nat (1900 + y - 1970))).
    pose proof (days_of_months_mono (1900 + y) 0 (Z.to_nat m) ltac:(lia)) as Hm0; cbn in Hm0; lia. }
  destruct (loop_spec fix_mday I (fun r => exists d m y, r = Ok (d, m, y) /\ I (d, m, y) /\ d <= month_length (1900 + y) m)
    (fun s => Z.to_nat (s.1.1 / 28))) with (s := (mday, mon, year)) (fuel := S (Z.to_nat (mday / 28)))
    as (r & E & d & m & y & -> & HI & Hl); [|done|cbn; lia|].
  - intros [[d m] y] HI; destruct (Hyear _ _ _ HI) as [??]; destruct HI as (? & ? & ? & E); cbn [fix_mday].
    rewrite days_in_month_ok by lia; pose proof (month_length_range (1900 + y) m).
    case_test; [|by exists d, m, y].
    rewrite (s32_small (d - _)), (s32_small (m + 1)), (s32_small (y + 1)) by lia.
    rewrite next_month in E by lia; split.
    + case_test; unfold I; rewrite ?Z.add_assoc; split_and!; auto; lia.
    + case_test; cbn; Z.div_mod_to_equations; lia.
  - exists d, m, y; pose proof (Hyear _ _ _ HI); destruct HI as (? & ? & ? & ?); split_and!; auto; lia.
Qed.

Lemma add_months_ok n i year yday : 0 <= i -> i + Z.of_nat n <= 12 -> 0 <= year < 2 ^ 30 -> 0 <= yday <= i * 31 ->
  add_months n i year yday =
  Ok (yday + days_of_months (1900 + year) (Z.to_nat i + n) - days_of_months (1900 + year) (Z.to_nat i)).
Proof.
  revert i yday; induction n as [|n IH]; intros i yday Hi Hn Hy Hd; cbn [add_months].
  - rewrite Nat.add_0_r; f_equal; lia.
  - rewrite days_in_month_ok by lia; cbn [mbind res_bind]; pose proof (month_length_range (1900 + year) i).
    rewrite s32_small, IH by lia; replace (Z.to_nat (i + 1)) with (S (Z.to_nat i)) by lia; cbn [days_of_months Nat.add].
    rewrite Nat.add_succ_r, Z2Nat.id by done; f_equal; cbn; lia.
Qed.

(** From 1973 on, [year_days] is one day short in the first and second year after
    a leap year. *)
Definition day_lost (year : Z) : Z := if (72 <? year) && ((year mod 4 =? 1) || (year mod 4 =? 2)) then 1 else 0.

Lemma year_days_ok year : 70 <= year < 170 -> year_days year = days_of_years (Z.to_nat (year - 70)) - day_lost year.
Proof.
  intros Hy; assert (H : forallb (fun i => let y := 70 + Z.of_nat i in year_days y =? days_of_years i - day_lost y) (seq 0 100) = true)
    by (vm_compute; reflexivity).
  rewrite forallb_forall in H; specialize (H (Z.to_nat (year - 70)) ltac:(apply in_seq; lia)); cbn zeta in H.
  replace (70 + Z.of_nat (Z.to_nat (year - 70))) with year in H by lia; by apply Z.eqb_eq.
Qed.

Lemma day_number_add y m d k : day_number y m (d + k) = day_number y m d + k.
Proof. unfold day_number; lia. Qed.

Lemma day_number_range y m d : 1 <= d -> 365 * (y - 1970) + (d - 1) <= day_number y m d /\ 0 <= day_number y m d.
Proof.
  intros; unfold day_number; pose proof (days_of_years_bound (Z.to_nat (y - 1970))).
  pose proof (days_of_months_mono y 0 (Z.to_nat m) ltac:(lia)) as Hm; cbn in Hm; lia.
Qed.

(** Dates [mktime] is meant for: no field is negative, and the time fits. *)
Record sensible (t : tm) : Prop := {
  s_sec : 0 <= tm_sec t;
  s_min : 0 <= tm_min t;
  s_hour : 0 <= tm_hour t;
  s_mday : 1 <= tm_mday t;
  s_mon : 0 <= tm_mon t;
  s_year : 70 <= tm_year t;
  s_moment : moment t < 2 ^ 31;
}.

Lemma sensible_bounds t : sensible t ->
  tm_sec t < 2 ^ 31 /\ tm_min t < 2 ^ 26 /\ tm_hour t < 2 ^ 20 /\ tm_mday t <= 2 ^ 15 /\ tm_year t + tm_mon t / 12 < 140.
Proof.
  intros []; unfold moment in s_moment0.
  destruct (day_number_range (1900 + tm_year t + tm_mon t / 12) (tm_mon t mod 12) (tm_mday t)); [done|].
  assert (0 <= tm_mon t / 12) by (apply Z.div_pos; lia); lia.
Qed.

Lemma carry a b n : 0 <= a -> 0 <= b -> 0 < n -> a + b / n < 2 ^ 31 -> s32 (a + Z.quot b n) = a + b / n.
Proof. intros; rewrite Z.quot_div_nonneg by lia; apply s32_small; pose proof (Z.div_pos b n); lia. Qed.

(** The value [mktime] returns, from the fields of a normalized date. *)
Lemma seconds_ok days hour min sec :
  0 <= days -> 0 <= hour < 24 -> 0 <= min < 60 -> 0 <= sec < 60 -> days * 86400 + hour * 3600 + min * 60 + sec < 2 ^ 31 ->
  s32 (u32 (u32 (u32 (u32 (days * 24 * 60 * 60) + s32 (hour * 60 * 60)) + s32 (min * 60)) + sec)) =
  days * 86400 + hour * 3600 + min * 60 + sec.
Proof.
  intros; rewrite (s32_small (hour * 60 * 60)), (s32_small (min * 60)) by lia.
  rewrite (u32_small (days * 24 * 60 * 60)) by lia; rewrite (u32_small (_ + hour * 60 * 60)) by lia.
  rewrite (u32_small (_ + min * 60)) by lia; rewrite u32_small by lia; rewrite s32_small by lia; lia.
Qed.

(** The fields of a date after [mktime] and the value it returns. *)
Lemma mktime_ok t : sensible t ->
  exists t', normal t' /\ moment t' = moment t /\ tm_isdst t' = tm_isdst t /\
    tm_yday t' = days_of_months (1900 + tm_year t') (Z.to_nat (tm_mon t')) + (tm_mday t' - 1) /\
    tm_wday t' = (moment t / 86400 - day_lost (tm_year t') + 4) mod 7 /\
    mktime t = Ok (t', moment t - 86400 * day_lost (tm_year t')).
Proof.
  intros Hs; pose proof (sensible_bounds t Hs) as (? & ? & ? & ? & ?); destruct Hs as [Hsec Hmin Hhour Hmday Hmon Hyear Hfit].
  assert (0 <= tm_mon t / 12) by (apply Z.div_pos; lia).
  unfold mktime; rewrite (carry (tm_min t)) by (try done; Z.div_mod_to_equations; lia).
  set (min := tm_min t + tm_sec t / 60); assert (0 <= min < 2 ^ 27) by (subst min; Z.div_mod_to_equations; lia).
  rewrite (carry (tm_hour t)) by (try done; try lia; Z.div_mod_to_equations; lia).
  set (hour := tm_hour t + min / 60); assert (0 <= hour < 2 ^ 23) by (subst hour; Z.div_mod_to_equations; lia).
  rewrite (carry (tm_mday t)) by (try done; try lia; Z.div_mod_to_equations; lia).
  set (mday := tm_mday t + hour / 24); assert (1 <= mday < 2 ^ 20) by (subst mday; Z.div_mod_to_equations; lia).
  rewrite (carry (tm_year t)) by lia; rewrite !Z.rem_mod_nonneg by lia.
  set (N := day_number (1900 + tm_year t + tm_mon t / 12) (tm_mon t mod 12) mday).
  assert (E : moment t = N * 86400 + hour mod 24 * 3600 + min mod 60 * 60 + tm_sec t mod 60).
  { unfold moment, N, mday; rewrite day_number_add; unfold hour, min; Z.div_mod_to_equations; lia. }
  assert (0 <= N) by (apply day_number_range; lia).
  pose proof (Z.mod_pos_bound hour 24); pose proof (Z.mod_pos_bound min 60); pose proof (Z.mod_pos_bound (tm_sec t) 60).
  pose proof (Z.mod_pos_bound (tm_mon t) 12).
  destruct (fix_mday_ok mday (tm_mon t mod 12) (tm_year t + tm_mon t / 12) N) as (d & m & y & -> & Hd & Hm & Hy & EN);
    [lia..|by unfold N; rewrite Z.add_assoc|lia|].
  cbn [mbind res_bind]; rewrite add_months_ok by lia; clearbody N mday hour min.
  change (Z.to_nat 0) with 0%nat; cbn [mbind res_bind Nat.add days_of_months].
  destruct (day_number_range (1900 + y) m d); [lia|].
  pose proof (day_in_year (1900 + y) m d Hm Hd); assert (year_length (1900 + y) <= 366) by (unfold year_length; case_match; lia).
  rewrite Z.add_0_l, Z.sub_0_r, s32_small by lia.
  rewrite year_days_ok by lia; assert (Hl : day_lost y = 0 \/ day_lost y = 1 /\ 73 <= y) by (unfold day_lost; repeat case_test; cbn; lia).
  assert (365 * (y - 70) <= N) by lia; unfold day_number in EN; replace (1900 + y - 1970) with (y - 70) in EN by lia.
  replace (days_of_years (Z.to_nat (y - 70)) - day_lost y + (days_of_months (1900 + y) (Z.to_nat m) + (d - 1)))
    with (N - day_lost y) by lia.
  rewrite (u32_small (N - day_lost y)) by lia; rewrite seconds_ok by lia.
  match goal with |- context [Ok (?a, _)] => exists a end.
  cbn [tm_sec tm_min tm_hour tm_mday tm_mon tm_year tm_wday tm_yday tm_isdst]; split_and!; auto.
  - constructor; cbn; lia.
  - rewrite E; unfold moment; cbn [tm_sec tm_min tm_hour tm_mday tm_mon tm_year].
    rewrite Z.div_small, Z.mod_small by lia; unfold day_number; rewrite Z.add_0_r.
    replace (1900 + y - 1970) with (y - 70) by lia; lia.
  - replace (moment t / 86400) with N by (rewrite E; Z.div_mod_to_equations; lia).
    by rewrite Zplus_mod_idemp_l.
  - do 2 f_equal; lia.
Qed.

Lemma localtime_sensible timer a b c : 0 <= timer < 2 ^ 31 ->
  let t := mk_tm timer 0 0 1 0 70 a b c in moment t = timer /\ sensible t.
Proof.
  intros H t; assert (moment t = timer) as E.
  { unfold moment; cbn [t tm_sec tm_min tm_hour tm_mday tm_mon tm_year].
    change (day_number (1900 + 70 + 0 / 12) (0 mod 12) 1) with 0; lia. }
  split; [done|]; constructor; rewrite ?E; cbn; lia.
Qed.

(** Before the epoch, the remainders are negative and the loop does nothing. *)
Lemma localtime_negative l timer : - 2 ^ 31 <= timer < 2 ^ 31 -> timer < 0 -> exists w, localtime l timer =
  Ok (mk_tm (Z.rem timer 60) (Z.rem (Z.quot timer 60) 60) (Z.rem (Z.quot (Z.quot timer 60) 60) 24)
        (1 + Z.quot (Z.quot (Z.quot timer 60) 60) 24) 0 70 w (Z.quot (Z.quot (Z.quot timer 60) 60) 24) (tm_isdst l)).
Proof.
  intros H Hn; unfold localtime, mktime; cbn [tm_sec tm_min tm_hour tm_mday tm_mon tm_year tm_isdst].
  change (Z.quot 0 12) with 0; change (Z.rem 0 12) with 0; change (s32 (70 + 0)) with 70.
  rewrite (s32_small (0 + Z.quot timer 60)), !Z.add_0_l by (Z.quot_rem_to_equations; lia).
  rewrite (s32_small (Z.quot (Z.quot timer 60) 60)) by (Z.quot_rem_to_equations; lia).
  set (d := Z.quot (Z.quot (Z.quot timer 60) 60) 24).
  assert (- 2 ^ 30 < d <= 0) by (subst d; Z.quot_rem_to_equations; lia); rewrite (s32_small (1 + d)) by lia.
  cbn [loop fix_mday]; change (days_in_month 0 70) with (Ok (A := Z) 31); cbv beta iota; test_false; cbn [mbind res_bind].
  change (add_months (Z.to_nat 0) 0 70 0) with (Ok (A := Z) 0); cbn [mbind res_bind].
  rewrite (s32_small (0 + (1 + d - 1))) by lia; replace (0 + (1 + d - 1)) with d by lia; eauto.
Qed.

(** ** The theorems *)

(** C36. [mktime], for a date from the year 1970 on, the day of the month at least 1 and no other field negative,
    whose time fits into a [time_t] (all of them may lie behind their range): it returns, and has brought all fields into their range without
    changing the moment they stand for; the day of the year is right.  The value
    returned is that moment, in seconds since the epoch, except from 1973 on in the
    first and second year after a leap year: there it is one day too early. *)
Theorem mktime_correct t : sensible t ->
  exists t', normal t' /\ moment t' = moment t /\
    tm_yday t' = days_of_months (1900 + tm_year t') (Z.to_nat (tm_mon t')) + (tm_mday t' - 1) /\
    mktime t = Ok (t', moment t - 86400 * day_lost (tm_year t')).
Proof. intros (t' & ? & ? & _ & ? & _ & ?)%mktime_ok; eauto. Qed.

(** The last second of November 2026, a month given as 22 and an hour as 47, and one
    second more. *)
Lemma mktime_correct_witness :
  let t := mk_tm 60 59 47 29 22 125 0 0 0 in
  sensible t /\ mktime t = Ok (mk_tm 0 0 0 1 11 126 1 334 0, 1796083200 - 86400) /\
  exists t', normal t' /\ moment t' = moment t /\ mktime t = Ok (t', moment t - 86400 * day_lost (tm_year t')).
Proof.
  intros t; assert (Hs : sensible t) by (constructor; vm_compute; congruence).
  split; [exact Hs|]; split; [vm_compute; reflexivity|].
  destruct (mktime_correct t Hs) as (t' & Hn & Em & _ & E); exists t'; auto.
Defined.

(** C35. [localtime], for every [time_t].  For a time from the epoch on, it returns the date of the Gregorian calendar: the
    only one with fields in their range that is this number of seconds after the
    epoch.  The day of the year is right; the day of the week is that of the day
    before where [mktime] is wrong.  For a negative time, before the epoch, no field but
    the year and the month is brought into its range: it returns a day of January 1970 that is not positive or
    a time of the first of January that is not. *)
Theorem localtime_correct l timer : - 2 ^ 31 <= timer < 2 ^ 31 ->
  (timer < 0 -> exists w, localtime l timer =
     Ok (mk_tm (Z.rem timer 60) (Z.rem (Z.quot timer 60) 60) (Z.rem (Z.quot (Z.quot timer 60) 60) 24)
           (1 + Z.quot (Z.quot (Z.quot timer 60) 60) 24) 0 70 w (Z.quot (Z.quot (Z.quot timer 60) 60) 24) (tm_isdst l))) /\
  (0 <= timer -> exists t, localtime l timer = Ok t /\ normal t /\ moment t = timer /\
    tm_yday t = days_of_months (1900 + tm_year t) (Z.to_nat (tm_mon t)) + (tm_mday t - 1) /\
    tm_wday t = (timer / 86400 + 4 - day_lost (tm_year t)) mod 7 /\
    forall t', normal t' -> moment t' = timer ->
      tm_sec t = tm_sec t' /\ tm_min t = tm_min t' /\ tm_hour t = tm_hour t' /\
      tm_mday t = tm_mday t' /\ tm_mon t = tm_mon t' /\ tm_year t = tm_year t').
Proof.
  intros H; split; [by apply localtime_negative|intros H0].
  destruct (localtime_sensible timer (tm_wday l) (tm_yday l) (tm_isdst l)) as [Em Hs]; [lia|].
  destruct (mktime_ok _ Hs) as (t & Hn & Et & _ & Ey & Ew & E); rewrite Em in *.
  exists t; unfold localtime; rewrite E; cbn [mbind res_bind]; split_and!; auto.
  - rewrite Ew; f_equal; lia.
  - intros t' Hn' E'; apply moment_inj; congruence.
Qed.

Lemma localtime_correct_witness :
  let l := mk_tm 0 0 0 0 0 0 0 0 0 in
  localtime l 1798675199 = Ok (mk_tm 59 59 23 30 11 126 2 363 0) /\
  (exists t, localtime l 1798675199 = Ok t /\ normal t /\ moment t = 1798675199) /\
  exists w, localtime l (-90061) = Ok (mk_tm (-1) (-1) (-1) 0 0 70 w (-1) 0).
Proof.
  intros l; split; [vm_compute; reflexivity|]; split.
  - destruct (localtime_correct l 1798675199 ltac:(lia)) as [_ H]; destruct (H ltac:(lia)) as (t & E & Hn & Em & _); exists t; auto.
  - destruct (localtime_correct l (-90061) ltac:(lia)) as [H _]; exact (H ltac:(lia)).
Defined.

(** What [mktime] does outside of the dates of the theorem: the zeroth of March 2001 stays what it is, and the value for
    the first of January 1968, 731 days before the epoch, is a day too late. *)
Theorem mktime_corners :
  mktime (mk_tm 0 0 0 0 2 101 0 0 0) = Ok (mk_tm 0 0 0 0 2 101 2 58 0, 983318400 - 86400) /\
  mktime (mk_tm 0 0 0 1 0 68 0 0 0) = Ok (mk_tm 0 0 0 1 0 68 6 0 0, - 731 * 86400 + 86400).
Proof. by vm_compute. Qed.

