(* ===== verification/Strftime.v ===== *)
(** * Dates: [strftime]

    The text a format stands for, and the proof that [strftime] writes it into the
    buffer if it fits, and never writes behind the buffer. *)

From Stdlib Require Import Ascii String.
From S2P Require Import Prelude Memory Time.

(** ** The text of a format *)

Definition text (a : string) : list Z := char <$> list_ascii_of_string a.

(** The last [w] decimal digits of a number, and the same with leading blanks. *)
Fixpoint decimal (w : nat) (n : Z) : list Z :=
  match w with O => [] | S w => ((n / 10 ^ Z.of_nat w) mod 10 + char "0") :: decimal w n end.
Fixpoint blank_zeros (l : list Z) : list Z :=
  match l with c :: l => if c =? char "0" then char " " :: blank_zeros l else c :: l | [] => [] end.

Definition name (l : list string) (i : Z) : option (list Z) := text <$> l !! Z.to_nat i.

(** [sub] gives the text of another format. *)
Definition conversion_text (sub : string -> option (list Z)) (t : tm) (c : ascii) : option (list Z) :=
  match c with
  | "a"%char => name short_weekday_names (tm_wday t mod 7)
  | "A"%char => name long_weekday_names (tm_wday t mod 7)
  | "b"%char | "h"%char => name short_month_names (tm_mon t mod 12)
  | "B"%char => name long_month_names (tm_mon t mod 12)
  | "c"%char => sub "%a %b %e %T %Y"%string
  | "C"%char => Some (decimal 2 ((tm_year t + 1900) / 100))
  | "d"%char => Some (decimal 2 (tm_mday t))
  | "D"%char | "x"%char => sub "%m/%d/%y"%string
  | "e"%char => Some (blank_zeros (decimal 2 (tm_mday t)))
  | "F"%char => sub "%Y-%m-%d"%string
  | "H"%char => Some (decimal 2 (tm_hour t))
  | "I"%char => Some (decimal 2 ((tm_hour t + 11) mod 12 + 1))
  | "j"%char => Some (decimal 3 (tm_yday t + 1))
  | "m"%char => Some (decimal 2 (tm_mon t + 1))
  | "M"%char => Some (decimal 2 (tm_min t))
  | "n"%char => Some [10]
  | "p"%char => Some (text (if tm_hour t mod 24 <? 12 then "AM"%string else "PM"%string))
  | "S"%char => Some (decimal 2 (tm_sec t))
  | "r"%char => sub "%I:%M:%S %p"%string
  | "R"%char => sub "%H:%M"%string
  | "t"%char => Some [9]
  | "T"%char | "X"%char => sub "%H:%M:%S"%string
  | "u"%char => Some (decimal 1 (if tm_wday t =? 0 then 7 else tm_wday t))
  | "w"%char => Some (decimal 1 (tm_wday t))
  | "y"%char => Some (decimal 2 (tm_year t))
  | "Y"%char => Some (decimal 4 (tm_year t + 1900))
  | "z"%char | "Z"%char => Some []
  | "%"%char => Some (text "%"%string)
  | _ => None
  end.

(** The text of a format: a percent sign and a letter, possibly with a 0 or an E
    between them, stand for a part of the date, and all other characters for
    themselves.  [None] if a letter is unknown or missing. *)
Fixpoint format_text (sub : string -> option (list Z)) (t : tm) (format : string) : option (list Z) :=
  let conversion c format := x ← conversion_text sub t c; y ← format_text sub t format; Some (x ++ y) in
  match format with
  | EmptyString => Some []
  | String c format =>
      if Ascii.eqb c "%" then
        match format with
        | EmptyString => None
        | String c format =>
            if Ascii.eqb c "0" || Ascii.eqb c "E" then
              match format with EmptyString => None | String c format => conversion c format end
            else conversion c format
        end
      else y ← format_text sub t format; Some (char c :: y)
  end.

(** A letter can stand for another format, whose letters stand for formats without
    such letters. *)
Fixpoint expand (depth : nat) (t : tm) (format : string) : option (list Z) :=
  match depth with O => None | S depth => format_text (expand depth t) t format end.

(** Fields that are not negative and so small that adding 1900 does not overflow. *)
Definition fields_ok (t : tm) : Prop :=
  Forall (fun x => 0 <= x < 2 ^ 30)
    [tm_sec t; tm_min t; tm_hour t; tm_mday t; tm_mon t; tm_year t; tm_wday t; tm_yday t].

(** ** Writing bytes *)

Fixpoint write (m : mem) (a : Z) (l : list Z) : mem :=
  match l with [] => m | b :: l => write (store8 m a b) (a + 1) l end.

Lemma write_app m a l k : write m a (l ++ k) = write (write m a l) (a + Z.of_nat (length l)) k.
Proof.
  revert m a; induction l as [|b l IH]; intros m a; cbn [write app length]; [by rewrite Z.add_0_r|].
  rewrite IH; f_equal; lia.
Qed.

Lemma write_changes m a l : changes_only m (write m a l) a (a + Z.of_nat (length l)).
Proof.
  revert m a; induction l as [|b l IH]; intros m a x Hx; cbn [write length] in *; [done|].
  rewrite IH by lia; apply store8_other; lia.
Qed.

Lemma write_read m a l : bytes_at (write m a l) a (length l) = l.
Proof.
  revert m a; induction l as [|b l IH]; intros m a; [done|].
  change (length (b :: l)) with (1 + length l)%nat; rewrite bytes_at_app; cbn [write app].
  change (Z.of_nat 1) with 1; rewrite IH; cbn; f_equal.
  by rewrite Z.add_0_r, (write_changes _ (a + 1) l a), store8_same by lia.
Qed.

Section Emits.
Context (s maxsize : Z) (Hmax : 0 < maxsize < 2 ^ 32).

(** A part of [strftime] that writes given bytes behind those written so far, or
    fails if there are none to write or they do not fit. *)
Definition emits (f : mem * Z -> res (mem * Z * Z)) (e : option (list Z)) : Prop :=
  forall m n, 0 <= n < maxsize ->
    (exists l, e = Some l /\ n + Z.of_nat (length l) < maxsize /\ f (m, n) = Ok ((write m (s + n) l, n + Z.of_nat (length l)), 0)) \/
    ((forall l, e = Some l -> maxsize <= n + Z.of_nat (length l)) /\
     exists m' n', f (m, n) = Ok ((m', n'), -1) /\ changes_only m m' s (s + maxsize)).

Lemma emits_none (f : mem * Z -> res (mem * Z * Z)) : (forall o, f o = Ok (o, -1)) -> emits f None.
Proof. intros Hf m n Hn; right; split; [done|]; exists m, n; rewrite Hf; auto with mem. Qed.

Lemma emits_nil (f : mem * Z -> res (mem * Z * Z)) : (forall o, f o = Ok (o, 0)) -> emits f (Some []).
Proof. intros Hf m n Hn; left; exists []; cbn; rewrite Z.add_0_r, Hf; auto with lia. Qed.

(** What [append_char], [append_string] and [append_dec] have in common. *)
Fixpoint append_bytes (l : list Z) (o : mem * Z) : mem * Z * Z :=
  match l with
  | [] => (o, 0)
  | b :: l => let '(m, n) := o in
      if n <? u32 (maxsize - 1) then append_bytes l (store8 m (s + n) b, u32 (n + 1)) else (o, -1)
  end.

Lemma append_char_bytes c o : append_char s maxsize c o = append_bytes [c] o.
Proof. destruct o; cbn; by case_test. Qed.

Lemma append_string_bytes a o : append_string s maxsize a o = append_bytes (text a) o.
Proof. revert o; induction a as [|c a IH]; intros [m n]; cbn; [done|]; case_test; [apply IH|done]. Qed.

Lemma append_digits_bytes w n mask sig space o : (forall k, w = S k -> mask = 10 ^ Z.of_nat k) ->
  append_digits s maxsize w n mask sig space o =
  append_bytes (if space && negb sig then blank_zeros (decimal w n) else decimal w n) o.
Proof.
  revert mask sig o; induction w as [|w IH]; intros mask sig [m k] Hm; [by destruct space, sig|].
  rewrite (Hm w eq_refl); cbn [append_digits decimal].
  assert (Hnext : forall k', w = S k' -> 10 ^ Z.of_nat w / 10 = 10 ^ Z.of_nat k').
  { intros k' ->; rewrite Nat2Z.inj_succ, Z.pow_succ_r, Z.mul_comm by lia; by apply Z.div_mul. }
  set (d := (n / 10 ^ Z.of_nat w) mod 10); change (char "0") with 48.
  assert (blank_zeros (d + 48 :: decimal w n) = if d =? 0 then 32 :: blank_zeros (decimal w n) else d + 48 :: decimal w n) as ->.
  { cbn [blank_zeros]; change (char "0") with 48; repeat case_test; try lia; done. }
  destruct space, sig; cbn [negb andb orb]; try destruct (d =? 0); cbn [append_bytes negb andb orb];
    (case_test; [rewrite IH by done; done|done]).
Qed.

Lemma append_dec_bytes w n space o : (w <= 4)%nat -> 0 <= n < 2 ^ 32 ->
  append_dec s maxsize n w space o = append_bytes (if space then blank_zeros (decimal w n) else decimal w n) o.
Proof.
  intros Hw Hn; unfold append_dec; rewrite u32_small, append_digits_bytes, andb_true_r; [done| |done].
  intros k ->; do 4 (destruct k as [|k]; [vm_compute; reflexivity|]); lia.
Qed.

Lemma emits_bytes l : emits (fun o => Ok (append_bytes l o)) (Some l).
Proof.
  induction l as [|b l IH]; [by apply emits_nil|]; intros m n Hn; cbn [append_bytes length].
  rewrite u32_small by lia; case_test.
  - rewrite u32_small by lia; destruct (IH (store8 m (s + n) b) (n + 1) ltac:(lia)) as [(l' & [= <-] & Hl & ->)|(Hl & m' & n' & -> & Hc)].
    + left; exists (b :: l); cbn [length write]; rewrite Z.add_assoc; split_and!; [done|lia|]; do 3 f_equal; lia.
    + right; split; [intros l' [= <-]; specialize (Hl l eq_refl); cbn; lia|]; exists m', n'; split; [done|].
      intros x Hx; rewrite Hc, store8_other by lia; done.
  - right; split; [intros l' [= <-]; cbn; lia|]; exists m, n; auto with mem.
Qed.

Lemma emits_ext f g e : emits f e -> (forall o, g o = f o) -> emits g e.
Proof. intros H E m n Hn; rewrite E; auto. Qed.

(** One part after the other. *)
Lemma emits_seq f g e1 e2 : emits f e1 -> emits g e2 ->
  emits (fun o => r ← f o; let '(o, rc) := r : mem * Z * Z in if rc =? -1 then Ok (o, -1) else g o)
    (x ← e1; y ← e2; Some (x ++ y)).
Proof.
  intros Hf Hg m n Hn; destruct (Hf m n Hn) as [(x & -> & Hx & ->)|(Hx & m1 & n1 & -> & Hc)]; cbn -[write].
  - destruct (Hg (write m (s + n) x) (n + Z.of_nat (length x)) ltac:(lia)) as [(y & -> & Hy & ->)|(Hy & m' & n' & -> & Hc)].
    + left; exists (x ++ y); cbn; rewrite length_app, Nat2Z.inj_add, Z.add_assoc, write_app; split_and!; auto.
      by rewrite !Z.add_assoc.
    + right; split.
      * destruct e2 as [y|]; cbn; [|done]; intros l [= <-]; rewrite length_app; specialize (Hy y eq_refl); lia.
      * exists m', n'; split; [done|]; intros z Hz; rewrite Hc, (write_changes m (s + n) x) by lia; done.
  - right; split; [|by exists m1, n1].
    destruct e1 as [x|], e2 as [y|]; cbn; try done; intros l [= <-]; rewrite length_app; specialize (Hx x eq_refl); lia.
Qed.
(** ** Conversions *)

(** The format a letter stands for. *)
Definition subformats (c : ascii) : list string :=
  match c with
  | "c"%char => ["%a %b %e %T %Y"%string]
  | "D"%char | "x"%char => ["%m/%d/%y"%string]
  | "F"%char => ["%Y-%m-%d"%string]
  | "r"%char => ["%I:%M:%S %p"%string]
  | "R"%char => ["%H:%M"%string]
  | "T"%char | "X"%char => ["%H:%M:%S"%string]
  | _ => []
  end.

Lemma emits_name l i : 0 <= i < Z.of_nat (length l) ->
  emits (fun o => n ← entry l i; Ok (append_string s maxsize n o)) (name l i).
Proof.
  intros Hi; unfold entry, name; tests; destruct (lookup_lt_is_Some_2 l (Z.to_nat i)) as [a ->]; [lia|].
  eapply emits_ext; [apply emits_bytes|]; intros o; cbn; by rewrite append_string_bytes.
Qed.

Lemma emits_dec w n space : (w <= 4)%nat -> 0 <= n < 2 ^ 32 ->
  emits (fun o => Ok (append_dec s maxsize n w space o)) (Some (if space then blank_zeros (decimal w n) else decimal w n)).
Proof. intros; eapply emits_ext; [apply emits_bytes|]; intros o; cbn; by rewrite append_dec_bytes. Qed.

Lemma emits_string a : emits (fun o => Ok (append_string s maxsize a o)) (Some (text a)).
Proof. eapply emits_ext; [apply emits_bytes|]; intros o; cbn; by rewrite append_string_bytes. Qed.

Lemma emits_char c : emits (fun o => Ok (append_char s maxsize c o)) (Some [c]).
Proof. eapply emits_ext; [apply emits_bytes|]; intros o; cbn -[append_char append_bytes]; by rewrite append_char_bytes. Qed.

Lemma conversion_ok again sub t c : fields_ok t ->
  (forall f, f ∈ subformats c -> emits (again f) (sub f)) ->
  emits (conversion s maxsize again t c) (conversion_text sub t c).
Proof.
  intros Ht Hsub; unfold fields_ok in Ht; rewrite !list.Forall_cons in Ht.
  destruct Ht as (Hsec & Hmin & Hhour & Hmday & Hmon & Hyear & Hwday & Hyday & _).
  pose proof (Z.mod_pos_bound (tm_wday t) 7 ltac:(lia)); pose proof (Z.mod_pos_bound (tm_mon t) 12 ltac:(lia)).
  pose proof (Z.mod_pos_bound (tm_hour t + 11) 12 ltac:(lia)).
  assert (0 <= (tm_year t + 1900) / 100 < 2 ^ 30) by (Z.div_mod_to_equations; lia).
  assert (E1 : Z.rem (tm_wday t) 7 = tm_wday t mod 7) by (apply Z.rem_mod_nonneg; lia).
  assert (E2 : Z.rem (tm_mon t) 12 = tm_mon t mod 12) by (apply Z.rem_mod_nonneg; lia).
  assert (E3 : Z.quot (s32 (tm_year t + 1900)) 100 = (tm_year t + 1900) / 100) by (rewrite s32_small, Z.quot_div_nonneg; lia).
  assert (E4 : Z.rem (s32 (tm_hour t + 11)) 12 = (tm_hour t + 11) mod 12) by (rewrite s32_small, Z.rem_mod_nonneg; lia).
  assert (E5 : Z.rem (tm_hour t) 24 = tm_hour t mod 24) by (apply Z.rem_mod_nonneg; lia).
  destruct c as [[] [] [] [] [] [] [] []]; try (apply emits_none; reflexivity); try (apply Hsub; left);
    unfold conversion, conversion_text; rewrite ?E1, ?E2, ?E3, ?E4, ?E5;
    first [apply emits_name; cbn; lia | apply (emits_dec _ _ false); [lia|case_match; lia] | apply (emits_dec _ _ false); lia
          | apply (emits_dec _ _ true); lia | apply emits_string | apply emits_char | by apply emits_nil].
Qed.

(** ** Formats *)

Lemma format_loop_ok again sub t format : fields_ok t ->
  (forall c f, c ∈ list_ascii_of_string format -> f ∈ subformats c -> emits (again f) (sub f)) ->
  emits (format_loop s maxsize again t format) (format_text sub t format).
Proof.
  intros Ht; induction format as [format IH] using (induction_ltof1 _ String.length); unfold ltof in IH; intros Hsub.
  destruct format as [|c format]; [by apply emits_nil|]; cbn [format_loop format_text].
  destruct (Ascii.eqb c "%").
  - destruct format as [|c1 format]; [by apply emits_none|].
    destruct (Ascii.eqb c1 "0" || Ascii.eqb c1 "E").
    + destruct format as [|c2 format]; [by apply emits_none|].
      apply emits_seq; [apply conversion_ok; [done|]; intros f; apply Hsub; cbn; set_solver|].
      apply IH; [cbn; lia|]; intros c' f Hc; apply Hsub; cbn; set_solver.
    + apply emits_seq; [apply conversion_ok; [done|]; intros f; apply Hsub; cbn; set_solver|].
      apply IH; [cbn; lia|]; intros c' f Hc; apply Hsub; cbn; set_solver.
  - apply (emits_seq (fun o => Ok (append_char s maxsize (char c) o)) _ (Some [char c])); [apply emits_char|].
    apply IH; [cbn; lia|]; intros c' f Hc; apply Hsub; cbn; set_solver.
Qed.

Lemma do_strftime_step d t format : fields_ok t ->
  (forall c f, c ∈ list_ascii_of_string format -> f ∈ subformats c ->
     emits (do_strftime s maxsize (Some t) d f) (expand d t f)) ->
  emits (do_strftime s maxsize (Some t) (S d) format) (expand (S d) t format).
Proof. intros; cbn [do_strftime expand]; tests; by apply format_loop_ok. Qed.

(** Formats whose letters stand for no format, at any depth. *)
Definition flat (f : string) : bool := forallb (fun c => bool_decide (subformats c = [])) (list_ascii_of_string f).

Lemma flat_ok d t f : fields_ok t -> flat f = true -> emits (do_strftime s maxsize (Some t) (S d) f) (expand (S d) t f).
Proof.
  intros Ht Hf; apply do_strftime_step; [done|]; intros c g Hc Hg.
  unfold flat in Hf; rewrite forallb_forall in Hf; apply list_elem_of_In in Hc; apply Hf, bool_decide_eq_true in Hc.
  rewrite Hc in Hg; by apply elem_of_nil in Hg.
Qed.

Lemma subformats_level c f : f ∈ subformats c ->
  flat f = true \/ forall c' g, c' ∈ list_ascii_of_string f -> g ∈ subformats c' -> flat g = true.
Proof.
  intros Hf; destruct c as [[] [] [] [] [] [] [] []]; cbn in Hf; try (by apply elem_of_nil in Hf);
    apply list_elem_of_singleton in Hf as ->; first [left; reflexivity|right].
  intros c' g Hc Hg; cbn in Hc; repeat (apply elem_of_cons in Hc as [->|Hc];
    [cbn in Hg; try (by apply elem_of_nil in Hg); apply list_elem_of_singleton in Hg as ->; reflexivity|]).
  by apply elem_of_nil in Hc.
Qed.

(** Three levels are enough for every format. *)
Lemma do_strftime_ok t format : fields_ok t -> emits (do_strftime s maxsize (Some t) 3 format) (expand 3 t format).
Proof.
  intros Ht; apply do_strftime_step; [done|]; intros c f _ [Hf|Hf]%subformats_level; [by apply flat_ok|].
  apply do_strftime_step; [done|]; intros c' g Hc Hg; apply flat_ok; eauto.
Qed.
End Emits.

(** C37. [strftime], for a buffer of [maxsize] bytes and a date whose fields are not
    negative: it returns, and no byte outside the buffer is written, whatever the
    format.  If the text of the format fits into the buffer with a zero behind it, the
    buffer holds the text and the zero and the length of the text is returned;
    otherwise, and for an invalid format, the result is 0. *)
Theorem strftime_correct s maxsize t m format : 0 <= maxsize < 2 ^ 32 -> fields_ok t ->
  exists m' r, strftime s maxsize (Some t) m format = Ok (m', r) /\ changes_only m m' s (s + maxsize) /\
    match expand 3 t format with
    | Some l => if Z.of_nat (length l) <? maxsize then r = Z.of_nat (length l) /\ bytes_at m' s (length l + 1) = l ++ [0] else r = 0
    | None => r = 0
    end.
Proof.
  intros Hmax Ht; unfold strftime; destruct (decide (maxsize = 0)) as [->|].
  { exists m, 0; cbn -[expand]; split_and!; auto with mem; case_match; [case_test|]; lia. }
  destruct (do_strftime_ok s maxsize ltac:(lia) t format Ht m 0 ltac:(lia)) as [(l & -> & Hl & ->)|(Hl & m' & n' & -> & Hc)];
    cbn -[write expand].
  - rewrite Z.add_0_r, Z.add_0_l in *; tests.
    exists (store8 (write m s l) (s + Z.of_nat (length l)) 0), (Z.of_nat (length l)); split_and!; auto.
    + intros x Hx; rewrite store8_other by lia; apply write_changes; lia.
    + rewrite bytes_at_app; f_equal; [|by cbn; rewrite Z.add_0_r, store8_same].
      etransitivity; [|apply (write_read m s)]; apply bytes_at_ext; intros; apply store8_other; lia.
  - exists m', 0; split_and!; auto; destruct (expand 3 t format) as [l|]; [|done].
    specialize (Hl l eq_refl); by tests.
Qed.

Lemma strftime_correct_witness :
  let t := mk_tm 5 4 3 16 10 126 1 319 0 in
  fields_ok t /\ expand 3 t "%c"%string = Some (text "Mon Nov 16 03:04:05 2026"%string) /\
  exists m', strftime 100 25 (Some t) (fun _ => 7) "%c"%string = Ok (m', 24) /\ m' 124 = 0 /\ m' 125 = 7.
Proof.
  intros t; assert (Ht : fields_ok t) by (repeat constructor; vm_compute; congruence).
  assert (He : expand 3 t "%c"%string = Some (text "Mon Nov 16 03:04:05 2026"%string)) by (vm_compute; reflexivity).
  split; [exact Ht|]; split; [exact He|].
  destruct (strftime_correct 100 25 t (fun _ => 7) "%c"%string ltac:(lia) Ht) as (m' & r & E & Hc & Hr).
  rewrite He in Hr; destruct Hr as [-> Hb]; exists m'; split; [exact E|]; split; [|by rewrite Hc by lia].
  assert (Hl := lookup_bytes_at m' 100 25 24 ltac:(lia)).
  change (bytes_at m' 100 25 = text "Mon Nov 16 03:04:05 2026"%string ++ [0]) in Hb; rewrite Hb in Hl.
  change (Some 0 = Some (m' 124)) in Hl; by injection Hl.
Defined.
