(* ===== verification/Sched.v ===== *)
(** * The scheduler ([kernel/sched.c])

    Every CPU has sixteen ready queues, one per priority, an active runnable and a
    table of runnables, one per task. Runnables are linked through their own fields
    with the macros of [Lists]. *)

From S2P Require Import Prelude Lists.

Module Sched.
Import Lists.

Definition SMP_MAX_CPU : Z := 8.
Definition SMP_BSP_ID : Z := 0.
Definition PM_MAX_TASK : Z := 1024.
Definition SCHED_MAX_PRIO : Z := 15.
Definition HZ : Z := 100.
Definition SCHED_INIT_QUANTUM : Z := HZ / 10.

(** ** Data *)

(** [runnable_t] without its link fields. *)
Record runnable_t := mk_runnable { quantum : Z; priority : Z; reschedule : Z; valid : Z }.

(** A pointer into the table [runnable] is a pair of CPU and task. *)
Definition rptr := (Z * Z)%type.

(** The static variables of the module. Arrays are functions of the index; [queue]
    is a two-dimensional array with rows of [SCHED_MAX_PRIO + 2] entries, laid
    out row by row, so that an index outside of a row is an entry of another. *)
Record sched := mk_sched {
  runnable : rptr -> runnable_t;
  rlinks : links rptr;
  queue : Z -> anchor rptr;
  active : Z -> option rptr;
  cpu_used : Z -> Z;
  cpu_queue_length : Z -> Z;
  idle_task : Z -> Z;
  idle : Z -> Z;
  busy : Z -> Z;
  idle_last : Z -> Z;
  busy_last : Z -> Z;
  load : Z -> Z;
}.

(** The position of [queue[cpu][prio]], and [p - runnable[cpu]]. *)
Definition qindex (cpu prio : Z) : Z := cpu * (SCHED_MAX_PRIO + 2) + prio.
Definition rindex (cpu : Z) (p : rptr) : Z := (fst p - cpu) * PM_MAX_TASK + snd p.

(** Assignments to one of the variables. *)
Definition set_runnable (s : sched) (p : rptr) (r : runnable_t) : sched :=
  mk_sched (<[p := r]> (runnable s)) (rlinks s) (queue s) (active s) (cpu_used s) (cpu_queue_length s)
    (idle_task s) (idle s) (busy s) (idle_last s) (busy_last s) (load s).
Definition set_queue (s : sched) (i : Z) (lq : links rptr * anchor rptr) : sched :=
  mk_sched (runnable s) (fst lq) (<[i := snd lq]> (queue s)) (active s) (cpu_used s) (cpu_queue_length s)
    (idle_task s) (idle s) (busy s) (idle_last s) (busy_last s) (load s).
Definition set_active (s : sched) (cpu : Z) (p : option rptr) : sched :=
  mk_sched (runnable s) (rlinks s) (queue s) (<[cpu := p]> (active s)) (cpu_used s) (cpu_queue_length s)
    (idle_task s) (idle s) (busy s) (idle_last s) (busy_last s) (load s).
Definition set_used (s : sched) (cpu : Z) (v : Z) : sched :=
  mk_sched (runnable s) (rlinks s) (queue s) (active s) (<[cpu := v]> (cpu_used s)) (cpu_queue_length s)
    (idle_task s) (idle s) (busy s) (idle_last s) (busy_last s) (load s).
Definition set_length (s : sched) (cpu : Z) (v : Z) : sched :=
  mk_sched (runnable s) (rlinks s) (queue s) (active s) (cpu_used s) (<[cpu := v]> (cpu_queue_length s))
    (idle_task s) (idle s) (busy s) (idle_last s) (busy_last s) (load s).
Definition set_idle_task (s : sched) (cpu : Z) (v : Z) : sched :=
  mk_sched (runnable s) (rlinks s) (queue s) (active s) (cpu_used s) (cpu_queue_length s)
    (<[cpu := v]> (idle_task s)) (idle s) (busy s) (idle_last s) (busy_last s) (load s).
Definition set_ticks (s : sched) (cpu : Z) (i b : Z) : sched :=
  mk_sched (runnable s) (rlinks s) (queue s) (active s) (cpu_used s) (cpu_queue_length s)
    (idle_task s) (<[cpu := i]> (idle s)) (<[cpu := b]> (busy s)) (idle_last s) (busy_last s) (load s).
Definition set_load (s : sched) (cpu : Z) (i b l : Z) : sched :=
  mk_sched (runnable s) (rlinks s) (queue s) (active s) (cpu_used s) (cpu_queue_length s)
    (idle_task s) (idle s) (busy s) (<[cpu := i]> (idle_last s)) (<[cpu := b]> (busy_last s)) (<[cpu := l]> (load s)).

Definition set_quantum (r : runnable_t) (q : Z) : runnable_t := mk_runnable q (priority r) (reschedule r) (valid r).
Definition set_priority (r : runnable_t) (p : Z) : runnable_t := mk_runnable (quantum r) p (reschedule r) (valid r).
Definition set_reschedule (r : runnable_t) (f : Z) : runnable_t := mk_runnable (quantum r) (priority r) f (valid r).
Definition set_valid (r : runnable_t) (v : Z) : runnable_t := mk_runnable (quantum r) (priority r) (reschedule r) v.

(** ** Initialisation *)

(** [queue[cpu][i]] for [i <= SCHED_MAX_PRIO] is cleared, the additional entry at
    the end of each row is not; neither are the statistics. *)
Definition sched_init (s : sched) : sched :=
  let on_cpu cpu := (0 <=? cpu) && (cpu <? SMP_MAX_CPU) in
  let cleared (p : rptr) := on_cpu (fst p) && (1 <=? snd p) && (snd p <? PM_MAX_TASK) in
  let s := mk_sched
    (fun p => if cleared p then set_valid (runnable s p) 0 else runnable s p)
    (rlinks s)
    (fun i => if on_cpu (i / (SCHED_MAX_PRIO + 2)) && (i mod (SCHED_MAX_PRIO + 2) <=? SCHED_MAX_PRIO)
              then mk_anchor None None else queue s i)
    (fun cpu => if on_cpu cpu then None else active s cpu)
    (fun cpu => if on_cpu cpu then 0 else cpu_used s cpu)
    (fun cpu => if on_cpu cpu then 0 else cpu_queue_length s cpu)
    (idle_task s) (idle s) (busy s) (idle_last s) (busy_last s) (load s) in
  let s := set_used s SMP_BSP_ID 1 in
  let s := set_active s SMP_BSP_ID (Some (SMP_BSP_ID, 0)) in
  let s := set_runnable s (SMP_BSP_ID, 0) (mk_runnable SCHED_INIT_QUANTUM 0 0 1) in
  set_idle_task s SMP_BSP_ID 0.

Definition sched_add_idle_task (s : sched) (task_id cpuid : Z) : sched :=
  if (task_id <? 0) || (PM_MAX_TASK <=? task_id) then s
  else if (cpuid <? 0) || (SMP_MAX_CPU <=? cpuid) then s
  else
    let s :=
      match active s cpuid with
      | Some _ => s
      | None =>
          let s := set_used s cpuid 1 in
          let s := set_runnable s (cpuid, task_id) (mk_runnable SCHED_INIT_QUANTUM 0 0 1) in
          set_active s cpuid (Some (cpuid, task_id))
      end in
    set_idle_task s cpuid task_id.

(** ** Ready queues *)

Definition get_next_cpu (s : sched) : Z :=
  fst (fold_left (fun '(rc, queue_length) cpu =>
    if negb (cpu_used s cpu =? 0) && (cpu_queue_length s cpu <? queue_length)
    then (cpu, cpu_queue_length s cpu) else (rc, queue_length))
    (seqZ 1 (SMP_MAX_CPU - 1)) (SMP_BSP_ID, cpu_queue_length s SMP_BSP_ID)).

(** [me] is the CPU that executes the function, [sched_ipi] the kernel parameter;
    the second result tells whether the IPI is sent. *)
Definition sched_enqueue_cpu (me sched_ipi : Z) (s : sched) (task_id prio cpuid : Z) : res (sched * bool) :=
  if (task_id <? 0) || (PM_MAX_TASK <=? task_id) then Ok (s, false)
  else if SCHED_MAX_PRIO <? prio then Ok (s, false)
  else if (cpuid <? 0) || (SMP_MAX_CPU <=? cpuid) then Ok (s, false)
  else if cpu_used s cpuid =? 0 then Ok (s, false)
  else
    let p := (cpuid, task_id) in
    let s := set_runnable s p (mk_runnable SCHED_INIT_QUANTUM prio 0 1) in
    a ← deref (active s cpuid);
    let preempt := priority (runnable s a) <? prio in
    let s := if preempt then set_runnable s a (set_reschedule (runnable s a) 1) else s in
    let ipi := preempt && negb (cpuid =? me) && negb (sched_ipi =? 0) in
    let s := set_queue s (qindex cpuid prio) (LIST_ADD_END (rlinks s) (queue s (qindex cpuid prio)) p) in
    Ok (set_length s cpuid (u32 (cpu_queue_length s cpuid + 1)), ipi).

Definition sched_enqueue (me sched_ipi : Z) (s : sched) (task_id prio : Z) : res (sched * bool) :=
  sched_enqueue_cpu me sched_ipi s task_id prio (get_next_cpu s).

Definition sched_dequeue (me : Z) (s : sched) : res sched :=
  match active s me with
  | None => Panic
  | Some a =>
      if idle_task s me =? u32 (rindex me a) then Ok s
      else Ok (set_active (set_runnable s a (set_valid (runnable s a) 0)) me None)
  end.

Definition sched_yield (me : Z) (s : sched) : sched :=
  match active s me with
  | None => s
  | Some a => set_runnable s a (set_reschedule (runnable s a) 1)
  end.

Definition sched_get_queue_length (s : sched) (cpuid : Z) : Z :=
  if (cpuid <? 0) || (SMP_MAX_CPU <=? cpuid) then 0
  else if cpu_used s cpuid =? 0 then 0
  else s32 (cpu_queue_length s cpuid).

(** ** Scheduling *)

(** The [for] loop: the highest [i < n] whose queue is not empty, or -1. *)
Fixpoint sched_scan (s : sched) (cpuid : Z) (n : nat) : Z :=
  match n with
  | O => -1
  | S n => match head (queue s (qindex cpuid (Z.of_nat n))) with
           | Some _ => Z.of_nat n
           | None => sched_scan s cpuid n
           end
  end.

(** The active runnable goes back to the end of its queue. *)
Definition sched_requeue (s : sched) (cpuid : Z) (a : rptr) : sched :=
  let s := if (quantum (runnable s a) =? 0) && (0 <? priority (runnable s a))
           then set_runnable s a (set_priority (runnable s a) (priority (runnable s a) - 1)) else s in
  let i := qindex cpuid (priority (runnable s a)) in
  let s := set_queue s i (LIST_ADD_END (rlinks s) (queue s i) a) in
  let s := set_length s cpuid (u32 (cpu_queue_length s cpuid + 1)) in
  if quantum (runnable s a) =? 0 then set_runnable s a (set_quantum (runnable s a) SCHED_INIT_QUANTUM) else s.

(** The head of the highest queue that is not empty becomes active. *)
Definition sched_select (s : sched) (cpuid : Z) : res (sched * Z) :=
  let i := qindex cpuid (sched_scan s cpuid (Z.to_nat (SCHED_MAX_PRIO + 1))) in
  match head (queue s i) with
  | None => if cpu_used s cpuid =? 1 then Panic else Ok (s, -1)
  | Some h =>
      let s := set_active s cpuid (Some h) in
      lq ← deref (LIST_REMOVE_FRONT (rlinks s) (queue s i));
      let s := set_queue s i lq in
      let s := set_length s cpuid (u32 (cpu_queue_length s cpuid - 1)) in
      let s := set_runnable s h (set_reschedule (runnable s h) 0) in
      Ok (s, rindex cpuid h)
  end.

Definition sched_schedule (cpuid : Z) (s : sched) : res (sched * Z) :=
  match active s cpuid with
  | Some a =>
      if reschedule (runnable s a) =? 0 then Ok (s, rindex cpuid a)
      else sched_select (sched_requeue s cpuid a) cpuid
  | None => sched_select s cpuid
  end.

Definition sched_do_tick (cpuid : Z) (s : sched) : sched :=
  let s :=
    match active s cpuid with
    | Some a =>
        let s :=
          if negb (quantum (runnable s a) =? 0) then
            let r := set_quantum (runnable s a) (quantum (runnable s a) - 1) in
            set_runnable s a (if quantum r =? 0 then set_reschedule r 1 else r)
          else s in
        if decide (a = (cpuid, idle_task s cpuid)) then set_ticks s cpuid (u32 (idle s cpuid + 1)) (busy s cpuid)
        else set_ticks s cpuid (idle s cpuid) (u32 (busy s cpuid + 1))
    | None => set_ticks s cpuid (u32 (idle s cpuid + 1)) (busy s cpuid)
    end in
  if u32 (idle s cpuid + busy s cpuid) mod HZ =? 0 then
    let busy_ticks := u32 (busy s cpuid - busy_last s cpuid) in
    let idle_ticks := u32 (idle s cpuid - idle_last s cpuid) in
    let l := if negb (u32 (busy_ticks + idle_ticks) =? 0)
             then s32 (u32 (busy_ticks * 100) / u32 (busy_ticks + idle_ticks)) else 0 in
    set_load s cpuid (idle s cpuid) (busy s cpuid) l
  else s.

Definition sched_get_load (s : sched) (cpuid : Z) : Z :=
  if (cpuid <? 0) || (SMP_MAX_CPU <=? cpuid) then 0
  else if cpu_used s cpuid =? 1 then load s cpuid else 0.

End Sched.
