(* ===== verification/SchedProofs.v ===== *)
(** * The scheduler: ready queues, the choice of the next task, and fairness

    The queues of a CPU represent a function from priorities to lists of tasks. All
    operations keep that representation, the next task is the head of the highest
    queue that is not empty, and a task that waits gets its turn. *)

From S2P Require Import Prelude Lists Sched.

Module SchedProofs.
Import Lists Sched.

(** ** Representation *)

(** The tasks in the queues of a CPU, from priority 0 upwards. *)
Definition queues := Z -> list Z.
Definition ready (rq : queues) : list Z := seqZ 0 (SCHED_MAX_PRIO + 1) ≫= rq.

Definition push (rq : queues) (i t : Z) : queues := fun j => if j =? i then rq j ++ [t] else rq j.
Definition pop (rq : queues) (i : Z) : queues := fun j => if j =? i then List.tail (rq j) else rq j.

Definition is_prio (i : Z) : Prop := 0 <= i <= SCHED_MAX_PRIO.
Definition is_task (t : Z) : Prop := 0 <= t < PM_MAX_TASK.
Definition is_cpu (c : Z) : Prop := 0 <= c < SMP_MAX_CPU.

(** The nodes of the tasks [l] on CPU [c]. *)
Definition nodes (c : Z) (l : list Z) : list rptr := pair c <$> l.

(** The queues of [c] hold the tasks [rq]. *)
Record queues_ok (s : sched) (c : Z) (rq : queues) : Prop := {
  q_list : forall i, is_prio i -> dlist (rlinks s) (queue s (qindex c i)) (nodes c (rq i));
  q_task : forall i t, is_prio i -> t ∈ rq i ->
    is_task t /\ priority (runnable s (c, t)) = i /\ valid (runnable s (c, t)) = 1;
  q_nodup : NoDup (ready rq);
  q_length : cpu_queue_length s c = u32 (Z.of_nat (length (ready rq)));
}.

(** [t] may be active on [c]: a valid runnable that is in no queue. *)
Record active_ok (s : sched) (c : Z) (rq : queues) (t : Z) : Prop := {
  a_task : is_task t;
  a_prio : is_prio (priority (runnable s (c, t)));
  a_valid : valid (runnable s (c, t)) = 1;
  a_fresh : t ∉ ready rq;
}.

(** The invariant of a CPU in use. The idle task is active or waits with priority 0. *)
Record cpu_ok (s : sched) (c : Z) (rq : queues) : Prop := {
  c_used : cpu_used s c = 1;
  c_queues : queues_ok s c rq;
  c_active : forall a, active s c = Some a -> exists t, a = (c, t) /\ active_ok s c rq t;
  c_valid : forall t, is_task t -> valid (runnable s (c, t)) <> 0 -> active s c = Some (c, t) \/ t ∈ ready rq;
  c_idle : is_task (idle_task s c) /\ priority (runnable s (c, idle_task s c)) = 0 /\
    (active s c = Some (c, idle_task s c) \/ idle_task s c ∈ rq 0);
}.

(** ** Queues as lists *)

Lemma elem_of_ready rq t : t ∈ ready rq <-> exists i, is_prio i /\ t ∈ rq i.
Proof.
  unfold ready, is_prio; rewrite list_elem_of_bind; split.
  - intros (i & Ht & Hi%elem_of_seqZ); exists i; split; auto; lia.
  - intros (i & Hi & Ht); exists i; split; auto; apply elem_of_seqZ; lia.
Qed.

Lemma bind_seqZ_app {A} (f : Z -> list A) a n m :
  0 <= n -> 0 <= m -> seqZ a (n + m) ≫= f = (seqZ a n ≫= f) ++ (seqZ (a + n) m ≫= f).
Proof. intros; rewrite seqZ_app by lia; apply bind_app. Qed.

(** The ready list around the queue of priority [i]. *)
Lemma ready_split rq i : is_prio i ->
  exists l1 l2, ready rq = l1 ++ rq i ++ l2 /\
    forall rq', (forall j, j <> i -> rq' j = rq j) -> ready rq' = l1 ++ rq' i ++ l2.
Proof.
  intros [Hi1 Hi2]; exists (seqZ 0 i ≫= rq), (seqZ (i + 1) (SCHED_MAX_PRIO - i) ≫= rq).
  assert (forall f : queues, ready f = (seqZ 0 i ≫= f) ++ f i ++ (seqZ (i + 1) (SCHED_MAX_PRIO - i) ≫= f)) as E.
  { intros f; unfold ready; replace (SCHED_MAX_PRIO + 1) with (i + (1 + (SCHED_MAX_PRIO - i))) by lia.
    rewrite !bind_seqZ_app by lia; rewrite Z.add_0_l; do 2 f_equal.
    rewrite seqZ_cons by lia; cbn; by rewrite app_nil_r. }
  split; [apply E|]; intros rq' H; rewrite E; f_equal; [|f_equal];
    apply Forall_bind_ext, list.Forall_forall; intros j Hj%elem_of_seqZ; apply H; lia.
Qed.

Lemma push_ready rq i t : is_prio i -> ready (push rq i t) ≡ₚ t :: ready rq.
Proof.
  intros Hi; destruct (ready_split rq i Hi) as (l1 & l2 & -> & H); rewrite H.
  - unfold push; rewrite Z.eqb_refl; solve_Permutation.
  - intros j Hj; unfold push; by tests.
Qed.

Lemma pop_ready rq i t l : is_prio i -> rq i = t :: l -> ready rq ≡ₚ t :: ready (pop rq i).
Proof.
  intros Hi E; destruct (ready_split rq i Hi) as (l1 & l2 & -> & H); rewrite H.
  - unfold pop; rewrite Z.eqb_refl, E; cbn [List.tail]; solve_Permutation.
  - intros j Hj; unfold pop; by tests.
Qed.

Lemma nodes_app c l1 l2 : nodes c (l1 ++ l2) = nodes c l1 ++ nodes c l2.
Proof. apply fmap_app. Qed.

Lemma elem_of_nodes c c' t l : (c', t) ∈ nodes c l <-> c' = c /\ t ∈ l.
Proof. unfold nodes; rewrite list_elem_of_fmap; naive_solver. Qed.

(** Entries of different queues, and of different CPUs, are different. *)
Lemma qindex_inj c c' i j : is_prio i -> is_prio j -> qindex c i = qindex c' j -> c = c' /\ i = j.
Proof. unfold is_prio, qindex, SCHED_MAX_PRIO; lia. Qed.

(** ** What an operation on one CPU leaves alone *)

(** [s] and [s'] agree on all data of CPU [c]. *)
Record same_cpu (s s' : sched) (c : Z) : Prop := {
  sc_runnable : forall t, runnable s' (c, t) = runnable s (c, t);
  sc_links : forall t, rlinks s' (c, t) = rlinks s (c, t);
  sc_queue : forall i, is_prio i -> queue s' (qindex c i) = queue s (qindex c i);
  sc_active : active s' c = active s c;
  sc_used : cpu_used s' c = cpu_used s c;
  sc_length : cpu_queue_length s' c = cpu_queue_length s c;
  sc_idle : idle_task s' c = idle_task s c;
}.

Lemma same_cpu_trans s1 s2 s3 c : same_cpu s1 s2 c -> same_cpu s2 s3 c -> same_cpu s1 s3 c.
Proof.
  intros [R1 L1 Q1 A1 U1 N1 I1] [R2 L2 Q2 A2 U2 N2 I2]; split; intros; rewrite ?R2, ?L2, ?Q2, ?A2, ?U2, ?N2, ?I2; auto.
Qed.

Lemma queues_same s s' c rq : same_cpu s s' c -> queues_ok s c rq -> queues_ok s' c rq.
Proof.
  intros [HR HL HQ HA HU HN HI] [QL QT QN QQ]; split; auto.
  - intros i Hi; rewrite HQ by done; apply (dlist_ext (rlinks s)); auto.
    intros [c' t] [-> _]%elem_of_nodes; auto.
  - intros i t Hi Ht; rewrite HR; auto.
  - by rewrite HN.
Qed.

Lemma cpu_same s s' c rq : same_cpu s s' c -> cpu_ok s c rq -> cpu_ok s' c rq.
Proof.
  intros H [CU CQ CA CV CI]; pose proof H as [HR HL HQ HA HU HN HI]; split.
  - by rewrite HU.
  - eapply queues_same; eauto.
  - rewrite HA; intros a Ha; destruct (CA a Ha) as (t & -> & [AT AP AV AF]); exists t; split; auto.
    split; rewrite ?HR; auto.
  - intros t Ht; rewrite HR, HA; auto.
  - by rewrite HI, HR, HA.
Qed.

(** ** Adding to a queue and taking from one *)

Lemma queues_push s c rq i t :
  queues_ok s c rq -> is_prio i -> is_task t -> t ∉ ready rq ->
  priority (runnable s (c, t)) = i -> valid (runnable s (c, t)) = 1 ->
  let s' := set_length (set_queue s (qindex c i) (LIST_ADD_END (rlinks s) (queue s (qindex c i)) (c, t)))
              c (u32 (cpu_queue_length s c + 1)) in
  queues_ok s' c (push rq i t) /\ forall c', c' <> c -> same_cpu s s' c'.
Proof.
  intros [QL QT QN QQ] Hi Ht Hfresh Hp Hv s'.
  destruct (LIST_ADD_END (rlinks s) (queue s (qindex c i)) (c, t)) as [st q] eqn:E.
  assert (Hni : forall j, is_prio j -> t ∉ rq j) by (intros j Hj Hin; apply Hfresh, elem_of_ready; eauto).
  destruct (add_end_ok _ _ _ _ _ _ (QL i Hi) ltac:(rewrite elem_of_nodes; naive_solver) E) as [Hd Hframe].
  split; [split|].
  - intros j Hj; unfold s', push; cbn [rlinks queue set_length set_queue fst snd].
    destruct (Z.eqb_spec j i) as [->|Hne].
    + by rewrite fn_lookup_insert, nodes_app.
    + rewrite fn_lookup_insert_ne by (intros [_ ?]%qindex_inj; auto).
      apply (dlist_ext (rlinks s)); auto; intros [c' u] [-> Hu]%elem_of_nodes; apply Hframe.
      rewrite elem_of_app, elem_of_nodes, list_elem_of_singleton; intros [[_ Hx]|[= ->]]; [|naive_solver].
      destruct (QT i u Hi Hx) as (_ & <- & _), (QT j u Hj Hu) as (_ & Hj' & _); auto.
  - intros j u Hj; unfold push, s'; cbn; case_test; [subst j|auto].
    rewrite elem_of_app, list_elem_of_singleton; intros [Hu| ->]; auto.
  - rewrite push_ready by done; by apply list.NoDup_cons.
  - unfold s'; cbn; rewrite fn_lookup_insert, push_ready, QQ by done; cbn [length].
    unfold u32; rewrite Zplus_mod_idemp_l; f_equal; lia.
  - intros c' Hc; split; cbn; auto.
    + intros u; apply Hframe; rewrite elem_of_app, elem_of_nodes, list_elem_of_singleton; naive_solver.
    + intros j Hj; apply fn_lookup_insert_ne; intros [? _]%qindex_inj; auto.
    + by apply fn_lookup_insert_ne.
Qed.

(** Representation only depends on links, anchors, the length, and the priority and
    validity of the tasks that wait. *)
Lemma queues_change s s' c rq :
  rlinks s' = rlinks s -> queue s' = queue s -> cpu_queue_length s' c = cpu_queue_length s c ->
  (forall u, u ∈ ready rq -> priority (runnable s' (c, u)) = priority (runnable s (c, u)) /\
                             valid (runnable s' (c, u)) = valid (runnable s (c, u))) ->
  queues_ok s c rq -> queues_ok s' c rq.
Proof.
  intros HL HQ HN HR [QL QT QN QQ]; split; rewrite ?HL, ?HQ, ?HN; auto.
  intros i t Hi Ht; destruct (HR t) as [-> ->]; auto; apply elem_of_ready; eauto.
Qed.

(** The highest priority below [n] with a waiting task. *)
Fixpoint highest (rq : queues) (n : nat) : Z :=
  match n with
  | O => -1
  | S n => match rq (Z.of_nat n) with [] => highest rq n | _ => Z.of_nat n end
  end.

Lemma highest_spec rq n :
  (highest rq n = -1 /\ forall j, 0 <= j < Z.of_nat n -> rq j = []) \/
  (0 <= highest rq n < Z.of_nat n /\ rq (highest rq n) <> [] /\
   forall j, highest rq n < j < Z.of_nat n -> rq j = []).
Proof.
  induction n as [|n IH]; cbn [highest]; [left; split; [done|lia]|].
  destruct (rq (Z.of_nat n)) as [|t l] eqn:E.
  - destruct IH as [[-> IH]|(? & ? & IH)]; [left|right].
    + split; auto; intros j Hj; destruct (decide (j = Z.of_nat n)) as [->|]; auto; apply IH; lia.
    + split_and!; auto; try lia; intros j Hj; destruct (decide (j = Z.of_nat n)) as [->|]; auto; apply IH; lia.
  - right; rewrite E; split_and!; auto; lia.
Qed.

Lemma scan_highest s c rq n :
  queues_ok s c rq -> Z.of_nat n <= SCHED_MAX_PRIO + 1 -> sched_scan s c n = highest rq n.
Proof.
  intros Hq; induction n as [|n IH]; intros Hn; cbn [sched_scan highest]; [done|].
  rewrite (dl_head _ _ _ (q_list _ _ _ Hq (Z.of_nat n) ltac:(unfold is_prio; lia))).
  destruct (rq (Z.of_nat n)); cbn; [apply IH; lia|done].
Qed.

(** The highest waiting task. *)
Lemma highest_ready rq :
  ready rq <> [] -> exists i t l, highest rq 16 = i /\ is_prio i /\ rq i = t :: l /\ forall j, i < j <= SCHED_MAX_PRIO -> rq j = [].
Proof.
  intros Hr; destruct (highest_spec rq 16) as [[_ H]|(Hi & Hne & H)].
  - destruct Hr; apply elem_of_nil_inv; intros t (i & Hi & Ht)%elem_of_ready.
    unfold is_prio, SCHED_MAX_PRIO in Hi; rewrite H in Ht by lia; by apply not_elem_of_nil in Ht.
  - destruct (rq (highest rq 16)) as [|t l] eqn:E; [done|]; exists (highest rq 16), t, l.
    unfold is_prio, SCHED_MAX_PRIO; split_and!; auto; try lia; intros; apply H; lia.
Qed.

(** Effects of [sched_select] on a CPU with waiting tasks. *)
Record selects (s : sched) (c : Z) (rq : queues) (i t : Z) (s' : sched) : Prop := {
  sel_queues : queues_ok s' c (pop rq i);
  sel_runnable : runnable s' = <[(c, t) := set_reschedule (runnable s (c, t)) 0]> (runnable s);
  sel_active : active s' c = Some (c, t);
  sel_used : cpu_used s' = cpu_used s;
  sel_idle : idle_task s' = idle_task s;
  sel_others : forall c', c' <> c -> same_cpu s s' c';
}.

Lemma queues_pop s c rq i t l st q :
  queues_ok s c rq -> is_prio i -> rq i = t :: l ->
  LIST_REMOVE_FRONT (rlinks s) (queue s (qindex c i)) = Some (st, q) ->
  dlist st q (nodes c l) -> (forall y, y ∉ nodes c l -> st y = rlinks s y) ->
  queues_ok (set_length (set_queue s (qindex c i) (st, q)) c (u32 (cpu_queue_length s c - 1))) c (pop rq i).
Proof.
  intros [QL QT QN QQ] Hi E _ Hd Hframe; pose proof (pop_ready rq i t l Hi E) as Hp; split.
  - intros j Hj; unfold pop; cbn [rlinks queue set_length set_queue fst snd].
    destruct (Z.eqb_spec j i) as [->|Hne]; [by rewrite fn_lookup_insert, E|].
    rewrite fn_lookup_insert_ne by (intros [_ ?]%qindex_inj; auto).
    apply (dlist_ext (rlinks s)); auto; intros [c' u] [-> Hu]%elem_of_nodes; apply Hframe.
    intros [_ Hx]%elem_of_nodes; assert (Hx' : u ∈ rq i) by (rewrite E; by right).
    destruct (QT i u Hi Hx') as (_ & <- & _), (QT j u Hj Hu) as (_ & Hj' & _); auto.
  - intros j u Hj; unfold pop; cbn; case_test; [subst j|auto].
    rewrite E; cbn; intros Hu; apply QT; auto; rewrite E; by right.
  - rewrite Hp in QN; by apply list.NoDup_cons in QN as [_ QN].
  - cbn; rewrite fn_lookup_insert, QQ, Hp; cbn [length]; unfold u32; rewrite Zminus_mod_idemp_l; f_equal; lia.
Qed.

Lemma select_ok s c rq :
  queues_ok s c rq -> ready rq <> [] ->
  exists i t l s', is_prio i /\ rq i = t :: l /\ (forall j, i < j <= SCHED_MAX_PRIO -> rq j = []) /\
    sched_select s c = Ok (s', t) /\ selects s c rq i t s'.
Proof.
  intros Hq Hr; destruct (highest_ready rq Hr) as (i & t & l & Hh & Hi & E & Hmax).
  exists i, t, l; unfold sched_select; rewrite (scan_highest s c rq) by (auto; unfold SCHED_MAX_PRIO; lia).
  change (Z.to_nat (SCHED_MAX_PRIO + 1)) with 16%nat; rewrite Hh.
  pose proof (q_list _ _ _ Hq i Hi) as Hd; rewrite E in Hd; change (nodes c (t :: l)) with ((c, t) :: nodes c l) in Hd.
  pose proof (dl_head _ _ _ Hd) as Hhd; destruct (remove_front_ok _ _ _ _ Hd) as (st & q & Er & Hd' & Hframe).
  rewrite Hhd; cbn [first_or set_active rlinks queue]; rewrite Er; cbn [deref mbind res_bind].
  unfold rindex; cbn [fst snd]; rewrite Z.sub_diag; cbn [Z.mul Z.add].
  eexists; split_and!; [done|done|done|done|]; split; cbn; auto; [|by rewrite fn_lookup_insert|].
  - eapply queues_change; [..|exact (queues_pop s c rq i t l st q Hq Hi E Er Hd' Hframe)]; [done..|]; cbn.
    intros u _; destruct (decide (u = t)) as [->|]; [by rewrite fn_lookup_insert|by rewrite fn_lookup_insert_ne by congruence].
  - intros c' Hc; split; cbn; auto.
    + intros u; rewrite fn_lookup_insert_ne by congruence; done.
    + intros u; apply Hframe; rewrite elem_of_nodes; naive_solver.
    + intros j Hj; rewrite fn_lookup_insert_ne; [done|]; intros [? _]%qindex_inj; auto.
    + by rewrite fn_lookup_insert_ne.
    + by rewrite fn_lookup_insert_ne.
Qed.


(** ** Scheduling *)

(** The priority with which a preempted runnable is queued. *)
Definition demoted (r : runnable_t) : Z :=
  if (quantum r =? 0) && (0 <? priority r) then priority r - 1 else priority r.

Definition refreshed (r : runnable_t) : runnable_t :=
  mk_runnable (if quantum r =? 0 then SCHED_INIT_QUANTUM else quantum r) (demoted r) (reschedule r) (valid r).

Lemma demoted_prio r : is_prio (priority r) -> is_prio (demoted r).
Proof. unfold is_prio, demoted; repeat case_test; cbn; lia. Qed.

Record requeues (s : sched) (c : Z) (rq : queues) (t : Z) (s' : sched) : Prop := {
  req_queues : queues_ok s' c (push rq (demoted (runnable s (c, t))) t);
  req_runnable : forall p, runnable s' p = if decide (p = (c, t)) then refreshed (runnable s (c, t)) else runnable s p;
  req_active : active s' = active s;
  req_used : cpu_used s' = cpu_used s;
  req_idle : idle_task s' = idle_task s;
  req_others : forall c', c' <> c -> same_cpu s s' c';
}.

(** An assignment to a runnable of [c] leaves the other CPUs alone. *)
Lemma set_runnable_same s c t r c' : c' <> c -> same_cpu s (set_runnable s (c, t) r) c'.
Proof. intros; split; cbn; auto; intros; rewrite fn_lookup_insert_ne; congruence. Qed.

Lemma requeue_ok s c rq t :
  queues_ok s c rq -> active_ok s c rq t -> requeues s c rq t (sched_requeue s c (c, t)).
Proof.
  intros Hq [AT AP AV AF]; unfold sched_requeue.
  set (r := runnable s (c, t)) in *.
  set (s1 := if (quantum r =? 0) && (0 <? priority r) then set_runnable s (c, t) (set_priority r (priority r - 1)) else s).
  assert (E1 : forall p, runnable s1 p = if decide (p = (c, t)) then set_priority r (demoted r) else runnable s p).
  { intros p; unfold s1, demoted; case_match; cbn; case_decide; subst; rewrite ?fn_lookup_insert; auto.
    - by rewrite fn_lookup_insert_ne.
    - unfold r; by destruct (runnable s (c, t)). }
  assert (Hq1 : queues_ok s1 c rq).
  { apply (queues_change s); [by unfold s1; case_match|by unfold s1; case_match|by unfold s1; case_match| |done].
    intros u Hu; rewrite E1, decide_False; auto; congruence. }
  assert (Hs1 : rlinks s1 = rlinks s /\ queue s1 = queue s /\ active s1 = active s /\ cpu_used s1 = cpu_used s /\
    cpu_queue_length s1 = cpu_queue_length s /\ idle_task s1 = idle_task s) by (unfold s1; by case_match).
  destruct Hs1 as (HL & HQ & HA & HU & HN & HI).
  assert (Et : runnable s1 (c, t) = set_priority r (demoted r)) by (by rewrite E1, decide_True).
  destruct (queues_push s1 c rq (demoted r) t) as [Hq2 Hf2]; auto; [by apply demoted_prio|by rewrite Et|by rewrite Et|].
  rewrite Et; cbn [priority set_priority]; set (s2 := set_length _ _ _) in *.
  change (runnable s2) with (runnable s1); rewrite Et; cbn [quantum set_priority].
  split.
  - apply (queues_change s2); [by case_match|by case_match|by case_match|intros u Hu|done].
    case_match; [|done]; cbn; destruct (decide ((c, t) = (c, u))) as [[= <-]|]; [|by rewrite fn_lookup_insert_ne].
    by rewrite fn_lookup_insert, Et.
  - intros p; fold r; unfold refreshed; destruct (quantum r =? 0); cbn [set_runnable runnable];
      [|change (runnable s2) with (runnable s1); rewrite E1; by case_decide].
    destruct (decide (p = (c, t))) as [->|]; [by rewrite fn_lookup_insert|].
    rewrite fn_lookup_insert_ne by done; change (runnable s2) with (runnable s1); by rewrite E1, decide_False.
  - case_match; cbn; congruence.
  - case_match; cbn; congruence.
  - case_match; cbn; congruence.
  - intros c' Hc; apply (same_cpu_trans _ s1); [unfold s1; case_match; [by apply set_runnable_same|by split]|].
    apply (same_cpu_trans _ s2); [by apply Hf2|]; case_match; [by apply set_runnable_same|by split].
Qed.

(** The queues from which [sched_schedule] chooses when it does not keep the active task. *)
Definition requeued (s : sched) (c : Z) (rq : queues) : queues :=
  match active s c with Some a => push rq (demoted (runnable s a)) (snd a) | None => rq end.

(** Whether it keeps the active task. *)
Definition keeps_active (s : sched) (c : Z) : bool :=
  match active s c with Some a => reschedule (runnable s a) =? 0 | None => false end.

(** The choice: the head of the highest queue that is not empty. *)
Record chooses (rq : queues) (i t : Z) : Prop := {
  ch_prio : is_prio i;
  ch_head : exists l, rq i = t :: l;
  ch_max : forall j, i < j <= SCHED_MAX_PRIO -> rq j = [];
}.


(** Choosing from the queues of a CPU whose active entry is vacant. *)
Lemma dispatch_ok s c rq :
  cpu_used s c = 1 -> queues_ok s c rq ->
  (forall t, is_task t -> valid (runnable s (c, t)) <> 0 -> t ∈ ready rq) ->
  is_task (idle_task s c) -> priority (runnable s (c, idle_task s c)) = 0 -> idle_task s c ∈ rq 0 ->
  exists i t s', sched_select s c = Ok (s', t) /\ chooses rq i t /\ cpu_ok s' c (pop rq i) /\
    active s' c = Some (c, t) /\ priority (runnable s' (c, t)) = i /\ selects s c rq i t s'.
Proof.
  intros Hu Hq Hv Hi0 Hi1 Hi2.
  assert (H0 : is_prio 0) by (unfold is_prio, SCHED_MAX_PRIO; lia).
  destruct (select_ok s c rq Hq) as (i & t & l & s' & Hi & E & Hmax & Hs & Hsel).
  { intros Hr; assert (idle_task s c ∈ ready rq) as Hx by (apply elem_of_ready; eauto); rewrite Hr in Hx.
    by apply not_elem_of_nil in Hx. }
  exists i, t, s'; split_and!; auto; [split; eauto| |apply Hsel|].
  2: { rewrite (sel_runnable _ _ _ _ _ _ Hsel), fn_lookup_insert; apply (q_task _ _ _ Hq i t Hi); rewrite E; left. }
  pose proof (pop_ready rq i t l Hi E) as Hp; destruct (q_task _ _ _ Hq i t Hi) as (Ht & Htp & Htv); [rewrite E; left|].
  destruct Hsel as [SQ SR SA SU SI SO]; split; [by rewrite SU|done|..].
  - rewrite SA; intros a [= <-]; exists t; split; [done|]; split; rewrite ?SR, ?fn_lookup_insert; cbn; auto.
    + by rewrite Htp.
    + pose proof (q_nodup _ _ _ Hq) as Hnd; rewrite Hp in Hnd; by apply list.NoDup_cons in Hnd as [? _].
  - intros u Hu'; rewrite SR, SA; destruct (decide (u = t)) as [->|Hne]; [auto|].
    rewrite fn_lookup_insert_ne by congruence; intros Hval; right; apply Hv in Hval; auto.
    rewrite Hp in Hval; apply elem_of_cons in Hval as [|]; [done|auto].
  - rewrite SI, SR, SA; split_and!; auto.
    + destruct (decide (t = idle_task s c)) as [->|]; [by rewrite fn_lookup_insert|by rewrite fn_lookup_insert_ne by congruence].
    + destruct (decide (idle_task s c = t)) as [->|Hne]; [auto|right]; unfold pop; destruct (Z.eqb_spec 0 i) as [<-|]; [|done].
      rewrite E in Hi2 |- *; cbn; apply elem_of_cons in Hi2 as [|]; [done|auto].
Qed.

Lemma schedule_ok s c rq :
  cpu_ok s c rq ->
  exists rq' s' t, sched_schedule c s = Ok (s', t) /\ cpu_ok s' c rq' /\ active s' c = Some (c, t) /\
    (forall c', c' <> c -> same_cpu s s' c') /\
    if keeps_active s c then s' = s /\ rq' = rq
    else exists i, chooses (requeued s c rq) i t /\ priority (runnable s' (c, t)) = i /\ rq' = pop (requeued s c rq) i /\
      forall u, runnable s' (c, u) =
        (let r := if decide (active s c = Some (c, u)) then refreshed (runnable s (c, u)) else runnable s (c, u) in
         if decide (u = t) then set_reschedule r 0 else r).
Proof.
  intros Hc; pose proof Hc as [CU CQ CA CV (CI1 & CI2 & CI3)]; unfold sched_schedule, keeps_active, requeued.
  assert (Hpr : is_prio 0) by (unfold is_prio, SCHED_MAX_PRIO; lia).
  destruct (active s c) as [a|] eqn:Ea.
  - destruct (CA a eq_refl) as (t & -> & Ha).
    destruct (Z.eqb_spec (reschedule (runnable s (c, t))) 0).
    { exists rq, s, t; unfold rindex; cbn [fst snd]; rewrite Z.sub_diag; split_and!; auto; by split. }
    pose proof (requeue_ok s c rq t CQ Ha) as [RQ RR RA RU RI RO]; set (s1 := sched_requeue s c (c, t)) in *.
    pose proof (demoted_prio _ (a_prio _ _ _ _ Ha)) as Hdp.
    assert (Hd0 : t = idle_task s c -> demoted (runnable s (c, t)) = 0).
    { intros ->; unfold demoted; by rewrite CI2, andb_false_r. }
    destruct (dispatch_ok s1 c (push rq (demoted (runnable s (c, t))) t)) as (i & u & s' & Hs & Hch & Hok & Hact & Hpi & Hsel); auto.
    + by rewrite RU.
    + intros u Hu; rewrite RR, push_ready by done; case_decide; [simplify_eq; left|].
      intros Hval; right; apply CV in Hval as [|]; auto; congruence.
    + by rewrite RI.
    + rewrite RI, RR; case_decide as E; [|done]; apply Hd0; congruence.
    + rewrite RI; unfold push; destruct CI3 as [E|Hin].
      * rewrite Hd0 by congruence; replace t with (idle_task s c) by congruence; apply elem_of_app; right; left.
      * case_test; [apply elem_of_app; by left|done].
    + exists (pop (push rq (demoted (runnable s (c, t))) t) i), s', u; split_and!; auto.
      * intros c' Hc'; apply (same_cpu_trans _ s1); [by apply RO|by apply (sel_others _ _ _ _ _ _ Hsel)].
      * exists i; split_and!; auto; intros v; rewrite (sel_runnable _ _ _ _ _ _ Hsel); cbv zeta.
        destruct (decide (v = u)) as [->|]; [rewrite fn_lookup_insert|rewrite fn_lookup_insert_ne by congruence];
          rewrite RR; repeat case_decide; simplify_eq; done.
  - destruct CI3 as [|Hin]; [done|].
    destruct (dispatch_ok s c rq) as (i & u & s' & Hs & Hch & Hok & Hact & Hpi & Hsel); auto.
    { intros t Ht Hval; by destruct (CV t Ht Hval). }
    exists (pop rq i), s', u; split_and!; auto; [apply Hsel|].
    exists i; split_and!; auto; intros v; rewrite (sel_runnable _ _ _ _ _ _ Hsel); cbv zeta.
    destruct (decide (v = u)) as [->|]; [rewrite fn_lookup_insert|rewrite fn_lookup_insert_ne by congruence]; by case_decide.
Qed.


(** ** The other operations *)

(** A change to the active runnable that keeps its priority and validity. *)
Lemma touch_active s c rq t r :
  cpu_ok s c rq -> active s c = Some (c, t) ->
  priority r = priority (runnable s (c, t)) -> valid r = valid (runnable s (c, t)) ->
  cpu_ok (set_runnable s (c, t) r) c rq.
Proof.
  intros [CU CQ CA CV CI] Ha Hp Hv.
  assert (E : forall u, priority (runnable (set_runnable s (c, t) r) (c, u)) = priority (runnable s (c, u)) /\
    valid (runnable (set_runnable s (c, t) r) (c, u)) = valid (runnable s (c, u))).
  { intros u; cbn; destruct (decide (t = u)) as [->|]; [by rewrite fn_lookup_insert|by rewrite fn_lookup_insert_ne by congruence]. }
  split; auto.
  - by apply (queues_change s).
  - intros a Ha'; destruct (CA a Ha') as (u & -> & [AT AP AV AF]); exists u; split; [done|].
    destruct (E u) as [E1 E2]; split; auto; congruence.
  - intros u Hu; destruct (E u) as [_ ->]; apply CV; auto.
  - change (idle_task (set_runnable s (c, t) r)) with (idle_task s).
    by destruct (E (idle_task s c)) as [-> _].
Qed.

Lemma yield_ok s c rq : cpu_ok s c rq -> cpu_ok (sched_yield c s) c rq /\ forall c', c' <> c -> same_cpu s (sched_yield c s) c'.
Proof.
  intros Hc; unfold sched_yield; destruct (active s c) as [a|] eqn:Ea; [|by split; [|split]].
  destruct (c_active _ _ _ Hc a Ea) as (t & -> & _); split; [by apply touch_active|intros; by apply set_runnable_same].
Qed.

Lemma ticks_ok s c rq i b : cpu_ok s c rq -> cpu_ok (set_ticks s c i b) c rq.
Proof. apply cpu_same; by split. Qed.

Lemma tick_ok s c rq : cpu_ok s c rq -> cpu_ok (sched_do_tick c s) c rq /\ forall c', c' <> c -> same_cpu s (sched_do_tick c s) c'.
Proof.
  intros Hc; unfold sched_do_tick.
  set (s1 := match active s c with Some _ => _ | None => _ end).
  assert (cpu_ok s1 c rq /\ forall c', c' <> c -> same_cpu s s1 c') as [H1 H2].
  { unfold s1; destruct (active s c) as [a|] eqn:Ea; [|by split; [apply ticks_ok|split]].
    destruct (c_active _ _ _ Hc a Ea) as (t & -> & _).
    set (s2 := if negb (quantum (runnable s (c, t)) =? 0) then _ else s).
    assert (cpu_ok s2 c rq /\ forall c', c' <> c -> same_cpu s s2 c') as [H1 H2].
    { unfold s2; case_match; [|by split; [|split]]; split; [|intros; by apply set_runnable_same].
      apply touch_active; auto; by case_match. }
    split; [case_match; by apply ticks_ok|]; intros c' Hc'; apply (same_cpu_trans _ s2); auto; case_match; by split. }
  case_match; [|auto]; split; [apply (cpu_same s1); [by split|done]|].
  intros c' Hc'; apply (same_cpu_trans _ s1); [auto|by split].
Qed.

Lemma dequeue_ok s c rq :
  cpu_ok s c rq -> active s c <> None ->
  exists s', sched_dequeue c s = Ok s' /\ cpu_ok s' c rq /\ (forall c', c' <> c -> same_cpu s s' c').
Proof.
  intros Hc Ha; unfold sched_dequeue; destruct (active s c) as [a|] eqn:Ea; [|done].
  pose proof Hc as [CU CQ CA CV (CI1 & CI2 & CI3)]; destruct (CA a Ea) as (t & -> & [AT AP AV AF]).
  unfold rindex, is_task, PM_MAX_TASK in *; cbn [fst snd]; rewrite Z.sub_diag, u32_small by lia.
  destruct (Z.eqb_spec (idle_task s c) (0 * 1024 + t)).
  { exists s; split_and!; auto; by split. }
  assert (Ht : t <> idle_task s c) by lia.
  eexists; split_and!; [done| |].
  - split; cbn; auto.
    + apply (queues_change s); auto; cbn; intros u Hu; rewrite fn_lookup_insert_ne; [done|congruence].
    + by rewrite fn_lookup_insert.
    + rewrite fn_lookup_insert; intros u Hu; destruct (decide (t = u)) as [->|]; [by rewrite fn_lookup_insert|].
      rewrite fn_lookup_insert_ne by congruence; intros Hv; apply CV in Hv as [|]; auto; congruence.
    + rewrite fn_lookup_insert, fn_lookup_insert_ne by congruence; split_and!; auto; lia || naive_solver.
  - intros c' Hc'; split; cbn; auto; intros; by rewrite fn_lookup_insert_ne by congruence.
Qed.

Lemma enqueue_ok me ipi s c rq a t i :
  is_cpu c -> cpu_ok s c rq -> active s c = Some a -> is_task t -> valid (runnable s (c, t)) = 0 -> is_prio i ->
  exists s' b, sched_enqueue_cpu me ipi s t i c = Ok (s', b) /\ cpu_ok s' c (push rq i t) /\
    (forall c', c' <> c -> same_cpu s s' c') /\ active s' c = Some a /\
    (priority (runnable s a) < i -> reschedule (runnable s' a) = 1).
Proof.
  intros Hcpu Hc Ha Ht Hval Hi; pose proof Hc as [CU CQ CA CV (CI1 & CI2 & CI3)].
  destruct (CA a Ha) as (u & -> & Hu); assert (Hut : u <> t) by (intros ->; destruct Hu; lia).
  assert (Hfresh : t ∉ ready rq).
  { intros (j & Hj & Hin)%elem_of_ready; destruct (q_task _ _ _ CQ j t Hj Hin) as (_ & _ & ?); lia. }
  assert (Hidle : idle_task s c <> t).
  { intros <-; destruct CI3 as [|Hin]; [congruence|]; apply Hfresh, elem_of_ready; exists 0.
    unfold is_prio, SCHED_MAX_PRIO; auto with lia. }
  unfold sched_enqueue_cpu; unfold is_task, is_prio, is_cpu, PM_MAX_TASK, SCHED_MAX_PRIO, SMP_MAX_CPU in Ht, Hi, Hcpu.
  unfold PM_MAX_TASK, SCHED_MAX_PRIO, SMP_MAX_CPU; rewrite CU; tests; cbn [Z.eqb].
  cbn [set_runnable active]; rewrite Ha; cbn [deref mbind res_bind].
  set (s1 := set_runnable s (c, t) _).
  set (s2 := if priority (runnable s1 (c, u)) <? i then _ else s1).
  assert (Eu : runnable s1 (c, u) = runnable s (c, u)) by (unfold s1; cbn; by rewrite fn_lookup_insert_ne by congruence).
  assert (E2 : forall v, v <> t -> priority (runnable s2 (c, v)) = priority (runnable s (c, v)) /\
     valid (runnable s2 (c, v)) = valid (runnable s (c, v))).
  { intros v Hv; unfold s2; case_match; cbn.
    - destruct (decide (u = v)) as [->|]; [rewrite fn_lookup_insert; cbn; by rewrite fn_lookup_insert_ne by congruence|].
      by rewrite !fn_lookup_insert_ne by congruence.
    - by rewrite fn_lookup_insert_ne by congruence. }
  assert (Et : runnable s2 (c, t) = mk_runnable SCHED_INIT_QUANTUM i 0 1).
  { unfold s2; case_match; cbn; rewrite ?(fn_lookup_insert_ne _ (c, u)) by congruence; by rewrite fn_lookup_insert. }
  assert (Hs2 : rlinks s2 = rlinks s /\ queue s2 = queue s /\ active s2 = active s /\ cpu_used s2 = cpu_used s /\
    cpu_queue_length s2 = cpu_queue_length s /\ idle_task s2 = idle_task s) by (unfold s2; by case_match).
  destruct Hs2 as (HL & HQ & HA & HU & HN & HI).
  assert (Hq2 : queues_ok s2 c rq).
  { apply (queues_change s); auto; [by rewrite HN|]; intros v Hv; apply E2; congruence. }
  destruct (queues_push s2 c rq i t) as [Hq3 Hf3]; auto; [by rewrite Et|by rewrite Et|].
  assert (Hready : forall v, v ∈ ready (push rq i t) <-> v = t \/ v ∈ ready rq).
  { intros v; rewrite push_ready, elem_of_cons by done; done. }
  eexists _, _; split_and!; [reflexivity| | | |].
  - split; cbn; rewrite ?HA, ?HU, ?HI; auto.
    + rewrite Ha; intros a' [= <-]; exists u; split; [done|]; destruct Hu as [AT AP AV AF], (E2 u Hut) as [E E'].
      split; cbn; rewrite ?E, ?E'; auto; rewrite Hready; naive_solver.
    + intros v Hv; destruct (decide (v = t)) as [->|Hne]; [right; rewrite Hready; auto|].
      destruct (E2 v Hne) as [_ ->]; intros Hx; destruct (CV v Hv Hx); [auto|right; rewrite Hready; auto].
    + destruct (E2 (idle_task s c)) as [-> _]; auto; split_and!; auto; destruct CI3; [auto|right].
      unfold push; case_test; [apply elem_of_app; by left|done].
  - intros c' Hc'; apply (same_cpu_trans _ s1); [by apply set_runnable_same|].
    apply (same_cpu_trans _ s2); [unfold s2; case_match; [by apply set_runnable_same|by split]|by apply Hf3].
  - cbn; by rewrite HA.
  - intros Hlt; cbn; unfold s2; rewrite Eu; test_true; cbn; by rewrite fn_lookup_insert.
Qed.


(** ** All CPUs *)

(** A CPU that has not been started. *)
Record unused_ok (s : sched) (c : Z) : Prop := {
  u_used : cpu_used s c = 0;
  u_active : active s c = None;
  u_length : cpu_queue_length s c = 0;
  u_queue : forall i, is_prio i -> queue s (qindex c i) = mk_anchor None None;
  u_valid : forall t, is_task t -> valid (runnable s (c, t)) = 0;
}.

Definition sched_ok (s : sched) : Prop := forall c, is_cpu c -> unused_ok s c \/ exists rq, cpu_ok s c rq.

(** Static variables before [sched_init]. *)
Definition zeroed : sched :=
  mk_sched (fun _ => mk_runnable 0 0 0 0) (fun _ => mk_link None None) (fun _ => mk_anchor None None) (fun _ => None)
    (fun _ => 0) (fun _ => 0) (fun _ => 0) (fun _ => 0) (fun _ => 0) (fun _ => 0) (fun _ => 0) (fun _ => 0).

(** What the kernel does with the scheduler. Tasks are only queued when they are on no
    queue of that CPU, with a priority that is not negative, and while the CPU has an
    active entry; idle tasks are added once per CPU. *)
Inductive reach : sched -> Prop :=
| reach_init : reach (sched_init zeroed)
| reach_idle s t c : reach s -> cpu_used s c = 0 -> reach (sched_add_idle_task s t c)
| reach_enqueue_cpu me ipi s t i c s' b :
    reach s -> 0 <= i -> active s c <> None -> valid (runnable s (c, t)) = 0 ->
    sched_enqueue_cpu me ipi s t i c = Ok (s', b) -> reach s'
| reach_enqueue me ipi s t i s' b :
    reach s -> 0 <= i -> active s (get_next_cpu s) <> None -> valid (runnable s (get_next_cpu s, t)) = 0 ->
    sched_enqueue me ipi s t i = Ok (s', b) -> reach s'
| reach_dequeue s c s' : reach s -> is_cpu c -> cpu_used s c = 1 -> sched_dequeue c s = Ok s' -> reach s'
| reach_yield s c : reach s -> is_cpu c -> cpu_used s c = 1 -> reach (sched_yield c s)
| reach_tick s c : reach s -> is_cpu c -> cpu_used s c = 1 -> reach (sched_do_tick c s)
| reach_schedule s c s' t : reach s -> is_cpu c -> cpu_used s c = 1 -> sched_schedule c s = Ok (s', t) -> reach s'.

Lemma unused_same s s' c : same_cpu s s' c -> unused_ok s c -> unused_ok s' c.
Proof.
  intros [HR HL HQ HA HU HN HI] [U1 U2 U3 U4 U5]; split; rewrite ?HU, ?HA, ?HN; auto.
  - intros; rewrite HQ; auto.
  - intros; rewrite HR; auto.
Qed.

(** An operation that establishes the invariant for one CPU and leaves the others alone. *)
Lemma sched_ok_step s s' c :
  sched_ok s -> (forall c', c' <> c -> same_cpu s s' c') -> (is_cpu c -> unused_ok s' c \/ exists rq, cpu_ok s' c rq) ->
  sched_ok s'.
Proof.
  intros H Hf Hc c' Hc'; destruct (decide (c' = c)) as [->|Hne]; [auto|].
  destruct (H c' Hc') as [?|[rq ?]]; [left; eapply unused_same; eauto|right; exists rq; eapply cpu_same; eauto].
Qed.

(** A CPU with empty queues whose only valid runnable is its active idle task. *)
Lemma fresh_cpu_ok s c t :
  cpu_used s c = 1 -> active s c = Some (c, t) -> cpu_queue_length s c = 0 -> idle_task s c = t -> is_task t ->
  (forall i, is_prio i -> queue s (qindex c i) = mk_anchor None None) ->
  runnable s (c, t) = mk_runnable SCHED_INIT_QUANTUM 0 0 1 ->
  (forall u, is_task u -> u <> t -> valid (runnable s (c, u)) = 0) -> cpu_ok s c (fun _ => []).
Proof.
  intros HU HA HN HI Ht HQ HR HV; assert (Hr : ready (fun _ => []) = []) by done.
  split; auto.
  - split; rewrite ?Hr; auto; [intros i Hi; rewrite HQ by done; split; auto; constructor| |constructor].
    by intros ? ? ? ?%not_elem_of_nil.
  - rewrite HA; intros a [= <-]; exists t; split; [done|]; split; rewrite ?HR, ?Hr; auto; [|apply not_elem_of_nil].
    unfold is_prio, SCHED_MAX_PRIO; cbn; lia.
  - intros u Hu Hv; left; destruct (decide (u = t)) as [->|]; [done|]; by destruct Hv; apply HV.
  - rewrite HI, HR; auto.
Qed.

Lemma init_ok : sched_ok (sched_init zeroed).
Proof.
  intros c Hc; destruct (decide (c = SMP_BSP_ID)) as [->|Hne].
  - right; exists (fun _ => []); apply (fresh_cpu_ok _ _ 0); try done.
    + intros i Hi; unfold is_prio, SCHED_MAX_PRIO in Hi; cbn; by case_match.
    + intros u Hu Hu0; unfold is_task, PM_MAX_TASK in Hu; cbn -[set_valid].
      rewrite fn_lookup_insert_ne by congruence; by case_match.
  - left; unfold is_cpu, SMP_MAX_CPU, SMP_BSP_ID in *.
    split; cbn; rewrite ?fn_lookup_insert_ne by done; auto; [by case_match..| |].
    + intros i Hi; by case_match.
    + intros t Ht; rewrite fn_lookup_insert_ne by (unfold SMP_BSP_ID; congruence); by case_match.
Qed.

Lemma add_idle_ok s t c : sched_ok s -> cpu_used s c = 0 -> sched_ok (sched_add_idle_task s t c).
Proof.
  intros H HU; unfold sched_add_idle_task; destruct (_ || _) eqn:E1; [done|]; destruct ((c <? 0) || _) eqn:E2; [done|].
  apply orb_false_iff in E1 as [? ?], E2 as [? ?]; zify_bool.
  assert (Hc : is_cpu c) by (unfold is_cpu; lia); destruct (H c Hc) as [[U1 U2 U3 U4 U5]|[rq [CU _ _ _ _]]]; [|lia].
  rewrite U2; apply (sched_ok_step s _ c); auto.
  - intros c' Hc'; split; cbn; auto; intros; by rewrite fn_lookup_insert_ne by congruence.
  - right; exists (fun _ => []); apply (fresh_cpu_ok _ _ t); cbn; rewrite ?fn_lookup_insert; auto; [unfold is_task; lia|].
    intros u Hu Hne; rewrite fn_lookup_insert_ne by congruence; auto.
Qed.


Lemma used_cpu_ok s c : sched_ok s -> is_cpu c -> cpu_used s c <> 0 -> exists rq, cpu_ok s c rq.
Proof. intros H Hc Hu; destruct (H c Hc) as [[]|]; auto; lia. Qed.

Lemma enqueue_step me ipi s t i c s' b :
  sched_ok s -> 0 <= i -> active s c <> None -> valid (runnable s (c, t)) = 0 ->
  sched_enqueue_cpu me ipi s t i c = Ok (s', b) -> sched_ok s'.
Proof.
  intros H Hi Ha Hv E.
  destruct (decide (is_task t /\ is_prio i /\ is_cpu c /\ cpu_used s c <> 0)) as [(Ht & Hp & Hc & Hu)|Hno].
  - destruct (used_cpu_ok s c H Hc Hu) as [rq Hok]; destruct (active s c) as [a|] eqn:Ea; [|done].
    destruct (enqueue_ok me ipi s c rq a t i) as (s1 & b1 & E1 & Hok1 & Hf & _); auto.
    rewrite E in E1; simplify_eq; apply (sched_ok_step s _ c); eauto.
  - replace s' with s; [done|]; unfold sched_enqueue_cpu in E; unfold is_task, is_prio, is_cpu in Hno.
    destruct (_ || _) eqn:E1; [congruence|]; destruct (SCHED_MAX_PRIO <? i) eqn:E2; [congruence|].
    destruct ((c <? 0) || _) eqn:E3; [congruence|]; destruct (cpu_used s c =? 0) eqn:E4; [congruence|].
    apply orb_false_iff in E1 as [? ?], E3 as [? ?]; zify_bool; lia.
Qed.

Lemma reach_ok s : reach s -> sched_ok s.
Proof.
  induction 1 as [|s t c _ IH Hu|me ipi s t i c s' b _ IH Hi Ha Hv E|me ipi s t i s' b _ IH Hi Ha Hv E
    |s c s' _ IH Hc Hu E|s c _ IH Hc Hu|s c _ IH Hc Hu|s c s' t _ IH Hc Hu E].
  - apply init_ok.
  - by apply add_idle_ok.
  - eapply enqueue_step; eauto.
  - eapply enqueue_step; eauto.
  - destruct (used_cpu_ok s c IH Hc) as [rq Hok]; [lia|].
    destruct (active s c) as [a|] eqn:Ea; [|unfold sched_dequeue in E; by rewrite Ea in E].
    destruct (dequeue_ok s c rq Hok) as (s1 & E1 & Hok1 & Hf); [congruence|].
    rewrite E in E1; simplify_eq; apply (sched_ok_step s _ c); eauto.
  - destruct (used_cpu_ok s c IH Hc) as [rq Hok]; [lia|]; destruct (yield_ok s c rq Hok); apply (sched_ok_step s _ c); eauto.
  - destruct (used_cpu_ok s c IH Hc) as [rq Hok]; [lia|]; destruct (tick_ok s c rq Hok); apply (sched_ok_step s _ c); eauto.
  - destruct (used_cpu_ok s c IH Hc) as [rq Hok]; [lia|].
    destruct (schedule_ok s c rq Hok) as (rq' & s1 & u & E1 & Hok1 & _ & Hf & _).
    rewrite E in E1; simplify_eq; apply (sched_ok_step s _ c); eauto.
Qed.

(** ** The choice of a CPU *)

Lemma next_cpu_fold s l rc n :
  let '(c, m) := fold_left (fun '(rc, queue_length) cpu =>
    if negb (cpu_used s cpu =? 0) && (cpu_queue_length s cpu <? queue_length)
    then (cpu, cpu_queue_length s cpu) else (rc, queue_length)) l (rc, n) in
  m <= n /\ (forall cpu, cpu ∈ l -> cpu_used s cpu <> 0 -> m <= cpu_queue_length s cpu) /\
  ((c = rc /\ m = n) \/ (c ∈ l /\ cpu_used s c <> 0 /\ m = cpu_queue_length s c)).
Proof.
  revert rc n; induction l as [|x l IH]; intros rc n; cbn.
  { split_and!; auto; [lia|]; by intros ? ?%not_elem_of_nil. }
  match goal with |- context [fold_left _ l ?x] => set (st := x) end; specialize (IH (fst st) (snd st)); rewrite <- surjective_pairing in IH.
  destruct (fold_left _ l st) as [c m]; destruct IH as (Hm & Hl & Hc); unfold st in *.
  destruct (Z.eqb_spec (cpu_used s x) 0); cbn in *; [|destruct (Z.ltb_spec (cpu_queue_length s x) n); cbn in *].
  - split_and!; auto; [|destruct Hc as [|(? & ?)]; auto; right; split; [by right|done]].
    intros cpu [->|Hin]%elem_of_cons; auto; lia.
  - split_and!; [lia| |].
    + intros cpu [->|Hin]%elem_of_cons; auto; lia.
    + right; destruct Hc as [[-> ->]|(? & ? & ?)]; split_and!; auto; [left|by right].
  - split_and!; auto; [|destruct Hc as [|(? & ?)]; auto; right; split; [by right|done]].
    intros cpu [->|Hin]%elem_of_cons; auto; lia.
Qed.

Lemma next_cpu_ok s :
  cpu_used s SMP_BSP_ID <> 0 ->
  is_cpu (get_next_cpu s) /\ cpu_used s (get_next_cpu s) <> 0 /\
  forall c, is_cpu c -> cpu_used s c <> 0 -> cpu_queue_length s (get_next_cpu s) <= cpu_queue_length s c.
Proof.
  intros Hb; unfold get_next_cpu.
  pose proof (next_cpu_fold s (seqZ 1 (SMP_MAX_CPU - 1)) SMP_BSP_ID (cpu_queue_length s SMP_BSP_ID)) as H.
  destruct (fold_left _ _ _) as [c m]; cbn [fst]; destruct H as (Hm & Hl & Hc).
  assert (Hmin : forall c, is_cpu c -> cpu_used s c <> 0 -> m <= cpu_queue_length s c).
  { intros d Hd Hu; destruct (decide (d = SMP_BSP_ID)) as [->|]; [done|]; apply Hl; auto.
    apply elem_of_seqZ; unfold is_cpu, SMP_BSP_ID in *; lia. }
  destruct Hc as [[-> ->]|(Hin%elem_of_seqZ & Hu & ->)]; split_and!; auto; unfold is_cpu, SMP_BSP_ID, SMP_MAX_CPU in *; lia.
Qed.


(** ** Fairness *)

(** Sum over the priorities. *)
Definition sum_prios (f : Z -> Z) : Z := foldr (fun j acc => f j + acc) 0 (seqZ 0 (SCHED_MAX_PRIO + 1)).

Lemma sum_update (f g : Z -> Z) i l :
  NoDup l -> i ∈ l -> (forall j, j <> i -> g j = f j) ->
  foldr (fun j acc => g j + acc) 0 l = foldr (fun j acc => f j + acc) 0 l + (g i - f i).
Proof.
  intros Hnd Hi Hg; induction l as [|j l IH]; [by apply not_elem_of_nil in Hi|].
  apply list.NoDup_cons in Hnd as [Hj Hnd]; cbn; apply elem_of_cons in Hi as [->|Hi].
  - assert (foldr (fun j acc => g j + acc) 0 l = foldr (fun j acc => f j + acc) 0 l) as ->; [|lia].
    clear - Hj Hg; induction l as [|k l IH]; cbn; [done|]; rewrite Hg by set_solver; f_equal; apply IH; set_solver.
  - rewrite IH by done; rewrite Hg by set_solver; lia.
Qed.

Lemma sum_prios_update f g i :
  is_prio i -> (forall j, j <> i -> g j = f j) -> sum_prios g = sum_prios f + (g i - f i).
Proof.
  intros Hi Hg; apply sum_update; auto; [apply NoDup_seqZ|apply elem_of_seqZ; unfold is_prio in Hi; lia].
Qed.

(** How far the tasks that wait are above priority [p]. *)
Definition weight (p : Z) (rq : queues) : Z := sum_prios (fun j => Z.max 0 (j - p) * Z.of_nat (length (rq j))).

Lemma weight_push p rq i t : is_prio i -> weight p (push rq i t) = weight p rq + Z.max 0 (i - p).
Proof.
  intros Hi; unfold weight; rewrite (sum_prios_update (fun j => Z.max 0 (j - p) * Z.of_nat (length (rq j))) _ i Hi).
  - unfold push; rewrite Z.eqb_refl, length_app, Nat2Z.inj_add; change (Z.of_nat (length [t])) with 1; ring.
  - intros j Hj; unfold push; by tests.
Qed.

Lemma weight_pop p rq i t l : is_prio i -> rq i = t :: l -> weight p (pop rq i) = weight p rq - Z.max 0 (i - p).
Proof.
  intros Hi E; unfold weight; rewrite (sum_prios_update (fun j => Z.max 0 (j - p) * Z.of_nat (length (rq j))) _ i Hi).
  - unfold pop; rewrite Z.eqb_refl, E; cbn [List.tail length]; rewrite Nat2Z.inj_succ, <- Z.add_1_r; ring.
  - intros j Hj; unfold pop; by tests.
Qed.

(** Rounds until a task of priority [p] behind [k] others runs, when a task of priority
    [pa] is active. *)
Definition rounds (p : Z) (rq : queues) (pa : Z) (k : nat) : Z :=
  2 * (weight p rq + Z.max 0 (pa - p)) + Z.of_nat k + (if pa <=? p then 1 else 0).

(** One round, in which the active task [a] is preempted, brings [t] closer to its turn. *)
Lemma round_progress rq a pa p l1 t l2 i u :
  is_prio p -> is_prio pa -> rq p = l1 ++ t :: l2 ->
  let rq1 := push rq (Z.max 0 (pa - 1)) a in
  chooses rq1 i u ->
  u = t \/ exists l1' l2', pop rq1 i p = l1' ++ t :: l2' /\ rounds p (pop rq1 i) i (length l1') < rounds p rq pa (length l1).
Proof.
  intros Hp Hpa E rq1 [Hi [l Hl] Hmax]; unfold is_prio in *.
  assert (E1 : exists l2', rq1 p = l1 ++ t :: l2').
  { unfold rq1, push; case_test; rewrite E; [exists (l2 ++ [a]); by rewrite <- app_assoc|eauto]. }
  destruct E1 as [l2' E1].
  assert (p <= i). { destruct (decide (i < p)); [|lia]; rewrite Hmax in E1 by lia; by destruct l1. }
  assert (Hw : weight p (pop rq1 i) = weight p rq + Z.max 0 (Z.max 0 (pa - 1) - p) - Z.max 0 (i - p)).
  { rewrite (weight_pop p rq1 i u l) by done; unfold rq1; rewrite weight_push; unfold is_prio; lia. }
  unfold rounds; rewrite Hw; destruct (decide (i = p)) as [->|Hne].
  - rewrite E1 in Hl; destruct l1 as [|x l1]; [left; by injection Hl|]; right; injection Hl as -> <-.
    exists l1, l2'; split; [unfold pop; by rewrite Z.eqb_refl, E1|]; cbn [length]; repeat case_test; lia.
  - right; exists l1, l2'; split; [unfold pop; by tests|]; repeat case_test; lia.
Qed.


(** What a tick does to the active runnable. *)
Definition ticked (r : runnable_t) : runnable_t :=
  if quantum r =? 0 then r
  else mk_runnable (quantum r - 1) (priority r) (if quantum r - 1 =? 0 then 1 else reschedule r) (valid r).

Lemma tick_effect s c a :
  active s c = Some a ->
  active (sched_do_tick c s) c = Some a /\
  forall p, runnable (sched_do_tick c s) p = if decide (p = a) then ticked (runnable s a) else runnable s p.
Proof.
  intros Ha; unfold sched_do_tick; rewrite Ha.
  set (s1 := if negb (quantum (runnable s a) =? 0) then _ else s).
  assert (H1 : active s1 c = Some a /\
    forall p, runnable s1 p = if decide (p = a) then ticked (runnable s a) else runnable s p).
  { unfold s1, ticked; case_test; cbn [negb]; split; auto; intros p; [case_decide; congruence|]; cbn [set_runnable runnable].
    destruct (decide (p = a)) as [->|]; [rewrite fn_lookup_insert; cbn; by case_match|by rewrite fn_lookup_insert_ne]. }
  clearbody s1; case_match; case_match; exact H1.
Qed.

(** The active task of [c] uses up its quantum and the scheduler runs. *)
Definition slice (c : Z) (s : sched) : res sched :=
  a ← deref (active s c);
  '(s', _) ← sched_schedule c (Nat.iter (Z.to_nat (quantum (runnable s a))) (sched_do_tick c) s);
  Ok s'.

Fixpoint slices (n : nat) (c : Z) (s : sched) : res sched :=
  match n with O => Ok s | S n => s' ← slice c s; slices n c s' end.

(** The runnable of a task that has used up its quantum. *)
Definition spent (r : runnable_t) : runnable_t := mk_runnable 0 (priority r) 1 (valid r).

Lemma exhaust n : forall s c rq a,
  cpu_ok s c rq -> active s c = Some (c, a) -> quantum (runnable s (c, a)) = Z.of_nat (S n) ->
  let s' := Nat.iter (S n) (sched_do_tick c) s in
  cpu_ok s' c rq /\ active s' c = Some (c, a) /\
  forall u, runnable s' (c, u) = if decide (u = a) then spent (runnable s (c, a)) else runnable s (c, u).
Proof.
  induction n as [|n IH]; intros s c rq a Hc Ha Hq.
  - destruct (tick_ok s c rq Hc) as [Hc' _], (tick_effect s c _ Ha) as [Ha' Hr]; cbn.
    split_and!; auto; intros u; rewrite Hr; unfold ticked; rewrite Hq; cbn.
    repeat case_decide; simplify_eq; done.
  - rewrite Nat.iter_succ_r.
    destruct (tick_ok s c rq Hc) as [Hc' _], (tick_effect s c _ Ha) as [Ha' Hr].
    destruct (IH (sched_do_tick c s) c rq a Hc' Ha') as (Hc2 & Ha2 & Hr2).
    { rewrite Hr, decide_True by done; unfold ticked; rewrite Hq; case_test; cbn; lia. }
    split_and!; auto.
    intros u; rewrite Hr2, !Hr; repeat case_decide; simplify_eq; try done.
    unfold spent, ticked; by case_match.
Qed.

(** All tasks of [c] have time left. *)
Definition supplied (s : sched) (c : Z) : Prop :=
  forall u, is_task u -> valid (runnable s (c, u)) <> 0 -> 0 < quantum (runnable s (c, u)).

Lemma slice_ok s c rq a :
  cpu_ok s c rq -> active s c = Some (c, a) -> supplied s c ->
  let rq1 := push rq (Z.max 0 (priority (runnable s (c, a)) - 1)) a in
  exists s' i u, slice c s = Ok s' /\ chooses rq1 i u /\ cpu_ok s' c (pop rq1 i) /\
    active s' c = Some (c, u) /\ priority (runnable s' (c, u)) = i /\ supplied s' c.
Proof.
  intros Hc Ha Hsup rq1; destruct (c_active _ _ _ Hc _ Ha) as (? & [= <-] & [AT AP AV AF]).
  assert (0 < quantum (runnable s (c, a))) by (apply Hsup; auto; lia).
  destruct (exhaust (Z.to_nat (quantum (runnable s (c, a)) - 1)) s c rq a Hc Ha) as (Hc1 & Ha1 & Hr1); [lia|].
  replace (S (Z.to_nat (quantum (runnable s (c, a)) - 1))) with (Z.to_nat (quantum (runnable s (c, a)))) in * by lia.
  set (s1 := Nat.iter _ _ s) in *.
  destruct (schedule_ok s1 c rq Hc1) as (rq' & s' & u & Hs & Hc' & Ha' & _ & Hcase).
  assert (Era : runnable s1 (c, a) = spent (runnable s (c, a))) by (by rewrite Hr1, decide_True).
  unfold keeps_active, requeued in Hcase; rewrite Ha1, Era in Hcase; cbn [reschedule spent Z.eqb snd] in Hcase.
  assert (Ed : demoted (spent (runnable s (c, a))) = Z.max 0 (priority (runnable s (c, a)) - 1)).
  { unfold demoted, spent, is_prio in *; cbn; case_test; lia. }
  rewrite Ed in Hcase; fold rq1 in Hcase; destruct Hcase as (i & Hch & Hpi & -> & Hr').
  exists s', i, u; split_and!; auto.
  - unfold slice; rewrite Ha; cbn [deref mbind res_bind]; fold s1; by rewrite Hs.
  - intros v Hv; rewrite Hr'; cbv zeta; intros Hval.
    assert (0 < quantum (if decide (Some (c, a) = Some (c, v)) then refreshed (runnable s1 (c, v)) else runnable s1 (c, v))).
    { destruct (decide (Some (c, a) = Some (c, v))) as [E|E]; [injection E as <-; rewrite Era; cbn; done|].
      rewrite Hr1, decide_False by congruence; apply Hsup; auto.
      revert Hval; rewrite !Hr1; repeat case_decide; cbn; congruence. }
    by destruct (decide (v = u)).
Qed.


Lemma weight_bound p rq : 0 <= p -> 0 <= weight p rq <= SCHED_MAX_PRIO * Z.of_nat (length (ready rq)).
Proof.
  intros Hp; unfold weight, sum_prios, ready, SCHED_MAX_PRIO.
  assert (H : Forall (fun j => j <= 15) (seqZ 0 (15 + 1))) by (apply list.Forall_forall; intros j ?%elem_of_seqZ; lia).
  revert H; generalize (seqZ 0 (15 + 1)); induction 1 as [|j l Hj _ IH]; [cbn; lia|]; cbn [foldr].
  rewrite bind_cons, length_app, Nat2Z.inj_add, Z.mul_add_distr_l.
  assert (0 <= Z.max 0 (j - p) * Z.of_nat (length (rq j)) <= 15 * Z.of_nat (length (rq j))) by nia.
  lia.
Qed.

Lemma slices_reach n : forall s c rq a t p l1 l2,
  cpu_ok s c rq -> active s c = Some (c, a) -> supplied s c -> is_prio p -> rq p = l1 ++ t :: l2 ->
  rounds p rq (priority (runnable s (c, a))) (length l1) <= Z.of_nat n ->
  exists k s', (k <= S n)%nat /\ slices k c s = Ok s' /\ active s' c = Some (c, t).
Proof.
  induction n as [|n IH]; intros s c rq a t p l1 l2 Hc Ha Hsup Hp E Hn.
  all: destruct (slice_ok s c rq a Hc Ha Hsup) as (s1 & i & u & Hs & Hch & Hc1 & Ha1 & Hpi & Hsup1).
  all: destruct (c_active _ _ _ Hc _ Ha) as (? & [= <-] & [_ AP _ _]).
  all: destruct (round_progress rq a (priority (runnable s (c, a))) p l1 t l2 i u) as [->|(l1' & l2' & E' & Hlt)]; auto.
  1, 3: exists 1%nat, s1; split_and!; [lia|cbn [slices]; by rewrite Hs|done].
  - assert (0 <= rounds p (pop (push rq (Z.max 0 (priority (runnable s (c, a)) - 1)) a) i) i (length l1')).
    { unfold rounds; pose proof (weight_bound p (pop (push rq (Z.max 0 (priority (runnable s (c, a)) - 1)) a) i) (proj1 Hp)).
      case_test; lia. }
    lia.
  - destruct (IH s1 c _ u t p l1' l2' Hc1 Ha1 Hsup1 Hp E') as (k & s' & Hk & Hks & Hka); [rewrite Hpi; lia|].
    exists (S k), s'; split_and!; [lia|cbn [slices]; by rewrite Hs|done].
Qed.


(** ** A running system, for examples: task 5 waits with priority 2 on CPU 0 *)

Definition booted : sched := sched_init zeroed.
Definition demo_sched : sched :=
  match sched_enqueue_cpu 0 0 booted 5 2 0 with Ok (s, _) => s | _ => booted end.

Lemma booted_ok : cpu_ok booted 0 (fun _ => []).
Proof.
  apply (fresh_cpu_ok _ _ 0); try done.
  - intros i Hi; unfold is_prio, SCHED_MAX_PRIO in Hi; cbn; by case_match.
  - intros u Hu Hu0; unfold is_task, PM_MAX_TASK in Hu; cbn -[set_valid].
    rewrite fn_lookup_insert_ne by congruence; by case_match.
Qed.

Lemma demo_ok : cpu_ok demo_sched 0 (push (fun _ => []) 2 5).
Proof.
  destruct (enqueue_ok 0 0 booted 0 (fun _ => []) (0, 0) 5 2) as (s & b & E & Hok & _);
    [done|exact booted_ok|done|done|done|done|].
  unfold demo_sched; rewrite E; exact Hok.
Qed.

Lemma demo_supplied : supplied demo_sched 0.
Proof.
  intros u Hu; destruct (decide (u = 0)) as [->|]; [done|]; destruct (decide (u = 5)) as [->|]; [done|].
  assert (E : runnable demo_sched (0, u) = mk_runnable 0 0 0 0); [|by rewrite E].
  assert (E : runnable demo_sched = <[(0, 0) := mk_runnable 10 0 1 1]> (<[(0, 5) := mk_runnable 10 2 0 1]> (runnable booted)))
    by reflexivity.
  rewrite E, !fn_lookup_insert_ne by congruence; unfold booted; cbn -[set_valid].
  rewrite fn_lookup_insert_ne by congruence; by case_match.
Qed.

(** ** Properties *)

(** C22. In every state the kernel can reach, on every started CPU, the ready queues
    are well-formed lists of distinct valid tasks with the priority of their queue,
    the idle task is active or waits, and [sched_schedule] neither panics nor
    follows a null pointer: it makes a task active and returns it. *)
Theorem sched_invariant s c :
  reach s -> is_cpu c -> cpu_used s c <> 0 ->
  exists rq, cpu_ok s c rq /\ exists s' t, sched_schedule c s = Ok (s', t) /\ active s' c = Some (c, t) /\ is_task t.
Proof.
  intros Hs Hc Hu; destruct (used_cpu_ok s c (reach_ok s Hs) Hc Hu) as [rq Hok]; exists rq; split; [done|].
  destruct (schedule_ok s c rq Hok) as (rq' & s' & t & E & Hok' & Ha & _); exists s', t; split_and!; auto.
  by destruct (c_active _ _ _ Hok' _ Ha) as (? & [= <-] & []).
Qed.

Lemma sched_invariant_witness :
  exists rq, cpu_ok booted 0 rq /\ exists s' t, sched_schedule 0 booted = Ok (s', t) /\ active s' 0 = Some (0, t) /\ is_task t.
Proof. apply (sched_invariant booted 0); [constructor|done|done]. Defined.

(** C23. [sched_schedule] keeps the active task unless it is marked for rescheduling;
    else that task is queued behind the others of its priority, one priority lower if
    it used up its quantum, and the first task of the highest queue that is not
    empty becomes active. Other CPUs are not affected. *)
Theorem schedule_correct s c rq :
  cpu_ok s c rq ->
  exists rq' s' t, sched_schedule c s = Ok (s', t) /\ cpu_ok s' c rq' /\ active s' c = Some (c, t) /\
    (forall c', c' <> c -> same_cpu s s' c') /\
    if keeps_active s c then s' = s /\ rq' = rq
    else exists i, chooses (requeued s c rq) i t /\ rq' = pop (requeued s c rq) i.
Proof.
  intros Hok; destruct (schedule_ok s c rq Hok) as (rq' & s' & t & E & Hok' & Ha & Hf & Hcase); exists rq', s', t.
  split_and!; auto; destruct (keeps_active s c); auto; destruct Hcase as (i & ? & _ & ? & _); eauto.
Qed.

Lemma schedule_correct_witness :
  exists rq' s' t, sched_schedule 0 demo_sched = Ok (s', t) /\ cpu_ok s' 0 rq' /\ active s' 0 = Some (0, t) /\
    exists i, chooses (requeued demo_sched 0 (push (fun _ => []) 2 5)) i t.
Proof.
  destruct (schedule_correct demo_sched 0 _ demo_ok) as (rq' & s' & t & E & Hok & Ha & _ & i & Hch & _).
  exists rq', s', t; split_and!; eauto.
Defined.

(** C24. No task starves: while tasks run until their quantum is used up and none is
    added or removed, every waiting task becomes active after a number of time
    slices that is bounded by the number of tasks and priorities. *)
Theorem no_starvation s c rq a t :
  cpu_ok s c rq -> active s c = Some (c, a) -> supplied s c -> t ∈ ready rq ->
  exists n s', Z.of_nat n <= 2 * SCHED_MAX_PRIO * (Z.of_nat (length (ready rq)) + 1) + Z.of_nat (length (ready rq)) + 2 /\
    slices n c s = Ok s' /\ active s' c = Some (c, t).
Proof.
  intros Hok Ha Hsup (p & Hp & (l1 & l2 & E)%list_elem_of_split)%elem_of_ready.
  destruct (c_active _ _ _ Hok _ Ha) as (? & [= <-] & [_ AP _ _]); unfold is_prio in AP.
  set (M := rounds p rq (priority (runnable s (c, a))) (length l1)).
  assert (0 <= M <= 2 * SCHED_MAX_PRIO * (Z.of_nat (length (ready rq)) + 1) + Z.of_nat (length (ready rq)) + 1) as HM.
  { destruct (ready_split rq p Hp) as (m1 & m2 & Em & _); assert (length l1 <= length (ready rq))%nat.
    { rewrite Em, E, !length_app; lia. }
    pose proof (weight_bound p rq (proj1 Hp)); unfold M, rounds; case_test; destruct Hp; lia. }
  destruct (slices_reach (Z.to_nat M) s c rq a t p l1 l2 Hok Ha Hsup Hp E) as (k & s' & Hk & Hs & Hact); [lia|].
  exists k, s'; split_and!; auto; lia.
Qed.

Lemma no_starvation_witness :
  exists n s', Z.of_nat n <= 63 /\ slices n 0 demo_sched = Ok s' /\ active s' 0 = Some (0, 5).
Proof.
  apply (no_starvation demo_sched 0 (push (fun _ => []) 2 5) 0 5 demo_ok eq_refl demo_supplied).
  vm_compute; left.
Defined.

(** The CPU chosen for a new task has the shortest queue of all CPUs in use. *)
Theorem next_cpu_shortest s c :
  cpu_used s SMP_BSP_ID <> 0 -> is_cpu c -> cpu_used s c <> 0 ->
  is_cpu (get_next_cpu s) /\ cpu_used s (get_next_cpu s) <> 0 /\
  cpu_queue_length s (get_next_cpu s) <= cpu_queue_length s c.
Proof. intros Hb Hc Hu; destruct (next_cpu_ok s Hb) as (? & ? & H); auto. Qed.

Lemma next_cpu_shortest_witness :
  is_cpu (get_next_cpu booted) /\ cpu_used booted (get_next_cpu booted) <> 0 /\
  cpu_queue_length booted (get_next_cpu booted) <= cpu_queue_length booted 0.
Proof. apply (next_cpu_shortest booted 0); done. Defined.

(** Task 5 runs on CPU 0 and blocks; before CPU 0 has chosen its next task, CPU 1 queues
    task 6 there. *)
Definition wakeup_race : res (sched * bool) :=
  '(s, _) ← sched_schedule 0 demo_sched;
  s ← sched_dequeue 0 s;
  sched_enqueue_cpu 1 0 s 6 1 0.

(** Between [sched_dequeue] and [sched_schedule] a CPU has no active runnable, and
    [sched_enqueue_cpu] on another CPU follows that null pointer. *)
Theorem enqueue_race_faults : wakeup_race = Fault.
Proof. reflexivity. Qed.


End SchedProofs.
