(* ===== verification/Sync.v ===== *)
(** * Locks ([kernel/locks.c], and the part of [kernel/pm.c] that blocks tasks)

    Spinlocks, instruction by instruction, and what is built on them: semaphores,
    condition variables, timeouts and read-write locks.

    In the second part a section under spinlocks is one step, as the first part
    allows.  A task that has blocked itself continues in a later step, when it is
    running again.  Event control blocks are numbered in the order of their
    allocation, and [kmalloc] says which allocations succeed.  Queues are lists: the
    theorem on the list macros relates them to the linked structures.  Calls of the
    scheduler are recorded. *)

From S2P Require Import Prelude Sched.

Module Sync.
Import Sched.

(** ** Spinlocks *)

(** Where a CPU is: outside, in [spinlock_get] before [cli], before the exchange, or
    in the inner loop, between the two functions, and in [spinlock_release] before
    the flags are restored. *)
Inductive spin_point := Outside | At_cli | At_xchg | Spinning | Inside | At_restore.

(** The lock, the variable [reg], the interrupt flag and its saved copy. *)
Record spin := mk_spin {
  lock_int : Z;
  point : Z -> spin_point;
  reg : Z -> Z;
  eflags : Z -> bool;
  saved : Z -> bool;
}.

Definition spinlock_init (s : spin) : spin := mk_spin 0 (point s) (reg s) (eflags s) (saved s).

(** The next instruction of [spinlock_get] on a CPU. *)
Definition spinlock_get (c : Z) (s : spin) : spin :=
  match point s c with
  | Outside => mk_spin (lock_int s) (<[c := At_cli]> (point s)) (<[c := 1]> (reg s)) (eflags s) (<[c := eflags s c]> (saved s))
  | At_cli => mk_spin (lock_int s) (<[c := At_xchg]> (point s)) (reg s) (<[c := false]> (eflags s)) (saved s)
  | At_xchg =>
      let old := lock_int s in
      mk_spin (reg s c) (<[c := if old =? 1 then Spinning else if old =? 0 then Inside else At_xchg]> (point s))
        (<[c := old]> (reg s)) (eflags s) (saved s)
  | Spinning =>
      if lock_int s =? 1 then s else mk_spin (lock_int s) (<[c := At_xchg]> (point s)) (reg s) (eflags s) (saved s)
  | Inside | At_restore => s
  end.

(** The next instruction of [spinlock_release]. *)
Definition spinlock_release (c : Z) (s : spin) : spin :=
  match point s c with
  | Inside => mk_spin 0 (<[c := At_restore]> (point s)) (reg s) (eflags s) (saved s)
  | At_restore => mk_spin (lock_int s) (<[c := Outside]> (point s)) (reg s) (<[c := saved s c]> (eflags s)) (saved s)
  | _ => s
  end.

(** ** Tasks *)

Inductive task_status :=
  | TASK_STATUS_NEW | TASK_STATUS_RUNNING | TASK_STATUS_BLOCKED | TASK_STATUS_DONE | TASK_STATUS_STOPPED
  | TASK_STATUS_BLOCKED_INTR.

#[export] Instance task_status_eq_dec : EqDecision task_status.
Proof. solve_decision. Defined.

(** The fields that matter here. *)
Record task_t := mk_task {
  slot_used : bool;
  status : task_status;
  task_priority : Z;
  sig_waiting : Z;
  sig_blocked : Z;
  sig_pending : Z;
  intr : bool;
  task_idle : bool;
  floating : bool;
  task_cpuid : Z;
}.

Definition set_status (v : task_status) (t : task_t) : task_t :=
  mk_task (slot_used t) v (task_priority t) (sig_waiting t) (sig_blocked t) (sig_pending t) (intr t) (task_idle t) (floating t) (task_cpuid t).
Definition set_intr (v : bool) (t : task_t) : task_t :=
  mk_task (slot_used t) (status t) (task_priority t) (sig_waiting t) (sig_blocked t) (sig_pending t) v (task_idle t) (floating t) (task_cpuid t).
Definition set_pending (v : Z) (t : task_t) : task_t :=
  mk_task (slot_used t) (status t) (task_priority t) (sig_waiting t) (sig_blocked t) v (intr t) (task_idle t) (floating t) (task_cpuid t).
Definition set_floating (t : task_t) : task_t :=
  mk_task (slot_used t) (status t) (task_priority t) (sig_waiting t) (sig_blocked t) (sig_pending t) (intr t) (task_idle t) true (task_cpuid t).

Record ecb_t := mk_ecb { waiting_task : Z; timeout_value : Z; timeout : bool; is_active : bool; ecb_cpuid : Z }.

(** The fields [timed], [cpuid], [next] and [prev] are not used; [timeout_val] is only set. *)
Record semaphore_t := mk_sem { value : Z; queue : list Z; sem_timeout_flag : bool }.

Inductive sched_call := Enqueue (task prio : Z) | EnqueueCpu (task prio cpu : Z) | Dequeue (task : Z).

Record sync := mk_sync {
  tasks : Z -> task_t;
  ecbs : Z -> ecb_t;
  sems : Z -> semaphore_t;
  conds : Z -> list Z;
  timed_ecb_queue : Z -> list Z;
  sched_calls : list sched_call;
  next_ecb : Z;
}.

Definition set_tasks v s := mk_sync v (ecbs s) (sems s) (conds s) (timed_ecb_queue s) (sched_calls s) (next_ecb s).
Definition set_ecbs v s := mk_sync (tasks s) v (sems s) (conds s) (timed_ecb_queue s) (sched_calls s) (next_ecb s).
Definition set_sems v s := mk_sync (tasks s) (ecbs s) v (conds s) (timed_ecb_queue s) (sched_calls s) (next_ecb s).
Definition set_conds v s := mk_sync (tasks s) (ecbs s) (sems s) v (timed_ecb_queue s) (sched_calls s) (next_ecb s).
Definition set_timed v s := mk_sync (tasks s) (ecbs s) (sems s) (conds s) v (sched_calls s) (next_ecb s).
Definition add_call v s := mk_sync (tasks s) (ecbs s) (sems s) (conds s) (timed_ecb_queue s) (v :: sched_calls s) (next_ecb s).
Definition set_next_ecb v s := mk_sync (tasks s) (ecbs s) (sems s) (conds s) (timed_ecb_queue s) (sched_calls s) v.

Definition on_task (t : Z) (f : task_t -> task_t) (s : sync) : sync := set_tasks (<[t := f (tasks s t)]> (tasks s)) s.

Definition run_task (t : Z) (s : sync) : res sync :=
  if negb (slot_used (tasks s t)) then Panic
  else if bool_decide (status (tasks s t) = TASK_STATUS_RUNNING) then Panic
  else
    let s := on_task t (set_status TASK_STATUS_RUNNING) s in
    let prio := Z.min (task_priority (tasks s t) + 1) SCHED_MAX_PRIO in
    Ok (add_call (if task_cpuid (tasks s t) =? -1 then Enqueue t prio else EnqueueCpu t prio (task_cpuid (tasks s t))) s).

(** [self] is the task that calls. *)
Definition block_task (self : Z) (s : sync) : res sync :=
  if negb (bool_decide (status (tasks s self) = TASK_STATUS_RUNNING)) then Panic
  else Ok (on_task self (set_status TASK_STATUS_BLOCKED) (add_call (Dequeue self) (on_task self set_floating s))).

Definition block_task_intr (self : Z) (s : sync) : res sync :=
  let t := tasks s self in
  if negb (Z.land (sig_pending t) (u32 (Z.lnot (sig_blocked t))) =? 0) then Ok (on_task self (set_intr true) s)
  else if negb (bool_decide (status t = TASK_STATUS_RUNNING)) then Panic
  else Ok (on_task self (set_status TASK_STATUS_BLOCKED_INTR) (add_call (Dequeue self) (on_task self set_floating s))).

(** [TASK_STATUS_BLOCKED == status || TASK_STATUS_BLOCKED_INTR == status] *)
Definition sleeping (t : task_t) : bool :=
  bool_decide (status t = TASK_STATUS_BLOCKED) || bool_decide (status t = TASK_STATUS_BLOCKED_INTR).

Definition wakeup_task (ecb : Z) (s : sync) : res sync :=
  let task_id := waiting_task (ecbs s ecb) in
  if sleeping (tasks s task_id) then run_task task_id s else Ok s.

(** ** Timeouts of event control blocks ([kernel/timer.c]) *)

Definition SEM_CHECK : Z := 10.

Definition timer_time_ecb (cpu ecb timeout : Z) (s : sync) : sync :=
  let s := set_ecbs (<[ecb := mk_ecb (waiting_task (ecbs s ecb)) timeout false true cpu]> (ecbs s)) s in
  set_timed (<[cpu := timed_ecb_queue s cpu ++ [ecb]]> (timed_ecb_queue s)) s.

Definition timer_cancel_ecb (ecb : Z) (s : sync) : sync :=
  let cpu := ecb_cpuid (ecbs s ecb) in
  if (cpu <? 0) || (SMP_MAX_CPU <=? cpu) then s
  else set_timed (<[cpu := filter (fun e => e <> ecb) (timed_ecb_queue s cpu)]> (timed_ecb_queue s)) s.

(** The last part of the timer interrupt: the control blocks timed on this CPU. *)
Fixpoint expire (l : list Z) (s : sync) : res sync :=
  match l with
  | [] => Ok s
  | e :: l =>
      let b := ecbs s e in
      if is_active b then
        let v := if SEM_CHECK <=? timeout_value b then u32 (timeout_value b - SEM_CHECK) else 0 in
        let s := set_ecbs (<[e := mk_ecb (waiting_task b) v (timeout b || (v =? 0)) true (ecb_cpuid b)]> (ecbs s)) s in
        s ← (if v =? 0 then wakeup_task e s else Ok s);
        expire l s
      else expire l s
  end.

Definition check_ecbs (cpuid ticks : Z) (s : sync) : res sync :=
  if ticks mod SEM_CHECK =? 0 then expire (timed_ecb_queue s cpuid) s else Ok s.

(** ** Semaphores *)

Definition sem_init (sem v : Z) (s : sync) : sync := set_sems (<[sem := mk_sem v [] false]> (sems s)) s.

Definition set_value (sem v : Z) (s : sync) : sync :=
  set_sems (<[sem := mk_sem v (queue (sems s sem)) (sem_timeout_flag (sems s sem))]> (sems s)) s.
Definition set_waiting (sem : Z) (q : list Z) (s : sync) : sync :=
  set_sems (<[sem := mk_sem (value (sems s sem)) q (sem_timeout_flag (sems s sem))]> (sems s)) s.

(** A down operation: whether the sleep can be interrupted, and the timeout, if any. *)
Record down_call := mk_down { c_intr : bool; c_timeout : option Z }.
Definition sem_down : down_call := mk_down false None.
Definition sem_down_intr : down_call := mk_down true None.
Definition sem_down_timed (t : Z) : down_call := mk_down true (Some t).

(** How a step of an operation ends: it returns, or the task waits with a control block. *)
Inductive outcome := Return (rc : Z) | Wait (ecb : Z).

Section Operations.
Context (kmalloc : Z -> bool).

(** [kmalloc], and the timer if there is a timeout. *)
Definition new_ecb (cpu self : Z) (t : option Z) (s : sync) : res (Z * sync) :=
  let e := next_ecb s in
  if negb (kmalloc e) then Panic
  else
    let s := set_next_ecb (e + 1) (set_ecbs (<[e := mk_ecb self 0 false false 0]> (ecbs s)) s) in
    Ok (e, match t with Some v => timer_time_ecb cpu e v s | None => s end).

(** The test of the loop of [perform_sem_down] and its body, up to [reschedule];
    [irq]: interrupts were enabled. *)
Definition down_test (cpu : Z) (irq : bool) (c : down_call) (self sem : Z) (s : sync) : res (outcome * sync) :=
  if value (sems s sem) =? 0 then
    if negb irq then Panic
    else
      '(e, s) ← new_ecb cpu self (c_timeout c) s;
      let s := set_waiting sem (queue (sems s sem) ++ [e]) s in
      s ← (if c_intr c then block_task_intr self s else block_task self s);
      Ok (Wait e, s)
  else Ok (Return 0, set_value sem (u32 (value (sems s sem) - 1)) s).

Definition perform_sem_down (cpu : Z) (irq : bool) (c : down_call) (self sem : Z) (s : sync) : res (outcome * sync) :=
  if bool_decide (status (tasks s self) = TASK_STATUS_DONE) || negb (slot_used (tasks s self)) then Panic
  else down_test cpu irq c self sem s.

(** The rest of the body, when the task runs again, and the next test. *)
Definition down_resume (cpu : Z) (irq : bool) (c : down_call) (self sem e : Z) (s : sync) : res (outcome * sync) :=
  if negb (slot_used (tasks s self)) then Panic
  else
    let s := set_waiting sem (filter (fun x => x <> e) (queue (sems s sem))) s in
    let b := ecbs s e in
    let s := if is_active b then timer_cancel_ecb e s else s in
    if is_active b && timeout b then Ok (Return (-2), s)
    else if c_intr c && intr (tasks s self) then Ok (Return (-1), on_task self (set_intr false) s)
    else down_test cpu irq c self sem s.

Definition sem_down_nowait (sem : Z) (s : sync) : Z * sync :=
  if 0 <? value (sems s sem) then (0, set_value sem (u32 (value (sems s sem) - 1)) s) else (-1, s).

(** The first task in the queue that still sleeps. *)
Fixpoint wake_first (l : list Z) (s : sync) : res sync :=
  match l with
  | [] => Ok s
  | e :: l =>
      let task_id := waiting_task (ecbs s e) in
      if sleeping (tasks s task_id) then run_task task_id s else wake_first l s
  end.

Definition perform_sem_up (sem max_value : Z) (t : bool) (s : sync) : res sync :=
  let s := if t then set_sems (<[sem := mk_sem (value (sems s sem)) (queue (sems s sem)) true]> (sems s)) s else s in
  s ← (if value (sems s sem) =? 0 then wake_first (queue (sems s sem)) s else Ok s);
  Ok (if (value (sems s sem) <? max_value) || (max_value =? 0) then set_value sem (u32 (value (sems s sem) + 1)) s else s).

Definition sem_up (sem : Z) : sync -> res sync := perform_sem_up sem 0 false.
Definition sem_timeout (sem : Z) : sync -> res sync := perform_sem_up sem 0 true.
Definition mutex_up (sem : Z) : sync -> res sync := perform_sem_up sem 1 false.

(** ** Condition variables *)

Definition cond_init (cond : Z) (s : sync) : sync := set_conds (<[cond := []]> (conds s)) s.

(** [cond_wait_intr_timed] up to [reschedule], and the rest: the result, and whether
    the lock is held.  The caller holds the lock, so that it runs alone. *)
Definition cond_wait (cpu : Z) (irq : bool) (self cond timeout : Z) (s : sync) : res (Z * sync) :=
  if negb irq then Panic
  else
    '(e, s) ← new_ecb cpu self (if timeout =? 0 then None else Some timeout) s;
    let s := set_conds (<[cond := conds s cond ++ [e]]> (conds s)) s in
    s ← block_task_intr self s;
    Ok (e, s).

Definition cond_wait_resume (self cond e : Z) (s : sync) : Z * bool * sync :=
  let s := set_conds (<[cond := filter (fun x => x <> e) (conds s cond)]> (conds s)) s in
  let b := ecbs s e in
  let s := if is_active b then timer_cancel_ecb e s else s in
  if is_active b && timeout b then (-2, false, s)
  else if intr (tasks s self) then (-1, false, on_task self (set_intr false) s)
  else (0, true, s).

Fixpoint wake_all (l : list Z) (s : sync) : res sync :=
  match l with
  | [] => Ok s
  | e :: l =>
      let task := waiting_task (ecbs s e) in
      s ← (if sleeping (tasks s task) then run_task task s else Ok s);
      wake_all l s
  end.

Definition cond_broadcast (cond : Z) (s : sync) : res sync := wake_all (conds s cond) s.

(** ** Signals *)

(** [signal_task]; [ign]: the signal is ignored. *)
Definition signal_task (t sig_no : Z) (force ign : bool) (s : sync) : res (Z * sync) :=
  let k := tasks s t in
  let has m := negb (Z.land (Z.shiftl 1 sig_no) m =? 0) in
  if bool_decide (status k = TASK_STATUS_DONE) || task_idle k then Ok (0, s)
  else if has (sig_blocked k) && negb (has (sig_waiting k)) && negb force then Ok (0, s)
  else if has (sig_pending k) then Ok (1, s)
  else
    let s := on_task t (set_pending (Z.lor (sig_pending k) (Z.shiftl 1 sig_no))) s in
    if (bool_decide (status k = TASK_STATUS_BLOCKED_INTR) && negb (has (sig_blocked k))
        || bool_decide (status k = TASK_STATUS_BLOCKED) && has (sig_waiting k)) && negb ign then
      let s := if bool_decide (status k = TASK_STATUS_BLOCKED_INTR) then on_task t (set_intr true) s else s in
      s ← run_task t s;
      Ok (1, s)
    else Ok (1, s).

(** ** Read-write locks *)

(** The semaphores [read_count_mutex] and [wrt_mutex] of the lock. *)
Definition read_count_mutex : Z := 0.
Definition wrt_mutex : Z := 1.

(** Where a task is in the functions of a read-write lock, and its control block
    where it sleeps. *)
Inductive rw_point :=
  | Idle
  | Get_wait (e : Z) | Get_count | Get_wrt | Get_wrt_wait (e : Z) | Get_up
  | Reading
  | Put_wait (e : Z) | Put_count | Put_wrt | Put_up
  | Write_wait (e : Z)
  | Writing.

#[export] Instance rw_point_eq_dec : EqDecision rw_point.
Proof. solve_decision. Defined.

Record rw := mk_rw { rw_sync : sync; readers : Z; at_point : Z -> rw_point }.

Definition rw_lock_init (s : sync) (p : Z -> rw_point) : rw :=
  mk_rw (sem_init wrt_mutex 1 (sem_init read_count_mutex 1 s)) 0 p.

(** The state after a step of [sem_down] by a task. *)
Definition after_down (r : res (outcome * sync)) (w : rw) (t : Z) (done : rw_point) (wait : Z -> rw_point) : res rw :=
  '(o, s) ← r;
  Ok (mk_rw s (readers w) (<[t := match o with Return _ => done | Wait e => wait e end]> (at_point w))).

Definition after_up (r : res sync) (w : rw) (t : Z) (p : rw_point) : res rw :=
  s ← r; Ok (mk_rw s (readers w) (<[t := p]> (at_point w))).

(** The next step of [rw_lock_get_read_lock]. *)
Definition rw_lock_get_read_lock (cpu t : Z) (w : rw) : res rw :=
  let s := rw_sync w in
  match at_point w t with
  | Idle => after_down (perform_sem_down cpu true sem_down t read_count_mutex s) w t Get_count Get_wait
  | Get_wait e => after_down (down_resume cpu true sem_down t read_count_mutex e s) w t Get_count Get_wait
  | Get_count =>
      let n := u32 (readers w + 1) in
      Ok (mk_rw s n (<[t := if n =? 1 then Get_wrt else Get_up]> (at_point w)))
  | Get_wrt => after_down (perform_sem_down cpu true sem_down t wrt_mutex s) w t Get_up Get_wrt_wait
  | Get_wrt_wait e => after_down (down_resume cpu true sem_down t wrt_mutex e s) w t Get_up Get_wrt_wait
  | Get_up => after_up (mutex_up read_count_mutex s) w t Reading
  | _ => Ok w
  end.

Definition rw_lock_release_read_lock (cpu t : Z) (w : rw) : res rw :=
  let s := rw_sync w in
  match at_point w t with
  | Reading => after_down (perform_sem_down cpu true sem_down t read_count_mutex s) w t Put_count Put_wait
  | Put_wait e => after_down (down_resume cpu true sem_down t read_count_mutex e s) w t Put_count Put_wait
  | Put_count =>
      let n := u32 (readers w - 1) in
      Ok (mk_rw s n (<[t := if n =? 0 then Put_wrt else Put_up]> (at_point w)))
  | Put_wrt => after_up (mutex_up wrt_mutex s) w t Put_up
  | Put_up => after_up (mutex_up read_count_mutex s) w t Idle
  | _ => Ok w
  end.

Definition rw_lock_get_write_lock (cpu t : Z) (w : rw) : res rw :=
  let s := rw_sync w in
  match at_point w t with
  | Idle => after_down (perform_sem_down cpu true sem_down t wrt_mutex s) w t Writing Write_wait
  | Write_wait e => after_down (down_resume cpu true sem_down t wrt_mutex e s) w t Writing Write_wait
  | _ => Ok w
  end.

Definition rw_lock_release_write_lock (t : Z) (w : rw) : res rw :=
  match at_point w t with
  | Writing => after_up (mutex_up wrt_mutex (rw_sync w)) w t Idle
  | _ => Ok w
  end.

End Operations.
End Sync.
