(* ===== verification/SyncProofs.v ===== *)
(** * Locks: spinlocks and semaphores

    Mutual exclusion by spinlocks, for any interleaving of the instructions of any
    number of CPUs, and an invariant of semaphores used as mutexes, which says that no
    task sleeps on a semaphore that is free unless a task that was woken up is about
    to look at it. *)

From S2P Require Import Prelude Sched Sync.

Module SyncProofs.
Import Sched Sync.

(** ** Spinlocks *)

(** A CPU executes an instruction of one of the functions, or, outside of them,
    changes its interrupt flag. *)
Inductive spin_step : spin -> spin -> Prop :=
  | step_get c s : point s c <> Inside -> point s c <> At_restore -> spin_step s (spinlock_get c s)
  | step_release c s : point s c = Inside \/ point s c = At_restore -> spin_step s (spinlock_release c s)
  | step_flags c b s : point s c = Outside ->
      spin_step s (mk_spin (lock_int s) (point s) (reg s) (<[c := b]> (eflags s)) (saved s)).

Record spin_ok (s : spin) : Prop := {
  so_word : lock_int s = 0 /\ (forall c, point s c <> Inside) \/
    lock_int s = 1 /\ exists c, point s c = Inside /\ forall c', point s c' = Inside -> c' = c;
  so_reg c : point s c = At_cli \/ point s c = At_xchg \/ point s c = Spinning -> reg s c = 1;
  so_flag c : point s c <> Outside -> point s c <> At_cli -> eflags s c = false;
}.

(** Splits on whether the CPU that moves is the one looked at. *)
Ltac cpus := repeat match goal with
  | H : context [<[?c := _]> _ ?c'] |- _ => destruct (decide (c = c')) as [->|];
      [rewrite ?fn_lookup_insert in *|rewrite ?(fn_lookup_insert_ne _ c c') in * by done]
  | |- context [<[?c := _]> _ ?c'] => destruct (decide (c = c')) as [->|];
      [rewrite ?fn_lookup_insert in *|rewrite ?(fn_lookup_insert_ne _ c c') in * by done]
  end.

(** A step that does not enter or leave the lock keeps what is known of the word. *)
Lemma word_keep s c p : point s c <> Inside -> p <> Inside ->
  (lock_int s = 0 /\ (forall c, point s c <> Inside) \/
    lock_int s = 1 /\ exists c, point s c = Inside /\ forall c', point s c' = Inside -> c' = c) ->
  lock_int s = 0 /\ (forall c', <[c := p]> (point s) c' <> Inside) \/
    lock_int s = 1 /\ exists d, <[c := p]> (point s) d = Inside /\ forall c', <[c := p]> (point s) c' = Inside -> c' = d.
Proof.
  intros Hc Hp [[E H]|(E & d & Hd & Hu)]; [left|right]; (split; [done|]).
  - intros c'; cpus; auto.
  - exists d; split; [cpus; congruence|]; intros c'; cpus; auto; congruence.
Qed.

Lemma spin_get_ok c s : spin_ok s -> point s c <> Inside -> point s c <> At_restore -> spin_ok (spinlock_get c s).
Proof.
  intros [Hw Hr Hf] H1 H2; unfold spinlock_get; destruct (point s c) eqn:E; try done.
  - constructor; cbn; [by apply word_keep; rewrite ?E| |]; intros c'; cpus; auto.
  - constructor; cbn; [by apply word_keep; rewrite ?E| |]; intros c'; cpus; auto; intros; apply Hr; tauto.
  - destruct Hw as [[Ew Hn]|(Ew & d & Hd & Hu)]; rewrite Ew; cbn [Z.eqb Pos.eqb].
    + constructor; cbn; [right; split; [apply Hr; tauto|]| |].
      * exists c; split; [by rewrite fn_lookup_insert|]; intros c'; cpus; [done|]; intros []%Hn.
      * intros c'; cpus; auto; intros [|[|]]; done.
      * intros c'; cpus; auto; intros; apply Hf; congruence.
    + constructor; cbn; [rewrite Hr by tauto; rewrite <- Ew at 1 2; apply word_keep; [congruence|done|right; eauto]| |].
      * intros c'; cpus; auto.
      * intros c'; cpus; auto; intros; apply Hf; congruence.
  - case_test; [by constructor|].
    constructor; cbn; [by apply word_keep; rewrite ?E|intros c'; cpus; auto; intros; apply Hr; tauto|].
    intros c'; cpus; auto; intros; apply Hf; congruence.
Qed.

Lemma spin_release_ok c s : spin_ok s -> point s c = Inside \/ point s c = At_restore -> spin_ok (spinlock_release c s).
Proof.
  intros [Hw Hr Hf] [E|E]; unfold spinlock_release; rewrite E.
  - constructor; cbn.
    + left; split; [done|]; intros c'; cpus; [done|]; intros Hi.
      destruct Hw as [[_ Hn]|(_ & d & Hd & Hu)]; [by apply (Hn c)|]; rewrite (Hu c E), (Hu c' Hi) in *; done.
    + intros c'; cpus; auto; intros [|[|]]; done.
    + intros c'; cpus; auto; intros; apply Hf; congruence.
  - constructor; cbn; [by apply word_keep; rewrite ?E| |].
    + intros c'; cpus; auto; intros [|[|]]; done.
    + intros c'; cpus; auto; done.
Qed.

Lemma spin_reachable s0 s : rtc spin_step s0 s -> spin_ok s0 -> spin_ok s.
Proof.
  induction 1 as [|s1 s2 s3 Hs _ IH]; [done|]; intros H; apply IH; destruct Hs; [by apply spin_get_ok|by apply spin_release_ok|].
  destruct H as [Hw Hr Hf]; constructor; cbn; auto; intros c'; cpus; auto; done.
Qed.

(** C27. Spinlocks exclude each other, for any interleaving of the instructions of any
    number of CPUs: at most one CPU is between [spinlock_get] and [spinlock_release],
    its interrupts are off, and the lock is taken exactly if there is one.  If there
    is none, a CPU that waits gets the lock with its next two instructions; and the
    two instructions of [spinlock_release] give the interrupt flag its old value. *)
Theorem spinlock_exclusion s0 s :
  lock_int s0 = 0 -> (forall c, point s0 c = Outside) -> rtc spin_step s0 s ->
  (forall c c', point s c = Inside -> point s c' = Inside -> c = c') /\
  (forall c, point s c = Inside -> lock_int s = 1 /\ eflags s c = false /\
     point (spinlock_release c (spinlock_release c s)) c = Outside /\
     eflags (spinlock_release c (spinlock_release c s)) c = saved s c) /\
  ((forall c, point s c <> Inside) -> lock_int s = 0 /\
     forall c, point s c = At_xchg \/ point s c = Spinning -> point (spinlock_get c (spinlock_get c s)) c = Inside).
Proof.
  intros E0 H0 H; destruct (spin_reachable _ _ H) as [Hw Hr Hf].
  { constructor; [left; split; [done|]; intros c; by rewrite H0|intros c; rewrite H0; intros [|[|]]; done|].
    intros c; by rewrite H0. }
  split; [|split].
  - intros c c' Hc Hc'; destruct Hw as [[_ Hn]|(_ & d & _ & Hu)]; [by apply Hn in Hc|]; by rewrite (Hu c), (Hu c').
  - intros c Hc; split; [destruct Hw as [[_ Hn]|[]]; [by apply Hn in Hc|done]|]; split; [apply Hf; congruence|].
    unfold spinlock_release at 2 4; rewrite Hc; unfold spinlock_release; cbn; by rewrite fn_lookup_insert; cbn; rewrite !fn_lookup_insert.
  - intros Hn; destruct Hw as [[Ew _]|(_ & d & Hd & _)]; [|by apply Hn in Hd].
    split; [done|]; intros c [Hc|Hc]; unfold spinlock_get at 2; rewrite Hc, Ew; cbn [Z.eqb];
      unfold spinlock_get; cbn; rewrite fn_lookup_insert; cbn; [by rewrite fn_lookup_insert|by rewrite ?Ew, fn_lookup_insert].
Qed.

(** CPU 1 takes the lock while CPU 2 spins. *)
Definition spin_start : spin := mk_spin 0 (fun _ => Outside) (fun _ => 0) (fun _ => true) (fun _ => false).
Definition spin_two : spin :=
  spinlock_get 2 (spinlock_get 2 (spinlock_get 2 (spinlock_get 1 (spinlock_get 1 (spinlock_get 1 spin_start))))).

Lemma spinlock_exclusion_witness :
  point spin_two 1 = Inside /\ point spin_two 2 = Spinning /\ lock_int spin_two = 1 /\ eflags spin_two 1 = false.
Proof.
  assert (H : rtc spin_step spin_start spin_two) by (repeat (eapply rtc_r; [|apply step_get; vm_compute; congruence]); apply rtc_refl).
  split; [reflexivity|]; split; [reflexivity|].
  destruct (spinlock_exclusion spin_start spin_two eq_refl (fun _ => eq_refl) H) as (_ & Hi & _).
  destruct (Hi 1 eq_refl) as (E & F & _); split; [exact E|exact F].
Defined.

(** ** Semaphores as mutexes *)

Section Mutexes.
Context (kmalloc : Z -> bool) (Hkmalloc : forall n, kmalloc n = true) (T : list Z).

(** [w] gives the semaphore and the control block a task of [T] waits with. *)
Record mutex_ok (w : Z -> option (Z * Z)) (s : sync) : Prop := {
  mo_slot t : t ∈ T -> slot_used (tasks s t) = true;
  mo_status t : t ∈ T -> status (tasks s t) = TASK_STATUS_RUNNING \/ status (tasks s t) = TASK_STATUS_BLOCKED /\ w t <> None;
  mo_queue x e : e ∈ queue (sems s x) <-> exists t, t ∈ T /\ w t = Some (x, e);
  mo_ecb t x e : t ∈ T -> w t = Some (x, e) ->
    waiting_task (ecbs s e) = t /\ is_active (ecbs s e) = false /\ e < next_ecb s;
  mo_value x : 0 <= value (sems s x) <= 1;
  mo_wake x t e : t ∈ T -> w t = Some (x, e) -> status (tasks s t) = TASK_STATUS_BLOCKED -> value (sems s x) = 1 ->
    exists t' e', t' ∈ T /\ w t' = Some (x, e') /\ status (tasks s t') = TASK_STATUS_RUNNING;
}.

(** The outcomes of a step of [sem_down] on [x]: the semaphore was free and is taken,
    or it was not and the task waits. *)
Definition downs (w : Z -> option (Z * Z)) (s : sync) (t x : Z) (r : res (outcome * sync)) : Prop :=
  exists o s', r = Ok (o, s') /\
    ((o = Return 0 /\ value (sems s x) = 1 /\ (forall y, value (sems s' y) = if y =? x then 0 else value (sems s y)) /\
      mutex_ok (<[t := None]> w) s') \/
     (exists e, o = Wait e /\ value (sems s x) = 0 /\ (forall y, value (sems s' y) = value (sems s y)) /\
      mutex_ok (<[t := Some (x, e)]> w) s')).

Lemma take_ok w s t x : mutex_ok w s -> w t = None -> value (sems s x) = 1 -> mutex_ok (<[t := None]> w) (set_value x 0 s).
Proof.
  intros [] Hw Hv; assert (Ew : forall t', <[t := None]> w t' = w t') by (intros t'; by cpus).
  constructor; cbn; auto.
  - intros t'; rewrite Ew; auto.
  - intros y e; setoid_rewrite Ew; rewrite <- mo_queue0; by cpus.
  - intros t' y e; rewrite Ew; eauto.
  - intros y; cpus; cbn; auto; lia.
  - intros y t' e; setoid_rewrite Ew; cpus; cbn; eauto; lia.
Qed.

Lemma wait_ok w s t x c cpu : mutex_ok w s -> t ∈ T -> w t = None -> status (tasks s t) = TASK_STATUS_RUNNING ->
  value (sems s x) = 0 -> c_intr c = false -> c_timeout c = None ->
  exists s', down_test kmalloc cpu true c t x s = Ok (Wait (next_ecb s), s') /\
    (forall y, value (sems s' y) = value (sems s y)) /\ mutex_ok (<[t := Some (x, next_ecb s)]> w) s'.
Proof.
  intros [] Ht Hw Hr Hv Hi Hc; unfold down_test, new_ecb, block_task; rewrite Hv, Hi, Hc, Hkmalloc; cbn.
  rewrite Hr; cbn.
  eexists; split; [reflexivity|]; cbn; split; [intros y; by cpus|]; constructor; cbn.
  - intros t' Ht'; cpus; cbn; auto.
  - intros t' Ht'; cpus; cbn; auto.
  - intros y e; cpus; cbn.
    + rewrite elem_of_app, mo_queue0, list_elem_of_singleton; split.
      * intros [(t' & ? & ?)| ->]; [exists t'; cpus; [congruence|done]|exists t; by rewrite fn_lookup_insert].
      * intros (t' & Ht' & Et'); cpus; [right; congruence|left; eauto].
    + rewrite mo_queue0; split; intros (t' & Ht' & Et'); exists t'; cpus; auto; congruence.
  - intros t' y e Ht'; destruct (decide (t = t')) as [<-|].
    + rewrite fn_lookup_insert; intros [= <- <-]; rewrite fn_lookup_insert; cbn; split_and!; auto; lia.
    + rewrite fn_lookup_insert_ne by done; intros Et'; destruct (mo_ecb0 t' y e Ht' Et') as (? & ? & ?).
      rewrite fn_lookup_insert_ne by lia; split_and!; auto; lia.
  - intros y; cpus; cbn; auto.
  - intros y t' e Ht'; destruct (decide (x = y)) as [<-|]; [intros ? ? Hy; rewrite fn_lookup_insert in Hy; cbn in Hy; lia|].
    rewrite (fn_lookup_insert_ne (sems s)) by done; cpus; [congruence|].
    intros Et' Hb Hy; destruct (mo_wake0 y t' e Ht' Et' Hb Hy) as (t2 & e2 & ? & ? & ?).
    exists t2, e2; cpus; [congruence|auto].
Qed.
Lemma mutex_ok_ext w w' s : (forall t, w' t = w t) -> mutex_ok w s -> mutex_ok w' s.
Proof.
  intros E []; constructor; auto; intros; repeat setoid_rewrite E; rewrite ?E in *; eauto.
Qed.

Lemma down_ok w s t x c cpu : mutex_ok w s -> t ∈ T -> w t = None -> status (tasks s t) = TASK_STATUS_RUNNING ->
  c_intr c = false -> c_timeout c = None -> downs w s t x (down_test kmalloc cpu true c t x s).
Proof.
  intros Hm Ht Hw Hr Hi Hc; pose proof (mo_value _ _ Hm x); destruct (decide (value (sems s x) = 0)) as [Hv|Hv].
  - destruct (wait_ok w s t x c cpu) as (s' & E & Hs & Hm'); auto.
    exists (Wait (next_ecb s)), s'; split; [done|]; right; exists (next_ecb s); auto.
  - assert (value (sems s x) = 1) as E by lia; unfold down_test; rewrite E; cbn -[set_value].
    eexists _, _; split; [reflexivity|]; left; split_and!; auto.
    + intros y; cbn; cpus; tests; done.
    + apply take_ok; auto.
Qed.

Lemma perform_down_ok w s t x cpu : mutex_ok w s -> t ∈ T -> w t = None -> status (tasks s t) = TASK_STATUS_RUNNING ->
  downs w s t x (perform_sem_down kmalloc cpu true sem_down t x s).
Proof.
  intros Hm Ht Hw Hr; unfold perform_sem_down; rewrite (mo_slot _ _ Hm t Ht), Hr; by apply down_ok.
Qed.

(** A task that runs again leaves the queue of a semaphore that is taken, or that it takes. *)
Lemma leave_ok w s s1 t x e : mutex_ok w s -> t ∈ T -> w t = Some (x, e) -> status (tasks s t) = TASK_STATUS_RUNNING ->
  tasks s1 = tasks s -> ecbs s1 = ecbs s -> next_ecb s1 = next_ecb s ->
  (forall y, y <> x -> sems s1 y = sems s y) -> value (sems s1 x) = 0 ->
  queue (sems s1 x) = filter (fun z => z <> e) (queue (sems s x)) ->
  mutex_ok (<[t := None]> w) s1.
Proof.
  intros [] Ht Hw Hr Et Ee En Hs Hv Hq; constructor; rewrite ?Et, ?Ee, ?En; auto.
  - intros t' Ht'; cpus; auto.
  - intros y z; destruct (decide (y = x)) as [->|].
    + rewrite Hq, list_elem_of_filter, mo_queue0; split.
      * intros (Hz & t' & Ht' & Et'); exists t'; cpus; [congruence|auto].
      * intros (t' & Ht' & Et'); cpus; [done|]; split; [|eauto]; intros ->.
        destruct (mo_ecb0 t x e Ht Hw) as [E1 _], (mo_ecb0 t' x e Ht' Et') as [E2 _]; congruence.
    + rewrite Hs, mo_queue0 by done; split; intros (t' & Ht' & Et'); exists t'; cpus; auto; congruence.
  - intros t' y z Ht'; cpus; [done|eauto].
  - intros y; destruct (decide (y = x)) as [->|]; [lia|rewrite Hs by done; auto].
  - intros y t' z Ht'; cpus; [done|]; intros Et' Hb Hy; destruct (decide (y = x)) as [->|]; [lia|].
    rewrite Hs in Hy by done; destruct (mo_wake0 y t' z Ht' Et' Hb Hy) as (t2 & e2 & ? & ? & ?).
    exists t2, e2; cpus; [congruence|auto].
Qed.

Lemma resume_ok w s t x e cpu : mutex_ok w s -> t ∈ T -> w t = Some (x, e) -> status (tasks s t) = TASK_STATUS_RUNNING ->
  downs w s t x (down_resume kmalloc cpu true sem_down t x e s).
Proof.
  intros Hm Ht Hw Hr; destruct (mo_ecb _ _ Hm t x e Ht Hw) as (_ & Ha & _); pose proof (mo_value _ _ Hm x).
  unfold down_resume; rewrite (mo_slot _ _ Hm t Ht); cbn -[set_waiting down_test filter].
  change (ecbs (set_waiting _ _ s) e) with (ecbs s e); rewrite Ha; cbn -[set_waiting down_test filter].
  set (s1 := set_waiting x _ s).
  assert (Hx : value (sems s1 x) = value (sems s x)) by (cbn; by rewrite fn_lookup_insert).
  assert (Hy : forall y, y <> x -> sems s1 y = sems s y) by (intros; cbn; by rewrite fn_lookup_insert_ne).
  assert (Hvals : forall y, value (sems s1 y) = value (sems s y)) by (intros y; destruct (decide (y = x)) as [->|]; [done|by rewrite Hy]).
  destruct (decide (value (sems s x) = 0)) as [Hv|Hv].
  - destruct (wait_ok (<[t := None]> w) s1 t x sem_down cpu) as (s' & -> & Hs & Hm'); auto; try congruence.
    + eapply leave_ok; eauto; [congruence|cbn; by rewrite fn_lookup_insert].
    + by rewrite fn_lookup_insert.
    + exists (Wait (next_ecb s1)), s'; split; [done|]; right; exists (next_ecb s1); split_and!; auto; [congruence|].
      eapply mutex_ok_ext; [|exact Hm']; intros t'; by cpus.
  - assert (value (sems s x) = 1) as E by lia; unfold down_test; rewrite Hx, E; cbn -[set_value s1].
    eexists _, _; split; [reflexivity|]; left; split_and!; auto.
    + intros y; rewrite <- Hvals; cbn -[s1]; cpus; tests; done.
    + eapply leave_ok; eauto; cbn; [intros; by rewrite !fn_lookup_insert_ne|by rewrite fn_lookup_insert|].
      by rewrite !fn_lookup_insert.
Qed.

(** [mutex_up] wakes up the first task that sleeps, if there is one. *)
Lemma wake_first_ok w s x l : mutex_ok w s -> (forall e, e ∈ l -> e ∈ queue (sems s x)) ->
  exists s', wake_first l s = Ok s' /\
    ((s' = s /\ forall t e, t ∈ T -> w t = Some (x, e) -> e ∈ l -> status (tasks s t) = TASK_STATUS_RUNNING) \/
     exists t e c, t ∈ T /\ w t = Some (x, e) /\ s' = add_call c (on_task t (set_status TASK_STATUS_RUNNING) s)).
Proof.
  intros Hm; induction l as [|e l IH]; intros Hl.
  { exists s; split; [done|]; left; split; [done|]; by intros t e _ _ ?%elem_of_nil. }
  destruct (proj1 (mo_queue _ _ Hm x e) (Hl e ltac:(left))) as (t & Ht & Et).
  destruct (mo_ecb _ _ Hm t x e Ht Et) as (Ew & _); cbn [wake_first]; rewrite Ew.
  destruct (mo_status _ _ Hm t Ht) as [Es|[Es _]]; unfold sleeping; rewrite Es; cbn -[run_task wake_first].
  - destruct IH as (s' & -> & IH); [intros; apply Hl; by right|]; exists s'; split; [done|].
    destruct IH as [[-> IH]|IH]; [left; split; [done|]|by right].
    intros t' e' Ht' Et' [->|He]%elem_of_cons; [|eauto].
    destruct (mo_ecb _ _ Hm t' x e Ht' Et') as (Ew' & _); congruence.
  - unfold run_task; rewrite (mo_slot _ _ Hm t Ht), Es; cbn -[on_task].
    eexists; split; [reflexivity|]; right; eauto 6.
Qed.

Lemma up_ok w s x : mutex_ok w s ->
  exists s', mutex_up x s = Ok s' /\ mutex_ok w s' /\ (forall y, value (sems s' y) = if y =? x then 1 else value (sems s y)) /\
    forall t, t ∈ T -> status (tasks s t) = TASK_STATUS_RUNNING -> status (tasks s' t) = TASK_STATUS_RUNNING.
Proof.
  intros Hm; pose proof (mo_value _ _ Hm x); unfold mutex_up, perform_sem_up.
  destruct (decide (value (sems s x) = 1)) as [E|E].
  { rewrite E; cbn; rewrite E; exists s; split_and!; auto; intros y; case_test; [by subst|done]. }
  assert (value (sems s x) = 0) as Ev by lia; rewrite Ev; cbn [Z.eqb].
  destruct (wake_first_ok w s x (queue (sems s x)) Hm ltac:(auto)) as (s' & -> & [[-> Hn]|(t & e & c & Ht & Et & ->)]); cbn -[set_value add_call].
  - rewrite Ev; change (u32 (0 + 1)) with 1; eexists; split; [reflexivity|]; split_and!; [|intros y; cbn; cpus; by tests|done].
    destruct Hm; constructor; cbn; auto.
    + intros y z; rewrite <- mo_queue0; by cpus.
    + intros y; cpus; cbn; auto; lia.
    + intros y t e Ht Et Hb; cpus; cbn; [|eauto]; intros _; exfalso.
      rewrite (Hn t e Ht Et) in Hb; [done|]; apply mo_queue0; eauto.
  - cbn; rewrite Ev; change (u32 (0 + 1)) with 1; eexists; split; [reflexivity|]; split_and!; [|intros y; cbn; cpus; by tests|cbn; intros t' ??; by cpus].
    destruct Hm; constructor; cbn; auto.
    + intros t' Ht'; cpus; cbn; auto.
    + intros t' Ht'; cpus; cbn; auto.
    + intros y z; rewrite <- mo_queue0; by cpus.
    + intros y; cpus; cbn; auto; lia.
    + intros y t' z Ht' Et' Hb; destruct (decide (t = t')) as [<-|]; [by rewrite fn_lookup_insert in Hb|].
      rewrite fn_lookup_insert_ne in Hb by done; destruct (decide (x = y)) as [<-|].
      * intros _; exists t, e; by rewrite fn_lookup_insert.
      * rewrite (fn_lookup_insert_ne (sems s)) by done; intros Hy; destruct (mo_wake0 y t' z Ht' Et' Hb Hy) as (t2 & e2 & ? & ? & ?).
        exists t2, e2; cpus; auto.
Qed.
End Mutexes.

End SyncProofs.
