(* ===== verification/RwLock.v ===== *)
(** * Read-write locks: exclusion and absence of deadlocks

    Any number of tasks that get and release a read-write lock, in any interleaving of
    their steps, with sleeping and waking up. *)

From S2P Require Import Prelude Sched Sync SyncProofs.

Module RwLock.
Import Sched Sync SyncProofs.

(** ** Counting tasks *)

Section Count.
Context (f : rw_point -> bool).

Fixpoint count (T : list Z) (p : Z -> rw_point) : Z :=
  match T with [] => 0 | t :: T => Z.b2z (f (p t)) + count T p end.

Lemma count_range T p : 0 <= count T p <= Z.of_nat (length T).
Proof. induction T as [|t T IH]; cbn [count length]; [lia|]; destruct (f (p t)); cbn; lia. Qed.

Lemma count_other T p t q : t ∉ T -> count T (<[t := q]> p) = count T p.
Proof.
  induction T as [|x T IH]; intros Hn; [done|]; cbn; apply not_elem_of_cons in Hn as [??].
  by rewrite fn_lookup_insert_ne, IH.
Qed.

Lemma count_insert T p t q : NoDup T -> t ∈ T ->
  count T (<[t := q]> p) = count T p - Z.b2z (f (p t)) + Z.b2z (f q).
Proof.
  induction 1 as [|x T Hx _ IH]; [by intros ?%elem_of_nil|]; intros [->|Ht]%elem_of_cons; cbn.
  - rewrite fn_lookup_insert, count_other by done; lia.
  - rewrite fn_lookup_insert_ne, IH by set_solver; lia.
Qed.

Lemma count_in T p t : t ∈ T -> Z.b2z (f (p t)) <= count T p.
Proof.
  induction T as [|x T IH]; [by intros ?%elem_of_nil|]; pose proof (count_range T p).
  intros [->|Ht]%elem_of_cons; cbn; [lia|]; specialize (IH Ht); destruct (f (p x)); cbn; lia.
Qed.

Lemma count_find T p : 0 < count T p -> exists t, t ∈ T /\ f (p t) = true.
Proof.
  induction T as [|x T IH]; cbn; [lia|]; intros H; destruct (f (p x)) eqn:E; [exists x; split; [left|done]|].
  destruct IH as (t & ? & ?); [done|]; exists t; split; [by right|done].
Qed.

Lemma count_two T p t t' : NoDup T -> t ∈ T -> t' ∈ T -> f (p t) = true -> f (p t') = true -> t <> t' -> 2 <= count T p.
Proof.
  induction 1 as [|x T Hx _ IH]; [by intros ?%elem_of_nil|]; cbn.
  intros [->|Ht]%elem_of_cons [->|Ht']%elem_of_cons E E' Hne; [done| | |].
  - rewrite E; pose proof (count_in T p t' Ht') as H; rewrite E' in H; cbn in *; lia.
  - rewrite E'; pose proof (count_in T p t Ht) as H; rewrite E in H; cbn in *; lia.
  - specialize (IH Ht Ht' E E' Hne); destruct (f (p x)); cbn; lia.
Qed.
End Count.

(** Tasks that count as readers, that hold [read_count_mutex], that hold [wrt_mutex]
    for the readers, that write; the first reader before it gets [wrt_mutex], and the
    last one before it releases it. *)
Definition counted (p : rw_point) : bool :=
  match p with Get_wrt | Get_wrt_wait _ | Get_up | Reading | Put_wait _ | Put_count => true | _ => false end.
Definition holder (p : rw_point) : bool :=
  match p with Get_count | Get_wrt | Get_wrt_wait _ | Get_up | Put_count | Put_wrt | Put_up => true | _ => false end.
Definition group (p : rw_point) : bool :=
  match p with Get_up | Reading | Put_wait _ | Put_count | Put_wrt => true | _ => false end.
Definition writing (p : rw_point) : bool := match p with Writing => true | _ => false end.
Definition opening (p : rw_point) : bool := match p with Get_wrt | Get_wrt_wait _ => true | _ => false end.
Definition closing (p : rw_point) : bool := match p with Put_wrt => true | _ => false end.

Lemma counted_eq T p : count counted T p = count opening T p + count group T p - count closing T p.
Proof. induction T as [|t T IH]; [done|]; cbn; rewrite IH; destruct (p t); cbn; lia. Qed.

Lemma holder_le T p : count opening T p + count closing T p <= count holder T p.
Proof. induction T as [|t T IH]; [done|]; cbn; destruct (p t); cbn; lia. Qed.

(** A holder that is neither the first nor the last reader. *)
Lemma holder_le_other T p t : t ∈ T -> holder (p t) = true -> opening (p t) = false -> closing (p t) = false ->
  count opening T p + count closing T p < count holder T p.
Proof.
  induction T as [|x T IH]; [by intros ?%elem_of_nil|]; pose proof (holder_le T p).
  intros [->|Ht]%elem_of_cons E1 E2 E3; cbn; [rewrite E1, E2, E3; cbn; lia|].
  specialize (IH Ht E1 E2 E3); destruct (p x); cbn; lia.
Qed.

(** ** The invariant *)

Definition waits (p : rw_point) : option (Z * Z) :=
  match p with
  | Get_wait e | Put_wait e => Some (read_count_mutex, e)
  | Get_wrt_wait e | Write_wait e => Some (wrt_mutex, e)
  | _ => None
  end.

Section Lock.
Context (kmalloc : Z -> bool) (Hkmalloc : forall n, kmalloc n = true).
Context (T : list Z) (HT : NoDup T) (Hsmall : Z.of_nat (length T) <= 1024).

Record rw_inv (w : rw) : Prop := {
  ri_mutex : mutex_ok T (fun t => waits (at_point w t)) (rw_sync w);
  ri_readers : readers w = count counted T (at_point w);
  ri_count : value (sems (rw_sync w) read_count_mutex) + count holder T (at_point w) = 1;
  ri_group : 0 < count group T (at_point w) -> value (sems (rw_sync w) wrt_mutex) + count writing T (at_point w) = 0;
  ri_wrt : count group T (at_point w) = 0 -> value (sems (rw_sync w) wrt_mutex) + count writing T (at_point w) = 1;
  ri_open : 0 < count opening T (at_point w) -> readers w = 1;
  ri_close : 0 < count closing T (at_point w) -> readers w = 0;
}.

(** The next step of a task; one that is idle asks for the lock, to write or to read. *)
Definition rw_next (write : bool) (cpu t : Z) (w : rw) : res rw :=
  match at_point w t with
  | Idle => if write then rw_lock_get_write_lock kmalloc cpu t w else rw_lock_get_read_lock kmalloc cpu t w
  | Get_wait _ | Get_count | Get_wrt | Get_wrt_wait _ | Get_up => rw_lock_get_read_lock kmalloc cpu t w
  | Reading | Put_wait _ | Put_count | Put_wrt | Put_up => rw_lock_release_read_lock kmalloc cpu t w
  | Write_wait _ => rw_lock_get_write_lock kmalloc cpu t w
  | Writing => rw_lock_release_write_lock t w
  end.

Inductive rw_step : rw -> rw -> Prop :=
  rw_one write cpu t w w' : t ∈ T -> status (tasks (rw_sync w) t) = TASK_STATUS_RUNNING ->
    rw_next write cpu t w = Ok w' -> rw_step w w'.

Lemma waits_insert (p : Z -> rw_point) (t : Z) q t' : waits (<[t := q]> p t') = <[t := waits q]> (fun t => waits (p t)) t'.
Proof. by cpus. Qed.

(** The two ends of a step of [sem_down]. *)
Lemma after_down_ok w t x r done wait :
  downs T (fun t => waits (at_point w t)) (rw_sync w) t x r -> waits done = None -> (forall e, waits (wait e) = Some (x, e)) ->
  (forall s, value (sems (rw_sync w) x) = 1 -> (forall y, value (sems s y) = if y =? x then 0 else value (sems (rw_sync w) y)) ->
     mutex_ok T (fun t' => waits (<[t := done]> (at_point w) t')) s -> rw_inv (mk_rw s (readers w) (<[t := done]> (at_point w)))) ->
  (forall s e, value (sems (rw_sync w) x) = 0 -> (forall y, value (sems s y) = value (sems (rw_sync w) y)) ->
     mutex_ok T (fun t' => waits (<[t := wait e]> (at_point w) t')) s -> rw_inv (mk_rw s (readers w) (<[t := wait e]> (at_point w)))) ->
  exists w', after_down r w t done wait = Ok w' /\ rw_inv w'.
Proof.
  intros (o & s & -> & [(-> & Hv & Hs & Hm)|(e & -> & Hv & Hs & Hm)]) Hd Hw K1 K2; cbn; eexists; (split; [reflexivity|]).
  - apply K1; auto; eapply mutex_ok_ext; [|exact Hm]; intros t'; by rewrite waits_insert, Hd.
  - apply K2; auto; eapply mutex_ok_ext; [|exact Hm]; intros t'; by rewrite waits_insert, Hw.
Qed.

(** A task that waits for a semaphore that is taken changes no count. *)
Lemma wait_inv w t s p q : rw_inv w -> t ∈ T -> at_point w t = p ->
  (forall f, In f [counted; holder; group; writing; opening; closing] -> f q = f p) ->
  (forall y, value (sems s y) = value (sems (rw_sync w) y)) ->
  mutex_ok T (fun t' => waits (<[t := q]> (at_point w) t')) s -> rw_inv (mk_rw s (readers w) (<[t := q]> (at_point w))).
Proof.
  intros [] Ht E Hf Hs Hm.
  assert (forall f, In f [counted; holder; group; writing; opening; closing] ->
    count f T (<[t := q]> (at_point w)) = count f T (at_point w)) as Hc
    by (intros f Hi; rewrite (count_insert f T _ _ _ HT Ht), E, Hf by done; lia).
  constructor; cbn; rewrite ?Hs, ?Hc by (cbn; tauto); auto.
Qed.

(** What is known of the counts before a step of [t], and what they are afterwards. *)
Ltac facts w t Ht E :=
  pose proof (counted_eq T (at_point w)); pose proof (holder_le T (at_point w));
  pose proof (count_range counted T (at_point w)); pose proof (count_range holder T (at_point w));
  pose proof (count_range group T (at_point w)); pose proof (count_range writing T (at_point w));
  pose proof (count_range opening T (at_point w)); pose proof (count_range closing T (at_point w));
  pose proof (count_in counted T (at_point w) t Ht); pose proof (count_in holder T (at_point w) t Ht);
  pose proof (count_in group T (at_point w) t Ht); pose proof (count_in writing T (at_point w) t Ht);
  pose proof (count_in opening T (at_point w) t Ht); pose proof (count_in closing T (at_point w) t Ht);
  rewrite E in *; cbn [counted holder group writing opening closing Z.b2z] in *.

Ltac counts Ht E Hs :=
  cbn [rw_sync readers at_point]; rewrite ?(fun f => count_insert f T _ _ _ HT Ht), ?E, ?Hs;
  cbn [counted holder group writing opening closing Z.b2z read_count_mutex wrt_mutex Z.eqb Pos.eqb];
  try lia.

Lemma mutex_point w t q s : at_point w t = q ->
  mutex_ok T (fun t' => waits (at_point w t')) s -> waits q = None -> forall q', waits q' = None ->
  mutex_ok T (fun t' => waits (<[t := q']> (at_point w) t')) s.
Proof. intros E Hm Hq q' Hq'; eapply mutex_ok_ext; [|exact Hm]; intros t'; cbn; cpus; congruence. Qed.

Lemma after_up_ok w t x q p : rw_inv w -> at_point w t = q -> waits q = None -> waits p = None ->
  (forall s, (forall y, value (sems s y) = if y =? x then 1 else value (sems (rw_sync w) y)) ->
     mutex_ok T (fun t' => waits (<[t := p]> (at_point w) t')) s -> rw_inv (mk_rw s (readers w) (<[t := p]> (at_point w)))) ->
  exists w', after_up (mutex_up x (rw_sync w)) w t p = Ok w' /\ rw_inv w'.
Proof.
  intros Hi E Hq Hp K; destruct (up_ok T _ (rw_sync w) x (ri_mutex w Hi)) as (s & -> & Hm & Hs & _); cbn.
  eexists; split; [reflexivity|]; apply K; [done|]; eapply mutex_point; eauto.
Qed.

(** The step of a task that gets a semaphore: from [p] to [q] with [x] free before. *)
Ltac step_down Ht E :=
  let s := fresh "s" in let Hv := fresh "Hv" in let Hs := fresh "Hs" in let Hm := fresh "Hm" in
  intros s Hv Hs Hm; constructor; [exact Hm|counts Ht E Hs..].
Ltac step_wait w t E :=
  let s := fresh "s" in let e := fresh "e" in 
  intros s e ? ? ?; eapply (wait_inv w t s); eauto;
  let f := fresh "f" in let Hf := fresh "Hf" in intros f Hf; cbn in Hf; repeat destruct Hf as [<-|Hf]; done.

Lemma get_read_ok cpu t w : rw_inv w -> t ∈ T -> status (tasks (rw_sync w) t) = TASK_STATUS_RUNNING ->
  exists w', rw_lock_get_read_lock kmalloc cpu t w = Ok w' /\ rw_inv w'.
Proof.
  intros Hi Ht Hr; pose proof Hi as [Hm Erd Ec Eg Ew Ho Hc]; pose proof (mo_value _ _ _ Hm wrt_mutex); pose proof (mo_value _ _ _ Hm read_count_mutex).
  unfold rw_lock_get_read_lock.
  destruct (at_point w t) as [|e| | |e| | |e| | | |e|] eqn:E; try (by exists w); facts w t Ht E.
  - eapply after_down_ok; [apply perform_down_ok; eauto; by rewrite E|done|done|step_down Ht E|step_wait w t E].
  - eapply after_down_ok; [eapply resume_ok; eauto; by rewrite E|done|done|step_down Ht E|step_wait w t E].
  - pose proof (holder_le_other T (at_point w) t Ht) as Hl; rewrite E in Hl; specialize (Hl eq_refl eq_refl eq_refl).
    rewrite u32_small by lia; eexists; split; [reflexivity|].
    destruct (Z.eqb_spec (readers w + 1) 1); (constructor; [by eapply mutex_point; eauto|counts Ht E E..]).
  - eapply after_down_ok; [apply perform_down_ok; eauto; by rewrite E|done|done|step_down Ht E|step_wait w t E].
  - eapply after_down_ok; [eapply resume_ok; eauto; by rewrite E|done|done|step_down Ht E|step_wait w t E].
  - eapply after_up_ok; eauto; intros s Hs Hm'; constructor; [exact Hm'|counts Ht E Hs..].
Qed.
Lemma release_read_ok cpu t w : rw_inv w -> t ∈ T -> status (tasks (rw_sync w) t) = TASK_STATUS_RUNNING ->
  exists w', rw_lock_release_read_lock kmalloc cpu t w = Ok w' /\ rw_inv w'.
Proof.
  intros Hi Ht Hr; pose proof Hi as [Hm Erd Ec Eg Ew Ho Hc]; pose proof (mo_value _ _ _ Hm wrt_mutex); pose proof (mo_value _ _ _ Hm read_count_mutex).
  unfold rw_lock_release_read_lock.
  destruct (at_point w t) as [|e| | |e| | |e| | | |e|] eqn:E; try (by exists w); facts w t Ht E.
  - eapply after_down_ok; [apply perform_down_ok; eauto; by rewrite E|done|done|step_down Ht E|step_wait w t E].
  - eapply after_down_ok; [eapply resume_ok; eauto; by rewrite E|done|done|step_down Ht E|step_wait w t E].
  - pose proof (holder_le_other T (at_point w) t Ht) as Hl; rewrite E in Hl; specialize (Hl eq_refl eq_refl eq_refl).
    rewrite u32_small by lia; eexists; split; [reflexivity|].
    destruct (Z.eqb_spec (readers w - 1) 0); (constructor; [by eapply mutex_point; eauto|counts Ht E E..]).
  - eapply after_up_ok; eauto; intros s Hs Hm'; constructor; [exact Hm'|counts Ht E Hs..].
  - eapply after_up_ok; eauto; intros s Hs Hm'; constructor; [exact Hm'|counts Ht E Hs..].
Qed.

Lemma get_write_ok cpu t w : rw_inv w -> t ∈ T -> status (tasks (rw_sync w) t) = TASK_STATUS_RUNNING ->
  exists w', rw_lock_get_write_lock kmalloc cpu t w = Ok w' /\ rw_inv w'.
Proof.
  intros Hi Ht Hr; pose proof Hi as [Hm Erd Ec Eg Ew Ho Hc]; pose proof (mo_value _ _ _ Hm wrt_mutex); unfold rw_lock_get_write_lock.
  destruct (at_point w t) as [|e| | |e| | |e| | | |e|] eqn:E; try (by exists w); facts w t Ht E.
  - eapply after_down_ok; [apply perform_down_ok; eauto; by rewrite E|done|done|step_down Ht E|step_wait w t E].
  - eapply after_down_ok; [eapply resume_ok; eauto; by rewrite E|done|done|step_down Ht E|step_wait w t E].
Qed.

Lemma release_write_ok t w : rw_inv w -> t ∈ T -> exists w', rw_lock_release_write_lock t w = Ok w' /\ rw_inv w'.
Proof.
  intros Hi Ht; pose proof Hi as [Hm Erd Ec Eg Ew Ho Hc]; pose proof (mo_value _ _ _ Hm wrt_mutex); unfold rw_lock_release_write_lock.
  destruct (at_point w t) as [|e| | |e| | |e| | | |e|] eqn:E; try (by exists w); facts w t Ht E.
  eapply after_up_ok; eauto; intros s Hs Hm'; constructor; [exact Hm'|counts Ht E Hs..].
Qed.

Lemma rw_next_ok write cpu t w : rw_inv w -> t ∈ T -> status (tasks (rw_sync w) t) = TASK_STATUS_RUNNING ->
  exists w', rw_next write cpu t w = Ok w' /\ rw_inv w'.
Proof.
  intros Hi Ht Hr; unfold rw_next; repeat case_match; eauto using get_read_ok, release_read_ok, get_write_ok, release_write_ok.
Qed.

Lemma rw_reachable w0 w : rtc rw_step w0 w -> rw_inv w0 -> rw_inv w.
Proof.
  induction 1 as [|w1 w2 w3 Hs _ IH]; [done|]; intros Hi; apply IH; destruct Hs as [write cpu t w w' Ht Hr E].
  destruct (rw_next_ok write cpu t w Hi Ht Hr) as (w'' & E' & Hi'); congruence.
Qed.

(** Tasks that run, and semaphores nobody waits for. *)
Definition rw_start (s : sync) : Prop :=
  (forall t, t ∈ T -> slot_used (tasks s t) = true /\ status (tasks s t) = TASK_STATUS_RUNNING) /\
  (forall x, 0 <= value (sems s x) <= 1 /\ queue (sems s x) = []).

Lemma start_inv s : rw_start s -> rw_inv (rw_lock_init s (fun _ => Idle)).
Proof.
  intros [Hs Hq]; assert (H0 : forall f, f Idle = false -> count f T (fun _ => Idle) = 0)
    by (intros f Hf; clear -Hf; induction T as [|t T' IH]; [done|]; cbn; by rewrite Hf, IH).
  constructor; cbn [rw_lock_init at_point readers]; rewrite ?H0 by done; try done.
  constructor; cbn; try done.
  - intros t Ht; by apply Hs.
  - intros t Ht; left; by apply Hs.
  - intros x e; split; [|naive_solver]; cpus; cbn; try (by intros ?%elem_of_nil).
    by rewrite (proj2 (Hq x)); intros ?%elem_of_nil.
  - intros x; cpus; cbn; try lia; apply Hq.
Qed.
(** ** Progress *)

(** A state in which no task that uses the lock can run, and nobody has the lock. *)
Definition stuck (w : rw) : Prop :=
  forall t, t ∈ T -> (at_point w t = Idle \/ status (tasks (rw_sync w) t) <> TASK_STATUS_RUNNING) /\
    at_point w t <> Reading /\ at_point w t <> Writing.

(** Then no task waits for a semaphore that is free. *)
Lemma stuck_free w t x e : rw_inv w -> stuck w -> t ∈ T -> waits (at_point w t) = Some (x, e) -> value (sems (rw_sync w) x) <> 1.
Proof.
  intros Hi Hs Ht Hw Hv; destruct (mo_status _ _ _ (ri_mutex w Hi) t Ht) as [Hr|[Hb _]].
  - destruct (Hs t Ht) as [[E|Hn] _]; [by rewrite E in Hw|done].
  - destruct (mo_wake _ _ _ (ri_mutex w Hi) x t e Ht Hw Hb Hv) as (t' & e' & Ht' & Hw' & Hr').
    destruct (Hs t' Ht') as [[E|Hn] _]; [by rewrite E in Hw'|done].
Qed.

(** Every task is idle or waits. *)
Lemma stuck_waits w t : rw_inv w -> stuck w -> t ∈ T -> at_point w t = Idle \/ waits (at_point w t) <> None.
Proof. intros Hi Hs Ht; destruct (Hs t Ht) as [[E|Hn] _]; [by left|right]; by destruct (mo_status _ _ _ (ri_mutex w Hi) t Ht) as [|[]]. Qed.

Lemma count_none f p : (forall t, t ∈ T -> f (p t) = false) -> count f T p = 0.
Proof.
  intros H; pose proof (count_range f T p); destruct (decide (count f T p = 0)) as [|Hn]; [done|].
  destruct (count_find f T p) as (t & Ht & Ef); [lia|]; by rewrite H in Ef.
Qed.

Lemma stuck_idle w : rw_inv w -> stuck w -> forall t, t ∈ T -> at_point w t = Idle.
Proof.
  intros Hi Hs; pose proof (ri_count w Hi); pose proof (mo_value _ _ _ (ri_mutex w Hi) read_count_mutex).
  assert (HW : count writing T (at_point w) = 0) by (apply count_none; intros t Ht; destruct (Hs t Ht) as (_ & _ & ?); by destruct (at_point w t)).
  pose proof (counted_eq T (at_point w)); pose proof (holder_le T (at_point w)).
  pose proof (count_range opening T (at_point w)); pose proof (count_range closing T (at_point w)).
  pose proof (count_range group T (at_point w)); pose proof (ri_readers w Hi).
  assert (HO : forall t e, t ∈ T -> at_point w t <> Get_wrt_wait e).
  { intros t e Ht E; pose proof (count_in opening T (at_point w) t Ht) as Hc; rewrite E in Hc; cbn in Hc.
    pose proof (ri_open w Hi ltac:(lia)); pose proof (ri_wrt w Hi ltac:(lia)).
    apply (stuck_free w t wrt_mutex e Hi Hs Ht); [by rewrite E|lia]. }
  assert (HH : count holder T (at_point w) = 0).
  { apply count_none; intros t Ht; specialize (HO t); destruct (stuck_waits w t Hi Hs Ht) as [->|Hw]; [done|].
    destruct (at_point w t); cbn in *; try done; exfalso; by eapply HO. }
  assert (HR : forall t e, t ∈ T -> waits (at_point w t) <> Some (read_count_mutex, e))
    by (intros t e Ht E; apply (stuck_free w t read_count_mutex e Hi Hs Ht E); lia).
  assert (HG : count group T (at_point w) = 0).
  { apply count_none; intros t Ht; destruct (Hs t Ht) as (_ & ? & _), (stuck_waits w t Hi Hs Ht) as [->|Hw]; [done|].
    specialize (HR t); destruct (at_point w t); cbn in *; try done; exfalso; by eapply HR. }
  pose proof (ri_wrt w Hi HG); intros t Ht; destruct (stuck_waits w t Hi Hs Ht) as [|Hw]; [done|exfalso].
  specialize (HR t); specialize (HO t); destruct (waits (at_point w t)) as [[x e]|] eqn:E; [|done].
  apply (stuck_free w t x e Hi Hs Ht E); destruct (at_point w t); cbn in E; simplify_eq; try (exfalso; by eapply HR); lia.
Qed.
End Lock.

(** ** The theorems *)

(** C25. Read-write locks, for any number of tasks that get and release the lock for
    reading and for writing, in any interleaving: two tasks never write at the same
    time, no task reads while another one writes, [readers] is the number of tasks
    between its two updates, and no step fails: a task that can run can go on, without
    a failed assertion of the process manager. *)
Theorem rw_lock_exclusion kmalloc T s w :
  (forall n, kmalloc n = true) -> NoDup T -> Z.of_nat (length T) <= PM_MAX_TASK -> rw_start T s ->
  rtc (rw_step kmalloc T) (rw_lock_init s (fun _ => Idle)) w ->
  (forall t t', t ∈ T -> t' ∈ T -> at_point w t = Writing -> at_point w t' <> Reading /\ (at_point w t' = Writing -> t = t')) /\
  readers w = count counted T (at_point w) /\
  (forall t, t ∈ T -> status (tasks (rw_sync w) t) = TASK_STATUS_RUNNING ->
     forall write cpu, exists w', rw_next kmalloc write cpu t w = Ok w').
Proof.
  intros Hk HT Hn Hs H; pose proof (rw_reachable kmalloc Hk T HT Hn _ _ H (start_inv T s Hs)) as Hi.
  pose proof (mo_value _ _ _ (ri_mutex T w Hi) wrt_mutex); split_and!; [|by apply Hi|].
  - intros t t' Ht Ht' E; pose proof (count_in writing T (at_point w) t Ht) as Hc; rewrite E in Hc; cbn in Hc; split.
    + intros E'; pose proof (count_in group T (at_point w) t' Ht') as Hg; rewrite E' in Hg; cbn in Hg.
      pose proof (ri_group T w Hi ltac:(lia)); lia.
    + intros E'; destruct (decide (t = t')) as [|Hne]; [done|].
      pose proof (count_two writing T (at_point w) t t' HT Ht Ht' ltac:(by rewrite E) ltac:(by rewrite E') Hne).
      pose proof (count_range group T (at_point w)); pose proof (ri_group T w Hi); pose proof (ri_wrt T w Hi); lia.
  - intros t Ht Hr write cpu; destruct (rw_next_ok kmalloc Hk T HT Hn write cpu t w Hi Ht Hr) as (w' & ? & _); eauto.
Qed.

(** C26. Read-write locks are free of deadlocks and lost wake-ups: in every state that
    can be reached, if a task is within one of the functions that get and release the
    lock, then a task reads or writes, or one of the tasks within these functions can
    run and take its next step. *)
Theorem rw_lock_no_deadlock kmalloc T s w t :
  (forall n, kmalloc n = true) -> NoDup T -> Z.of_nat (length T) <= PM_MAX_TASK -> rw_start T s ->
  rtc (rw_step kmalloc T) (rw_lock_init s (fun _ => Idle)) w -> t ∈ T -> at_point w t <> Idle ->
  exists t', t' ∈ T /\ at_point w t' <> Idle /\
    (at_point w t' = Reading \/ at_point w t' = Writing \/
     status (tasks (rw_sync w) t') = TASK_STATUS_RUNNING /\ forall cpu, exists w', rw_next kmalloc false cpu t' w = Ok w').
Proof.
  intros Hk HT Hn Hs H Ht Hne; pose proof (rw_reachable kmalloc Hk T HT Hn _ _ H (start_inv T s Hs)) as Hi.
  destruct (decide (Exists (fun t => at_point w t <> Idle /\ (at_point w t = Reading \/ at_point w t = Writing \/
    status (tasks (rw_sync w) t) = TASK_STATUS_RUNNING)) T)) as [He|He].
  - apply list.Exists_exists in He as (t' & Ht' & Hn' & He); exists t'; split_and!; auto.
    destruct He as [|[|Hr]]; auto; right; right; split; [done|]; intros cpu.
    destruct (rw_next_ok kmalloc Hk T HT Hn false cpu t' w Hi Ht' Hr) as (w' & ? & _); eauto.
  - exfalso; apply Hne, (stuck_idle T w Hi); [|done]; intros t' Ht'; rewrite list.Exists_exists in He.
    destruct (decide (at_point w t' = Idle)) as [E|]; [rewrite E; auto|]; split_and!; [right|..]; intros ?; apply He; eauto 8.
Qed.
(** ** Examples *)

(** Two tasks that run. *)
Definition two_tasks : sync :=
  mk_sync (fun _ => mk_task true TASK_STATUS_RUNNING 0 0 0 0 false false false (-1)) (fun _ => mk_ecb 0 0 false false 0)
    (fun _ => mk_sem 0 [] false) (fun _ => []) (fun _ => []) [] 0.

(** A sequence of steps. *)
Fixpoint runs (T : list Z) (l : list (bool * Z)) (w : rw) : option rw :=
  match l with
  | [] => Some w
  | (write, t) :: l =>
      if bool_decide (t ∈ T) && bool_decide (status (tasks (rw_sync w) t) = TASK_STATUS_RUNNING) then
        match rw_next (fun _ => true) write 0 t w with Ok w => runs T l w | _ => None end
      else None
  end.

Lemma runs_ok T l w w' : runs T l w = Some w' -> rtc (rw_step (fun _ => true) T) w w'.
Proof.
  revert w; induction l as [|[write t] l IH]; intros w; cbn; [intros [= ->]; apply rtc_refl|].
  destruct (bool_decide_reflect (t ∈ T)); [|done]; destruct (bool_decide_reflect (status (tasks (rw_sync w) t) = TASK_STATUS_RUNNING)); [|done].
  cbn; destruct (rw_next (fun _ => true) write 0 t w) as [w1| | |] eqn:E; try done; intros H; eapply rtc_l; [by econstructor|eauto].
Qed.

Lemma two_tasks_start : rw_start [1; 2] two_tasks.
Proof. split; [by intros|]; intros x; cbn; split; [lia|done]. Qed.

(** Task 1 writes; task 2 wants to read and has to wait. *)
Lemma two_tasks_run : exists w, rtc (rw_step (fun _ => true) [1; 2]) (rw_lock_init two_tasks (fun _ => Idle)) w /\
  at_point w 1 = Writing /\ at_point w 2 = Get_wrt_wait 0 /\ status (tasks (rw_sync w) 2) = TASK_STATUS_BLOCKED.
Proof.
  set (l := [(true, 1); (false, 2); (false, 2); (false, 2)]); set (w0 := rw_lock_init two_tasks (fun _ => Idle)).
  assert (V : (w ← runs [1; 2] l w0; Some (at_point w 1, at_point w 2, status (tasks (rw_sync w) 2))) =
    Some (Writing, Get_wrt_wait 0, TASK_STATUS_BLOCKED)) by (vm_compute; reflexivity).
  destruct (runs [1; 2] l w0) as [w|] eqn:E; [|discriminate V]; exists w; split; [by eapply runs_ok|].
  injection V as -> -> ->; done.
Qed.

Lemma rw_lock_exclusion_witness : exists w,
  rtc (rw_step (fun _ => true) [1; 2]) (rw_lock_init two_tasks (fun _ => Idle)) w /\ at_point w 1 = Writing /\
  at_point w 2 <> Reading /\ readers w = count counted [1; 2] (at_point w).
Proof.
  destruct two_tasks_run as (w & H & E & _); exists w.
  destruct (rw_lock_exclusion (fun _ => true) [1; 2] two_tasks w (fun _ => eq_refl) ltac:(by apply (bool_decide_unpack _); vm_compute)
    ltac:(vm_compute; congruence) two_tasks_start H) as (Hw & Hr & _).
  split; [exact H|]; split; [exact E|]; split; [|exact Hr].
  apply (Hw 1 2 ltac:(left) ltac:(right; left) E).
Defined.

Lemma rw_lock_no_deadlock_witness : exists w t',
  rtc (rw_step (fun _ => true) [1; 2]) (rw_lock_init two_tasks (fun _ => Idle)) w /\
  status (tasks (rw_sync w) 2) = TASK_STATUS_BLOCKED /\ t' ∈ [1; 2] /\ at_point w t' <> Idle.
Proof.
  destruct two_tasks_run as (w & H & _ & E & Hb).
  destruct (rw_lock_no_deadlock (fun _ => true) [1; 2] two_tasks w 2 (fun _ => eq_refl) ltac:(by apply (bool_decide_unpack _); vm_compute)
    ltac:(vm_compute; congruence) two_tasks_start H ltac:(right; left) ltac:(rewrite E; congruence)) as (t' & Ht & Hn & _).
  exists w, t'; auto.
Defined.

(** What the two examples below end in. *)
Definition summary (r : res (outcome * sync)) : option (outcome * (Z * list Z * Z * task_status * task_status)) :=
  match r with
  | Ok (o, s) => Some (o, (value (sems s 5), queue (sems s 5), waiting_task (ecbs s 1), status (tasks s 1), status (tasks s 2)))
  | _ => None
  end.

Lemma summary_ok r o : summary r = Some (o, (1, [1], 2, TASK_STATUS_RUNNING, TASK_STATUS_BLOCKED)) ->
  exists s, r = Ok (o, s) /\ value (sems s 5) = 1 /\ queue (sems s 5) = [1] /\ waiting_task (ecbs s 1) = 2 /\
    status (tasks s 1) = TASK_STATUS_RUNNING /\ status (tasks s 2) = TASK_STATUS_BLOCKED.
Proof. destruct r as [[o' s]| | |]; cbn; intros [=]; subst; eauto 10. Qed.

(** Counting semaphores can lose a wake-up.  Tasks 1 and 2 sleep on a semaphore; two
    calls of [sem_up] wake up only the first of them, because the second call finds
    the value 1.  When task 1 has performed its down operation, the value is 1, and
    task 2 still sleeps. *)
Definition lost_wakeup : res (outcome * sync) :=
  '(_, s) ← perform_sem_down (fun _ => true) 0 true sem_down 1 5 two_tasks;
  '(_, s) ← perform_sem_down (fun _ => true) 0 true sem_down 2 5 s;
  s ← sem_up 5 s;
  s ← sem_up 5 s;
  down_resume (fun _ => true) 0 true sem_down 1 5 0 s.

Theorem sem_up_loses_wakeup : exists s, lost_wakeup = Ok (Return 0, s) /\
  value (sems s 5) = 1 /\ queue (sems s 5) = [1] /\ waiting_task (ecbs s 1) = 2 /\
  status (tasks s 1) = TASK_STATUS_RUNNING /\ status (tasks s 2) = TASK_STATUS_BLOCKED.
Proof. apply summary_ok; vm_compute; reflexivity. Qed.

(** So can a mutex, if a timeout expires after [mutex_up] and before the task runs:
    the task returns with a timeout, and the task behind it sleeps on a free mutex. *)
Definition lost_timeout : res (outcome * sync) :=
  '(_, s) ← perform_sem_down (fun _ => true) 0 true (sem_down_timed 10) 1 5 two_tasks;
  '(_, s) ← perform_sem_down (fun _ => true) 0 true sem_down 2 5 s;
  s ← mutex_up 5 s;
  s ← check_ecbs 0 100 s;
  down_resume (fun _ => true) 0 true (sem_down_timed 10) 1 5 0 s.

Theorem timeout_loses_wakeup : exists s, lost_timeout = Ok (Return (-2), s) /\
  value (sems s 5) = 1 /\ queue (sems s 5) = [1] /\ waiting_task (ecbs s 1) = 2 /\
  status (tasks s 1) = TASK_STATUS_RUNNING /\ status (tasks s 2) = TASK_STATUS_BLOCKED.
Proof. apply summary_ok; vm_compute; reflexivity. Qed.

End RwLock.
