(* ===== verification/Wq.v ===== *)
(** * Work queues ([kernel/wq.c])

    Queues of calls that a thread of the kernel makes later.  A section under the lock
    of a queue is one step.  The worker holds no lock while it calls a handler: what the handler and
    the rest of the system do to the queue in each round is given by a [moment]; the calls
    made are recorded. *)

From S2P Require Import Prelude Errors Sched.

Module Wq.

Definition WQ_MAX_ENTRIES : Z := 8912.

(** The codes of [include/wq.h]. *)
Notation WQ_COUNT := 4.
Notation WQ_TIMEOUT := 500.
Notation WQ_RUN_NOW := 0.

Record wq_entry_t := mk_entry { arg : Z; handler : Z; expires : Z; entry_iteration : Z }.

Record wq_t := mk_wq { wq_entries : Z -> wq_entry_t; head : Z; tail : Z; iteration : Z }.

Definition add_entry (wq : wq_t) (entry : wq_entry_t) : wq_t * Z :=
  if u32 (tail wq - head wq) =? WQ_MAX_ENTRIES then (wq, -1)
  else (mk_wq (<[tail wq mod WQ_MAX_ENTRIES := entry]> (wq_entries wq)) (head wq) (u32 (tail wq + 1)) (iteration wq), 0).

Definition get_entry (wq : wq_t) : wq_t * option wq_entry_t :=
  if tail wq =? head wq then (wq, None)
  else (mk_wq (wq_entries wq) (u32 (head wq + 1)) (tail wq) (iteration wq), Some (wq_entries wq (head wq mod WQ_MAX_ENTRIES))).

(** The queues, whether they can be used, and the CPUs whose thread was woken up. *)
Record queues := mk_queues { work_queue : Z -> wq_t; initialized : bool; triggered : list Z }.

Definition wq_schedule (cpus ticks wq_id h a opt : Z) (s : queues) : queues * Z :=
  if negb (initialized s) then (s, -1)
  else if (wq_id <? 0) || (WQ_COUNT <=? wq_id) then (s, -1)
  else
    let '(wq, rc) := add_entry (work_queue s wq_id) (mk_entry a h (u32 (ticks + WQ_TIMEOUT)) 0) in
    if rc =? -1 then (s, -1)
    else (mk_queues (<[wq_id := wq]> (work_queue s)) true
            (if opt =? WQ_RUN_NOW then Z.rem wq_id cpus :: triggered s else triggered s), 0).

(** Entries that others, or a handler, add with [wq_schedule]: their iteration is zero. *)
Definition scheduled (l : list wq_entry_t) : list wq_entry_t :=
  (fun e => mk_entry (arg e) (handler e) (expires e) 0) <$> l.
Definition schedule_all (wq : wq_t) (l : list wq_entry_t) : wq_t := foldl (fun wq e => fst (add_entry wq e)) wq (scheduled l).

(** What happens in a round of the worker: the ticks when it has taken an entry, what is
    scheduled until the handler has returned, the value it returns, and what is scheduled
    from then until the worker takes the next entry. *)
Record moment := mk_moment { now : Z; during : list wq_entry_t; result : Z; after : list wq_entry_t }.

Section Worker.
Context (env : nat -> moment).

(** One round of the inner loop of [worker_thread], by its number; [calls] are the calls made, the
    last one first, and whether the handler was told that the entry has expired. *)
Definition worker_round (s : nat * wq_t * list (wq_entry_t * bool)) :
    nat * wq_t * list (wq_entry_t * bool) + wq_t * list (wq_entry_t * bool) :=
  let '(i, wq, calls) := s in
  match get_entry wq with
  | (wq, None) => inr (wq, calls)
  | (wq, Some entry) =>
      let t := env i in
      if entry_iteration entry =? iteration wq then inr (fst (add_entry (schedule_all wq (during t)) entry), calls)
      else if now t <? expires entry then
        let wq := schedule_all wq (during t) in
        let wq := if result t =? EAGAIN
                  then fst (add_entry wq (mk_entry (arg entry) (handler entry) (expires entry) (iteration wq))) else wq in
        inl (S i, schedule_all wq (after t), (entry, false) :: calls)
      else inl (S i, schedule_all (schedule_all wq (during t)) (after t), (entry, true) :: calls)
  end.

(** The work on one queue. *)
Definition process_queue (fuel : nat) (wq : wq_t) : option (wq_t * list (wq_entry_t * bool)) :=
  let wq := mk_wq (wq_entries wq) (head wq) (tail wq) (u32 (iteration wq + 1)) in
  loop fuel worker_round (O, wq, []).
End Worker.

End Wq.
