(* ===== verification/WqProofs.v ===== *)
(** * Work queues: a queue of entries, and the work on it

    The entries between [head] and [tail] are a queue; a pass over it ends, also if
    handlers ask to be called again for ever, as long as finitely many entries are added, and calls every handler once. *)

From S2P Require Import Prelude Errors Sched Wq.

Module WqProofs.
Import Wq.

Definition contents (wq : wq_t) : list wq_entry_t :=
  (fun i => wq_entries wq ((head wq + Z.of_nat i) mod WQ_MAX_ENTRIES)) <$> seq 0 (Z.to_nat (tail wq - head wq)).

(** The indices have not wrapped around, and will not for [n] more entries. *)
Record wq_ok (n : Z) (wq : wq_t) : Prop := {
  wo_head : 0 <= head wq <= tail wq;
  wo_size : tail wq - head wq <= WQ_MAX_ENTRIES;
  wo_tail : 0 <= n /\ tail wq + n < 2 ^ 32;
}.

Lemma wq_length wq : length (contents wq) = Z.to_nat (tail wq - head wq).
Proof. unfold contents; by rewrite length_fmap, length_seq. Qed.

Lemma add_entry_ok n wq e : wq_ok n wq -> 0 < n ->
  (Z.of_nat (length (contents wq)) = WQ_MAX_ENTRIES /\ add_entry wq e = (wq, -1)) \/
  (Z.of_nat (length (contents wq)) < WQ_MAX_ENTRIES /\ exists wq', add_entry wq e = (wq', 0) /\ wq_ok (n - 1) wq' /\
     contents wq' = contents wq ++ [e] /\ iteration wq' = iteration wq).
Proof.
  intros [Hh Hs Ht] Hn; rewrite wq_length; unfold add_entry; rewrite u32_small by (unfold WQ_MAX_ENTRIES in *; lia).
  case_test; [left; split; [lia|done]|right; split; [lia|]]; rewrite u32_small by lia.
  eexists; split; [reflexivity|]; split; [constructor; cbn; lia|]; split; [|done]; unfold contents; cbn [head tail wq_entries].
  replace (Z.to_nat (tail wq + 1 - head wq)) with (Z.to_nat (tail wq - head wq) + 1)%nat by lia.
  rewrite seq_app, fmap_app; cbn [seq fmap list_fmap Nat.add]; f_equal.
  - apply list_fmap_ext; intros i k Hk; apply lookup_seq in Hk as [-> Hi]; rewrite fn_lookup_insert_ne; [done|].
    intros E; unfold WQ_MAX_ENTRIES in *; Z.div_mod_to_equations; lia.
  - replace (head wq + Z.of_nat (Z.to_nat (tail wq - head wq))) with (tail wq) by lia; by rewrite fn_lookup_insert.
Qed.

Lemma get_entry_ok n wq : wq_ok n wq ->
  (contents wq = [] /\ get_entry wq = (wq, None)) \/
  (exists wq' e l, contents wq = e :: l /\ get_entry wq = (wq', Some e) /\ wq_ok n wq' /\ contents wq' = l /\ iteration wq' = iteration wq).
Proof.
  intros [Hh Hs Ht]; unfold get_entry; case_test.
  - left; split; [|done]; unfold contents; by replace (tail wq - head wq) with 0 by lia.
  - right; rewrite u32_small by lia; eexists _, _, _; split; [|split; [reflexivity|]; split; [constructor; cbn; lia|split; reflexivity]].
    unfold contents; cbn [head tail wq_entries].
    replace (Z.to_nat (tail wq - head wq)) with (S (Z.to_nat (tail wq - (head wq + 1)))) by lia; cbn [seq fmap list_fmap].
    rewrite Z.add_0_r; f_equal; rewrite <- fmap_S_seq, <- list_fmap_compose; apply list_fmap_ext; intros; cbn; do 2 f_equal; lia.
Qed.

Lemma wq_ok_le n n' wq : wq_ok n wq -> 0 <= n' <= n -> wq_ok n' wq.
Proof. intros [H1 H2 H3] Hn; split; auto; lia. Qed.

Lemma schedule_all_ok X : forall n wq, wq_ok n wq -> Z.of_nat (length X) <= n ->
  Z.of_nat (length (contents wq) + length X) <= WQ_MAX_ENTRIES ->
  wq_ok (n - Z.of_nat (length X)) (schedule_all wq X) /\ contents (schedule_all wq X) = contents wq ++ scheduled X /\
    iteration (schedule_all wq X) = iteration wq.
Proof.
  unfold schedule_all; induction X as [|e X IH]; intros n wq Hok Hn Hl.
  - cbn; rewrite Z.sub_0_r, app_nil_r; done.
  - cbn [scheduled fmap list_fmap foldl]; cbn [length] in *.
    destruct (add_entry_ok n wq (mk_entry (arg e) (handler e) (expires e) 0) Hok) as [[Hf _]|(_ & wq1 & -> & Hok1 & Hc1 & Hi1)]; [lia..|].
    cbn [fst]; destruct (IH (n - 1) wq1 Hok1) as (H1 & H2 & H3); [lia|rewrite Hc1, length_app; cbn; lia|].
    fold (scheduled X); split_and!; [by replace (n - Z.of_nat (S (length X))) with (n - 1 - Z.of_nat (length X)) by lia| |by rewrite H3].
    by rewrite H2, Hc1, <- app_assoc.
Qed.

Section Worker.
Context (env : nat -> moment).

Definition mark (k : Z) (e : wq_entry_t) : wq_entry_t := mk_entry (arg e) (handler e) (expires e) k.

(** What the handler of the entry taken in round [i] is told, and whether the entry is queued again. *)
Definition expired (i : nat) (e : wq_entry_t) : bool := expires e <=? now (env i).
Definition again (i : nat) (e : wq_entry_t) : bool := negb (expired i e) && (result (env i) =? EAGAIN).

(** The calls for the entries [l], in this order. *)
Definition calls_of (l : list wq_entry_t) : list (wq_entry_t * bool) := imap (fun i e => (e, expired i e)) l.

(** Those of them that are to be called again, with the mark of the pass. *)
Definition requeued (k : Z) (l : list wq_entry_t) : list wq_entry_t :=
  concat (imap (fun i e => if again i e then [mark k e] else []) l).

(** What has been scheduled by others before round [n]. *)
Definition added (n : nat) : list wq_entry_t :=
  concat ((fun i => scheduled (during (env i)) ++ scheduled (after (env i))) <$> seq 0 n).

Definition rotate (l : list wq_entry_t) : list wq_entry_t := match l with [] => [] | e :: l => l ++ [e] end.

Lemma calls_snoc l e : calls_of (l ++ [e]) = calls_of l ++ [(e, expired (length l) e)].
Proof. unfold calls_of; rewrite imap_app; cbn; by rewrite Nat.add_0_r. Qed.

Lemma requeued_snoc k l e : requeued k (l ++ [e]) = requeued k l ++ (if again (length l) e then [mark k e] else []).
Proof. unfold requeued; rewrite imap_app, concat_app; cbn; by rewrite Nat.add_0_r, app_nil_r. Qed.

Lemma requeued_length k l : (length (requeued k l) <= length l)%nat.
Proof.
  induction l as [|e l IH] using rev_ind; [done|]; rewrite requeued_snoc, !length_app; destruct (again _ e); cbn; lia.
Qed.

Lemma requeued_marked k l : Forall (fun e => entry_iteration e = k) (requeued k l).
Proof.
  induction l as [|e l IH] using rev_ind; [constructor|]; rewrite requeued_snoc; apply Forall_app; split; [done|].
  destruct (again _ e); repeat constructor.
Qed.

(** Call [i] is the first one after which an entry is queued again. *)
Definition first_again (l : list wq_entry_t) (i : nat) : Prop :=
  (exists e, l !! i = Some e /\ again i e = true) /\ forall j e, (j < i)%nat -> l !! j = Some e -> again j e = false.

Lemma requeued_nil k l : requeued k l = [] -> forall j e, l !! j = Some e -> again j e = false.
Proof.
  induction l as [|a l IH] using rev_ind; intros H j e Hj; [done|]; rewrite requeued_snoc in H; apply app_eq_nil in H as [H1 H2].
  apply lookup_app_Some in Hj as [Hj|[Hl Hj]]; [by apply IH|].
  apply list_lookup_singleton_Some in Hj as [Hj ->]; replace j with (length l) by lia; by destruct (again _ e).
Qed.

Lemma first_again_app l l' i : first_again l i -> first_again (l ++ l') i.
Proof.
  intros [(e & He & Ha) Hf]; split; [exists e; split; [by apply lookup_app_l_Some|done]|].
  intros j e' Hj He'; apply (Hf j e' Hj); rewrite lookup_app_l in He'; [done|]; apply lookup_lt_Some in He; lia.
Qed.

Lemma added_S n : added (S n) = added n ++ scheduled (during (env n)) ++ scheduled (after (env n)).
Proof. unfold added; rewrite seq_S, fmap_app, concat_app; cbn; by rewrite app_nil_r. Qed.

Abbreviation marked k := (filter (fun e => entry_iteration e = k)).
Abbreviation unmarked k := (filter (fun e => entry_iteration e <> k)).

(** [P] are the entries that are still to be called in this pass, [M] the rest of the queue: it begins with the first entry
    that was queued again.  [done_] are the entries called, [s1] and [s2] what was
    scheduled before and after that entry. *)
Record pass (k : Z) (l : list wq_entry_t) (A done_ P M s1 s2 : list wq_entry_t) : Prop := {
  ps_calls : done_ ++ P = l ++ s1;
  ps_added : A = s1 ++ s2;
  ps_fresh : Forall (fun e => entry_iteration e <> k) P;
  ps_first : match M with [] => True | e :: _ => entry_iteration e = k end;
  ps_marked : marked k M = requeued k done_;
  ps_unmarked : unmarked k M = s2;
  ps_split : requeued k done_ = [] \/ exists i, first_again done_ i /\ s1 = added i ++ scheduled (during (env i))
}.

Lemma filter_fresh k (X : list wq_entry_t) :
  Forall (fun e => entry_iteration e <> k) X -> marked k X = [] /\ unmarked k X = X.
Proof.
  induction 1 as [|e X He _ [H1 H2]]; [done|]; rewrite list.filter_cons_False by done; rewrite list.filter_cons_True by done.
  by rewrite H1, H2.
Qed.

Lemma filter_sizes k (M : list wq_entry_t) : length M = (length (marked k M) + length (unmarked k M))%nat.
Proof.
  induction M as [|e M IH]; [done|]; rewrite !list.filter_cons; repeat case_decide; cbn [length]; try lia; tauto.
Qed.

Lemma pass_length k l A d P M s1 s2 : pass k l A d P M s1 s2 -> (length P + length M + length d <= length l + length A + length d)%nat.
Proof.
  intros [E1 -> _ _ E5 E6 _]; pose proof (filter_sizes k M) as HM; rewrite E5, E6 in HM.
  pose proof (requeued_length k d); apply (f_equal length) in E1; rewrite !length_app in *; lia.
Qed.

(** Additions go to the entries to be called as long as none was queued again. *)
Lemma pass_add k l A d P M s1 s2 X :
  k <> 0 -> pass k l A d P M s1 s2 ->
  exists P' M' s1' s2', pass k l (A ++ scheduled X) d P' M' s1' s2' /\ P' ++ M' = P ++ M ++ scheduled X /\
    (P = [] -> M <> [] -> P' = [] /\ M' = M ++ scheduled X) /\ (exists Y, P' = P ++ Y).
Proof.
  intros Hk [E1 -> E3 E4 E5 E6 E7].
  assert (HX : Forall (fun e => entry_iteration e <> k) (scheduled X)).
  { apply list.Forall_forall; intros e (x & -> & _)%list_elem_of_fmap; cbn; congruence. }
  destruct M as [|m M].
  - exists (P ++ scheduled X), [], (s1 ++ scheduled X), []; cbn in E6; subst s2; split; [|split; [by rewrite app_nil_r|split; [done|eauto]]].
    split; try done; [by rewrite !app_assoc, E1|by rewrite !app_nil_r|by apply Forall_app|by left].
  - exists P, ((m :: M) ++ scheduled X), s1, (s2 ++ scheduled X); split; [|split; [done|split; [done|exists []; by rewrite app_nil_r]]].
    split; try done; [by rewrite app_assoc|rewrite list.filter_app..]; destruct (filter_fresh k _ HX) as [F1 F2].
    + by rewrite F1, app_nil_r, E5.
    + by rewrite F2, E6.
Qed.

(** The entry taken, as it is queued again. *)
Lemma pass_requeue k l A d e P M s1 s2 :
  A = added (length d) ++ scheduled (during (env (length d))) -> pass k l A d (e :: P) M s1 s2 ->
  pass k l A (d ++ [e]) P (M ++ (if again (length d) e then [mark k e] else [])) s1 s2.
Proof.
  intros HA [E1 E2 E3 E4 E5 E6 E7]; apply list.Forall_cons in E3 as [_ E3].
  split; try done; [by rewrite <- E1, <- app_assoc| |..].
  - destruct M; [by destruct (again _ e)|done].
  - rewrite list.filter_app, E5, requeued_snoc; f_equal; destruct (again _ e); [|done]; by rewrite list.filter_cons_True.
  - rewrite list.filter_app, E6; destruct (again _ e); [|by rewrite app_nil_r].
    rewrite list.filter_cons_False by (by intros H); by rewrite app_nil_r.
  - destruct E7 as [E7|(i & Hi & E7)]; [|right; exists i; split; [by apply first_again_app|done]].
    rewrite requeued_snoc, E7; destruct (again (length d) e) eqn:Hag; [right|by left]; exists (length d); split.
    + split; [exists e; by rewrite lookup_app_r, Nat.sub_diag by lia|].
      intros j e' Hj He'; rewrite lookup_app_l in He' by lia; exact (requeued_nil k d E7 j e' He').
    + destruct M as [|m M]; [cbn in E6; by rewrite <- HA, E2, <- E6, app_nil_r|].
      rewrite list.filter_cons_True in E5 by done; congruence.
Qed.

(** The end of the pass: an entry that was queued again goes to the end. *)
Lemma pass_last k l A d m M s1 s2 X :
  k <> 0 -> pass k l A d [] (m :: M) s1 s2 ->
  marked k (M ++ scheduled X ++ [m]) = rotate (requeued k d) /\ unmarked k (M ++ scheduled X ++ [m]) = s2 ++ scheduled X /\
  d = l ++ s1 /\ entry_iteration m = k.
Proof.
  intros Hk [E1 _ _ E4 E5 E6 _]; rewrite app_nil_r in E1.
  destruct (filter_fresh k (scheduled X)) as [F1 F2].
  { apply list.Forall_forall; intros e (x & -> & _)%list_elem_of_fmap; cbn; congruence. }
  rewrite list.filter_cons_True in E5 by done; rewrite list.filter_cons_False in E6 by (by intros H).
  rewrite !list.filter_app, F1, F2, E6, <- E5; cbn [app rotate].
  rewrite list.filter_cons_True, list.filter_cons_False by (done || by intros H); rewrite app_nil_r; done.
Qed.

Section Pass.
(** The queue at the start, and a bound on the number of entries that it holds or that are added. *)
Context (k : Z) (l : list wq_entry_t) (B : nat).
Context (Hk : k <> 0) (HB : Z.of_nat B <= WQ_MAX_ENTRIES) (Hfew : forall n, (length l + length (added n) <= B)%nat).

(** The result of a pass, for the calls [d] that were made. *)
Definition pass_result (wq' : wq_t) (calls : list (wq_entry_t * bool)) (d : list wq_entry_t) : Prop :=
  exists s1 s2, rev calls = calls_of d /\ d = l ++ s1 /\
    marked k (contents wq') = rotate (requeued k d) /\ unmarked k (contents wq') = s2 /\
    (requeued k d = [] /\ s2 = [] /\ added (length d) = s1 \/
     exists i, first_again d i /\ s1 = added i ++ scheduled (during (env i)) /\
       added (length d) ++ scheduled (during (env (length d))) = s1 ++ s2).

(** The queue while entry [length d] is processed. *)
Lemma room n : (length (scheduled (during (env n)) ++ scheduled (after (env n))) + length (added n) + length l <= B)%nat.
Proof using Hfew. specialize (Hfew (S n)); rewrite added_S, length_app in Hfew; lia. Qed.

(** One call: the entry taken is [e]. *)
Lemma call_step wq e d P M s1 s2 :
  let n := 2 * Z.of_nat B + 1 - Z.of_nat (length (added (length d))) - Z.of_nat (length d) in
  let t := env (length d) in
  let wq2 := schedule_all wq (during t) in
  let wq3 := if again (length d) e then fst (add_entry wq2 (mark (iteration wq2) e)) else wq2 in
  wq_ok n wq -> iteration wq = k -> contents wq = P ++ M -> pass k l (added (length d)) d (e :: P) M s1 s2 ->
  exists P' M' s1' s2', let wq4 := schedule_all wq3 (after t) in
    wq_ok (n - 1 - Z.of_nat (length (during t) + length (after t))) wq4 /\ iteration wq4 = k /\ contents wq4 = P' ++ M' /\
    pass k l (added (S (length d))) (d ++ [e]) P' M' s1' s2'.
Proof using Hk HB Hfew.
  intros n t wq2 wq3 Hok Hi Hc Hp; pose proof (room (length d)) as Hroom; fold t in Hroom.
  pose proof (pass_length _ _ _ _ _ _ _ _ Hp) as Hlen; pose proof (ps_calls _ _ _ _ _ _ _ _ Hp) as Hcl.
  pose proof (ps_added _ _ _ _ _ _ _ _ Hp) as Ha; apply (f_equal length) in Hcl, Ha.
  rewrite !length_app in *; cbn [length] in *; unfold scheduled in Hroom; rewrite !length_fmap in Hroom.
  destruct (schedule_all_ok (during t) n wq Hok) as (Hok2 & Hc2 & Hi2); [lia|rewrite Hc, length_app; lia|]; fold wq2 in Hok2, Hc2, Hi2.
  destruct (pass_add _ _ _ _ _ _ _ _ (during t) Hk Hp) as (P1 & M1 & u1 & u2 & Hp1 & E1 & _ & [Y ->]).
  apply pass_requeue in Hp1; [|done]; cbn [app] in E1, Hp1; injection E1 as E1.
  assert (H3 : wq_ok (n - 1 - Z.of_nat (length (during t))) wq3 /\ iteration wq3 = k /\
    contents wq3 = (P ++ Y) ++ M1 ++ (if again (length d) e then [mark k e] else [])).
  { subst wq3; rewrite Hc, <- app_assoc, <- E1 in Hc2; assert (Hk2 : iteration wq2 = k) by congruence; rewrite Hk2.
    apply (f_equal length) in E1; rewrite !length_app in E1; unfold scheduled in E1; rewrite length_fmap in E1.
    destruct (again (length d) e); [|split; [eapply wq_ok_le; [exact Hok2|lia]|by rewrite app_nil_r]].
    destruct (add_entry_ok _ wq2 (mark k e) Hok2) as [[Hfull _]|(_ & wq' & -> & Hok' & Hc' & Hi')]; [lia|rewrite Hc2, !length_app in Hfull; lia|].
    split; [by replace (n - 1 - _) with (n - Z.of_nat (length (during t)) - 1) by lia|].
    split; [cbn; congruence|cbn [fst]; by rewrite Hc', Hc2, <- !app_assoc]. }
  destruct H3 as (Hok3 & Hi3 & Hc3); pose proof (pass_length _ _ _ _ _ _ _ _ Hp1) as Hlen1.
  rewrite !length_app in *; unfold scheduled in Hlen1; rewrite length_fmap in Hlen1; cbn [length] in Hlen1.
  destruct (schedule_all_ok (after t) _ wq3 Hok3) as (Hok4 & Hc4 & Hi4); [lia|rewrite Hc3, !length_app; lia|].
  destruct (pass_add _ _ _ _ _ _ _ _ (after t) Hk Hp1) as (P2 & M2 & v1 & v2 & Hp2 & E2 & _).
  exists P2, M2, v1, v2; split; [|split; [congruence|split; [by rewrite Hc4, Hc3, E2, <- app_assoc|by rewrite added_S, app_assoc]]].
  replace (n - 1 - _) with (n - 1 - Z.of_nat (length (during t)) - Z.of_nat (length (after t))) by lia; exact Hok4.
Qed.

Lemma worker_loop fuel : forall wq d P M s1 s2 calls,
  wq_ok (2 * Z.of_nat B + 1 - Z.of_nat (length (added (length d))) - Z.of_nat (length d)) wq -> iteration wq = k ->
  contents wq = P ++ M -> pass k l (added (length d)) d P M s1 s2 -> rev calls = calls_of d ->
  (B - length d < fuel)%nat -> (length d <= B)%nat ->
  exists wq' calls' d', loop fuel (worker_round env) (length d, wq, calls) = Some (wq', calls') /\ pass_result wq' calls' d'.
Proof using Hk HB Hfew.
  induction fuel as [|fuel IH]; intros wq d P M s1 s2 calls Hok Hi Hc Hp Hcalls Hf Hd; [lia|]; cbn [loop worker_round].
  pose proof (room (length d)) as Hroom; rewrite length_app in Hroom; unfold scheduled in Hroom; rewrite !length_fmap in Hroom.
  pose proof (pass_length _ _ _ _ _ _ _ _ Hp) as Hlen.
  destruct (get_entry_ok _ wq Hok) as [[E ->]|(wq1 & e & r & E & -> & Hok1 & Hc1 & Hi1)].
  - rewrite E in Hc; symmetry in Hc; apply app_eq_nil in Hc as [-> ->]; exists wq, calls, d; split; [done|].
    destruct Hp as [E1 E2 _ _ E5 E6 _]; rewrite app_nil_r in E1; cbn in E5, E6; subst s2; rewrite app_nil_r in E2.
    exists s1, []; rewrite E, <- E5; split_and!; auto.
  - rewrite E in Hc; rewrite Hi1, Hi; destruct P as [|e' P]; cbn [app] in Hc.
    + destruct M as [|m M]; [done|]; injection Hc as -> ->.
      destruct (pass_last k l _ d m M s1 s2 (during (env (length d))) Hk Hp) as (F1 & F2 & F3 & F4); rewrite F4, Z.eqb_refl.
      assert (Hlen1 : Z.of_nat (length (contents wq1) + length (during (env (length d)))) < WQ_MAX_ENTRIES)
        by (rewrite Hc1; cbn [length] in Hlen; lia).
      destruct (schedule_all_ok (during (env (length d))) _ wq1 Hok1) as (Hok2 & Hc2 & _); [lia|lia|].
      destruct (add_entry_ok _ _ m Hok2) as [[Hfull _]|(_ & wq3 & -> & _ & Hc3 & _)]; [lia| |].
      { rewrite Hc2, length_app in Hfull; unfold scheduled in Hfull; rewrite length_fmap in Hfull; lia. }
      exists wq3, calls, d; split; [done|]; exists s1, (s2 ++ scheduled (during (env (length d)))).
      rewrite Hc3, Hc2, Hc1, <- app_assoc; split_and!; auto; right.
      destruct (ps_split _ _ _ _ _ _ _ _ Hp) as [E0|(i & Hi0 & Hs)].
      * rewrite <- (ps_marked _ _ _ _ _ _ _ _ Hp), list.filter_cons_True in E0 by done; done.
      * exists i; split_and!; auto; by rewrite (ps_added _ _ _ _ _ _ _ _ Hp), app_assoc.
    + injection Hc as -> ->; pose proof (ps_fresh _ _ _ _ _ _ _ _ Hp) as [He _]%list.Forall_cons; tests.
      destruct (call_step wq1 e' d P M s1 s2) as (P' & M' & u1 & u2 & Hok' & Hi' & Hc' & Hp'); auto; [congruence|].
      set (wq2 := schedule_all wq1 _) in *; set (wq4 := schedule_all _ (after _)) in Hok', Hi', Hc'.
      replace (if now _ <? _ then _ else _) with
        (inl (B := wq_t * list (wq_entry_t * bool)) (length (d ++ [e']), wq4, (e', expired (length d) e') :: calls)).
      2: { rewrite length_app, Nat.add_1_r; subst wq4; unfold again, expired; destruct (Z.ltb_spec (now (env (length d))) (expires e'));
           [test_false|test_true]; cbn [negb andb]; [|done]; by destruct (result _ =? EAGAIN). }
      replace (S (length d)) with (length (d ++ [e'])) in Hp' by (rewrite length_app; cbn; lia).
      pose proof (ps_calls _ _ _ _ _ _ _ _ Hp) as Hcl; pose proof (ps_added _ _ _ _ _ _ _ _ Hp) as Ha.
      apply (f_equal length) in Hcl, Ha; rewrite !length_app in Hcl; rewrite !length_app in Ha; cbn [length] in Hcl.
      apply (IH wq4 (d ++ [e']) P' M' u1 u2); auto; rewrite ?length_app; cbn [length]; try lia.
      * rewrite Nat.add_1_r, added_S, !length_app; unfold scheduled; rewrite !length_fmap.
        eapply wq_ok_le; [exact Hok'|lia].
      * cbn [rev]; by rewrite calls_snoc, Hcalls.
Qed.
End Pass.

(** C28. A pass over a work queue calls handlers while others, and the handlers, add entries to
    the queue.  Assume that at most [B] entries are in the queue or added during the pass and the queue can hold
    so many (an entry is then never lost because the queue is full), that the indices of
    the queue do not wrap, and that the number of the pass is neither zero nor the mark of an
    entry in the queue.  The pass ends within [B + 1] rounds, also if handlers ask for ever to be called
    again.  It calls the handlers of the entries that were in the queue and then of those
    scheduled until the first handler asked to be called again ([s1]; all of them if none did), once each, in this order,
    and tells each whether its entry has expired.  Afterwards the queue holds the entries that
    had not expired and whose handler returned [EAGAIN], marked and in order except that the first of them is
    behind the others, and, not marked and in order, those scheduled later ([s2]), and no others;
    it is empty if no handler asked to be called again. *)
Theorem process_queue_correct wq B :
  let k := u32 (iteration wq + 1) in
  let l := contents wq in
  (forall n, (length l + length (added n) <= B)%nat) -> Z.of_nat B <= WQ_MAX_ENTRIES -> wq_ok (2 * Z.of_nat B + 1) wq ->
  k <> 0 -> Forall (fun e => entry_iteration e <> k) l ->
  exists wq' s1 s2, let d := l ++ s1 in
    process_queue env (S B) wq = Some (wq', rev (calls_of d)) /\
    marked k (contents wq') = rotate (requeued k d) /\ unmarked k (contents wq') = s2 /\
    (requeued k d = [] /\ s1 = added (length d) /\ s2 = [] \/
     exists i, first_again d i /\ s1 = added i ++ scheduled (during (env i)) /\
       s1 ++ s2 = added (length d) ++ scheduled (during (env (length d)))).
Proof.
  intros k l Hfew HB Hok Hk Hl; unfold process_queue; set (wq1 := mk_wq _ _ _ _).
  assert (Hok1 : wq_ok (2 * Z.of_nat B + 1) wq1) by (destruct Hok; by constructor).
  destruct (worker_loop k l B Hk HB Hfew (S B) wq1 [] l [] [] [] []) as (wq' & calls & d & E & s1 & s2 & Hc & -> & Hm & Hu & Hend);
    auto; [eapply wq_ok_le; [exact Hok1|cbn; lia]|by rewrite app_nil_r| |cbn; lia|cbn; lia|].
  { split; try done; [by rewrite app_nil_r|by left]. }
  exists wq', s1, s2; rewrite <- Hc, rev_involutive; split; [exact E|]; split; [done|]; split; [done|].
  destruct Hend as [(H1 & H2 & H3)|(i & H1 & H2 & H3)]; [by left|right; by exists i].
Qed.
End Worker.

(** Three entries: one is done, one is to be called again, one has expired; the handler of the first one
    schedules an entry, so does somebody during the last two calls. *)
Definition three : wq_t :=
  fst (add_entry (fst (add_entry (fst (add_entry (mk_wq (fun _ => mk_entry 0 0 0 0) 8910 8910 6)
    (mk_entry 1 10 100 0))) (mk_entry 2 20 100 6))) (mk_entry 3 20 50 0)).
Definition three_env (i : nat) : moment :=
  match i with
  | 0%nat => mk_moment 60 [mk_entry 4 10 560 0] 0 []
  | 1%nat => mk_moment 60 [] EAGAIN []
  | 2%nat => mk_moment 60 [] 0 [mk_entry 5 10 560 0]
  | 3%nat => mk_moment 60 [] EAGAIN []
  | _ => mk_moment 60 [] 0 []
  end.

Lemma three_added n : (length (contents three) + length (added three_env n) <= 5)%nat.
Proof.
  assert (H : forall n, added three_env (3 + n) = added three_env 3).
  { intros m; induction m as [|m IH]; [done|]; rewrite Nat.add_succ_r, added_S, IH; by destruct m. }
  destruct n as [|[|[|n]]]; [vm_compute; lia..|]; change (S (S (S n))) with (3 + n)%nat; rewrite (H n); vm_compute; lia.
Qed.

Lemma process_queue_correct_witness :
  contents three = [mk_entry 1 10 100 0; mk_entry 2 20 100 6; mk_entry 3 20 50 0] /\
  exists wq', process_queue three_env 6 three =
    Some (wq', [(mk_entry 4 10 560 0, false); (mk_entry 3 20 50 0, true); (mk_entry 2 20 100 6, false); (mk_entry 1 10 100 0, false)]) /\
  filter (fun e => entry_iteration e = 7) (contents wq') = [mk_entry 4 10 560 7; mk_entry 2 20 100 7] /\
  filter (fun e => entry_iteration e <> 7) (contents wq') = [mk_entry 5 10 560 0].
Proof.
  split; [vm_compute; reflexivity|].
  destruct (process_queue_correct three_env three 5 three_added) as (wq' & s1 & s2 & E & Hm & Hu & Hend).
  - done.
  - constructor; vm_compute; split_and?; congruence.
  - done.
  - repeat constructor; vm_compute; congruence.
  - assert (Hs : s1 = [mk_entry 4 10 560 0] /\ s2 = [mk_entry 5 10 560 0]).
    { destruct Hend as [[H _]|(i & [(e & He & Ha) Hf] & Hs1 & Hs2)]; [done|].
      destruct i as [|[|i]]; [cbn in He; injection He as <-; done| |by specialize (Hf 1%nat _ ltac:(lia) eq_refl)].
      vm_compute in Hs1; subst s1; vm_compute in Hs2; injection Hs2 as ->; split; reflexivity. }
    destruct Hs as [-> ->]; exists wq'; split; [rewrite E|split; [etransitivity; [exact Hm|]|exact Hu]]; vm_compute; reflexivity.
Defined.

(** A queue that gets a new entry during every call is processed for ever: the entries that are added are not marked. *)
Theorem process_queue_livelock wq e0 e fuel :
  contents wq = [e0] -> entry_iteration e0 <> u32 (iteration wq + 1) -> u32 (iteration wq + 1) <> 0 -> wq_ok (Z.of_nat fuel) wq ->
  process_queue (fun _ => mk_moment 0 [e] 0 []) fuel wq = None.
Proof.
  unfold process_queue; intros Hc He Hk Hok; set (wq1 := mk_wq _ _ _ _); change (contents wq) with (contents wq1) in Hc.
  change (u32 (iteration wq + 1)) with (iteration wq1) in He, Hk; assert (Hok1 : wq_ok (Z.of_nat fuel) wq1) by (destruct Hok; by constructor).
  clearbody wq1; clear Hok wq; revert wq1 e0 Hc He Hk Hok1; generalize 0%nat as i, (@nil (wq_entry_t * bool)) as calls.
  induction fuel as [|fuel IH]; intros i calls wq e0 Hc He Hk Hok; [done|]; cbn [loop worker_round].
  destruct (get_entry_ok _ wq Hok) as [[E _]|(wq1 & e1 & r & E & -> & Hok1 & Hc1 & Hi1)]; rewrite Hc in E; [done|]; injection E as <- <-.
  rewrite Hi1; tests; cbn [now during result after].
  destruct (schedule_all_ok [e] _ wq1 Hok1) as (Hok2 & Hc2 & Hi2); [cbn; lia|by rewrite Hc1|]; rewrite Hc1 in Hc2; cbn in Hc2.
  replace (Z.of_nat (S fuel) - Z.of_nat (length [e])) with (Z.of_nat fuel) in Hok2 by (cbn; lia).
  change (schedule_all ?w []) with w; destruct (0 <? expires e0); change (0 =? EAGAIN) with false;
    (eapply IH; [exact Hc2|cbn [entry_iteration]; rewrite Hi2, Hi1; congruence|rewrite Hi2, Hi1; congruence|exact Hok2]).
Qed.

End WqProofs.
