(* ===== verification/BlockDev.v ===== *)
(** * Block devices: driver manager, RAM disk and block layer
      ([kernel/dm.c], [driver/ramdisk.c], [kernel/blockcache.c])

    Drivers register tables of function pointers with the driver manager; the block
    layer looks them up and adds access to byte ranges. [D] is the state of all
    devices, and buffers are functions of the offset. *)

From S2P Require Import Prelude Memory Errors.

Module BlockDev.

Definition BLOCK_SIZE : Z := 1024.
Definition MAJOR (x : Z) : Z := u8 (Z.shiftr x 8).
Definition MINOR (x : Z) : Z := u8 x.
Definition DEVICE (major minor : Z) : Z := u32 (Z.shiftl major 8 + minor).

Section Devices.
Context {D : Type}.

(** [blk_dev_ops_t]: null pointers are [None]. [read] gets minor, number of blocks,
    first block, and the buffer with the offset where data is stored; it
    returns the new buffer and the result. *)
Record blk_dev_ops_t := mk_ops {
  op_open : option (D -> Z -> D * Z);
  op_close : option (D -> Z -> D * Z);
  op_read : option (D -> Z -> Z -> Z -> mem -> Z -> D * mem * Z);
  op_write : option (D -> Z -> Z -> Z -> mem -> Z -> D * Z);
}.

(** ** The driver manager *)

(** [driver_t]; the operations of character devices are not used here. *)
Inductive driver_t := DRIVER_NONE | DRIVER_CHAR | DRIVER_BLK (ops : blk_dev_ops_t).
Definition drivers := Z -> driver_t.

Definition dm_get_blk_dev_ops (drv : drivers) (major : Z) : option blk_dev_ops_t :=
  match drv major with DRIVER_BLK ops => Some ops | _ => None end.

Definition dm_register_blk_dev (drv : drivers) (major : Z) (ops : blk_dev_ops_t) : drivers * Z :=
  match drv major with
  | DRIVER_NONE => (<[major := DRIVER_BLK ops]> drv, 0)
  | _ => (drv, EALREADY)
  end.

Definition dm_register_char_dev (drv : drivers) (major : Z) : drivers * Z :=
  match drv major with
  | DRIVER_NONE => (<[major := DRIVER_CHAR]> drv, 0)
  | _ => (drv, EALREADY)
  end.

(** ** The block layer *)

Section Block.
Context (drv : drivers).

Definition bc_read (d : D) (dev blocks first_block : Z) (buffer : mem) (at_ : Z) : D * mem * Z :=
  match dm_get_blk_dev_ops drv (MAJOR dev) with
  | None => (d, buffer, - EIO)
  | Some ops =>
      match op_read ops with
      | None => (d, buffer, - EIO)
      | Some f => f d (MINOR dev) blocks first_block buffer at_
      end
  end.

Definition bc_write (d : D) (dev blocks first_block : Z) (buffer : mem) (at_ : Z) : D * Z :=
  match dm_get_blk_dev_ops drv (MAJOR dev) with
  | None => (d, - EIO)
  | Some ops =>
      match op_write ops with
      | None => (d, - EIO)
      | Some f => f d (MINOR dev) blocks first_block buffer at_
      end
  end.

Definition bc_open (d : D) (dev : Z) : D * Z :=
  match dm_get_blk_dev_ops drv (MAJOR dev) with
  | None => (d, ENODEV)
  | Some ops => match op_open ops with None => (d, ENODEV) | Some f => f d (MINOR dev) end
  end.

Definition bc_close (d : D) (dev : Z) : D * Z :=
  match dm_get_blk_dev_ops drv (MAJOR dev) with
  | None => (d, ENODEV)
  | Some ops => match op_close ops with None => (d, ENODEV) | Some f => f d (MINOR dev) end
  end.

(** The result of an access to bytes: the devices, the caller's buffer, the return
    value, and the number of temporary buffers that were not released. [tmp] is what
    [kmalloc] returns, [None] if it fails. *)
Record access := mk_access { devices : D; data : mem; code : Z; leaked : Z }.

Definition bc_read_bytes (tmp : option mem) (d : D) (block bytes : Z) (buffer : mem) (device offset : Z) : access :=
  let blocks_to_read := s32 (u32 (u32 (bytes + offset - 1) / BLOCK_SIZE + 1)) in
  match tmp with
  | None => mk_access d buffer ENOMEM 0
  | Some tmp =>
      let '(d, tmp, rc) := bc_read d device blocks_to_read (s32 block) tmp 0 in
      if rc <=? 0 then mk_access d buffer EIO 0
      else mk_access d (blit buffer 0 tmp offset bytes) 0 0
  end.

(** The part of [bc_write_bytes] after partial blocks have been read. *)
Definition bc_write_back (d : D) (tmp : mem) (block blocks_to_write bytes : Z) (buffer : mem) (device offset : Z) : access :=
  let tmp := blit tmp offset buffer 0 bytes in
  let '(d, rc) := bc_write d device blocks_to_write (s32 block) tmp 0 in
  if rc <=? 0 then mk_access d buffer EIO 0 else mk_access d buffer 0 0.

Definition bc_write_bytes (tmp : option mem) (d : D) (block bytes : Z) (buffer : mem) (device offset : Z) : access :=
  let '(block, offset) :=
    if BLOCK_SIZE <=? offset then (u32 (block + offset / BLOCK_SIZE), offset mod BLOCK_SIZE) else (block, offset) in
  let blocks_to_write := s32 (u32 (u32 (bytes + offset - 1) / BLOCK_SIZE + 1)) in
  match tmp with
  | None => mk_access d buffer ENOMEM 0
  | Some tmp =>
      let first_partial := negb (offset mod BLOCK_SIZE =? 0) in
      let '(d, tmp, rc) := if first_partial then bc_read d device 1 (s32 block) tmp 0 else (d, tmp, 1) in
      if rc <=? 0 then mk_access d buffer EIO 1
      else if negb (u32 (offset + bytes) mod BLOCK_SIZE =? 0) && negb (first_partial && (blocks_to_write =? 1)) then
        let '(d, tmp, rc) := bc_read d device 1 (s32 (u32 (block + blocks_to_write - 1))) tmp
                               ((blocks_to_write - 1) * BLOCK_SIZE) in
        if rc <=? 0 then mk_access d buffer EIO 1
        else bc_write_back d tmp block blocks_to_write bytes buffer device offset
      else bc_write_back d tmp block blocks_to_write bytes buffer device offset
  end.

End Block.
End Devices.
Arguments blk_dev_ops_t D : clear implicits.
Arguments driver_t D : clear implicits.
Arguments drivers D : clear implicits.

(** ** The RAM disk *)

Definition RAMDISK_BLOCK_SIZE : Z := 1024.
Definition MAJOR_RAMDISK : Z := 1.

(** The static variables of the driver and the memory in which the disk is kept. *)
Record ramdisk := mk_ramdisk { have_ramdisk : Z; ramdisk_start : Z; ramdisk_end : Z; ram : mem }.

Definition validate_minor_dev (d : ramdisk) (minor : Z) : Z :=
  if have_ramdisk d =? 0 then ENODEV else if negb (minor =? 0) then ENODEV else 0.

Definition ramdisk_open (d : ramdisk) (minor : Z) : ramdisk * Z := (d, validate_minor_dev d minor).
Definition ramdisk_close (d : ramdisk) (minor : Z) : ramdisk * Z := (d, validate_minor_dev d minor).

Definition ramdisk_rw (d : ramdisk) (minor blocks lba : Z) (buffer : mem) (at_ : Z) (write : bool) : ramdisk * mem * Z :=
  if negb (validate_minor_dev d minor =? 0) then (d, buffer, - ENODEV)
  else
    let start := u32 (lba * RAMDISK_BLOCK_SIZE + ramdisk_start d) in
    let end_ := u32 (start + blocks * RAMDISK_BLOCK_SIZE - 1) in
    let n := u32 (end_ - start + 1) in
    if ramdisk_end d <? end_ then (d, buffer, - EIO)
    else if negb write then (d, blit buffer at_ (ram d) start n, s32 n)
    else (mk_ramdisk (have_ramdisk d) (ramdisk_start d) (ramdisk_end d) (blit (ram d) start buffer at_ n), buffer, s32 n).

Definition ramdisk_read (d : ramdisk) (minor blocks lba : Z) (buffer : mem) (at_ : Z) : ramdisk * mem * Z :=
  ramdisk_rw d minor blocks lba buffer at_ false.
Definition ramdisk_write (d : ramdisk) (minor blocks lba : Z) (buffer : mem) (at_ : Z) : ramdisk * Z :=
  let '(d, _, rc) := ramdisk_rw d minor blocks lba buffer at_ true in (d, rc).

Definition ramdisk_ops : blk_dev_ops_t ramdisk :=
  mk_ops (Some ramdisk_open) (Some ramdisk_close) (Some ramdisk_read) (Some ramdisk_write).

(** [ramdisk_init]; the location of the disk comes from the memory manager. *)
Definition ramdisk_init (d : ramdisk) (drv : drivers ramdisk) (have base top : Z) : ramdisk * drivers ramdisk :=
  if have =? 0 then (d, drv)
  else
    let d := mk_ramdisk 1 base top (ram d) in
    let '(drv, _) := dm_register_blk_dev drv MAJOR_RAMDISK ramdisk_ops in
    (d, drv).

End BlockDev.
