(* ===== verification/BlockDevProofs.v ===== *)
(** * Block devices: access to byte ranges of any well-behaved disk

    The block layer is verified against an interface, the class [BlockDevice], that a
    driver has to implement; the RAM disk is an instance. *)

From S2P Require Import Prelude Memory Errors BlockDev.

Module BlockDevProofs.
Import BlockDev.

(** What the block layer expects of the driver of a device: in the states [ready],
    the device holds [size] blocks with the contents [image]; reads and writes of whole
    blocks within that range succeed and do what they should. *)
Class BlockDevice {D : Type} (ops : blk_dev_ops_t D) (minor : Z) := {
  ready : D -> Prop;
  size : D -> Z;
  image : D -> mem;
  size_bound : forall d, ready d -> 0 <= size d < 2 ^ 21;
  read_law : forall d n b buf at_, ready d -> 0 < n -> 0 <= b -> b + n <= size d ->
    exists f buf' rc, op_read ops = Some f /\ f d minor n b buf at_ = (d, buf', rc) /\ 0 < rc /\
      forall x, buf' x = blit buf at_ (image d) (b * BLOCK_SIZE) (n * BLOCK_SIZE) x;
  write_law : forall d n b buf at_, ready d -> 0 < n -> 0 <= b -> b + n <= size d ->
    exists f d' rc, op_write ops = Some f /\ f d minor n b buf at_ = (d', rc) /\ 0 < rc /\
      ready d' /\ size d' = size d /\
      forall x, image d' x = blit (image d) (b * BLOCK_SIZE) buf at_ (n * BLOCK_SIZE) x;
}.

(** ** The RAM disk is a block device *)

(** The disk lies in the address space and has a whole number of blocks. *)
Definition ramdisk_ready (d : ramdisk) : Prop :=
  have_ramdisk d <> 0 /\ 0 < ramdisk_start d <= ramdisk_end d + 1 /\ ramdisk_end d < 2 ^ 32 /\
  ramdisk_end d + 1 - ramdisk_start d < 2 ^ 31.

Definition ramdisk_size (d : ramdisk) : Z := (ramdisk_end d + 1 - ramdisk_start d) / BLOCK_SIZE.
Definition ramdisk_image (d : ramdisk) : mem := fun x => ram d (ramdisk_start d + x).

Lemma ramdisk_rw_ok d n b buf at_ w :
  ramdisk_ready d -> 0 < n -> 0 <= b -> b + n <= ramdisk_size d ->
  ramdisk_rw d 0 n b buf at_ w =
    (if negb w then (d, blit buf at_ (ram d) (ramdisk_start d + b * BLOCK_SIZE) (n * BLOCK_SIZE), n * BLOCK_SIZE)
     else (mk_ramdisk (have_ramdisk d) (ramdisk_start d) (ramdisk_end d)
             (blit (ram d) (ramdisk_start d + b * BLOCK_SIZE) buf at_ (n * BLOCK_SIZE)), buf, n * BLOCK_SIZE)).
Proof.
  intros (Hh & Hs & He & Hl) Hn Hb Hbn; unfold ramdisk_size, BLOCK_SIZE in *.
  assert ((b + n) * 1024 <= ramdisk_end d + 1 - ramdisk_start d) by (Z.div_mod_to_equations; lia).
  unfold ramdisk_rw, validate_minor_dev, RAMDISK_BLOCK_SIZE; tests; cbn [Z.eqb negb].
  rewrite (u32_small (b * 1024 + ramdisk_start d)), (u32_small (_ + n * 1024 - 1)) by lia.
  tests; rewrite (Z.add_comm (b * 1024)).
  replace (u32 _) with (n * 1024) by (rewrite u32_small; lia); by word.
Qed.

Lemma ramdisk_read_law d n b buf at_ :
  ramdisk_ready d -> 0 < n -> 0 <= b -> b + n <= ramdisk_size d ->
  exists f buf' rc, op_read ramdisk_ops = Some f /\ f d 0 n b buf at_ = (d, buf', rc) /\ 0 < rc /\
    forall x, buf' x = blit buf at_ (ramdisk_image d) (b * BLOCK_SIZE) (n * BLOCK_SIZE) x.
Proof.
  intros; eexists _, _, _; split_and!; [done|by unfold ramdisk_read; rewrite ramdisk_rw_ok|unfold BLOCK_SIZE; lia|].
  intros x; case_blit; [rewrite blit_in by done; unfold ramdisk_image; f_equal; lia|by rewrite blit_out].
Qed.

Lemma ramdisk_write_law d n b buf at_ :
  ramdisk_ready d -> 0 < n -> 0 <= b -> b + n <= ramdisk_size d ->
  exists f d' rc, op_write ramdisk_ops = Some f /\ f d 0 n b buf at_ = (d', rc) /\ 0 < rc /\
    ramdisk_ready d' /\ ramdisk_size d' = ramdisk_size d /\
    forall x, ramdisk_image d' x = blit (ramdisk_image d) (b * BLOCK_SIZE) buf at_ (n * BLOCK_SIZE) x.
Proof.
  intros Hr ???; eexists _, _, _; split_and!; [done|by unfold ramdisk_write; rewrite ramdisk_rw_ok|unfold BLOCK_SIZE; lia|done|done|].
  intros x; unfold ramdisk_image; cbn [ram ramdisk_start]; case_blit.
  - rewrite blit_in by lia; f_equal; lia.
  - rewrite blit_out by lia; done.
Qed.

Lemma ramdisk_size_bound d : ramdisk_ready d -> 0 <= ramdisk_size d < 2 ^ 21.
Proof. intros (Hh & Hs & He & Hl); unfold ramdisk_size, BLOCK_SIZE; Z.div_mod_to_equations; lia. Qed.

#[export] Instance ramdisk_device : BlockDevice ramdisk_ops 0 := {|
  ready := ramdisk_ready; size := ramdisk_size; image := ramdisk_image;
  size_bound := ramdisk_size_bound; read_law := ramdisk_read_law; write_law := ramdisk_write_law
|}.

(** ** Access to bytes *)

Section Bytes.
Context {D : Type} (drv : drivers D) (ops : blk_dev_ops_t D) (dev : Z) `{!BlockDevice ops (MINOR dev)}.
Context (registered : drv (MAJOR dev) = DRIVER_BLK ops).

Lemma bc_read_ok d n b buf at_ :
  ready d -> 0 < n -> 0 <= b -> b + n <= size d ->
  exists buf' rc, bc_read drv d dev n b buf at_ = (d, buf', rc) /\ 0 < rc /\
    forall x, buf' x = blit buf at_ (image d) (b * BLOCK_SIZE) (n * BLOCK_SIZE) x.
Proof.
  intros Hr Hn Hb Hbn; destruct (read_law d n b buf at_) as (f & buf' & rc & Hf & E & H); auto.
  exists buf', rc; unfold bc_read, dm_get_blk_dev_ops; rewrite registered, Hf; auto.
Qed.

Lemma bc_write_ok d n b buf at_ :
  ready d -> 0 < n -> 0 <= b -> b + n <= size d ->
  exists d' rc, bc_write drv d dev n b buf at_ = (d', rc) /\ 0 < rc /\ ready d' /\ size d' = size d /\
    forall x, image d' x = blit (image d) (b * BLOCK_SIZE) buf at_ (n * BLOCK_SIZE) x.
Proof.
  intros Hr Hn Hb Hbn; destruct (write_law d n b buf at_) as (f & d' & rc & Hf & E & H); auto.
  exists d', rc; unfold bc_write, dm_get_blk_dev_ops; rewrite registered, Hf; auto.
Qed.

(** The number of blocks computed for a range covers it and stays on the disk. *)
Lemma block_count d bytes offset block :
  ready d -> 0 < bytes -> 0 <= offset -> 0 <= block -> block * BLOCK_SIZE + offset + bytes <= size d * BLOCK_SIZE ->
  let n := s32 (u32 (u32 (bytes + offset - 1) / BLOCK_SIZE + 1)) in
  0 < n /\ block + n <= size d /\ (n - 1) * BLOCK_SIZE < offset + bytes <= n * BLOCK_SIZE.
Proof.
  intros Hr ??? Hs n; pose proof (size_bound d Hr); unfold n, BLOCK_SIZE in *.
  rewrite (u32_small (bytes + offset - 1)) by lia.
  assert (0 <= (bytes + offset - 1) / 1024 <= 2 ^ 21) by (Z.div_mod_to_equations; lia).
  word; Z.div_mod_to_equations; lia.
Qed.

Lemma read_bytes_ok tmp d block bytes buf offset :
  ready d -> 0 < bytes -> 0 <= offset -> 0 <= block -> block * BLOCK_SIZE + offset + bytes <= size d * BLOCK_SIZE ->
  exists buf', bc_read_bytes drv (Some tmp) d block bytes buf dev offset = mk_access d buf' 0 0 /\
    forall x, buf' x = blit buf 0 (image d) (block * BLOCK_SIZE + offset) bytes x.
Proof.
  intros Hr ??? Hs; pose proof (size_bound d Hr).
  destruct (block_count d bytes offset block) as (Hn & Hbn & Hcov); auto.
  unfold bc_read_bytes; set (n := s32 _) in *; rewrite (s32_small block) by (unfold BLOCK_SIZE in *; lia).
  destruct (bc_read_ok d n block tmp 0) as (tmp' & rc & -> & Hrc & Ht); auto; tests.
  eexists; split; [done|]; intros x; case_blit; [|by rewrite blit_out].
  rewrite (blit_in buf) by done; rewrite Ht, blit_in by lia; f_equal; lia.
Qed.

(** The temporary buffer holds the blocks to be written, except for the range that the
    caller's data goes to. *)
Definition frames (d : D) (tmp : mem) (block n offset bytes : Z) : Prop :=
  forall x, 0 <= x < n * BLOCK_SIZE -> ~ (offset <= x < offset + bytes) -> tmp x = image d (block * BLOCK_SIZE + x).

Lemma write_back_ok d tmp block n bytes buf offset :
  ready d -> 0 < n -> 0 <= block < 2 ^ 31 -> block + n <= size d -> 0 <= offset -> 0 <= bytes ->
  offset + bytes <= n * BLOCK_SIZE -> frames d tmp block n offset bytes ->
  exists d', bc_write_back drv d tmp block n bytes buf dev offset = mk_access d' buf 0 0 /\ ready d' /\ size d' = size d /\
    forall x, image d' x = blit (image d) (block * BLOCK_SIZE + offset) buf 0 bytes x.
Proof.
  intros Hr Hn Hb Hs ??? Hframe; unfold bc_write_back; rewrite (s32_small block) by lia.
  destruct (bc_write_ok d n block (blit tmp offset buf 0 bytes) 0) as (d' & rc & -> & Hrc & Hr' & Hs' & Hi); [done|lia..|]; tests.
  exists d'; split_and!; auto; intros x; rewrite Hi; case_blit; [|by rewrite blit_out by lia].
  case_blit; [rewrite blit_in by lia; f_equal; lia|].
  rewrite (blit_out (image d)), Hframe by lia; f_equal; lia.
Qed.

(** Reading block [k] of the range completes its bytes in the temporary buffer. *)
Lemma read_block_ok d tmp block k :
  ready d -> 0 <= k -> 0 <= block + k < 2 ^ 31 -> block + k < size d ->
  exists tmp' rc, bc_read drv d dev 1 (s32 (u32 (block + k))) tmp (k * BLOCK_SIZE) = (d, tmp', rc) /\ 0 < rc /\
    forall x, tmp' x = if decide (k * BLOCK_SIZE <= x < (k + 1) * BLOCK_SIZE)
                       then image d (block * BLOCK_SIZE + x) else tmp x.
Proof.
  intros Hr Hk Hbk Hs; rewrite u32_small, s32_small by lia.
  destruct (bc_read_ok d 1 (block + k) tmp (k * BLOCK_SIZE)) as (tmp' & rc & E & Hrc & Ht); [done|lia..|].
  exists tmp', rc; split_and!; auto; intros x; rewrite Ht; unfold BLOCK_SIZE.
  case_decide; [rewrite blit_in by lia; f_equal; lia|by rewrite blit_out by lia].
Qed.

Lemma write_bytes_ok tmp d block bytes buf offset :
  ready d -> 0 < bytes -> 0 <= offset -> 0 <= block -> block * BLOCK_SIZE + offset + bytes <= size d * BLOCK_SIZE ->
  exists d', bc_write_bytes drv (Some tmp) d block bytes buf dev offset = mk_access d' buf 0 0 /\
    ready d' /\ size d' = size d /\
    forall x, image d' x = blit (image d) (block * BLOCK_SIZE + offset) buf 0 bytes x.
Proof.
  intros Hr Hbytes Hoff Hblock Hs; pose proof (size_bound d Hr) as Hsz; unfold bc_write_bytes.
  set (bo := if BLOCK_SIZE <=? offset then _ else _).
  assert (Hbo : exists b o, bo = (b, o) /\ 0 <= o < BLOCK_SIZE /\ 0 <= b /\ b * BLOCK_SIZE + o = block * BLOCK_SIZE + offset).
  { unfold bo, BLOCK_SIZE in *; case_test; [|exists block, offset; auto with lia].
    exists (block + offset / 1024), (offset mod 1024); rewrite u32_small by (Z.div_mod_to_equations; lia).
    split; [done|]; Z.div_mod_to_equations; lia. }
  destruct Hbo as (b & o & -> & Ho & Hb & Eo); rewrite <- Eo.
  destruct (block_count d bytes o b) as (Hn & Hbn & Hcov); [auto; lia..|].
  set (n := s32 _) in *; clearbody n; unfold BLOCK_SIZE in Ho, Hcov.
  rewrite (u32_small (o + bytes)) by (unfold BLOCK_SIZE in *; lia); rewrite (Z.mod_small o) by (unfold BLOCK_SIZE; lia).
  destruct (read_block_ok d tmp b 0) as (tmp1 & rc1 & E1 & Hrc1 & Ht1); [auto; lia..|].
  rewrite Z.add_0_r, u32_small in E1 by lia.
  set (first := if negb (o =? 0) then _ else _).
  assert (Hfirst : exists t rc, first = (d, t, rc) /\ 0 < rc /\
    forall x, 0 <= x < BLOCK_SIZE -> o <> 0 -> t x = image d (b * BLOCK_SIZE + x)).
  { unfold first; case_test; [exists tmp, 1; split_and!; auto; lia|].
    exists tmp1, rc1; split_and!; auto; intros x Hx _; rewrite Ht1, decide_True; [done|unfold BLOCK_SIZE in *; lia]. }
  destruct Hfirst as (t & rc & -> & Hrc & Ht); tests.
  case_match eqn:Econd.
  - destruct (read_block_ok d t b (n - 1)) as (t2 & rc2 & E2 & Hrc2 & Ht2); [auto; lia..|].
    replace (b + n - 1) with (b + (n - 1)) by lia; rewrite E2; tests.
    apply write_back_ok; auto; [lia..|unfold BLOCK_SIZE; lia|]; intros x Hx Hout; rewrite Ht2.
    case_decide; [done|]; unfold BLOCK_SIZE in *; apply Ht; lia.
  - apply write_back_ok; auto; [lia..|unfold BLOCK_SIZE; lia|]; intros x Hx Hout; unfold BLOCK_SIZE in *.
    destruct (Z.eqb_spec ((o + bytes) mod 1024) 0), (Z.eqb_spec o 0), (Z.eqb_spec n 1);
      cbn in Econd; try discriminate; apply Ht; Z.div_mod_to_equations; lia.
Qed.

End Bytes.

(** ** Properties *)

(** A RAM disk of four blocks at address 8192, registered with the driver manager. *)
Definition demo_disk : ramdisk := mk_ramdisk 1 8192 12287 (fun x => x mod 251).
Definition demo_drivers : drivers ramdisk := snd (ramdisk_init demo_disk (fun _ => DRIVER_NONE) 1 8192 12287).

Lemma demo_ready : ready (ops := ramdisk_ops) (minor := MINOR 256) demo_disk.
Proof. repeat split; vm_compute; congruence. Qed.

(** C33. On every device that implements the interface of a block device, reading bytes
    from any offset, across blocks, gives exactly the bytes of the device at that
    position and changes neither the device nor the rest of the buffer. *)
Theorem bc_read_bytes_correct {D : Type} (drv : drivers D) (ops : blk_dev_ops_t D) (dev : Z)
    `{!BlockDevice ops (MINOR dev)} tmp d block bytes buf offset :
  drv (MAJOR dev) = DRIVER_BLK ops -> ready d -> 0 < bytes -> 0 <= offset -> 0 <= block ->
  block * BLOCK_SIZE + offset + bytes <= size d * BLOCK_SIZE ->
  exists buf', bc_read_bytes drv (Some tmp) d block bytes buf dev offset = mk_access d buf' 0 0 /\
    bytes_at buf' 0 (Z.to_nat bytes) = bytes_at (image d) (block * BLOCK_SIZE + offset) (Z.to_nat bytes) /\
    changes_only buf buf' 0 bytes.
Proof.
  intros Hd Hr ????; destruct (read_bytes_ok drv ops dev Hd tmp d block bytes buf offset) as (buf' & E & Him); auto.
  exists buf'; split_and!; auto; [|intros x Hx; rewrite Him, blit_out; auto; lia].
  unfold bytes_at; apply list_fmap_ext; intros i j [-> Hi]%lookup_seq; rewrite Him, blit_in by lia; f_equal; lia.
Qed.

Lemma bc_read_bytes_correct_witness :
  exists buf', bc_read_bytes demo_drivers (Some (fun _ => 0)) demo_disk 1 1500 (fun _ => 7) 256 100 = mk_access demo_disk buf' 0 0 /\
    bytes_at buf' 0 1500 = bytes_at (fun x => (8192 + x) mod 251) 1124 1500.
Proof.
  destruct (bc_read_bytes_correct demo_drivers ramdisk_ops 256 (fun _ => 0) demo_disk 1 1500 (fun _ => 7) 100)
    as (buf' & E & H & _); [reflexivity|exact demo_ready|lia|lia|lia|vm_compute; congruence|].
  exists buf'; split; [exact E|exact H].
Defined.

(** C32. Writing bytes at any offset, across blocks, succeeds, releases its temporary
    buffer, and changes exactly these bytes of the device: the rest of partially
    written blocks is kept. *)
Theorem bc_write_bytes_correct {D : Type} (drv : drivers D) (ops : blk_dev_ops_t D) (dev : Z)
    `{!BlockDevice ops (MINOR dev)} tmp d block bytes buf offset :
  drv (MAJOR dev) = DRIVER_BLK ops -> ready d -> 0 < bytes -> 0 <= offset -> 0 <= block ->
  block * BLOCK_SIZE + offset + bytes <= size d * BLOCK_SIZE ->
  exists d', bc_write_bytes drv (Some tmp) d block bytes buf dev offset = mk_access d' buf 0 0 /\
    ready d' /\ size d' = size d /\
    bytes_at (image d') (block * BLOCK_SIZE + offset) (Z.to_nat bytes) = bytes_at buf 0 (Z.to_nat bytes) /\
    changes_only (image d) (image d') (block * BLOCK_SIZE + offset) (block * BLOCK_SIZE + offset + bytes).
Proof.
  intros Hd Hr ????; destruct (write_bytes_ok drv ops dev Hd tmp d block bytes buf offset) as (d' & E & Hr' & Hs & Him); auto.
  exists d'; split_and!; auto; [|intros x Hx; rewrite Him, blit_out; auto; lia].
  unfold bytes_at; apply list_fmap_ext; intros i j [-> Hi]%lookup_seq; rewrite Him, blit_in by lia; f_equal; lia.
Qed.

Lemma bc_write_bytes_correct_witness :
  exists d', bc_write_bytes demo_drivers (Some (fun _ => 0)) demo_disk 0 1500 (fun x => x) 256 1124 = mk_access d' (fun x => x) 0 0 /\
    bytes_at (ramdisk_image d') 1124 1500 = bytes_at (fun x => x) 0 1500.
Proof.
  destruct (bc_write_bytes_correct demo_drivers ramdisk_ops 256 (fun _ => 0) demo_disk 0 1500 (fun x => x) 1124)
    as (d' & E & _ & _ & H & _); [reflexivity|exact demo_ready|lia|lia|lia|vm_compute; congruence|].
  exists d'; split; [exact E|exact H].
Defined.

(** The RAM disk checks only the upper end of an access: block -1 wraps around to the
    memory before the disk, which is read as if it were part of it. *)
Theorem ramdisk_reads_below :
  (let '(_, buf, rc) := ramdisk_read demo_disk 0 1 (-1) (fun _ => 0) 0 in (rc, bytes_at buf 0 4)) =
  (1024, bytes_at (ram demo_disk) (8192 - 1024) 4).
Proof. vm_compute; reflexivity. Qed.

(** When a partial block cannot be read, [bc_write_bytes] fails with [EIO] but does not
    release its temporary buffer. *)
Theorem bc_write_bytes_leaks {D : Type} (drv : drivers D) (d : D) tmp block bytes buf dev offset :
  dm_get_blk_dev_ops drv (MAJOR dev) = None -> offset mod BLOCK_SIZE <> 0 ->
  bc_write_bytes drv (Some tmp) d block bytes buf dev offset = mk_access d buf EIO 1.
Proof.
  intros Hno Hoff; unfold bc_write_bytes.
  assert (E : forall b, bc_read drv d dev 1 b tmp 0 = (d, tmp, - EIO)) by (intros; unfold bc_read; by rewrite Hno).
  assert (E' : (if BLOCK_SIZE <=? offset then (u32 (block + offset / BLOCK_SIZE), offset mod BLOCK_SIZE) else (block, offset)).2
    mod BLOCK_SIZE <> 0) by (case_match; cbn [snd]; [by rewrite Z.mod_mod|done]).
  destruct (if BLOCK_SIZE <=? offset then _ else _) as [b o]; cbn [snd] in E'; tests; by rewrite E.
Qed.

Lemma bc_write_bytes_leaks_witness :
  bc_write_bytes (D := ramdisk) (fun _ => DRIVER_NONE) (Some (fun _ => 0)) demo_disk 0 10 (fun _ => 1) 256 5 =
  mk_access demo_disk (fun _ => 1) EIO 1.
Proof. apply (bc_write_bytes_leaks (fun _ => DRIVER_NONE) demo_disk); [reflexivity|vm_compute; congruence]. Defined.


End BlockDevProofs.
