(* ===== verification/Pipe.v ===== *)
(** * Pipes ([kernel/fs_pipe.c])

    A pipe is a circular buffer of [PIPE_BUF] bytes with reference counts for its
    readers and writers. Reads and writes are loops around a monitor; one pass
    through the monitor is modelled as a function on the pipe, and the loop
    around it gets what other threads do meanwhile from an environment. *)

From S2P Require Import Prelude Memory Errors.

Module Pipe.

Definition PIPE_BUF : Z := 1024.
Definition PIPE_READ : Z := 0.
Definition PIPE_WRITE : Z := 1.

(** [pipe_t] without its lock. The condition variables are represented by the
    number of broadcasts they have received. [buffer] maps offsets from the start
    of the array to bytes; the array ends at [PIPE_BUF], and so does the structure. *)
Record pipe_t := mk_pipe {
  readers : Z;
  writers : Z;
  written : nat;
  read : nat;
  head : Z;
  tail : Z;
  buffer : mem;
}.

(** ** Creation and reference counts *)

(** [fs_pipe_create]; [alloc] tells whether [kmalloc] succeeds, and [fresh] is
    what the memory it returns contains. *)
Definition fs_pipe_create (alloc : bool) (fresh : mem) : option pipe_t :=
  if alloc then Some (mk_pipe 0 0 0 0 0 0 fresh) else None.

(** The null pointer is [None]; a null pipe leaves nothing to update. *)
Definition fs_pipe_connect (pipe : option pipe_t) (mode : Z) : option pipe_t * Z :=
  if negb (mode =? PIPE_READ) && negb (mode =? PIPE_WRITE) then (pipe, EINVAL)
  else
    match pipe with
    | None => (None, EINVAL)
    | Some p =>
        if mode =? PIPE_READ
        then (Some (mk_pipe (u32 (readers p + 1)) (writers p) (written p) (read p) (head p) (tail p) (buffer p)), 0)
        else (Some (mk_pipe (readers p) (u32 (writers p + 1)) (written p) (read p) (head p) (tail p) (buffer p)), 0)
    end.

Definition fs_pipe_disconnect (pipe : option pipe_t) (mode : Z) : option pipe_t * Z :=
  if negb (mode =? PIPE_READ) && negb (mode =? PIPE_WRITE) then (pipe, EINVAL)
  else
    match pipe with
    | None => (None, EINVAL)
    | Some p =>
        let p :=
          if mode =? PIPE_READ then
            let r := if negb (readers p =? 0) then readers p - 1 else readers p in
            mk_pipe r (writers p) (written p) (if r =? 0 then S (read p) else read p) (head p) (tail p) (buffer p)
          else
            let w := if negb (writers p =? 0) then writers p - 1 else writers p in
            mk_pipe (readers p) w (if w =? 0 then S (written p) else written p) (read p) (head p) (tail p) (buffer p) in
        (Some p, if 0 <? u32 (writers p + readers p) then 0 else -1)
    end.

(** ** Writing *)

(** How one pass through the monitor ends: with a return of the function, with
    another round, or blocked on a condition variable. *)
Inductive outcome (S : Type) := Return (rc : Z) | Again (s : S) | Wait (s : S).
Arguments Return {S} rc.
Arguments Again {S} s.
Arguments Wait {S} s.

(** The body of the [while] loop of [fs_pipe_write], with the locals
    [bytes_left] and [bytes_written]. *)
Definition write_round (p : pipe_t) (bytes : Z) (src : mem) (nowait : Z) (locals : Z * Z) :
    pipe_t * outcome (Z * Z) :=
  let '(bytes_left, bytes_written) := locals in
  if readers p =? 0 then (p, Return (if bytes_written =? 0 then - EPIPE else s32 bytes_written))
  else
    let elements_in_buffer := u32 (tail p - head p) in
    let free_slots := u32 (PIPE_BUF - elements_in_buffer) in
    if ((PIPE_BUF <? bytes) && (0 <? free_slots)) || (bytes <=? free_slots) then
      let bytes_to_write := Z.min free_slots bytes in
      let buf := blit (buffer p) (tail p mod PIPE_BUF) src bytes_written bytes_to_write in
      (mk_pipe (readers p) (writers p) (S (written p)) (read p) (head p) (u32 (tail p + bytes_to_write)) buf,
       Again (u32 (bytes_left - bytes_to_write), u32 (bytes_written + bytes_to_write)))
    else if negb (nowait =? 0) then
      (p, Return (if negb (bytes_written =? 0) then s32 bytes_written else - EAGAIN))
    else (p, Wait (bytes_left, bytes_written)).

(** What the rest of the system does while the lock is released: before round [i]
    it changes the pipe, and while waiting it may also interrupt the thread. *)
Record environment := { between : nat -> pipe_t -> pipe_t; interrupted : nat -> bool }.

Fixpoint write_loop (fuel : nat) (env : environment) (i : nat) (p : pipe_t) (bytes : Z) (src : mem)
    (nowait : Z) (locals : Z * Z) : option (pipe_t * Z) :=
  match fuel with
  | O => None
  | S fuel =>
      if 0 <? fst locals then
        match write_round (between env i p) bytes src nowait locals with
        | (p, Return rc) => Some (p, rc)
        | (p, Again locals) => write_loop fuel env (S i) p bytes src nowait locals
        | (p, Wait locals) =>
            if interrupted env i
            then Some (p, if snd locals =? 0 then - EPAUSE else s32 (snd locals))
            else write_loop fuel env (S i) p bytes src nowait locals
        end
      else Some (p, s32 (snd locals))
  end.

(** [src = None] is a null buffer. *)
Definition fs_pipe_write (fuel : nat) (env : environment) (p : option pipe_t) (bytes : Z)
    (src : option mem) (nowait : Z) : option (option pipe_t * Z) :=
  match p, src with
  | Some q, Some b =>
      if bytes =? 0 then Some (p, 0)
      else '(q, rc) ← write_loop fuel env 0 q bytes b nowait (bytes, 0); Some (Some q, rc)
  | _, _ => Some (p, 0)
  end.

(** ** Reading *)

(** The body of the [while] loop of [fs_pipe_read]: the locals are [bytes_read]
    and the caller's buffer. *)
Definition read_round (p : pipe_t) (bytes : Z) (nowait : Z) (locals : Z * mem) :
    pipe_t * outcome (Z * mem) :=
  let '(bytes_read, dst) := locals in
  let elements_in_buffer := u32 (tail p - head p) in
  if negb (elements_in_buffer =? 0) then
    let bytes_to_read := Z.min elements_in_buffer bytes in
    let dst := blit dst bytes_read (buffer p) (head p mod PIPE_BUF) bytes_to_read in
    (mk_pipe (readers p) (writers p) (written p) (S (read p)) (u32 (head p + bytes_to_read)) (tail p) (buffer p),
     Again (u32 (bytes_read + bytes_to_read), dst))
  else if writers p =? 0 then (p, Return 0)
  else if nowait =? 1 then (p, Return (- EAGAIN))
  else (p, Wait (bytes_read, dst)).

Fixpoint read_loop (fuel : nat) (env : environment) (i : nat) (p : pipe_t) (bytes nowait : Z)
    (locals : Z * mem) : option (pipe_t * mem * Z) :=
  match fuel with
  | O => None
  | S fuel =>
      if fst locals =? 0 then
        match read_round (between env i p) bytes nowait locals with
        | (p, Return rc) => Some (p, snd locals, rc)
        | (p, Again locals) => read_loop fuel env (S i) p bytes nowait locals
        | (p, Wait locals) =>
            if interrupted env i
            then Some (p, snd locals, if fst locals =? 0 then - EPAUSE else s32 (fst locals))
            else read_loop fuel env (S i) p bytes nowait locals
        end
      else Some (p, snd locals, s32 (fst locals))
  end.

Definition fs_pipe_read (fuel : nat) (env : environment) (p : option pipe_t) (bytes : Z)
    (dst : option mem) (nowait : Z) : option (option pipe_t * option mem * Z) :=
  match p, dst with
  | Some q, Some b =>
      if bytes =? 0 then Some (p, dst, 0)
      else '(q, b, rc) ← read_loop fuel env 0 q bytes nowait (0, b); Some (Some q, Some b, rc)
  | _, _ => Some (p, dst, 0)
  end.

End Pipe.
