(* ===== verification/PipeProofs.v ===== *)
(** * Pipes: the byte queue they implement, and where they fail to

    The contents of a pipe are the bytes between [head] and [tail]. Rounds that do
    not cross the end of the array act on them like a queue; the proofs cover
    interleavings of any number of threads that exchange records of a size that
    divides [PIPE_BUF], and single calls. *)

From S2P Require Import Prelude Memory Errors Pipe.

Module PipeProofs.
Import Pipe.

(** Number of bytes in the pipe, and the bytes, oldest first. *)
Definition fill (p : pipe_t) : Z := u32 (tail p - head p).
Definition contents (p : pipe_t) : list Z :=
  (fun i => buffer p ((head p + Z.of_nat i) mod PIPE_BUF)) <$> seq 0 (Z.to_nat (fill p)).

(** Head and tail are 32-bit counters at most [PIPE_BUF] apart. *)
Definition pipe_ok (p : pipe_t) : Prop :=
  0 <= head p < 2 ^ 32 /\ 0 <= tail p < 2 ^ 32 /\ fill p <= PIPE_BUF.

(** ** Counters modulo the buffer size *)

Lemma mod_u32 x : u32 x mod PIPE_BUF = x mod PIPE_BUF.
Proof.
  apply Z.mod_mod_divide; by exists (2 ^ 22).
Qed.

Lemma fill_range p : 0 <= fill p < 2 ^ 32.
Proof. apply u32_range. Qed.

Lemma tail_mod p : (head p + fill p) mod PIPE_BUF = tail p mod PIPE_BUF.
Proof.
  unfold fill; rewrite <- (Zplus_mod_idemp_r (u32 _)), mod_u32, Zplus_mod_idemp_r; f_equal; lia.
Qed.

Lemma tail_offset p d : (head p + (fill p + d)) mod PIPE_BUF = (tail p + d) mod PIPE_BUF.
Proof. by rewrite Z.add_assoc, <- Zplus_mod_idemp_l, tail_mod, Zplus_mod_idemp_l. Qed.

Lemma fill_advance a b n : 0 <= u32 (a - b) + n < 2 ^ 32 -> u32 (u32 (a + n) - b) = u32 (a - b) + n.
Proof. unfold u32; intros; Z.div_mod_to_equations; lia. Qed.

Lemma length_contents p : length (contents p) = Z.to_nat (fill p).
Proof. unfold contents; by rewrite length_fmap, length_seq. Qed.

Lemma lookup_contents p i :
  (i < Z.to_nat (fill p))%nat -> contents p !! i = Some (buffer p ((head p + Z.of_nat i) mod PIPE_BUF)).
Proof. intros; unfold contents; by rewrite list_lookup_fmap, (lookup_seq_lt 0 _ i). Qed.

(** Offsets of a run that does not cross the end of the array. *)
Lemma offset_nowrap a i : 0 <= i -> a mod PIPE_BUF + i < PIPE_BUF -> (a + i) mod PIPE_BUF = a mod PIPE_BUF + i.
Proof. unfold PIPE_BUF; intros; Z.div_mod_to_equations; lia. Qed.

(** Slots in use differ from the slots of the next [n <= free] bytes. *)
Lemma offset_apart h e i j : 0 <= i < e -> e <= j < PIPE_BUF -> (h + i) mod PIPE_BUF <> (h + j) mod PIPE_BUF.
Proof. unfold PIPE_BUF; intros; Z.div_mod_to_equations; lia. Qed.

(** ** One round *)

(** The pipe after [n] bytes of [src] were put at its tail. *)
Definition put (p : pipe_t) (n : Z) (src : mem) (from : Z) : pipe_t :=
  mk_pipe (readers p) (writers p) (S (written p)) (read p) (head p) (u32 (tail p + n))
    (blit (buffer p) (tail p mod PIPE_BUF) src from n).

(** The pipe after [n] bytes were taken at its head. *)
Definition get (p : pipe_t) (n : Z) : pipe_t :=
  mk_pipe (readers p) (writers p) (written p) (S (read p)) (u32 (head p + n)) (tail p) (buffer p).

Lemma fill_put p n src from : pipe_ok p -> 0 <= n <= PIPE_BUF - fill p -> fill (put p n src from) = fill p + n.
Proof.
  intros _ Hn; unfold fill, put in *; cbn in *; apply fill_advance.
  pose proof (u32_range (tail p - head p)); unfold PIPE_BUF in *; lia.
Qed.

Lemma put_ok p n src from : pipe_ok p -> 0 <= n <= PIPE_BUF - fill p -> pipe_ok (put p n src from).
Proof.
  intros Hp Hn; split; [apply Hp|split; [apply u32_range|rewrite fill_put by auto; lia]].
Qed.

Lemma put_contents p n src from :
  pipe_ok p -> 0 <= n <= PIPE_BUF - fill p -> tail p mod PIPE_BUF + n <= PIPE_BUF ->
  contents (put p n src from) = contents p ++ bytes_at src from (Z.to_nat n).
Proof.
  intros Hp Hn Hw; pose proof (fill_range p); apply list_eq; intros i.
  destruct (decide (i < Z.to_nat (fill p + n))%nat) as [Hi|Hi].
  2: { rewrite !lookup_ge_None_2; auto; rewrite ?length_app, ?length_contents, ?length_bytes_at, ?fill_put by auto; lia. }
  rewrite lookup_contents by (rewrite fill_put by auto; lia); cbn [head put buffer].
  destruct (decide (i < Z.to_nat (fill p))%nat) as [Hlt|Hge].
  - rewrite lookup_app_l, lookup_contents by (rewrite ?length_contents; auto); rewrite blit_out; [done|].
    intros Hin; apply (offset_apart (head p) (fill p) (Z.of_nat i)
      (fill p + ((head p + Z.of_nat i) mod PIPE_BUF - tail p mod PIPE_BUF))); [lia|lia|].
    pose proof (Z.mod_pos_bound (head p + Z.of_nat i) PIPE_BUF eq_refl).
    rewrite tail_offset, (offset_nowrap (tail p)) by lia; lia.
  - rewrite lookup_app_r, length_contents by (rewrite length_contents; lia).
    rewrite lookup_bytes_at by lia; f_equal.
    replace (head p + Z.of_nat i) with (head p + (fill p + (Z.of_nat i - fill p))) by lia.
    rewrite tail_offset, offset_nowrap by lia.
    rewrite blit_in by lia; f_equal; lia.
Qed.

Lemma fill_get p n : 0 <= n <= fill p -> fill (get p n) = fill p - n.
Proof. unfold fill, get, u32; cbn; intros; Z.div_mod_to_equations; lia. Qed.

Lemma get_ok p n : pipe_ok p -> 0 <= n <= fill p -> pipe_ok (get p n).
Proof. intros Hp Hn; split; [apply u32_range|split; [apply Hp|rewrite fill_get by auto; destruct Hp; lia]]. Qed.

Lemma get_contents p n dst to :
  pipe_ok p -> 0 <= n <= fill p -> head p mod PIPE_BUF + n <= PIPE_BUF ->
  contents p = bytes_at (blit dst to (buffer p) (head p mod PIPE_BUF) n) to (Z.to_nat n) ++ contents (get p n).
Proof.
  intros Hp Hn Hw; pose proof (fill_range p); apply list_eq; intros i.
  destruct (decide (i < Z.to_nat (fill p))%nat) as [Hi|Hi].
  2: { rewrite !lookup_ge_None_2; auto; rewrite ?length_app, ?length_contents, ?length_bytes_at, ?fill_get by auto; lia. }
  rewrite lookup_contents by auto.
  destruct (decide (i < Z.to_nat n)%nat) as [Hlt|Hge].
  - rewrite lookup_app_l, lookup_bytes_at by (rewrite ?length_bytes_at; lia).
    rewrite blit_in, offset_nowrap by lia; do 2 f_equal; lia.
  - rewrite lookup_app_r, length_bytes_at by (rewrite length_bytes_at; lia).
    rewrite lookup_contents by (rewrite fill_get by auto; lia); cbn [head get buffer].
    do 2 f_equal; rewrite <- (Zplus_mod_idemp_l (u32 _)), mod_u32, Zplus_mod_idemp_l; f_equal; lia.
Qed.

(** ** Rounds of requests that fit the pipe *)

Lemma free_slots p : pipe_ok p -> u32 (PIPE_BUF - u32 (tail p - head p)) = PIPE_BUF - fill p.
Proof. intros (_ & _ & H); unfold fill, PIPE_BUF in *; pose proof (u32_range (tail p - head p)); by word. Qed.

(** A round that writes a request of at most [PIPE_BUF] bytes writes it as a whole. *)
Lemma write_round_fits p bytes src nowait :
  pipe_ok p -> 0 < bytes <= PIPE_BUF ->
  write_round p bytes src nowait (bytes, 0) =
    if readers p =? 0 then (p, Return (- EPIPE))
    else if bytes <=? PIPE_BUF - fill p then (put p bytes src 0, Again (0, bytes))
    else if negb (nowait =? 0) then (p, Return (- EAGAIN)) else (p, Wait (bytes, 0)).
Proof.
  intros Hp Hb; unfold write_round; destruct (readers p =? 0); [done|].
  rewrite free_slots by auto; replace (PIPE_BUF <? bytes) with false by (symmetry; apply Z.ltb_ge; lia).
  cbn [andb orb]; destruct (Z.leb_spec bytes (PIPE_BUF - fill p)); [|done].
  rewrite Z.min_r by lia; unfold put; unfold PIPE_BUF in *; rewrite Z.sub_diag; by word.
Qed.

Lemma read_round_data p bytes nowait dst :
  pipe_ok p -> 0 < bytes < 2 ^ 32 -> fill p <> 0 ->
  read_round p bytes nowait (0, dst) =
    (get p (Z.min (fill p) bytes),
     Again (Z.min (fill p) bytes, blit dst 0 (buffer p) (head p mod PIPE_BUF) (Z.min (fill p) bytes))).
Proof.
  intros (_ & _ & Hp) Hb Hf; unfold read_round; fold (fill p); pose proof (fill_range p).
  test_false; cbn [negb]; by word.
Qed.

(** ** Interleavings *)

(** What the threads using a pipe do to it when each of them transfers records
    of [k] bytes: rounds of writers and readers that transfer data, in any
    order, and files connecting and disconnecting. [run k p ws rs q]: from [p] to
    [q], with [ws] written and [rs] read on the way. *)
Inductive run (k : Z) (p : pipe_t) : list Z -> list Z -> pipe_t -> Prop :=
  | run_start : run k p [] [] p
  | run_write ws rs q src nowait q' locals :
      run k p ws rs q -> write_round q k src nowait (k, 0) = (q', Again locals) ->
      run k p (ws ++ bytes_at src 0 (Z.to_nat k)) rs q'
  | run_read ws rs q nowait dst q' n dst' :
      run k p ws rs q -> read_round q k nowait (0, dst) = (q', Again (n, dst')) ->
      run k p ws (rs ++ bytes_at dst' 0 (Z.to_nat n)) q'
  | run_connect ws rs q mode q' rc :
      run k p ws rs q -> fs_pipe_connect (Some q) mode = (Some q', rc) -> run k p ws rs q'
  | run_disconnect ws rs q mode q' rc :
      run k p ws rs q -> fs_pipe_disconnect (Some q) mode = (Some q', rc) -> run k p ws rs q'.

(** Pipes that agree on everything but the reference counts and broadcasts. *)
Definition same_data (p q : pipe_t) : Prop := head q = head p /\ tail q = tail p /\ buffer q = buffer p.

Lemma connect_data p mode q rc : fs_pipe_connect (Some p) mode = (Some q, rc) -> same_data p q.
Proof. unfold fs_pipe_connect; repeat case_test; cbn; intros; simplify_eq; done. Qed.

Lemma disconnect_data p mode q rc : fs_pipe_disconnect (Some p) mode = (Some q, rc) -> same_data p q.
Proof. unfold fs_pipe_disconnect; intros H; repeat (case_match; simplify_eq); done. Qed.

(** A pipe whose counters are at record boundaries. *)
Definition aligned (k : Z) (p : pipe_t) : Prop := pipe_ok p /\ (k | head p) /\ (k | tail p).

Lemma same_data_aligned k p q : same_data p q -> aligned k p -> aligned k q /\ contents q = contents p.
Proof.
  intros (Hh & Ht & Hb); unfold aligned, pipe_ok, contents, fill; rewrite Hh, Ht, Hb; auto.
Qed.

Lemma divide_u32 k x : (k | PIPE_BUF) -> (k | x) -> (k | u32 x).
Proof.
  intros Hk Hx; unfold u32; rewrite Z.mod_eq by lia; apply Z.divide_sub_r; auto.
  apply Z.divide_mul_l; trans PIPE_BUF; auto; by exists (2 ^ 22).
Qed.

(** At a record boundary a record does not cross the end of the array. *)
Lemma record_nowrap k x : 0 < k -> (k | PIPE_BUF) -> (k | x) -> x mod PIPE_BUF + k <= PIPE_BUF.
Proof.
  intros Hk HB Hx; assert (Hm : (k | x mod PIPE_BUF)).
  { rewrite Z.mod_eq by done; by apply Z.divide_sub_r; [|apply Z.divide_mul_l]. }
  pose proof (Z.mod_pos_bound x PIPE_BUF eq_refl) as [_ Hlt].
  destruct HB as [b HB], Hm as [c Hc]; rewrite Hc, HB in Hlt |- *.
  apply Z.mul_lt_mono_pos_r in Hlt; [nia|done].
Qed.

Lemma fill_divide k p : (k | PIPE_BUF) -> aligned k p -> (k | fill p).
Proof. intros HB (_ & Hh & Ht); by apply divide_u32; [|apply Z.divide_sub_r]. Qed.

Lemma record_write k p src nowait q locals :
  0 < k -> (k | PIPE_BUF) -> aligned k p -> write_round p k src nowait (k, 0) = (q, Again locals) ->
  aligned k q /\ contents q = contents p ++ bytes_at src 0 (Z.to_nat k).
Proof.
  intros Hk HB (Hp & Hh & Ht); assert (k <= PIPE_BUF) by (by apply Z.divide_pos_le).
  rewrite write_round_fits by auto.
  destruct (readers p =? 0); [done|]; destruct (Z.leb_spec k (PIPE_BUF - fill p)); [|by case_match].
  intros [= <- <-]; split.
  - split; [apply put_ok; auto; lia|split; [done|]].
    apply divide_u32; auto; by apply Z.divide_add_r.
  - apply put_contents; auto; [lia|by apply record_nowrap].
Qed.

Lemma record_read k p nowait dst q n dst' :
  0 < k -> (k | PIPE_BUF) -> aligned k p -> read_round p k nowait (0, dst) = (q, Again (n, dst')) ->
  aligned k q /\ contents p = bytes_at dst' 0 (Z.to_nat n) ++ contents q.
Proof.
  intros Hk HB Ha; assert (k <= PIPE_BUF) by (by apply Z.divide_pos_le).
  pose proof (fill_divide k p HB Ha) as Hfd; destruct Ha as (Hp & Hh & Ht).
  destruct (decide (fill p = 0)) as [Hf|Hf].
  { unfold read_round; fold (fill p); rewrite Hf; cbn; repeat case_match; done. }
  rewrite read_round_data by (auto; unfold PIPE_BUF in *; lia).
  pose proof (fill_range p); assert (k <= fill p) by (apply Z.divide_pos_le; auto; lia).
  rewrite Z.min_r by lia; intros [= <- <- <-]; split.
  - split; [apply get_ok; auto; lia|split; [|done]].
    apply divide_u32; auto; by apply Z.divide_add_r; [|apply Z.divide_refl].
  - apply get_contents; auto; [lia|by apply record_nowrap].
Qed.

Lemma run_fifo k p ws rs q :
  0 < k -> (k | PIPE_BUF) -> aligned k p -> contents p = [] ->
  run k p ws rs q -> aligned k q /\ ws = rs ++ contents q.
Proof.
  intros Hk HB Hp Hc; induction 1 as [|ws rs q src nowait q' locals _ [Ha IH] H|ws rs q nowait dst q' n dst' _ [Ha IH] H
    |ws rs q mode q' rc _ [Ha IH] H|ws rs q mode q' rc _ [Ha IH] H].
  - by rewrite Hc.
  - apply record_write in H as [? ->]; auto; by rewrite IH, app_assoc.
  - apply record_read in H as [? H]; auto; by rewrite IH, H, app_assoc.
  - apply connect_data in H; by destruct (same_data_aligned k _ _ H Ha) as [? ->].
  - apply disconnect_data in H; by destruct (same_data_aligned k _ _ H Ha) as [? ->].
Qed.


(** ** Whole calls *)

(** The pipe a waiting thread finds in round [i], when it has changed nothing before. *)
Fixpoint pipe_at (env : environment) (i : nat) (p : pipe_t) : pipe_t :=
  match i with
  | O => between env 0 p
  | S j => between env i (pipe_at env j p)
  end.

(** [p] has no room for [bytes] bytes and a reader. *)
Definition full (bytes : Z) (p : pipe_t) : Prop := pipe_ok p /\ readers p <> 0 /\ PIPE_BUF - fill p < bytes.

Lemma write_loop_waits env bytes src n p fuel i p0 :
  0 < bytes <= PIPE_BUF ->
  (forall j, (i <= j < i + n)%nat -> full bytes (pipe_at env j p0) /\ interrupted env j = false) ->
  between env i p = pipe_at env i p0 ->
  exists q, between env (i + n) q = pipe_at env (i + n) p0 /\
    write_loop (n + fuel) env i p bytes src 0 (bytes, 0) = write_loop fuel env (i + n) q bytes src 0 (bytes, 0).
Proof.
  intros Hb; revert i p; induction n as [|n IH]; intros i p Hfull Hp.
  { exists p; by rewrite Nat.add_0_r. }
  destruct (Hfull i) as [(Hok & Hr & Hf) Hint]; [lia|]; cbn [Nat.add write_loop fst].
  test_true; rewrite Hp, write_round_fits by auto; tests; rewrite Hint.
  destruct (IH (S i) (pipe_at env i p0)) as (q & Hq & He); [intros; apply Hfull; lia|done|].
  exists q; by rewrite Nat.add_succ_r.
Qed.

(** The environment in which nothing else runs. *)
Definition idle : environment := {| between := fun _ p => p; interrupted := fun _ => false |}.

(** The environment of the threads that share a pipe with a writer of 1500
    bytes: a reader empties the pipe after the first round and all readers are
    gone two rounds later. *)
Definition draining : environment :=
  {| between := fun i p =>
       match i with
       | 1%nat => get p (fill p)
       | 2%nat => default p (fst (fs_pipe_disconnect (Some p) PIPE_READ))
       | _ => p
       end;
     interrupted := fun _ => false |}.

(** A pipe with one reader and one writer. *)
Definition opened (p : pipe_t) : pipe_t :=
  mk_pipe 1 1 (written p) (read p) (head p) (tail p) (buffer p).

(** ** Properties *)

(** C34. Whatever the interleaving of writers and readers that exchange records of
    [k] bytes, where [k] divides the buffer size, the bytes written so far are the
    bytes read so far followed by the contents of the pipe: a pipe is a queue. *)
Theorem pipe_fifo k fresh p ws rs q :
  0 < k -> (k | PIPE_BUF) -> fs_pipe_create true fresh = Some p -> run k p ws rs q ->
  ws = rs ++ contents q /\ fill q <= PIPE_BUF.
Proof.
  intros Hk HB [= <-] Hrun.
  eapply run_fifo in Hrun as [(Hok & _) ->]; auto; [split; auto; apply Hok|].
  split; [done|split; apply Z.divide_0_r].
Qed.

Lemma pipe_fifo_witness :
  exists p q, fs_pipe_create true (fun _ => 0) = Some p /\
    run 4 p ([] ++ bytes_at (fun i => i + 7) 0 4) [] q /\ [7; 8; 9; 10] = [] ++ contents q.
Proof.
  set (p := mk_pipe 0 0 0 0 0 0 (fun _ => 0)).
  set (q := fst (write_round (opened p) 4 (fun i => i + 7) 0 (4, 0))).
  assert (Hrun : run 4 p ([] ++ bytes_at (fun i => i + 7) 0 (Z.to_nat 4)) [] q).
  { eapply (run_write 4 p [] [] (opened p) _ 0); [|reflexivity].
    eapply (run_connect 4 p [] [] (mk_pipe 1 0 0 0 0 0 (fun _ => 0)) PIPE_WRITE); [|reflexivity].
    eapply (run_connect 4 p [] [] p PIPE_READ); [|reflexivity]; constructor. }
  exists p, q; split; [done|split; [exact Hrun|]].
  apply (pipe_fifo 4 (fun _ => 0) p _ [] q); [lia|by exists 256|done|exact Hrun].
Defined.

(** A blocking write of at most [PIPE_BUF] bytes waits, without touching the
    pipe, while there is no room for all of them; in the first round that has room
    it puts them all at once and returns their number. *)
Theorem write_blocking env p bytes src n :
  0 < bytes <= PIPE_BUF ->
  (forall j, (j < n)%nat -> full bytes (pipe_at env j p) /\ interrupted env j = false) ->
  pipe_ok (pipe_at env n p) -> readers (pipe_at env n p) <> 0 -> bytes <= PIPE_BUF - fill (pipe_at env n p) ->
  fs_pipe_write (n + 2) env (Some p) bytes (Some src) 0 = Some (Some (put (pipe_at env n p) bytes src 0), bytes).
Proof.
  intros Hb Hwait Hok Hr Hf; unfold fs_pipe_write; test_false.
  destruct (write_loop_waits env bytes src n p 2 0 p) as (q & Hq & ->); auto; [intros; apply Hwait; lia|].
  cbn [Nat.add] in *; cbn [write_loop fst]; test_true; rewrite Hq, write_round_fits by auto; tests.
  unfold PIPE_BUF in Hb; cbn -[s32]; by word.
Qed.

(** The environment in which a pipe with 1024 bytes is emptied before round 1. *)
Definition emptying : environment :=
  {| between := fun i p => if (i =? 1)%nat then get p (fill p) else p; interrupted := fun _ => false |}.

Lemma write_blocking_witness :
  fs_pipe_write 3 emptying (Some (mk_pipe 1 1 0 0 0 1024 (fun _ => 0))) 5 (Some (fun i => i)) 0 =
  Some (Some (put (mk_pipe 1 1 0 1 1024 1024 (fun _ => 0)) 5 (fun i => i) 0), 5).
Proof.
  apply (write_blocking emptying (mk_pipe 1 1 0 0 0 1024 (fun _ => 0)) 5 (fun i => i) 1).
  - split; vm_compute; congruence.
  - intros [|j] Hj; [|lia]; split; [|done]; repeat split; vm_compute; congruence.
  - repeat split; vm_compute; congruence.
  - vm_compute; congruence.
  - vm_compute; congruence.
Defined.

(** A non-blocking write of at most [PIPE_BUF] bytes is all or nothing: it
    fails with [EPIPE] without readers and with [EAGAIN] without room, and else the
    contents of the pipe grow by the whole buffer, if that does not cross the end
    of the array. *)
Theorem write_nowait p bytes src nowait :
  pipe_ok p -> 0 < bytes <= PIPE_BUF -> nowait <> 0 -> tail p mod PIPE_BUF + bytes <= PIPE_BUF ->
  exists q rc, fs_pipe_write 2 idle (Some p) bytes (Some src) nowait = Some (Some q, rc) /\
    ((readers p = 0 /\ rc = - EPIPE /\ q = p) \/
     (readers p <> 0 /\ PIPE_BUF - fill p < bytes /\ rc = - EAGAIN /\ q = p) \/
     (readers p <> 0 /\ rc = bytes /\ contents q = contents p ++ bytes_at src 0 (Z.to_nat bytes))).
Proof.
  intros Hp Hb Hn Hw; unfold fs_pipe_write; test_false.
  cbn [write_loop fst between idle]; test_true; rewrite write_round_fits by auto.
  destruct (Z.eqb_spec (readers p) 0); [by eexists _, _; split; [|left]|].
  destruct (Z.leb_spec bytes (PIPE_BUF - fill p)).
  - eexists _, _; split; [reflexivity|right; right].
    split_and!; [done|unfold PIPE_BUF in Hb; cbn -[s32]; by word|apply put_contents; auto; lia].
  - test_false; by eexists _, _; split; [|right; left].
Qed.

Lemma write_nowait_witness :
  exists q rc, fs_pipe_write 2 idle (Some (mk_pipe 1 1 0 0 3 5 (fun i => i))) 5 (Some (fun i => i + 40)) 1 = Some (Some q, rc) /\
    rc = 5 /\ contents q = [3; 4; 40; 41; 42; 43; 44].
Proof.
  destruct (write_nowait (mk_pipe 1 1 0 0 3 5 (fun i => i)) 5 (fun i => i + 40) 1)
    as (q & rc & E & [(H & _)|[(_ & H & _)|(_ & H1 & H2)]]);
    [repeat split; vm_compute; congruence|vm_compute; intuition congruence|done|vm_compute; congruence|done|done|].
  exists q, rc; split; [exact E|split; [exact H1|]].
  rewrite H2; vm_compute; reflexivity.
Defined.

(** A read from a pipe with data returns at once with the oldest bytes, as many
    as are there and fit, and removes exactly these, if they do not cross the end
    of the array; from an empty pipe it returns 0 when all writers are gone. *)
Theorem read_spec p bytes dst nowait :
  pipe_ok p -> 0 < bytes < 2 ^ 31 -> head p mod PIPE_BUF + Z.min (fill p) bytes <= PIPE_BUF ->
  (fill p <> 0 -> exists q d, fs_pipe_read 2 idle (Some p) bytes (Some dst) nowait = Some (Some q, Some d, Z.min (fill p) bytes) /\
     contents p = bytes_at d 0 (Z.to_nat (Z.min (fill p) bytes)) ++ contents q) /\
  (fill p = 0 -> writers p = 0 ->
     fs_pipe_read 2 idle (Some p) bytes (Some dst) nowait = Some (Some p, Some dst, 0)).
Proof.
  intros Hp Hb Hw; pose proof (fill_range p); unfold fs_pipe_read; test_false; split.
  - intros Hf; cbn [read_loop fst between idle Z.eqb].
    rewrite read_round_data by (auto; lia); cbn [fst snd]; test_false.
    eexists _, _; split; [cbn [mbind option_bind]; by word|]; apply get_contents; auto; lia.
  - intros Hf Hwr; cbn [read_loop fst between idle Z.eqb]; unfold read_round; fold (fill p).
    by rewrite Hf, Hwr.
Qed.

Lemma read_spec_witness :
  exists q d, fs_pipe_read 2 idle (Some (mk_pipe 1 1 0 0 3 9 (fun i => i))) 4 (Some (fun _ => 0)) 0 = Some (Some q, Some d, 4) /\
    [3; 4; 5; 6; 7; 8] = bytes_at d 0 4 ++ contents q.
Proof.
  refine (proj1 (read_spec (mk_pipe 1 1 0 0 3 9 (fun i => i)) 4 (fun _ => 0) 0 _ _ _) _);
    [repeat split|split|..]; vm_compute; congruence.
Defined.

(** A session on a new pipe with a reader and a writer: write 600 bytes 9, read
    them, write 424 bytes 1 and 176 bytes 2, read 500 bytes, read 100 bytes. The
    result are the return values, the 176 bytes behind the buffer before and after
    the second write, and the bytes of the last read. *)
Definition wrap_session : option (list Z * list Z * list Z * list Z) :=
  let src i := if i <? 424 then 1 else 2 in
  let p0 := Some (opened (mk_pipe 0 0 0 0 0 0 (fun _ => 0))) in
  let zeros := Some (fun _ => 0) in
  '(p1, rc1) ← fs_pipe_write 2 idle p0 600 (Some (fun _ => 9)) 0;
  '(p2, _, rc2) ← fs_pipe_read 2 idle p1 600 zeros 0;
  '(p3, rc3) ← fs_pipe_write 2 idle p2 600 (Some src) 0;
  '(p4, _, rc4) ← fs_pipe_read 2 idle p3 500 zeros 0;
  '(p5, d5, rc5) ← fs_pipe_read 2 idle p4 100 zeros 0;
  before ← p2; behind ← p3; got ← d5;
  Some ([rc1; rc2; rc3; rc4; rc5], bytes_at (buffer before) PIPE_BUF 176,
        bytes_at (buffer behind) PIPE_BUF 176, bytes_at got 0 100).

(** The copy into the circular buffer does not wrap around: after 600 bytes were
    written and read, writing 600 bytes changes 176 bytes behind the end of the
    array, and reading them back in two parts returns, instead of the last 100
    bytes sent, bytes of the first write that were already read. *)
Theorem pipe_wrap_corrupts :
  wrap_session = Some ([600; 600; 600; 500; 100], repeat 0 176, repeat 2 176, repeat 9 100).
Proof. vm_compute; reflexivity. Qed.

(** A write of more than [PIPE_BUF] bytes does not stop at its end: of a buffer of
    1500 bytes, 2048 bytes are put in the pipe once a reader has emptied it, the
    last 548 of them from behind the caller's buffer. *)
Theorem pipe_write_overruns_source :
  ('(q, rc) ← fs_pipe_write 3 draining (Some (opened (mk_pipe 0 0 0 0 0 0 (fun _ => 0)))) 1500
     (Some (fun i => if i <? 1500 then 1 else 2)) 0;
   p ← q; Some (rc, contents p)) = Some (2048, repeat 1 476 ++ repeat 2 548).
Proof. vm_compute; reflexivity. Qed.

End PipeProofs.
