(* ===== verification/Net.v ===== *)
(** * Network messages and checksums

    [kernel/net.c] passes packets through the network stack as messages: a
    buffer with headroom, the pointers to the used part and to the headers
    inside, and the fields the layers hand to each other.  [lib/std/net.c]
    converts byte orders. *)

From S2P Require Import Prelude Memory.

(** ** Byte order ([lib/std/net.c]) *)

Definition ntohs (netshort : Z) : Z :=
  let result := Z.shiftr netshort 8 in
  u16 (result + Z.shiftl (Z.land netshort 255) 8).

Definition htons (hostshort : Z) : Z := ntohs hostshort.

Definition htonl (hostlong : Z) : Z :=
  let result := htons (u16 (Z.shiftr hostlong 16)) in
  u32 (result + Z.shiftl (htons (u16 (Z.land hostlong 65535))) 16).

Definition ntohl (netlong : Z) : Z := htonl netlong.

(** ** The message ([net_msg_t])

    [data] is the address of the buffer and [bytes] what memory holds there; the
    other pointers are addresses too. *)
Record net_msg_t := mk_net_msg {
  data : Z;
  bytes : mem;
  start : Z;
  end_ : Z;
  buf_length : Z;
  nic : option Z;
  eth_hdr : Z;
  arp_hdr : Z;
  ip_hdr : Z;
  icmp_hdr : Z;
  tcp_hdr : Z;
  udp_hdr : Z;
  hw_dest : list Z;
  ethertype : Z;
  ip_length : Z;
  ip_proto : Z;
  ip_dest : Z;
  ip_src : Z;
  ip_df : Z;
}.

Definition set_data (v : Z) (m : net_msg_t) : net_msg_t :=
  mk_net_msg v (bytes m) (start m) (end_ m) (buf_length m) (nic m) (eth_hdr m) (arp_hdr m) (ip_hdr m) (icmp_hdr
    m) (tcp_hdr m) (udp_hdr m) (hw_dest m) (ethertype m) (ip_length m) (ip_proto m) (ip_dest m) (ip_src m)
    (ip_df m).
Definition set_bytes (v : mem) (m : net_msg_t) : net_msg_t :=
  mk_net_msg (data m) v (start m) (end_ m) (buf_length m) (nic m) (eth_hdr m) (arp_hdr m) (ip_hdr m) (icmp_hdr
    m) (tcp_hdr m) (udp_hdr m) (hw_dest m) (ethertype m) (ip_length m) (ip_proto m) (ip_dest m) (ip_src m)
    (ip_df m).
Definition set_start (v : Z) (m : net_msg_t) : net_msg_t :=
  mk_net_msg (data m) (bytes m) v (end_ m) (buf_length m) (nic m) (eth_hdr m) (arp_hdr m) (ip_hdr m) (icmp_hdr
    m) (tcp_hdr m) (udp_hdr m) (hw_dest m) (ethertype m) (ip_length m) (ip_proto m) (ip_dest m) (ip_src m)
    (ip_df m).
Definition set_end_ (v : Z) (m : net_msg_t) : net_msg_t :=
  mk_net_msg (data m) (bytes m) (start m) v (buf_length m) (nic m) (eth_hdr m) (arp_hdr m) (ip_hdr m) (icmp_hdr
    m) (tcp_hdr m) (udp_hdr m) (hw_dest m) (ethertype m) (ip_length m) (ip_proto m) (ip_dest m) (ip_src m)
    (ip_df m).
Definition set_buf_length (v : Z) (m : net_msg_t) : net_msg_t :=
  mk_net_msg (data m) (bytes m) (start m) (end_ m) v (nic m) (eth_hdr m) (arp_hdr m) (ip_hdr m) (icmp_hdr m)
    (tcp_hdr m) (udp_hdr m) (hw_dest m) (ethertype m) (ip_length m) (ip_proto m) (ip_dest m) (ip_src m)
    (ip_df m).
Definition set_nic (v : option Z) (m : net_msg_t) : net_msg_t :=
  mk_net_msg (data m) (bytes m) (start m) (end_ m) (buf_length m) v (eth_hdr m) (arp_hdr m) (ip_hdr m) (icmp_hdr
    m) (tcp_hdr m) (udp_hdr m) (hw_dest m) (ethertype m) (ip_length m) (ip_proto m) (ip_dest m) (ip_src m)
    (ip_df m).
Definition set_eth_hdr (v : Z) (m : net_msg_t) : net_msg_t :=
  mk_net_msg (data m) (bytes m) (start m) (end_ m) (buf_length m) (nic m) v (arp_hdr m) (ip_hdr m) (icmp_hdr m)
    (tcp_hdr m) (udp_hdr m) (hw_dest m) (ethertype m) (ip_length m) (ip_proto m) (ip_dest m) (ip_src m)
    (ip_df m).
Definition set_arp_hdr (v : Z) (m : net_msg_t) : net_msg_t :=
  mk_net_msg (data m) (bytes m) (start m) (end_ m) (buf_length m) (nic m) (eth_hdr m) v (ip_hdr m) (icmp_hdr m)
    (tcp_hdr m) (udp_hdr m) (hw_dest m) (ethertype m) (ip_length m) (ip_proto m) (ip_dest m) (ip_src m)
    (ip_df m).
Definition set_ip_hdr (v : Z) (m : net_msg_t) : net_msg_t :=
  mk_net_msg (data m) (bytes m) (start m) (end_ m) (buf_length m) (nic m) (eth_hdr m) (arp_hdr m) v (icmp_hdr m)
    (tcp_hdr m) (udp_hdr m) (hw_dest m) (ethertype m) (ip_length m) (ip_proto m) (ip_dest m) (ip_src m)
    (ip_df m).
Definition set_icmp_hdr (v : Z) (m : net_msg_t) : net_msg_t :=
  mk_net_msg (data m) (bytes m) (start m) (end_ m) (buf_length m) (nic m) (eth_hdr m) (arp_hdr m) (ip_hdr m) v
    (tcp_hdr m) (udp_hdr m) (hw_dest m) (ethertype m) (ip_length m) (ip_proto m) (ip_dest m) (ip_src m)
    (ip_df m).
Definition set_tcp_hdr (v : Z) (m : net_msg_t) : net_msg_t :=
  mk_net_msg (data m) (bytes m) (start m) (end_ m) (buf_length m) (nic m) (eth_hdr m) (arp_hdr m) (ip_hdr m)
    (icmp_hdr m) v (udp_hdr m) (hw_dest m) (ethertype m) (ip_length m) (ip_proto m) (ip_dest m) (ip_src m)
    (ip_df m).
Definition set_udp_hdr (v : Z) (m : net_msg_t) : net_msg_t :=
  mk_net_msg (data m) (bytes m) (start m) (end_ m) (buf_length m) (nic m) (eth_hdr m) (arp_hdr m) (ip_hdr m)
    (icmp_hdr m) (tcp_hdr m) v (hw_dest m) (ethertype m) (ip_length m) (ip_proto m) (ip_dest m) (ip_src m)
    (ip_df m).
Definition set_hw_dest (v : list Z) (m : net_msg_t) : net_msg_t :=
  mk_net_msg (data m) (bytes m) (start m) (end_ m) (buf_length m) (nic m) (eth_hdr m) (arp_hdr m) (ip_hdr m)
    (icmp_hdr m) (tcp_hdr m) (udp_hdr m) v (ethertype m) (ip_length m) (ip_proto m) (ip_dest m) (ip_src m)
    (ip_df m).
Definition set_ethertype (v : Z) (m : net_msg_t) : net_msg_t :=
  mk_net_msg (data m) (bytes m) (start m) (end_ m) (buf_length m) (nic m) (eth_hdr m) (arp_hdr m) (ip_hdr m)
    (icmp_hdr m) (tcp_hdr m) (udp_hdr m) (hw_dest m) v (ip_length m) (ip_proto m) (ip_dest m) (ip_src m)
    (ip_df m).
Definition set_ip_length (v : Z) (m : net_msg_t) : net_msg_t :=
  mk_net_msg (data m) (bytes m) (start m) (end_ m) (buf_length m) (nic m) (eth_hdr m) (arp_hdr m) (ip_hdr m)
    (icmp_hdr m) (tcp_hdr m) (udp_hdr m) (hw_dest m) (ethertype m) v (ip_proto m) (ip_dest m) (ip_src m)
    (ip_df m).
Definition set_ip_proto (v : Z) (m : net_msg_t) : net_msg_t :=
  mk_net_msg (data m) (bytes m) (start m) (end_ m) (buf_length m) (nic m) (eth_hdr m) (arp_hdr m) (ip_hdr m)
    (icmp_hdr m) (tcp_hdr m) (udp_hdr m) (hw_dest m) (ethertype m) (ip_length m) v (ip_dest m) (ip_src m)
    (ip_df m).
Definition set_ip_dest (v : Z) (m : net_msg_t) : net_msg_t :=
  mk_net_msg (data m) (bytes m) (start m) (end_ m) (buf_length m) (nic m) (eth_hdr m) (arp_hdr m) (ip_hdr m)
    (icmp_hdr m) (tcp_hdr m) (udp_hdr m) (hw_dest m) (ethertype m) (ip_length m) (ip_proto m) v (ip_src m)
    (ip_df m).
Definition set_ip_src (v : Z) (m : net_msg_t) : net_msg_t :=
  mk_net_msg (data m) (bytes m) (start m) (end_ m) (buf_length m) (nic m) (eth_hdr m) (arp_hdr m) (ip_hdr m)
    (icmp_hdr m) (tcp_hdr m) (udp_hdr m) (hw_dest m) (ethertype m) (ip_length m) (ip_proto m) (ip_dest m) v
    (ip_df m).
Definition set_ip_df (v : Z) (m : net_msg_t) : net_msg_t :=
  mk_net_msg (data m) (bytes m) (start m) (end_ m) (buf_length m) (nic m) (eth_hdr m) (arp_hdr m) (ip_hdr m)
    (icmp_hdr m) (tcp_hdr m) (udp_hdr m) (hw_dest m) (ethertype m) (ip_length m) (ip_proto m) (ip_dest m)
    (ip_src m) v.


Definition NET_MIN_HEADROOM : Z := 128.

(** ** Operations

    [kmalloc] is what the two allocations of a function return: [None] when one
    of them fails, and otherwise the contents the fresh memory happens to have,
    with the address of the fresh buffer in [data]. *)

Definition net_msg_create (kmalloc : option net_msg_t) (size headroom : Z) : option net_msg_t :=
  net_msg ← kmalloc;
  let net_msg := set_start (data net_msg + Z.min headroom size) net_msg in
  let net_msg := set_end_ (start net_msg) net_msg in
  let net_msg := set_nic None net_msg in
  Some (set_buf_length size net_msg).

Definition net_msg_new (kmalloc : option net_msg_t) (size : Z) : option net_msg_t :=
  net_msg ← kmalloc;
  let net_msg := set_start (data net_msg + NET_MIN_HEADROOM) net_msg in
  let net_msg := set_end_ (start net_msg) net_msg in
  let net_msg := set_nic None net_msg in
  Some (set_buf_length (u32 (size + NET_MIN_HEADROOM)) net_msg).

Definition net_msg_get_size (net_msg : net_msg_t) : Z := u32 (end_ net_msg - start net_msg).
Definition net_msg_get_start (net_msg : net_msg_t) : Z := start net_msg.

(** The copy of the structure keeps every field, [udp_hdr] included; the other
    header pointers and the bounds are moved to the new buffer. *)
Definition net_msg_clone (kmalloc : option net_msg_t) (net_msg : net_msg_t) : option net_msg_t :=
  fresh ← kmalloc;
  let to := data fresh in
  let move p := to + (p - data net_msg) in
  let clone := set_data to net_msg in
  let clone := set_start (move (start net_msg)) clone in
  let clone := set_end_ (start clone + net_msg_get_size net_msg) clone in
  let clone := set_arp_hdr (move (arp_hdr net_msg)) clone in
  let clone := set_eth_hdr (move (eth_hdr net_msg)) clone in
  let clone := set_icmp_hdr (move (icmp_hdr net_msg)) clone in
  let clone := set_ip_hdr (move (ip_hdr net_msg)) clone in
  let clone := set_tcp_hdr (move (tcp_hdr net_msg)) clone in
  Some (set_bytes (blit (bytes fresh) to (bytes net_msg) (data net_msg) (buf_length net_msg)) clone).

(** The address of the new space, and the message; [None] for the null pointer. *)
Definition net_msg_append (net_msg : net_msg_t) (size : Z) : option (Z * net_msg_t) :=
  if buf_length net_msg <? size then None
  else if u32 (buf_length net_msg - size) <? u32 (end_ net_msg - data net_msg) then None
  else Some (end_ net_msg, set_end_ (end_ net_msg + size) net_msg).

Definition net_msg_prepend (net_msg : net_msg_t) (size : Z) : option (Z * net_msg_t) :=
  if u32 (start net_msg - data net_msg) <? size then None
  else let net_msg := set_start (start net_msg - size) net_msg in Some (start net_msg, net_msg).

Definition net_msg_cut_off (net_msg : net_msg_t) (offset : Z) : net_msg_t :=
  set_end_ (start net_msg + offset) net_msg.

Definition net_msg_set_eth_hdr (net_msg : net_msg_t) (offset : Z) : net_msg_t :=
  set_eth_hdr (start net_msg + offset) net_msg.
Definition net_msg_set_arp_hdr (net_msg : net_msg_t) (offset : Z) : net_msg_t :=
  set_arp_hdr (eth_hdr net_msg + offset) net_msg.
Definition net_msg_set_ip_hdr (net_msg : net_msg_t) (offset : Z) : net_msg_t :=
  set_ip_hdr (eth_hdr net_msg + offset) net_msg.
Definition net_msg_set_icmp_hdr (net_msg : net_msg_t) (offset : Z) : net_msg_t :=
  set_icmp_hdr (ip_hdr net_msg + offset) net_msg.
Definition net_msg_set_tcp_hdr (net_msg : net_msg_t) (offset : Z) : net_msg_t :=
  set_tcp_hdr (ip_hdr net_msg + offset) net_msg.
Definition net_msg_set_udp_hdr (net_msg : net_msg_t) (offset : Z) : net_msg_t :=
  set_udp_hdr (ip_hdr net_msg + offset) net_msg.

(** The bytes in use. *)
Definition msg_bytes (net_msg : net_msg_t) : list Z :=
  bytes_at (bytes net_msg) (start net_msg) (Z.to_nat (end_ net_msg - start net_msg)).

(** ** Checksum *)

(** [sum = sum + words[i]] for [n] words from address [a] on. *)
Fixpoint sum_words (m : mem) (a : Z) (n : nat) (sum : Z) : Z :=
  match n with
  | O => sum
  | S n => sum_words m (a + 2) n (u32 (sum + load16 m a))
  end.

(** [while (sum >> 16) sum = (sum >> 16) + (sum & 0xFFFF)].  Two rounds leave 16
    bits of a 32-bit sum. *)
Fixpoint add_carry (fuel : nat) (sum : Z) : Z :=
  match fuel with
  | O => sum
  | S fuel => if Z.shiftr sum 16 =? 0 then sum
              else add_carry fuel (u32 (Z.shiftr sum 16 + Z.land sum 65535))
  end.

Definition net_compute_checksum (m : mem) (words byte_count : Z) : Z :=
  let sum := sum_words m words (Z.to_nat (Z.quot byte_count 2)) 0 in
  let sum := if Z.rem byte_count 2 =? 1 then u32 (sum + m (words + (byte_count - 1))) else sum in
  let sum := add_carry 2 sum in
  let rc := u16 sum in
  ntohs (u16 (Z.lnot rc)).
