(* ===== verification/NetProofs.v ===== *)
(** * Correctness of the checksum

    [net_compute_checksum] adds little-endian words and swaps the result at the
    end.  This file relates it to the Internet checksum of RFC 1071, which is
    defined on big-endian words, and shows that a message with its checksum
    filled in verifies, and that a changed word is detected. *)

From S2P Require Import Prelude Memory Net.

(** ** Byte swaps *)

Lemma ntohs_bytes lo hi : 0 <= lo < 256 -> 0 <= hi < 256 -> ntohs (lo + 256 * hi) = hi + 256 * lo.
Proof.
  intros Hl Hh; unfold ntohs.
  replace 255 with (Z.ones 8) by reflexivity.
  rewrite Z.land_ones, Z.shiftl_mul_pow2, Z.shiftr_div_pow2 by lia.
  replace ((lo + 256 * hi) / 2 ^ 8) with hi by (Z.div_mod_to_equations; lia).
  replace ((lo + 256 * hi) mod 2 ^ 8) with lo by (Z.div_mod_to_equations; lia).
  rewrite u16_small; lia.
Qed.

Lemma split_u16 v : 0 <= v < 2 ^ 16 -> exists lo hi, v = lo + 256 * hi /\ 0 <= lo < 256 /\ 0 <= hi < 256.
Proof. intros; exists (v mod 256), (v / 256); Z.div_mod_to_equations; lia. Qed.

Lemma ntohs_range v : 0 <= ntohs v < 2 ^ 16.
Proof. apply u16_range. Qed.

Lemma ntohs_htons v : 0 <= v < 2 ^ 16 -> ntohs (htons v) = v.
Proof.
  intros (lo & hi & -> & ? & ?)%split_u16; unfold htons.
  by rewrite ntohs_bytes, (ntohs_bytes hi lo).
Qed.

(** ** One's complement sums *)

(** Addition with end-around carry. *)
Definition oc_add (a b : Z) : Z := let s := a + b in if s <? 2 ^ 16 then s else s - 65535.

(** The sum of RFC 1071 over a list of 16-bit words. *)
Definition oc_sum (l : list Z) : Z := foldl oc_add 0 l.

(** The big-endian words of a byte list, a last odd byte padded with zero. *)
Fixpoint be_words (l : list Z) : list Z :=
  match l with
  | a :: b :: l => 256 * a + b :: be_words l
  | [a] => [256 * a]
  | [] => []
  end.

(** The Internet checksum of RFC 1071. *)
Definition inet_checksum (l : list Z) : Z := 65535 - oc_sum (be_words l).

(** The representative in [1, 65535] of a class modulo 65535, and 0 for 0. *)
Definition oc (x : Z) : Z := if x =? 0 then 0 else (x - 1) mod 65535 + 1.

Lemma oc_range x : 0 <= oc x < 2 ^ 16.
Proof. unfold oc; case_test; Z.div_mod_to_equations; lia. Qed.

Lemma oc_small x : 0 <= x < 2 ^ 16 -> oc x = x.
Proof. intros; unfold oc; case_test; auto; rewrite Z.mod_small; lia. Qed.

(** Equality of representatives. *)
Lemma oc_eq x y k : 0 <= x -> 0 <= y -> x = y + 65535 * k -> (x = 0 <-> y = 0) -> oc x = oc y.
Proof. intros ?? -> H; unfold oc; repeat case_test; try lia; Z.div_mod_to_equations; lia. Qed.

(** The representative differs by a multiple of 65535, and is zero only for zero. *)
Lemma oc_class x : 0 <= x -> exists k, x = oc x + 65535 * k /\ 0 <= k /\ (oc x = 0 <-> x = 0).
Proof.
  intros; unfold oc; case_test; [exists 0; lia|].
  exists ((x - 1) / 65535); Z.div_mod_to_equations; lia.
Qed.

Lemma oc_inj x y : 0 <= x -> 0 <= y -> oc x = oc y -> exists k, x = y + 65535 * k.
Proof.
  intros Hx Hy E; destruct (oc_class x Hx) as (k & ? & _), (oc_class y Hy) as (k' & ? & _).
  exists (k - k'); lia.
Qed.

Lemma oc_add_oc x b : 0 <= x -> 0 <= b < 2 ^ 16 -> oc_add (oc x) b = oc (x + b).
Proof.
  intros Hx Hb; destruct (oc_class x Hx) as (k & E & Hk & Z0); pose proof (oc_range x) as R.
  unfold oc_add; cbn zeta; case_test.
  - rewrite (oc_eq (x + b) (oc x + b) k) by lia; by rewrite (oc_small (oc x + b)) by lia.
  - rewrite (oc_eq (x + b) (oc x + b - 65535) (k + 1)) by lia; by rewrite (oc_small (oc x + b - 65535)) by lia.
Qed.

Lemma oc_sum_app l k : oc_sum (l ++ k) = foldl oc_add (oc_sum l) k.
Proof. unfold oc_sum; by rewrite foldl_app. Qed.

Lemma foldl_oc_add l x :
  0 <= x -> Forall (fun w => 0 <= w < 2 ^ 16) l -> foldl oc_add (oc x) l = oc (x + foldr Z.add 0 l).
Proof.
  intros Hx Hl; revert x Hx; induction Hl as [|w l Hw _ IH]; intros x Hx; cbn [foldl foldr].
  - by rewrite Z.add_0_r.
  - rewrite oc_add_oc, IH by lia; f_equal; lia.
Qed.

Lemma oc_sum_oc l : Forall (fun w => 0 <= w < 2 ^ 16) l -> oc_sum l = oc (foldr Z.add 0 l).
Proof. intros; exact (foldl_oc_add l 0 ltac:(lia) ltac:(auto)). Qed.

(** ** The loops of the code *)

(** Two rounds of carries give the representative. *)
Lemma add_carry_oc sum : 0 <= sum < 2 ^ 32 -> add_carry 2 sum = oc sum.
Proof.
  intros Hs; cbn [add_carry].
  replace 65535 with (Z.ones 16) by reflexivity.
  rewrite !Z.land_ones, !Z.shiftr_div_pow2 by lia.
  set (s1 := sum / 2 ^ 16 + sum mod 2 ^ 16).
  assert (0 <= s1 < 2 ^ 17 /\ sum = s1 + 65535 * (sum / 2 ^ 16)) as [H1 E1]
    by (unfold s1; Z.div_mod_to_equations; lia).
  rewrite (u32_small s1) by lia.
  case_test; [rewrite oc_small; auto; Z.div_mod_to_equations; lia|].
  assert (0 < sum / 2 ^ 16 /\ 0 < s1) by (unfold s1; Z.div_mod_to_equations; lia).
  rewrite (oc_eq sum s1 (sum / 2 ^ 16)) by lia.
  case_test; [rewrite oc_small; auto; Z.div_mod_to_equations; lia|].
  assert (s1 / 2 ^ 16 = 1 /\ s1 mod 2 ^ 16 = s1 - 2 ^ 16 /\ 2 ^ 16 <= s1 <= 2 ^ 17 - 2) as (-> & -> & ?)
    by (unfold s1 in *; Z.div_mod_to_equations; lia).
  rewrite u32_small by lia.
  rewrite (oc_eq s1 (1 + (s1 - 2 ^ 16)) 1) by lia; by rewrite oc_small by lia.
Qed.

(** The words a byte list holds in the machine's order. *)
Fixpoint le_sum (l : list Z) : Z :=
  match l with
  | a :: b :: l => a + 256 * b + le_sum l
  | [a] => a
  | [] => 0
  end.

Lemma list_ind2 {A} (P : list A -> Prop) :
  P [] -> (forall a, P [a]) -> (forall a b l, P l -> P (a :: b :: l)) -> forall l, P l.
Proof.
  intros H0 H1 H2; fix IH 1; intros [|a [|b l]]; [exact H0|exact (H1 a)|exact (H2 a b l (IH l))].
Qed.

Abbreviation byte_list := (Forall (fun b => 0 <= b < 2 ^ 8)).

(** Swapping the bytes multiplies by 256 modulo 65535. *)
Lemma le_sum_be l :
  byte_list l ->
  exists k, 256 * le_sum l = foldr Z.add 0 (be_words l) + 65535 * k /\ 0 <= k /\
    0 <= le_sum l <= 65535 * Z.of_nat (length (be_words l)) /\
    (le_sum l = 0 <-> foldr Z.add 0 (be_words l) = 0) /\ 0 <= foldr Z.add 0 (be_words l).
Proof.
  induction l as [|a|a b l IH] using list_ind2; intros Hl.
  - exists 0; cbn; lia.
  - apply Forall_cons_1 in Hl as [Ha _]; exists 0; cbn; lia.
  - apply Forall_cons_1 in Hl as [Ha [Hb Hl]%Forall_cons_1].
    destruct (IH Hl) as (k & E & Hk & Hr & Hz & Hp); exists (k + b); cbn [le_sum be_words foldr length]; lia.
Qed.

Lemma be_words_range l : byte_list l -> Forall (fun w => 0 <= w < 2 ^ 16) (be_words l).
Proof.
  induction l as [|a|a b l IH] using list_ind2; intros Hl; cbn [be_words]; auto.
  - apply Forall_cons_1 in Hl as [Ha _]; constructor; auto; lia.
  - apply Forall_cons_1 in Hl as [Ha [Hb Hl]%Forall_cons_1]; constructor; auto; lia.
Qed.

Lemma swap_oc x : 0 <= x -> ntohs (oc x) = oc (256 * x).
Proof.
  intros Hx; destruct (oc_class x Hx) as (k & E & Hk & Hz); pose proof (oc_range x) as R.
  destruct (split_u16 _ R) as (lo & hi & Ev & Hl & Hh); rewrite Ev, ntohs_bytes by auto.
  rewrite (oc_eq (256 * x) (hi + 256 * lo) (hi + 256 * k)) by lia.
  by rewrite oc_small by lia.
Qed.

Lemma ntohs_lnot v : 0 <= v < 2 ^ 16 -> ntohs (u16 (Z.lnot v)) = 65535 - ntohs v.
Proof.
  intros Hv; replace (u16 (Z.lnot v)) with (65535 - v)
    by (unfold u16, Z.lnot; rewrite <- Z.sub_1_r; Z.div_mod_to_equations; lia).
  destruct (split_u16 v Hv) as (lo & hi & -> & ? & ?).
  replace (65535 - (lo + 256 * hi)) with (255 - lo + 256 * (255 - hi)) by lia.
  rewrite !ntohs_bytes by lia; lia.
Qed.

(** ** The checksum is the one of RFC 1071 *)

Lemma bytes_at_cons m a n : bytes_at m a (S n) = m a :: bytes_at m (a + 1) n.
Proof.
  change (S n) with (1 + n)%nat; rewrite bytes_at_app; cbn [bytes_at fmap seq list_fmap app].
  by rewrite Z.add_0_r.
Qed.

Lemma bytes_at_snoc m a n : bytes_at m a (S n) = bytes_at m a n ++ [m (a + Z.of_nat n)].
Proof.
  replace (S n) with (n + 1)%nat by lia; rewrite bytes_at_app; cbn; by rewrite Z.add_0_r.
Qed.

(** The words added are those of the bytes, as long as the sum fits 32 bits. *)
Lemma sum_words_le m a n sum :
  byte_list (bytes_at m a (2 * n)) -> 0 <= sum -> sum + 65535 * Z.of_nat n < 2 ^ 32 ->
  sum_words m a n sum = sum + le_sum (bytes_at m a (2 * n)).
Proof.
  revert a sum; induction n as [|n IH]; intros a sum Hb Hs Hn; [cbn; lia|]; cbn [sum_words].
  replace (2 * S n)%nat with (S (S (2 * n))) in * by lia.
  rewrite !bytes_at_cons in *; cbn [le_sum].
  apply Forall_cons_1 in Hb as [H0 [H1 Hb]%Forall_cons_1].
  replace (a + 1 + 1) with (a + 2) in * by lia.
  unfold load16; rewrite u32_small, IH by (auto || lia); lia.
Qed.

Lemma le_sum_app l k : Nat.Even (length l) -> le_sum (l ++ k) = le_sum l + le_sum k.
Proof.
  induction l as [|a|a b l IH] using list_ind2; intros [j Hj]; cbn in Hj; [cbn; lia|lia|].
  cbn [app le_sum]; rewrite IH; [lia|exists (j - 1)%nat; lia].
Qed.

Lemma length_be_words l : length (be_words l) = ((length l + 1) / 2)%nat.
Proof.
  induction l as [|a|a b l IH] using list_ind2; [done..|]; cbn [be_words length]; rewrite IH.
  replace (S (S (length l)) + 1)%nat with (length l + 1 + 1 * 2)%nat by lia.
  rewrite Nat.div_add by lia; lia.
Qed.

Lemma checksum_inet m words n :
  byte_list (bytes_at m words n) -> Z.of_nat n <= 2 * 65537 ->
  net_compute_checksum m words (Z.of_nat n) = inet_checksum (bytes_at m words n).
Proof.
  intros Hb Hn; unfold net_compute_checksum, inet_checksum; rewrite oc_sum_oc by by apply be_words_range.
  destruct (le_sum_be _ Hb) as (k & E & Hk & Hr & Hz & Hp).
  set (sum := if _ : bool then _ else _).
  assert (sum = le_sum (bytes_at m words n)) as ->.
  - unfold sum; clear - Hb Hn; rewrite Z.quot_div_nonneg, Z.rem_mod_nonneg by lia.
    replace (Z.to_nat (Z.of_nat n / 2)) with (n / 2)%nat
      by (apply Nat2Z.inj; rewrite Z2Nat.id, Nat2Z.inj_div; Z.div_mod_to_equations; lia).
    assert (n = 2 * (n / 2) \/ n = S (2 * (n / 2)))%nat as Hn2
      by (pose proof (Nat.div_mod_eq n 2); pose proof (Nat.mod_upper_bound n 2); lia).
    set (h := (n / 2)%nat) in *; clearbody h; destruct Hn2 as [->| ->].
    + rewrite sum_words_le by (auto; lia); case_test; [Z.div_mod_to_equations; lia|done].
    + rewrite bytes_at_snoc in Hb |- *; apply Forall_app in Hb as [Hb [Hl _]%Forall_cons_1].
      rewrite le_sum_app by (rewrite length_bytes_at; by exists h).
      rewrite sum_words_le by (auto; lia); case_test; [|Z.div_mod_to_equations; lia].
      destruct (le_sum_be _ Hb) as (k & _ & _ & Hr & _); revert Hr.
      rewrite length_be_words, length_bytes_at; intros Hr; cbn [le_sum].
      replace (words + (Z.of_nat (S (2 * h)) - 1)) with (words + Z.of_nat (2 * h)) by lia.
      assert (Z.of_nat ((2 * h + 1) / 2) = Z.of_nat h) as Eh
        by (rewrite Nat2Z.inj_div; Z.div_mod_to_equations; lia).
      rewrite u32_small by lia; lia.
  - revert Hr; rewrite length_be_words, length_bytes_at; intros Hr.
    assert (Z.of_nat ((n + 1) / 2) <= 65537)
      by (rewrite Nat2Z.inj_div; Z.div_mod_to_equations; lia).
    rewrite add_carry_oc by lia; rewrite (u16_small (oc _)), ntohs_lnot by apply oc_range.
    rewrite swap_oc by lia; f_equal; apply (oc_eq _ _ k); lia.
Qed.

(** Only the range matters. *)
Lemma sum_words_ext m m' a n sum :
  (forall x, a <= x < a + 2 * Z.of_nat n -> m' x = m x) -> sum_words m' a n sum = sum_words m a n sum.
Proof.
  revert a sum; induction n as [|n IH]; intros a sum E; [done|]; cbn [sum_words].
  rewrite (load16_ext m m' a) by (intros; apply E; lia); apply IH; intros; apply E; lia.
Qed.

Lemma checksum_ext m m' words k :
  0 <= k -> (forall x, words <= x < words + k -> m' x = m x) ->
  net_compute_checksum m' words k = net_compute_checksum m words k.
Proof.
  intros Hk E; unfold net_compute_checksum.
  rewrite Z.quot_div_nonneg, Z.rem_mod_nonneg by lia.
  rewrite (sum_words_ext m m') by (intros; apply E; Z.div_mod_to_equations; lia).
  destruct (Z.eqb_spec (k mod 2) 1) as [Hm|]; [|done].
  assert (k <> 0) by (intros ->; done); by rewrite E by lia.
Qed.

(** ** Words stored in a message *)

Lemma be_words_insert l i a b :
  (2 * i + 1 < length l)%nat ->
  be_words (<[(2 * i + 1)%nat := b]> (<[(2 * i)%nat := a]> l)) = <[i := 256 * a + b]> (be_words l).
Proof.
  revert i; induction l as [|c|c d l IH] using list_ind2; intros i Hi; cbn in Hi; [lia..|].
  destruct i as [|i]; [done|].
  replace (2 * S i + 1)%nat with (S (S (2 * i + 1))) by lia.
  replace (2 * S i)%nat with (S (S (2 * i))) by lia.
  cbn [insert list_insert be_words]; f_equal; apply IH; lia.
Qed.

Lemma be_words_lookup l i a b :
  l !! (2 * i)%nat = Some a -> l !! (2 * i + 1)%nat = Some b -> be_words l !! i = Some (256 * a + b).
Proof.
  revert i; induction l as [|c|c d l IH] using list_ind2; intros i Ha Hb; [done| |].
  - by destruct i as [|i]; [|rewrite lookup_ge_None_2 in Ha by (cbn; lia)].
  - destruct i as [|i]; [by simplify_eq/=|].
    replace (2 * S i + 1)%nat with (S (S (2 * i + 1))) in Hb by lia.
    replace (2 * S i)%nat with (S (S (2 * i))) in Ha by lia.
    cbn [lookup list_lookup be_words] in *; auto.
Qed.

Lemma sum_insert l i (w v : Z) :
  l !! i = Some w -> foldr Z.add 0 (<[i := v]> l) = foldr Z.add 0 l - w + v.
Proof.
  revert i; induction l as [|x l IH]; intros [|i] Hi; simplify_eq/=; [lia|].
  rewrite (IH i) by auto; lia.
Qed.

Lemma bytes_at_store16 m a n i v :
  (2 * i + 1 < n)%nat ->
  bytes_at (store16 m (a + Z.of_nat (2 * i)) v) a n =
  <[(2 * i + 1)%nat := u8 (v / 2 ^ 8)]> (<[(2 * i)%nat := u8 v]> (bytes_at m a n)).
Proof.
  intros Hi; unfold store16.
  replace (a + Z.of_nat (2 * i) + 1) with (a + Z.of_nat (2 * i + 1)) by lia.
  by rewrite !bytes_at_store8 by lia.
Qed.

Section words.
Context (m : mem) (words : Z) (n : nat).
Hypothesis bytes_ok : byte_list (bytes_at m words n).
Hypothesis count_ok : Z.of_nat n <= 2 * 65537.

Lemma store16_byte_list i v :
  (2 * i + 1 < n)%nat -> byte_list (bytes_at (store16 m (words + Z.of_nat (2 * i)) v) words n).
Proof.
  intros Hi; rewrite bytes_at_store16 by auto.
  apply Forall_insert; [apply Forall_insert; auto|]; apply u8_range.
Qed.

Lemma be_words_store16 i v :
  (2 * i + 1 < n)%nat -> 0 <= v < 2 ^ 16 ->
  be_words (bytes_at (store16 m (words + Z.of_nat (2 * i)) v) words n) =
  <[i := ntohs v]> (be_words (bytes_at m words n)).
Proof.
  intros Hi Hv; rewrite bytes_at_store16, be_words_insert by (rewrite ?length_bytes_at; auto); f_equal.
  destruct (split_u16 v Hv) as (lo & hi & -> & ? & ?); rewrite ntohs_bytes by auto; unfold u8.
  Z.div_mod_to_equations; lia.
Qed.

Lemma be_words_load16 i :
  (2 * i + 1 < n)%nat ->
  be_words (bytes_at m words n) !! i = Some (ntohs (load16 m (words + Z.of_nat (2 * i)))) /\
  0 <= load16 m (words + Z.of_nat (2 * i)) < 2 ^ 16.
Proof.
  intros Hi; assert (Ha := lookup_bytes_at m words n (2 * i) ltac:(lia)).
  assert (Hb := lookup_bytes_at m words n (2 * i + 1) ltac:(lia)).
  rewrite (be_words_lookup _ _ _ _ Ha Hb).
  apply (Forall_lookup_1 _ _ _ _ bytes_ok) in Ha, Hb; unfold load16.
  replace (words + Z.of_nat (2 * i) + 1) with (words + Z.of_nat (2 * i + 1)) by lia.
  change (2 ^ 8) with 256 in *; rewrite ntohs_bytes by lia; split; [f_equal|]; lia.
Qed.

(** Storing a word changes the sum by the difference of the big-endian words. *)
Lemma checksum_store16 i v :
  (2 * i + 1 < n)%nat -> 0 <= v < 2 ^ 16 ->
  let sum := foldr Z.add 0 (be_words (bytes_at m words n)) in
  net_compute_checksum m words (Z.of_nat n) = 65535 - oc sum /\ 0 <= sum /\
  ntohs (load16 m (words + Z.of_nat (2 * i))) <= sum /\
  net_compute_checksum (store16 m (words + Z.of_nat (2 * i)) v) words (Z.of_nat n) =
  65535 - oc (sum - ntohs (load16 m (words + Z.of_nat (2 * i))) + ntohs v).
Proof.
  intros Hi Hv sum.
  pose proof (store16_byte_list i v Hi) as Hb.
  rewrite !checksum_inet by auto; unfold inet_checksum; rewrite !oc_sum_oc by by apply be_words_range.
  destruct (be_words_load16 i Hi) as [Hw Hl].
  rewrite be_words_store16 by auto; rewrite (sum_insert _ _ _ _ Hw).
  destruct (le_sum_be _ bytes_ok) as (_ & _ & _ & _ & _ & Hp).
  split; [done|split; [done|split; [|done]]].
  pose proof (sum_insert _ _ _ 0 Hw) as Hz.
  pose proof (be_words_store16 i 0 Hi ltac:(lia)) as E0.
  change (ntohs 0) with 0 in E0; rewrite <- E0 in Hz.
  destruct (le_sum_be _ (store16_byte_list i 0 Hi)) as (_ & _ & _ & _ & _ & Hp0); fold sum in Hz; lia.
Qed.

End words.

(** ** Filling in and verifying *)

Lemma fill_in m words n i :
  byte_list (bytes_at m words n) -> Z.of_nat n <= 2 * 65537 -> (2 * i + 1 < n)%nat ->
  load16 m (words + Z.of_nat (2 * i)) = 0 ->
  net_compute_checksum
    (store16 m (words + Z.of_nat (2 * i)) (htons (net_compute_checksum m words (Z.of_nat n))))
    words (Z.of_nat n) = 0.
Proof.
  intros Hb Hn Hi H0; destruct (checksum_store16 m words n Hb Hn i
    (htons (net_compute_checksum m words (Z.of_nat n))) Hi (ntohs_range _)) as (E & Hs & _ & ->).
  set (sum := foldr Z.add 0 _) in *; rewrite H0, E; pose proof (oc_range sum).
  rewrite ntohs_htons by lia; change (ntohs 0) with 0; destruct (oc_class sum Hs) as (k & Ek & ? & ?).
  rewrite (oc_eq _ 65535 k) by lia; rewrite oc_small; lia.
Qed.

(** The same for a field at address [a] of a range of [k] bytes. *)
Lemma fill_in_at m words k a :
  byte_list (bytes_at m words (Z.to_nat k)) -> 0 <= k <= 2 * 65537 ->
  words <= a -> a + 1 < words + k -> (a - words) mod 2 = 0 -> load16 m a = 0 ->
  net_compute_checksum (store16 m a (ntohs (net_compute_checksum m words k))) words k = 0.
Proof.
  intros Hb Hk Ha Ha' Hm H0.
  assert (exists i, a = words + Z.of_nat (2 * i)) as [i ->]
    by (exists (Z.to_nat ((a - words) / 2)); Z.div_mod_to_equations; lia).
  rewrite <- (Z2Nat.id k) by lia; apply fill_in; auto; lia.
Qed.

Lemma change_detected m words n j v :
  byte_list (bytes_at m words n) -> Z.of_nat n <= 2 * 65537 -> (2 * j + 1 < n)%nat -> 0 <= v < 2 ^ 16 ->
  net_compute_checksum m words (Z.of_nat n) = 0 ->
  let w := load16 m (words + Z.of_nat (2 * j)) in
  w <> v -> ~ (w = 0 /\ v = 65535) -> ~ (w = 65535 /\ v = 0) ->
  net_compute_checksum (store16 m (words + Z.of_nat (2 * j)) v) words (Z.of_nat n) <> 0.
Proof.
  intros Hb Hn Hj Hv Hc w Hne H1 H2 Hc'.
  destruct (checksum_store16 m words n Hb Hn j v Hj Hv) as (E & Hs & Hle & E').
  destruct (be_words_load16 m words n Hb j Hj) as [_ Hw]; fold w in Hw, Hle, E'.
  pose proof (ntohs_range v) as Hvr; pose proof (ntohs_range w) as Hwr.
  destruct (oc_inj (foldr Z.add 0 (be_words (bytes_at m words n))) (foldr Z.add 0 (be_words (bytes_at m words n))
    - ntohs w + ntohs v)) as [k Hk]; [lia..|].
  assert (forall x y, 0 <= x < 2 ^ 16 -> 0 <= y < 2 ^ 16 -> ntohs x = ntohs y -> x = y) as Hinj.
  { intros x y Hx Hy Exy; rewrite <- (ntohs_htons x), <- (ntohs_htons y) by auto; unfold htons; congruence. }
  assert (ntohs v = ntohs w \/ ntohs v = 0 /\ ntohs w = 65535 \/ ntohs v = 65535 /\ ntohs w = 0)
    as [?|[[Ev Ew]|[Ev Ew]]] by lia; [apply Hne; symmetry; auto| |].
  - apply H2; split; apply Hinj; auto; lia.
  - apply H1; split; apply Hinj; auto; lia.
Qed.

(** C39. [net_compute_checksum] is the Internet checksum of RFC 1071: the
    complement of the one's complement sum of the big-endian words of the range,
    a last odd byte padded with zero.  The range may hold up to 65537 words, the
    most the 32-bit accumulator can take. *)
Theorem checksum_correct m words n :
  Forall (fun b => 0 <= b < 2 ^ 8) (bytes_at m words n) -> Z.of_nat n <= 2 * 65537 ->
  net_compute_checksum m words (Z.of_nat n) = inet_checksum (bytes_at m words n).
Proof. apply checksum_inet. Qed.

(** The bytes [1], [2], ..., [7]. *)
Definition counting : mem := fun x => if (0 <=? x) && (x <? 7) then x + 1 else 0.

Lemma checksum_correct_witness :
  net_compute_checksum counting 0 (Z.of_nat 7) = inet_checksum [1; 2; 3; 4; 5; 6; 7].
Proof.
  apply (checksum_correct counting 0 7); [|lia].
  change (bytes_at counting 0 7) with [1; 2; 3; 4; 5; 6; 7]; repeat constructor; lia.
Defined.

(** A checksum field that is zero and is then filled in with the checksum of
    the range makes the range verify, that is, its checksum becomes 0.  Any
    single word of the range that is changed afterwards is detected, except for a
    change between the two representations of zero. *)
Theorem checksum_verifies m words n i :
  Forall (fun b => 0 <= b < 2 ^ 8) (bytes_at m words n) -> Z.of_nat n <= 2 * 65537 -> (2 * i + 1 < n)%nat ->
  load16 m (words + Z.of_nat (2 * i)) = 0 ->
  let m' := store16 m (words + Z.of_nat (2 * i)) (htons (net_compute_checksum m words (Z.of_nat n))) in
  net_compute_checksum m' words (Z.of_nat n) = 0 /\
  forall j v, (2 * j + 1 < n)%nat -> 0 <= v < 2 ^ 16 ->
    let w := load16 m' (words + Z.of_nat (2 * j)) in
    w <> v -> ~ (w = 0 /\ v = 65535) -> ~ (w = 65535 /\ v = 0) ->
    net_compute_checksum (store16 m' (words + Z.of_nat (2 * j)) v) words (Z.of_nat n) <> 0.
Proof.
  intros Hb Hn Hi H0 m'; pose proof (fill_in m words n i Hb Hn Hi H0) as Hf; split; [done|].
  intros j v Hj Hv w Hne H1 H2; apply change_detected; auto.
  by apply store16_byte_list.
Qed.

Lemma checksum_verifies_witness :
  let m' := store16 counting 8 (htons (net_compute_checksum counting 0 10)) in
  net_compute_checksum m' 0 10 = 0 /\ net_compute_checksum (store16 m' 2 9) 0 10 <> 0.
Proof.
  destruct (checksum_verifies counting 0 10 4) as [H1 H2]; [|lia..|done|].
  - change (bytes_at counting 0 10) with [1; 2; 3; 4; 5; 6; 7; 0; 0; 0]; repeat constructor; lia.
  - split; [exact H1|apply (H2 1%nat 9); [lia|lia|by vm_compute|by vm_compute; intros [? _]|by vm_compute; intros [? _]]].
Defined.
