(* ===== verification/NetIf.v ===== *)
(** * Network interfaces, routing and interface configuration

    [kernel/net_if.c] keeps the table of network cards and configures their
    addresses, [kernel/ip.c] keeps the routing table.  Setting an address adds a
    route, and a route names a card, so both are modelled here. *)

From S2P Require Import Prelude Errors Memory CString Net.

(** ** Network cards ([nic_t], [nic_entry_t]) *)

Record nic_t := mk_nic {
  hw_type : Z;
  mac_address : list Z;
  nic_ip_addr : Z;
  nic_ip_netmask : Z;
  ip_addr_assigned : Z;
  mtu : Z;
  nic_name : list Z;
}.

(** A registered card, by its address, and whether its driver has operations,
    and among them one to transmit. *)
Record nic_entry_t := mk_nic_entry { entry_nic : option Z; entry_ops : option bool }.

Definition NET_IF_MAX_NICS : Z := 16.
Definition NET_IF_DEFAULT_MTU : Z := 576.
Definition HW_TYPE_ETH : Z := 0.
Definition INADDR_ANY : Z := 0.
Definition AF_INET : Z := 2.
Definition NETMASK_CLASS_A : Z := 255.
Definition NETMASK_CLASS_B : Z := 65535.
Definition NETMASK_CLASS_C : Z := 16777215.

(** ** The routing table ([struct rtentry], [route_t]) *)

Record rtentry := mk_rtentry {
  RT_DST : Z;
  RT_GW : Z;
  RT_MASK : Z;
  rt_dev : list Z;
  rt_flags : Z;
}.

Record route_t := mk_route { rt_entry : rtentry; route_nic : option Z }.

Definition RT_FLAGS_GW : Z := 1.
Definition RT_FLAGS_UP : Z := 2.
Definition ROUTING_TABLE_ENTRIES : nat := 256.

(** The structures the cards point to, the table of cards, the routing table. *)
Record net_state := mk_net_state {
  nics : Z -> nic_t;
  registered_nics : list nic_entry_t;
  routing_table : list route_t;
}.

Definition set_nics (f : Z -> nic_t) (s : net_state) : net_state :=
  mk_net_state f (registered_nics s) (routing_table s).
Definition set_registered (l : list nic_entry_t) (s : net_state) : net_state :=
  mk_net_state (nics s) l (routing_table s).
Definition set_routes (l : list route_t) (s : net_state) : net_state :=
  mk_net_state (nics s) (registered_nics s) l.

(** [0 == strncmp(a, b, 4)] for two names, placed at two addresses. *)
Definition same_name (a b : list Z) : bool :=
  let m x := if x <? 16 then default 0 (a !! Z.to_nat (x - 1)) else default 0 (b !! Z.to_nat (x - 16)) in
  match CString.strncmp 6 m 1 16 4 with Some r => r =? 0 | None => false end.

(** ** Lookup of cards *)

Fixpoint find_nic (p : Z -> bool) (l : list nic_entry_t) : option Z :=
  match l with
  | [] => None
  | e :: l => match entry_nic e with
              | Some n => if p n then Some n else find_nic p l
              | None => find_nic p l
              end
  end.

Definition net_if_get_nic (s : net_state) (ip_address : Z) : option Z :=
  find_nic (fun n => negb (ip_addr_assigned (nics s n) =? 0) && (nic_ip_addr (nics s n) =? ip_address))
    (registered_nics s).

Definition net_if_get_nic_by_name (s : net_state) (name : list Z) : option Z :=
  find_nic (fun n => same_name (nic_name (nics s n)) name) (registered_nics s).

(** Whether there are operations to transmit for a card. *)
Fixpoint get_ops (l : list nic_entry_t) (nic : Z) : bool :=
  match l with
  | [] => false
  | e :: l => if bool_decide (entry_nic e = Some nic) && bool_decide (entry_ops e = Some true) then true
              else get_ops l nic
  end.

(** ** Routing *)

(** [for (i = 0; i < sizeof(u32); i++)] *)
Definition get_netmask_length (netmask : Z) : Z :=
  fold_left (fun length i => if Z.land (Z.shiftl 1 i) netmask =? 0 then length else length + 1) (seqZ 0 4) 0.

(** The walk through the routing table: the best match so far and its length. *)
Fixpoint best_route (s : net_state) (l : list route_t) (ip_src ip_dst : Z) (best : option route_t) (length : Z)
    : option route_t :=
  match l with
  | [] => best
  | r :: l =>
      match route_nic r with
      | None => best_route s l ip_src ip_dst best length
      | Some n =>
          if negb (ip_src =? 0) && (negb (ip_src =? nic_ip_addr (nics s n)) || (ip_addr_assigned (nics s n) =? 0))
          then best_route s l ip_src ip_dst best length
          else if (Z.land (RT_MASK (rt_entry r)) ip_dst =? RT_DST (rt_entry r))
                  && (length <? get_netmask_length (RT_MASK (rt_entry r)))
          then best_route s l ip_src ip_dst (Some r) (get_netmask_length (RT_MASK (rt_entry r)))
          else best_route s l ip_src ip_dst best length
      end
  end.

(** The card and the next hop. *)
Definition ip_get_route (s : net_state) (ip_src ip_dst : Z) : option (Z * Z) :=
  best_match ← best_route s (routing_table s) ip_src ip_dst None (-1);
  let next_hop := if Z.land (rt_flags (rt_entry best_match)) RT_FLAGS_GW =? 0 then ip_dst
                  else RT_GW (rt_entry best_match) in
  nic ← route_nic best_match;
  Some (nic, next_hop).

Definition ip_get_src_addr (s : net_state) (ip_dst : Z) : Z :=
  match ip_get_route s INADDR_ANY ip_dst with
  | None => 0
  | Some (nic, _) => nic_ip_addr (nics s nic)
  end.

Definition ip_get_mtu (s : net_state) (ip_src : Z) : Z :=
  if ip_src =? INADDR_ANY then NET_IF_DEFAULT_MTU
  else match net_if_get_nic s ip_src with None => -1 | Some nic => mtu (nics s nic) end.

(** The entry is the one [rt] describes. *)
Definition route_matches (s : net_state) (rt : rtentry) (r : route_t) : bool :=
  match route_nic r with
  | None => false
  | Some n => (RT_DST rt =? RT_DST (rt_entry r)) && (RT_GW rt =? RT_GW (rt_entry r))
              && (RT_MASK rt =? RT_MASK (rt_entry r)) && same_name (rt_dev rt) (nic_name (nics s n))
  end.

Definition drop_route (r : route_t) : route_t := mk_route (rt_entry r) None.

Definition ip_del_route (s : net_state) (rt : rtentry) : net_state * Z :=
  match net_if_get_nic_by_name s (rt_dev rt) with
  | None => (s, - ENODEV)
  | Some _ =>
      (set_routes ((fun r => if route_matches s rt r then drop_route r else r) <$> routing_table s) s, 0)
  end.

Definition ip_add_route (s : net_state) (rt : rtentry) : net_state * Z :=
  match net_if_get_nic_by_name s (rt_dev rt) with
  | None => (s, - ENODEV)
  | Some nic =>
      let s := (ip_del_route s rt).1 in
      match list_find (fun r => route_nic r = None) (routing_table s) with
      | None => (s, - ENOMEM)
      | Some (free, _) =>
          let gw := if Z.land (rt_flags rt) RT_FLAGS_GW =? 0 then INADDR_ANY else RT_GW rt in
          let e := mk_rtentry (Z.land (RT_DST rt) (RT_MASK rt)) gw (RT_MASK rt) (rt_dev rt) (rt_flags rt) in
          (set_routes (<[free := mk_route e (Some nic)]> (routing_table s)) s, 0)
      end
  end.

Definition ip_purge_nic (s : net_state) (nic : Z) : net_state :=
  set_routes ((fun r => if bool_decide (route_nic r = Some nic) then drop_route r else r) <$> routing_table s) s.

Definition sizeof_rtentry : Z := 30.

(** The entries written to the user's array of [rtc_len] bytes; the new
    [rtc_len] is their number times the size of one. *)
Fixpoint ip_get_rtconf (l : list route_t) (rtc_len count : Z) : list rtentry :=
  match l with
  | [] => []
  | r :: l =>
      match route_nic r with
      | None => ip_get_rtconf l rtc_len count
      | Some _ => if u32 (count * sizeof_rtentry) <? u32 rtc_len
                  then rt_entry r :: ip_get_rtconf l rtc_len (count + 1) else []
      end
  end.

(** ** Registration *)

Definition set_name (name : list Z) (n : nic_t) : nic_t :=
  mk_nic (hw_type n) (mac_address n) (nic_ip_addr n) (nic_ip_netmask n) (ip_addr_assigned n) (mtu n) name.
Definition set_addr (addr netmask assigned : Z) (n : nic_t) : nic_t :=
  mk_nic (hw_type n) (mac_address n) addr netmask assigned (mtu n) (nic_name n).

Definition same_type (s : net_state) (type : Z) (e : nic_entry_t) : Prop :=
  match entry_nic e with Some n => type = hw_type (nics s n) | None => False end.

#[export] Instance same_type_dec s type e : Decision (same_type s type e).
Proof. unfold same_type; destruct (entry_nic e); apply _. Defined.

(** The characters of "eth" and "net". *)
Definition nic_prefix (type : Z) : list Z := if type =? HW_TYPE_ETH then [101; 116; 104] else [110; 101; 116].

Definition set_nic_name (s : net_state) (nic : Z) : net_state * Z :=
  let type := hw_type (nics s nic) in
  let count := Z.of_nat (length (filter (same_type s type) (registered_nics s))) in
  if 16 <? count then (s, -1)
  else (set_nics (<[nic := set_name (nic_prefix type ++ [Z.land count 15 + 48]) (nics s nic)]> (nics s)) s, 0).

Definition net_if_add_nic (s : net_state) (nic : Z) (ops : option bool) : net_state :=
  let '(s, rc) := set_nic_name s nic in
  if rc =? -1 then s
  else match list_find (fun e => entry_nic e = None) (registered_nics s) with
       | None => s
       | Some (i, _) => set_registered (<[i := mk_nic_entry (Some nic) ops]> (registered_nics s)) s
       end.

Definition net_if_remove_all (s : net_state) : net_state :=
  set_registered ((fun e => mk_nic_entry None (entry_ops e)) <$> registered_nics s) s.

(** ** Addresses *)

Definition get_default_netmask (ip_addr : Z) : Z :=
  if Z.land ip_addr 128 =? 0 then NETMASK_CLASS_A
  else if Z.land ip_addr 192 =? 128 then NETMASK_CLASS_B
  else if Z.land ip_addr 224 =? 192 then NETMASK_CLASS_C
  else 2 ^ 32 - 1.

(** [gw] is what the gateway field of the local variable [rt_entry] happens to
    hold; [setup_if] does not set it. *)
Definition setup_if (gw : Z) (s : net_state) (nic ip_addr netmask : Z) : net_state * Z :=
  if ip_addr =? 0 then
    (set_nics (<[nic := set_addr ip_addr netmask 0 (nics s nic)]> (nics s)) s, 0)
  else
    let s := set_nics (<[nic := set_addr ip_addr netmask 1 (nics s nic)]> (nics s)) s in
    ip_add_route s (mk_rtentry (Z.land netmask ip_addr) gw netmask (nic_name (nics s nic)) RT_FLAGS_UP).

(** An interface request: the name, and the family and the value of the address. *)
Record ifreq := mk_ifreq { ifrn_name : list Z; sin_family : Z; s_addr : Z }.

Definition net_if_set_addr (gw : Z) (s : net_state) (ifr : ifreq) : net_state * Z :=
  match net_if_get_nic_by_name s (ifrn_name ifr) with
  | None => (s, - ENODEV)
  | Some nic =>
      if negb (sin_family ifr =? AF_INET) then (s, - EAFNOSUPPORT)
      else
        let s := if ip_addr_assigned (nics s nic) =? 0 then s else ip_purge_nic s nic in
        setup_if gw s nic (s_addr ifr) (get_default_netmask (s_addr ifr))
  end.

Definition net_if_get_addr (s : net_state) (ifr : ifreq) : ifreq * Z :=
  match net_if_get_nic_by_name s (ifrn_name ifr) with
  | None => (ifr, - ENODEV)
  | Some nic =>
      (mk_ifreq (ifrn_name ifr) AF_INET
         (if ip_addr_assigned (nics s nic) =? 0 then INADDR_ANY else nic_ip_addr (nics s nic)), 0)
  end.

Definition net_if_set_netmask (gw : Z) (s : net_state) (ifr : ifreq) : net_state * Z :=
  match net_if_get_nic_by_name s (ifrn_name ifr) with
  | None => (s, - ENODEV)
  | Some nic =>
      if negb (sin_family ifr =? AF_INET) then (s, - EAFNOSUPPORT)
      else
        let s := if ip_addr_assigned (nics s nic) =? 0 then s else ip_purge_nic s nic in
        let ip_addr := if ip_addr_assigned (nics s nic) =? 0 then INADDR_ANY else nic_ip_addr (nics s nic) in
        setup_if gw s nic ip_addr (s_addr ifr)
  end.

Definition net_if_get_netmask (s : net_state) (ifr : ifreq) : ifreq * Z :=
  match net_if_get_nic_by_name s (ifrn_name ifr) with
  | None => (ifr, - ENODEV)
  | Some nic =>
      (mk_ifreq (ifrn_name ifr) AF_INET
         (if ip_addr_assigned (nics s nic) =? 0 then INADDR_ANY else nic_ip_netmask (nics s nic)), 0)
  end.

Definition sizeof_ifreq : Z := 12.

(** The requests written to the user's array of [ifc_len] bytes. *)
Fixpoint net_if_get_ifconf (s : net_state) (l : list nic_entry_t) (ifc_len count : Z) : list ifreq :=
  match l with
  | [] => []
  | e :: l =>
      match entry_nic e with
      | None => net_if_get_ifconf s l ifc_len count
      | Some nic =>
          if u32 (count * sizeof_ifreq) <? u32 ifc_len
          then mk_ifreq (nic_name (nics s nic)) AF_INET
                 (if ip_addr_assigned (nics s nic) =? 0 then INADDR_ANY else nic_ip_addr (nics s nic))
               :: net_if_get_ifconf s l ifc_len (count + 1)
          else []
      end
  end.
