(* ===== verification/NetIfProofs.v ===== *)
(** * Routing and interface configuration

    What [ip_get_route] selects, the invariant of the routing table, and the
    effect of configuring an interface. *)

From S2P Require Import Prelude Errors Memory CString Net NetIf.

(** ** Route selection *)

(** The route can be used for a datagram. *)
Definition usable (s : net_state) (ip_src ip_dst : Z) (r : route_t) : bool :=
  match route_nic r with
  | None => false
  | Some n =>
      negb (negb (ip_src =? 0) && (negb (ip_src =? nic_ip_addr (nics s n)) || (ip_addr_assigned (nics s n) =? 0)))
      && (Z.land (RT_MASK (rt_entry r)) ip_dst =? RT_DST (rt_entry r))
  end.

Abbreviation prefix r := (get_netmask_length (RT_MASK (rt_entry r))).

(** [i] is the first of the usable routes with the greatest value of the code's
    prefix length. *)
Definition selected (s : net_state) (ip_src ip_dst : Z) (l : list route_t) (i : nat) (r : route_t) : Prop :=
  l !! i = Some r /\ usable s ip_src ip_dst r = true /\
  forall j r', l !! j = Some r' -> usable s ip_src ip_dst r' = true ->
    prefix r' <= prefix r /\ ((j < i)%nat -> prefix r' < prefix r).

Lemma best_route_cons s r l ip_src ip_dst best len :
  best_route s (r :: l) ip_src ip_dst best len =
  if usable s ip_src ip_dst r && (len <? prefix r) then best_route s l ip_src ip_dst (Some r) (prefix r)
  else best_route s l ip_src ip_dst best len.
Proof.
  cbn [best_route]; unfold usable; destruct (route_nic r) as [n|]; [|done].
  destruct (negb (ip_src =? 0) && _); [done|]; by destruct (_ =? RT_DST _), (len <? _).
Qed.

Lemma best_route_spec s l ip_src ip_dst best len :
  (best_route s l ip_src ip_dst best len = best /\
   forall j r', l !! j = Some r' -> usable s ip_src ip_dst r' = true -> prefix r' <= len) \/
  exists i r, best_route s l ip_src ip_dst best len = Some r /\ selected s ip_src ip_dst l i r /\ len < prefix r.
Proof.
  revert best len; induction l as [|r l IH]; intros best len; [by left|].
  rewrite best_route_cons; destruct (usable s ip_src ip_dst r && (len <? prefix r)) eqn:B.
  - apply andb_true_iff in B as [U L%Z.ltb_lt]; right.
    destruct (IH (Some r) (prefix r)) as [[-> H]|(i & r' & -> & (Hi & Hu & Hm) & Hlt)].
    + exists 0%nat, r; split; [done|split; [split; [done|split; [done|]]|done]].
      intros [|j] r' Hj Hu; [simplify_eq/=; lia|]; split; [eapply H; eauto|lia].
    + exists (S i), r'; split; [done|split; [split; [done|split; [done|]]|lia]].
      intros [|j] r2 Hj Hu2; [simplify_eq/=; lia|]; destruct (Hm j r2 Hj Hu2); split; [done|intros; lia].
  - assert (U : usable s ip_src ip_dst r = true -> prefix r <= len).
    { intros U; rewrite U in B; by apply Z.ltb_ge in B. }
    destruct (IH best len) as [[-> H]|(i & r' & -> & (Hi & Hu & Hm) & Hlt)]; [left|right].
    + split; [done|]; intros [|j] r' Hj Hu; [simplify_eq/=; auto|eapply H; eauto].
    + exists (S i), r'; split; [done|split; [split; [done|split; [done|]]|done]].
      intros [|j] r2 Hj Hu2; [simplify_eq/=; specialize (U Hu2); lia|].
      destruct (Hm j r2 Hj Hu2); split; [done|intros; lia].
Qed.

Lemma prefix_range netmask : 0 <= get_netmask_length netmask <= 4.
Proof. unfold get_netmask_length; change (seqZ 0 4) with [0; 1; 2; 3]; cbn [fold_left]; repeat case_test; lia. Qed.

(** A mask whose first four bits in the byte order of the code are set. *)
Lemma prefix_full netmask : Z.land netmask 15 = 15 -> get_netmask_length netmask = 4.
Proof.
  intros H; assert (forall i, 0 <= i < 4 -> Z.land (Z.shiftl 1 i) netmask <> 0) as E.
  { intros i Hi H0.
    assert (Z.testbit netmask i = true) as B.
    { apply (f_equal (fun x => Z.testbit x i)) in H; rewrite Z.land_spec in H.
      assert (Z.testbit 15 i = true) as T by (assert (i = 0 \/ i = 1 \/ i = 2 \/ i = 3) as [->|[->|[->| ->]]] by lia; done).
      by rewrite T, andb_true_r in H. }
    apply (f_equal (fun x => Z.testbit x i)) in H0.
    rewrite Z.land_spec, B, Z.shiftl_spec, Z.sub_diag, Z.bits_0 in H0 by lia; done. }
  unfold get_netmask_length; change (seqZ 0 4) with [0; 1; 2; 3]; cbn [fold_left].
  rewrite !(proj2 (Z.eqb_neq _ 0)) by (apply E; lia); done.
Qed.

(** The next hop of a route. *)
Definition hop_of (r : route_t) (ip_dst : Z) : Z :=
  if Z.land (rt_flags (rt_entry r)) RT_FLAGS_GW =? 0 then ip_dst else RT_GW (rt_entry r).

Lemma usable_nic s ip_src ip_dst r : usable s ip_src ip_dst r = true -> exists n, route_nic r = Some n.
Proof. unfold usable; destruct (route_nic r); [eauto|done]. Qed.

Lemma get_route_spec s ip_src ip_dst :
  match ip_get_route s ip_src ip_dst with
  | None => forall r, r ∈ routing_table s -> usable s ip_src ip_dst r = false
  | Some (nic, next_hop) =>
      exists i r, selected s ip_src ip_dst (routing_table s) i r /\ route_nic r = Some nic /\ next_hop = hop_of r ip_dst
  end.
Proof.
  unfold ip_get_route; destruct (best_route_spec s (routing_table s) ip_src ip_dst None (-1))
    as [[-> H]|(i & r & -> & Hs & _)]; cbn [mbind option_bind].
  - intros r (j & Hj)%list_elem_of_lookup_1; apply not_true_is_false; intros U.
    specialize (H j r Hj U); pose proof (prefix_range (RT_MASK (rt_entry r))); lia.
  - destruct (usable_nic s ip_src ip_dst r) as [n E]; [apply Hs|]; rewrite E; cbn [mbind option_bind]; eauto.
Qed.

(** C40. [ip_get_route] finds a route exactly if the table has one that can be
    used: matching the destination under its mask and, if a source address is
    given, leaving from that address.  It selects the first among the usable
    routes with the greatest prefix length as the code computes it, and the next
    hop is the gateway, or the destination for a direct route.  As the computed
    length is the same for all masks of eight or more bits, no usable route with such a mask
    is in front of the one selected: of all of them, the first is taken, not the one
    with the longest prefix, whatever else (a default route, unused entries) is in the table. *)
Theorem route_selection s ip_src ip_dst :
  match ip_get_route s ip_src ip_dst with
  | None => forall r, r ∈ routing_table s -> usable s ip_src ip_dst r = false
  | Some (nic, next_hop) =>
      exists i r, selected s ip_src ip_dst (routing_table s) i r /\ route_nic r = Some nic /\
        next_hop = hop_of r ip_dst /\
        forall j r', routing_table s !! j = Some r' -> usable s ip_src ip_dst r' = true ->
          Z.land (RT_MASK (rt_entry r')) 15 = 15 -> (i <= j)%nat /\ prefix r = 4
  end.
Proof.
  pose proof (get_route_spec s ip_src ip_dst) as H; destruct (ip_get_route s ip_src ip_dst) as [[nic hop]|]; [|done].
  destruct H as (i & r & Hs & Hn & Hh); exists i, r; do 3 (split; [done|]).
  intros j r' Hj Hu Hf; destruct Hs as (Hi & _ & Hm); destruct (Hm j r' Hj Hu) as [Hle Hlt].
  rewrite (prefix_full (RT_MASK (rt_entry r'))) in * by done; pose proof (prefix_range (RT_MASK (rt_entry r))).
  destruct (decide (j < i)%nat); [specialize (Hlt ltac:(done))|]; lia.
Qed.

(** An unused entry, a default route, and routes for 10.0.0.0/8 and 10.0.1.0/24: a datagram to 10.0.1.5 takes the
    third entry. *)
Lemma route_selection_witness :
  let unused := mk_route (mk_rtentry 0 0 0 [] 0) None in
  let default := mk_route (mk_rtentry 0 (10 + 2 ^ 25) 0 [] (RT_FLAGS_UP + RT_FLAGS_GW)) (Some 1) in
  let r8 := mk_route (mk_rtentry 10 0 255 [] RT_FLAGS_UP) (Some 2) in
  let r24 := mk_route (mk_rtentry (10 + 2 ^ 16) 0 (2 ^ 24 - 1) [] RT_FLAGS_UP) (Some 3) in
  let s := mk_net_state (fun _ => mk_nic 0 [] 0 0 1 1500 []) [] [unused; default; r8; r24] in
  let dst := 10 + 2 ^ 16 + 5 * 2 ^ 24 in
  usable s 0 dst default = true /\ usable s 0 dst r24 = true /\ ip_get_route s 0 dst = Some (2, dst) /\
  selected s 0 dst (routing_table s) 2 r8 /\ prefix r8 = 4.
Proof.
  intros unused default r8 r24 s dst; split; [done|]; split; [done|]; split; [done|].
  pose proof (route_selection s 0 dst) as H; change (ip_get_route s 0 dst) with (Some (2, dst)) in H.
  destruct H as (i & r & Hs & _ & _ & Hfirst).
  destruct (Hfirst 2%nat r8 eq_refl eq_refl eq_refl) as [Hi E].
  assert (i = 2%nat /\ r = r8) as [-> ->]; [|split; [exact Hs|exact E]].
  destruct Hs as (Hl & Hu & _); destruct i as [|[|[|i]]]; [..|lia]; cbn in Hl; injection Hl as <-; done.
Defined.

(** The longest prefix does not win: with a route for 10.0.0.0/8 in front of
    one for 10.0.1.0/24, a datagram to 10.0.1.5 takes the first one. *)
Theorem longest_prefix_loses :
  let r8 := mk_route (mk_rtentry 10 0 255 [] RT_FLAGS_UP) (Some 1) in
  let r24 := mk_route (mk_rtentry (10 + 2 ^ 16) 0 (2 ^ 24 - 1) [] RT_FLAGS_UP) (Some 2) in
  let s := mk_net_state (fun _ => mk_nic 0 [] 0 0 1 1500 []) [] [r8; r24] in
  usable s 0 (10 + 2 ^ 16 + 5 * 2 ^ 24) r24 = true /\
  ip_get_route s 0 (10 + 2 ^ 16 + 5 * 2 ^ 24) = Some (1, 10 + 2 ^ 16 + 5 * 2 ^ 24).
Proof. by vm_compute. Qed.

(** ** The routing table *)

(** Destinations are masked and direct routes have no gateway. *)
Definition route_ok (r : route_t) : Prop :=
  route_nic r <> None ->
  Z.land (RT_DST (rt_entry r)) (RT_MASK (rt_entry r)) = RT_DST (rt_entry r) /\
  (Z.land (rt_flags (rt_entry r)) RT_FLAGS_GW = 0 -> RT_GW (rt_entry r) = 0).

Definition table_ok (s : net_state) : Prop := Forall route_ok (routing_table s).

Lemma drop_ok f l : Forall route_ok l -> Forall route_ok ((fun r => if f r : bool then drop_route r else r) <$> l).
Proof. intros H; apply Forall_fmap; revert H; apply Forall_impl; intros r Hr; cbn; destruct (f r); [by intros []|done]. Qed.

Lemma ip_del_route_ok s rt : table_ok s -> table_ok (ip_del_route s rt).1.
Proof. intros H; unfold ip_del_route; destruct (net_if_get_nic_by_name _ _); [by apply drop_ok|done]. Qed.

Lemma ip_purge_nic_ok s nic : table_ok s -> table_ok (ip_purge_nic s nic).
Proof. intros H; by apply (drop_ok (fun r => bool_decide (route_nic r = Some nic))). Qed.

Lemma ip_add_route_ok s rt : table_ok s -> table_ok (ip_add_route s rt).1.
Proof.
  intros H; unfold ip_add_route; destruct (net_if_get_nic_by_name _ _); [|done].
  pose proof (ip_del_route_ok s rt H) as H'; destruct (list_find _ _) as [[i r]|]; [|done].
  apply Forall_insert; [done|]; intros _; cbn; split.
  - by rewrite <- Z.land_assoc, Z.land_diag.
  - by intros ->.
Qed.

Lemma set_nics_ok f s : table_ok s -> table_ok (set_nics f s).
Proof. done. Qed.

Lemma setup_if_ok gw s nic addr netmask : table_ok s -> table_ok (setup_if gw s nic addr netmask).1.
Proof. intros H; unfold setup_if; case_test; [done|by apply ip_add_route_ok]. Qed.

Lemma purge_if_ok s (b : bool) nic : table_ok s -> table_ok (if b then s else ip_purge_nic s nic).
Proof. intros; destruct b; auto using ip_purge_nic_ok. Qed.

(** Operations that change the state. *)
Inductive net_op :=
  | AddRoute (rt : rtentry) | DelRoute (rt : rtentry) | PurgeNic (nic : Z)
  | AddNic (nic : Z) (ops : option bool) | SetAddr (gw : Z) (ifr : ifreq) | SetNetmask (gw : Z) (ifr : ifreq).

Definition run_op (s : net_state) (op : net_op) : net_state :=
  match op with
  | AddRoute rt => (ip_add_route s rt).1
  | DelRoute rt => (ip_del_route s rt).1
  | PurgeNic nic => ip_purge_nic s nic
  | AddNic nic ops => net_if_add_nic s nic ops
  | SetAddr gw ifr => (net_if_set_addr gw s ifr).1
  | SetNetmask gw ifr => (net_if_set_netmask gw s ifr).1
  end.

Lemma run_op_ok s op : table_ok s -> table_ok (run_op s op).
Proof.
  intros H; destruct op; cbn [run_op]; auto using ip_add_route_ok, ip_del_route_ok, ip_purge_nic_ok.
  - unfold net_if_add_nic, set_nic_name; case_test; cbn [Z.eqb Pos.eqb]; [done|].
    by destruct (list_find _ _) as [[? ?]|].
  - unfold net_if_set_addr; destruct (net_if_get_nic_by_name _ _); [|done].
    destruct (negb _); [done|]; by apply setup_if_ok, purge_if_ok.
  - unfold net_if_set_netmask; destruct (net_if_get_nic_by_name _ _); [|done].
    destruct (negb _); [done|]; by apply setup_if_ok, purge_if_ok.
Qed.

(** A route that was added is in the table. *)
Lemma ip_add_route_in s rt :
  (ip_add_route s rt).2 = 0 ->
  exists nic r, r ∈ routing_table (ip_add_route s rt).1 /\ route_nic r = Some nic /\
    RT_DST (rt_entry r) = Z.land (RT_DST rt) (RT_MASK rt) /\ RT_MASK (rt_entry r) = RT_MASK rt.
Proof.
  unfold ip_add_route; destruct (net_if_get_nic_by_name _ _) as [nic|]; [|done].
  destruct (list_find _ _) as [[i r]|] eqn:E; [|done]; intros _.
  apply list_find_Some in E as (Hi & _ & _); apply lookup_lt_Some in Hi.
  eexists nic, _; split; [apply list_elem_of_lookup; exists i; by apply list_lookup_insert_eq|done].
Qed.

(** Lookups by name do not depend on addresses. *)
Lemma find_nic_ext p q l : (forall n, p n = q n) -> find_nic p l = find_nic q l.
Proof. intros E; induction l as [|e l IH]; [done|]; cbn; destruct (entry_nic e); [rewrite E|]; by rewrite IH. Qed.

Lemma by_name_ext s s' name :
  registered_nics s' = registered_nics s -> (forall n, nic_name (nics s' n) = nic_name (nics s n)) ->
  net_if_get_nic_by_name s' name = net_if_get_nic_by_name s name.
Proof. intros Er En; unfold net_if_get_nic_by_name; rewrite Er; apply find_nic_ext; intros; by rewrite En. Qed.

Lemma ip_add_route_keeps s rt :
  nics (ip_add_route s rt).1 = nics s /\ registered_nics (ip_add_route s rt).1 = registered_nics s.
Proof.
  unfold ip_add_route, ip_del_route; destruct (net_if_get_nic_by_name _ _); [|done]; by destruct (list_find _ _) as [[? ?]|].
Qed.

Lemma setup_if_keeps gw s nic addr netmask :
  addr <> 0 ->
  let s' := (setup_if gw s nic addr netmask).1 in
  nics s' = <[nic := set_addr addr netmask 1 (nics s nic)]> (nics s) /\ registered_nics s' = registered_nics s.
Proof. intros Ha s'; unfold s', setup_if; case_test; [done|]; by destruct (ip_add_route_keeps (set_nics
  (<[nic := set_addr addr netmask 1 (nics s nic)]> (nics s)) s)
  (mk_rtentry (Z.land netmask addr) gw netmask
    (nic_name (nics (set_nics (<[nic := set_addr addr netmask 1 (nics s nic)]> (nics s)) s) nic)) RT_FLAGS_UP)). Qed.

(** Configuring an interface works: if [net_if_set_addr] succeeds for an
    address other than 0.0.0.0, reading the address back gives it, the netmask is
    the one of the address class, and every destination of the network has a
    route.  An unknown name or another address family is refused and changes
    nothing.  Whatever sequence of operations led to the table, destinations are
    masked and direct routes have no gateway. *)
Theorem set_addr_correct gw s0 ops ifr :
  table_ok s0 ->
  let s := fold_left run_op ops s0 in
  let '(s', rc) := net_if_set_addr gw s ifr in
  table_ok s' /\
  (rc = 0 -> s_addr ifr <> 0 ->
   net_if_get_addr s' ifr = (mk_ifreq (ifrn_name ifr) AF_INET (s_addr ifr), 0) /\
   net_if_get_netmask s' ifr = (mk_ifreq (ifrn_name ifr) AF_INET (get_default_netmask (s_addr ifr)), 0) /\
   forall dst, Z.land (get_default_netmask (s_addr ifr)) dst = Z.land (get_default_netmask (s_addr ifr)) (s_addr ifr) ->
     ip_get_route s' 0 dst <> None) /\
  (net_if_get_nic_by_name s (ifrn_name ifr) = None \/ sin_family ifr <> AF_INET -> s' = s /\ rc < 0).
Proof.
  intros H0 s; assert (Hs : table_ok s).
  { unfold s; clearbody s; clear s; revert s0 H0; induction ops as [|op ops IH]; intros s0 H0; cbn; auto using run_op_ok. }
  clearbody s; pose proof (run_op_ok s (SetAddr gw ifr) Hs) as Hok; cbn [run_op] in Hok.
  destruct (net_if_set_addr gw s ifr) as [s' rc] eqn:E; cbn [fst] in Hok; split; [done|]; unfold net_if_set_addr in E.
  destruct (net_if_get_nic_by_name s (ifrn_name ifr)) as [nic|] eqn:En; [|by injection E as <- <-].
  destruct (Z.eqb_spec (sin_family ifr) AF_INET) as [Ef|Ef]; cbn [negb] in E; [|by injection E as <- <-].
  split; [|intros [?|?]; done]; intros -> Ha.
  set (s1 := if ip_addr_assigned (nics s nic) =? 0 then s else ip_purge_nic s nic) in E.
  assert (E1 : nics s1 = nics s /\ registered_nics s1 = registered_nics s) by (unfold s1; by case_test).
  destruct (setup_if_keeps gw s1 nic (s_addr ifr) (get_default_netmask (s_addr ifr)) Ha) as [Ek1 Ek2].
  rewrite E in Ek1, Ek2; cbn [fst] in Ek1, Ek2; destruct E1 as [E1 E2]; rewrite E1 in Ek1; rewrite E2 in Ek2.
  assert (Hn : net_if_get_nic_by_name s' (ifrn_name ifr) = Some nic).
  { rewrite <- En; apply by_name_ext; [done|]; intros n; rewrite Ek1.
    destruct (decide (n = nic)) as [->|]; [by rewrite fn_lookup_insert|by rewrite fn_lookup_insert_ne]. }
  unfold net_if_get_addr, net_if_get_netmask; rewrite Hn, Ek1, fn_lookup_insert; split; [done|split; [done|]].
  intros dst Hd Hr; pose proof (get_route_spec s' 0 dst) as G; rewrite Hr in G.
  unfold setup_if in E; rewrite (proj2 (Z.eqb_neq (s_addr ifr) 0)) in E by done.
  match type of E with ip_add_route ?a ?b = _ =>
    destruct (ip_add_route_in a b) as (n & r & Hin & Hrn & Hdst & Hmask); [by rewrite E|] end.
  rewrite E in Hin; specialize (G r Hin); unfold usable in G; rewrite Hrn, Hmask, Hdst in G; cbn in G.
  rewrite Hd, (Z.land_comm _ (get_default_netmask _)), Z.land_assoc, Z.land_diag, Z.eqb_refl in G; done.
Qed.

(** One card, eth0, and an empty table of four entries; the address 10.0.2.20. *)
Definition example_host : net_state :=
  mk_net_state (fun _ => mk_nic 0 [] 0 0 0 1500 [101; 116; 104; 48]) [mk_nic_entry (Some 1) (Some true)]
    (replicate 4 (mk_route (mk_rtentry 0 0 0 [] 0) None)).

Definition example_ifr : ifreq := mk_ifreq [101; 116; 104; 48] AF_INET (10 + 2 * 2 ^ 16 + 20 * 2 ^ 24).

Lemma set_addr_correct_witness :
  let s' := (net_if_set_addr 77 example_host example_ifr).1 in
  (net_if_set_addr 77 example_host example_ifr).2 = 0 /\ ip_get_route s' 0 (10 + 7 * 2 ^ 16) <> None.
Proof.
  assert (E : exists s', net_if_set_addr 77 example_host example_ifr = (s', 0)) by (by eexists; vm_compute).
  destruct E as [s' E]; rewrite E; cbn [fst snd]; split; [done|].
  pose proof (set_addr_correct 77 example_host [] example_ifr) as H; cbn [fold_left] in H; rewrite E in H.
  apply H; [|done|by vm_compute|by vm_compute].
  unfold table_ok, example_host; cbn [routing_table]; apply Forall_replicate; by intros [].
Defined.
