(* ===== verification/Ip.v ===== *)
(** * The Internet protocol ([kernel/ip.c])

    Reassembly of fragments with the hole list of RFC 815, reception and
    transmission of datagrams, and the routing table. *)

From S2P Require Import Prelude Errors Memory Net NetIf.

(** ** Header ([ip_hdr_t])

    The offsets of the fields; 16-bit fields are in network byte order. *)
Definition o_version : Z := 0.
Definition o_priority : Z := 1.
Definition o_length : Z := 2.
Definition o_id : Z := 4.
Definition o_flags : Z := 6.
Definition o_ttl : Z := 8.
Definition o_proto : Z := 9.
Definition o_checksum : Z := 10.
Definition o_ip_src : Z := 12.
Definition o_ip_dest : Z := 16.
Definition sizeof_ip_hdr : Z := 20.

Definition IP_FRAGMENT_MAX_SIZE : Z := 65515.
Definition HOLE_INF : Z := IP_FRAGMENT_MAX_SIZE - 1.
Definition NR_REASSEMBLY_SLOTS : Z := 16.
Definition REASSEMBLY_TIMEOUT : Z := 15.
Definition IP_PROTO_ICMP : Z := 1.
Definition IP_PROTO_UDP : Z := 17.
Definition IP_PROTO_TCP : Z := 6.
Definition IP_DEFAULT_TTL : Z := 64.
Definition IPV4_VERSION : Z := 4.
Definition IPV4_HDR_LENGTH : Z := 5.

Module Reassembly.

(** ** Reassembly slots ([reassembly_slot_t])

    The two pointers to holes are offsets in the buffer.  [buffer] is the memory
    from the start of the datagram buffer on: the structure continues behind the
    buffer with [payload_length], [used] and [timeout]. *)
Record reassembly_slot_t := mk_slot {
  hole_list_head : option Z;
  hole_list_tail : option Z;
  slot_ip_src : Z;
  slot_ip_dst : Z;
  slot_id : Z;
  slot_ip_proto : Z;
  buffer : mem;
}.

Definition set_head (h : option Z) (s : reassembly_slot_t) : reassembly_slot_t :=
  mk_slot h (hole_list_tail s) (slot_ip_src s) (slot_ip_dst s) (slot_id s) (slot_ip_proto s) (buffer s).
Definition set_tail (t : option Z) (s : reassembly_slot_t) : reassembly_slot_t :=
  mk_slot (hole_list_head s) t (slot_ip_src s) (slot_ip_dst s) (slot_id s) (slot_ip_proto s) (buffer s).
Definition set_buffer (b : mem) (s : reassembly_slot_t) : reassembly_slot_t :=
  mk_slot (hole_list_head s) (hole_list_tail s) (slot_ip_src s) (slot_ip_dst s) (slot_id s) (slot_ip_proto s) b.

Definition o_payload_length : Z := IP_FRAGMENT_MAX_SIZE.
Definition o_used : Z := IP_FRAGMENT_MAX_SIZE + 4.
Definition o_timeout : Z := IP_FRAGMENT_MAX_SIZE + 8.

Definition payload_length (s : reassembly_slot_t) : Z := load32 (buffer s) o_payload_length.
Definition used (s : reassembly_slot_t) : Z := load32 (buffer s) o_used.
Definition timeout (s : reassembly_slot_t) : Z := load32 (buffer s) o_timeout.
Definition set_payload_length (v : Z) (s : reassembly_slot_t) : reassembly_slot_t :=
  set_buffer (store32 (buffer s) o_payload_length v) s.
Definition set_used (v : Z) (s : reassembly_slot_t) : reassembly_slot_t :=
  set_buffer (store32 (buffer s) o_used v) s.
Definition set_timeout (v : Z) (s : reassembly_slot_t) : reassembly_slot_t :=
  set_buffer (store32 (buffer s) o_timeout v) s.

(** A hole ([hole_t]) is stored in the buffer at its own first octet. *)
Definition hole_first (b : mem) (h : Z) : Z := load16 b h.
Definition hole_last (b : mem) (h : Z) : Z := load16 b (h + 2).
Definition hole_prev (b : mem) (h : Z) : Z := load16 b (h + 4).
Definition hole_next (b : mem) (h : Z) : Z := load16 b (h + 6).
Definition set_hole_first (b : mem) (h v : Z) : mem := store16 b h v.
Definition set_hole_last (b : mem) (h v : Z) : mem := store16 b (h + 2) v.
Definition set_hole_prev (b : mem) (h v : Z) : mem := store16 b (h + 4) v.
Definition set_hole_next (b : mem) (h v : Z) : mem := store16 b (h + 6) v.

Definition remove_hole (slot : reassembly_slot_t) (hole : Z) : reassembly_slot_t :=
  let prev_hole := if decide (Some hole = hole_list_head slot) then None
                   else Some (hole_prev (buffer slot) hole) in
  let next_hole := if decide (Some hole = hole_list_tail slot) then None
                   else Some (hole_next (buffer slot) hole) in
  let slot := match next_hole, prev_hole with
              | Some n, Some p => set_buffer (set_hole_prev (buffer slot) n p) slot
              | _, _ => slot
              end in
  let slot := match prev_hole, next_hole with
              | Some p, Some n => set_buffer (set_hole_next (buffer slot) p n) slot
              | _, _ => slot
              end in
  let slot := if decide (Some hole = hole_list_head slot) then set_head next_hole slot else slot in
  if decide (Some hole = hole_list_tail slot) then set_tail prev_hole slot else slot.

Definition add_hole (slot : reassembly_slot_t) (first last : Z) : reassembly_slot_t :=
  let new_hole := first in
  let b := set_hole_first (buffer slot) new_hole first in
  let b := set_hole_last b new_hole last in
  let b := set_hole_prev b new_hole 0 in
  let slot := match hole_list_head slot with
              | Some h => set_buffer (set_hole_prev (set_hole_next b new_hole h) h first) slot
              | None => set_tail (Some new_hole) (set_buffer b slot)
              end in
  set_head (Some new_hole) slot.

(** [ip_hdr] is the address of the header in memory [m]. *)
Definition init_slot (slot : reassembly_slot_t) (m : mem) (ip_hdr : Z) : reassembly_slot_t :=
  let slot := set_used 1 slot in
  let slot := mk_slot None None (load32 m (ip_hdr + o_ip_src)) (load32 m (ip_hdr + o_ip_dest))
                (load16 m (ip_hdr + o_id)) (load8 m (ip_hdr + o_proto)) (buffer slot) in
  let slot := set_payload_length 0 slot in
  let slot := set_timeout REASSEMBLY_TIMEOUT slot in
  add_hole slot 0 HOLE_INF.

(** The header of the reassembled datagram, written at [h] of memory [r], before
    the checksum and with it. *)
Definition final_fields (r : mem) (h : Z) (slot : reassembly_slot_t) (m : mem) (ip_hdr : Z) : mem :=
  let r := store16 r (h + o_checksum) 0 in
  let r := store16 r (h + o_flags) 0 in
  let r := store16 r (h + o_id) (load16 m (ip_hdr + o_id)) in
  let r := store32 r (h + o_ip_dest) (load32 m (ip_hdr + o_ip_dest)) in
  let r := store32 r (h + o_ip_src) (load32 m (ip_hdr + o_ip_src)) in
  let r := store16 r (h + o_length) (ntohs (u16 (payload_length slot + sizeof_ip_hdr))) in
  let r := store8 r (h + o_priority) (load8 m (ip_hdr + o_priority)) in
  let r := store8 r (h + o_proto) (load8 m (ip_hdr + o_proto)) in
  let r := store8 r (h + o_ttl) (load8 m (ip_hdr + o_ttl)) in
  store8 r (h + o_version) (load8 m (ip_hdr + o_version)).

Definition final_header (r : mem) (h : Z) (slot : reassembly_slot_t) (m : mem) (ip_hdr : Z) : mem :=
  let r := final_fields r h slot m ip_hdr in
  store16 r (h + o_checksum) (ntohs (net_compute_checksum r h sizeof_ip_hdr)).

Definition build_final_msg (kmalloc : option net_msg_t) (slot : reassembly_slot_t) (m : mem) (hdr : Z)
    : res (option net_msg_t) :=
  match net_msg_new kmalloc (payload_length slot) with
  | None => Ok None
  | Some result =>
      '(result_ip_hdr, result) ← kassert (net_msg_prepend result sizeof_ip_hdr);
      let result := set_bytes (final_header (bytes result) result_ip_hdr slot m hdr) result in
      '(ip_payload, result) ← kassert (net_msg_append result (payload_length slot));
      let result := set_bytes (blit (bytes result) ip_payload (buffer slot) 0 (payload_length slot)) result in
      let result := set_ip_dest (slot_ip_dst slot) result in
      let result := set_ip_src (slot_ip_src slot) result in
      let result := set_ip_hdr result_ip_hdr result in
      let result := set_ip_length (u16 (payload_length slot)) result in
      let result := set_ip_proto (slot_ip_proto slot) result in
      Ok (Some (set_nic None result))
  end.

(** The two parts of the flags field. *)
Definition fragment_offset (flags : Z) : Z := Z.land flags (Z.shiftl 1 13 - 1) * 8.
Definition more_fragments (flags : Z) : Z := Z.land (Z.shiftr flags 13) 1.

(** The loop over the slots: the slot of the datagram, or the last unused one
    seen before. *)
Fixpoint find_slot (slots : list reassembly_slot_t) (m : mem) (ip_hdr : Z) (i : nat) (unused : option nat)
    : option nat * option nat :=
  match slots with
  | [] => (None, unused)
  | slot :: slots =>
      if (load32 m (ip_hdr + o_ip_dest) =? slot_ip_dst slot) && (load32 m (ip_hdr + o_ip_src) =? slot_ip_src slot)
         && (load16 m (ip_hdr + o_id) =? slot_id slot) && (load8 m (ip_hdr + o_proto) =? slot_ip_proto slot)
         && (used slot =? 1)
      then (Some i, unused)
      else find_slot slots m ip_hdr (S i) (if used slot =? 0 then Some i else unused)
  end.

(** One round of the loop over the holes; [from] is the address of the payload. *)
Definition fill_hole (m : mem) (from fragment_first fragment_last mf : Z)
    (st : option Z * reassembly_slot_t) : (option Z * reassembly_slot_t) + reassembly_slot_t :=
  let '(hole, slot) := st in
  match hole with
  | None => inr slot
  | Some hole =>
      let next := if decide (Some hole = hole_list_tail slot) then None
                  else Some (hole_next (buffer slot) hole) in
      if (hole_last (buffer slot) hole <? fragment_first) || (fragment_last <? hole_first (buffer slot) hole)
      then inl (next, slot)
      else
        let old_last := hole_last (buffer slot) hole in
        let slot := if hole_first (buffer slot) hole <? fragment_first
                    then set_buffer (set_hole_last (buffer slot) hole (u16 (fragment_first - 1))) slot
                    else remove_hole slot hole in
        let slot := if (fragment_last <? old_last) && (mf =? 1)
                    then add_hole slot (u16 (fragment_last + 1)) old_last else slot in
        let slot := if payload_length slot <? u32 (fragment_last + 1)
                    then set_payload_length (u32 (fragment_last + 1)) slot else slot in
        let slot := set_buffer (blit (buffer slot) fragment_first m from
                                  (u32 (fragment_last - fragment_first + 1))) slot in
        inl (next, slot)
  end.

(** A buffer holds at most 2^16 holes. *)
Definition hole_fuel : nat := Z.to_nat (2 ^ 16).

(** The slots afterwards, the message returned, and whether the argument was
    destroyed. *)
Definition ip_reassembly (kmalloc : option net_msg_t) (slots : list reassembly_slot_t) (net_msg : net_msg_t)
    : res (list reassembly_slot_t * option net_msg_t * bool) :=
  let m := bytes net_msg in
  let hdr := ip_hdr net_msg in
  let flags := ntohs (load16 m (hdr + o_flags)) in
  let offset := fragment_offset flags in
  let mf := more_fragments flags in
  if (mf =? 0) && (offset =? 0) then Ok (slots, Some net_msg, false)
  else
    let '(found, unused) := find_slot slots m hdr 0 None in
    match
      match found with
      | Some i => slot ← slots !! i; Some (i, slot)
      | None => i ← unused; slot ← slots !! i; Some (i, init_slot slot m hdr)
      end
    with
    | None => Ok (slots, None, true)
    | Some (i, slot) =>
        let fragment_first := offset in
        let fragment_last := u32 (offset + ntohs (load16 m (hdr + o_length)) - sizeof_ip_hdr - 1) in
        if IP_FRAGMENT_MAX_SIZE - 1 <? fragment_last then Ok (<[i := slot]> slots, None, true)
        else
          match loop hole_fuel (fill_hole m (hdr + sizeof_ip_hdr) fragment_first fragment_last mf)
                  (hole_list_head slot, slot) with
          | None => Hang
          | Some slot =>
              match hole_list_head slot with
              | Some _ => Ok (<[i := slot]> slots, None, true)
              | None =>
                  let slot := set_used 0 slot in
                  result ← build_final_msg kmalloc slot m hdr;
                  Ok (<[i := slot]> slots, result, true)
              end
          end
    end.

(** The timer. *)
Definition slot_tick (slot : reassembly_slot_t) : reassembly_slot_t :=
  if used slot =? 0 then slot
  else
    let slot := if 0 <? s32 (timeout slot) then set_timeout (u32 (timeout slot - 1)) slot else slot in
    if timeout slot =? 0 then set_used 0 slot else slot.

Definition ip_do_tick (slots : list reassembly_slot_t) : list reassembly_slot_t := slot_tick <$> slots.

End Reassembly.

(** ** Transmission *)

Module Transmit.

Definition ETHERTYPE_IP : Z := 2048.

(** The counter for identifications, the entries put into the work queue of the
    IP layer, and the numbers of messages created and destroyed. *)
Record tx_state := mk_tx {
  next_id : Z;
  queue : list net_msg_t;
  created : Z;
  destroyed : Z;
}.

Definition enqueue (m : net_msg_t) (t : tx_state) : tx_state :=
  mk_tx (next_id t) (queue t ++ [m]) (created t) (destroyed t).
Definition msg_created (t : tx_state) : tx_state :=
  mk_tx (next_id t) (queue t) (u32 (created t + 1)) (destroyed t).
Definition msg_destroyed (t : tx_state) : tx_state :=
  mk_tx (next_id t) (queue t) (created t) (u32 (destroyed t + 1)).

Definition get_id (t : tx_state) : Z * tx_state :=
  let id := if next_id t =? 0 then u32 (next_id t + 1) else next_id t in
  (id, mk_tx (u32 (id + 1)) (queue t) (created t) (destroyed t)).

(** The header of a datagram, at [h] of memory [m]. *)
Definition fill_header (m : mem) (h ip_df ip_dest ip_src size ip_proto : Z) : mem :=
  let m := store16 m (h + o_checksum) 0 in
  let m := store16 m (h + o_flags) (ntohs (u16 (Z.shiftl ip_df 14))) in
  let m := store16 m (h + o_id) 0 in
  let m := store32 m (h + o_ip_dest) ip_dest in
  let m := store32 m (h + o_ip_src) ip_src in
  let m := store16 m (h + o_length) (htons (u16 size)) in
  let m := store8 m (h + o_priority) 0 in
  let m := store8 m (h + o_proto) ip_proto in
  let m := store8 m (h + o_ttl) IP_DEFAULT_TTL in
  store8 m (h + o_version) (Z.shiftl IPV4_VERSION 4 + IPV4_HDR_LENGTH).

(** Stores 16 bits at an offset of the IP header of a message. *)
Definition hdr_store16 (msg : net_msg_t) (o v : Z) : net_msg_t :=
  set_bytes (store16 (bytes msg) (ip_hdr msg + o) v) msg.

(** The length of the payload of the next fragment. *)
Definition fragment_length (mtu data_bytes bytes_sent : Z) : Z :=
  let l := u32 (Z.min (u32 mtu) (u32 (data_bytes - bytes_sent + sizeof_ip_hdr)) - sizeof_ip_hdr) in
  if u32 (bytes_sent + l) <? data_bytes then Z.shiftl (Z.shiftr l 3) 3 else l.

(** The part of the message that goes into a fragment: the working copy is cut
    off and, except for the first fragment, filled from the original message. *)
Definition cut_fragment (orig : option net_msg_t) (msg : net_msg_t) (fragment offset l : Z) : net_msg_t :=
  let msg := net_msg_cut_off msg (l + sizeof_ip_hdr) in
  let msg := hdr_store16 msg o_length (htons (u16 (l + sizeof_ip_hdr))) in
  if fragment =? 0 then msg
  else match orig with
       | Some o => set_bytes (blit (bytes msg) (start msg + sizeof_ip_hdr) (bytes o)
                                (start o + sizeof_ip_hdr + offset) l) msg
       | None => msg
       end.

(** The checksum and the next hop, before the message is queued. *)
Definition finish (msg : net_msg_t) (next_hop : Z) : net_msg_t :=
  let chksum := net_compute_checksum (bytes msg) (ip_hdr msg) (4 * 5) in
  set_ip_dest next_hop (hdr_store16 msg o_checksum (htons chksum)).

Section tx.
(** What the allocations for the clone number [k] return (number 0 is the copy of
    the original message), and whether the work queue accepts fragment [k]. *)
Context (kmalloc : Z -> option net_msg_t) (wq_schedule : Z -> bool).
Context (mtu data_bytes next_hop : Z) (do_fragment : bool) (orig : option net_msg_t).

(** State of the loop: bytes sent, number of the fragment, identification,
    working copy. *)
Definition tx_loop_state : Type := Z * Z * Z * net_msg_t * tx_state.

(** The working copy of a fragment. *)
Definition working_copy (fragment : Z) (msg : net_msg_t) (t : tx_state) : res (option net_msg_t * tx_state) :=
  if do_fragment && negb (fragment =? 0) then
    o ← deref orig;
    match net_msg_clone (kmalloc fragment) o with
    | Some c => Ok (Some c, msg_created t)
    | None => Ok (None, msg_destroyed t)
    end
  else Ok (Some msg, t).

Definition tx_step (st : tx_loop_state) : tx_loop_state + res (Z * tx_state) :=
  let '(bytes_sent, fragment, id, msg, t) := st in
  if bytes_sent <? data_bytes then
    match working_copy fragment msg t with
    | Ok (Some msg, t) =>
        let offset := bytes_sent in
        let l := if do_fragment then fragment_length mtu data_bytes bytes_sent else data_bytes in
        let msg := if do_fragment then cut_fragment orig msg fragment offset l else msg in
        let bytes_sent := u32 (bytes_sent + l) in
        let '(id, t) := if do_fragment && (fragment =? 0) then get_id t else (id, t) in
        let mf := if bytes_sent <? data_bytes then 1 else 0 in
        let msg := if do_fragment
                   then hdr_store16 (hdr_store16 msg o_id (htons (u16 id))) o_flags
                          (htons (u16 (Z.shiftl mf 13 + offset / 8)))
                   else msg in
        let msg := finish msg next_hop in
        let t := if wq_schedule fragment then enqueue msg t else msg_destroyed t in
        let t := if do_fragment && (bytes_sent =? data_bytes) && bool_decide (is_Some orig)
                 then msg_destroyed t else t in
        inl (bytes_sent, fragment + 1, id, msg, t)
    | Ok (None, t) => inr (Ok (- ENOMEM, t))
    | Panic => inr Panic
    | Fault => inr Fault
    | Hang => inr Hang
    end
  else inr (Ok (0, t)).

End tx.

Definition ip_tx_msg (kmalloc : Z -> option net_msg_t) (wq_schedule : Z -> bool) (s : net_state)
    (msg : net_msg_t) (t : tx_state) : res (Z * tx_state) :=
  match ip_get_route s (ip_src msg) (ip_dest msg) with
  | None => Ok (- ENETUNREACH, msg_destroyed t)
  | Some (n, next_hop) =>
      let msg := set_nic (Some n) msg in
      let mtu := mtu (nics s n) in
      let do_fragment := u32 mtu <? u32 (net_msg_get_size msg + sizeof_ip_hdr) in
      if negb (ip_df msg =? 0) && do_fragment then Ok (- EMSGSIZE, msg_destroyed t)
      else
        let msg := set_ethertype (htons ETHERTYPE_IP) msg in
        let data_bytes := net_msg_get_size msg in
        '(h, msg) ← kassert (net_msg_prepend msg sizeof_ip_hdr);
        let msg := set_ip_hdr h msg in
        let src := if ip_src msg =? 0 then nic_ip_addr (nics s n) else ip_src msg in
        let msg := set_bytes (fill_header (bytes msg) h (ip_df msg) (ip_dest msg) src (net_msg_get_size msg)
                                (ip_proto msg)) msg in
        let orig := if do_fragment then net_msg_clone (kmalloc 0) msg else None in
        let t := if bool_decide (is_Some orig) then msg_created t else t in
        match loop (Z.to_nat (data_bytes + 1)) (tx_step kmalloc wq_schedule mtu data_bytes next_hop do_fragment orig)
                (0, 0, 0, msg, t) with
        | Some r => r
        | None => Hang
        end
  end.

End Transmit.
