(* ===== verification/ReassemblyProofs.v ===== *)
(** * Correctness of IP reassembly

    The holes of a datagram form a doubly linked list inside the datagram buffer
    itself.  The first part relates that list to a list of intervals and gives
    what each list operation does to it; the second part maintains the invariant
    of a partly received datagram; the last part is the claims. *)

From S2P Require Import Prelude Memory Net NetProofs Ip.
Import Reassembly.

(** ** Lists of holes *)

(** A hole is the pair of its first and its last octet. *)
Abbreviation hole := (Z * Z)%type.

Section pairwise.
Context {A : Type} (R : A -> A -> Prop).

(** [R] between every element and the later ones. *)
Fixpoint pairwise (l : list A) : Prop :=
  match l with [] => True | x :: l => Forall (R x) l /\ pairwise l end.

Lemma pairwise_app l k :
  pairwise (l ++ k) <-> pairwise l /\ pairwise k /\ Forall (fun x => Forall (R x) k) l.
Proof.
  induction l as [|x l IH]; cbn; [intuition constructor|].
  rewrite Forall_app, list.Forall_cons, IH; tauto.
Qed.

(** An element of the middle is related to all the others. *)
Lemma pairwise_middle `{!Symmetric R} l x k : pairwise (l ++ x :: k) <-> pairwise (x :: l ++ k).
Proof.
  cbn; rewrite Forall_app, !pairwise_app; cbn; rewrite !list.Forall_forall; setoid_rewrite list.Forall_forall.
  setoid_rewrite elem_of_cons; split.
  - intros (Hl & [Hxk Hk] & H); split; [split|]; auto; intros y Hy; symmetry; auto.
  - intros ([Hxl Hxk] & Hl & Hk & H); split; [|split]; auto; intros y Hy z [->|Hz]; [symmetry|]; auto.
Qed.

End pairwise.

(** The memory of a hole's descriptor. *)
Definition desc (H : list hole) (x : Z) : Prop := exists h, h ∈ H /\ h.1 <= x < h.1 + 8.

Lemma desc_app H K x : desc (H ++ K) x <-> desc H x \/ desc K x.
Proof. unfold desc; setoid_rewrite elem_of_app; naive_solver. Qed.

Lemma desc_cons h H x : desc (h :: H) x <-> h.1 <= x < h.1 + 8 \/ desc H x.
Proof. unfold desc; setoid_rewrite elem_of_cons; naive_solver. Qed.

Lemma desc_nil x : ~ desc [] x.
Proof. intros (h & Hh & _); by apply elem_of_nil in Hh. Qed.

(** Descriptors that do not overlap, and that are inside the buffer. *)
Definition apart (h k : hole) : Prop := h.1 + 8 <= k.1 \/ k.1 + 8 <= h.1.
Definition inside (h : hole) : Prop :=
  0 <= h.1 /\ h.1 + 8 <= IP_FRAGMENT_MAX_SIZE /\ 0 <= h.2 <= HOLE_INF.

#[export] Instance apart_sym : Symmetric apart.
Proof. unfold apart; intros h k; lia. Qed.

(** The descriptor of a hole holds it; the descriptors are linked. *)
Definition stored (b : mem) (h : hole) : Prop := hole_first b h.1 = h.1 /\ hole_last b h.1 = h.2.

Fixpoint chain (b : mem) (H : list hole) : Prop :=
  match H with
  | h :: ((k :: _) as H') => (hole_next b h.1 = k.1 /\ hole_prev b k.1 = h.1) /\ chain b H'
  | _ => True
  end.

Record holes_at (s : reassembly_slot_t) (H : list hole) : Prop := {
  ha_head : hole_list_head s = fst <$> head H;
  ha_tail : hole_list_tail s = fst <$> list.last H;
  ha_stored : Forall (stored (buffer s)) H;
  ha_chain : chain (buffer s) H;
  ha_apart : pairwise apart H;
  ha_inside : Forall inside H;
}.

Ltac field := unfold stored, hole_first, hole_last, hole_prev, hole_next, set_hole_first, set_hole_last,
  set_hole_prev, set_hole_next in *.

Lemma chain_app b H K :
  chain b (H ++ K) <->
  chain b H /\ chain b K /\
  match list.last H, head K with
  | Some h, Some k => hole_next b h.1 = k.1 /\ hole_prev b k.1 = h.1
  | _, _ => True
  end.
Proof.
  induction H as [|h H IH]; [by cbn; destruct K; intuition|].
  destruct H as [|h' H]; [destruct K; cbn; tauto|].
  change (chain b ((h :: h' :: H) ++ K)) with
    ((hole_next b h.1 = h'.1 /\ hole_prev b h'.1 = h.1) /\ chain b ((h' :: H) ++ K)).
  rewrite IH; cbn [chain]; rewrite (last_cons h (h' :: H)).
  destruct (list.last (h' :: H)) eqn:E; [tauto|by apply last_None in E].
Qed.

(** The links only depend on the [next] fields of all but the last hole and on
    the [prev] fields of all but the first one. *)
Lemma chain_ext b b' H :
  (forall h K, H = K ++ [h] -> forall k, k ∈ K -> hole_next b' k.1 = hole_next b k.1) ->
  (forall h K, H = h :: K -> forall k, k ∈ K -> hole_prev b' k.1 = hole_prev b k.1) ->
  chain b H -> chain b' H.
Proof.
  induction H as [|h [|k H] IH]; [done..|]; intros En Ep [[E1 E2] Hc].
  destruct (exists_last (l := k :: H)) as (K & z & EK); [done|].
  split; [split|apply IH; auto].
  - rewrite (En z (h :: K)); [done|by rewrite EK|left].
  - rewrite (Ep h (k :: H)); [done|done|left].
  - intros z' K' E y Hy; apply (En z' (h :: K')); [by rewrite E|by right].
  - intros z' K' [= -> ->] y Hy; apply (Ep h (z' :: K')); [done|by right].
Qed.

(** Memory that agrees on the descriptors. *)
Lemma desc_ext b b' H :
  (forall x, desc H x -> b' x = b x) ->
  (Forall (stored b) H -> Forall (stored b') H) /\ (chain b H -> chain b' H).
Proof.
  intros E; assert (forall h, h ∈ H -> forall x, h.1 <= x < h.1 + 8 -> b' x = b x) as E' by (intros; apply E; by exists h).
  split.
  - rewrite !list.Forall_forall; intros Hs h Hh; specialize (Hs h Hh); field.
    rewrite !(load16_ext b b'); auto; intros; apply (E' h); auto; lia.
  - apply chain_ext; intros h K -> k Hk; field; apply load16_ext; intros; apply (E' k); try lia;
      [apply elem_of_app; by left|by right].
Qed.

Lemma holes_ext s s' H :
  hole_list_head s' = hole_list_head s -> hole_list_tail s' = hole_list_tail s ->
  (forall x, desc H x -> buffer s' x = buffer s x) -> holes_at s H -> holes_at s' H.
Proof. intros Eh Et E []; destruct (desc_ext _ _ _ E); split; rewrite ?Eh, ?Et; auto. Qed.

(** ** Removing a hole *)

(** What the list says about one of its holes. *)
Section middle.
Context (s : reassembly_slot_t) (H1 : list hole) (f l : Z) (H2 : list hole).
Hypothesis holes : holes_at s (H1 ++ (f, l) :: H2).

Lemma middle_apart : Forall (apart (f, l)) H1 /\ Forall (apart (f, l)) H2 /\ pairwise apart (H1 ++ H2).
Proof.
  destruct holes as [_ _ _ _ Ha _]; apply pairwise_middle in Ha; [|apply apart_sym].
  destruct Ha as [[? ?]%Forall_app ?]; auto.
Qed.

Lemma middle_inside : inside (f, l) /\ Forall inside (H1 ++ H2).
Proof.
  destruct holes as [_ _ _ _ _ Hi]; apply Forall_app in Hi as [? [? ?]%Forall_cons_1]; split; auto.
  by apply Forall_app.
Qed.

Lemma middle_fields : hole_first (buffer s) f = f /\ hole_last (buffer s) f = l.
Proof. destruct holes as [_ _ Hs _ _ _]; by apply Forall_app in Hs as [_ [Hs _]%Forall_cons_1]. Qed.

Lemma middle_head : Some f = hole_list_head s <-> H1 = [].
Proof.
  destruct middle_apart as [Ha _]; rewrite (ha_head _ _ holes).
  destruct H1 as [|[q lq] K]; [done|]; split; [cbn; intros [= ->]|done].
  apply Forall_cons_1 in Ha as [Ha _]; unfold apart in Ha; cbn in Ha; lia.
Qed.

Lemma middle_tail : Some f = hole_list_tail s <-> H2 = [].
Proof.
  destruct middle_apart as (_ & Ha & _); rewrite (ha_tail _ _ holes).
  destruct H2 as [|k K _] using rev_ind; [by rewrite last_snoc|]; rewrite app_comm_cons, app_assoc, last_snoc.
  split; [cbn; intros [= ->]|by destruct K].
  apply Forall_app in Ha as [_ [Ha _]%Forall_cons_1]; unfold apart in Ha; cbn in Ha; lia.
Qed.

Lemma middle_next r K : H2 = r :: K -> hole_next (buffer s) f = r.1.
Proof. intros ->; destruct holes as [_ _ _ Hs _ _]; apply chain_app in Hs as (_ & Hs & _); cbn in Hs; tauto. Qed.

Lemma middle_prev q K : H1 = K ++ [q] -> hole_prev (buffer s) f = q.1.
Proof.
  intros ->; destruct holes as [_ _ _ Hs _ _]; apply chain_app in Hs as (_ & _ & Hs).
  rewrite last_snoc in Hs; cbn in Hs; tauto.
Qed.

End middle.

(** The fields of a slot that identify the datagram. *)
Definition same_key (s s' : reassembly_slot_t) : Prop :=
  slot_ip_src s' = slot_ip_src s /\ slot_ip_dst s' = slot_ip_dst s /\
  slot_id s' = slot_id s /\ slot_ip_proto s' = slot_ip_proto s.

(** The four outcomes of [remove_hole]. *)
Lemma remove_hole_eq s f :
  remove_hole s f =
  match decide (Some f = hole_list_head s), decide (Some f = hole_list_tail s) with
  | left _, left _ => set_tail None (set_head None s)
  | left _, right _ => set_head (Some (hole_next (buffer s) f)) s
  | right _, left _ => set_tail (Some (hole_prev (buffer s) f)) s
  | right _, right _ =>
      let p := hole_prev (buffer s) f in let n := hole_next (buffer s) f in
      set_buffer (set_hole_next (set_hole_prev (buffer s) n p) p n) s
  end.
Proof. by unfold remove_hole; repeat (case_decide; cbn in *). Qed.

(** Removing an element of the middle keeps the ends that are not removed. *)
Lemma last_remove {A} (H1 : list A) h r M : list.last (H1 ++ h :: r :: M) = list.last (H1 ++ r :: M).
Proof. rewrite !last_app; cbn; by rewrite !last_cons; destruct (list.last M). Qed.

Lemma apart_elem h H k : Forall (apart h) H -> k ∈ H -> apart h k.
Proof. rewrite list.Forall_forall; auto. Qed.

(** Reads of a hole's fields after a store to another hole or another field. *)
Ltac other := field; rewrite ?load16_store16_other by (unfold apart in *; lia).

(** Linking the last hole [q] of a list to the first hole [r] of another one. *)
Definition relink (b : mem) (q r : hole) : mem := set_hole_next (set_hole_prev b r.1 q.1) q.1 r.1.

Lemma relink_stored b q r h :
  (h = q \/ apart q h) -> (h = r \/ apart r h) -> stored b h -> stored (relink b q r) h.
Proof. unfold relink, stored; intros [->|] [->|] [? ?]; split; other; auto. Qed.

Lemma chain_relink b K q r M :
  chain b (K ++ [q]) -> chain b (r :: M) -> pairwise apart ((K ++ [q]) ++ r :: M) ->
  inside q -> inside r -> chain (relink b q r) ((K ++ [q]) ++ r :: M).
Proof.
  intros Cq Cr Ha Iq Ir; unfold inside, IP_FRAGMENT_MAX_SIZE in *.
  assert (Aq : Forall (apart q) (K ++ r :: M)).
  { rewrite <- (app_assoc K [q]) in Ha; apply pairwise_middle in Ha; [apply Ha|apply apart_sym]. }
  assert (Ar : Forall (apart r) ((K ++ [q]) ++ M)).
  { apply pairwise_middle in Ha; [apply Ha|apply apart_sym]. }
  apply Forall_app in Aq as [AqK AqM], Ar as [ArK ArM].
  assert (Aqr : apart q r) by (by apply Forall_cons_1 in AqM as [? _]).
  apply chain_app; rewrite last_snoc; cbn [head]; split; [|split].
  - revert Cq; apply chain_ext; intros h L E k Hk.
    + apply app_inj_tail in E as [<- <-]; pose proof (apart_elem _ _ _ AqK Hk).
      assert (k ∈ K ++ [q]) as Hk' by (apply elem_of_app; by left).
      pose proof (apart_elem _ _ _ ArK Hk'); unfold relink; other; auto.
    + assert (k ∈ K ++ [q]) as Hk' by (rewrite E; by right).
      pose proof (apart_elem _ _ _ ArK Hk'); unfold relink; field.
      rewrite load16_store16_other; [by rewrite load16_store16_other by (unfold apart in *; lia)|].
      apply elem_of_app in Hk' as [Hk'|Hk']; [|apply list_elem_of_singleton in Hk' as ->; lia].
      pose proof (apart_elem _ _ _ AqK Hk'); unfold apart in *; lia.
  - revert Cr; apply chain_ext; intros h L E k Hk.
    + assert (k ∈ r :: M) as Hk' by (rewrite E; apply elem_of_app; by left).
      pose proof (apart_elem _ _ _ AqM Hk'); unfold relink; field.
      rewrite load16_store16_other by (unfold apart in *; lia); rewrite load16_store16_other; auto.
      apply elem_of_cons in Hk' as [->|Hk']; [lia|].
      pose proof (apart_elem _ _ _ ArM Hk'); unfold apart in *; lia.
    + injection E as <- <-; pose proof (apart_elem _ _ _ ArM Hk).
      pose proof (apart_elem _ _ _ AqM (list_elem_of_further _ _ _ Hk)); unfold relink; other; auto.
  - unfold relink; field; rewrite load16_store16_same by lia; split; [done|].
    rewrite load16_store16_other by (unfold apart in *; lia); apply load16_store16_same; lia.
Qed.

Lemma remove_hole_ok s H1 f l H2 :
  holes_at s (H1 ++ (f, l) :: H2) ->
  holes_at (remove_hole s f) (H1 ++ H2) /\ same_key s (remove_hole s f) /\
  forall x, ~ desc (H1 ++ H2) x -> buffer (remove_hole s f) x = buffer s x.
Proof.
  intros Hh; pose proof (middle_head _ _ _ _ _ Hh) as Ehd; pose proof (middle_tail _ _ _ _ _ Hh) as Etl.
  pose proof (middle_next _ _ _ _ _ Hh) as En; pose proof (middle_prev _ _ _ _ _ Hh) as Ep.
  destruct (middle_apart _ _ _ _ _ Hh) as (_ & _ & Ha), (middle_inside _ _ _ _ _ Hh) as [_ Hi].
  destruct Hh as [Hhd Htl [S1 [_ S2]%Forall_cons_1]%Forall_app Hc _ _].
  apply chain_app in Hc as (C1 & Hc & _).
  assert (C2 : chain (buffer s) H2) by (destruct H2; [done|]; cbn in Hc; tauto).
  rewrite remove_hole_eq; destruct (decide (Some f = hole_list_head s)) as [D|D],
    (decide (Some f = hole_list_tail s)) as [D'|D'].
  - apply Ehd in D as ->; apply Etl in D' as ->; repeat split; auto.
  - apply Ehd in D as ->; destruct H2 as [|r M]; [by destruct D'; apply Etl|].
    rewrite (En r M) by done; split; [|done]; split; auto.
  - apply Etl in D' as ->; destruct H1 as [|q K _] using rev_ind; [by destruct D; apply Ehd|].
    rewrite (Ep q K) by done; rewrite app_nil_r; split; [|done]; split; auto.
    + cbn; rewrite Hhd; by destruct K.
    + cbn; by rewrite last_snoc.
    + by rewrite app_nil_r in Ha.
    + by rewrite app_nil_r in Hi.
  - destruct H2 as [|r M]; [by destruct D'; apply Etl|].
    destruct H1 as [|q K _] using rev_ind; [by destruct D; apply Ehd|].
    rewrite (Ep q K), (En r M) by done; cbn zeta.
    fold (relink (buffer s) q r).
    assert (Iq : inside q) by (apply Forall_app in Hi as [[_ [? _]%Forall_cons_1]%Forall_app _]; auto).
    assert (Ir : inside r) by (apply Forall_app in Hi as [_ [? _]%Forall_cons_1]; auto).
    split; [split; auto|split; [done|]].
    + cbn; rewrite Hhd; by destruct K.
    + cbn [set_buffer hole_list_tail]; by rewrite Htl, last_remove.
    + apply list.Forall_forall; intros h Hm; apply relink_stored.
      * rewrite <- (app_assoc K [q]) in Ha, Hm; apply pairwise_middle in Ha as [Ha _]; [|apply apart_sym].
        apply elem_of_app in Hm as [Hm|[->|Hm]%elem_of_cons]; [right|by left|right];
          apply (apart_elem _ _ _ Ha), elem_of_app; auto.
      * apply pairwise_middle in Ha as [Ha _]; [|apply apart_sym].
        apply elem_of_app in Hm as [Hm|[->|Hm]%elem_of_cons]; [right|by left|right];
          apply (apart_elem _ _ _ Ha), elem_of_app; auto.
      * apply elem_of_app in Hm as [Hm|Hm]; [revert S1|revert S2]; rewrite list.Forall_forall; auto.
    + by apply chain_relink.
    + intros x Hx; unfold relink; field; cbn [set_buffer buffer].
      rewrite !store16_other; [done|intros ?; apply Hx; exists r|intros ?; apply Hx; exists q];
        (split; [rewrite !elem_of_app, !elem_of_cons; tauto|lia]).
Qed.

(** ** Adding and shortening a hole *)

Lemma add_hole_ok s H f l :
  holes_at s H -> Forall (apart (f, l)) H -> inside (f, l) ->
  holes_at (add_hole s f l) ((f, l) :: H) /\ same_key s (add_hole s f l) /\
  forall x, ~ desc ((f, l) :: H) x -> buffer (add_hole s f l) x = buffer s x.
Proof.
  intros [Hhd Htl Hs Hc Ha Hi] Hf Hin; unfold add_hole; rewrite Hhd.
  assert (In := Hin); unfold inside, IP_FRAGMENT_MAX_SIZE, HOLE_INF, IP_FRAGMENT_MAX_SIZE in In; cbn in In.
  destruct H as [|h H]; cbn [head fmap option_fmap option_map].
  - cbn; split; [split; cbn; auto|split; [done|]].
    + constructor; auto; split; field; cbn; rewrite ?load16_store16_other by lia; apply load16_store16_same; lia.
    + intros x Hx; field; rewrite !store16_other; auto; intros ?; apply Hx, desc_cons; left; cbn; lia.
  - assert (Ah := Hf); apply Forall_cons_1 in Ah as [Ah _]; unfold apart in Ah; cbn in Ah.
    assert (Ih : inside h) by (by apply Forall_cons_1 in Hi as [? _]); destruct Ih as (? & ? & ?).
    unfold IP_FRAGMENT_MAX_SIZE in *.
    set (b := set_hole_prev _ _ _).
    assert (Eb : forall x, ~ (f <= x < f + 8) -> ~ (h.1 + 4 <= x < h.1 + 6) -> b x = buffer s x).
    { intros x ??; unfold b; field; rewrite !store16_other; auto; lia. }
    assert (Ef : stored b (f, l) /\ hole_next b f = h.1).
    { unfold b; field; cbn [fst snd].
      split; [split|]; rewrite ?load16_store16_other by lia; apply load16_store16_same; lia. }
    assert (Eh : hole_prev b h.1 = f) by (unfold b; field; apply load16_store16_same; lia).
    assert (E' : forall k x, k ∈ h :: H -> k.1 <= x < k.1 + 8 -> ~ (h.1 + 4 <= x < h.1 + 6) -> b x = buffer s x).
    { intros k x Hk Hx; apply Eb; pose proof (apart_elem _ _ _ Hf Hk) as A; unfold apart in A; cbn in A; lia. }
    assert (AH : forall k, k ∈ H -> apart h k) by (destruct Ha as [Ha _]; intros; by eapply apart_elem).
    split; [split; cbn [set_head set_buffer hole_list_head hole_list_tail buffer]; auto|split; [done|]].
    + constructor; [apply Ef|]; rewrite list.Forall_forall in *; intros k Hk; destruct (Hs k Hk) as [E1 E2].
      apply elem_of_cons in Hk as Hk'; unfold apart in AH; destruct Hk' as [->|Hk'].
      * split; [rewrite <- E1 at 2|rewrite <- E2]; field; apply load16_ext; intros;
          apply (E' h); try lia; by left.
      * specialize (AH k Hk').
        split; [rewrite <- E1 at 2|rewrite <- E2]; field; apply load16_ext; intros; apply (E' k); try lia; auto.
    + split; [by rewrite Eh; destruct Ef|]; revert Hc; apply chain_ext; intros k L E y Hy.
      * assert (y ∈ h :: H) as Hy' by (rewrite E; apply elem_of_app; by left).
        field; apply load16_ext; intros; apply (E' y); try lia; auto.
        apply elem_of_cons in Hy' as [->|Hy']; [lia|]; specialize (AH y Hy'); unfold apart in AH; lia.
      * injection E as <- <-; specialize (AH y Hy); unfold apart in AH.
        field; apply load16_ext; intros; apply (E' y); try lia; by right.
    + done.
    + intros x Hx; apply Eb; intros ?; apply Hx; rewrite !desc_cons; [left; cbn|right; left]; lia.
Qed.

Lemma shorten_ok s H1 f l H2 l' :
  holes_at s (H1 ++ (f, l) :: H2) -> 0 <= l' <= HOLE_INF ->
  let s' := set_buffer (set_hole_last (buffer s) f l') s in
  holes_at s' (H1 ++ (f, l') :: H2) /\ same_key s s' /\
  forall x, ~ (f <= x < f + 8) -> buffer s' x = buffer s x.
Proof.
  intros Hh Hl' s'; destruct (middle_apart _ _ _ _ _ Hh) as (A1 & A2 & A), (middle_inside _ _ _ _ _ Hh) as [If Ii].
  destruct (middle_fields _ _ _ _ _ Hh) as [Ef _].
  unfold inside, HOLE_INF, IP_FRAGMENT_MAX_SIZE in *.
  assert (Eb : forall x, ~ (f + 2 <= x < f + 4) -> buffer s' x = buffer s x).
  { intros x Hx; cbn; field; apply store16_other; lia. }
  split; [|split; [done|intros; apply Eb; lia]].
  destruct Hh as [Hhd Htl [S1 [_ S2]%Forall_cons_1]%Forall_app Hc _ _]; split.
  - cbn; rewrite Hhd; by destruct H1.
  - cbn [s' set_buffer hole_list_tail]; rewrite Htl, !last_app; cbn; by rewrite !last_cons; destruct (list.last H2).
  - assert (forall h, Forall (stored (buffer s)) h -> Forall (apart (f, l)) h -> Forall (stored (buffer s')) h) as K.
    { intros h Hs Ha; revert Hs; apply desc_ext; intros x Hx; apply Eb.
      destruct Hx as (k & Hk & Hx); pose proof (apart_elem _ _ _ Ha Hk) as B; unfold apart in B; cbn in B; lia. }
    apply Forall_app; split; auto; constructor; auto; split; cbn [fst snd s' set_buffer buffer]; field.
    + by rewrite load16_store16_other by lia.
    + apply load16_store16_same; lia.
  - assert (chain (buffer s') (H1 ++ (f, l) :: H2)) as Hc'.
    { revert Hc; apply chain_ext; intros h K E k Hk.
      all: assert (k ∈ H1 ++ (f, l) :: H2) as Hk' by (rewrite E; rewrite ?elem_of_app, ?elem_of_cons; tauto).
      all: assert (k = (f, l) \/ apart (f, l) k) as [->|Hk2]
        by (apply elem_of_app in Hk' as [?|[->|?]%elem_of_cons]; eauto using apart_elem).
      all: unfold apart in *; cbn in *; field; apply load16_store16_other; lia. }
    revert Hc'; rewrite !chain_app; intros (? & ? & ?); split; [auto|split; [by destruct H2|auto]].
  - apply pairwise_middle; [apply apart_sym|]; split; auto; by apply Forall_app.
  - apply Forall_app in Ii as [? ?]; apply Forall_app; split; auto; constructor; auto; unfold inside, HOLE_INF, IP_FRAGMENT_MAX_SIZE; cbn [fst snd] in *; lia.
Qed.

(** ** The loop over the holes *)

(** The fragment from octet [o] to octet [e] meets a hole. *)
Definition overlaps (o e : Z) (h : hole) : Prop := o <= h.2 /\ h.1 <= e.

Lemma next_hole_ok s H1 f l H2 :
  holes_at s (H1 ++ (f, l) :: H2) ->
  (if decide (Some f = hole_list_tail s) then None else Some (hole_next (buffer s) f)) = fst <$> head H2.
Proof.
  intros Hh; pose proof (middle_tail _ _ _ _ _ Hh) as Et; destruct (decide _) as [D|D].
  - by apply Et in D as ->.
  - destruct H2 as [|r M]; [by destruct D; apply Et|]; cbn; by rewrite (middle_next _ _ _ _ _ Hh r M).
Qed.

Section walk.
Context (m : mem) (from o e mf : Z).

Lemma walk_skip s P H K fuel :
  holes_at s (P ++ H ++ K) -> Forall (fun h => ~ overlaps o e h) H ->
  loop (length H + fuel) (fill_hole m from o e mf) (fst <$> head (H ++ K), s) =
  loop fuel (fill_hole m from o e mf) (fst <$> head K, s).
Proof.
  revert P; induction H as [|[f l] H IH]; intros P Hh Ho; [done|].
  apply Forall_cons_1 in Ho as [Hf Ho]; unfold overlaps in Hf; cbn in Hf.
  cbn [length Nat.add loop app head fmap option_fmap option_map fst fill_hole].
  rewrite (next_hole_ok s P f l (H ++ K)) by auto.
  destruct (middle_fields s P f l (H ++ K)) as [-> ->]; [auto|].
  replace ((l <? o) || (e <? f)) with true by (symmetry; apply orb_true_iff; rewrite !Z.ltb_lt; lia).
  apply (IH (P ++ [(f, l)])); auto; by rewrite <- app_assoc.
Qed.

(** What receiving the fragment leaves of the hole [(f, l)] around it. *)
Definition right_part (l : Z) : list hole := if (e <? l) && (mf =? 1) then [(e + 1, l)] else [].
Definition left_part (f : Z) : list hole := if f <? o then [(f, o - 1)] else [].

Section step.
Context (s : reassembly_slot_t) (H1 : list hole) (f l : Z) (H2 : list hole).
Hypothesis holes : holes_at s (H1 ++ (f, l) :: H2).
Hypothesis fragment_ok : 0 <= f <= o /\ o <= e <= l.
Hypothesis left_ok : f < o -> f + 8 <= o.
Hypothesis right_ok : e < l -> mf = 1 -> e + 1 + 8 <= IP_FRAGMENT_MAX_SIZE /\ e + 1 + 8 <= l + 1.
Hypothesis others_ok : Forall (fun h => h.1 + 8 <= f \/ l < h.1) (H1 ++ H2).

(** The slot after the hole was shortened or removed. *)
Definition cut_left : reassembly_slot_t :=
  if hole_first (buffer s) f <? o then set_buffer (set_hole_last (buffer s) f (u16 (o - 1))) s
  else remove_hole s f.

Lemma hole_bounds : 0 <= f /\ f + 8 <= 65515 /\ 0 <= l <= 65514.
Proof. destruct (middle_inside _ _ _ _ _ holes) as [Hi _]; exact Hi. Qed.

Lemma cut_left_ok :
  holes_at cut_left (H1 ++ left_part f ++ H2) /\ same_key s cut_left /\
  forall x, ~ desc (H1 ++ H2) x -> ~ (f <= x <= l) -> buffer cut_left x = buffer s x.
Proof.
  pose proof hole_bounds as Hb; unfold cut_left, left_part.
  destruct (middle_fields _ _ _ _ _ holes) as [-> _]; case_test.
  - rewrite u16_small by lia; destruct (shorten_ok _ _ _ _ _ (o - 1) holes) as (? & ? & E);
      [unfold HOLE_INF, IP_FRAGMENT_MAX_SIZE; lia|].
    split; [done|split; [done|]]; intros x Hx ?; apply E; lia.
  - destruct (remove_hole_ok _ _ _ _ _ holes) as (? & ? & E); split; [done|split; [done|]].
    intros x Hx _; by apply E.
Qed.

Lemma left_part_desc x : desc (H1 ++ left_part f ++ H2) x -> desc (H1 ++ H2) x \/ f <= x < f + 8 /\ f < o.
Proof.
  rewrite !desc_app; unfold left_part; intros [?|[Hx|?]]; auto.
  revert Hx; case_test; [|by intros ?%desc_nil].
  rewrite desc_cons; intros [?|?%desc_nil]; [|done]; right; cbn in *; lia.
Qed.

Lemma others_desc x : desc (H1 ++ H2) x -> ~ (f <= x <= l).
Proof. intros (h & Hh & Hx); revert others_ok; rewrite list.Forall_forall; intros Ho; specialize (Ho h Hh); lia. Qed.

(** The slot after the right part became a hole of its own. *)
Definition cut_right : reassembly_slot_t :=
  if (e <? l) && (mf =? 1) then add_hole cut_left (u16 (e + 1)) l else cut_left.

Lemma cut_right_ok :
  holes_at cut_right (right_part l ++ H1 ++ left_part f ++ H2) /\ same_key s cut_right /\
  forall x, ~ desc (H1 ++ H2) x -> ~ (f <= x <= l) -> buffer cut_right x = buffer s x.
Proof.
  pose proof hole_bounds as Hb; destruct cut_left_ok as (Hh & Hk & E); unfold cut_right, right_part.
  destruct ((e <? l) && (mf =? 1)) eqn:Er; [|done].
  apply andb_true_iff in Er as [?%Z.ltb_lt ?%Z.eqb_eq].
  unfold IP_FRAGMENT_MAX_SIZE in right_ok; rewrite u16_small by lia.
  destruct (add_hole_ok cut_left (H1 ++ left_part f ++ H2) (e + 1) l) as (Hh' & Hk' & E'); auto.
  - assert (Ho := others_ok); apply Forall_app in Ho as [Ho1 Ho2].
    assert (forall L, Forall (fun h => h.1 + 8 <= f \/ l < h.1) L -> Forall (apart (e + 1, l)) L) as K.
    { intros L; apply Forall_impl; unfold apart; cbn; intros h ?; lia. }
    apply Forall_app; split; auto; apply Forall_app; split; auto.
    unfold left_part; case_test; auto; constructor; auto; unfold apart; cbn; lia.
  - unfold inside, HOLE_INF, IP_FRAGMENT_MAX_SIZE; cbn; lia.
  - split; [done|split; [unfold same_key in *; intuition congruence|]].
    intros x Hx Hx'; rewrite E'; [auto|]; rewrite desc_cons; intros [?|Hd%left_part_desc]; cbn in *; [lia|].
    destruct Hd; [auto|lia].
Qed.

(** The slot after the fragment was copied. *)
Definition filled : reassembly_slot_t :=
  let slot := if payload_length cut_right <? e + 1 then set_payload_length (e + 1) cut_right else cut_right in
  set_buffer (blit (buffer slot) o m from (e - o + 1)) slot.

Lemma filled_outside x :
  ~ (o <= x <= e) -> ~ (o_payload_length <= x < o_payload_length + 4) ->
  buffer filled x = buffer cut_right x.
Proof.
  intros Hx Hp; unfold filled; cbn [set_buffer buffer]; rewrite blit_out by lia.
  case_test; [|done]; cbn; apply store32_other; auto.
Qed.

Record received (s' : reassembly_slot_t) : Prop := {
  rc_holes : holes_at s' (right_part l ++ H1 ++ left_part f ++ H2);
  rc_key : same_key s s';
  rc_data : forall x, o <= x <= e -> buffer s' x = m (from + (x - o));
  rc_length : payload_length s' = Z.max (payload_length s) (e + 1);
  rc_frame : forall x, ~ desc (H1 ++ H2) x -> ~ (f <= x <= l) ->
    ~ (o_payload_length <= x < o_payload_length + 4) -> buffer s' x = buffer s x;
}.

Lemma desc_small x H : Forall inside H -> desc H x -> x < IP_FRAGMENT_MAX_SIZE.
Proof. rewrite list.Forall_forall; intros Hi (h & Hh & Hx); destruct (Hi h Hh) as (_ & ? & _); lia. Qed.

Lemma filled_ok : received filled.
Proof.
  pose proof hole_bounds as Hb; destruct cut_right_ok as (Hh & Hk & E).
  destruct (middle_inside _ _ _ _ _ holes) as [_ Hi].
  unfold IP_FRAGMENT_MAX_SIZE in *.
  assert (Hp : payload_length cut_right = payload_length s).
  { apply load32_ext; intros x Hx; unfold o_payload_length, IP_FRAGMENT_MAX_SIZE in Hx; apply E; [|lia].
    intros Hd; pose proof (desc_small _ _ Hi Hd); unfold IP_FRAGMENT_MAX_SIZE in *; lia. }
  split.
  - assert (Hh0 := Hh); revert Hh0; apply holes_ext; [unfold filled; by case_test..|].
    intros x Hx; apply filled_outside.
    + intros ?; rewrite desc_app in Hx; destruct Hx as [Hx|Hx%left_part_desc].
      * revert Hx; unfold right_part; destruct (_ && _); [|apply desc_nil].
        rewrite desc_cons; intros [Hx|Hx%desc_nil]; cbn in *; [lia|done].
      * destruct Hx as [Hx|Hx]; [apply others_desc in Hx; lia|lia].
    + apply desc_small in Hx; [unfold o_payload_length; lia|apply (ha_inside _ _ Hh)].
  - destruct Hk as (? & ? & ? & ?); unfold filled; case_test; repeat split; auto.
  - intros x Hx; unfold filled; cbn [set_buffer buffer]; rewrite blit_in by lia; f_equal; lia.
  - unfold filled, payload_length at 1; cbn [set_buffer buffer].
    rewrite (load32_ext (buffer (if payload_length cut_right <? e + 1
       then set_payload_length (e + 1) cut_right else cut_right)));
      [|intros x Hx; apply blit_out; unfold o_payload_length, IP_FRAGMENT_MAX_SIZE in Hx; lia].
    rewrite Hp; case_test; [|fold (payload_length cut_right); lia].
    cbn [set_payload_length set_buffer buffer]; rewrite load32_store32_same; lia.
  - intros x Hd Hx Hx'; rewrite filled_outside; auto; lia.
Qed.

Lemma fill_hole_ok : fill_hole m from o e mf (Some f, s) = inl (fst <$> head H2, filled).
Proof.
  pose proof hole_bounds as Hb; unfold fill_hole.
  rewrite (next_hole_ok _ _ _ _ _ holes); destruct (middle_fields _ _ _ _ _ holes) as [Ef El].
  assert ((hole_last (buffer s) f <? o) || (e <? hole_first (buffer s) f) = false) as ->
    by (by rewrite El, Ef; tests).
  rewrite El; fold cut_left cut_right; rewrite (u32_small (e + 1)), (u32_small (e - o + 1)) by lia; done.
Qed.

(** The whole loop, when only this hole meets the fragment. *)
Lemma loop_ok fuel :
  Forall (fun h => ~ overlaps o e h) (H1 ++ H2) -> (length H1 + length H2 + 1 < fuel)%nat ->
  loop fuel (fill_hole m from o e mf) (hole_list_head s, s) = Some filled.
Proof.
  intros [N1 N2]%Forall_app Hf; rewrite (ha_head _ _ holes).
  replace fuel with (length H1 + (S (length H2 + S (fuel - length H1 - length H2 - 2))))%nat by lia.
  rewrite (walk_skip s [] H1 ((f, l) :: H2)) by auto.
  cbn [loop head fmap option_fmap option_map fst]; rewrite fill_hole_ok.
  pose proof (walk_skip filled (right_part l ++ H1 ++ left_part f) H2 []
    (S (fuel - length H1 - length H2 - 2))) as W; rewrite app_nil_r, <- !app_assoc in W.
  apply W; auto; apply (rc_holes _ filled_ok).
Qed.

End step.
End walk.

(** ** A partly received datagram *)

(** Holes with received octets between them. *)
Definition sep (h k : hole) : Prop := h.2 + 1 < k.1 \/ k.2 + 1 < h.1.
#[export] Instance sep_sym : Symmetric sep.
Proof. unfold sep; intros h k; lia. Qed.

(** Holes that start and end at multiples of eight, or extend to infinity. *)
Definition aligned (h : hole) : Prop :=
  h.1 mod 8 = 0 /\ 0 <= h.1 <= 65504 /\ h.1 <= h.2 <= HOLE_INF /\ (h.2 = HOLE_INF \/ (h.2 + 1) mod 8 = 0).

Definition in_holes (H : list hole) (x : Z) : Prop := exists h, h ∈ H /\ h.1 <= x <= h.2.

Lemma in_holes_app H K x : in_holes (H ++ K) x <-> in_holes H x \/ in_holes K x.
Proof. unfold in_holes; setoid_rewrite elem_of_app; naive_solver. Qed.

Lemma in_holes_cons h H x : in_holes (h :: H) x <-> h.1 <= x <= h.2 \/ in_holes H x.
Proof. unfold in_holes; setoid_rewrite elem_of_cons; naive_solver. Qed.

Lemma in_holes_nil x : ~ in_holes [] x.
Proof. intros (h & Hh & _); by apply elem_of_nil in Hh. Qed.

Lemma pairwise_perm {A} (R : A -> A -> Prop) `{!Symmetric R} l k : l ≡ₚ k -> pairwise R l -> pairwise R k.
Proof.
  induction 1 as [|x l k E IH|x y l|]; cbn; auto.
  - intros [Hx Hl]; split; auto; by rewrite <- E.
  - rewrite !list.Forall_cons; intros ([? ?] & ? & ?); repeat split; auto; by symmetry.
Qed.

(** There are fewer holes than the loop has fuel. *)
Lemma separated_nodup H : pairwise sep H -> Forall aligned H -> NoDup (fst <$> H).
Proof.
  induction H as [|h H IH]; cbn; [constructor|]; intros [Hs Hp] [Ha Hf]%Forall_cons_1.
  apply list.NoDup_cons; split; auto; rewrite list_elem_of_fmap; intros (k & E & Hk).
  revert Hs Hf; rewrite !list.Forall_forall; intros Hs Hf; specialize (Hs k Hk); specialize (Hf k Hk).
  unfold sep, aligned in *; lia.
Qed.

Lemma holes_short H : pairwise sep H -> Forall aligned H -> (length H + 1 < hole_fuel)%nat.
Proof.
  intros Hs Ha; assert (E : (length (fst <$> H) <= length (seqZ 0 65505))%nat).
  { apply submseteq_length, NoDup_submseteq; [by apply separated_nodup|].
    intros x (h & -> & Hh)%list_elem_of_fmap; revert Ha; rewrite list.Forall_forall; intros Ha.
    specialize (Ha h Hh); unfold aligned in Ha; apply elem_of_seqZ; lia. }
  rewrite length_fmap, length_seqZ in E; unfold hole_fuel; lia.
Qed.

Section datagram.
(** The payload, its length, and the key of the datagram. *)
Context (payload : Z -> Z) (len : Z) (src dst id proto : Z).

(** A fragment is the pair of its offset and its length. *)
Abbreviation piece := (Z * Z)%type.

Definition piece_ok (p : piece) : Prop :=
  0 <= p.1 /\ p.1 mod 8 = 0 /\ 0 < p.2 /\
  (p.1 + p.2 = len \/ (p.1 + p.2) mod 8 = 0 /\ p.1 + p.2 < len /\ p.1 + p.2 <= 65504).

Definition disjoint_pieces (p q : piece) : Prop := p.1 + p.2 <= q.1 \/ q.1 + q.2 <= p.1.

Definition got (done : list piece) (x : Z) : Prop := exists p, p ∈ done /\ p.1 <= x < p.1 + p.2.
Definition got_last (done : list piece) : Prop := exists p, p ∈ done /\ p.1 + p.2 = len.
Definition mf_of (p : piece) : Z := if p.1 + p.2 =? len then 0 else 1.

(** The holes are what is missing. *)
Record missing (H : list hole) (done : list piece) : Prop := {
  ms_sep : pairwise sep H;
  ms_aligned : Forall aligned H;
  ms_cover : forall x, 0 <= x <= HOLE_INF -> in_holes H x <-> ~ got done x /\ (x < len \/ ~ got_last done);
}.

(** A slot that has received the fragments [done]. *)
Record partial (s : reassembly_slot_t) (H : list hole) (done : list piece) : Prop := {
  pt_holes : holes_at s H;
  pt_missing : missing H done;
  pt_data : forall x, got done x -> buffer s x = payload x;
  pt_length : 0 <= payload_length s <= len /\ (got_last done -> payload_length s = len);
  pt_key : slot_ip_src s = src /\ slot_ip_dst s = dst /\ slot_id s = id /\ slot_ip_proto s = proto;
  pt_used : used s = 1;
}.

Lemma got_cons p done x : got (p :: done) x <-> p.1 <= x < p.1 + p.2 \/ got done x.
Proof. unfold got; setoid_rewrite elem_of_cons; naive_solver. Qed.

Lemma got_last_cons p done : got_last (p :: done) <-> p.1 + p.2 = len \/ got_last done.
Proof. unfold got_last; setoid_rewrite elem_of_cons; naive_solver. Qed.

(** ** The hole around a fragment *)

(** In a separated list, an interval of missing octets lies in one hole. *)
Lemma one_hole H a b :
  pairwise sep H -> (forall x, a <= x <= b -> in_holes H x) -> a <= b ->
  exists H1 f l H2, H = H1 ++ (f, l) :: H2 /\ f <= a /\ b <= l /\
    Forall (fun h => h.2 + 1 < f \/ l + 1 < h.1) (H1 ++ H2).
Proof.
  intros Hs Hx Hab; destruct (Hx a) as ([f l] & Hh & Ha); [lia|].
  apply list_elem_of_split in Hh as (H1 & H2 & ->); exists H1, f, l, H2; cbn in Ha.
  apply pairwise_middle in Hs as [Hs _]; [|apply sep_sym].
  split; [done|split; [lia|split]].
  - destruct (decide (b <= l)) as [|Hb]; [done|exfalso].
    destruct (Hx (l + 1)) as (k & Hk & Hk'); [lia|].
    assert (k = (f, l) \/ k ∈ H1 ++ H2) as [->|Hk2]; [|cbn in Hk'; lia|].
    { revert Hk; rewrite !elem_of_app, elem_of_cons; tauto. }
    rewrite list.Forall_forall in Hs; specialize (Hs k Hk2); unfold sep in Hs; cbn in Hs; lia.
  - revert Hs; apply Forall_impl; unfold sep; cbn; intros h; lia.
Qed.

Hypothesis len_ok : 0 < len <= IP_FRAGMENT_MAX_SIZE.

Section fragment.
Context (H : list hole) (done : list piece) (p : piece).
Hypothesis miss : missing H done.
Hypothesis p_ok : piece_ok p.
Hypothesis done_ok : Forall piece_ok done.
Hypothesis p_new : Forall (disjoint_pieces p) done.

Lemma new_not_got x : p.1 <= x < p.1 + p.2 -> ~ got done x.
Proof.
  intros Hx (q & Hq & Hx'); revert p_new; rewrite list.Forall_forall; intros E; specialize (E q Hq).
  unfold disjoint_pieces in E; lia.
Qed.

Lemma new_last : p.1 + p.2 = len -> ~ got_last done.
Proof.
  intros E (q & Hq & Eq); revert p_new done_ok; rewrite !list.Forall_forall; intros En Eo.
  specialize (En q Hq); specialize (Eo q Hq); unfold disjoint_pieces, piece_ok in *; lia.
Qed.

Lemma p_bounds : 0 <= p.1 /\ 0 < p.2 /\ p.1 + p.2 <= len.
Proof. unfold piece_ok in p_ok; lia. Qed.

(** The hole the fragment falls in; the last fragment falls in the hole that
    extends to infinity. *)
Lemma hole_of_piece :
  exists H1 f l H2, H = H1 ++ (f, l) :: H2 /\ f <= p.1 /\ p.1 + p.2 - 1 <= l /\
    Forall (fun h => h.2 + 1 < f \/ l + 1 < h.1) (H1 ++ H2) /\ (p.1 + p.2 = len -> l = HOLE_INF).
Proof.
  destruct miss as [Hs Ha Hc]; pose proof p_bounds as Hb.
  unfold HOLE_INF, IP_FRAGMENT_MAX_SIZE in *.
  destruct (decide (p.1 + p.2 = len)) as [E|E].
  - destruct (one_hole H p.1 (65515 - 1)) as (H1 & f & l & H2 & -> & ? & ? & Ho); auto; [|lia|].
    + intros x Hx; apply Hc; [lia|]; split; [|right; by apply new_last].
      intros Hg; destruct (decide (x < p.1 + p.2)); [by apply (new_not_got x); [lia|]|].
      destruct Hg as (q & Hq & Hx'); revert done_ok; rewrite list.Forall_forall; intros Eo.
      specialize (Eo q Hq); unfold piece_ok in Eo; lia.
    + exists H1, f, l, H2; split; [done|split; [lia|split; [lia|split; [done|intros _]]]].
      apply Forall_app in Ha as [_ [Ha _]%Forall_cons_1]; destruct Ha as (_ & _ & [_ Ha] & _).
      unfold HOLE_INF, IP_FRAGMENT_MAX_SIZE in Ha; cbn in Ha; lia.
  - destruct (one_hole H p.1 (p.1 + p.2 - 1)) as (H1 & f & l & H2 & -> & ? & ? & Ho); auto; [|lia|].
    + intros x Hx; apply Hc; [lia|]; split; [apply new_not_got|left]; lia.
    + exists H1, f, l, H2; split; [done|split; [lia|split; [lia|done]]].
Qed.

Section split.
Context (H1 : list hole) (f l : Z) (H2 : list hole).
Hypothesis H_eq : H = H1 ++ (f, l) :: H2.
Hypothesis hole_ok : f <= p.1 /\ p.1 + p.2 - 1 <= l.
Hypothesis others : Forall (fun h => h.2 + 1 < f \/ l + 1 < h.1) (H1 ++ H2).
Hypothesis hole_last_ok : p.1 + p.2 = len -> l = HOLE_INF.

Let o := p.1.
Let e := p.1 + p.2 - 1.
Let mf := mf_of p.
Let H' := right_part e mf l ++ H1 ++ left_part o f ++ H2.

Lemma hole_aligned : aligned (f, l) /\ Forall aligned (H1 ++ H2).
Proof.
  destruct miss as [_ Ha _]; rewrite H_eq in Ha; apply Forall_app in Ha as [? [? ?]%Forall_cons_1].
  split; auto; by apply Forall_app.
Qed.

Lemma left_bound : f < o -> f + 8 <= o.
Proof.
  destruct hole_aligned as [(E & _) _]; destruct p_ok as (_ & E' & _); unfold o; cbn in *.
  intros; Z.div_mod_to_equations; lia.
Qed.

Lemma right_bound : e < l -> mf = 1 -> e + 1 + 8 <= IP_FRAGMENT_MAX_SIZE /\ e + 1 + 8 <= l + 1.
Proof.
  destruct hole_aligned as [(_ & _ & _ & E) _]; destruct p_ok as (_ & _ & _ & E').
  unfold e, mf, mf_of, HOLE_INF, IP_FRAGMENT_MAX_SIZE in *; cbn in *; case_test; [lia|intros Hl _].
  destruct E as [->|E]; [lia|]; Z.div_mod_to_equations; lia.
Qed.

Lemma others_bound : Forall (fun h => h.1 + 8 <= f \/ l < h.1) (H1 ++ H2).
Proof.
  destruct hole_aligned as [_ Ha]; revert others Ha; rewrite !list.Forall_forall; intros Ho Ha h Hh.
  specialize (Ho h Hh); destruct (Ha h Hh) as (E1 & E2 & E3 & E4).
  unfold HOLE_INF, IP_FRAGMENT_MAX_SIZE in *; destruct E4 as [E4|E4]; [lia|]; Z.div_mod_to_equations; lia.
Qed.

Lemma others_overlap : Forall (fun h => ~ overlaps o e h) (H1 ++ H2).
Proof. revert others; apply Forall_impl; unfold overlaps, o, e; intros h; lia. Qed.

Lemma H'_perm : H' ≡ₚ right_part e mf l ++ left_part o f ++ H1 ++ H2.
Proof. unfold H'; by rewrite (app_assoc H1), (app_assoc (left_part o f)), (Permutation_app_comm H1). Qed.

Lemma in_parts x :
  in_holes H' x <-> (e < x <= l /\ mf = 1 /\ e < l) \/ (f <= x < o /\ f < o) \/ in_holes (H1 ++ H2) x.
Proof.
  unfold H'; rewrite !in_holes_app; unfold right_part, left_part.
  assert (forall a b, in_holes [(a, b)] x <-> a <= x <= b) as E1.
  { intros; rewrite in_holes_cons; cbn; pose proof (in_holes_nil x); tauto. }
  pose proof (in_holes_nil x); destruct (Z.ltb_spec e l), (Z.eqb_spec mf 1), (Z.ltb_spec f o);
    cbn [andb]; rewrite ?E1; intuition lia.
Qed.

Lemma others_in x : in_holes (H1 ++ H2) x -> x + 1 < f \/ l + 1 < x.
Proof.
  intros (h & Hh & Hx); revert others; rewrite list.Forall_forall; intros Ho; specialize (Ho h Hh); lia.
Qed.

Lemma in_before x : in_holes H x <-> f <= x <= l \/ in_holes (H1 ++ H2) x.
Proof. rewrite H_eq, !in_holes_app, in_holes_cons; cbn; tauto. Qed.

(** The parts of the hole that are left are sound holes again. *)
Lemma parts_ok :
  pairwise sep (right_part e mf l ++ left_part o f) /\ Forall aligned (right_part e mf l ++ left_part o f) /\
  Forall (fun h => f <= h.1 /\ h.2 <= l) (right_part e mf l ++ left_part o f).
Proof.
  pose proof left_bound; pose proof right_bound; pose proof p_bounds.
  destruct hole_aligned as [(A1 & A2 & A3 & A4) _]; destruct p_ok as (_ & P1 & _ & P2).
  unfold right_part, left_part.
  assert (R : e < l -> mf = 1 -> aligned (e + 1, l)).
  { unfold e, mf, mf_of, aligned; cbn in *; case_test; [lia|intros].
    replace (p.1 + p.2 - 1 + 1) with (p.1 + p.2) by lia; intuition lia. }
  assert (L : f < o -> aligned (f, o - 1)).
  { unfold aligned, o; cbn in *; intros; replace (p.1 - 1 + 1) with p.1 by lia.
    split; [done|split; [lia|split; [|by right]]]; lia. }
  destruct (Z.ltb_spec e l), (Z.eqb_spec mf 1), (Z.ltb_spec f o); cbn [andb app pairwise].
  all: rewrite ?list.Forall_cons, ?list.Forall_nil; unfold sep, o, e in *; cbn in *; intuition lia.
Qed.

Lemma missing_step : missing H' (p :: done).
Proof.
  destruct parts_ok as (Ps & Pa & Pb); destruct hole_aligned as [Hal Ha]; pose proof p_bounds as Hb.
  assert (Ms := miss); destruct Ms as [Hs _ Hc]; split.
  - apply (pairwise_perm _ (right_part e mf l ++ left_part o f ++ H1 ++ H2)); [by symmetry; apply H'_perm|].
    rewrite app_assoc; apply pairwise_app; split; [done|split].
    + rewrite H_eq in Hs; apply pairwise_middle in Hs as [_ ?]; [done|apply sep_sym].
    + revert Pb; apply Forall_impl; intros h Hh; revert others; apply Forall_impl; unfold sep; intros; lia.
  - rewrite H'_perm, app_assoc; by apply Forall_app.
  - intros x Hx; rewrite in_parts, got_cons, got_last_cons.
    specialize (Hc x Hx); rewrite in_before in Hc; pose proof (others_in x) as Ho.
    assert (Hmf : mf = if p.1 + p.2 =? len then 0 else 1) by done.
    pose proof (new_not_got x) as Hn; destruct Hal as (_ & _ & Hl & _); cbn in Hl.
    unfold o, e; destruct (Z.eqb_spec (p.1 + p.2) len) as [E|E].
    + pose proof (new_last E) as Hnl; specialize (hole_last_ok E).
      assert (got done x -> x < len).
      { intros (q & Hq & Hx'); revert done_ok; rewrite list.Forall_forall; intros Eo.
        specialize (Eo q Hq); unfold piece_ok in Eo; lia. }
      split.
      * intros Hi; assert (x < p.1 /\ (f <= x <= l \/ in_holes (H1 ++ H2) x)) as [Hlt [Hg _]%Hc].
        { destruct Hi as [?|[?|Hi]]; [lia|split; [|left]; lia|specialize (Ho Hi); split; [lia|by right]]. }
        split; [intros [?|?]; [lia|done]|left; lia].
      * intros [Hg [Hlt|Hg']]; [|tauto]; destruct (proj2 Hc) as [?|?]; [tauto| |tauto].
        right; left; lia.
    + destruct (decide (f <= x <= l)); intuition lia.
Qed.

End split.

(** The loop over the holes receives the fragment. *)
Lemma partial_step s m from :
  partial s H done -> (forall i, 0 <= i < p.2 -> m (from + i) = payload (p.1 + i)) ->
  exists s' H', loop hole_fuel (fill_hole m from p.1 (p.1 + p.2 - 1) (mf_of p)) (hole_list_head s, s) = Some s' /\
    partial s' H' (p :: done).
Proof.
  intros [Hh _ Hd [Hlen Hlast] Hk Hu] Hm; pose proof p_bounds as Hb.
  destruct hole_of_piece as (H1 & f & l & H2 & E & Hf & Hl & Ho & Hinf).
  pose proof (missing_step H1 f l H2 E (conj Hf Hl) Ho Hinf) as Hms.
  destruct (hole_aligned H1 f l H2 E) as [(_ & Hf0 & _) _]; cbn in Hf0.
  pose proof (holes_short _ (ms_sep _ _ miss) (ms_aligned _ _ miss)) as Hfu.
  rewrite E in Hh, Hfu; rewrite length_app in Hfu; cbn [length] in Hfu.
  pose proof (left_bound H1 f l H2 E) as Lb; pose proof (right_bound H1 f l H2 E (conj Hf Hl) Ho Hinf) as Rb.
  pose proof (others_bound H1 f l H2 E Ho) as Ob.
  destruct (filled_ok m from p.1 (p.1 + p.2 - 1) (mf_of p) s H1 f l H2 Hh) as [Rh Rk Rd Rl Rf]; [lia|auto..|].
  assert (Rs : forall x, ~ in_holes H x -> 0 <= x -> ~ (o_payload_length <= x < o_payload_length + 4) ->
    buffer (filled m from p.1 (p.1 + p.2 - 1) (mf_of p) s f l) x = buffer s x).
  { intros x Hx ??; apply Rf; [intros (h & Hin & ?)|intros ?|done]; apply Hx; rewrite E.
    - destruct (hole_aligned H1 f l H2 E) as [_ Ha]; revert Ha; rewrite list.Forall_forall; intros Ha.
      specialize (Ha h Hin); exists h; unfold aligned, HOLE_INF, IP_FRAGMENT_MAX_SIZE in Ha.
      split; [revert Hin; rewrite !elem_of_app, elem_of_cons; tauto|].
      destruct Ha as (E1 & ? & ? & [?|E2]); [lia|]; Z.div_mod_to_equations; lia.
    - exists (f, l); split; [rewrite elem_of_app, elem_of_cons; tauto|cbn; lia]. }
  eexists _, _; split; [apply (loop_ok m from p.1 (p.1 + p.2 - 1) (mf_of p) s H1 f l H2); auto; try lia|split; [exact Rh|exact Hms|..]].
  - by apply (others_overlap H1 f l H2).
  - intros x Hx; destruct (decide (p.1 <= x <= p.1 + p.2 - 1)) as [Hp|Hp].
    + rewrite Rd, Hm by lia; f_equal; lia.
    + apply got_cons in Hx as [?|Hx]; [lia|].
      assert (0 <= x < len) as Hx0.
      { destruct Hx as (q & Hq & ?); revert done_ok; rewrite list.Forall_forall; intros Eo.
        specialize (Eo q Hq); unfold piece_ok in Eo; lia. }
      rewrite Rs, Hd; auto; unfold o_payload_length; [|lia..].
      intros Hin%(ms_cover _ _ miss); [tauto|unfold HOLE_INF; lia].
  - rewrite Rl, got_last_cons; split; [lia|intros [?|?%Hlast]; lia].
  - destruct Rk as (? & ? & ? & ?); intuition congruence.
  - transitivity (used s); [|done]; apply load32_ext; intros x Hx; unfold o_used, IP_FRAGMENT_MAX_SIZE in Hx.
    apply Rs; [intros (h & Hin & ?)|lia|unfold o_payload_length, IP_FRAGMENT_MAX_SIZE; lia].
    pose proof (ms_aligned _ _ miss) as Ha; revert Ha; rewrite list.Forall_forall; intros Ha.
    specialize (Ha h Hin); unfold aligned, HOLE_INF, IP_FRAGMENT_MAX_SIZE in Ha; lia.
Qed.

End fragment.
(** ** Messages *)

(** A message that carries the fragment [p] of the datagram. *)
Record carries (msg : net_msg_t) (p : piece) : Prop := {
  cr_dest : load32 (bytes msg) (ip_hdr msg + o_ip_dest) = dst;
  cr_src : load32 (bytes msg) (ip_hdr msg + o_ip_src) = src;
  cr_id : load16 (bytes msg) (ip_hdr msg + o_id) = id;
  cr_proto : load8 (bytes msg) (ip_hdr msg + o_proto) = proto;
  cr_flags : ntohs (load16 (bytes msg) (ip_hdr msg + o_flags)) = mf_of p * 2 ^ 13 + p.1 / 8;
  cr_length : ntohs (load16 (bytes msg) (ip_hdr msg + o_length)) = p.2 + sizeof_ip_hdr;
  cr_data : forall i, 0 <= i < p.2 -> bytes msg (ip_hdr msg + sizeof_ip_hdr + i) = payload (p.1 + i);
}.

(** The slot holds a datagram with the key of the message. *)
Definition has_key (s : reassembly_slot_t) : Prop :=
  slot_ip_src s = src /\ slot_ip_dst s = dst /\ slot_id s = id /\ slot_ip_proto s = proto /\ used s = 1.

Lemma flags_ok p :
  piece_ok p -> fragment_offset (mf_of p * 2 ^ 13 + p.1 / 8) = p.1 /\
                more_fragments (mf_of p * 2 ^ 13 + p.1 / 8) = mf_of p.
Proof.
  intros Hp; unfold fragment_offset, more_fragments.
  assert (0 <= p.1 < 65536 /\ p.1 = 8 * (p.1 / 8)) as [Hr E].
  { unfold piece_ok, IP_FRAGMENT_MAX_SIZE in *; Z.div_mod_to_equations; lia. }
  assert (mf_of p = 0 \/ mf_of p = 1) as Hmf by (unfold mf_of; case_test; auto).
  change (Z.shiftl 1 13 - 1) with (Z.ones 13).
  assert (L1 : forall x, Z.land x 1 = x mod 2) by (intros x; exact (Z.land_ones x 1 ltac:(lia))).
  rewrite L1, Z.land_ones, Z.shiftr_div_pow2 by lia.
  set (k := p.1 / 8) in *; assert (0 <= k < 2 ^ 13) by lia.
  rewrite Z.add_comm, Z.mod_add, Z.div_add by lia.
  rewrite (Z.mod_small k), (Z.div_small k) by lia; split; [lia|]; cbn [Z.add].
  destruct Hmf as [-> | ->]; done.
Qed.

(** The search for the slot. *)
Lemma find_slot_at m hdr slots i unused j s :
  slots !! i = Some s -> (forall k t, slots !! k = Some t -> has_key t -> k = i) -> has_key s ->
  load32 m (hdr + o_ip_dest) = dst -> load32 m (hdr + o_ip_src) = src ->
  load16 m (hdr + o_id) = id -> load8 m (hdr + o_proto) = proto ->
  exists u, find_slot slots m hdr j unused = (Some (j + i)%nat, u).
Proof using Type.
  clear len_ok payload len.
  revert i unused j; induction slots as [|t slots IH]; intros i unused j Hi Hu Hs Ed Es Ei Ep; [done|].
  cbn [find_slot]; rewrite Ed, Es, Ei, Ep.
  destruct ((dst =? slot_ip_dst t) && _ && _ && _ && _) eqn:B.
  - assert (has_key t) as Ht.
    { rewrite !andb_true_iff, !Z.eqb_eq in B; unfold has_key; intuition congruence. }
    rewrite <- (Hu 0%nat t) by done; rewrite Nat.add_0_r; eauto.
  - destruct i as [|i]; [|replace (j + S i)%nat with (S j + i)%nat by lia; apply IH; auto].
    + injection Hi as ->; destruct Hs as (E1 & E2 & E3 & E4 & E5).
      by rewrite E1, E2, E3, E4, E5, !Z.eqb_refl in B.
    + intros k t' Hk Ht'; specialize (Hu (S k) t' Hk Ht'); lia.
Qed.

Lemma find_slot_new m hdr slots unused j :
  (forall k t, slots !! k = Some t -> ~ has_key t) ->
  load32 m (hdr + o_ip_dest) = dst -> load32 m (hdr + o_ip_src) = src ->
  load16 m (hdr + o_id) = id -> load8 m (hdr + o_proto) = proto ->
  exists u, find_slot slots m hdr j unused = (None, u) /\
    (u = unused /\ (forall t, t ∈ slots -> used t <> 0) \/
     exists i t, u = Some (j + i)%nat /\ slots !! i = Some t /\ used t = 0).
Proof using Type.
  clear len_ok payload len.
  revert unused j; induction slots as [|t slots IH]; intros unused j Hu Ed Es Ei Ep.
  - exists unused; split; [done|left; split; [done|]]; intros t Ht; by apply elem_of_nil in Ht.
  - cbn [find_slot]; rewrite Ed, Es, Ei, Ep.
    destruct ((dst =? slot_ip_dst t) && _ && _ && _ && _) eqn:B.
    { destruct (Hu 0%nat t); [done|].
      rewrite !andb_true_iff, !Z.eqb_eq in B; unfold has_key; intuition congruence. }
    destruct (IH (if used t =? 0 then Some j else unused) (S j)) as (u & E & Hc); auto.
    { intros k t' Hk; exact (Hu (S k) t' Hk). }
    exists u; split; [done|]; destruct Hc as [[-> Hc]|(i & t' & -> & Hi & Hz)].
    + case_test; [right; exists 0%nat, t; rewrite Nat.add_0_r; auto|left; split; [done|]].
      intros t' [->|Ht']%elem_of_cons; auto.
    + right; exists (S i), t'; split; [f_equal; lia|auto].
Qed.

(** A fresh slot has received nothing. *)
Lemma init_slot_ok s msg p : carries msg p -> partial (init_slot s (bytes msg) (ip_hdr msg)) [(0, HOLE_INF)] [].
Proof.
  intros C; unfold init_slot.
  set (s0 := set_timeout REASSEMBLY_TIMEOUT _).
  assert (holes_at s0 []) as H0 by (split; auto; constructor).
  assert (used s0 = 1) as Hu.
  { unfold s0, used, set_timeout, set_payload_length, set_used, o_used, o_timeout, o_payload_length,
      IP_FRAGMENT_MAX_SIZE; cbn [buffer set_buffer]; by mem_simpl. }
  assert (payload_length s0 = 0) as Hp.
  { unfold s0, payload_length, set_timeout, set_payload_length, set_used, o_used, o_timeout, o_payload_length,
      IP_FRAGMENT_MAX_SIZE; cbn [buffer set_buffer]; by mem_simpl. }
  destruct (add_hole_ok s0 [] 0 HOLE_INF H0) as (Hh & (K1 & K2 & K3 & K4) & E); [constructor|done|].
  assert (forall x, 8 <= x -> buffer (add_hole s0 0 HOLE_INF) x = buffer s0 x) as E'.
  { intros x Hx; apply E; rewrite desc_cons; intros [?|?%desc_nil]; [cbn in *; lia|done]. }
  assert (forall x, ~ got [] x) as G by (intros x (q & Hq & _); by apply elem_of_nil in Hq).
  split; [done| |by intros x ?%G| | |].
  - split; [repeat constructor|by repeat constructor|].
    intros x Hx; rewrite in_holes_cons; cbn; split; [intros _; split; [apply G|right]|by left].
    intros (q & Hq & _); by apply elem_of_nil in Hq.
  - assert (payload_length (add_hole s0 0 HOLE_INF) = payload_length s0) as ->
      by (apply load32_ext; intros x Hx; apply E'; unfold o_payload_length, IP_FRAGMENT_MAX_SIZE in Hx; lia).
    rewrite Hp; split; [lia|]; intros (q & Hq & _); by apply elem_of_nil in Hq.
  - rewrite K1, K2, K3, K4; destruct C; cbn; auto.
  - transitivity (used s0); [|done].
    apply load32_ext; intros x Hx; apply E'; unfold o_used, IP_FRAGMENT_MAX_SIZE in Hx; lia.
Qed.

(** ** One call of [ip_reassembly] *)

(** The slot the call works on. *)
Definition chosen (slots : list reassembly_slot_t) (msg : net_msg_t) : option (nat * reassembly_slot_t) :=
  let '(found, unused) := find_slot slots (bytes msg) (ip_hdr msg) 0 None in
  match found with
  | Some i => slot ← slots !! i; Some (i, slot)
  | None => i ← unused; slot ← slots !! i; Some (i, init_slot slot (bytes msg) (ip_hdr msg))
  end.

Lemma reassembly_step km slots msg p done i s H :
  chosen slots msg = Some (i, s) -> partial s H done -> carries msg p ->
  piece_ok p -> Forall piece_ok done -> Forall (disjoint_pieces p) done -> ~ (p.1 = 0 /\ p.2 = len) ->
  exists s' H', partial s' H' (p :: done) /\
    ip_reassembly km slots msg =
      match H' with
      | [] => r ← build_final_msg km (set_used 0 s') (bytes msg) (ip_hdr msg);
              Ok (<[i := set_used 0 s']> slots, r, true)
      | _ => Ok (<[i := s']> slots, None, true)
      end.
Proof.
  intros Hc Hp C Hpo Hdo Hd Hn; destruct (flags_ok p Hpo) as [Ef Em].
  destruct (partial_step H done p (pt_missing _ _ _ Hp) Hpo Hdo Hd s (bytes msg) (ip_hdr msg + sizeof_ip_hdr) Hp)
    as (s' & H' & Hl & Hp'); [apply (cr_data _ _ C)|].
  exists s', H'; split; [done|]; unfold ip_reassembly; rewrite (cr_flags _ _ C), Ef, Em, (cr_length _ _ C).
  assert (((mf_of p =? 0) && (p.1 =? 0)) = false) as ->.
  { unfold mf_of; destruct (Z.eqb_spec (p.1 + p.2) len), (Z.eqb_spec p.1 0); try done; lia. }
  unfold chosen in Hc; destruct (find_slot _ _ _ _ _) as [found unused]; rewrite Hc.
  unfold piece_ok, IP_FRAGMENT_MAX_SIZE, sizeof_ip_hdr in *.
  rewrite u32_small by lia.
  replace (p.1 + (p.2 + 20) - 20 - 1) with (p.1 + p.2 - 1) by lia.
  destruct (Z.ltb_spec (65515 - 1) (p.1 + p.2 - 1)); [lia|]; rewrite Hl.
  rewrite (ha_head _ _ (pt_holes _ _ _ Hp')); by destruct H'.
Qed.

End datagram.
