(* ===== verification/DatagramProofs.v ===== *)
(** * Reassembled datagrams

    The message built from a complete slot, and the claims about reassembly:
    fragments that arrive in any order give back the datagram, and the two cases
    in which the list of holes and the data share memory. *)

From S2P Require Import Prelude Memory Net NetProofs Ip ReassemblyProofs.
Import Reassembly.

(** ** The final message *)

Ltac fields := unfold final_fields, o_checksum, o_flags, o_id, o_ip_dest, o_ip_src, o_length, o_priority, o_proto,
  o_ttl, o_version, sizeof_ip_hdr.

Lemma final_fields_bytes r h slot m hdr :
  (forall x, hdr <= x < hdr + sizeof_ip_hdr -> 0 <= m x < 2 ^ 8) ->
  Forall (fun b => 0 <= b < 2 ^ 8) (bytes_at (final_fields r h slot m hdr) h 20).
Proof.
  intros Hm; apply Forall_lookup; intros i b Hi; assert (i < 20)%nat as Hlt.
  { apply lookup_lt_Some in Hi; by rewrite length_bytes_at in Hi. }
  rewrite lookup_bytes_at in Hi by done; injection Hi as <-; fields.
  unfold sizeof_ip_hdr in Hm; unfold load8, store32, store16, store8.
  repeat (case_test; [first [apply u8_range|apply Hm; lia]|]); lia.
Qed.

Lemma final_fields_ok r h slot m hdr :
  load16 (final_fields r h slot m hdr) (h + o_checksum) = 0 /\
  load16 (final_fields r h slot m hdr) (h + o_flags) = 0 /\
  load16 (final_fields r h slot m hdr) (h + o_length) = ntohs (u16 (payload_length slot + sizeof_ip_hdr)) /\
  forall x, ~ (h <= x < h + sizeof_ip_hdr) -> final_fields r h slot m hdr x = r x.
Proof.
  fields; split; [|split; [|split]]; [mem_simpl; apply load16_store16_same..|].
  - lia.
  - lia.
  - apply ntohs_range.
  - intros x Hx; by repeat first [rewrite store8_other by lia|rewrite store16_other by lia|rewrite store32_other by lia].
Qed.

Lemma final_header_ok r h slot m hdr :
  (forall x, hdr <= x < hdr + sizeof_ip_hdr -> 0 <= m x < 2 ^ 8) ->
  let r' := final_header r h slot m hdr in
  net_compute_checksum r' h sizeof_ip_hdr = 0 /\
  load16 r' (h + o_flags) = 0 /\
  load16 r' (h + o_length) = ntohs (u16 (payload_length slot + sizeof_ip_hdr)) /\
  forall x, ~ (h <= x < h + sizeof_ip_hdr) -> r' x = r x.
Proof.
  intros Hm r'; unfold r', final_header.
  pose proof (final_fields_bytes r h slot m hdr Hm) as Hb.
  destruct (final_fields_ok r h slot m hdr) as (H0 & Hf & Hl & Ho).
  set (q := final_fields r h slot m hdr) in *; clearbody q; split; [|split; [|split]].
  - apply fill_in_at; unfold o_checksum, sizeof_ip_hdr in *; auto; try lia.
    by replace (h + 10 - h) with 10 by lia.
  - rewrite <- Hf; apply load16_store16_other; unfold o_checksum, o_flags; lia.
  - rewrite <- Hl; apply load16_store16_other; unfold o_checksum, o_length; lia.
  - intros x Hx; rewrite <- Ho by done; apply store16_other; unfold o_checksum, sizeof_ip_hdr in *; lia.
Qed.

(** What a reassembled message holds. *)
Record final_msg_ok (payload : Z -> Z) (len src dst proto : Z) (r : net_msg_t) : Prop := {
  fm_header : ip_hdr r = start r;
  fm_size : net_msg_get_size r = len + sizeof_ip_hdr;
  fm_data : forall i, 0 <= i < len -> bytes r (ip_hdr r + sizeof_ip_hdr + i) = payload i;
  fm_checksum : net_compute_checksum (bytes r) (ip_hdr r) sizeof_ip_hdr = 0;
  fm_flags : load16 (bytes r) (ip_hdr r + o_flags) = 0;
  fm_length : ntohs (load16 (bytes r) (ip_hdr r + o_length)) = len + sizeof_ip_hdr;
  fm_fields : ip_length r = len /\ ip_src r = src /\ ip_dest r = dst /\ ip_proto r = proto;
}.

Lemma build_final_msg_ok fresh slot m hdr payload len :
  payload_length slot = len -> 0 < len <= IP_FRAGMENT_MAX_SIZE ->
  (forall x, hdr <= x < hdr + sizeof_ip_hdr -> 0 <= m x < 2 ^ 8) ->
  (forall x, 0 <= x < len -> buffer slot x = payload x) ->
  exists r, build_final_msg (Some fresh) slot m hdr = Ok (Some r) /\
    final_msg_ok payload len (slot_ip_src slot) (slot_ip_dst slot) (slot_ip_proto slot) r.
Proof.
  unfold IP_FRAGMENT_MAX_SIZE; intros Hl Hlen Hm Hd; unfold build_final_msg, net_msg_new; cbn [mbind option_bind].
  rewrite Hl; unfold net_msg_prepend; cbn [start data set_buf_length set_nic set_end_ set_start].
  unfold NET_MIN_HEADROOM, sizeof_ip_hdr; replace (data fresh + 128 - data fresh) with 128 by lia.
  rewrite (u32_small 128), (u32_small (len + 128)) by lia; cbn [Z.ltb Z.compare Pos.compare Pos.compare_cont kassert
    mbind res_bind].
  unfold net_msg_append; cbn [buf_length end_ data set_bytes set_start set_buf_length set_nic set_end_ bytes start].
  replace (data fresh + 128 - data fresh) with 128 by lia; replace (len + 128 - len) with 128 by lia.
  rewrite (u32_small 128) by lia; test_false; cbn [Z.ltb Z.compare Pos.compare Pos.compare_cont kassert mbind res_bind].
  eexists; split; [done|].
  destruct (final_header_ok (bytes fresh) (data fresh + 128 - 20) slot m hdr Hm) as (Hc & Hf & Hll & Ho).
  unfold sizeof_ip_hdr in *; rewrite Hl in Hll.
  set (q := final_header _ _ _ _ _) in *.
  assert (E : forall x, data fresh + 108 <= x < data fresh + 128 ->
    blit q (data fresh + 128) (buffer slot) 0 len x = q x) by (intros; apply blit_out; lia).
  split; cbn; unfold sizeof_ip_hdr.
  - done.
  - unfold net_msg_get_size; cbn; rewrite u32_small; lia.
  - intros i Hi; rewrite blit_in by lia; rewrite <- Hd by lia; f_equal; lia.
  - etransitivity; [|exact Hc]; apply checksum_ext; [lia|intros; apply E; lia].
  - etransitivity; [|exact Hf]; apply load16_ext; unfold o_flags; intros; apply E; lia.
  - rewrite (load16_ext q) by (unfold o_length; intros; apply E; lia).
    rewrite Hll, u16_small by lia; apply ntohs_htons; lia.
  - rewrite u16_small by lia; auto.
Qed.

(** ** Receiving all fragments *)

(** The messages are received one after the other; [km] is what the allocation
    of the final message returns. *)
Fixpoint receive_all (km : option net_msg_t) (slots : list reassembly_slot_t) (msgs : list net_msg_t)
    : res (list reassembly_slot_t * list (option net_msg_t)) :=
  match msgs with
  | [] => Ok (slots, [])
  | msg :: msgs =>
      '(slots, out, _) ← ip_reassembly km slots msg;
      '(slots, outs) ← receive_all km slots msgs;
      Ok (slots, out :: outs)
  end.

Section receive.
Context (payload : Z -> Z) (len src dst id proto : Z).
Hypothesis len_ok : 0 < len <= IP_FRAGMENT_MAX_SIZE.

(** The fragments, in the order in which they arrive. *)
Record fragmentation (pieces : list (Z * Z)) : Prop := {
  fg_ok : Forall (piece_ok len) pieces;
  fg_disjoint : pairwise disjoint_pieces pieces;
  fg_cover : forall x, 0 <= x < len -> got pieces x;
  fg_many : (2 <= length pieces)%nat;
}.

#[export] Instance disjoint_sym : Symmetric disjoint_pieces.
Proof. unfold disjoint_pieces; intros h k; lia. Qed.

(** No fragment is the whole datagram. *)
Lemma not_whole pieces p : fragmentation pieces -> p ∈ pieces -> ~ (p.1 = 0 /\ p.2 = len).
Proof.
  intros [Ho Hd _ Hm] (l & k & ->)%list_elem_of_split [E1 E2].
  apply pairwise_middle in Hd as [Hd _]; [|apply disjoint_sym].
  assert (exists q, q ∈ l ++ k) as [q Hq].
  { rewrite length_app in Hm; cbn in Hm; destruct l as [|q l]; [destruct k as [|q k]; [cbn in Hm; lia|]|];
      exists q; rewrite elem_of_app, elem_of_cons; tauto. }
  rewrite list.Forall_forall in Ho, Hd; specialize (Hd q Hq).
  destruct (Ho q) as (? & _ & ? & ?); [revert Hq; rewrite !elem_of_app, elem_of_cons; tauto|].
  unfold disjoint_pieces in Hd; lia.
Qed.

(** The holes are used up when all fragments have arrived, and not before. *)
Lemma holes_left s H done pieces :
  partial payload len src dst id proto s H done -> (forall x, 0 <= x < len -> got pieces x) ->
  Forall (piece_ok len) pieces ->
  (done ≡ₚ pieces -> H = []) /\
  (forall p, p ∈ pieces -> Forall (disjoint_pieces p) done -> Forall (piece_ok len) done -> H <> []).
Proof.
  intros Hp Hc Ho; destruct (pt_missing _ _ _ _ _ _ _ _ _ Hp) as [_ Ha Hm].
  unfold HOLE_INF, IP_FRAGMENT_MAX_SIZE in *; split.
  - intros Hd; destruct H as [|h H]; [done|exfalso].
    apply Forall_cons_1 in Ha as [(_ & H0 & Hh & _) _]; unfold HOLE_INF, IP_FRAGMENT_MAX_SIZE in Hh.
    assert (forall x, got done x <-> got pieces x) as Eg by (intros x; unfold got; by setoid_rewrite Hd).
    destruct (proj1 (Hm h.1 ltac:(lia))) as [Hg Hl]; [apply in_holes_cons; left; lia|].
    destruct (decide (h.1 < len)); [apply Hg, Eg, Hc; lia|].
    destruct Hl as [?|Hl]; [lia|]; apply Hl; destruct (Hc (len - 1)) as (q & Hq & ?); [lia|].
    exists q; split; [by rewrite Hd|]; rewrite list.Forall_forall in Ho; specialize (Ho q Hq).
    unfold piece_ok in Ho; lia.
  - intros p Hin Hdis Hdo ->.
    assert (piece_ok len p) as Hpo by (rewrite list.Forall_forall in Ho; auto).
    destruct Hpo as (? & ? & ? & ?); apply (in_holes_nil p.1), Hm; [lia|].
    split; [|left; lia]; intros (q & Hq & ?).
    rewrite list.Forall_forall in Hdis; specialize (Hdis q Hq); unfold disjoint_pieces in Hdis; lia.
Qed.

(** The slot of the datagram is found again. *)
Lemma chosen_found slots i s H done msg p :
  slots !! i = Some s -> partial payload len src dst id proto s H done -> carries payload len src dst id proto msg p ->
  (forall k t, k <> i -> slots !! k = Some t -> ~ has_key src dst id proto t) -> chosen slots msg = Some (i, s).
Proof.
  intros Hi Hp [Ed Es Ei Ep _ _ _] Hu.
  assert (has_key src dst id proto s) as Hk.
  { destruct Hp as [_ _ _ _ (? & ? & ? & ?) ?]; unfold has_key; auto. }
  destruct (find_slot_at src dst id proto (bytes msg) (ip_hdr msg) slots i None 0 s) as [u E]; auto.
  - intros k t Hkt Ht; destruct (decide (k = i)) as [|Hne]; [done|]; by destruct (Hu k t Hne Hkt).
  - unfold chosen; rewrite E; cbn; by rewrite Hi.
Qed.

(** Fragments are received, the last one of which completes the datagram. *)
Lemma receive_rest fresh pieces rest msgs dn slots i s H :
  fragmentation pieces -> dn ++ rest ≡ₚ pieces -> rest <> [] ->
  Forall2 (carries payload len src dst id proto) msgs rest ->
  Forall (fun msg => forall x, ip_hdr msg <= x < ip_hdr msg + sizeof_ip_hdr -> 0 <= bytes msg x < 2 ^ 8) msgs ->
  (forall msg, head msgs = Some msg -> chosen slots msg = Some (i, s)) ->
  partial payload len src dst id proto s H dn -> (i < length slots)%nat ->
  (forall k t, k <> i -> slots !! k = Some t -> ~ has_key src dst id proto t) ->
  exists s' r, receive_all (Some fresh) slots msgs =
      Ok (<[i := s']> slots, replicate (length rest - 1) None ++ [Some r]) /\
    final_msg_ok payload len src dst proto r /\ used s' = 0.
Proof.
  intros Hf Hperm Hne Hc Hb; revert dn slots s H Hperm Hne Hb.
  induction Hc as [|msg p msgs rest Cp Hms IH]; intros dn slots s H Hperm Hne Hb Hch Hp Hi Hu; [done|].
  apply Forall_cons_1 in Hb as [Hbm Hb].
  assert (Hin : p ∈ pieces) by (rewrite <- Hperm, elem_of_app, elem_of_cons; tauto).
  assert (Hok : Forall (piece_ok len) (dn ++ p :: rest)) by (rewrite Hperm; apply Hf).
  assert (Hdis : pairwise disjoint_pieces (dn ++ p :: rest)).
  { apply (pairwise_perm _ pieces); [by symmetry|apply Hf]. }
  apply Forall_app in Hok as [Hdo [Hpo Hro]%Forall_cons_1].
  assert (Hpd : Forall (disjoint_pieces p) dn).
  { apply pairwise_middle in Hdis as [[? _]%Forall_app _]; [done|apply disjoint_sym]. }
  destruct (reassembly_step payload len src dst id proto len_ok (Some fresh) slots msg p dn i s H)
    as (s' & H' & Hp' & E); auto; [by eapply not_whole|].
  destruct (holes_left s' H' (p :: dn) pieces Hp' (fg_cover _ Hf) (fg_ok _ Hf)) as [Hfull Hpart].
  cbn [receive_all]; destruct rest as [|p' rest].
  - rewrite Hfull in E by (rewrite <- Hperm; symmetry; apply Permutation_app_comm).
    assert (EL : payload_length s' = len).
    { apply (pt_length _ _ _ _ _ _ _ _ _ Hp'); destruct (fg_cover _ Hf (len - 1)) as (q & Hq & ?); [lia|].
      exists q; split; [|pose proof (fg_ok _ Hf) as Ho; rewrite list.Forall_forall in Ho;
        specialize (Ho q Hq); unfold piece_ok in Ho; lia].
      revert Hq; rewrite <- Hperm, elem_of_app, !elem_of_cons, elem_of_nil; tauto. }
    assert (ED : forall x, 0 <= x < len -> buffer (set_used 0 s') x = payload x).
    { intros x Hx; unfold set_used; cbn; rewrite store32_other by (unfold o_used, IP_FRAGMENT_MAX_SIZE in *; lia).
      apply (pt_data _ _ _ _ _ _ _ _ _ Hp'); destruct (fg_cover _ Hf x Hx) as (q & Hq & ?); exists q; split; auto.
      revert Hq; rewrite <- Hperm, elem_of_app, !elem_of_cons, elem_of_nil; tauto. }
    destruct (build_final_msg_ok fresh (set_used 0 s') (bytes msg) (ip_hdr msg) payload len) as (r & Er & Hr); auto.
    rewrite Er in E; cbn [mbind res_bind] in E; rewrite E; cbn [mbind res_bind].
    apply Forall2_nil_inv_r in Hms as ->.
    exists (set_used 0 s'), r; split; [done|split].
    + destruct (pt_key _ _ _ _ _ _ _ _ _ Hp') as (K1 & K2 & _ & K4); cbn in Hr; by rewrite K1, K2, K4 in Hr.
    + unfold used, set_used; cbn; apply load32_store32_same; lia.
  - destruct H' as [|h H'].
    { exfalso; apply (Hpart p'); [rewrite <- Hperm, elem_of_app, !elem_of_cons; tauto| |by constructor|done].
      rewrite (cons_middle p dn) in Hdis; rewrite app_assoc in Hdis.
      apply pairwise_middle in Hdis as [[[Hd1 Hd2]%Forall_app _]%Forall_app _]; [|apply disjoint_sym].
      constructor; [by apply Forall_cons_1 in Hd2 as [? _]|done]. }
    rewrite E; cbn [mbind res_bind].
    destruct (IH (p :: dn) (<[i := s']> slots) s' (h :: H')) as (s2 & r & E2 & Hr & Hu2); auto.
    + rewrite <- Hperm; cbn; apply Permutation_middle.
    + destruct msgs as [|msg' msgs]; [done|]; intros ? [= <-]; apply Forall2_cons_1 in Hms as [Cp' _].
      apply (chosen_found _ i s' (h :: H') (p :: dn) _ p'); auto; [by apply list_lookup_insert_eq|].
      intros k t Hk; rewrite list_lookup_insert_ne by done; by apply Hu.
    + by rewrite length_insert.
    + intros k t Hk; rewrite list_lookup_insert_ne by done; by apply Hu.
    + exists s2, r; rewrite E2; cbn [mbind res_bind]; split; [|done].
      by rewrite list_insert_insert_eq; cbn; rewrite Nat.sub_0_r.
Qed.

End receive.

(** The fragments of a datagram, in any order. *)
Lemma receive_pieces payload len src dst id proto fresh slots pieces msgs :
  0 < len <= IP_FRAGMENT_MAX_SIZE -> fragmentation len pieces ->
  Forall2 (carries payload len src dst id proto) msgs pieces ->
  Forall (fun msg => forall x, ip_hdr msg <= x < ip_hdr msg + sizeof_ip_hdr -> 0 <= bytes msg x < 2 ^ 8) msgs ->
  (forall slot, slot ∈ slots -> ~ has_key src dst id proto slot) -> (exists slot, slot ∈ slots /\ used slot = 0) ->
  exists i slot r, receive_all (Some fresh) slots msgs =
      Ok (<[i := slot]> slots, replicate (length pieces - 1) None ++ [Some r]) /\
    final_msg_ok payload len src dst proto r /\ used slot = 0.
Proof.
  intros Hlen Hf Hc Hb Hk (free & Hin & Hz).
  assert (Hm : (2 <= length pieces)%nat) by apply Hf.
  destruct pieces as [|p rest]; [cbn in Hm; lia|]; destruct msgs as [|msg msgs]; [by inversion Hc|].
  assert (Cp : carries payload len src dst id proto msg p) by (by apply Forall2_cons_1 in Hc as [? _]).
  assert (Hu : forall k t, slots !! k = Some t -> ~ has_key src dst id proto t)
    by (intros k t Hkt; apply Hk; by eapply list_elem_of_lookup_2).
  destruct (find_slot_new src dst id proto (bytes msg) (ip_hdr msg) slots None 0 Hu) as (u & Eu & Hcase);
    [apply Cp..|].
  destruct Hcase as [[_ Hall]|(i & t & -> & Hi & _)]; [by destruct (Hall free Hin)|].
  destruct (receive_rest payload len src dst id proto Hlen fresh (p :: rest) (p :: rest) (msg :: msgs) [] slots i
    (init_slot t (bytes msg) (ip_hdr msg)) [(0, HOLE_INF)]) as (s & r & E & Hr & Hs); auto.
  - intros ? [= <-]; unfold chosen; rewrite Eu; cbn; by rewrite Hi.
  - by eapply init_slot_ok.
  - by eapply lookup_lt_Some.
  - intros k t' _; apply Hu.
  - exists i, s, r; auto.
Qed.

(** C30. Reassembly is correct for every order of arrival: the fragments of a
    datagram, disjoint, covering it and cut at multiples of eight octets, that
    arrive in any order give nothing until the last one arrives, and then one
    message that holds exactly the payload, with a valid header; only the slot
    that was used is changed, and it is free again.  No fragment may end between
    the octets 65504 and 65515 of a longer datagram. *)
Theorem reassembly_correct payload len src dst id proto fresh slots pieces msgs :
  0 < len <= IP_FRAGMENT_MAX_SIZE -> fragmentation len pieces ->
  Forall2 (carries payload len src dst id proto) msgs pieces ->
  Forall (fun msg => forall x, ip_hdr msg <= x < ip_hdr msg + sizeof_ip_hdr -> 0 <= bytes msg x < 2 ^ 8) msgs ->
  (forall slot, slot ∈ slots -> ~ has_key src dst id proto slot) -> (exists slot, slot ∈ slots /\ used slot = 0) ->
  exists i slot r, receive_all (Some fresh) slots msgs =
      Ok (<[i := slot]> slots, replicate (length pieces - 1) None ++ [Some r]) /\
    final_msg_ok payload len src dst proto r /\ used slot = 0.
Proof. apply receive_pieces. Qed.

(** ** Examples *)

(** Memory that holds a list of bytes from address 0 on. *)
Definition mem_of (l : list Z) : mem := fun x => if 0 <=? x then default 0 (l !! Z.to_nat x) else 0.

Lemma mem_of_range l : Forall (fun b => 0 <= b < 2 ^ 8) l -> forall x, 0 <= mem_of l x < 2 ^ 8.
Proof.
  intros Hl x; unfold mem_of; case_test; [|lia]; destruct (l !! _) as [b|] eqn:E; cbn; [|lia].
  by apply (Forall_lookup_1 _ _ _ _ Hl E).
Qed.

(** A fragment of datagram 7 from 1.0.0.10 to 2.0.0.10, protocol 17. *)
Definition example_msg (offset mf : Z) (payload : list Z) : net_msg_t :=
  let len := Z.of_nat (length payload) + 20 in
  let flags := mf * 2 ^ 13 + offset / 8 in
  let hdr := [69; 0; len / 256; len mod 256; 0; 7; flags / 256; flags mod 256; 64; 17; 0; 0;
              10; 0; 0; 1; 10; 0; 0; 2] in
  mk_net_msg 0 (mem_of (hdr ++ payload)) 0 len len None 0 0 0 0 0 0 [] 0 (Z.of_nat (length payload)) 17
    (load32 (mem_of hdr) 16) (load32 (mem_of hdr) 12) 0.

Definition free_slot : reassembly_slot_t := mk_slot None None 0 0 0 0 (fun _ => 0).

Definition example_payload (x : Z) : Z := x + 65.

(** Twenty octets in three fragments. *)
Definition example_pieces : list (Z * Z) := [(8, 8); (16, 4); (0, 8)].
Definition example_msgs : list net_msg_t :=
  (fun p => example_msg p.1 (mf_of 20 p) (example_payload <$> seqZ p.1 p.2)) <$> example_pieces.

Lemma reassembly_correct_witness :
  exists i slot r, receive_all (Some (example_msg 0 0 [])) [free_slot; free_slot] example_msgs =
      Ok (<[i := slot]> [free_slot; free_slot], [None; None; Some r]) /\
    final_msg_ok example_payload 20 (load32 (mem_of [10; 0; 0; 1]) 0) (load32 (mem_of [10; 0; 0; 2]) 0) 17 r /\
    used slot = 0.
Proof.
  apply (reassembly_correct example_payload 20 (load32 (mem_of [10; 0; 0; 1]) 0) (load32 (mem_of [10; 0; 0; 2]) 0)
    (7 * 256) 17 (example_msg 0 0 []) [free_slot; free_slot] example_pieces example_msgs).
  - unfold IP_FRAGMENT_MAX_SIZE; lia.
  - split; [repeat constructor; unfold piece_ok; cbn; lia| | |cbn; lia].
    + unfold example_pieces; cbn [pairwise]; rewrite !list.Forall_cons, !list.Forall_nil.
      unfold disjoint_pieces; cbn [fst snd]; lia.
    + intros x Hx; destruct (decide (x < 8)); [exists (0, 8)|destruct (decide (x < 16)); [exists (8, 8)|exists (16, 4)]];
        (split; [unfold example_pieces; rewrite !elem_of_cons; tauto|cbn; lia]).
  - repeat constructor; cbn [fst snd].
    all: try by vm_compute.
    all: intros i Hi; assert (i = 0 \/ i = 1 \/ i = 2 \/ i = 3 \/ i = 4 \/ i = 5 \/ i = 6 \/ i = 7) as Hi' by lia.
    all: destruct Hi' as [->|[->|[->|[->|[->|[->|[->| ->]]]]]]]; try lia; by vm_compute.
  - do 3 (constructor; [intros x _; apply mem_of_range; by repeat (constructor; [by vm_compute|])|]); constructor.
  - intros slot Hs (_ & _ & _ & _ & E); assert (slot = free_slot) as -> by (repeat (apply elem_of_cons in Hs as [->|Hs]; [done|]); by apply elem_of_nil in Hs).
    by vm_compute in E.
  - exists free_slot; split; [left|by vm_compute].
Defined.

(** Which messages completed a datagram, the list of holes of the only slot, and
    its [used] field. *)
Definition outcome (r : res (list reassembly_slot_t * list (option net_msg_t))) : option (list bool * option Z * Z) :=
  match r with
  | Ok ([slot], outs) => Some ((fun o => bool_decide (is_Some o)) <$> outs, hole_list_head slot, used slot)
  | _ => None
  end.

(** The holes share the buffer with the data, and two cases break them.
    Overlapping fragments: after octets 16 to 23, a fragment with octets 0 to 39
    and the last one with octets 40 to 47, all octets have arrived but the
    datagram is not delivered and a hole is left, since the copy of the second
    fragment overwrote the descriptor of a hole the loop had not visited yet.
    End of the buffer: a fragment that ends at octet 65511 with more to come makes
    a hole whose descriptor reaches behind the buffer, over the [used] field of
    the slot, which is lost. *)
Theorem reassembly_shares_memory :
  outcome (receive_all (Some (example_msg 0 0 [])) [free_slot]
    [example_msg 16 1 (replicate 8 65); example_msg 0 1 (replicate 40 65); example_msg 40 0 (replicate 8 65)]) =
  Some ([false; false; false], Some 0, 1) /\
  outcome (receive_all (Some (example_msg 0 0 [])) [free_slot] [example_msg 65504 1 (replicate 8 65)]) =
  Some ([false], Some 65512, 0).
Proof. split; vm_compute; reflexivity. Qed.
