(* ===== verification/TransmitProofs.v ===== *)
(** * Correctness of IP transmission

    A message larger than the transfer unit of the interface is sent as fragments.
    The fragments are well formed, carry the payload, and any order of them gives
    back the payload at a receiver. *)

From S2P Require Import Prelude Errors Memory Net NetProofs NetIf Ip ReassemblyProofs DatagramProofs.
Import Reassembly Transmit.

(** ** The header *)

Ltac hdr_fields := unfold fill_header, o_checksum, o_flags, o_id, o_ip_dest, o_ip_src, o_length, o_priority, o_proto,
  o_ttl, o_version, sizeof_ip_hdr in *.

Record header_ok (m : mem) (h dst src proto : Z) : Prop := {
  hd_bytes : forall x, h <= x < h + 20 -> 0 <= m x < 2 ^ 8;
  hd_version : load8 m (h + o_version) = 69;
  hd_ttl : load8 m (h + o_ttl) = 64;
  hd_checksum : load16 m (h + o_checksum) = 0;
  hd_dest : load32 m (h + o_ip_dest) = dst;
  hd_src : load32 m (h + o_ip_src) = src;
  hd_proto : load8 m (h + o_proto) = proto;
}.

Lemma fill_header_ok m h df dst src size proto :
  0 <= dst < 2 ^ 32 -> 0 <= src < 2 ^ 32 -> 0 <= proto < 2 ^ 8 ->
  header_ok (fill_header m h df dst src size proto) h dst src proto /\
  forall x, ~ (h <= x < h + 20) -> fill_header m h df dst src size proto x = m x.
Proof.
  intros Hd Hs Hp; split; [split|].
  - intros x Hx; hdr_fields; unfold store32, store16, store8.
    repeat (case_test; [first [apply u8_range|lia|by vm_compute]|]); lia.
  - hdr_fields; unfold load8; by rewrite store8_same.
  - hdr_fields; unfold load8; rewrite store8_other by lia; by rewrite store8_same.
  - hdr_fields; mem_simpl; apply load16_store16_same; lia.
  - hdr_fields; mem_simpl; done.
  - hdr_fields; mem_simpl; done.
  - hdr_fields; unfold load8; rewrite !store8_other by lia; by rewrite store8_same.
  - intros x Hx; hdr_fields.
    by repeat first [rewrite store8_other by lia|rewrite store16_other by lia|rewrite store32_other by lia].
Qed.

(** Storing the length, the identification or the flags keeps the header. *)
Lemma header_store16 m h o v dst src proto :
  header_ok m h dst src proto -> 2 <= o <= 6 -> header_ok (store16 m (h + o) v) h dst src proto.
Proof.
  intros [Hb Hv Ht Hc Hd Hs Hp] Ho; unfold o_checksum, o_ip_dest, o_ip_src, o_proto, o_version, o_ttl in *.
  split; unfold o_checksum, o_ip_dest, o_ip_src, o_proto, o_version, o_ttl.
  - intros x Hx; unfold store16, store8; repeat (case_test; [apply u8_range|]); auto.
  - rewrite <- Hv; unfold load8; apply store16_other; lia.
  - rewrite <- Ht; unfold load8; apply store16_other; lia.
  - rewrite <- Hc; apply load16_store16_other; lia.
  - rewrite <- Hd; apply load32_store16; lia.
  - rewrite <- Hs; apply load32_store16; lia.
  - rewrite <- Hp; unfold load8; apply store16_other; lia.
Qed.

Lemma header_move m m' h h' dst src proto :
  header_ok m h dst src proto -> (forall x, 0 <= x < 20 -> m' (h' + x) = m (h + x)) ->
  header_ok m' h' dst src proto.
Proof.
  intros [Hb Hv Ht Hc Hd Hs Hp] E; split; unfold o_checksum, o_ip_dest, o_ip_src, o_proto, o_version, o_ttl in *.
  { intros x Hx; replace x with (h' + (x - h')) by lia; rewrite E by lia; apply Hb; lia. }
  all: unfold load8, load16, load32 in *; rewrite <- !Z.add_assoc in *; rewrite !E by lia; auto.
Qed.

Lemma header_ext m m' h dst src proto :
  header_ok m h dst src proto -> (forall x, h <= x < h + 20 -> m' x = m x) -> header_ok m' h dst src proto.
Proof. intros Hh E; apply (header_move m m' h h); auto; intros; apply E; lia. Qed.

(** The checksum that is filled in makes the header verify. *)
Lemma finish_checksum msg next_hop dst src proto :
  header_ok (bytes msg) (ip_hdr msg) dst src proto ->
  net_compute_checksum (bytes (finish msg next_hop)) (ip_hdr msg) sizeof_ip_hdr = 0.
Proof.
  intros [Hb _ _ Hc _ _ _]; unfold finish, hdr_store16, htons; cbn [bytes set_ip_dest set_bytes ip_hdr].
  change (4 * 5) with 20; apply fill_in_at; unfold o_checksum, sizeof_ip_hdr in *; auto; try lia.
  - apply Forall_lookup; intros i b Hi; assert (i < 20)%nat as Hlt.
    { apply lookup_lt_Some in Hi; by rewrite length_bytes_at in Hi. }
    rewrite lookup_bytes_at in Hi by done; injection Hi as <-; apply Hb; lia.
  - by replace (ip_hdr msg + 10 - ip_hdr msg) with 10 by lia.
Qed.

(** ** Copies of the message *)

Section fragments.
(** The payload and the fields of the header. *)
Context (payload : Z -> Z) (n dst src proto : Z).
Hypothesis n_ok : 0 < n <= 65512.

(** A copy of the message with its header, ready to be cut. *)
Record copy_ok (c : net_msg_t) : Prop := {
  cp_hdr : ip_hdr c = start c;
  cp_header : header_ok (bytes c) (start c) dst src proto;
  cp_data : forall i, 0 <= i < n -> bytes c (start c + 20 + i) = payload i;
  cp_room : data c <= start c /\ start c + 20 + n <= data c + buf_length c /\ end_ c = start c + 20 + n;
  cp_bytes : forall i, 0 <= i < n -> 0 <= payload i < 2 ^ 8;
}.

Lemma clone_ok fresh c :
  copy_ok c -> exists c', net_msg_clone (Some fresh) c = Some c' /\ copy_ok c'.
Proof.
  intros [Hh Hhd Hd (R1 & R2 & R3) Hb]; eexists; split; [done|]; unfold net_msg_get_size; rewrite R3.
  replace (start c + 20 + n - start c) with (20 + n) by lia; rewrite u32_small by lia.
  assert (E : forall x, 0 <= x < 20 + n ->
    blit (bytes fresh) (data fresh) (bytes c) (data c) (buf_length c) (data fresh + (start c - data c) + x) =
    bytes c (start c + x)).
  { intros x Hx; rewrite blit_in by lia; f_equal; lia. }
  split; cbn.
  - by rewrite Hh.
  - by apply (header_move (bytes c) _ (start c)); [|intros; apply E; lia].
  - intros i Hi; rewrite <- Z.add_assoc, E, <- Hd by lia; f_equal; lia.
  - lia.
  - done.
Qed.

(** ** One fragment *)

(** The fragment [l] octets from [offset] on, cut from a copy. *)
Definition fragment_msg (orig c : net_msg_t) (fragment offset l id mf next_hop : Z) : net_msg_t :=
  let msg := cut_fragment (Some orig) c fragment offset l in
  let msg := hdr_store16 (hdr_store16 msg o_id (htons (u16 id))) o_flags
               (htons (u16 (Z.shiftl mf 13 + offset / 8))) in
  finish msg next_hop.

(** What a receiver needs of a fragment. *)
Record fragment_ok (msg : net_msg_t) (id : Z) (p : Z * Z) : Prop := {
  fr_carries : carries payload n src dst (htons (u16 id)) proto msg p;
  fr_checksum : net_compute_checksum (bytes msg) (ip_hdr msg) sizeof_ip_hdr = 0;
  fr_version : load8 (bytes msg) (ip_hdr msg + o_version) = 69;
  fr_ttl : load8 (bytes msg) (ip_hdr msg + o_ttl) = 64;
  fr_size : net_msg_get_size msg = p.2 + sizeof_ip_hdr /\ ip_hdr msg = start msg;
  fr_bytes : forall x, start msg <= x < start msg + sizeof_ip_hdr + p.2 -> 0 <= bytes msg x < 2 ^ 8;
  fr_pos : 0 < p.2;
}.

Section one.
Context (orig c : net_msg_t) (fragment offset l id next_hop : Z).
Hypothesis orig_ok : copy_ok orig.
Hypothesis c_ok : copy_ok c.
Hypothesis piece : piece_ok n (offset, l).
Hypothesis first : fragment = 0 <-> offset = 0.

Lemma piece_bounds : 0 <= offset /\ 0 < l /\ offset + l <= n.
Proof. destruct piece as (? & ? & ? & ?); cbn in *; lia. Qed.

(** The message before the flags and the checksum are set. *)
Let cut := cut_fragment (Some orig) c fragment offset l.

Lemma cut_ok :
  ip_hdr cut = start c /\ start cut = start c /\ end_ cut = start c + (l + 20) /\
  header_ok (bytes cut) (start c) dst src proto /\
  load16 (bytes cut) (start c + o_length) = htons (u16 (l + 20)) /\
  forall i, 0 <= i < l -> bytes cut (start c + 20 + i) = payload (offset + i).
Proof.
  pose proof piece_bounds as Hb; assert (Hc := c_ok); destruct Hc as [Hh Hd Hdata Hr _].
  assert (El : load16 (store16 (bytes c) (ip_hdr c + o_length) (htons (u16 (l + sizeof_ip_hdr)))) (start c + o_length)
    = htons (u16 (l + 20))).
  { rewrite Hh; apply load16_store16_same, ntohs_range. }
  assert (Hs : header_ok (store16 (bytes c) (ip_hdr c + o_length) (htons (u16 (l + sizeof_ip_hdr)))) (start c)
    dst src proto) by (rewrite Hh; apply header_store16; [done|unfold o_length; lia]).
  unfold cut, cut_fragment, hdr_store16; cbn [net_msg_cut_off set_end_ set_bytes ip_hdr bytes start].
  destruct (Z.eqb_spec fragment 0) as [E|E]; cbn [set_bytes ip_hdr bytes start end_]; unfold sizeof_ip_hdr.
  - do 3 (split; [done|]); split; [done|split; [done|]].
    intros i Hi; rewrite store16_other by (unfold o_length; lia).
    assert (offset = 0) as -> by tauto; rewrite Hdata by lia; f_equal.
  - do 3 (split; [done|]); split; [|split].
    + apply (header_ext _ _ _ _ _ _ Hs); intros x Hx; apply blit_out; lia.
    + etransitivity; [|exact El]; apply load16_ext; intros x Hx; apply blit_out; unfold o_length in Hx; lia.
    + intros i Hi; rewrite blit_in by lia; rewrite <- (cp_data _ orig_ok) by lia; f_equal; lia.
Qed.

Lemma fragment_msg_ok :
  let mf := mf_of n (offset, l) in
  fragment_ok (fragment_msg orig c fragment offset l id mf next_hop) id (offset, l).
Proof.
  intros mf; pose proof piece_bounds as Hb; destruct cut_ok as (Hi & Hst & He & Hh & Hl & Hd).
  assert (mf = 0 \/ mf = 1) as Hmf by (unfold mf, mf_of; case_test; auto).
  unfold fragment_msg; fold cut.
  set (m1 := hdr_store16 (hdr_store16 cut o_id _) o_flags _).
  assert (E1 : ip_hdr m1 = start c /\ start m1 = start c /\ end_ m1 = start c + (l + 20)) by auto.
  destruct E1 as (Hi1 & Hs1 & He1).
  assert (B1 : bytes m1 = store16 (store16 (bytes cut) (start c + o_id) (htons (u16 id))) (start c + o_flags)
    (htons (u16 (Z.shiftl mf 13 + offset / 8)))) by (unfold m1, hdr_store16; cbn; by rewrite Hi).
  assert (Hh1 : header_ok (bytes m1) (start c) dst src proto).
  { rewrite B1; do 2 (apply header_store16; [|unfold o_id, o_flags; lia]); done. }
  pose proof (finish_checksum m1 next_hop dst src proto) as Hck; rewrite Hi1 in Hck; specialize (Hck Hh1).
  assert (Bf : forall x, ~ (start c + 10 <= x < start c + 12) -> bytes (finish m1 next_hop) x = bytes m1 x).
  { intros x Hx; unfold finish, hdr_store16; cbn [bytes set_ip_dest set_bytes]; rewrite Hi1.
    apply store16_other; unfold o_checksum; lia. }
  assert (Bd : forall i, 0 <= i < l -> bytes (finish m1 next_hop) (start c + 20 + i) = payload (offset + i)).
  { intros i Hi'; rewrite Bf by lia; rewrite B1, !store16_other by (unfold o_id, o_flags; lia); auto. }
  assert (Hif : ip_hdr (finish m1 next_hop) = start c) by done.
  assert (Hsf : start (finish m1 next_hop) = start c) by done.
  assert (F16 : forall o, 0 <= o <= 8 -> load16 (bytes (finish m1 next_hop)) (start c + o) = load16 (bytes m1) (start c + o))
    by (intros; apply load16_ext; intros; apply Bf; lia).
  destruct Hh1 as [Hby Hv Ht Hc0 Hdst Hsrc Hpr].
  split; rewrite ?Hif, ?Hsf.
  - split; rewrite ?Hif.
    + rewrite <- Hdst; apply load32_ext; unfold o_ip_dest; intros; apply Bf; lia.
    + rewrite <- Hsrc; apply load32_ext; unfold o_ip_src; intros; apply Bf; lia.
    + rewrite F16, B1 by (unfold o_id; lia); unfold o_id, o_flags; rewrite load16_store16_other by lia.
      apply load16_store16_same, ntohs_range.
    + rewrite <- Hpr; unfold load8; apply Bf; unfold o_proto; lia.
    + rewrite F16, B1 by (unfold o_flags; lia); rewrite load16_store16_same by apply ntohs_range.
      assert (0 <= offset / 8 < 2 ^ 13) by (Z.div_mod_to_equations; lia).
      rewrite Z.shiftl_mul_pow2 by lia; rewrite u16_small by lia; apply ntohs_htons; cbn [fst]; fold mf; lia.
    + rewrite F16, B1 by (unfold o_length; lia).
      unfold o_id, o_flags, o_length in *; rewrite !load16_store16_other by lia; rewrite Hl.
      rewrite ntohs_htons by apply u16_range; by rewrite u16_small by lia.
    + exact Bd.
  - exact Hck.
  - rewrite <- Hv; unfold load8; apply Bf; unfold o_version; lia.
  - rewrite <- Ht; unfold load8; apply Bf; unfold o_ttl; lia.
  - split; [|done]; unfold net_msg_get_size, sizeof_ip_hdr; rewrite Hsf.
    change (end_ (finish m1 next_hop)) with (end_ m1); rewrite He1; cbn; rewrite u32_small; lia.
  - intros x Hx; unfold sizeof_ip_hdr in Hx; cbn [snd] in Hx; destruct (decide (x < start c + 20)) as [Hx'|Hx'].
    + destruct (decide (start c + 10 <= x < start c + 12)); [|rewrite Bf by done; apply Hby; lia].
      unfold finish, hdr_store16; cbn [bytes set_ip_dest set_bytes]; apply store16_byte.
      rewrite Hi1; unfold o_checksum; lia.
    + replace x with (start c + 20 + (x - start c - 20)) by lia; rewrite Bd by lia.
      apply (cp_bytes _ c_ok); lia.
  - cbn; lia.
Qed.

End one.
(** ** The loop over the fragments *)

(** Pieces that follow one another from [a] to [b]. *)
Fixpoint consec (a : Z) (ps : list (Z * Z)) (b : Z) : Prop :=
  match ps with [] => a = b | p :: ps => p.1 = a /\ consec (a + p.2) ps b end.

Lemma consec_snoc a ps b l : consec a ps b -> consec a (ps ++ [(b, l)]) (b + l).
Proof. revert a; induction ps as [|p ps IH]; intros a; cbn; [by intros ->|intros [? ?]; auto]. Qed.

Lemma consec_bounds a ps b :
  consec a ps b -> Forall (fun p => 0 < p.2) ps ->
  a <= b /\ Forall (fun p => a <= p.1 /\ p.1 + p.2 <= b) ps.
Proof.
  revert a; induction ps as [|q ps IH]; intros a; cbn; [intros ->; split; [lia|constructor]|].
  intros [E Hc] [Ho Hf]%Forall_cons_1; destruct (IH _ Hc Hf) as [Hle Hall]; split; [lia|].
  constructor; [lia|]; revert Hall; apply Forall_impl; intros; lia.
Qed.

Lemma consec_disjoint a ps b : consec a ps b -> Forall (fun p => 0 < p.2) ps -> pairwise disjoint_pieces ps.
Proof.
  revert a; induction ps as [|q ps IH]; intros a; cbn; [done|].
  intros [E Hc] [Ho Hf]%Forall_cons_1; split; [|by eapply IH].
  destruct (consec_bounds _ _ _ Hc Hf) as [_ Hall]; revert Hall; apply Forall_impl.
  unfold disjoint_pieces; intros; lia.
Qed.

Lemma consec_cover a ps b x : consec a ps b -> a <= x < b -> got ps x.
Proof.
  revert a; induction ps as [|q ps IH]; intros a; cbn; [lia|]; intros [E Hc] Hx.
  destruct (decide (x < a + q.2)); [exists q; split; [left|lia]|].
  destruct (IH _ Hc) as (p & ? & ?); [lia|]; exists p; split; [by right|done].
Qed.

Section loop.
Context (kmalloc : Z -> net_msg_t) (mtu next_hop : Z) (orig : net_msg_t) (t0 : tx_state).
Hypothesis orig_ok : copy_ok orig.
Hypothesis mtu_ok : 28 <= mtu < 2 ^ 31.

Lemma fragment_length_ok sent :
  0 <= sent < n -> sent mod 8 = 0 ->
  let l := fragment_length mtu n sent in
  piece_ok n (sent, l) /\ l + 20 <= mtu /\ (sent + l = n \/ (sent + l) mod 8 = 0 /\ sent + l < n).
Proof.
  intros Hs Hm l; unfold l, fragment_length, sizeof_ip_hdr.
  rewrite (u32_small mtu), (u32_small (n - sent + 20)) by lia.
  destruct (Z.leb_spec mtu (n - sent + 20)) as [H|H].
  - rewrite Z.min_l, (u32_small (mtu - 20)), u32_small by lia; case_test.
    + rewrite Z.shiftl_mul_pow2, Z.shiftr_div_pow2 by lia.
      unfold piece_ok; cbn [fst snd]; Z.div_mod_to_equations; lia.
    + assert (sent + (mtu - 20) = n) by lia; unfold piece_ok; cbn [fst snd]; lia.
  - rewrite Z.min_r, (u32_small (n - sent + 20 - 20)), u32_small by lia.
    case_test; [lia|]; unfold piece_ok; cbn [fst snd]; lia.
Qed.

(** The state of the loop: what was sent, and the counters. *)
Record tx_inv (st : tx_loop_state) (id : Z) (q : list net_msg_t) (ps : list (Z * Z)) : Prop := {
  ti_sent : 0 <= st.1.1.1.1 <= n /\ (st.1.1.1.1 < n -> st.1.1.1.1 mod 8 = 0);
  ti_first : 0 <= st.1.1.1.2 /\ (st.1.1.1.2 = 0 <-> st.1.1.1.1 = 0) /\ (st.1.1.1.2 = 0 -> copy_ok st.1.2);
  ti_id : st.1.1.1.2 <> 0 -> st.1.1.2 = id;
  ti_count : Z.of_nat (length ps) = st.1.1.1.2;
  ti_queue : queue st.2 = queue t0 ++ q;
  ti_frags : Forall2 (fun msg p => fragment_ok msg id p) q ps;
  ti_consec : consec 0 ps st.1.1.1.1;
  ti_pieces : Forall (fun p => piece_ok n p /\ p.2 + 20 <= mtu) ps;
  ti_next : next_id st.2 = if st.1.1.1.2 =? 0 then next_id t0 else u32 (id + 1);
  ti_start : id = (get_id t0).1;
  ti_created : created st.2 = u32 (created t0 + Z.max 0 (st.1.1.1.2 - 1));
  ti_destroyed : destroyed st.2 = if st.1.1.1.1 =? n then u32 (destroyed t0 + 1) else destroyed t0;
}.

Let step := tx_step (fun k => Some (kmalloc k)) (fun _ => true) mtu n next_hop true (Some orig).

Lemma u32_succ x : u32 (u32 x + 1) = u32 (x + 1).
Proof. unfold u32; by rewrite Zplus_mod_idemp_l. Qed.

(** The working copy is a copy of the message. *)
Lemma working_copy_ok fragment m t :
  (fragment = 0 -> copy_ok m) ->
  exists c, working_copy (fun k => Some (kmalloc k)) true (Some orig) fragment m t =
      Ok (Some c, if fragment =? 0 then t else msg_created t) /\ copy_ok c.
Proof.
  intros Hm; unfold working_copy; cbn [andb]; destruct (Z.eqb_spec fragment 0); cbn [negb].
  - exists m; auto.
  - cbn [deref mbind res_bind]; destruct (clone_ok (kmalloc fragment) orig orig_ok) as (c & -> & Hc); eauto.
Qed.

Lemma tx_step_ok st id q ps :
  tx_inv st id q ps -> st.1.1.1.1 < n ->
  exists st' msg l, step st = inl st' /\ tx_inv st' id (q ++ [msg]) (ps ++ [(st.1.1.1.1, l)]) /\
    st'.1.1.1.1 = st.1.1.1.1 + l /\ 0 < l.
Proof.
  destruct st as [[[[sent fragment] idv] m] t]; intros [Is If Ii Ic Iq Ifr Ico Ip In Ist Icr Ide] Hlt.
  cbn [fst snd] in *; destruct If as (F0 & F1 & F2); destruct Is as [Hs Hm]; specialize (Hm Hlt).
  destruct (working_copy_ok fragment m t F2) as (c & Ec & Hc).
  destruct (fragment_length_ok sent) as (Hpo & Hmtu & Hend); [lia|done|].
  set (l := fragment_length mtu n sent) in *.
  assert (0 < l /\ 0 <= sent + l <= n) as [Hl Hsl] by (destruct Hpo as (? & ? & ? & ?); cbn in *; lia).
  unfold step, tx_step; rewrite (proj2 (Z.ltb_lt sent n)) by lia; rewrite Ec; cbn [andb]; fold l.
  rewrite (u32_small (sent + l)) by lia.
  set (idt := if fragment =? 0 then get_id _ else _).
  assert (Hid : idt.1 = id /\ queue idt.2 = queue t /\ next_id idt.2 = u32 (id + 1) /\
    created idt.2 = u32 (created t0 + Z.max 0 fragment) /\ destroyed idt.2 = destroyed t0).
  { rewrite (proj2 (Z.eqb_neq sent n)) in Ide by lia.
    unfold idt; destruct (Z.eqb_spec fragment 0) as [E|E].
    - unfold get_id in *; rewrite In; cbn in *.
      split; [done|split; [done|split; [by rewrite Ist|split; [|done]]]]; rewrite Icr; f_equal; lia.
    - cbn; rewrite Icr, u32_succ, In.
      split; [auto|split; [done|split; [done|split; [f_equal; lia|done]]]]. }
  destruct idt as [id' t'] eqn:Eidt; cbn [fst snd] in Hid; destruct Hid as (-> & Hq & Hnx & Hcr & Hde).
  assert (Emf : (if sent + l <? n then 1 else 0) = mf_of n (sent, l)).
  { unfold mf_of; cbn [fst snd]; destruct (Z.ltb_spec (sent + l) n), (Z.eqb_spec (sent + l) n); lia. }
  rewrite Emf; set (msg := finish _ next_hop).
  assert (Hfr : fragment_ok msg id (sent, l)).
  { apply (fragment_msg_ok orig c fragment sent l id next_hop); auto; tauto. }
  eexists _, msg, l; split; [reflexivity|split; [|auto]].
  split; cbn [fst snd]; auto.
  - split; [lia|]; intros; lia.
  - split; [lia|split; [lia|lia]].
  - rewrite length_app; cbn; lia.
  - cbn [bool_decide]; rewrite andb_true_r; destruct (sent + l =? n); cbn; by rewrite Hq, Iq, <- app_assoc.
  - apply Forall2_app; auto.
  - by apply consec_snoc.
  - apply Forall_app; split; auto.
  - rewrite (proj2 (Z.eqb_neq (fragment + 1) 0)) by lia; destruct (_ && _); cbn; auto.
  - destruct (_ && _); cbn; rewrite Hcr; f_equal; lia.
  - cbn; destruct (Z.eqb_spec (sent + l) n); cbn; by rewrite Hde.
Qed.

Lemma tx_loop_ok st id fuel :
  tx_inv st id [] [] -> (Z.to_nat n < fuel)%nat ->
  exists t' q ps, loop fuel step st = Some (Ok (0, t')) /\ queue t' = queue t0 ++ q /\
    Forall2 (fun msg p => fragment_ok msg id p) q ps /\ consec 0 ps n /\
    Forall (fun p => piece_ok n p /\ p.2 + 20 <= mtu) ps /\ next_id t' = u32 (id + 1) /\
    created t' = u32 (created t0 + Z.of_nat (length ps) - 1) /\ destroyed t' = u32 (destroyed t0 + 1).
Proof.
  intros HI Hf.
  destruct (loop_spec step (fun st => exists q ps, tx_inv st id q ps)
    (fun r => exists st q ps, r = Ok (0, st.2) /\ tx_inv st id q ps /\ st.1.1.1.1 = n)
    (fun st => Z.to_nat (n - st.1.1.1.1))) with (s := st) (fuel := fuel) as (r & -> & st' & q & ps & -> & I & E).
  - intros st1 (q & ps & I); destruct (decide (st1.1.1.1.1 < n)) as [Hlt|Hge].
    + destruct (tx_step_ok st1 id q ps I Hlt) as (st2 & msg & l & -> & I2 & E2 & Hl); split; [eauto|].
      destruct (ti_sent _ _ _ _ I); lia.
    + destruct (ti_sent _ _ _ _ I) as [? _]; destruct st1 as [[[[sent fragment] idv] m] t]; cbn [fst snd] in *.
      unfold step, tx_step; rewrite (proj2 (Z.ltb_ge sent n)) by lia.
      eexists (sent, fragment, idv, m, t), q, ps; split; [done|split; [exact I|cbn; lia]].
  - eauto.
  - destruct (ti_sent _ _ _ _ HI); lia.
  - destruct I as [_ If _ Ic Iq Ifr Ico Ip In _ Icr Ide]; rewrite E in *.
    destruct If as (? & If & _); assert (st'.1.1.1.2 <> 0) by lia.
    rewrite (proj2 (Z.eqb_neq _ 0)) in In by done; rewrite Z.eqb_refl in Ide.
    exists st'.2, q, ps; repeat (split; [done|]); split; [|done]; rewrite Icr; f_equal; lia.
Qed.

End loop.
End fragments.

(** ** The whole function *)

(** A message as the upper layers hand it over: room for the header in front of
    the payload, and the fields in range. *)
Record message_ok (msg : net_msg_t) (n : Z) : Prop := {
  mo_room : data msg + sizeof_ip_hdr <= start msg /\ start msg - data msg < 2 ^ 32 /\
    start msg + n <= data msg + buf_length msg /\ end_ msg = start msg + n;
  mo_bytes : forall x, start msg <= x < start msg + n -> 0 <= bytes msg x < 2 ^ 8;
  mo_fields : 0 <= ip_dest msg < 2 ^ 32 /\ 0 <= ip_src msg < 2 ^ 32 /\ 0 <= ip_proto msg < 2 ^ 8;
}.

(** The payload of a message, and the source address in the header. *)
Definition payload_of (msg : net_msg_t) (i : Z) : Z := bytes msg (start msg + i).
Definition source_of (s : net_state) (nic : Z) (msg : net_msg_t) : Z :=
  if ip_src msg =? 0 then nic_ip_addr (nics s nic) else ip_src msg.

Lemma fragmentation_consec n mtu ps :
  consec 0 ps n -> Forall (fun p => piece_ok n p /\ p.2 + 20 <= mtu) ps -> 0 < n -> mtu < n + 20 ->
  fragmentation n ps.
Proof.
  intros Hc Hp Hn Hm.
  assert (Ho : Forall (piece_ok n) ps) by (revert Hp; apply Forall_impl; tauto).
  assert (H0 : Forall (fun p => 0 < p.2) ps) by (revert Ho; apply Forall_impl; unfold piece_ok; intros; lia).
  split; [done|by eapply consec_disjoint|intros; by eapply consec_cover|].
  destruct ps as [|p [|q ps]]; cbn in *; [lia| |lia].
  apply Forall_cons_1 in Hp as [[_ ?] _]; lia.
Qed.

Section transmit.
Context (kmalloc : Z -> net_msg_t) (s : net_state) (msg : net_msg_t) (t : tx_state) (n nic next_hop : Z).
Hypothesis n_ok : 0 < n <= 65512.
Hypothesis msg_ok : message_ok msg n.
Hypothesis route : ip_get_route s (ip_src msg) (ip_dest msg) = Some (nic, next_hop).
Hypothesis addr_ok : 0 <= nic_ip_addr (nics s nic) < 2 ^ 32.
Hypothesis mtu_ok : 28 <= mtu (nics s nic) < 2 ^ 31.

(** The message with its header. *)
Definition with_header : net_msg_t :=
  let m := set_start (start msg - sizeof_ip_hdr) (set_ethertype (htons ETHERTYPE_IP) (set_nic (Some nic) msg)) in
  let m := set_ip_hdr (start m) m in
  set_bytes (fill_header (bytes m) (start m) (ip_df m) (ip_dest m) (source_of s nic msg) (net_msg_get_size m)
               (ip_proto m)) m.

Lemma with_header_ok :
  copy_ok (payload_of msg) n (ip_dest msg) (source_of s nic msg) (ip_proto msg) with_header.
Proof.
  destruct msg_ok as [(R1 & R2 & R3 & R4) Hb (F1 & F2 & F3)]; unfold sizeof_ip_hdr in *.
  assert (0 <= source_of s nic msg < 2 ^ 32) as Hs by (unfold source_of; case_test; auto).
  unfold with_header, sizeof_ip_hdr; cbn [bytes set_bytes set_ip_hdr set_start start set_ethertype set_nic ip_df ip_dest
    ip_proto data end_ buf_length].
  destruct (fill_header_ok (bytes msg) (start msg - 20) (ip_df msg) (ip_dest msg) (source_of s nic msg)
    (net_msg_get_size (set_ip_hdr (start msg - 20) (set_start (start msg - 20)
       (set_ethertype (htons ETHERTYPE_IP) (set_nic (Some nic) msg))))) (ip_proto msg) F1 Hs F3) as [Hh Ho].
  split; cbn [ip_hdr start bytes data end_ buf_length set_bytes set_ip_hdr set_start set_ethertype set_nic].
  - done.
  - exact Hh.
  - intros i Hi; rewrite Ho by lia; unfold payload_of; f_equal; lia.
  - lia.
  - intros i Hi; apply Hb; lia.
Qed.

Lemma size_ok : net_msg_get_size msg = n.
Proof.
  destruct msg_ok as [(_ & _ & _ & E) _ _]; unfold net_msg_get_size; rewrite E.
  replace (start msg + n - start msg) with n by lia; apply u32_small; lia.
Qed.

Lemma prepend_ok m :
  data m = data msg -> start m = start msg ->
  net_msg_prepend m sizeof_ip_hdr = Some (start msg - sizeof_ip_hdr, set_start (start msg - sizeof_ip_hdr) m).
Proof.
  intros Ed Es; destruct msg_ok as [(R1 & R2 & _) _ _]; unfold net_msg_prepend, sizeof_ip_hdr in *.
  rewrite Ed, Es; rewrite u32_small by lia; by tests.
Qed.

Lemma tx_fragments :
  ip_df msg = 0 -> mtu (nics s nic) < n + sizeof_ip_hdr ->
  let id := (get_id t).1 in
  exists t' q ps, ip_tx_msg (fun k => Some (kmalloc k)) (fun _ => true) s msg t = Ok (0, t') /\
    queue t' = queue t ++ q /\
    Forall2 (fun m p => fragment_ok (payload_of msg) n (ip_dest msg) (source_of s nic msg) (ip_proto msg) m id p) q ps /\
    fragmentation n ps /\ Forall (fun m => net_msg_get_size m <= mtu (nics s nic)) q /\
    next_id t' = u32 (id + 1) /\
    created t' = u32 (created t + Z.of_nat (length q)) /\ destroyed t' = u32 (destroyed t + 1).
Proof.
  intros Hdf Hfrag id; unfold ip_tx_msg; rewrite route.
  change (net_msg_get_size (set_nic (Some nic) msg)) with (net_msg_get_size msg).
  change (net_msg_get_size (set_ethertype (htons ETHERTYPE_IP) (set_nic (Some nic) msg))) with (net_msg_get_size msg).
  change (ip_df (set_nic (Some nic) msg)) with (ip_df msg); rewrite Hdf, size_ok, Z.eqb_refl; cbn [negb andb].
  unfold sizeof_ip_hdr in Hfrag; rewrite (u32_small (mtu _)), (u32_small (n + sizeof_ip_hdr)) by (unfold sizeof_ip_hdr; lia).
  rewrite (proj2 (Z.ltb_lt _ _)) by (unfold sizeof_ip_hdr; lia).
  rewrite prepend_ok by done; cbn [kassert mbind res_bind].
  fold (source_of s nic msg); set (m0 := set_bytes _ _).
  change m0 with with_header; clear m0.
  destruct (clone_ok _ _ _ _ _ n_ok (kmalloc 0) _ with_header_ok) as (orig & -> & Horig).
  rewrite bool_decide_eq_true_2 by eauto.
  destruct (tx_loop_ok (payload_of msg) n (ip_dest msg) (source_of s nic msg) (ip_proto msg) n_ok kmalloc
    (mtu (nics s nic)) next_hop orig (msg_created t) Horig mtu_ok (0, 0, 0, with_header, msg_created t) id
    (Z.to_nat (n + 1))) as (t' & q & ps & -> & Hq & Hf & Hc & Hp & Hn & Hcr & Hd); [|lia|].
  - split; cbn [fst snd]; auto.
    + split; [lia|done].
    + split; [lia|split; [tauto|intros _; apply with_header_ok]].
    + done.
    + by rewrite app_nil_r.
    + done.
    + cbn [msg_created created]; cbn; rewrite Z.add_0_r; unfold u32; by rewrite Zmod_mod.
    + case_test; [lia|done].
  - exists t', q, ps; split; [done|split; [done|split; [done|split; [by eapply fragmentation_consec; eauto; lia|]]]].
    split; [|split; [done|split; [|done]]].
    + clear - Hf Hp; induction Hf as [|m p q ps Hm _ IH]; [constructor|].
      apply Forall_cons_1 in Hp as [[_ Hp1] Hp]; constructor; auto.
      destruct Hm as [_ _ _ _ [-> _] _ _]; unfold sizeof_ip_hdr; lia.
    + rewrite Hcr, (Forall2_length Hf); cbn [msg_created created]; unfold u32.
      rewrite <- Z.add_sub_assoc, Zplus_mod_idemp_l; f_equal; lia.
Qed.

End transmit.

(** A permutation of the fragments is a fragmentation too. *)
Lemma fragmentation_perm len ps qs : ps ≡ₚ qs -> fragmentation len ps -> fragmentation len qs.
Proof.
  intros E [Ho Hd Hc Hm]; split; [by rewrite <- E|by apply (pairwise_perm _ ps)
    | |by rewrite <- E].
  intros x Hx; destruct (Hc x Hx) as (p & ? & ?); exists p; split; [by rewrite <- E|done].
Qed.

(** C29. Fragmentation and reassembly are inverse to each other.  Consider a message of at most 65512 octets that may be
    fragmented (the flag [ip_df] is not set), with room for the header in front, and that
    exceeds the transfer unit of its route, which is at least 28 (the header and eight octets); and
    assume that messages can be allocated and that the work queue accepts the fragments.  It is sent as messages that all respect
    the transfer unit and whose headers verify; delivered in any order to a host
    with a free reassembly slot and no unfinished datagram of the same key, they
    yield exactly one message with exactly the payload.  No message is leaked:
    every message created is in the queue, except the copy that was destroyed. *)
Theorem fragment_reassemble kmalloc s msg t n nic next_hop fresh slots :
  0 < n <= 65512 -> message_ok msg n -> ip_get_route s (ip_src msg) (ip_dest msg) = Some (nic, next_hop) ->
  0 <= nic_ip_addr (nics s nic) < 2 ^ 32 -> 28 <= mtu (nics s nic) < 2 ^ 31 ->
  ip_df msg = 0 -> mtu (nics s nic) < n + sizeof_ip_hdr ->
  (forall slot, slot ∈ slots ->
     ~ has_key (source_of s nic msg) (ip_dest msg) (htons (u16 (get_id t).1)) (ip_proto msg) slot) ->
  (exists slot, slot ∈ slots /\ used slot = 0) ->
  exists t' q, ip_tx_msg (fun k => Some (kmalloc k)) (fun _ => true) s msg t = Ok (0, t') /\
    queue t' = queue t ++ q /\
    created t' = u32 (created t + Z.of_nat (length q)) /\ destroyed t' = u32 (destroyed t + 1) /\
    Forall (fun m => net_msg_get_size m <= mtu (nics s nic) /\
                     net_compute_checksum (bytes m) (ip_hdr m) sizeof_ip_hdr = 0) q /\
    forall received, received ≡ₚ q ->
      exists i slot r, receive_all (Some fresh) slots received =
          Ok (<[i := slot]> slots, replicate (length q - 1) None ++ [Some r]) /\
        final_msg_ok (payload_of msg) n (source_of s nic msg) (ip_dest msg) (ip_proto msg) r.
Proof.
  intros Hn Hm Hr Ha Hmtu Hdf Hlt Hk Hz.
  destruct (tx_fragments kmalloc s msg t n nic next_hop Hn Hm Hr Ha Hmtu Hdf Hlt)
    as (t' & q & ps & E & Hq & Hf & Hfr & Hsz & Hid & Hcr & Hde).
  exists t', q; do 4 (split; [done|]); split.
  { clear - Hf Hsz; induction Hf as [|m p q ps Hm _ IH]; [constructor|].
    apply Forall_cons_1 in Hsz as [? ?]; constructor; auto; split; [done|apply Hm]. }
  intros rcv Hp; destruct (Permutation_Forall2 (symmetry Hp) Hf) as (ps' & Hps & Hf').
  destruct (receive_pieces (payload_of msg) n (source_of s nic msg) (ip_dest msg) (htons (u16 (get_id t).1))
    (ip_proto msg) fresh slots ps' rcv) as (i & slot & r & Er & Hfm & _); auto.
  - unfold IP_FRAGMENT_MAX_SIZE; lia.
  - by eapply fragmentation_perm.
  - revert Hf'; apply Forall2_impl; by intros m p [].
  - clear - Hf'; induction Hf' as [|m p q ps [_ _ _ _ [_ Hh] Hb Hp]]; constructor; auto.
    intros x Hx; apply Hb; rewrite Hh in Hx; lia.
  - exists i, slot, r; split; [|done]; by rewrite Er, <- (Forall2_length Hf'), Hp.
Qed.

(** An interface with a transfer unit of 28 bytes and a route through it, and a
    message with 20 octets behind 64 bytes of headroom. *)
Definition example_net : net_state :=
  mk_net_state (fun _ => mk_nic 0 [] 10 255 1 28 [101; 116; 104; 48]) [mk_nic_entry (Some 1) (Some true)]
    [mk_route (mk_rtentry 10 0 255 [] 2) (Some 1)].

Definition example_out : net_msg_t :=
  mk_net_msg 100 (fun x => mem_of (seqZ 1 84) (x - 100)) 164 184 84 None 0 0 0 0 0 0 [] 0 0 17 522 0 0.

Lemma fragment_reassemble_witness :
  exists t' q, ip_tx_msg (fun k => Some (example_msg 0 0 [])) (fun _ => true) example_net example_out (mk_tx 1 [] 0 0)
      = Ok (0, t') /\ queue t' = q /\
    forall received, received ≡ₚ q ->
      exists i slot r, receive_all (Some (example_msg 0 0 [])) [free_slot] received =
          Ok (<[i := slot]> [free_slot], replicate (length q - 1) None ++ [Some r]) /\
        final_msg_ok (payload_of example_out) 20 10 522 17 r.
Proof.
  destruct (fragment_reassemble (fun k => example_msg 0 0 []) example_net example_out (mk_tx 1 [] 0 0) 20 1 522
    (example_msg 0 0 []) [free_slot]) as (t' & q & E & Hq & _ & _ & _ & Hr).
  - lia.
  - split; [cbn; unfold sizeof_ip_hdr; lia| |cbn; lia].
    intros x _; apply mem_of_range, Forall_forall; intros y Hy%list_elem_of_In%elem_of_seqZ; lia.
  - by vm_compute.
  - cbn; lia.
  - cbn; lia.
  - done.
  - cbn; unfold sizeof_ip_hdr; lia.
  - intros slot ->%list_elem_of_singleton (_ & _ & _ & _ & Hu); by vm_compute in Hu.
  - exists free_slot; split; [left|by vm_compute].
  - exists t', q; split; [exact E|split; [exact Hq|exact Hr]].
Defined.
