(* ===== verification/IpSocket.v ===== *)
(** * Reception of IP datagrams and raw IP sockets ([kernel/ip.c])

    [ip_rx_msg] validates a datagram, reassembles it, copies it to the raw
    sockets that match and hands it to the transport protocol. *)

From S2P Require Import Prelude Errors Memory Net NetIf Ip.
Import Reassembly.

Definition IP_SOCKET_SLOTS : nat := 1024.
Definition IP_RCV_BUFFER_SIZE : Z := 16 * 65536.
Definition NET_EVENT_CAN_READ : Z := 1.
Definition NET_EVENT_CAN_WRITE : Z := 2.
Definition sizeof_sockaddr_in : Z := 16.

(** ** Sockets ([socket_t] with its part [ip_socket_t])

    The receive buffer is a list of messages; [freed] records [kfree(socket)]. *)
Record ip_socket_t := mk_sock {
  bound : Z;
  connected : Z;
  laddr : Z;
  faddr : Z;
  sock_proto : Z;
  rcv_buffer : list net_msg_t;
  pending_bytes : Z;
  ref_count : Z;
  freed : bool;
}.

(** The sockets by address, the table of raw sockets, the events posted, and the
    numbers of messages created and destroyed. *)
Record sock_state := mk_socks {
  socks : Z -> ip_socket_t;
  raw_sockets : list (option Z);
  events : list (Z * Z);
  msgs_created : Z;
  msgs_destroyed : Z;
}.

Definition upd_sock (p : Z) (f : ip_socket_t -> ip_socket_t) (s : sock_state) : sock_state :=
  mk_socks (<[p := f (socks s p)]> (socks s)) (raw_sockets s) (events s) (msgs_created s) (msgs_destroyed s).
Definition set_raw (l : list (option Z)) (s : sock_state) : sock_state :=
  mk_socks (socks s) l (events s) (msgs_created s) (msgs_destroyed s).
Definition net_post_event (p event : Z) (s : sock_state) : sock_state :=
  mk_socks (socks s) (raw_sockets s) (events s ++ [(p, event)]) (msgs_created s) (msgs_destroyed s).
Definition count_created (s : sock_state) : sock_state :=
  mk_socks (socks s) (raw_sockets s) (events s) (u32 (msgs_created s + 1)) (msgs_destroyed s).
Definition net_msg_destroy (s : sock_state) : sock_state :=
  mk_socks (socks s) (raw_sockets s) (events s) (msgs_created s) (u32 (msgs_destroyed s + 1)).

Definition set_ref (v : Z) (k : ip_socket_t) : ip_socket_t :=
  mk_sock (bound k) (connected k) (laddr k) (faddr k) (sock_proto k) (rcv_buffer k) (pending_bytes k) v (freed k).
Definition set_freed (k : ip_socket_t) : ip_socket_t :=
  mk_sock (bound k) (connected k) (laddr k) (faddr k) (sock_proto k) (rcv_buffer k) (pending_bytes k) (ref_count k) true.
Definition set_bound (addr : Z) (b : Z) (k : ip_socket_t) : ip_socket_t :=
  mk_sock b (connected k) addr (faddr k) (sock_proto k) (rcv_buffer k) (pending_bytes k) (ref_count k) (freed k).
Definition set_peer (addr : Z) (k : ip_socket_t) : ip_socket_t :=
  mk_sock (bound k) 1 (laddr k) addr (sock_proto k) (rcv_buffer k) (pending_bytes k) (ref_count k) (freed k).
Definition set_rcv (l : list net_msg_t) (pending : Z) (k : ip_socket_t) : ip_socket_t :=
  mk_sock (bound k) (connected k) (laddr k) (faddr k) (sock_proto k) l pending (ref_count k) (freed k).

(** ** Reference counts *)

Definition clone_socket (p : option Z) (s : sock_state) : sock_state :=
  match p with Some p => upd_sock p (fun k => set_ref (s32 (ref_count k + 1)) k) s | None => s end.

(** [count = (ipcb->ref_count--); if (0 == count) kfree(socket)] *)
Definition ip_release_socket (p : Z) (s : sock_state) : sock_state :=
  let count := ref_count (socks s p) in
  let s := upd_sock p (fun k => set_ref (s32 (ref_count k - 1)) k) s in
  if count =? 0 then upd_sock p set_freed s else s.

Definition add_socket (p : Z) (s : sock_state) : sock_state * Z :=
  match list_find (fun o => o = None) (raw_sockets s) with
  | Some (i, _) => (set_raw (<[i := Some p]> (raw_sockets s)) (clone_socket (Some p) s), 0)
  | None => (s, - ENOBUFS)
  end.

(** One slot of the loop of [drop_socket]. *)
Definition drop_slot (p : Z) (s : sock_state) (i : nat) : sock_state :=
  if bool_decide (raw_sockets s !! i = Some (Some p))
  then let s := ip_release_socket p s in set_raw (<[i := None]> (raw_sockets s)) s
  else s.

Definition drop_socket (p : Z) (s : sock_state) : sock_state :=
  fold_left (drop_slot p) (seq 0 (length (raw_sockets s))) s.

(** ** Reception *)

(** [kmalloc] is what the allocations of the clone return. *)
Definition store_in_socket (kmalloc : option net_msg_t) (p : Z) (msg : net_msg_t) (s : sock_state) : sock_state :=
  let bytes := ip_length msg + sizeof_ip_hdr in
  if IP_RCV_BUFFER_SIZE <? u32 (pending_bytes (socks s p) + bytes) then s
  else match net_msg_clone kmalloc msg with
       | None => s
       | Some clone =>
           let s := upd_sock p (fun k => set_rcv (rcv_buffer k ++ [clone]) (u32 (pending_bytes k + bytes)) k)
                      (count_created s) in
           net_post_event p NET_EVENT_CAN_READ s
       end.

(** The loop over the raw sockets: slot [i] with content [o]. *)
Definition rx_raw (kmalloc : nat -> option net_msg_t) (out msg : net_msg_t) (s : sock_state) (io : nat * option Z)
    : sock_state :=
  let '(i, o) := io in
  match o with
  | None => s
  | Some p =>
      let s := clone_socket (Some p) s in
      let k := socks s p in
      let s := if negb (bound k =? 0) && (ip_dest out =? laddr k)
                  && (load8 (bytes msg) (ip_hdr msg + o_proto) =? sock_proto k)
               then store_in_socket (kmalloc i) p msg s else s in
      ip_release_socket p s
  end.

(** What becomes of a datagram: it is dropped, kept for reassembly, or handed to
    a transport protocol. *)
Inductive rx_result := Dropped | Kept | Leaked | To_icmp (m : net_msg_t) | To_tcp (m : net_msg_t) | To_udp (m : net_msg_t).

Definition ip_dispatch (proto : Z) (out : net_msg_t) (s : sock_state) : sock_state * rx_result :=
  if proto =? IP_PROTO_ICMP then (s, To_icmp (net_msg_set_icmp_hdr out (5 * 4)))
  else if proto =? IP_PROTO_TCP then (s, To_tcp (net_msg_set_tcp_hdr out (5 * 4)))
  else if proto =? IP_PROTO_UDP then (s, To_udp (net_msg_set_udp_hdr out (5 * 4)))
  else (net_msg_destroy s, Dropped).

(** The tests before reassembly. *)
Definition ip_rx_valid (n : net_state) (msg : net_msg_t) : bool :=
  let m := bytes msg in
  let h := ip_hdr msg in
  (Z.shiftr (load8 m (h + o_version)) 4 =? IPV4_VERSION)
  && (Z.land (load8 m (h + o_version)) 15 =? IPV4_HDR_LENGTH)
  && match nic msg with
     | None => false
     | Some i => negb (ip_addr_assigned (nics n i) =? 0) && (nic_ip_addr (nics n i) =? load32 m (h + o_ip_dest))
     end
  && negb (load8 m (h + o_ttl) =? 0)
  && (net_compute_checksum m h (IPV4_HDR_LENGTH * 4) =? 0).

(** [km] is what the allocation of a reassembled message returns, [kmalloc i]
    that of the clone for raw socket slot [i].  After reassembly the code goes on
    to read the header of the message that [ip_reassembly] has freed. *)
Definition ip_rx_msg (km : option net_msg_t) (kmalloc : nat -> option net_msg_t) (n : net_state)
    (slots : list reassembly_slot_t) (msg : net_msg_t) (s : sock_state)
    : res (list reassembly_slot_t * sock_state * rx_result) :=
  if negb (ip_rx_valid n msg) then Ok (slots, net_msg_destroy s, Dropped)
  else
    let m := bytes msg in
    let h := ip_hdr msg in
    let msg := set_ip_src (load32 m (h + o_ip_src)) (set_ip_dest (load32 m (h + o_ip_dest)) msg) in
    let total := ntohs (load16 m (h + o_length)) in
    if total <? 4 * IPV4_HDR_LENGTH then Ok (slots, s, Leaked)
    else
      let msg := set_ip_length (u16 (total - 4 * IPV4_HDR_LENGTH)) msg in
      '(slots, out, destroyed) ← ip_reassembly km slots msg;
      let s := if destroyed : bool then net_msg_destroy s else s in
      match out with
      | None => Ok (slots, s, Kept)
      | Some out =>
          if destroyed : bool then Fault
          else
            let s := fold_left (rx_raw kmalloc out msg) (zip (seq 0 (length (raw_sockets s))) (raw_sockets s)) s in
            let '(s, r) := ip_dispatch (load8 m (h + o_proto)) out s in
            Ok (slots, s, r)
      end.

(** ** Operations of the user *)

Definition ip_create_socket (p : Z) (domain proto : Z) (s : sock_state) : sock_state * Z :=
  if negb (domain =? AF_INET) then (s, - EINVAL)
  else (upd_sock p (fun k => mk_sock (bound k) (connected k) (laddr k) (faddr k) (u8 proto) [] 0 1 (freed k)) s, 0).

Definition ip_bind (p addr addrlen : Z) (s : sock_state) : sock_state * Z :=
  if negb (sizeof_sockaddr_in =? addrlen) then (s, - EINVAL)
  else if bound (socks s p) =? 0 then
    let s := upd_sock p (fun k => set_bound addr (bound k) k) s in
    let '(s, rc) := add_socket p s in
    if rc =? 0 then (upd_sock p (fun k => set_bound (laddr k) 1 k) s, 0) else (s, - ENOBUFS)
  else (s, - EINVAL).

Definition ip_connect_socket (n : net_state) (p addr addrlen : Z) (s : sock_state) : sock_state * Z :=
  if negb (sizeof_sockaddr_in =? addrlen) then (s, - EINVAL)
  else
    let '(s, ok) :=
      if bound (socks s p) =? 0 then
        let s := upd_sock p (fun k => set_bound (ip_get_src_addr n addr) (bound k) k) s in
        let '(s, rc) := add_socket p s in
        if rc <? 0 then (s, false) else (upd_sock p (fun k => set_bound (laddr k) 1 k) s, true)
      else (s, true) in
    if ok : bool then (net_post_event p NET_EVENT_CAN_WRITE (upd_sock p (set_peer addr) s), 0) else (s, - ENOBUFS).

Definition ip_close_socket (p : Z) (s : sock_state) : sock_state :=
  let s := drop_socket p s in
  let s' := fold_left (fun s _ => net_msg_destroy s) (rcv_buffer (socks s p)) s in
  upd_sock p (fun k => set_rcv [] (pending_bytes k) k) s'.

(** The bytes copied to the user, the sender, and the new state.  [addr] and
    [addrlen] tell whether these pointers are given. *)
Definition ip_recvfrom (p len : Z) (addr addrlen : bool) (s : sock_state) : sock_state * (Z + list Z * Z) :=
  let k := socks s p in
  if bound k =? 0 then (s, inl (- EINVAL))
  else if addr && negb addrlen then (s, inl (- EINVAL))
  else match rcv_buffer k with
       | [] => (s, inl (- EAGAIN))
       | item :: rest =>
           let n := Z.min (ip_length item + sizeof_ip_hdr) len in
           let s := upd_sock p (fun k => set_rcv rest (u32 (pending_bytes k - n)) k) s in
           (net_msg_destroy s, inr (bytes_at (bytes item) (ip_hdr item) (Z.to_nat n), ip_src item))
       end.

Definition ip_recv (p len : Z) (s : sock_state) : sock_state * (Z + list Z * Z) := ip_recvfrom p len false false s.

(** [km] is what the allocation of the message returns, [kmalloc] and [wq] are
    those of [ip_tx_msg]; [addr] is the destination, if one is given. *)
Definition ip_socket_sendto (km : option net_msg_t) (kmalloc : Z -> option net_msg_t) (wq : Z -> bool)
    (n : net_state) (k : ip_socket_t) (buffer : mem) (len : Z) (addr : option Z) (addrlen : Z)
    (t : Transmit.tx_state) : res (Z * Transmit.tx_state) :=
  if (connected k =? 0) && bool_decide (addr = None) then Ok (- ENOTCONN, t)
  else if bool_decide (is_Some addr) && negb (sizeof_sockaddr_in =? addrlen) then Ok (- EINVAL, t)
  else if bool_decide (is_Some addr) && negb (connected k =? 0) then Ok (- EISCONN, t)
  else if IP_FRAGMENT_MAX_SIZE <? len then Ok (- EMSGSIZE, t)
  else match net_msg_new km len with
       | None => Ok (- ENOMEM, t)
       | Some msg =>
           let msg := set_ip_src (if bound k =? 0 then INADDR_ANY else laddr k) msg in
           let msg := set_ip_dest (if connected k =? 0 then default 0 addr else faddr k) msg in
           let msg := set_ip_proto (sock_proto k) (set_ip_df 0 msg) in
           '(data, msg) ← kassert (net_msg_append msg len);
           let msg := set_bytes (blit (bytes msg) data buffer 0 len) msg in
           '(rc, t) ← Transmit.ip_tx_msg kmalloc wq n msg (Transmit.msg_created t);
           Ok (if rc =? 0 then len else rc, t)
       end.

Definition ip_socket_send (km : option net_msg_t) (kmalloc : Z -> option net_msg_t) (wq : Z -> bool)
    (n : net_state) (k : ip_socket_t) (buffer : mem) (len : Z) (t : Transmit.tx_state) : res (Z * Transmit.tx_state) :=
  ip_socket_sendto km kmalloc wq n k buffer len None 0 t.

Definition ip_select (p : Z) (read write : bool) (s : sock_state) : Z :=
  (if read && (0 <? pending_bytes (socks s p)) then NET_EVENT_CAN_READ else 0)
  + (if write then NET_EVENT_CAN_WRITE else 0).
