(* ===== verification/IpSocketProofs.v ===== *)
(** * Reception and raw sockets

    Which datagrams are accepted and where they go, and what happens to the
    accounting of raw sockets. *)

From S2P Require Import Prelude Errors Memory Net NetProofs NetIf Ip ReassemblyProofs DatagramProofs IpSocket.
Import Reassembly.

(** ** Delivery to raw sockets *)

(** The socket is bound to the destination and has the protocol of the datagram. *)
Definition wants (out msg : net_msg_t) (k : ip_socket_t) : bool :=
  negb (bound k =? 0) && (ip_dest out =? laddr k) && (load8 (bytes msg) (ip_hdr msg + o_proto) =? sock_proto k).

(** The socket after a copy of the message was stored. *)
Definition stored_in (km : option net_msg_t) (msg : net_msg_t) (k : ip_socket_t) : ip_socket_t :=
  if IP_RCV_BUFFER_SIZE <? u32 (pending_bytes k + (ip_length msg + sizeof_ip_hdr)) then k
  else match net_msg_clone km msg with
       | None => k
       | Some c => set_rcv (rcv_buffer k ++ [c]) (u32 (pending_bytes k + (ip_length msg + sizeof_ip_hdr))) k
       end.

Definition after_rx (km : option net_msg_t) (out msg : net_msg_t) (k : ip_socket_t) : ip_socket_t :=
  if wants out msg k then stored_in km msg k else k.

Lemma upd_sock_eq p f s q : socks (upd_sock p f s) q = if decide (q = p) then f (socks s p) else socks s q.
Proof.
  unfold upd_sock; cbn; destruct (decide (q = p)) as [->|]; [apply fn_lookup_insert|by apply fn_lookup_insert_ne].
Qed.

Lemma set_ref_id k : set_ref (ref_count k) k = k.
Proof. by destruct k. Qed.

Lemma store_in_socket_eq km p msg s q :
  socks (store_in_socket km p msg s) q = if decide (q = p) then stored_in km msg (socks s p) else socks s q.
Proof.
  unfold store_in_socket, stored_in; case_test; [by destruct (decide (q = p)) as [->|]|].
  destruct (net_msg_clone km msg); [|by destruct (decide (q = p)) as [->|]].
  change (socks (net_post_event p NET_EVENT_CAN_READ ?s')) with (socks s'); by rewrite upd_sock_eq.
Qed.

Lemma stored_in_ref km msg k :
  ref_count (stored_in km msg k) = ref_count k /\
  forall v, set_ref v (stored_in km msg k) = stored_in km msg (set_ref v k).
Proof. unfold stored_in; cbn; case_test; [done|]; by destruct (net_msg_clone km msg). Qed.

(** A count that overflows comes back. *)
Lemma s32_succ_pred r : 0 <= r < 2 ^ 31 -> s32 (r + 1) <> 0 /\ s32 (s32 (r + 1) - 1) = r.
Proof.
  intros H; destruct (decide (r = 2 ^ 31 - 1)) as [->|]; [by vm_compute|].
  rewrite (s32_small (r + 1)), s32_small by lia; lia.
Qed.

(** A slot of the loop: the reference taken is given back. *)
Lemma rx_raw_eq km out msg s i p q :
  0 <= ref_count (socks s p) < 2 ^ 31 ->
  socks (rx_raw km out msg s (i, Some p)) q =
  if decide (q = p) then after_rx (km i) out msg (socks s p) else socks s q.
Proof.
  intros Hr; unfold rx_raw, clone_socket, ip_release_socket.
  set (r := s32 (ref_count (socks s p) + 1)); set (s1 := upd_sock p (fun k => set_ref (s32 (ref_count k + 1)) k) s).
  set (s2 := if _ : bool then store_in_socket (km i) p msg s1 else s1).
  assert (E1 : forall q, socks s1 q = if decide (q = p) then set_ref r (socks s p) else socks s q)
    by (intros q'; unfold s1; by rewrite upd_sock_eq).
  assert (Ep : socks s1 p = set_ref r (socks s p)) by (rewrite E1; by rewrite decide_True).
  assert (E2 : forall q, socks s2 q = if decide (q = p) then
    set_ref r (after_rx (km i) out msg (socks s p)) else socks s q).
  { intros q'; unfold s2, after_rx, wants; clear s2; rewrite Ep; cbn [set_ref bound laddr sock_proto].
    destruct (_ && _ && _); [|apply E1].
    rewrite store_in_socket_eq, Ep; destruct (stored_in_ref (km i) msg (socks s p)) as [_ ->].
    destruct (decide (q' = p)); [done|rewrite E1; by rewrite decide_False]. }
  assert (Er : ref_count (socks s2 p) = r) by (rewrite E2; by rewrite decide_True).
  assert (Hr1 : r <> 0 /\ s32 (r - 1) = ref_count (socks s p)) by (subst r; apply s32_succ_pred; lia).
  rewrite Er, (proj2 (Z.eqb_neq _ 0)) by lia; rewrite upd_sock_eq.
  destruct (decide (q = p)) as [->|Hne]; [|by rewrite E2, decide_False].
  rewrite Er, E2, decide_True by done; cbn.
  rewrite (proj2 Hr1).
  assert (ref_count (after_rx (km i) out msg (socks s p)) = ref_count (socks s p)) as <-.
  { unfold after_rx; destruct (wants _ _ _); [apply stored_in_ref|done]. }
  by destruct (after_rx _ _ _ _).
Qed.

(** The whole loop, when every socket has at most one slot. *)
Lemma rx_loop km out msg l s :
  (forall p, 0 <= ref_count (socks s p) < 2 ^ 31) ->
  (forall i j p, (i, Some p) ∈ l -> (j, Some p) ∈ l -> i = j) -> NoDup l ->
  forall q, (forall i, (i, Some q) ∈ l -> socks (fold_left (rx_raw km out msg) l s) q = after_rx (km i) out msg (socks s q)) /\
            ((forall i, (i, Some q) ∉ l) -> socks (fold_left (rx_raw km out msg) l s) q = socks s q).
Proof.
  revert s; induction l as [|[i o] l IH]; intros s Hr Hu Hn q; cbn [fold_left].
  { split; [by intros i ?%elem_of_nil|done]. }
  apply list.NoDup_cons in Hn as [Hin Hn].
  assert (Hu' : forall i j p, (i, Some p) ∈ l -> (j, Some p) ∈ l -> i = j).
  { intros; eapply Hu; by right. }
  destruct o as [p|].
  2:{ destruct (IH s Hr Hu' Hn q) as [I1 I2]; split.
      - intros j [[= ? ?]|Hj]%elem_of_cons; auto.
      - intros Hq; apply I2; intros j Hj; apply (Hq j); by right. }
  set (s1 := rx_raw km out msg s (i, Some p)).
  assert (E : forall q, socks s1 q = if decide (q = p) then after_rx (km i) out msg (socks s p) else socks s q)
    by (intros; by apply rx_raw_eq).
  assert (Hr1 : forall p, 0 <= ref_count (socks s1 p) < 2 ^ 31).
  { intros p'; rewrite E; destruct (decide (p' = p)); [|done].
    unfold after_rx; destruct (wants _ _ _); [destruct (stored_in_ref (km i) msg (socks s p)) as [-> _]|]; done. }
  destruct (IH s1 Hr1 Hu' Hn q) as [I1 I2]; split.
  - intros j [[= -> ->]|Hj]%elem_of_cons.
    + rewrite I2, E, decide_True; [done..|].
      intros j' Hj'; destruct Hin; assert (j' = i) as <-; [|done]; apply (Hu j' i p); [by right|by left].
    + rewrite (I1 j Hj), E; destruct (decide (q = p)) as [->|]; [|done].
      destruct Hin; assert (i = j) as ->; [|done]; apply (Hu i j p); [by left|by right].
  - intros Hq; rewrite I2, E by (intros j Hj; apply (Hq j); by right).
    rewrite decide_False; [done|]; intros ->; apply (Hq i); by left.
Qed.

(** The table of raw sockets with the numbers of its slots. *)
Lemma raw_slot_elem (l : list (option Z)) i o : (i, o) ∈ zip (seq 0 (length l)) l <-> l !! i = Some o.
Proof.
  rewrite list_elem_of_lookup; split.
  - intros (k & Hk); apply lookup_zip_Some in Hk as [Hs Ho].
    apply lookup_seq in Hs as [-> _]; by rewrite Nat.add_0_l.
  - intros Hi; exists i; apply lookup_zip_Some; split; [|done].
    apply lookup_seq; split; [done|by eapply lookup_lt_Some].
Qed.

Lemma raw_slots_nodup (l : list (option Z)) : NoDup (zip (seq 0 (length l)) l).
Proof.
  apply (NoDup_fmap_1 fst); change (NoDup ((zip (seq 0 (length l)) l).*1)).
  rewrite fst_zip by (by rewrite length_seq); apply NoDup_seq.
Qed.

(** A socket is in at most one slot, and no reference count is negative; it is an [int]. *)
Record table_ok (s : sock_state) : Prop := {
  tb_once : forall i j p, raw_sockets s !! i = Some (Some p) -> raw_sockets s !! j = Some (Some p) -> i = j;
  tb_ref : forall p, 0 <= ref_count (socks s p) < 2 ^ 31;
}.

(** The message after the fields were filled from its header. *)
Definition filled_in (msg : net_msg_t) : net_msg_t :=
  let m := bytes msg in
  let h := ip_hdr msg in
  set_ip_length (ntohs (load16 m (h + o_length)) - 20)
    (set_ip_src (load32 m (h + o_ip_src)) (set_ip_dest (load32 m (h + o_ip_dest)) msg)).

(** C31. Reception of a datagram that is not fragmented.  If it is no IPv4 datagram
    without options for the address of the interface it came from, with a time to
    live and a checksum that verifies, it is destroyed and no socket sees it.
    If it is one, but the length in its header is less than that of the header, no
    socket sees it either, but the message is not destroyed.
    Otherwise a copy is appended to the queue of every raw socket bound to the
    destination with the protocol of the datagram that has room and for which the copy can be allocated, no other socket
    changes, the reference counts are as before, and the message goes to the
    protocol its header names, with the header pointer behind the IP header. *)
Theorem rx_correct km kmalloc n slots msg s :
  0 <= ntohs (load16 (bytes msg) (ip_hdr msg + o_length)) < 2 ^ 16 -> table_ok s ->
  (ip_rx_valid n msg = false -> ip_rx_msg km kmalloc n slots msg s = Ok (slots, net_msg_destroy s, Dropped)) /\
  (ip_rx_valid n msg = true -> ntohs (load16 (bytes msg) (ip_hdr msg + o_length)) < 20 ->
   ip_rx_msg km kmalloc n slots msg s = Ok (slots, s, Leaked)) /\
  (ip_rx_valid n msg = true -> 20 <= ntohs (load16 (bytes msg) (ip_hdr msg + o_length)) ->
   more_fragments (ntohs (load16 (bytes msg) (ip_hdr msg + o_flags))) = 0 ->
   fragment_offset (ntohs (load16 (bytes msg) (ip_hdr msg + o_flags))) = 0 ->
   let proto := load8 (bytes msg) (ip_hdr msg + o_proto) in
   let m := filled_in msg in
   exists s', ip_rx_msg km kmalloc n slots msg s =
       Ok (slots, s', if proto =? IP_PROTO_ICMP then To_icmp (set_icmp_hdr (ip_hdr m + 20) m)
                      else if proto =? IP_PROTO_TCP then To_tcp (set_tcp_hdr (ip_hdr m + 20) m)
                      else if proto =? IP_PROTO_UDP then To_udp (set_udp_hdr (ip_hdr m + 20) m)
                      else Dropped) /\
     (forall i q, raw_sockets s !! i = Some (Some q) -> socks s' q = after_rx (kmalloc i) m m (socks s q)) /\
     (forall q, (forall i, raw_sockets s !! i <> Some (Some q)) -> socks s' q = socks s q)).
Proof.
  intros Hl [Hu Hr]; split; [unfold ip_rx_msg; by intros ->|].
  split; [intros Hv Hs; unfold ip_rx_msg; rewrite Hv; cbn [negb]; by rewrite (proj2 (Z.ltb_lt _ _)) by (unfold IPV4_HDR_LENGTH; lia)|].
  intros Hv H20 Hmf Hoff proto m; unfold ip_rx_msg; rewrite Hv; cbn [negb].
  rewrite (proj2 (Z.ltb_ge _ _)) by (unfold IPV4_HDR_LENGTH; lia).
  rewrite u16_small by (unfold IPV4_HDR_LENGTH; lia).
  change (4 * IPV4_HDR_LENGTH) with 20; fold m.
  unfold ip_reassembly.
  change (bytes (set_ip_length _ (set_ip_src _ (set_ip_dest _ msg)))) with (bytes msg).
  change (ip_hdr (set_ip_length _ (set_ip_src _ (set_ip_dest _ msg)))) with (ip_hdr msg).
  rewrite Hmf, Hoff; cbn [Z.eqb andb mbind res_bind].
  fold (filled_in msg) m proto.
  set (s1 := fold_left _ _ s).
  assert (Hs : forall q, (forall i, raw_sockets s !! i = Some (Some q) -> socks s1 q = after_rx (kmalloc i) m m (socks s q)) /\
                         ((forall i, raw_sockets s !! i <> Some (Some q)) -> socks s1 q = socks s q)).
  { intros q; destruct (rx_loop kmalloc m m (zip (seq 0 (length (raw_sockets s))) (raw_sockets s)) s Hr) with (q := q)
      as [L1 L2].
    - intros i j p Hi%raw_slot_elem Hj%raw_slot_elem; by eapply Hu.
    - apply raw_slots_nodup.
    - split; [intros i Hi; by apply L1, raw_slot_elem|].
      intros Hi; apply L2; intros i Hin%raw_slot_elem; by apply (Hi i). }
  unfold ip_dispatch, IP_PROTO_ICMP, IP_PROTO_TCP, IP_PROTO_UDP; clearbody s1.
  destruct (proto =? 1), (proto =? 6), (proto =? 17); eexists; (split; [reflexivity|]);
    (split; [intros i q Hi; by apply Hs|intros q Hi; by apply Hs]).
Qed.

(** Datagram 7 from 10.0.0.1 to 10.0.0.2, protocol 17, with eight octets, received
    by interface 1; socket 100 is a raw socket for the protocol, socket 200 is not. *)
Definition example_datagram : net_msg_t :=
  mk_net_msg 0 (mem_of [69; 0; 0; 28; 0; 7; 0; 0; 64; 17; 102; 200; 10; 0; 0; 1; 10; 0; 0; 2; 1; 2; 3; 4; 5; 6; 7; 8])
    0 28 28 (Some 1) 0 0 0 0 0 0 [] 0 0 0 0 0 0.

Definition example_if : net_state :=
  mk_net_state (fun _ => mk_nic 0 [] (10 + 2 * 2 ^ 24) 255 1 1500 []) [mk_nic_entry (Some 1) (Some true)] [].

Definition example_socks : sock_state :=
  mk_socks (fun p => mk_sock 1 0 (10 + 2 * 2 ^ 24) 0 (if p =? 100 then 17 else 6) [] 0 2 false)
    [None; Some 200; Some 100] [] 0 0.

Lemma example_socks_ok : table_ok example_socks.
Proof.
  split; [|intros p; cbn; lia].
  intros i j p Hi Hj; destruct i as [|[|[|i]]], j as [|[|[|j]]]; try done; cbn in Hi, Hj;
    rewrite ?lookup_nil in *; simplify_eq.
Qed.

Lemma rx_correct_witness :
  exists s' c, ip_rx_msg None (fun _ => Some example_datagram) example_if [] example_datagram example_socks =
      Ok ([], s', To_udp (set_udp_hdr 20 (filled_in example_datagram))) /\
    rcv_buffer (socks s' 100) = [c] /\ rcv_buffer (socks s' 200) = [].
Proof.
  destruct (rx_correct None (fun _ => Some example_datagram) example_if [] example_datagram example_socks) as (_ & _ & H);
    [by vm_compute|apply example_socks_ok|].
  destruct H as (s' & E & H1 & _); [by vm_compute..|].
  eexists s', _; split; [etransitivity; [exact E|done]|].
  rewrite (H1 2%nat 100 eq_refl), (H1 1%nat 200 eq_refl); split; [|by vm_compute].
  unfold after_rx; assert (wants (filled_in example_datagram) (filled_in example_datagram) (socks example_socks 100) = true)
    as -> by (by vm_compute).
  reflexivity.
Defined.

(** ** Accounting of raw sockets *)

Definition msg_size (m : net_msg_t) : Z := ip_length m + sizeof_ip_hdr.

(** The number of bytes the queue of the socket holds, which fits into the buffer. *)
Record accounted (k : ip_socket_t) : Prop := {
  ac_sum : pending_bytes k = foldr Z.add 0 (msg_size <$> rcv_buffer k);
  ac_max : pending_bytes k <= IP_RCV_BUFFER_SIZE;
  ac_sizes : Forall (fun m => 0 <= ip_length m < 2 ^ 16) (rcv_buffer k);
}.

Lemma sum_sizes l : Forall (fun m => 0 <= ip_length m < 2 ^ 16) l ->
  0 <= foldr Z.add 0 (msg_size <$> l) /\ (l <> [] -> 20 <= foldr Z.add 0 (msg_size <$> l)).
Proof.
  induction 1 as [|m l Hm Hl IH]; cbn; [done|]; unfold msg_size at 1 3, sizeof_ip_hdr; lia.
Qed.

Lemma sum_snoc l m : foldr Z.add 0 (msg_size <$> (l ++ [m])) = foldr Z.add 0 (msg_size <$> l) + msg_size m.
Proof. induction l as [|x l IH]; cbn; lia. Qed.

(** What a raw socket goes through: a message is stored, or the user reads with a
    buffer of the given size. *)
Inductive sock_op := Store (km : option net_msg_t) (m : net_msg_t) | Read (len : Z).

Definition run_op (p : Z) (s : sock_state) (o : sock_op) : sock_state :=
  match o with
  | Store km m => store_in_socket km p m s
  | Read len => (ip_recvfrom p len false false s).1
  end.

(** The reads are as large as any datagram. *)
Definition op_ok (o : sock_op) : Prop :=
  match o with Store _ m => 0 <= ip_length m < 2 ^ 16 | Read len => 2 ^ 16 + 20 <= len end.

Lemma stored_in_accounted km m k : 0 <= ip_length m < 2 ^ 16 -> accounted k -> accounted (stored_in km m k).
Proof.
  intros Hm [Es Em Hz]; destruct (sum_sizes _ Hz) as [H0 _]; unfold stored_in; case_test; [done|].
  destruct km as [fresh|]; [|done]; cbn [net_msg_clone mbind option_bind].
  unfold IP_RCV_BUFFER_SIZE, sizeof_ip_hdr in *; rewrite u32_small in * by lia.
  split; cbn [set_rcv pending_bytes rcv_buffer]; [|unfold IP_RCV_BUFFER_SIZE; lia|].
  - rewrite sum_snoc, Es; unfold msg_size, sizeof_ip_hdr; cbn; lia.
  - apply Forall_app; split; [done|constructor; [done|constructor]].
Qed.

(** What reading does to the socket. *)
Lemma recvfrom_eq p len s m rest :
  bound (socks s p) <> 0 -> rcv_buffer (socks s p) = m :: rest ->
  exists s', ip_recvfrom p len false false s =
      (s', inr (bytes_at (bytes m) (ip_hdr m) (Z.to_nat (Z.min (msg_size m) len)), ip_src m)) /\
    forall q, socks s' q = if decide (q = p)
      then set_rcv rest (u32 (pending_bytes (socks s p) - Z.min (msg_size m) len)) (socks s p) else socks s q.
Proof.
  intros Hb E; unfold ip_recvfrom; rewrite (proj2 (Z.eqb_neq _ _) Hb), E; cbn [andb].
  eexists; split; [reflexivity|]; intros q.
  change (socks (net_msg_destroy ?x)) with (socks x); by rewrite upd_sock_eq.
Qed.

Lemma recvfrom_accounted p len s :
  2 ^ 16 + 20 <= len -> bound (socks s p) <> 0 -> accounted (socks s p) ->
  accounted (socks (ip_recvfrom p len false false s).1 p) /\
  bound (socks (ip_recvfrom p len false false s).1 p) = bound (socks s p).
Proof.
  intros Hl Hb [Es Em Hz]; destruct (rcv_buffer (socks s p)) as [|m rest] eqn:E.
  { assert (accounted (socks s p)) by (split; rewrite ?E; done).
    unfold ip_recvfrom; rewrite E; by repeat case_test. }
  destruct (recvfrom_eq p len s m rest Hb E) as (s' & -> & Hs); cbn [fst]; rewrite Hs, decide_True by done.
  split; [|done]; apply Forall_cons_1 in Hz as [Hm Hz]; destruct (sum_sizes _ Hz) as [H0 _].
  cbn [foldr fmap list_fmap] in Es.
  assert (msg_size m = ip_length m + 20) as Eq by done; unfold IP_RCV_BUFFER_SIZE in *.
  split; cbn [set_rcv pending_bytes rcv_buffer]; [| |done];
    rewrite Z.min_l, u32_small by lia; unfold IP_RCV_BUFFER_SIZE; lia.
Qed.

(** Raw sockets.  As long as every read is as large as a datagram can be,
    [pending_bytes] is the size of the queue, which never exceeds the receive
    buffer; so [ip_select] reports data exactly if there is a message; and a read
    then returns the oldest message with its IP header, and its sender. *)
Theorem raw_socket_correct p s ops :
  bound (socks s p) <> 0 -> accounted (socks s p) -> Forall op_ok ops ->
  let s' := fold_left (run_op p) ops s in
  accounted (socks s' p) /\
  match rcv_buffer (socks s' p) with
  | [] => ip_select p true false s' = 0 /\ forall len, ip_recvfrom p len false false s' = (s', inl (- EAGAIN))
  | m :: rest =>
      ip_select p true false s' = NET_EVENT_CAN_READ /\
      forall len, 2 ^ 16 + 20 <= len ->
        let '(s'', r) := ip_recvfrom p len false false s' in
        r = inr (bytes_at (bytes m) (ip_hdr m) (Z.to_nat (ip_length m + 20)), ip_src m) /\
        rcv_buffer (socks s'' p) = rest
  end.
Proof.
  intros Hb Ha Ho s'.
  assert (bound (socks s' p) <> 0 /\ accounted (socks s' p)) as [Hb' Ha'].
  { unfold s'; clear s'; revert s Hb Ha; induction Ho as [|o ops Hop Ho IH]; intros s Hb Ha; [done|].
    cbn [fold_left]; destruct o as [km m|len]; cbn [run_op]; apply IH; cbn in Hop.
    - rewrite store_in_socket_eq, decide_True by done; unfold stored_in; case_test; [done|].
      by destruct (net_msg_clone km m).
    - rewrite store_in_socket_eq, decide_True by done; by apply stored_in_accounted.
    - by destruct (recvfrom_accounted p len s Hop Hb Ha) as [_ ->].
    - by destruct (recvfrom_accounted p len s Hop Hb Ha) as [? _]. }
  split; [done|]; destruct Ha' as [Es _ Hz]; destruct (sum_sizes _ Hz) as [H0 H20].
  destruct (rcv_buffer (socks s' p)) as [|m rest] eqn:E; unfold ip_select.
  - rewrite Es; split; [done|]; intros len; unfold ip_recvfrom.
    by rewrite (proj2 (Z.eqb_neq _ _) Hb'), E.
  - specialize (H20 ltac:(done)); rewrite (proj2 (Z.ltb_lt _ _)) by lia; split; [done|]; intros len Hl.
    destruct (recvfrom_eq p len s' m rest Hb' E) as (s'' & -> & Hs); rewrite Hs, decide_True by done.
    apply Forall_cons_1 in Hz as [Hm _]; unfold msg_size, sizeof_ip_hdr; by rewrite Z.min_l by lia.
Qed.

Lemma raw_socket_correct_witness :
  let s' := fold_left (run_op 100) [Store (Some example_datagram) (filled_in example_datagram)] example_socks in
  (ip_recvfrom 100 100000 false false s').2 =
    inr ([69; 0; 0; 28; 0; 7; 0; 0; 64; 17; 102; 200; 10; 0; 0; 1; 10; 0; 0; 2; 1; 2; 3; 4; 5; 6; 7; 8], 10 + 2 ^ 24).
Proof.
  destruct (raw_socket_correct 100 example_socks [Store (Some example_datagram) (filled_in example_datagram)])
    as [_ H]; [done|split; [done|by vm_compute|constructor]|repeat constructor; by vm_compute|].
  set (s' := fold_left _ _ _) in *.
  assert (exists m, rcv_buffer (socks s' 100) = [m]) as [m E] by (by eexists).
  rewrite E in H; destruct H as [_ H]; specialize (H 100000 ltac:(lia)).
  destruct (ip_recvfrom 100 100000 false false s') as [s'' r]; destruct H as [-> _]; injection E as <-.
  by vm_compute.
Defined.

(** A read that is too short takes the message off the queue, but only the bytes
    copied off [pending_bytes]: the socket stays readable although it is empty. *)
Theorem short_read_stays_readable p s m len :
  bound (socks s p) <> 0 -> accounted (socks s p) -> rcv_buffer (socks s p) = [m] -> 0 <= len < ip_length m + 20 ->
  let s' := (ip_recvfrom p len false false s).1 in
  ip_select p true false s' = NET_EVENT_CAN_READ /\
  forall len', ip_recvfrom p len' false false s' = (s', inl (- EAGAIN)).
Proof.
  intros Hb [Es Em Hz] E Hl; destruct (recvfrom_eq p len s m [] Hb E) as (s' & -> & Hs); cbn [fst].
  rewrite E in Es, Hz; apply Forall_cons_1 in Hz as [Hm _]; cbn in Es.
  unfold msg_size, sizeof_ip_hdr, IP_RCV_BUFFER_SIZE in *; unfold ip_select, ip_recvfrom.
  rewrite Hs, decide_True by done; cbn [set_rcv bound pending_bytes rcv_buffer].
  rewrite Z.min_r, u32_small, (proj2 (Z.ltb_lt _ _)), (proj2 (Z.eqb_neq _ _) Hb) by lia; done.
Qed.

(** The last reference is dropped, and the socket is not freed. *)
Theorem last_release_keeps_socket p s :
  ref_count (socks s p) = 1 ->
  let s' := ip_release_socket p s in ref_count (socks s' p) = 0 /\ freed (socks s' p) = freed (socks s p).
Proof.
  intros E; unfold ip_release_socket; rewrite E; cbn [Z.eqb Pos.eqb]; rewrite upd_sock_eq, decide_True by done.
  cbn; by rewrite E.
Qed.
