(* ===== verification/Ext2.v ===== *)
(** * The EXT2 file system ([kernel/fs_ext2.c])

    Allocation of blocks and inodes in the bitmaps on the disk, the walk through
    the tree of blocks of a file, and reading, writing and truncating files on top
    of the block layer.

    The structures of the disk (superblock, block group descriptors, inodes,
    bitmaps, indirect blocks) are kept in buffers of the kernel and accessed at
    the offsets of their fields, as the code does. *)

From S2P Require Import Prelude Errors Memory Lists BlockDev.
Import BlockDev Lists.

(** ** State and effects

    Buffers are numbered in the order in which they are allocated; a pointer is a
    buffer and an offset.  [vnodes] are the generic inodes, by number. *)

(** [inode_t]; [data] is the buffer of the EXT2 inode. *)
Record inode_t := mk_inode {
  size : Z;
  inode_nr : Z;
  dev : Z;
  mode : Z;
  mtime : Z;
  atime : Z;
  data : nat;
  link_count : Z;
  mount_point : Z;
  s_dev : Z;
}.

Record fs_state (D : Type) := mk_fs {
  disk : D;
  heap : nat -> mem;
  next : nat;
  vnodes : nat -> inode_t;
}.
Arguments mk_fs {D}.
Arguments disk {D}.
Arguments heap {D}.
Arguments next {D}.
Arguments vnodes {D}.

Definition ptr : Type := nat * Z.

(** Computations that change the state, and may stop the kernel. *)
Definition fsM (D A : Type) : Type := fs_state D -> res (A * fs_state D).

#[export] Instance fsM_ret {D} : MRet (fsM D) := fun A a s => Ok (a, s).
#[export] Instance fsM_bind {D} : MBind (fsM D) := fun A B f m s => '(a, s) ← m s; f a s.

Definition panic {D A} : fsM D A := fun _ => Panic.
Definition ld32 {D} (p : ptr) : fsM D Z := fun s => Ok (load32 (heap s p.1) p.2, s).
Definition ld16 {D} (p : ptr) : fsM D Z := fun s => Ok (load16 (heap s p.1) p.2, s).
Definition set_buf {D} (b : nat) (m : mem) : fsM D () := fun s =>
  Ok ((), mk_fs (disk s) (<[b := m]> (heap s)) (next s) (vnodes s)).
Definition get_buf {D} (b : nat) : fsM D mem := fun s => Ok (heap s b, s).
Definition st32 {D} (p : ptr) (v : Z) : fsM D () := m ← get_buf p.1; set_buf p.1 (store32 m p.2 v).
Definition st16 {D} (p : ptr) (v : Z) : fsM D () := m ← get_buf p.1; set_buf p.1 (store16 m p.2 v).
Definition get_vnode {D} (i : nat) : fsM D inode_t := fun s => Ok (vnodes s i, s).
Definition set_vnode {D} (i : nat) (v : inode_t) : fsM D () := fun s =>
  Ok ((), mk_fs (disk s) (heap s) (next s) (<[i := v]> (vnodes s))).

(** An array on the stack: a buffer with unknown contents. *)
Definition local {D} : fsM D nat := fun s => Ok (next s, mk_fs (disk s) (heap s) (S (next s)) (vnodes s)).

(** ** Layout ([fs_ext2.h])

    The offsets of the fields that are used. *)
Definition s_inodes_count : Z := 0.
Definition s_blocks_count : Z := 4.
Definition s_free_blocks_count : Z := 12.
Definition s_free_inode_count : Z := 16.
Definition s_first_data_block : Z := 20.
Definition s_blocks_per_group : Z := 32.
Definition s_inodes_per_group : Z := 40.
Definition sizeof_superblock : Z := 120.

Definition bg_block_bitmap : Z := 0.
Definition bg_inode_bitmap : Z := 4.
Definition bg_inode_table : Z := 8.
Definition bg_free_blocks_count : Z := 12.
Definition bg_free_inodes_count : Z := 14.
Definition bg_used_dirs_count : Z := 16.
Definition sizeof_bgd : Z := 32.

Definition i_mode : Z := 0.
Definition i_size : Z := 4.
Definition i_atime : Z := 8.
Definition i_mtime : Z := 16.
Definition i_blocks : Z := 28.
Definition direct : Z := 40.
Definition indirect1 : Z := 88.
Definition indirect2 : Z := 92.
Definition indirect3 : Z := 96.
Definition sizeof_inode : Z := 128.

Definition EXT2_INDIRECT_BLOCKS : Z := 256.
Definition EXT2_DOUBLE_INDIRECT_BLOCKS : Z := EXT2_INDIRECT_BLOCKS * EXT2_INDIRECT_BLOCKS.
Definition EXT2_LAST_DIRECT : Z := 11.
Definition EXT2_LAST_INDIRECT : Z := EXT2_LAST_DIRECT + EXT2_INDIRECT_BLOCKS.
Definition EXT2_LAST_DOUBLE_INDIRECT : Z := EXT2_LAST_INDIRECT + EXT2_INDIRECT_BLOCKS * EXT2_INDIRECT_BLOCKS.

Definition S_IFMT : Z := 15 * 4096.
Definition S_ISDIR (m : Z) : bool := Z.land m S_IFMT =? 4 * 4096.
Definition S_ISREG (m : Z) : bool := Z.land m S_IFMT =? 8 * 4096.

(** [ext2_metadata_t]: the superblock and the block group descriptor table are
    buffers. *)
Record ext2_metadata_t := mk_meta {
  ext2_super : nat;
  bgdt : nat;
  device : Z;
  bgdt_size : Z;
  bgdt_blocks : Z;
}.

(** What a walk does with each block. *)
Inductive ext2_op := EXT2_OP_READ | EXT2_OP_WRITE | EXT2_OP_TRUNC.
#[export] Instance ext2_op_dec : EqDecision ext2_op.
Proof. solve_decision. Defined.

(** [blocklist_walk_t]; [process_block] is given by the operation. *)
Record blocklist_walk_t := mk_walk {
  w_data : ptr;
  blocks_processed : Z;
  bytes_processed : Z;
  first_block : Z;
  last_block : Z;
  bytes : Z;
  offset : Z;
  w_device : Z;
  allocate : bool;
  deallocate : bool;
  zero : bool;
  ext2_meta : ext2_metadata_t;
  block_group_nr : Z;
  ext2_inode : nat;
  abort : bool;
  first_byte : Z;
  last_byte : Z;
  process : ext2_op;
}.

Definition set_processed (blocks bytes' : Z) (r : blocklist_walk_t) : blocklist_walk_t :=
  mk_walk (w_data r) blocks bytes' (first_block r) (last_block r) (bytes r) (offset r) (w_device r) (allocate r)
    (deallocate r) (zero r) (ext2_meta r) (block_group_nr r) (ext2_inode r) (abort r) (first_byte r) (last_byte r) (process r).
Definition set_abort (r : blocklist_walk_t) : blocklist_walk_t :=
  mk_walk (w_data r) (blocks_processed r) (bytes_processed r) (first_block r) (last_block r) (bytes r) (offset r)
    (w_device r) (allocate r) (deallocate r) (zero r) (ext2_meta r) (block_group_nr r) (ext2_inode r) true (first_byte r)
    (last_byte r) (process r).
Definition set_range (first last : Z) (r : blocklist_walk_t) : blocklist_walk_t :=
  mk_walk (w_data r) (blocks_processed r) (bytes_processed r) (first_block r) (last_block r) (bytes r) (offset r)
    (w_device r) (allocate r) (deallocate r) (zero r) (ext2_meta r) (block_group_nr r) (ext2_inode r) (abort r) first last
    (process r).

Section Ext2.
Context {D : Type} (drv : drivers D).

(** What allocation number [n] of kernel memory returns. *)
Context (kmalloc : nat -> option mem).

(** The result of [do_time(0)]. *)
Context (do_time : Z).

#[local] Abbreviation M := (fsM D).

(** A buffer from [kmalloc]. *)
Definition new_buf : M (option nat) := fun s =>
  match kmalloc (next s) with
  | Some m => Ok (Some (next s), mk_fs (disk s) (<[next s := m]> (heap s)) (S (next s)) (vnodes s))
  | None => Ok (None, mk_fs (disk s) (heap s) (S (next s)) (vnodes s))
  end.

(** [bc_read_bytes] and [bc_write_bytes] with a pointer to the caller's buffer. *)
Definition read_bytes (block bytes : Z) (p : ptr) (dev offset : Z) : M Z := fun s =>
  let a := bc_read_bytes drv (kmalloc (next s)) (disk s) block bytes (fun x => heap s p.1 (p.2 + x)) dev offset in
  Ok (code a, mk_fs (devices a) (<[p.1 := fun x => BlockDev.data a (x - p.2)]> (heap s)) (S (next s)) (vnodes s)).

Definition write_bytes (block bytes : Z) (p : ptr) (dev offset : Z) : M Z := fun s =>
  let a := bc_write_bytes drv (kmalloc (next s)) (disk s) block bytes (fun x => heap s p.1 (p.2 + x)) dev offset in
  Ok (code a, mk_fs (devices a) (heap s) (S (next s)) (vnodes s)).

(** ** Metadata *)

Definition put_meta (meta : ext2_metadata_t) : M Z :=
  first ← ld32 (ext2_super meta, s_first_data_block);
  rc ← write_bytes (u32 (first + 1)) (u32 (bgdt_size meta * sizeof_bgd)) (bgdt meta, 0) (device meta) 0;
  if negb (rc =? 0) then mret EIO
  else
    rc ← write_bytes 1 sizeof_superblock (ext2_super meta, 0) (device meta) 0;
    mret (if negb (rc =? 0) then EIO else 0).

(** The buffer of the inode, unless it could not be read. *)
Definition get_ext2_inode (inode_nr : Z) (meta : ext2_metadata_t) : M (option nat) :=
  per_group ← ld32 (ext2_super meta, s_inodes_per_group);
  let block_group := u32 (inode_nr - 1) / per_group in
  let index := u32 (inode_nr - 1) mod per_group in
  block ← ld32 (bgdt meta, block_group * sizeof_bgd + bg_inode_table);
  ino ← new_buf;
  match ino with
  | None => mret None
  | Some ino =>
      rc ← read_bytes block sizeof_inode (ino, 0) (device meta) (u32 (index * sizeof_inode));
      mret (if negb (rc =? 0) then None else Some ino)
  end.

Definition put_inode (meta : ext2_metadata_t) (inode : nat) : M Z :=
  i ← get_vnode inode;
  per_group ← ld32 (ext2_super meta, s_inodes_per_group);
  let block_group := u32 (inode_nr i - 1) / per_group in
  let index := u32 (inode_nr i - 1) mod per_group in
  block ← ld32 (bgdt meta, block_group * sizeof_bgd + bg_inode_table);
  rc ← write_bytes block sizeof_inode (data i, 0) (device meta) (u32 (index * sizeof_inode));
  mret (if negb (rc =? 0) then EIO else 0).

(** ** Allocation of blocks *)

(** The first clear bit below [n]. *)
Definition find_clear (bitmap : mem) (n : Z) : option Z :=
  match list_find (fun i => BITFIELD_GET_BIT bitmap i = 0) (seqZ 0 n) with
  | Some (_, i) => Some i
  | None => None
  end.

(** The block, and [*errno]. *)
Definition allocate_block_in_group (meta : ext2_metadata_t) (bgd : Z) (errno : Z) : M (Z * Z) :=
  bitmap ← local;
  let block_group_nr := bgd / sizeof_bgd in
  free ← ld16 (bgdt meta, bgd * sizeof_bgd + bg_free_blocks_count);
  if free =? 0 then mret (0, errno)
  else
    bitmap_block ← ld32 (bgdt meta, bgd * sizeof_bgd + bg_block_bitmap);
    rc ← read_bytes bitmap_block BLOCK_SIZE (bitmap, 0) (device meta) 0;
    if negb (rc =? 0) then mret (0, rc)
    else
      count ← ld32 (ext2_super meta, s_blocks_count);
      per_group ← ld32 (ext2_super meta, s_blocks_per_group);
      let blocks_in_group :=
        if (u32 (bgdt_size meta - 1) =? block_group_nr) && negb (count mod per_group =? 0)
        then count mod per_group else per_group in
      m ← get_buf bitmap;
      match find_clear m blocks_in_group with
      | None => mret (0, errno)
      | Some i =>
          let block_nr := u32 (i + bitmap_block - bgdt_blocks meta - 1) in
          set_buf bitmap (BITFIELD_SET_BIT m i) ;;
          if block_nr =? 0 then mret (0, errno)
          else
            rc ← write_bytes bitmap_block BLOCK_SIZE (bitmap, 0) (device meta) 0;
            if negb (rc =? 0) then mret (0, rc)
            else
              st16 (bgdt meta, bgd * sizeof_bgd + bg_free_blocks_count) (u16 (free - 1)) ;;
              total ← ld32 (ext2_super meta, s_free_blocks_count);
              st32 (ext2_super meta, s_free_blocks_count) (u32 (total - 1)) ;;
              rc ← put_meta meta;
              mret (if negb (rc =? 0) then (0, EIO) else (block_nr, errno))
      end.

(** The groups [i], [i + 1], ... except for the preferred one. *)
Fixpoint allocate_block_scan (meta : ext2_metadata_t) (preferred i : Z) (n : nat) (errno : Z) : M (Z * Z) :=
  match n with
  | O => mret (0, errno)
  | S n =>
      if i =? preferred then allocate_block_scan meta preferred (i + 1) n errno
      else
        '(block_nr, errno) ← allocate_block_in_group meta i errno;
        if negb (block_nr =? 0) then mret (block_nr, errno)
        else allocate_block_scan meta preferred (i + 1) n errno
  end.

Definition allocate_block (meta : ext2_metadata_t) (block_group_nr : Z) (errno : Z) : M (Z * Z) :=
  if bgdt_size meta <=? block_group_nr then mret (0, errno)
  else
    total ← ld32 (ext2_super meta, s_free_blocks_count);
    if total =? 0 then mret (0, errno)
    else
      '(block_nr, errno) ← allocate_block_in_group meta block_group_nr errno;
      if block_nr =? 0 then allocate_block_scan meta block_group_nr 0 (Z.to_nat (bgdt_size meta)) errno
      else mret (block_nr, errno).

Definition deallocate_block (meta : ext2_metadata_t) (block_nr : Z) : M Z :=
  bitmap ← local;
  per_group ← ld32 (ext2_super meta, s_blocks_per_group);
  let block_group_nr := u32 (block_nr - 1) / per_group in
  let index := u32 (block_nr - 1) mod per_group in
  if bgdt_size meta <=? block_group_nr then panic
  else
    bitmap_block ← ld32 (bgdt meta, block_group_nr * sizeof_bgd + bg_block_bitmap);
    rc ← read_bytes bitmap_block BLOCK_SIZE (bitmap, 0) (device meta) 0;
    if negb (rc =? 0) then mret EIO
    else
      m ← get_buf bitmap;
      if BITFIELD_GET_BIT m index =? 0 then panic
      else
        set_buf bitmap (BITFIELD_CLEAR_BIT m index) ;;
        rc ← write_bytes bitmap_block BLOCK_SIZE (bitmap, 0) (device meta) 0;
        if negb (rc =? 0) then panic
        else
          total ← ld32 (ext2_super meta, s_free_blocks_count);
          st32 (ext2_super meta, s_free_blocks_count) (u32 (total + 1)) ;;
          free ← ld16 (bgdt meta, block_group_nr * sizeof_bgd + bg_free_blocks_count);
          st16 (bgdt meta, block_group_nr * sizeof_bgd + bg_free_blocks_count) (u16 (free + 1)) ;;
          rc ← put_meta meta;
          if negb (rc =? 0) then panic else mret 0.

(** ** Allocation of inodes *)

Definition deallocate_inode (meta : ext2_metadata_t) (inode : nat) : M Z :=
  i ← get_vnode inode;
  zeroes ← local;
  bitmap ← new_buf;
  match bitmap with
  | None => mret ENOMEM
  | Some bitmap =>
      per_group ← ld32 (ext2_super meta, s_inodes_per_group);
      let block_group_nr := u32 (inode_nr i - 1) / per_group in
      let inode_in_group := u32 (inode_nr i - 1) mod per_group in
      let bgd := block_group_nr * sizeof_bgd in
      if bgdt_size meta <=? block_group_nr then panic
      else
        bitmap_block ← ld32 (bgdt meta, bgd + bg_inode_bitmap);
        rc ← read_bytes bitmap_block BLOCK_SIZE (bitmap, 0) (device meta) 0;
        if negb (rc =? 0) then mret EIO
        else
          m ← get_buf bitmap;
          if BITFIELD_GET_BIT m inode_in_group =? 0 then panic
          else
            set_buf bitmap (BITFIELD_CLEAR_BIT m inode_in_group) ;;
            rc ← write_bytes bitmap_block BLOCK_SIZE (bitmap, 0) (device meta) 0;
            if negb (rc =? 0) then panic
            else
              z ← get_buf zeroes;
              set_buf zeroes (blit z 0 (fun _ => 0) 0 sizeof_inode) ;;
              table ← ld32 (bgdt meta, bgd + bg_inode_table);
              rc ← write_bytes table sizeof_inode (zeroes, 0) (device meta) (u32 (inode_in_group * sizeof_inode));
              if negb (rc =? 0) then panic
              else
                (if S_ISDIR (mode i) then
                   dirs ← ld16 (bgdt meta, bgd + bg_used_dirs_count);
                   st16 (bgdt meta, bgd + bg_used_dirs_count) (u16 (dirs - 1))
                 else mret ()) ;;
                free ← ld16 (bgdt meta, bgd + bg_free_inodes_count);
                st16 (bgdt meta, bgd + bg_free_inodes_count) (u16 (free + 1)) ;;
                total ← ld32 (ext2_super meta, s_free_inode_count);
                st32 (ext2_super meta, s_free_inode_count) (u32 (total + 1)) ;;
                rc ← put_meta meta;
                if negb (rc =? 0) then panic else mret 0
  end.

(** The number of the inode and [*errno].  [garbage] is what the variable for the
    number happens to hold, which is returned if all bits are set; without memory
    for the bitmap the error code is returned as the number. *)
Definition allocate_inode_in_group (garbage : Z) (meta : ext2_metadata_t) (block_group_nr : Z) (isdir : bool)
    (errno : Z) : M (Z * Z) :=
  let bgd := block_group_nr * sizeof_bgd in
  bitmap ← new_buf;
  match bitmap with
  | None => mret (ENOMEM, errno)
  | Some bitmap =>
      bitmap_block ← ld32 (bgdt meta, bgd + bg_inode_bitmap);
      rc ← read_bytes bitmap_block BLOCK_SIZE (bitmap, 0) (device meta) 0;
      if negb (rc =? 0) then mret (0, rc)
      else
        count ← ld32 (ext2_super meta, s_inodes_count);
        per_group ← ld32 (ext2_super meta, s_inodes_per_group);
        let inodes_in_group :=
          if (block_group_nr =? u32 (bgdt_size meta - 1)) && negb (count mod per_group =? 0)
          then count mod per_group else per_group in
        m ← get_buf bitmap;
        inode_nr ←
          match find_clear m inodes_in_group with
          | None => mret garbage
          | Some i => set_buf bitmap (BITFIELD_SET_BIT m i) ;; mret (u32 (i + 1 + block_group_nr * per_group))
          end;
        if inode_nr =? 0 then mret (0, errno)
        else
          rc ← write_bytes bitmap_block BLOCK_SIZE (bitmap, 0) (device meta) 0;
          if negb (rc =? 0) then panic
          else
            free ← ld16 (bgdt meta, bgd + bg_free_inodes_count);
            st16 (bgdt meta, bgd + bg_free_inodes_count) (u16 (free - 1)) ;;
            total ← ld32 (ext2_super meta, s_free_inode_count);
            st32 (ext2_super meta, s_free_inode_count) (u32 (total - 1)) ;;
            overflow ←
              (if isdir then
                 dirs ← ld16 (bgdt meta, bgd + bg_used_dirs_count);
                 st16 (bgdt meta, bgd + bg_used_dirs_count) (u16 (dirs + 1)) ;;
                 mret (u16 (dirs + 1) =? 0)
               else mret false);
            if overflow : bool then panic
            else
              rc ← put_meta meta;
              if negb (rc =? 0) then panic else mret (inode_nr, errno)
  end.

Fixpoint allocate_inode_scan (garbage : Z) (meta : ext2_metadata_t) (i : Z) (n : nat) (isdir : bool) (errno : Z)
    : M (Z * Z) :=
  match n with
  | O => mret (0, errno)
  | S n =>
      free ← ld16 (bgdt meta, i * sizeof_bgd + bg_free_inodes_count);
      if free =? 0 then allocate_inode_scan garbage meta (i + 1) n isdir errno
      else
        '(inode_nr, errno) ← allocate_inode_in_group garbage meta i isdir errno;
        if negb (inode_nr =? 0) then mret (inode_nr, errno)
        else allocate_inode_scan garbage meta (i + 1) n isdir errno
  end.

Definition allocate_inode (garbage : Z) (meta : ext2_metadata_t) (isdir : bool) (errno : Z) : M (Z * Z) :=
  total ← ld32 (ext2_super meta, s_free_inode_count);
  if total =? 0 then mret (0, errno)
  else allocate_inode_scan garbage meta 0 (Z.to_nat (bgdt_size meta)) isdir errno.

(** ** Walks through the blocks of a file *)

Definition add_blocks (ino : nat) (n : Z) : M () :=
  v ← ld32 (ino, i_blocks);
  st32 (ino, i_blocks) (u32 (v + n)).

(** The buffer of the indirect block, the flag [dirty], and [*errno]. *)
Definition load_indirect_block (r : blocklist_walk_t) (block_nr : ptr) (dirty : bool) (errno : Z)
    : M (option nat * bool * Z) :=
  buf ← new_buf;
  match buf with
  | None => mret (None, dirty, errno)
  | Some buf =>
      nr ← ld32 block_nr;
      if nr =? 0 then
        m ← get_buf buf;
        set_buf buf (blit m 0 (fun _ => 0) 0 BLOCK_SIZE) ;;
        if allocate r then
          '(nr, errno) ← allocate_block (ext2_meta r) (block_group_nr r) errno;
          st32 block_nr nr ;;
          if nr =? 0 then mret (None, dirty, errno)
          else
            add_blocks (ext2_inode r) 2 ;;
            rc ← write_bytes nr BLOCK_SIZE (buf, 0) (w_device r) 0;
            mret (if negb (rc =? 0) then (None, dirty, EIO) else (Some buf, true, errno))
        else mret (Some buf, dirty, errno)
      else
        rc ← read_bytes nr BLOCK_SIZE (buf, 0) (w_device r) 0;
        mret (if negb (rc =? 0) then (None, dirty, EIO) else (Some buf, dirty, errno))
  end.

(** The counters after a block has been processed. *)
Definition processed (r : blocklist_walk_t) : blocklist_walk_t :=
  set_processed (u32 (blocks_processed r + 1)) (u32 (bytes_processed r + (last_byte r - first_byte r + 1))) r.

Definition walk_ptr (r : blocklist_walk_t) : ptr := ((w_data r).1, (w_data r).2 + bytes_processed r).

Definition read_block (r : blocklist_walk_t) (block_nr : Z) : M (Z * blocklist_walk_t) :=
  let n := u32 (last_byte r - first_byte r + 1) in
  if negb (block_nr =? 0) then
    rc ← read_bytes block_nr n (walk_ptr r) (w_device r) (first_byte r);
    mret (if negb (rc =? 0) then (EIO, r) else (0, processed r))
  else
    m ← get_buf (walk_ptr r).1;
    set_buf (walk_ptr r).1 (blit m (walk_ptr r).2 (fun _ => 0) 0 n) ;;
    mret (0, processed r).

Definition write_block (r : blocklist_walk_t) (block_nr : Z) : M (Z * blocklist_walk_t) :=
  let n := u32 (last_byte r - first_byte r + 1) in
  if block_nr =? 0 then mret (EIO, r)
  else
    rc ← write_bytes block_nr n (walk_ptr r) (w_device r) (first_byte r);
    mret (if negb (rc =? 0) then (EIO, r) else (0, processed r)).

Definition truncate_block (r : blocklist_walk_t) (block_nr : Z) : M (Z * blocklist_walk_t) :=
  if negb (block_nr =? 0) then
    rc ← deallocate_block (ext2_meta r) block_nr;
    if negb (rc =? 0) then mret (EIO, r)
    else add_blocks (ext2_inode r) (-2) ;; mret (0, processed r)
  else mret (0, processed r).

Definition process_block (r : blocklist_walk_t) (block_nr : Z) : M (Z * blocklist_walk_t) :=
  match process r with
  | EXT2_OP_READ => read_block r block_nr
  | EXT2_OP_WRITE => write_block r block_nr
  | EXT2_OP_TRUNC => truncate_block r block_nr
  end.

(** The range of bytes within the current block. *)
Definition block_range (r : blocklist_walk_t) : blocklist_walk_t :=
  set_range (if blocks_processed r =? 0 then offset r mod BLOCK_SIZE else 0)
    (if blocks_processed r =? u32 (last_block r - first_block r)
     then u32 (bytes r + offset r - 1) mod BLOCK_SIZE else BLOCK_SIZE - 1) r.

(** [n] entries of the list of blocks from [blocklist] on.  The return value, the
    request and the flag [dirty]. *)
Fixpoint walk_blocklist (n : nat) (r : blocklist_walk_t) (blocklist : ptr) (dirty : bool) (errno : Z)
    : M (Z * blocklist_walk_t * bool) :=
  match n with
  | O => mret (0, r, dirty)
  | S n =>
      b ← ld32 blocklist;
      '(failed, b, dirty, errno) ←
        (if allocate r && (b =? 0) then
           '(b, errno) ← allocate_block (ext2_meta r) (block_group_nr r) errno;
           st32 blocklist b ;;
           if b =? 0 then mret (Some (if negb (errno =? 0) then (EIO, r) else (0, set_abort r)), b, dirty, errno)
           else add_blocks (ext2_inode r) 2 ;; mret (None, b, true, errno)
         else mret (None, b, dirty, errno));
      match failed with
      | Some (rc, r) => mret (rc, r, dirty)
      | None =>
          '(rc, r) ← process_block (block_range r) b;
          if negb (rc =? 0) then mret (EIO, r, dirty)
          else
            dirty ← (if zero r then st32 blocklist 0 ;; mret true else mret dirty);
            walk_blocklist n r (blocklist.1, blocklist.2 + 4) dirty errno
      end
  end.

Definition blocklist_is_empty (m : mem) (blocks : Z) : bool :=
  forallb (fun i => load32 m (4 * i) =? 0) (seqZ 0 blocks).

(** What happens to an indirect block after its entries were visited: it is
    written back if it changed, and released if that is requested and no entry
    before [visited] is used. *)
Definition finish_indirect (sets_dirty : bool) (r : blocklist_walk_t) (block_nr : ptr) (buf : nat) (changed : bool)
    (visited : Z) (dirty : bool) : M (Z * blocklist_walk_t * bool) :=
  nr ← ld32 block_nr;
  rc ← (if changed then write_bytes nr BLOCK_SIZE (buf, 0) (w_device r) 0 else mret 0);
  if negb (rc =? 0) then mret (EIO, r, dirty)
  else
    m ← get_buf buf;
    if negb (nr =? 0) && deallocate r && blocklist_is_empty m visited then
      rc ← deallocate_block (ext2_meta r) nr;
      if negb (rc =? 0) then mret (EIO, r, dirty)
      else
        add_blocks (ext2_inode r) (-2) ;;
        st32 block_nr 0 ;;
        mret (0, r, dirty || sets_dirty)
    else mret (0, r, dirty).

Definition walk_indirect_block (r : blocklist_walk_t) (indirect_start : Z) (block_nr : ptr) (dirty : bool)
    : M (Z * blocklist_walk_t * bool) :=
  let indirect_end := u32 (indirect_start + EXT2_INDIRECT_BLOCKS - 1) in
  let actual_start := if first_block r <? indirect_start then indirect_start else first_block r in
  let actual_end := if last_block r <=? indirect_end then last_block r else indirect_end in
  if actual_end <? actual_start then mret (0, r, dirty)
  else
    '(buf, dirty, errno) ← load_indirect_block r block_nr dirty 0;
    match buf with
    | None => mret (if negb (errno =? 0) then (EIO, r, dirty) else (0, set_abort r, dirty))
    | Some buf =>
        '(rc, r, changed) ← walk_blocklist (Z.to_nat (actual_end - actual_start + 1)) r
                              (buf, 4 * (actual_start - indirect_start)) false 0;
        if negb (rc =? 0) then mret (EIO, r, dirty)
        else finish_indirect true r block_nr buf changed (actual_start - indirect_start) dirty
    end.

(** The loops over the entries of a double or triple indirect block; [sub] visits
    one of them.  The return value, the request, whether an entry changed, and
    the last value of [block_ptr]. *)
Fixpoint walk_entries (sub : blocklist_walk_t -> Z -> ptr -> bool -> M (Z * blocklist_walk_t * bool))
    (width start : Z) (buf : nat) (n : nat) (block_ptr : Z) (r : blocklist_walk_t) (changed : bool)
    : M (Z * blocklist_walk_t * bool * Z) :=
  match n with
  | O => mret (0, r, changed, block_ptr)
  | S n =>
      if blocks_processed r <? u32 (last_block r - first_block r + 1) then
        '(rc, r, changed) ← sub r (u32 (start + block_ptr * width)) (buf, 4 * block_ptr) changed;
        if negb (rc =? 0) then mret (EIO, r, changed, block_ptr)
        else if abort r then mret (0, r, changed, block_ptr)
        else walk_entries sub width start buf n (block_ptr + 1) r changed
      else mret (0, r, changed, block_ptr)
  end.

(** The common part of the walks through double and triple indirect blocks. *)
Definition walk_level (sub : blocklist_walk_t -> Z -> ptr -> bool -> M (Z * blocklist_walk_t * bool)) (width : Z)
    (r : blocklist_walk_t) (start : Z) (block_nr : ptr) (dirty : bool) : M (Z * blocklist_walk_t * bool) :=
  '(buf, dirty, errno) ← load_indirect_block r block_nr dirty 0;
  match buf with
  | None => mret (if negb (errno =? 0) then (EIO, r, dirty) else (0, set_abort r, dirty))
  | Some buf =>
      '(rc, r, changed, block_ptr) ←
        walk_entries sub width start buf (Z.to_nat EXT2_INDIRECT_BLOCKS) 0 r false;
      if negb (rc =? 0) then mret (EIO, r, dirty)
      else finish_indirect false r block_nr buf changed block_ptr dirty
  end.

Definition walk_double_indirect_block (r : blocklist_walk_t) (start : Z) (block_nr : ptr) (dirty : bool)
    : M (Z * blocklist_walk_t * bool) :=
  let end_ := u32 (start + EXT2_DOUBLE_INDIRECT_BLOCKS - 1) in
  if (end_ <? first_block r) || (last_block r <? start) then mret (0, r, dirty)
  else walk_level walk_indirect_block EXT2_INDIRECT_BLOCKS r start block_nr dirty.

Definition walk_triple_indirect_block (r : blocklist_walk_t) (start : Z) (block_nr : ptr)
    : M (Z * blocklist_walk_t) :=
  '(rc, r, _) ← walk_level walk_double_indirect_block EXT2_DOUBLE_INDIRECT_BLOCKS r start block_nr false;
  mret (rc, r).

(** ** Reading and writing *)

Definition init_request (size : Z) (ino : nat) (bytes offset : Z) (data : ptr) (dev : Z) (op : ext2_op)
    (meta : ext2_metadata_t) (group : Z) : blocklist_walk_t :=
  let bytes := u32 bytes in
  let bytes := if (size <? u32 (bytes + offset)) && bool_decide (op = EXT2_OP_READ) then u32 (size - offset) else bytes in
  mk_walk data 0 0 (u32 (Z.quot offset BLOCK_SIZE)) (u32 (offset + bytes - 1) / BLOCK_SIZE) bytes (u32 offset) dev
    (bool_decide (op = EXT2_OP_WRITE)) (bool_decide (op = EXT2_OP_TRUNC)) (bool_decide (op = EXT2_OP_TRUNC)) meta group
    ino false 0 0 op.

(** Whether there are blocks left to be visited. *)
Definition unfinished (r : blocklist_walk_t) : bool :=
  blocks_processed r <? u32 (last_block r - first_block r + 1).

(** The walks through the four areas of the file, until one fails. *)
Definition walk_file (r : blocklist_walk_t) : M (Z * blocklist_walk_t) :=
  let ino := ext2_inode r in
  '(rc, r, dirty) ←
    (if first_block r <=? EXT2_LAST_DIRECT then
       let direct_end := if EXT2_LAST_DIRECT <? last_block r then EXT2_LAST_DIRECT else last_block r in
       walk_blocklist (Z.to_nat (direct_end - first_block r + 1)) r (ino, direct + 4 * first_block r) false 0
     else mret (0, r, false));
  if negb (rc =? 0) then mret (rc, r)
  else
  '(rc, r, dirty) ←
    (if unfinished r && (first_block r <=? EXT2_LAST_INDIRECT)
     then walk_indirect_block r (EXT2_LAST_DIRECT + 1) (ino, indirect1) dirty
     else mret (0, r, dirty));
  if negb (rc =? 0) then mret (rc, r)
  else
  '(rc, r, dirty) ←
    (if unfinished r && (first_block r <=? EXT2_LAST_DOUBLE_INDIRECT) && negb (abort r)
     then walk_double_indirect_block r (EXT2_LAST_INDIRECT + 1) (ino, indirect2) dirty
     else mret (0, r, dirty));
  if negb (rc =? 0) then mret (rc, r)
  else if unfinished r && negb (abort r)
    then walk_triple_indirect_block r (EXT2_LAST_DOUBLE_INDIRECT + 1) (ino, indirect3)
    else mret (0, r).

Definition set_size (v : Z) (i : inode_t) : inode_t :=
  mk_inode v (inode_nr i) (dev i) (mode i) (mtime i) (atime i) (data i) (link_count i) (mount_point i) (s_dev i).
Definition set_mtime (v : Z) (i : inode_t) : inode_t :=
  mk_inode (size i) (inode_nr i) (dev i) (mode i) v (atime i) (data i) (link_count i) (mount_point i) (s_dev i).

(** The metadata the inode belongs to is an argument. *)
Definition fs_ext2_inode_rw (meta : ext2_metadata_t) (inode : nat) (bytes offset : Z) (data : ptr) (op : ext2_op) : M Z :=
  i ← get_vnode inode;
  let ino := Ext2.data i in
  size ← ld32 (ino, i_size);
  if (bytes <=? 0) || ((size <=? u32 offset) && bool_decide (op = EXT2_OP_READ)) then mret 0
  else
    per_group ← ld32 (ext2_super meta, s_inodes_per_group);
    let group := u32 (inode_nr i - 1) / per_group in
    '(rc, r) ← walk_file (init_request size ino bytes offset data (dev i) op meta group);
    if negb (rc =? 0) then mret (- EIO)
    else
      size ← ld32 (ino, i_size);
      (if (size <? u32 (Ext2.offset r + bytes_processed r)) && bool_decide (op = EXT2_OP_WRITE) && (0 <? bytes_processed r)
       then
         st32 (ino, i_size) (u32 (Ext2.offset r + bytes_processed r)) ;;
         i ← get_vnode inode;
         set_vnode inode (set_size (s32 (u32 (Ext2.offset r + bytes_processed r))) i)
       else mret ()) ;;
      rc ← (if bool_decide (op <> EXT2_OP_READ) then
              st32 (ino, i_mtime) (u32 do_time) ;;
              i ← get_vnode inode;
              set_vnode inode (set_mtime (s32 (u32 do_time)) i) ;;
              put_inode meta inode
            else mret 0);
      if negb (rc =? 0) then mret (- EIO)
      else if bool_decide (op = EXT2_OP_WRITE) && (bytes_processed r =? 0) then mret (- ENOSPC)
      else mret (s32 (bytes_processed r)).

Definition fs_ext2_inode_read (meta : ext2_metadata_t) (inode : nat) (bytes offset : Z) (data : ptr) : M Z :=
  fs_ext2_inode_rw meta inode bytes offset data EXT2_OP_READ.
Definition fs_ext2_inode_write (meta : ext2_metadata_t) (inode : nat) (bytes offset : Z) (data : ptr) : M Z :=
  fs_ext2_inode_rw meta inode bytes offset data EXT2_OP_WRITE.

Definition fs_ext2_inode_flush (meta : ext2_metadata_t) (inode : nat) : M Z :=
  i ← get_vnode inode;
  let ino := data i in
  st32 (ino, i_mtime) (u32 (mtime i)) ;;
  st32 (ino, i_atime) (u32 (atime i)) ;;
  st16 (ino, i_mode) (u16 (mode i)) ;;
  rc ← put_inode meta inode;
  mret (if negb (rc =? 0) then - EIO else 0).

Definition fs_ext2_inode_trunc (meta : ext2_metadata_t) (inode : nat) (new_size : Z) : M Z :=
  i ← get_vnode inode;
  let ino := data i in
  old_size ← ld32 (ino, i_size);
  if old_size <? new_size then
    set_vnode inode (set_size (s32 new_size) i) ;;
    st32 (ino, i_size) new_size ;;
    rc ← put_inode meta inode;
    mret (if negb (rc =? 0) then EIO else 0)
  else if negb (S_ISREG (mode i)) && negb (S_ISDIR (mode i)) then mret 0
  else
    let blocks n := n / BLOCK_SIZE + (if n mod BLOCK_SIZE =? 0 then 0 else 1) in
    let new_blocks := blocks new_size in
    let old_blocks := blocks old_size in
    rc ← (if negb (new_blocks =? old_blocks) then
            rc ← fs_ext2_inode_rw meta inode (s32 ((old_blocks - new_blocks) * BLOCK_SIZE))
                   (s32 (new_blocks * BLOCK_SIZE)) (O, 0) EXT2_OP_TRUNC;
            if rc <? 0 then mret EIO
            else
              (if new_blocks <=? EXT2_LAST_DIRECT + 1 then st32 (ino, indirect1) 0 else mret ()) ;;
              (if new_blocks <=? EXT2_LAST_INDIRECT + 1 then st32 (ino, indirect2) 0 else mret ()) ;;
              (if new_blocks <=? EXT2_LAST_DOUBLE_INDIRECT + 1 then st32 (ino, indirect3) 0 else mret ()) ;;
              mret 0
          else mret 0);
    if negb (rc =? 0) then mret EIO
    else
      st32 (ino, i_size) new_size ;;
      i ← get_vnode inode;
      set_vnode inode (set_size (s32 new_size) i) ;;
      rc ← put_inode meta inode;
      mret (if negb (rc =? 0) then EIO else 0).

Definition wipe_inode (meta : ext2_metadata_t) (inode : nat) : M () :=
  fs_ext2_inode_trunc meta inode 0 ;;
  deallocate_inode meta inode ;;
  mret ().

End Ext2.
