(* ===== verification/Ext2Read.v ===== *)
(** * EXT2: the blocks of a file, and reading

    The tree of blocks of a file, as a function of the contents of the disk, and
    the proof that [fs_ext2_inode_read] returns the bytes the tree describes. *)

From S2P Require Import Prelude Errors Memory Lists BlockDev BlockDevProofs Ext2.
Import BlockDev BlockDevProofs.

(** ** The tree of blocks *)

(** Number of data blocks below an entry of depth [d]. *)
Definition width (d : nat) : Z := 256 ^ Z.of_nat d.

(** The block that holds block [i] of the part of a file below the entry [b]; 0 for
    a hole. *)
Fixpoint tree_block (im : mem) (d : nat) (b i : Z) : Z :=
  match d with
  | O => b
  | S d => if b =? 0 then 0 else tree_block im d (load32 im (b * BLOCK_SIZE + 4 * (i / width d))) (i mod width d)
  end.

(** All blocks of the tree are blocks of the disk. *)
Fixpoint tree_valid (im : mem) (blocks : Z) (d : nat) (b : Z) : Prop :=
  b = 0 \/
  0 < b < blocks /\
  match d with
  | O => True
  | S d => forall j, 0 <= j < 256 -> tree_valid im blocks d (load32 im (b * BLOCK_SIZE + 4 * j))
  end.

(** Block [k] of the file with inode [ino]. *)
Definition file_block (im ino : mem) (k : Z) : Z :=
  if k <=? EXT2_LAST_DIRECT then load32 ino (direct + 4 * k)
  else if k <=? EXT2_LAST_INDIRECT then tree_block im 1 (load32 ino indirect1) (k - (EXT2_LAST_DIRECT + 1))
  else if k <=? EXT2_LAST_DOUBLE_INDIRECT then tree_block im 2 (load32 ino indirect2) (k - (EXT2_LAST_INDIRECT + 1))
  else tree_block im 3 (load32 ino indirect3) (k - (EXT2_LAST_DOUBLE_INDIRECT + 1)).

Record file_valid (im : mem) (blocks : Z) (ino : mem) : Prop := {
  fv_direct : forall k, 0 <= k < 12 -> tree_valid im blocks 0 (load32 ino (direct + 4 * k));
  fv_indirect1 : tree_valid im blocks 1 (load32 ino indirect1);
  fv_indirect2 : tree_valid im blocks 2 (load32 ino indirect2);
  fv_indirect3 : tree_valid im blocks 3 (load32 ino indirect3);
}.

(** Byte [x] of the file. *)
Definition file_byte (im ino : mem) (x : Z) : Z :=
  let b := file_block im ino (x / BLOCK_SIZE) in
  if b =? 0 then 0 else im (b * BLOCK_SIZE + x mod BLOCK_SIZE).

Lemma width_S d : width (S d) = 256 * width d.
Proof. unfold width; rewrite Nat2Z.inj_succ, Z.pow_succ_r by lia; done. Qed.

Lemma width_pos d : 0 < width d.
Proof. apply Z.pow_pos_nonneg; lia. Qed.

Lemma tree_block_hole im d i : tree_block im d 0 i = 0.
Proof. by destruct d. Qed.

(** The entry [j] of a block of the tree leads to the blocks from [j * width d] on. *)
Lemma tree_block_entry im d b j i :
  b <> 0 -> 0 <= i < width d ->
  tree_block im (S d) b (j * width d + i) = tree_block im d (load32 im (b * BLOCK_SIZE + 4 * j)) i.
Proof.
  intros Hb Hi; pose proof (width_pos d); cbn [tree_block]; rewrite (proj2 (Z.eqb_neq b 0)) by done.
  rewrite Z.div_add_l, Z.div_small, Z.add_0_r by lia.
  by rewrite (Z.add_comm (j * _)), Z.mod_add, Z.mod_small by lia.
Qed.

Lemma tree_valid_entry im n d b j :
  b <> 0 -> 0 <= j < 256 -> tree_valid im n (S d) b -> tree_valid im n d (load32 im (b * BLOCK_SIZE + 4 * j)).
Proof. intros Hb Hj [?|[_ H]]; [done|auto]. Qed.

Lemma tree_valid_block im n d b : b <> 0 -> tree_valid im n d b -> 0 < b < n.
Proof. intros Hb; destruct d; intros [?|[? _]]; done. Qed.

(** ** Access to the disk *)

Lemma bind_ok {D A B} (m : fsM D A) (k : A -> fsM D B) s a s' : m s = Ok (a, s') -> (m ≫= k) s = k a s'.
Proof. unfold mbind, fsM_bind; by intros ->. Qed.

Section Access.
Context {D : Type} (drv : drivers D) (ops : blk_dev_ops_t D) (dev : Z) `{!BlockDevice ops (MINOR dev)}.
Context (registered : drv (MAJOR dev) = DRIVER_BLK ops).
Context (kmalloc : nat -> option mem) (enough : forall n, is_Some (kmalloc n)).

Lemma read_bytes_spec s block n p off :
  ready (disk s) -> 0 < n -> 0 <= off -> 0 <= block -> block * BLOCK_SIZE + off + n <= BlockDevProofs.size (disk s) * BLOCK_SIZE ->
  exists s', read_bytes drv kmalloc block n p dev off s = Ok (0, s') /\
    disk s' = disk s /\ vnodes s' = vnodes s /\ next s' = S (next s) /\
    (forall b, b <> p.1 -> heap s' b = heap s b) /\
    forall x, heap s' p.1 x = blit (heap s p.1) p.2 (image (disk s)) (block * BLOCK_SIZE + off) n x.
Proof.
  intros Hr Hn Ho Hb Hs; unfold read_bytes; destruct (enough (next s)) as [tmp ->].
  destruct (read_bytes_ok drv ops dev registered tmp (disk s) block n (fun x => heap s p.1 (p.2 + x)) off)
    as (buf' & -> & E); auto.
  eexists; split; [done|]; cbn; split_and!; auto; [intros b Hne; by rewrite fn_lookup_insert_ne|].
  intros x; rewrite fn_lookup_insert, E; unfold blit.
  replace ((0 <=? x - p.2) && (x - p.2 <? 0 + n)) with ((p.2 <=? x) && (x <? p.2 + n))
    by (destruct (Z.leb_spec p.2 x), (Z.ltb_spec x (p.2 + n)), (Z.leb_spec 0 (x - p.2)), (Z.ltb_spec (x - p.2) (0 + n)); lia).
  destruct (_ && _); f_equal; lia.
Qed.

Lemma write_bytes_spec s block n p off :
  ready (disk s) -> 0 < n -> 0 <= off -> 0 <= block -> block * BLOCK_SIZE + off + n <= BlockDevProofs.size (disk s) * BLOCK_SIZE ->
  exists s', write_bytes drv kmalloc block n p dev off s = Ok (0, s') /\
    ready (disk s') /\ BlockDevProofs.size (disk s') = BlockDevProofs.size (disk s) /\
    vnodes s' = vnodes s /\ next s' = S (next s) /\ heap s' = heap s /\
    forall x, image (disk s') x = blit (image (disk s)) (block * BLOCK_SIZE + off) (heap s p.1) p.2 n x.
Proof.
  intros Hr Hn Ho Hb Hs; unfold write_bytes; destruct (enough (next s)) as [tmp ->].
  destruct (write_bytes_ok drv ops dev registered tmp (disk s) block n (fun x => heap s p.1 (p.2 + x)) off)
    as (d' & -> & Hr' & Hs' & E); auto.
  eexists; split; [done|]; cbn; split_and!; auto.
Qed.

End Access.

(** ** Walks that read *)

(** A request for the bytes [offset .. offset + bytes - 1]. *)
Record request_ok (r : blocklist_walk_t) : Prop := {
  rq_offset : 0 <= offset r;
  rq_bytes : 0 < bytes r;
  rq_end : offset r + bytes r <= 2 ^ 31;
  rq_first : first_block r = offset r / BLOCK_SIZE;
  rq_last : last_block r = (offset r + bytes r - 1) / BLOCK_SIZE;
}.

(** Blocks of the request; those below block [x] of the file; and the bytes in the
    first [k] blocks. *)
Definition nblocks (r : blocklist_walk_t) : Z := last_block r - first_block r + 1.
Definition below (r : blocklist_walk_t) (x : Z) : Z := Z.max 0 (Z.min (nblocks r) (x - first_block r)).
Definition done_bytes (r : blocklist_walk_t) (k : Z) : Z :=
  Z.max 0 (Z.min (bytes r) (k * BLOCK_SIZE - offset r mod BLOCK_SIZE)).

(** The request [r0] after [k] blocks. *)
Definition at_block (r0 : blocklist_walk_t) (k : Z) (r : blocklist_walk_t) : Prop :=
  exists f l, r = set_range f l (set_processed k (done_bytes r0 k) r0).

Lemma request_bounds r : request_ok r -> 0 <= first_block r <= last_block r /\ last_block r < 2 ^ 21.
Proof. intros [? ? ? -> ->]; unfold BLOCK_SIZE; Z.div_mod_to_equations; lia. Qed.

(** The bytes of block [k], and where they are in the file. *)
Lemma block_bytes r k :
  request_ok r -> 0 <= k < nblocks r ->
  let f := if k =? 0 then offset r mod BLOCK_SIZE else 0 in
  let l := if k =? last_block r - first_block r then (bytes r + offset r - 1) mod BLOCK_SIZE else BLOCK_SIZE - 1 in
  0 <= f <= l /\ l < BLOCK_SIZE /\ done_bytes r (k + 1) = done_bytes r k + (l - f + 1) /\
  0 <= done_bytes r k /\ done_bytes r (k + 1) <= bytes r /\
  offset r + done_bytes r k = (first_block r + k) * BLOCK_SIZE + f.
Proof.
  intros [Ho Hb He Hf Hl]; unfold nblocks, done_bytes, BLOCK_SIZE in *; rewrite Hf, Hl.
  intros Hk; destruct (Z.eqb_spec k 0), (Z.eqb_spec k ((offset r + bytes r - 1) / 1024 - offset r / 1024));
    Z.div_mod_to_equations; lia.
Qed.

Lemma block_range_at r0 k r :
  request_ok r0 -> at_block r0 k r -> 0 <= k < nblocks r0 ->
  block_range r = set_range (if k =? 0 then offset r0 mod BLOCK_SIZE else 0)
    (if k =? last_block r0 - first_block r0 then (bytes r0 + offset r0 - 1) mod BLOCK_SIZE else BLOCK_SIZE - 1)
    (set_processed k (done_bytes r0 k) r0).
Proof.
  intros Hr (f & l & ->) Hk; pose proof (request_bounds r0 Hr); destruct Hr.
  unfold block_range, set_range, set_processed; cbn.
  rewrite (u32_small (last_block r0 - first_block r0)), (u32_small (bytes r0 + offset r0 - 1)) by lia; done.
Qed.

Section Read.
Context {D : Type} (drv : drivers D) (ops : blk_dev_ops_t D) (dev : Z) `{!BlockDevice ops (MINOR dev)}.
Context (registered : drv (MAJOR dev) = DRIVER_BLK ops).
Context (kmalloc : nat -> option mem) (enough : forall n, is_Some (kmalloc n)).
Context (r0 : blocklist_walk_t) (s0 : fs_state D) (dst : nat) (base : Z) (f : Z -> Z).
Context (r_ok : request_ok r0) (r_data : w_data r0 = (dst, base)) (r_dev : w_device r0 = dev).
Context (r_op : process r0 = EXT2_OP_READ) (r_alloc : allocate r0 = false) (r_dealloc : deallocate r0 = false).
Context (r_zero : zero r0 = false) (r_abort : abort r0 = false).
Context (disk_ok : ready (disk s0)).

#[local] Abbreviation im := (image (disk s0)).
#[local] Abbreviation nb := (BlockDevProofs.size (disk s0)).

(** Byte [x] of the file whose blocks are given by [f]. *)
Definition byte_of (x : Z) : Z :=
  if f (x / BLOCK_SIZE) =? 0 then 0 else im (f (x / BLOCK_SIZE) * BLOCK_SIZE + x mod BLOCK_SIZE).

(** After [k] blocks: nothing but the destination and new buffers has changed, and
    the destination holds the first bytes. *)
Record reading (k : Z) (r : blocklist_walk_t) (s : fs_state D) : Prop := {
  rd_req : at_block r0 k r;
  rd_range : 0 <= k <= nblocks r0;
  rd_disk : disk s = disk s0;
  rd_vnodes : vnodes s = vnodes s0;
  rd_dst : (dst < next s)%nat;
  rd_data : forall x, heap s dst x = if (base <=? x) && (x <? base + done_bytes r0 k)
                                     then byte_of (offset r0 + (x - base)) else heap s0 dst x;
}.

(** The buffers of the caller are kept. *)
Definition keeps (s s' : fs_state D) : Prop :=
  (next s <= next s')%nat /\ forall b, (b < next s)%nat -> b <> dst -> forall x, heap s' b x = heap s b x.

Lemma keeps_refl s : keeps s s.
Proof. by split. Qed.

Lemma keeps_trans s1 s2 s3 : keeps s1 s2 -> keeps s2 s3 -> keeps s1 s3.
Proof. intros [H1 K1] [H2 K2]; split; [lia|]; intros b Hb Hd x; rewrite K2, K1 by (done || lia); done. Qed.

Lemma keeps_load s s' b a : keeps s s' -> (b < next s)%nat -> b <> dst -> load32 (heap s' b) a = load32 (heap s b) a.
Proof. intros [_ H] Hb Hd; apply load32_ext; auto. Qed.

(** One block. *)
Lemma read_one k r s b :
  reading k r s -> k < nblocks r0 -> b = f (first_block r0 + k) -> tree_valid im nb 0 b ->
  exists r' s', process_block drv kmalloc (block_range r) b s = Ok (0, r', s') /\ reading (k + 1) r' s' /\ keeps s s'.
Proof.
  intros [Hq Hk Hd Hv Hn Hx] HN Hb Hval.
  rewrite (block_range_at r0 k r r_ok Hq ltac:(lia)).
  destruct (block_bytes r0 k r_ok ltac:(lia)) as (F1 & F2 & F3 & F4 & F5 & F6).
  set (fb := if k =? 0 then _ else _) in *; set (lb := if k =? last_block r0 - _ then _ else _) in *.
  pose proof (request_bounds r0 r_ok); pose proof (rq_end _ r_ok); pose proof (rq_offset _ r_ok); unfold BLOCK_SIZE in F2.
  assert (Hproc : at_block r0 (k + 1) (processed (set_range fb lb (set_processed k (done_bytes r0 k) r0)))).
  { exists fb, lb; unfold processed; cbn; unfold nblocks in *; rewrite !u32_small by lia; by rewrite F3. }
  unfold process_block; cbn [set_range set_processed process]; rewrite r_op.
  unfold read_block, walk_ptr; cbn [set_range set_processed w_data bytes_processed last_byte first_byte w_device].
  rewrite r_data, r_dev, u32_small by lia; cbn [fst snd].
  assert (E : forall x, base + done_bytes r0 k <= x < base + done_bytes r0 k + (lb - fb + 1) ->
    byte_of (offset r0 + (x - base)) = if b =? 0 then 0 else im (b * BLOCK_SIZE + fb + (x - (base + done_bytes r0 k)))).
  { intros x Hxr; unfold byte_of.
    assert ((offset r0 + (x - base)) / BLOCK_SIZE = first_block r0 + k /\
            (offset r0 + (x - base)) mod BLOCK_SIZE = fb + (x - (base + done_bytes r0 k))) as [-> ->].
    { unfold BLOCK_SIZE in *; split; [symmetry; apply (Z.div_unique _ _ _ (fb + (x - (base + done_bytes r0 k))))|
        symmetry; apply (Z.mod_unique _ _ (first_block r0 + k))]; lia. }
    rewrite <- Hb, Z.add_assoc; done. }
  assert (G : forall (g : mem), (forall x, g x = blit (heap s dst) (base + done_bytes r0 k)
      (fun y => if b =? 0 then 0 else im (b * BLOCK_SIZE + fb + y)) 0 (lb - fb + 1) x) ->
    forall x, g x = if (base <=? x) && (x <? base + done_bytes r0 (k + 1))
                    then byte_of (offset r0 + (x - base)) else heap s0 dst x).
  { intros g Hg x; rewrite Hg; case_blit; [rewrite E by lia; tests; done|].
    rewrite Hx; destruct (Z.leb_spec base x), (Z.ltb_spec x (base + done_bytes r0 k)),
      (Z.ltb_spec x (base + done_bytes r0 (k + 1))); cbn; done || lia. }
  destruct (Z.eqb_spec b 0) as [E0|E0]; cbn [negb].
  - eexists _, _; split; [reflexivity|]; split.
    + split; cbn; [done|lia|done|done|done|]; apply G; intros x; rewrite fn_lookup_insert; unfold blit; by case_match.
    + split; [cbn; lia|]; cbn; intros b' _ Hb'; by rewrite fn_lookup_insert_ne.
  - destruct (tree_valid_block _ _ _ _ E0 Hval).
    destruct (read_bytes_spec drv ops dev registered kmalloc enough s b (lb - fb + 1) (dst, base + done_bytes r0 k) fb)
      as (s' & Er & D1 & D2 & D3 & D4 & D5); rewrite ?Hd; [done|lia|lia|lia|unfold BLOCK_SIZE; lia|].
    rewrite (bind_ok _ _ _ _ _ Er); cbn [Z.eqb negb].
    eexists _, s'; split; [reflexivity|]; cbn [fst snd] in *; rewrite Hd in D5; split.
    + split; [done|lia|congruence|congruence|lia|]; apply G; intros x; rewrite D5; unfold blit; case_match; [f_equal; lia|done].
    + split; [lia|]; intros b' _ Hb' x; by rewrite D4.
Qed.

(** The fields of the request do not change but for the counters. *)
Lemma reading_fields k r s :
  reading k r s ->
  blocks_processed r = k /\ first_block r = first_block r0 /\ last_block r = last_block r0 /\ allocate r = false /\
  deallocate r = false /\ zero r = false /\ abort r = false /\ w_device r = dev /\ ext2_inode r = ext2_inode r0.
Proof. intros [(a & l & ->) _ _ _ _ _]; by split_and!. Qed.

Lemma read_blocklist n k r s p dirty errno :
  reading k r s -> k + Z.of_nat n <= nblocks r0 -> (p.1 < next s)%nat -> p.1 <> dst ->
  (forall i, 0 <= i < Z.of_nat n -> load32 (heap s p.1) (p.2 + 4 * i) = f (first_block r0 + k + i) /\
  tree_valid im nb 0 (f (first_block r0 + k + i))) ->
  exists r' s', walk_blocklist drv kmalloc n r p dirty errno s = Ok (0, r', dirty, s') /\
  reading (k + Z.of_nat n) r' s' /\ keeps s s'.
Proof.
  revert k r s p; induction n as [|n IH]; intros k r s p Hr Hk Hp Hd Hl; cbn [walk_blocklist].
  { exists r, s; rewrite Z.add_0_r; auto using keeps_refl. }
  destruct (reading_fields k r s Hr) as (_ & _ & _ & Ha & _ & _ & _ & _).
  destruct (Hl 0) as [E0 V0]; [lia|]; rewrite Z.mul_0_r, !Z.add_0_r in E0; rewrite Z.add_0_r in V0.
  erewrite bind_ok by reflexivity; rewrite Ha; cbn [andb]; erewrite bind_ok by reflexivity; cbn beta iota.
  destruct (read_one k r s _ Hr ltac:(lia) E0) as (r1 & s1 & E1 & H1 & K1); [by rewrite E0|].
  rewrite (bind_ok _ _ _ _ _ E1); cbn [Z.eqb negb].
  destruct (reading_fields _ _ _ H1) as (_ & _ & _ & _ & _ & Hz & _); rewrite Hz; erewrite bind_ok by reflexivity.
  destruct (IH (k + 1) r1 s1 (p.1, p.2 + 4)) as (r' & s' & E' & H' & K'); auto; cbn [fst snd].
  - lia.
  - destruct K1; lia.
  - intros i Hi; rewrite (keeps_load s s1) by auto; destruct (Hl (i + 1)) as [E2 V2]; [lia|].
    replace (p.2 + 4 + 4 * i) with (p.2 + 4 * (i + 1)) by lia.
    replace (first_block r0 + (k + 1) + i) with (first_block r0 + k + (i + 1)) by lia; auto.
  - exists r', s'; split; [exact E'|]; split; [|by eapply keeps_trans].
    by replace (k + Z.of_nat (S n)) with (k + 1 + Z.of_nat n) by lia.
Qed.

(** An indirect block, or zeroes for a hole. *)
Lemma read_indirect k r s p dirty nr d :
  reading k r s -> (p.1 < next s)%nat -> p.1 <> dst -> load32 (heap s p.1) p.2 = nr -> tree_valid im nb d nr ->
  exists buf s', load_indirect_block drv kmalloc r p dirty 0 s = Ok (Some buf, dirty, 0, s') /\
  reading k r s' /\ keeps s s' /\ (next s <= buf < next s')%nat /\
  forall i, 0 <= i < 256 -> load32 (heap s' buf) (4 * i) = if nr =? 0 then 0 else load32 im (nr * BLOCK_SIZE + 4 * i).
Proof.
  intros Hr Hp Hd Hnr Hval; destruct (reading_fields k r s Hr) as (_ & _ & _ & Ha & _ & _ & _ & Hdev & _).
  unfold load_indirect_block; destruct (enough (next s)) as [m Em].
  set (s1 := mk_fs (disk s) (<[next s := m]> (heap s)) (S (next s)) (vnodes s)).
  assert (E1 : new_buf kmalloc s = Ok (Some (next s), s1)) by (unfold new_buf; by rewrite Em).
  rewrite (bind_ok _ _ _ _ _ E1).
  assert (forall b, (b < next s)%nat -> heap s1 b = heap s b) as Hh by (intros b Hb; cbn; rewrite fn_lookup_insert_ne; [done|lia]).
  assert (Hnr1 : ld32 p s1 = Ok (nr, s1)) by (unfold ld32; by rewrite Hh, Hnr).
  rewrite (bind_ok _ _ _ _ _ Hnr1).
  assert (Hr1 : forall s2, disk s2 = disk s -> vnodes s2 = vnodes s -> (S (next s) <= next s2)%nat ->
      (forall b, (b < next s)%nat -> heap s2 b = heap s b) -> reading k r s2 /\ keeps s s2).
  { destruct Hr as [? ? ? ? ? Hx]; intros s2 H1 H2 H3 H4; split.
    - split; auto; [congruence|congruence|lia|]; intros x; by rewrite H4, Hx.
    - split; [lia|]; intros b Hb _ x; by rewrite H4. }
  destruct (Z.eqb_spec nr 0) as [E0|E0].
  - erewrite bind_ok by reflexivity; erewrite bind_ok by reflexivity; rewrite Ha.
    eexists _, _; split; [reflexivity|]; destruct (Hr1 (mk_fs (disk s) (<[next s := blit m 0 (λ _, 0) 0 BLOCK_SIZE]> (<[next s := m]> (heap s))) (S (next s)) (vnodes s))) as [R1 R2]; cbn.
    + done.
    + done.
    + lia.
    + intros b Hb; rewrite !fn_lookup_insert_ne by lia; done.
    + rewrite fn_lookup_insert; split_and!; [exact R1|exact R2|lia|lia|].
      intros i Hi; rewrite fn_lookup_insert; unfold load32; rewrite !blit_in by (unfold BLOCK_SIZE; lia); done.
  - destruct (tree_valid_block _ _ _ _ E0 Hval); destruct Hr as [? ? Hd0 ? ? Hx].
    destruct (read_bytes_spec drv ops dev registered kmalloc enough s1 nr BLOCK_SIZE (next s, 0) 0)
      as (s' & Er & D1 & D2 & D3 & D4 & D5); cbn [disk s1]; rewrite ?Hd0; try (done || unfold BLOCK_SIZE in *; lia).
    rewrite Hdev, (bind_ok _ _ _ _ _ Er); cbn [Z.eqb negb].
    eexists _, s'; split; [reflexivity|]; destruct (Hr1 s') as [R1 R2]; auto.
    + rewrite D3; cbn; lia.
    + intros b Hb; rewrite D4 by (cbn; lia); by apply Hh.
    + split_and!; auto; [rewrite D3; cbn; lia|]; intros i Hi; cbn [fst snd] in D5.
      transitivity (load32 (blit (heap s1 (next s)) 0 im (nr * BLOCK_SIZE + 0) BLOCK_SIZE) (4 * i)).
      { apply load32_ext; intros x _; rewrite D5; cbn [disk s1]; by rewrite Hd0. }
      unfold load32; rewrite !blit_in by (unfold BLOCK_SIZE; lia); by rewrite !Z.add_0_r, !Z.sub_0_r, !Z.add_assoc.
Qed.

(** Nothing has to be written back. *)
Lemma read_finish sets k r s p buf visited dirty :
  reading k r s -> finish_indirect drv kmalloc sets r p buf false visited dirty s = Ok (0, r, dirty, s).
Proof.
  intros Hr; destruct (reading_fields k r s Hr) as (_ & _ & _ & _ & Hde & _).
  unfold finish_indirect; erewrite !bind_ok by reflexivity; cbn [Z.eqb negb].
  erewrite bind_ok by reflexivity; rewrite Hde; by rewrite andb_false_r.
Qed.

(** What a function that walks the blocks below an entry of depth [d] does. *)
Definition reads_level (d : nat) (sub : blocklist_walk_t -> Z -> ptr -> bool -> fsM D (Z * blocklist_walk_t * bool)) : Prop :=
  forall r s start p dirty nr,
  0 <= start -> start + width d < 2 ^ 32 ->
  reading (below r0 start) r s -> (p.1 < next s)%nat -> p.1 <> dst ->
  load32 (heap s p.1) p.2 = nr -> tree_valid im nb d nr ->
  (forall i, 0 <= i < width d -> f (start + i) = tree_block im d nr i) ->
  exists r' s', sub r start p dirty s = Ok (0, r', dirty, s') /\ reading (below r0 (start + width d)) r' s' /\ keeps s s'.

Lemma read_level1 : reads_level 1 (walk_indirect_block drv kmalloc).
Proof.
  intros r s start p dirty nr Hs Hw Hr Hp Hd Hnr Hval Hf; change (width 1) with 256 in *.
  destruct (reading_fields _ r s Hr) as (_ & F1 & F2 & _); pose proof (request_bounds r0 r_ok).
  unfold walk_indirect_block, EXT2_INDIRECT_BLOCKS; rewrite F1, F2, (u32_small (start + 256 - 1)) by lia.
  set (a := if first_block r0 <? start then start else first_block r0).
  set (e := if last_block r0 <=? start + 256 - 1 then last_block r0 else start + 256 - 1).
  assert (Ha : a = Z.max (first_block r0) start) by (unfold a; case_test; lia).
  assert (He : e = Z.min (last_block r0) (start + 255)) by (unfold e; case_test; lia).
  destruct (Z.ltb_spec e a).
  { exists r, s; split; [done|]; split; [|apply keeps_refl].
    by replace (below r0 (start + 256)) with (below r0 start) by (unfold below, nblocks; lia). }
  destruct (read_indirect _ r s p dirty nr 1 Hr Hp Hd Hnr Hval) as (buf & s1 & E1 & R1 & K1 & B1 & W1).
  rewrite (bind_ok _ _ _ _ _ E1); cbn beta iota.
  destruct (read_blocklist (Z.to_nat (e - a + 1)) (below r0 start) r s1 (buf, 4 * (a - start)) false 0 R1)
    as (r2 & s2 & E2 & R2 & K2); cbn [fst snd].
  - unfold below, nblocks; lia.
  - lia.
  - pose proof (rd_dst _ _ _ Hr); lia.
  - intros i Hi; replace (4 * (a - start) + 4 * i) with (4 * (a - start + i)) by lia.
    replace (first_block r0 + below r0 start + i) with (start + (a - start + i)) by (unfold below, nblocks; lia).
    rewrite W1, Hf by lia; set (j := a - start + i); assert (0 <= j < 256) by (unfold j; lia).
    destruct (Z.eqb_spec nr 0) as [->|E0].
    { rewrite tree_block_hole; split; [done|]; by left. }
    pose proof (tree_block_entry im 0 nr j 0 E0 ltac:(done)) as T; change (width 0) with 1 in T.
    rewrite Z.mul_1_r, Z.add_0_r in T; rewrite T; cbn [tree_block]; split; [done|].
    by apply tree_valid_entry.
  - rewrite (bind_ok _ _ _ _ _ E2); cbn [Z.eqb negb]; rewrite (read_finish _ _ _ _ _ _ _ _ R2).
    exists r2, s2; split; [done|]; split; [|by eapply keeps_trans].
    by replace (below r0 (start + 256)) with (below r0 start + Z.of_nat (Z.to_nat (e - a + 1)))
      by (unfold below, nblocks; lia).
Qed.

(** The loop over the entries of a block of the tree. *)
Lemma read_entries d sub :
  reads_level d sub ->
  forall n j r s start buf nr,
  0 <= start -> start + width (S d) < 2 ^ 32 -> 0 <= j -> j + Z.of_nat n = 256 ->
  reading (below r0 (start + j * width d)) r s -> (buf < next s)%nat -> buf <> dst ->
  (forall i, 0 <= i < 256 -> load32 (heap s buf) (4 * i) = if nr =? 0 then 0 else load32 im (nr * BLOCK_SIZE + 4 * i)) ->
  tree_valid im nb (S d) nr ->
  (forall i, 0 <= i < width (S d) -> f (start + i) = tree_block im (S d) nr i) ->
  exists r' s' j', walk_entries sub (width d) start buf n j r false s = Ok (0, r', false, j', s') /\
    reading (below r0 (start + width (S d))) r' s' /\ keeps s s'.
Proof.
  intros Hsub; induction n as [|n IH]; intros j r s start buf nr Hs Hw Hj Hn Hr Hb Hd Hl Hval Hf;
    pose proof (width_pos d); rewrite width_S in *; cbn [walk_entries].
  { exists r, s, j; split; [done|]; split; [|apply keeps_refl]; by replace (256 * width d) with (j * width d) by nia. }
  destruct (reading_fields _ r s Hr) as (F0 & F1 & F2 & _); pose proof (request_bounds r0 r_ok).
  rewrite F0, F1, F2, u32_small by lia; fold (nblocks r0).
  destruct (Z.ltb_spec (below r0 (start + j * width d)) (nblocks r0)) as [Hlt|Hge].
  2:{ exists r, s, j; split; [done|]; split; [|apply keeps_refl].
      by replace (below r0 (start + 256 * width d)) with (below r0 (start + j * width d)) by (unfold below in *; nia). }
  rewrite u32_small by nia.
  destruct (Hsub r s (start + j * width d) (buf, 4 * j) false _ ltac:(nia) ltac:(nia) Hr Hb Hd eq_refl)
    as (r1 & s1 & E1 & R1 & K1); cbn [fst snd]; rewrite ?Hl by lia.
  - destruct (Z.eqb_spec nr 0); [by destruct d; left|by apply tree_valid_entry; auto; lia].
  - intros i Hi; replace (start + j * width d + i) with (start + (j * width d + i)) by lia; rewrite Hf by nia.
    destruct (Z.eqb_spec nr 0) as [->|]; [by rewrite !tree_block_hole|by apply tree_block_entry].
  - rewrite (bind_ok _ _ _ _ _ E1); cbn [Z.eqb negb].
    destruct (reading_fields _ _ _ R1) as (_ & _ & _ & _ & _ & _ & Hab & _); rewrite Hab.
    destruct (IH (j + 1) r1 s1 start buf nr) as (r2 & s2 & j2 & E2 & R2 & K2); auto; try (nia || lia).
    + by replace (start + (j + 1) * width d) with (start + j * width d + width d) by lia.
    + destruct K1; lia.
    + intros i Hi; by rewrite (keeps_load s s1), Hl by auto.
    + exists r2, s2, j2; split; [done|]; split; [done|by eapply keeps_trans].
Qed.

Lemma read_walk_level d sub : reads_level d sub -> reads_level (S d) (walk_level drv kmalloc sub (width d)).
Proof.
  intros Hsub r s start p dirty nr Hs Hw Hr Hp Hd Hnr Hval Hf; unfold walk_level.
  destruct (read_indirect _ r s p dirty nr (S d) Hr Hp Hd Hnr Hval) as (buf & s1 & E1 & R1 & K1 & B1 & W1).
  rewrite (bind_ok _ _ _ _ _ E1); cbn beta iota.
  destruct (read_entries d sub Hsub 256 0 r s1 start buf nr) as (r2 & s2 & j & E2 & R2 & K2); auto; try lia.
  - by rewrite Z.mul_0_l, Z.add_0_r.
  - pose proof (rd_dst _ _ _ Hr); lia.
  - change (Z.to_nat EXT2_INDIRECT_BLOCKS) with 256%nat; rewrite (bind_ok _ _ _ _ _ E2); cbn [Z.eqb negb].
    rewrite (read_finish _ _ _ _ _ _ _ _ R2); exists r2, s2; split; [done|]; split; [done|by eapply keeps_trans].
Qed.

Lemma read_level2 : reads_level 2 (walk_double_indirect_block drv kmalloc).
Proof.
  intros r s start p dirty nr Hs Hw Hr Hp Hd Hnr Hval Hf; change (width 2) with 65536 in *.
  destruct (reading_fields _ r s Hr) as (_ & F1 & F2 & _); pose proof (request_bounds r0 r_ok).
  unfold walk_double_indirect_block, EXT2_DOUBLE_INDIRECT_BLOCKS, EXT2_INDIRECT_BLOCKS.
  rewrite F1, F2, (u32_small (start + 256 * 256 - 1)) by lia.
  destruct (Z.ltb_spec (start + 256 * 256 - 1) (first_block r0)), (Z.ltb_spec (last_block r0) start); cbn [orb];
    [exists r, s; split; [done|]; split; [|apply keeps_refl];
     by replace (below r0 (start + 65536)) with (below r0 start) by (unfold below, nblocks; lia)..|].
  by apply (read_walk_level 1 _ read_level1 r s start p dirty nr).
Qed.

(** The whole file. *)
Section File.
Context (ino : nat) (ino_old : (ino < next s0)%nat) (dst_old : (dst < next s0)%nat) (ino_dst : ino <> dst).
Context (r_ino : ext2_inode r0 = ino) (r_blocks : blocks_processed r0 = 0) (r_bytes : bytes_processed r0 = 0).
Context (f_file : f = file_block im (heap s0 ino)) (f_valid : file_valid im nb (heap s0 ino)).

(** After the blocks before block [x] of the file. *)
Definition read_upto (x : Z) (r : blocklist_walk_t) (s : fs_state D) : Prop := reading (below r0 x) r s /\ keeps s0 s.

Lemma read_start : reading 0 r0 s0.
Proof.
  assert (E0 : done_bytes r0 0 = 0).
  { unfold done_bytes, BLOCK_SIZE; pose proof (rq_bytes _ r_ok); Z.div_mod_to_equations; lia. }
  pose proof (request_bounds r0 r_ok); split; auto.
  - exists (first_byte r0), (last_byte r0); rewrite E0; destruct r0; cbn in *; by subst.
  - unfold nblocks; lia.
  - intros x; rewrite E0; destruct (Z.leb_spec base x), (Z.ltb_spec x (base + 0)); cbn; done || lia.
Qed.

(** Nothing is left to be read below [y]. *)
Lemma read_skip x y r s : below r0 x = below r0 y -> read_upto x r s -> read_upto y r s.
Proof. unfold read_upto; by intros ->. Qed.

Lemma upto_inode x r s :
  read_upto x r s -> (ino < next s)%nat /\ forall o, load32 (heap s ino) o = load32 (heap s0 ino) o.
Proof. intros [_ K]; split; [destruct K; lia|]; intros o; by apply (keeps_load s0 s). Qed.

Lemma upto_fields x r s :
  read_upto x r s -> unfinished r = (below r0 x <? nblocks r0) /\ first_block r = first_block r0 /\ abort r = false.
Proof.
  intros [R _]; pose proof (request_bounds r0 r_ok).
  destruct (reading_fields _ _ _ R) as (F0 & F1 & F2 & _ & _ & _ & F3 & _); unfold unfinished.
  by rewrite F0, F1, F2, u32_small by lia.
Qed.

(** A walk of depth [d] for the blocks from [start] on. *)
Lemma read_area d sub start o r s :
  reads_level d sub -> 0 <= start -> start + width d < 2 ^ 32 -> read_upto start r s ->
  tree_valid im nb d (load32 (heap s0 ino) o) ->
  (forall i, 0 <= i < width d -> file_block im (heap s0 ino) (start + i) = tree_block im d (load32 (heap s0 ino) o) i) ->
  exists r' s', sub r start (ino, o) false s = Ok (0, r', false, s') /\ read_upto (start + width d) r' s'.
Proof.
  intros Hsub H0 Hw Hu Hval Hf; destruct (upto_inode _ _ _ Hu) as [Hi Hl], Hu as [Hr Hk].
  destruct (Hsub r s start (ino, o) false (load32 (heap s0 ino) o)) as (r' & s' & E & R & K); auto.
  - by rewrite f_file.
  - exists r', s'; split; [exact E|]; split; [exact R|by eapply keeps_trans].
Qed.

Lemma read_direct :
  exists r s, (if first_block r0 <=? EXT2_LAST_DIRECT then
      let direct_end := if EXT2_LAST_DIRECT <? last_block r0 then EXT2_LAST_DIRECT else last_block r0 in
      walk_blocklist drv kmalloc (Z.to_nat (direct_end - first_block r0 + 1)) r0 (ino, direct + 4 * first_block r0) false 0
    else mret (0, r0, false)) s0 = Ok (0, r, false, s) /\ read_upto 12 r s.
Proof.
  pose proof (request_bounds r0 r_ok); pose proof read_start; unfold read_upto, EXT2_LAST_DIRECT.
  destruct (Z.leb_spec (first_block r0) 11) as [Hf|Hf]; cbv zeta.
  2:{ exists r0, s0; split; [done|]; split; [|apply keeps_refl]; by replace (below r0 12) with 0 by (unfold below, nblocks; lia). }
  set (e := if 11 <? last_block r0 then 11 else last_block r0).
  assert (He : e = Z.min 11 (last_block r0)) by (unfold e; case_test; lia).
  destruct (read_blocklist (Z.to_nat (e - first_block r0 + 1)) 0 r0 s0 (ino, direct + 4 * first_block r0) false 0)
    as (r1 & s1 & E1 & R1 & K1); cbn [fst snd]; auto.
  - unfold nblocks; lia.
  - intros i Hir; rewrite Z.add_0_r, f_file; unfold file_block, EXT2_LAST_DIRECT; rewrite (proj2 (Z.leb_le _ _)) by lia.
    replace (direct + 4 * first_block r0 + 4 * i) with (direct + 4 * (first_block r0 + i)) by lia.
    split; [done|apply f_valid; lia].
  - exists r1, s1; split; [exact E1|]; split; [|done].
    by replace (below r0 12) with (0 + Z.of_nat (Z.to_nat (e - first_block r0 + 1))) by (unfold below, nblocks; lia).
Qed.

(** The entries of the inode lead to the areas of the file. *)
Lemma file_block_area d start o :
  (d, start, o) ∈ [(1%nat, 12, indirect1); (2%nat, 268, indirect2); (3%nat, 65804, indirect3)] ->
  forall i, 0 <= i < width d -> file_block im (heap s0 ino) (start + i) = tree_block im d (load32 (heap s0 ino) o) i.
Proof.
  change (width 1) with 256; rewrite !elem_of_cons, elem_of_nil; unfold file_block.
  change EXT2_LAST_DIRECT with 11; change EXT2_LAST_INDIRECT with 267; change EXT2_LAST_DOUBLE_INDIRECT with 65803.
  intros [[= -> -> ->]|[[= -> -> ->]|[[= -> -> ->]|[]]]] i Hi;
    [change (width 1) with 256 in Hi|change (width 2) with 65536 in Hi|change (width 3) with 16777216 in Hi];
    tests; f_equal; lia.
Qed.

Lemma read_file : exists r s, walk_file drv kmalloc r0 s0 = Ok (0, r, s) /\ reading (nblocks r0) r s /\ keeps s0 s.
Proof.
  pose proof (request_bounds r0 r_ok); unfold walk_file; rewrite r_ino.
  destruct read_direct as (r1 & s1 & E1 & U1); rewrite (bind_ok _ _ _ _ _ E1); cbn [Z.eqb negb]; clear E1.
  change EXT2_LAST_DIRECT with 11; change EXT2_LAST_INDIRECT with 267; change EXT2_LAST_DOUBLE_INDIRECT with 65803.
  set (m2 := if unfinished r1 && _ then _ else _).
  assert (exists r2 s2, m2 s1 = Ok (0, r2, false, s2) /\ read_upto 268 r2 s2) as (r2 & s2 & E2 & U2).
  { unfold m2; destruct (upto_fields _ _ _ U1) as (-> & -> & _).
    destruct (Z.ltb_spec (below r0 12) (nblocks r0)), (Z.leb_spec (first_block r0) 267); cbn [andb];
      [|exists r1, s1; split; [done|]; apply (read_skip 12); [unfold below, nblocks in *; lia|done]..].
    apply (read_area 1 _ 12 indirect1 r1 s1 read_level1); [done..|apply f_valid|apply file_block_area; set_solver]. }
  rewrite (bind_ok _ _ _ _ _ E2); cbn [Z.eqb negb]; clear m2 E2.
  set (m3 := if unfinished r2 && _ && _ then _ else _).
  assert (exists r3 s3, m3 s2 = Ok (0, r3, false, s3) /\ read_upto 65804 r3 s3) as (r3 & s3 & E3 & U3).
  { unfold m3; destruct (upto_fields _ _ _ U2) as (-> & -> & ->).
    destruct (Z.ltb_spec (below r0 268) (nblocks r0)), (Z.leb_spec (first_block r0) 65803); cbn [andb negb];
      [|exists r2, s2; split; [done|]; apply (read_skip 268); [unfold below, nblocks in *; lia|done]..].
    apply (read_area 2 _ 268 indirect2 r2 s2 read_level2); [done..|apply f_valid|apply file_block_area; set_solver]. }
  rewrite (bind_ok _ _ _ _ _ E3); cbn [Z.eqb negb]; clear m3 E3.
  destruct (upto_fields _ _ _ U3) as (-> & _ & ->); rewrite andb_true_r.
  destruct (Z.ltb_spec (below r0 65804) (nblocks r0)).
  2:{ exists r3, s3; split; [done|]; destruct U3; by replace (nblocks r0) with (below r0 65804) by (unfold below, nblocks in *; lia). }
  destruct (read_area 3 _ 65804 indirect3 r3 s3 (read_walk_level 2 _ read_level2)) as (r4 & s4 & E4 & R4 & K4);
    [done..|apply f_valid|apply file_block_area; set_solver|].
  exists r4, s4; split; [|by replace (nblocks r0) with (below r0 (65804 + width 3))
    by (change (width 3) with 16777216; unfold below, nblocks in *; lia)].
  unfold walk_triple_indirect_block; change EXT2_DOUBLE_INDIRECT_BLOCKS with (width 2).
  by rewrite (bind_ok _ _ _ _ _ E4).
Qed.

End File.
End Read.

(** ** Reading a file *)

Lemma init_request_read sz ino n off data dev meta group :
  0 <= off < sz -> sz <= 2 ^ 31 -> 0 < n < 2 ^ 31 ->
  let r := init_request sz ino n off data dev EXT2_OP_READ meta group in
  request_ok r /\ bytes r = Z.min n (sz - off) /\ offset r = off /\ w_data r = data /\ w_device r = dev /\
  process r = EXT2_OP_READ /\ allocate r = false /\ deallocate r = false /\ zero r = false /\ abort r = false /\
  ext2_inode r = ino /\ blocks_processed r = 0 /\ bytes_processed r = 0.
Proof.
  intros Ho Hs Hn; unfold init_request; cbn -[Z.quot].
  rewrite (u32_small n), (u32_small (n + off)), (u32_small (sz - off)), (u32_small off) by lia.
  rewrite Z.quot_div_nonneg by (unfold BLOCK_SIZE; lia); rewrite andb_true_r.
  assert ((if sz <? n + off then sz - off else n) = Z.min n (sz - off)) as -> by (case_test; lia).
  assert (0 <= off / BLOCK_SIZE < 2 ^ 32) by (unfold BLOCK_SIZE; Z.div_mod_to_equations; lia).
  rewrite (u32_small (off / _)), (u32_small (off + _ - 1)) by lia.
  split_and!; auto; split; cbn; auto; lia.
Qed.

Lemma inode_read_ok {D : Type} (drv : drivers D) (ops : blk_dev_ops_t D) (device : Z)
    `{!BlockDevice ops (MINOR device)} kmalloc now meta (s : fs_state D) inode n off data :
  drv (MAJOR device) = DRIVER_BLK ops -> (forall i, is_Some (kmalloc i)) -> ready (disk s) ->
  let ino := Ext2.data (vnodes s inode) in
  let sz := load32 (heap s ino) i_size in
  dev (vnodes s inode) = device -> (ino < next s)%nat -> (data.1 < next s)%nat -> ino <> data.1 ->
  file_valid (image (disk s)) (BlockDevProofs.size (disk s)) (heap s ino) ->
  0 <= sz <= 2 ^ 31 -> 0 <= off < 2 ^ 31 -> 0 < n < 2 ^ 31 ->
  exists s', fs_ext2_inode_read drv kmalloc now meta inode n off data s = Ok (Z.max 0 (Z.min n (sz - off)), s') /\
    disk s' = disk s /\ vnodes s' = vnodes s /\ (next s <= next s')%nat /\
    (forall b, (b < next s)%nat -> b <> data.1 -> forall x, heap s' b x = heap s b x) /\
    (forall x, heap s' data.1 x =
       if (data.2 <=? x) && (x <? data.2 + Z.max 0 (Z.min n (sz - off)))
       then file_byte (image (disk s)) (heap s ino) (off + (x - data.2)) else heap s data.1 x).
Proof.
  intros Hd Hk Hr ino sz Hdev Hi Hp Hne Hv Hs Ho Hn; unfold fs_ext2_inode_read, fs_ext2_inode_rw.
  erewrite !bind_ok by reflexivity; fold ino; cbn [fst snd]; fold sz; rewrite (u32_small off) by lia.
  rewrite (proj2 (Z.leb_gt n 0)) by lia; cbn [orb]; rewrite bool_decide_eq_true_2, andb_true_r by done.
  destruct (Z.leb_spec sz off).
  { exists s; replace (Z.max 0 _) with 0 by lia.
    split; [done|]; split_and!; auto; intros x.
    destruct (Z.leb_spec data.2 x), (Z.ltb_spec x (data.2 + 0)); cbn; done || lia. }
  erewrite bind_ok by reflexivity; set (group := _ / load32 _ _).
  destruct (init_request_read sz ino n off data device meta group) as (Q & Qb & Qo & Qd & Qv & Qp & Qa & Qe & Qz & Qt & Qi & Q1 & Q2);
    [lia..|]; rewrite Hdev; set (r0 := init_request _ _ _ _ _ _ _ _ _) in *.
  destruct (read_file drv ops device Hd kmalloc Hk r0 s data.1 data.2 (file_block (image (disk s)) (heap s ino)) Q)
    with (ino := ino) as (r & s' & E & R & K); auto; [by destruct data|].
  rewrite (bind_ok _ _ _ _ _ E); cbn [Z.eqb negb]; erewrite bind_ok by reflexivity.
  rewrite bool_decide_eq_false_2, andb_false_r by done; cbn [andb]; erewrite bind_ok by reflexivity.
  rewrite bool_decide_eq_false_2 by (intros H'; by apply H'); erewrite bind_ok by reflexivity; cbn [Z.eqb negb].
  destruct R as [(a & l & ->) _ Rd Rv _ Rx], K as [Kn K].
  assert (Eb : done_bytes r0 (nblocks r0) = Z.max 0 (Z.min n (sz - off))).
  { destruct Q as [? ? ? Qf Ql]; unfold done_bytes, nblocks, BLOCK_SIZE in *; rewrite Qf, Ql, Qb, Qo in *.
    Z.div_mod_to_equations; lia. }
  cbn [set_range set_processed bytes_processed]; rewrite Eb in *.
  exists s'; split_and!; auto; [unfold mret, fsM_ret; word; done|].
  intros x; rewrite Rx, Qo; unfold byte_of, file_byte; by destruct (_ && _).
Qed.

(** C7. Reading a file of an EXT2 file system, on any device that implements the
    interface of a block device: the number of bytes requested, or up to the end of
    the file, is returned, and the buffer receives the bytes of the file, which the
    tree of direct, single, double and triple indirect blocks describes and which
    are zero in holes.  The disk, the inode and all other buffers are unchanged. *)
Theorem ext2_read_correct {D : Type} (drv : drivers D) (ops : blk_dev_ops_t D) (device : Z)
    `{!BlockDevice ops (MINOR device)} kmalloc now meta (s : fs_state D) inode n off data :
  drv (MAJOR device) = DRIVER_BLK ops -> (forall i, is_Some (kmalloc i)) -> ready (disk s) ->
  let ino := Ext2.data (vnodes s inode) in
  let sz := load32 (heap s ino) i_size in
  dev (vnodes s inode) = device -> (ino < next s)%nat -> (data.1 < next s)%nat -> ino <> data.1 ->
  file_valid (image (disk s)) (BlockDevProofs.size (disk s)) (heap s ino) ->
  0 <= sz <= 2 ^ 31 -> 0 <= off < 2 ^ 31 -> 0 < n < 2 ^ 31 ->
  exists s', fs_ext2_inode_read drv kmalloc now meta inode n off data s = Ok (Z.max 0 (Z.min n (sz - off)), s') /\
    disk s' = disk s /\ vnodes s' = vnodes s /\ (next s <= next s')%nat /\
    (forall b, (b < next s)%nat -> b <> data.1 -> forall x, heap s' b x = heap s b x) /\
    (forall x, heap s' data.1 x =
       if (data.2 <=? x) && (x <? data.2 + Z.max 0 (Z.min n (sz - off)))
       then file_byte (image (disk s)) (heap s ino) (off + (x - data.2)) else heap s data.1 x).
Proof. apply inode_read_ok. Qed.

(** A disk of eight blocks.  Block 3 is the first block of the file, and the first
    entry of the indirect block 4 is block 5; the rest of the file are holes. *)
Definition example_ramdisk : ramdisk :=
  mk_ramdisk 1 8192 16383 (store32 (fun x => if (x - 8192) / 1024 =? 4 then 0 else (x - 8192) / 1024 + 40) (8192 + 4 * 1024) 5).
Definition example_drivers : drivers ramdisk := snd (ramdisk_init example_ramdisk (fun _ => DRIVER_NONE) 1 8192 16383).
Definition example_inode : mem := store32 (store32 (store32 (fun _ => 0) i_size 13000) direct 3) indirect1 4.
Definition example_fs : fs_state ramdisk :=
  mk_fs example_ramdisk (fun b => if decide (b = 1%nat) then example_inode else fun _ => 7) 3
    (fun _ => mk_inode 13000 12 256 0 0 0 1 1 0 0).

Lemma example_fs_valid :
  file_valid (image (ops := ramdisk_ops) (minor := MINOR 256) (disk example_fs))
    (BlockDevProofs.size (ops := ramdisk_ops) (minor := MINOR 256) (disk example_fs)) (heap example_fs 1).
Proof.
  split; [| |by left..].
  - intros k Hk; change (heap example_fs 1) with example_inode; unfold example_inode.
    destruct (decide (k = 0)) as [->|]; [right; by vm_compute|left].
    unfold direct, indirect1, i_size; by rewrite !load32_store32_other by lia.
  - assert (load32 (heap example_fs 1) indirect1 = 4) as -> by (by vm_compute).
    right; split; [by vm_compute|]; intros j Hj; cbn [tree_valid]; cbn.
    destruct (decide (j = 0)) as [->|]; [right; by vm_compute|left].
    unfold ramdisk_image; cbn; unfold load32, store32.
    rewrite !store8_other by (unfold BLOCK_SIZE; lia); rewrite !(proj2 (Z.eqb_eq _ 4)); [done|..];
      unfold BLOCK_SIZE; Z.div_mod_to_equations; lia.
Qed.

Lemma ext2_read_correct_witness :
  exists s', fs_ext2_inode_read example_drivers (fun _ => Some (fun _ => 0)) 0 (mk_meta 0 0 256 1 1) 1 20000 500 (2%nat, 10)
      example_fs = Ok (12500, s') /\
    map (heap s' 2) [9; 10; 533; 534; 11797; 11798; 12509; 12510] = [7; 43; 43; 0; 0; 45; 45; 7].
Proof.
  destruct (ext2_read_correct example_drivers ramdisk_ops 256 (fun _ => Some (fun _ => 0)) 0 (mk_meta 0 0 256 1 1)
    example_fs 1 20000 500 (2%nat, 10)) as (s' & E & _ & _ & _ & _ & Hx).
  - reflexivity.
  - done.
  - repeat split; vm_compute; congruence.
  - reflexivity.
  - cbn; lia.
  - cbn; lia.
  - done.
  - exact example_fs_valid.
  - vm_compute; split; congruence.
  - lia.
  - lia.
  - exists s'; split; [exact E|]; unfold map; rewrite !Hx; by vm_compute.
Defined.
