(* ===== verification/Ext2Alloc.v ===== *)
(** * EXT2: allocation of blocks

    The bitmaps on the disk, the counters of free blocks in the superblock and in
    the block group descriptors, and what allocation and deallocation do to them. *)

From S2P Require Import Prelude Errors Memory Lists BlockDev BlockDevProofs.
Import Lists BlockDev BlockDevProofs.
From S2P Require Import Ext2 Ext2Read.

(** Block [b] has the same contents in two images of the disk. *)
Definition same_block (im im' : mem) (b : Z) : Prop :=
  forall o, 0 <= o < BLOCK_SIZE -> im' (b * BLOCK_SIZE + o) = im (b * BLOCK_SIZE + o).

(** The state differs by temporary buffers only. *)
Record unchanged {D} (s s' : fs_state D) : Prop := {
  un_disk : disk s' = disk s;
  un_vnodes : vnodes s' = vnodes s;
  un_next : (next s <= next s')%nat;
  un_heap : forall b, (b < next s)%nat -> forall x, heap s' b x = heap s b x;
}.

Lemma unchanged_refl {D} (s : fs_state D) : unchanged s s.
Proof. by split. Qed.

Lemma unchanged_trans {D} (s1 s2 s3 : fs_state D) : unchanged s1 s2 -> unchanged s2 s3 -> unchanged s1 s3.
Proof.
  intros [A1 A2 A3 A4] [B1 B2 B3 B4]; split; [congruence|congruence|lia|].
  intros b Hb x; rewrite B4, A4 by lia; done.
Qed.

(** ** Counting *)

Lemma filter_same {A} (P Q : A -> Prop) `{!forall x, Decision (P x), !forall x, Decision (Q x)} (l : list A) :
  (forall x, x ∈ l -> Q x <-> P x) -> filter Q l = filter P l.
Proof.
  induction l as [|y l IH]; intros E; [done|]; rewrite !filter_cons.
  rewrite IH by (intros x Hx; apply E; by right); specialize (E y ltac:(by left)).
  by destruct (decide (P y)), (decide (Q y)); try tauto.
Qed.

Lemma filter_take_one {A} `{EqDecision A} (P Q : A -> Prop) `{!forall x, Decision (P x), !forall x, Decision (Q x)} (l : list A) (i : A) :
  NoDup l -> i ∈ l -> P i -> (forall x, x ∈ l -> Q x <-> P x /\ x <> i) ->
  length (filter P l) = S (length (filter Q l)).
Proof.
  intros Hn Hi HP; revert Hi; induction Hn as [|y l Hy Hn IH]; [by intros ?%elem_of_nil|].
  intros Hi HQ; rewrite !filter_cons.
  assert (HQ' : forall x, x ∈ l -> Q x <-> P x /\ x <> i) by (intros x Hx; apply HQ; by right).
  assert (Hyq : Q y <-> P y /\ y <> i) by (apply HQ; by left).
  destruct (decide (y = i)) as [->|Hne].
  - rewrite decide_True, decide_False by tauto; cbn; do 2 f_equal.
    apply filter_same; intros x Hx; rewrite HQ' by done; split; [|tauto].
    intros HPx; split; [done|]; by intros ->.
  - apply elem_of_cons in Hi as [?|Hi]; [congruence|].
    destruct (decide (P y)).
    + rewrite (decide_True (P := Q y)) by tauto; cbn; by rewrite IH.
    + rewrite (decide_False (P := Q y)) by tauto; by apply IH.
Qed.

Lemma sum_take_one (f f' : Z -> Z) (l : list Z) (g : Z) (d : Z) :
  NoDup l -> g ∈ l -> f' g = f g + d -> (forall x, x ∈ l -> x <> g -> f' x = f x) ->
  foldr Z.add 0 (f' <$> l) = foldr Z.add 0 (f <$> l) + d.
Proof.
  intros Hn Hg E; revert Hg; induction Hn as [|y l Hy Hn IH]; [by intros ?%elem_of_nil|].
  intros Hg H; cbn; destruct (decide (y = g)) as [->|Hne].
  - rewrite E; assert (f' <$> l = f <$> l) as ->; [|lia].
    apply list_fmap_ext; intros i x Hx%list_elem_of_lookup_2; apply H; [by right|congruence].
  - apply elem_of_cons in Hg as [?|Hg]; [congruence|].
    rewrite IH, (H y) by (done || by left || (intros; apply H; [by right|done])); lia.
Qed.

Lemma get_bit_ext f f' i : f' (i / 8) = f (i / 8) -> BITFIELD_GET_BIT f' i = BITFIELD_GET_BIT f i.
Proof. unfold BITFIELD_GET_BIT; by intros ->. Qed.

(** ** Layout of the file system *)

Record layout := mk_layout {
  l_meta : ext2_metadata_t;
  l_blocks : Z;
  l_first : Z;
  l_count : Z;
  l_per_group : Z;
  l_bitmap : Z -> Z;
  l_inodes : Z;
  l_inode_table : Z -> Z;
}.

Section Layout.
Context (L : layout).

Definition groups : Z := bgdt_size (l_meta L).
Definition table_end : Z := l_first L + 1 + (groups * sizeof_bgd - 1) / BLOCK_SIZE.

(** The superblock, the block group descriptor table and the bitmaps. *)
Definition reserved (b : Z) : Prop :=
  b = 1 \/ l_first L + 1 <= b <= table_end \/ exists g, 0 <= g < groups /\ b = l_bitmap L g.

(** The number of bits of the bitmap of group [g] that are looked at. *)
Definition limit (g : Z) : Z :=
  if (u32 (groups - 1) =? g / sizeof_bgd) && negb (l_count L mod l_per_group L =? 0)
  then l_count L mod l_per_group L else l_per_group L.

(** The block of bit [i] of group [g]. *)
Definition block_of (g i : Z) : Z := g * l_per_group L + 1 + i.

(** Every group starts with copies of the superblock and of the table, followed by
    the bitmap. *)
Record layout_ok : Prop := {
  lo_groups : 0 < groups < 2 ^ 16;
  lo_blocks : 2 <= l_blocks L < 2 ^ 21;
  lo_per_group : 0 < l_per_group L <= 8 * BLOCK_SIZE;
  lo_count : 0 < l_count L;
  lo_first : 0 <= l_first L;
  lo_table : table_end < l_blocks L;
  lo_table_one : 1 < l_first L + 1;
  lo_bitmap : forall g, 0 <= g < groups -> l_bitmap L g = g * l_per_group L + 1 + bgdt_blocks (l_meta L) + 1;
  lo_bitmap_range : forall g, 0 <= g < groups -> table_end < l_bitmap L g < l_blocks L;
}.

Lemma limit_bound g : layout_ok -> 0 < limit g <= l_per_group L.
Proof.
  intros [_ _ Hp _ _ _ _ _ _]; unfold limit.
  pose proof (Z.mod_pos_bound (l_count L) (l_per_group L) ltac:(lia)).
  destruct (_ =? _); cbn [andb]; [destruct (Z.eqb_spec (l_count L mod l_per_group L) 0)|]; cbn; lia.
Qed.

Lemma bitmap_inj g g' : layout_ok -> 0 <= g < groups -> 0 <= g' < groups -> l_bitmap L g = l_bitmap L g' -> g = g'.
Proof. intros Lo Hg Hg' E; rewrite !(lo_bitmap Lo) in E by done; pose proof (lo_per_group Lo); nia. Qed.

Lemma block_of_inj g i g' i' :
  layout_ok -> 0 <= i < l_per_group L -> 0 <= i' < l_per_group L -> block_of g i = block_of g' i' -> g = g' /\ i = i'.
Proof. unfold block_of; intros; assert (g = g') by nia; subst; lia. Qed.

(** ** The map of free blocks *)

Section State.
Context {D : Type} {ops : blk_dev_ops_t D} {minor : Z} `{!BlockDevice ops minor}.

Definition bitmap_of (s : fs_state D) (g : Z) : mem := fun x => image (disk s) (l_bitmap L g * BLOCK_SIZE + x).
Definition clear_bits (s : fs_state D) (g : Z) : list Z :=
  filter (fun i => BITFIELD_GET_BIT (bitmap_of s g) i = 0) (seqZ 0 (limit g)).
Definition free_count (s : fs_state D) (g : Z) : Z := Z.of_nat (length (clear_bits s g)).
Definition free_total (s : fs_state D) : Z := foldr Z.add 0 (free_count s <$> seqZ 0 groups).

(** The block is marked as free. *)
Definition is_free (s : fs_state D) (b : Z) : Prop :=
  exists g i, 0 <= g < groups /\ i ∈ clear_bits s g /\ b = block_of g i.

(** The buffers hold the superblock and the table, with the layout and the right
    numbers of free blocks; and no block that is marked as free is reserved or
    behind the end of the disk. *)
Record fs_inv (s : fs_state D) : Prop := {
  fi_ready : ready (disk s);
  fi_size : BlockDevProofs.size (disk s) = l_blocks L;
  fi_bufs : (ext2_super (l_meta L) < next s)%nat /\ (bgdt (l_meta L) < next s)%nat;
  fi_apart : ext2_super (l_meta L) <> bgdt (l_meta L);
  fi_super : load32 (heap s (ext2_super (l_meta L))) s_first_data_block = l_first L /\
             load32 (heap s (ext2_super (l_meta L))) s_blocks_count = l_count L /\
             load32 (heap s (ext2_super (l_meta L))) s_blocks_per_group = l_per_group L /\
             load32 (heap s (ext2_super (l_meta L))) s_inodes_per_group = l_inodes L;
  fi_table : forall g, 0 <= g < groups ->
    load32 (heap s (bgdt (l_meta L))) (g * sizeof_bgd + bg_block_bitmap) = l_bitmap L g /\
    load32 (heap s (bgdt (l_meta L))) (g * sizeof_bgd + bg_inode_table) = l_inode_table L g;
  fi_count : forall g, 0 <= g < groups ->
    load16 (heap s (bgdt (l_meta L))) (g * sizeof_bgd + bg_free_blocks_count) = free_count s g;
  fi_total : load32 (heap s (ext2_super (l_meta L))) s_free_blocks_count = free_total s;
  fi_free : forall b, is_free s b -> 0 < b < l_blocks L /\ ~ reserved b;
}.

(** One block was taken out of the map, and nothing else has changed but the
    reserved blocks and the two buffers. *)
Record takes (s s' : fs_state D) (b : Z) : Prop := {
  tk_inv : fs_inv s';
  tk_free : is_free s b;
  tk_map : forall x, is_free s' x <-> is_free s x /\ x <> b;
  tk_total : free_total s' = free_total s - 1;
  tk_vnodes : vnodes s' = vnodes s;
  tk_next : (next s <= next s')%nat;
  tk_heap : forall c, (c < next s)%nat -> c <> ext2_super (l_meta L) -> c <> bgdt (l_meta L) ->
    forall x, heap s' c x = heap s c x;
  tk_image : forall x, ~ reserved x -> same_block (image (disk s)) (image (disk s')) x;
}.

(** One block was put back into the map. *)
Record gives (s s' : fs_state D) (b : Z) : Prop := {
  gv_inv : fs_inv s';
  gv_map : forall x, is_free s' x <-> is_free s x \/ x = b;
  gv_total : free_total s' = free_total s + 1;
  gv_vnodes : vnodes s' = vnodes s;
  gv_next : (next s <= next s')%nat;
  gv_heap : forall c, (c < next s)%nat -> c <> ext2_super (l_meta L) -> c <> bgdt (l_meta L) ->
    forall x, heap s' c x = heap s c x;
  gv_image : forall x, ~ reserved x -> same_block (image (disk s)) (image (disk s')) x;
}.

Lemma free_count_bound s g : layout_ok -> 0 <= free_count s g <= 8 * BLOCK_SIZE.
Proof.
  intros Lo; pose proof (limit_bound g Lo); pose proof (lo_per_group Lo); unfold free_count, clear_bits.
  pose proof (length_filter (fun i => BITFIELD_GET_BIT (bitmap_of s g) i = 0) (seqZ 0 (limit g))) as H1.
  rewrite length_seqZ in H1; lia.
Qed.

Lemma elem_of_clear s g i : i ∈ clear_bits s g <-> BITFIELD_GET_BIT (bitmap_of s g) i = 0 /\ 0 <= i < limit g.
Proof. unfold clear_bits; rewrite list_elem_of_filter, elem_of_seqZ; lia. Qed.

End State.
End Layout.

(** ** The operations *)

Section Operations.
Context (L : layout) (Lo : layout_ok L).
Context {D : Type} (drv : drivers D) (ops : blk_dev_ops_t D) (dev : Z) `{!BlockDevice ops (MINOR dev)}.
Context (registered : drv (MAJOR dev) = DRIVER_BLK ops) (meta_dev : device (l_meta L) = dev).
Context (kmalloc : nat -> option mem) (enough : forall n, is_Some (kmalloc n)).

#[local] Abbreviation meta := (l_meta L).
#[local] Abbreviation super := (ext2_super (l_meta L)).
#[local] Abbreviation table := (bgdt (l_meta L)).

Lemma local_ok (s : fs_state D) : exists s', local s = Ok (next s, s') /\ unchanged s s' /\ next s' = S (next s).
Proof. eexists; split; [reflexivity|]; split; [split; cbn; auto; lia|done]. Qed.

(** The table and the superblock are written back. *)
Lemma put_meta_ok (s : fs_state D) :
  ready (disk s) -> BlockDevProofs.size (disk s) = l_blocks L -> load32 (heap s super) s_first_data_block = l_first L ->
  exists s', put_meta drv kmalloc meta s = Ok (0, s') /\ ready (disk s') /\
    BlockDevProofs.size (disk s') = l_blocks L /\ vnodes s' = vnodes s /\ (next s <= next s')%nat /\ heap s' = heap s /\
    forall b, b <> 1 -> ~ (l_first L + 1 <= b <= table_end L) -> same_block (image (disk s)) (image (disk s')) b.
Proof.
  intros Hr Hs Hf; destruct Lo as [Hg Hb _ _ H0 Ht H1 _ _]; unfold put_meta, table_end, sizeof_bgd, BLOCK_SIZE in *.
  erewrite bind_ok by reflexivity; cbn [fst snd]; rewrite Hf, meta_dev.
  assert (0 <= (groups L * 32 - 1) / 1024 /\ groups L * 32 <= ((groups L * 32 - 1) / 1024 + 1) * 1024)
    by (Z.div_mod_to_equations; lia).
  rewrite (u32_small (l_first L + 1)) by lia; fold (groups L); rewrite (u32_small (groups L * 32)) by lia.
  destruct (write_bytes_spec drv ops dev registered kmalloc enough s (l_first L + 1) (groups L * 32) (table, 0) 0)
    as (s1 & E1 & R1 & S1 & V1 & N1 & P1 & I1); [done|lia|lia|lia|rewrite Hs; unfold BLOCK_SIZE; lia|].
  rewrite (bind_ok _ _ _ _ _ E1); cbn [Z.eqb negb].
  destruct (write_bytes_spec drv ops dev registered kmalloc enough s1 1 sizeof_superblock (super, 0) 0)
    as (s2 & E2 & R2 & S2 & V2 & N2 & P2 & I2); [done|done|done|done|rewrite S1, Hs; unfold BLOCK_SIZE, sizeof_superblock; lia|].
  rewrite (bind_ok _ _ _ _ _ E2); exists s2; split; [reflexivity|]; split_and!; [done|congruence|congruence|lia|congruence|].
  intros b Hb1 Hb2 o Ho; rewrite I2, blit_out by (unfold BLOCK_SIZE, sizeof_superblock in *; lia).
  rewrite I1, blit_out; [done|unfold BLOCK_SIZE in *; Z.div_mod_to_equations; lia].
Qed.

(** The search for a clear bit. *)
Lemma find_clear_spec m n :
  match find_clear m n with
  | Some i => 0 <= i < n /\ BITFIELD_GET_BIT m i = 0
  | None => forall i, 0 <= i < n -> BITFIELD_GET_BIT m i <> 0
  end.
Proof.
  unfold find_clear; destruct (list_find _ _) as [[k i]|] eqn:E.
  - apply list_find_Some in E as (Hk & Hi & _); apply lookup_seqZ in Hk; lia.
  - apply list_find_None in E; rewrite list.Forall_forall in E; intros i Hi; apply E, elem_of_seqZ; lia.
Qed.

(** The bitmap of a group in a buffer. *)
Lemma load_bitmap (s : fs_state D) g buf :
  fs_inv L s -> 0 <= g < groups L ->
  exists s', read_bytes drv kmalloc (l_bitmap L g) BLOCK_SIZE (buf, 0) (device meta) 0 s = Ok (0, s') /\
    disk s' = disk s /\ vnodes s' = vnodes s /\ next s' = S (next s) /\ (forall b, b <> buf -> heap s' b = heap s b) /\
    forall x, 0 <= x < BLOCK_SIZE -> heap s' buf x = bitmap_of L s g x.
Proof.
  intros I Hg; pose proof (lo_bitmap_range _ Lo g Hg) as Hb; pose proof (lo_first _ Lo).
  assert (0 <= table_end L).
  { unfold table_end, sizeof_bgd, BLOCK_SIZE; pose proof (lo_groups _ Lo); Z.div_mod_to_equations; lia. }
  rewrite meta_dev; destruct (read_bytes_spec drv ops dev registered kmalloc enough s (l_bitmap L g) BLOCK_SIZE (buf, 0) 0)
    as (s' & E & D1 & D2 & D3 & D4 & D5); [apply I|done|done|lia|rewrite (fi_size _ _ I); unfold BLOCK_SIZE; lia|].
  exists s'; split; [exact E|]; split_and!; auto; intros x Hx; cbn [fst snd] in D5; rewrite D5, blit_in by lia.
  unfold bitmap_of; f_equal; lia.
Qed.

Lemma get_bit_bitmap (m : mem) (s : fs_state D) g i :
  (forall x, 0 <= x < BLOCK_SIZE -> m x = bitmap_of L s g x) -> 0 <= i < 8 * BLOCK_SIZE ->
  BITFIELD_GET_BIT m i = BITFIELD_GET_BIT (bitmap_of L s g) i.
Proof. intros H Hi; apply get_bit_ext, H; unfold BLOCK_SIZE in *; Z.div_mod_to_equations; lia. Qed.

(** ** Changing one bit

    [s1] is the state before the metadata are written back: bit [i] of the bitmap
    of group [g] has been written to the disk as [v], and the two counters have
    changed by [d]. *)
Record flipped (s s1 : fs_state D) (g i v d : Z) : Prop := {
  fl_ready : ready (disk s1);
  fl_size : BlockDevProofs.size (disk s1) = l_blocks L;
  fl_vnodes : vnodes s1 = vnodes s;
  fl_next : (next s <= next s1)%nat;
  fl_bits : forall k, 0 <= k < 8 * BLOCK_SIZE ->
    BITFIELD_GET_BIT (bitmap_of L s1 g) k = if i =? k then v else BITFIELD_GET_BIT (bitmap_of L s g) k;
  fl_image : forall b, b <> l_bitmap L g -> same_block (image (disk s)) (image (disk s1)) b;
  fl_table : forall x, heap s1 table x =
    store16 (heap s table) (g * sizeof_bgd + bg_free_blocks_count) (u16 (free_count L s g + d)) x;
  fl_super : forall x, heap s1 super x = store32 (heap s super) s_free_blocks_count (u32 (free_total L s + d)) x;
  fl_heap : forall c, (c < next s)%nat -> c <> super -> c <> table -> forall x, heap s1 c x = heap s c x;
}.

Lemma free_count_flip (s s2 : fs_state D) g i v d :
  0 <= i < limit L g -> BITFIELD_GET_BIT (bitmap_of L s g) i = 1 - v -> (v = 1 /\ d = -1 \/ v = 0 /\ d = 1) ->
  (forall k, 0 <= k < 8 * BLOCK_SIZE ->
     BITFIELD_GET_BIT (bitmap_of L s2 g) k = if i =? k then v else BITFIELD_GET_BIT (bitmap_of L s g) k) ->
  free_count L s2 g = free_count L s g + d.
Proof.
  intros Hi Hb Hv H; pose proof (limit_bound L g Lo); pose proof (lo_per_group _ Lo).
  assert (Hk : forall k, k ∈ seqZ 0 (limit L g) ->
    BITFIELD_GET_BIT (bitmap_of L s2 g) k = if i =? k then v else BITFIELD_GET_BIT (bitmap_of L s g) k)
    by (intros k Hk%elem_of_seqZ; apply H; lia).
  unfold free_count, clear_bits; destruct Hv as [[-> ->]|[-> ->]].
  - rewrite (filter_take_one (fun k => BITFIELD_GET_BIT (bitmap_of L s g) k = 0)
      (fun k => BITFIELD_GET_BIT (bitmap_of L s2 g) k = 0) _ i); [lia|apply NoDup_seqZ|apply elem_of_seqZ; lia|lia|].
    intros k Hk'; rewrite Hk by done; destruct (Z.eqb_spec i k); split; intros; try done; try lia; split; auto.
  - rewrite (filter_take_one (fun k => BITFIELD_GET_BIT (bitmap_of L s2 g) k = 0)
      (fun k => BITFIELD_GET_BIT (bitmap_of L s g) k = 0) _ i); [lia|apply NoDup_seqZ|apply elem_of_seqZ; lia| |].
    + rewrite Hk by (apply elem_of_seqZ; lia); by rewrite Z.eqb_refl.
    + intros k Hk'; rewrite Hk by done; destruct (Z.eqb_spec i k) as [->|]; split; intros; try done; try lia; split; auto.
Qed.

Lemma free_total_bound (s : fs_state D) : 0 <= free_total L s <= groups L * (8 * BLOCK_SIZE).
Proof.
  unfold free_total; pose proof (lo_groups _ Lo).
  assert (forall l, 0 <= foldr Z.add 0 (free_count L s <$> l) <= Z.of_nat (length l) * (8 * BLOCK_SIZE)) as B.
  { induction l as [|g l IH]; cbn; [lia|]; pose proof (free_count_bound L s g Lo); unfold BLOCK_SIZE in *; lia. }
  specialize (B (seqZ 0 (groups L))); rewrite length_seqZ in B; lia.
Qed.

(** The counters follow the bitmaps. *)
Lemma counts_flip (s s2 : fs_state D) g i v d :
  0 <= g < groups L -> 0 <= i < limit L g -> BITFIELD_GET_BIT (bitmap_of L s g) i = 1 - v ->
  (v = 1 /\ d = -1 \/ v = 0 /\ d = 1) ->
  (forall g' k, 0 <= g' < groups L -> 0 <= k < 8 * BLOCK_SIZE -> BITFIELD_GET_BIT (bitmap_of L s2 g') k =
     if (g' =? g) && (i =? k) then v else BITFIELD_GET_BIT (bitmap_of L s g') k) ->
  (forall g', 0 <= g' < groups L -> free_count L s2 g' = if g' =? g then free_count L s g + d else free_count L s g') /\
  free_total L s2 = free_total L s + d.
Proof.
  intros Hg Hi Hb Hv B.
  assert (C : forall g', 0 <= g' < groups L -> free_count L s2 g' = if g' =? g then free_count L s g + d else free_count L s g').
  { intros g' Hg'; destruct (Z.eqb_spec g' g) as [->|Hne].
    - apply (free_count_flip s s2 g i v d Hi Hb Hv); intros k Hk; rewrite B by done; by rewrite Z.eqb_refl.
    - unfold free_count; do 2 f_equal; apply filter_same; intros k Hk%elem_of_seqZ.
      pose proof (limit_bound L g' Lo); pose proof (lo_per_group _ Lo).
      rewrite B by lia; by rewrite (proj2 (Z.eqb_neq g' g)). }
  split; [done|]; apply (sum_take_one _ _ _ g); [apply NoDup_seqZ|apply elem_of_seqZ; lia| |].
  - by rewrite C, Z.eqb_refl.
  - intros g' Hg'%elem_of_seqZ Hne; rewrite C by lia; by rewrite (proj2 (Z.eqb_neq g' g)).
Qed.

(** The fields of the buffers after the counters have changed. *)
Lemma flipped_fields (s s1 : fs_state D) g i v d :
  flipped s s1 g i v d ->
  (forall o, o + 4 <= s_free_blocks_count \/ s_free_blocks_count + 4 <= o ->
     load32 (heap s1 super) o = load32 (heap s super) o) /\
  load32 (heap s1 super) s_free_blocks_count = u32 (free_total L s + d) /\
  (forall g' o, 0 <= o <= bg_inode_table ->
     load32 (heap s1 table) (g' * sizeof_bgd + o) = load32 (heap s table) (g' * sizeof_bgd + o)) /\
  (forall g', load16 (heap s1 table) (g' * sizeof_bgd + bg_free_blocks_count) =
     if g' =? g then u16 (free_count L s g + d) else load16 (heap s table) (g' * sizeof_bgd + bg_free_blocks_count)).
Proof.
  intros F; split_and!.
  - intros o Ho; rewrite (load32_ext _ _ _ (fun x _ => fl_super _ _ _ _ _ _ F x)); apply load32_store32_other; lia.
  - rewrite (load32_ext _ _ _ (fun x _ => fl_super _ _ _ _ _ _ F x)); apply load32_store32_same, u32_range.
  - intros g' o Ho; rewrite (load32_ext _ _ _ (fun x _ => fl_table _ _ _ _ _ _ F x)).
    apply load32_store16; unfold sizeof_bgd, bg_free_blocks_count, bg_inode_table in *; lia.
  - intros g'; rewrite (load16_ext _ _ _ (fun x _ => fl_table _ _ _ _ _ _ F x)).
    destruct (Z.eqb_spec g' g) as [->|]; [apply load16_store16_same, u16_range|].
    apply load16_store16_other; unfold sizeof_bgd, bg_free_blocks_count; lia.
Qed.

(** The metadata are written back; what is free now is a hypothesis. *)
Lemma commit (s s1 : fs_state D) g i v d :
  fs_inv L s -> 0 <= g < groups L -> 0 <= i < limit L g -> BITFIELD_GET_BIT (bitmap_of L s g) i = 1 - v ->
  (v = 1 /\ d = -1 \/ v = 0 /\ d = 1) -> flipped s s1 g i v d ->
  exists s2, put_meta drv kmalloc meta s1 = Ok (0, s2) /\
    vnodes s2 = vnodes s /\ (next s <= next s2)%nat /\
    (forall c, (c < next s)%nat -> c <> super -> c <> table -> forall x, heap s2 c x = heap s c x) /\
    (forall x, ~ reserved L x -> same_block (image (disk s)) (image (disk s2)) x) /\
    (forall g' k, 0 <= g' < groups L -> 0 <= k < 8 * BLOCK_SIZE -> BITFIELD_GET_BIT (bitmap_of L s2 g') k =
       if (g' =? g) && (i =? k) then v else BITFIELD_GET_BIT (bitmap_of L s g') k) /\
    free_total L s2 = free_total L s + d /\
    ((forall b, is_free L s2 b -> 0 < b < l_blocks L /\ ~ reserved L b) -> fs_inv L s2).
Proof.
  intros I Hg Hi Hb Hv F; destruct (flipped_fields s s1 g i v d F) as (L1 & L2 & L3 & L4).
  destruct F as [F1 F2 F3 F4 F5 F6 _ _ F9]; destruct (fi_super _ _ I) as (Hf & Hc & Hp & Hip), (fi_bufs _ _ I) as [Hs Ht].
  destruct (put_meta_ok s1 F1 F2) as (s2 & E2 & R2 & S2 & V2 & N2 & P2 & M2).
  { rewrite L1 by (unfold s_first_data_block, s_free_blocks_count; lia); done. }
  assert (B : forall g' k, 0 <= g' < groups L -> 0 <= k < 8 * BLOCK_SIZE -> BITFIELD_GET_BIT (bitmap_of L s2 g') k =
     if (g' =? g) && (i =? k) then v else BITFIELD_GET_BIT (bitmap_of L s g') k).
  { intros g' k Hg' Hk; assert (Hbm : bitmap_of L s2 g' (k / 8) = bitmap_of L s1 g' (k / 8)).
    { pose proof (lo_bitmap_range _ Lo g' Hg'); pose proof (lo_table_one _ Lo); pose proof (lo_groups _ Lo).
      assert (0 <= (groups L * sizeof_bgd - 1) / BLOCK_SIZE) by (unfold sizeof_bgd, BLOCK_SIZE; Z.div_mod_to_equations; lia).
      unfold bitmap_of; apply M2; [unfold table_end in *; lia|lia|unfold BLOCK_SIZE in *; Z.div_mod_to_equations; lia]. }
    rewrite (get_bit_ext _ _ _ Hbm); destruct (Z.eqb_spec g' g) as [->|Hne]; cbn [andb]; [by apply F5|].
    apply get_bit_ext; unfold bitmap_of; apply F6; [intros E; by apply Hne, (bitmap_inj L)|].
    unfold BLOCK_SIZE in *; Z.div_mod_to_equations; lia. }
  destruct (counts_flip s s2 g i v d Hg Hi Hb Hv B) as [Cg Ct].
  exists s2; split; [exact E2|]; split_and!; [congruence|lia| | |done|done|].
  - intros c Hcc Hc1 Hc2 x; rewrite P2; auto.
  - intros x Hx o Ho; rewrite M2, F6; auto; intros Hx'; apply Hx; unfold reserved; subst; eauto.
  - intros Hfree; pose proof (free_total_bound s2) as Bt; pose proof (free_count_bound L s2 g Lo) as Bc.
    pose proof (lo_groups _ Lo); unfold BLOCK_SIZE in Bt, Bc.
    split; auto; rewrite ?P2; [lia|apply I| | | |].
    + rewrite !L1 by (unfold s_first_data_block, s_free_blocks_count, s_blocks_count, s_blocks_per_group, s_inodes_per_group; lia); done.
    + intros g' Hg'; rewrite !L3 by done; by apply (fi_table _ _ I).
    + intros g' Hg'; rewrite L4, Cg by done; destruct (Z.eqb_spec g' g) as [->|]; [|by apply (fi_count _ _ I)].
      rewrite Cg, Z.eqb_refl in Bc by done; by rewrite u16_small by lia.
    + rewrite L2, Ct; by rewrite u32_small by lia.
Qed.

(** The bitmap with a changed bit is written to the disk, and the counters are
    updated; the order of the two updates does not matter. *)
Lemma flip_bitmap (s s1 : fs_state D) g i v buf :
  fs_inv L s -> 0 <= g < groups L -> 0 <= i < limit L g ->
  unchanged s s1 -> (next s <= buf < next s1)%nat ->
  (forall k, 0 <= k < 8 * BLOCK_SIZE ->
     BITFIELD_GET_BIT (heap s1 buf) k = if i =? k then v else BITFIELD_GET_BIT (bitmap_of L s g) k) ->
  exists s2, write_bytes drv kmalloc (l_bitmap L g) BLOCK_SIZE (buf, 0) (device meta) 0 s1 = Ok (0, s2) /\
    heap s2 = heap s1 /\
    (forall d s3, disk s3 = disk s2 -> vnodes s3 = vnodes s2 -> next s3 = next s2 ->
     (forall c, c <> super -> c <> table -> heap s3 c = heap s2 c) ->
     (forall x, heap s3 table x =
        store16 (heap s2 table) (g * sizeof_bgd + bg_free_blocks_count) (u16 (free_count L s g + d)) x) ->
     (forall x, heap s3 super x = store32 (heap s2 super) s_free_blocks_count (u32 (free_total L s + d)) x) ->
     flipped s s3 g i v d).
Proof.
  intros I Hg Hi U Hbuf Hbits.
  pose proof (lo_bitmap_range _ Lo g Hg) as Hb; pose proof (lo_first _ Lo); pose proof (lo_groups _ Lo).
  assert (0 <= table_end L) by (unfold table_end, sizeof_bgd, BLOCK_SIZE; Z.div_mod_to_equations; lia).
  rewrite meta_dev; destruct (write_bytes_spec drv ops dev registered kmalloc enough s1 (l_bitmap L g) BLOCK_SIZE (buf, 0) 0)
    as (s2 & E2 & R2 & S2 & V2 & N2 & P2 & M2); rewrite ?(un_disk _ _ U); [apply I|done|done|lia|rewrite (fi_size _ _ I); unfold BLOCK_SIZE; lia|].
  rewrite (un_disk _ _ U) in *; cbn [fst snd] in M2.
  exists s2; split; [exact E2|]; split; [done|]; intros d s3 D3 V3 N3 H3 T3 P3; destruct U as [U1 U2 U3 U4].
  destruct (fi_bufs _ _ I); split.
  - by rewrite D3.
  - rewrite D3, S2; apply I.
  - congruence.
  - lia.
  - intros k Hk; rewrite <- Hbits by done; apply get_bit_ext; unfold bitmap_of; rewrite D3, M2, blit_in; [f_equal; lia|].
    unfold BLOCK_SIZE in *; Z.div_mod_to_equations; lia.
  - intros b Hb' o Ho; rewrite D3, M2, blit_out; [done|unfold BLOCK_SIZE in *; lia].
  - intros x; rewrite T3, P2; unfold store16, store8; by rewrite U4.
  - intros x; rewrite P3, P2; unfold store32, store8; by rewrite U4.
  - intros c Hc Hc1 Hc2 x; rewrite H3, P2 by done; by apply U4.
Qed.

Lemma fs_inv_ext (s s' : fs_state D) :
  disk s' = disk s -> (next s <= next s')%nat -> (forall x, heap s' super x = heap s super x) ->
  (forall x, heap s' table x = heap s table x) -> fs_inv L s -> fs_inv L s'.
Proof.
  intros Ed En Hs Ht [I1 I2 [I3 I3'] I4 I5 I6 I7 I8 I9].
  assert (forall o, load32 (heap s' super) o = load32 (heap s super) o) as Ls by (intros; by apply load32_ext).
  split; rewrite ?Ed, ?Ls; auto.
  - lia.
  - intros g Hg; rewrite !(load32_ext (heap s table) (heap s' table)) by (intros; apply Ht); auto.
  - intros g Hg; rewrite (load16_ext (heap s table)) by (intros; apply Ht).
    unfold free_count, clear_bits, bitmap_of; rewrite Ed; by apply I7.
  - rewrite I8; unfold free_total, free_count, clear_bits, bitmap_of; by rewrite Ed.
  - unfold is_free, clear_bits, bitmap_of in *; by rewrite Ed.
Qed.

Lemma is_free_block (s : fs_state D) g i :
  fs_inv L s -> 0 <= g < groups L -> i ∈ clear_bits L s g ->
  0 < block_of L g i < l_blocks L /\ u32 (i + l_bitmap L g - bgdt_blocks meta - 1) = block_of L g i.
Proof.
  intros I Hg Hi; destruct (fi_free _ _ I (block_of L g i)) as [Hb _]; [by exists g, i|]; split; [done|].
  pose proof (lo_blocks _ Lo); rewrite (lo_bitmap _ Lo g Hg); unfold block_of in *; rewrite u32_small; lia.
Qed.

(** The map after a bit was set, or cleared. *)
Lemma map_flip (s s2 : fs_state D) g i v :
  0 <= g < groups L -> 0 <= i < limit L g ->
  (forall g' k, 0 <= g' < groups L -> 0 <= k < 8 * BLOCK_SIZE -> BITFIELD_GET_BIT (bitmap_of L s2 g') k =
     if (g' =? g) && (i =? k) then v else BITFIELD_GET_BIT (bitmap_of L s g') k) ->
  forall x, is_free L s2 x <-> if decide (x = block_of L g i) then v = 0 else is_free L s x.
Proof.
  intros Hg Hi B x; pose proof (lo_per_group _ Lo); unfold is_free.
  assert (Hk : forall g' k, 0 <= g' < groups L -> 0 <= k < limit L g' -> 0 <= k < l_per_group L)
    by (intros g' k _ Hk'; pose proof (limit_bound L g' Lo); lia).
  assert (B' : forall g' k, 0 <= g' < groups L -> 0 <= k < limit L g' -> BITFIELD_GET_BIT (bitmap_of L s2 g') k =
    if (g' =? g) && (i =? k) then v else BITFIELD_GET_BIT (bitmap_of L s g') k).
  { intros g' k Hg' Hk'; apply B; [done|]; specialize (Hk g' k Hg' Hk'); lia. }
  destruct (decide (x = block_of L g i)) as [->|Hne];
    setoid_rewrite (elem_of_clear L s2); [|setoid_rewrite (elem_of_clear L s)]; split.
  - intros (g' & k & Hg' & (Hb & Hk') & E); apply block_of_inj in E as [<- <-]; eauto.
    by rewrite B', !Z.eqb_refl in Hb by done.
  - intros ->; exists g, i; split; [done|]; split; [split; [|done]|done]; by rewrite B', !Z.eqb_refl by done.
  - intros (g' & k & Hg' & (Hb & Hk') & E); exists g', k; split; [done|]; split; [split; [|done]|done].
    rewrite B' in Hb by done; destruct (Z.eqb_spec g' g), (Z.eqb_spec i k); cbn in Hb; auto; by subst.
  - intros (g' & k & Hg' & (Hb & Hk') & E); exists g', k; split; [done|]; split; [split; [|done]|done].
    rewrite B' by done; destruct (Z.eqb_spec g' g), (Z.eqb_spec i k); cbn; auto; by subst.
Qed.

(** The part of [allocate_block_in_group] after a clear bit was found. *)
Lemma allocate_commit (s s1 : fs_state D) g i buf errno :
  fs_inv L s -> 0 <= g < groups L -> i ∈ clear_bits L s g -> unchanged s s1 -> (next s <= buf < next s1)%nat ->
  (forall k, 0 <= k < 8 * BLOCK_SIZE -> BITFIELD_GET_BIT (heap s1 buf) k = BITFIELD_GET_BIT (bitmap_of L s g) k) ->
  exists s', (set_buf buf (BITFIELD_SET_BIT (heap s1 buf) i) ;;
      (if block_of L g i =? 0 then mret (0, errno)
       else
         rc ← write_bytes drv kmalloc (l_bitmap L g) BLOCK_SIZE (buf, 0) (device meta) 0;
         if negb (rc =? 0) then mret (0, rc)
         else
           st16 (table, g * sizeof_bgd + bg_free_blocks_count) (u16 (free_count L s g - 1)) ;;
           total ← ld32 (super, s_free_blocks_count);
           st32 (super, s_free_blocks_count) (u32 (total - 1)) ;;
           rc ← put_meta drv kmalloc meta;
           mret (if negb (rc =? 0) then (0, EIO) else (block_of L g i, errno)))) s1 =
    Ok (block_of L g i, errno, s') /\ takes L s s' (block_of L g i).
Proof.
  intros I Hg Hcl U Hbuf Hbits; destruct (is_free_block s g i I Hg Hcl) as [Hb _].
  destruct (fi_bufs _ _ I) as [Hs Ht]; pose proof (fi_apart _ _ I) as Hst.
  pose proof Hcl as [Hz Hi]%elem_of_clear; pose proof (limit_bound L g Lo) as Hl; pose proof (lo_per_group _ Lo).
  set (s2 := mk_fs (disk s1) (<[buf := BITFIELD_SET_BIT (heap s1 buf) i]> (heap s1)) (next s1) (vnodes s1)).
  assert (U2 : unchanged s s2).
  { destruct U; split; auto; intros b Hb' x; cbn; rewrite fn_lookup_insert_ne by lia; auto. }
  erewrite bind_ok by reflexivity; fold s2; rewrite (proj2 (Z.eqb_neq (block_of L g i) 0)) by lia.
  destruct (flip_bitmap s s2 g i 1 buf) as (s3 & E3 & H3 & F3); auto.
  { intros k Hk; cbn; rewrite fn_lookup_insert, set_bit_ok, Hbits by lia; done. }
  rewrite (bind_ok _ _ _ _ _ E3); cbn [Z.eqb negb].
  erewrite !bind_ok by reflexivity; cbn [fst snd disk heap next vnodes].
  rewrite fn_lookup_insert_ne by done.
  assert (Et : load32 (heap s3 super) s_free_blocks_count = free_total L s).
  { rewrite H3, (load32_ext (heap s super)), (fi_total _ _ I) by (intros; by apply U2); done. }
  rewrite Et; set (s4 := mk_fs _ _ _ _).
  assert (F4 : flipped s s4 g i 1 (-1)).
  { apply F3; try done; cbn.
    - intros c Hc1 Hc2; by rewrite !fn_lookup_insert_ne.
    - intros x; rewrite fn_lookup_insert_ne, fn_lookup_insert by done; done.
    - intros x; by rewrite fn_lookup_insert. }
  destruct (commit s s4 g i 1 (-1)) as (s5 & E5 & V5 & N5 & C5 & M5 & B5 & T5 & I5); auto.
  rewrite (bind_ok _ _ _ _ _ E5); exists s5; split; [reflexivity|].
  pose proof (map_flip s s5 g i 1 Hg Hi B5) as Mp.
  assert (Hmap : forall x, is_free L s5 x <-> is_free L s x /\ x <> block_of L g i).
  { intros x; rewrite Mp; destruct (decide (x = _)); split; [done|tauto|tauto|tauto]. }
  split; auto; [|by exists g, i].
  apply I5; intros b Hb'; apply (fi_free _ _ I), Hmap, Hb'.
Qed.

Lemma allocate_in_group (s : fs_state D) g errno :
  fs_inv L s -> 0 <= g < groups L ->
  (free_count L s g = 0 /\ exists s', allocate_block_in_group drv kmalloc meta g errno s = Ok (0, errno, s') /\ unchanged s s') \/
  (exists b s', allocate_block_in_group drv kmalloc meta g errno s = Ok (b, errno, s') /\ takes L s s' b).
Proof.
  intros I Hg; unfold allocate_block_in_group.
  destruct (local_ok s) as (s1 & E1 & U1 & N1); rewrite (bind_ok _ _ _ _ _ E1).
  destruct (fi_bufs _ _ I) as [Hs Ht].
  assert (I1 : fs_inv L s1) by (apply (fs_inv_ext s); auto using un_disk, un_next; intros; by apply U1).
  assert (Ec : free_count L s1 g = free_count L s g) by (unfold free_count, clear_bits, bitmap_of; by rewrite (un_disk _ _ U1)).
  erewrite bind_ok by reflexivity; cbn [fst snd]; rewrite (fi_count _ _ I1 g Hg), Ec.
  destruct (Z.eqb_spec (free_count L s g) 0) as [E0|E0]; [left; split; [done|]; by exists s1|right].
  erewrite bind_ok by reflexivity; cbn [fst snd]; rewrite (proj1 (fi_table _ _ I1 g Hg)).
  destruct (load_bitmap s1 g (next s) I1 Hg) as (s2 & E2 & D2 & V2 & N2 & H2 & M2).
  rewrite (bind_ok _ _ _ _ _ E2); cbn [Z.eqb negb].
  assert (U2 : unchanged s s2).
  { destruct U1; split; [congruence|congruence|lia|]; intros b Hb x; rewrite H2 by lia; auto. }
  assert (I2 : fs_inv L s2) by (apply (fs_inv_ext s); auto using un_disk, un_next; intros; by apply U2).
  erewrite !bind_ok by reflexivity; cbn [fst snd]; destruct (fi_super _ _ I2) as (_ & -> & -> & _).
  change (if (_ =? _) && _ then _ else _) with (limit L g).
  pose proof (limit_bound L g Lo) as Hl; pose proof (lo_per_group _ Lo) as Hpg.
  assert (M2' : forall k, 0 <= k < 8 * BLOCK_SIZE -> BITFIELD_GET_BIT (heap s2 (next s)) k = BITFIELD_GET_BIT (bitmap_of L s g) k).
  { intros k Hk; rewrite (get_bit_bitmap _ s1 g) by done; unfold bitmap_of; by rewrite (un_disk _ _ U1). }
  pose proof (find_clear_spec (heap s2 (next s)) (limit L g)) as Hfc; destruct (find_clear _ _) as [i|].
  2:{ destruct E0; unfold free_count; destruct (clear_bits L s g) as [|i l] eqn:Ecl; [done|].
      assert (i ∈ clear_bits L s g) as [Hz Hi]%elem_of_clear by (rewrite Ecl; by left).
      destruct (Hfc i Hi); by rewrite M2' by lia. }
  destruct Hfc as [Hi Hz]; rewrite M2' in Hz by lia.
  assert (Hcl : i ∈ clear_bits L s g) by (by apply elem_of_clear).
  destruct (is_free_block s g i I Hg Hcl) as [_ ->].
  destruct (allocate_commit s s2 g i (next s) errno) as (s' & E' & T'); auto; [lia|]; eauto.
Qed.

Lemma free_ext (s s' : fs_state D) :
  disk s' = disk s -> clear_bits L s' = clear_bits L s /\ free_total L s' = free_total L s /\
  (forall b, is_free L s' b <-> is_free L s b).
Proof.
  intros E; assert (Ec : clear_bits L s' = clear_bits L s) by (unfold clear_bits, bitmap_of; by rewrite E).
  split; [done|]; unfold free_total, free_count, is_free; by rewrite Ec.
Qed.

(** Blocks that are not reserved may change freely. *)
Lemma inv_blocks (s s' : fs_state D) :
  fs_inv L s -> ready (disk s') -> BlockDevProofs.size (disk s') = BlockDevProofs.size (disk s) ->
  (next s <= next s')%nat -> heap s' = heap s ->
  (forall b, reserved L b -> same_block (image (disk s)) (image (disk s')) b) ->
  fs_inv L s' /\ (forall x, is_free L s' x <-> is_free L s x) /\ free_total L s' = free_total L s.
Proof.
  intros I Hr Hs Hn Hh Hi.
  assert (Ec : forall g, 0 <= g < groups L -> clear_bits L s' g = clear_bits L s g).
  { intros g Hg; apply filter_same; intros k Hk%elem_of_seqZ.
    assert (BITFIELD_GET_BIT (bitmap_of L s' g) k = BITFIELD_GET_BIT (bitmap_of L s g) k) as ->; [|done].
    apply get_bit_ext; unfold bitmap_of; apply Hi; [right; right; by exists g|].
    pose proof (limit_bound L g Lo); pose proof (lo_per_group _ Lo); unfold BLOCK_SIZE in *; Z.div_mod_to_equations; lia. }
  assert (Hf : forall x, is_free L s' x <-> is_free L s x).
  { intros x; split; (intros (g & i & Hg & Hci & E); exists g, i; split; [done|]; split; [|done]); [by rewrite <- Ec|by rewrite Ec]. }
  assert (Ht : free_total L s' = free_total L s).
  { unfold free_total; f_equal; apply list_fmap_ext; intros i g Hg%list_elem_of_lookup_2%elem_of_seqZ.
    unfold free_count; by rewrite Ec by lia. }
  split; [|done]; destruct I as [I1 I2 [I3 I3'] I4 I5 I6 I7 I8 I9]; split; rewrite ?Hh; auto.
  - congruence.
  - lia.
  - intros g Hg; rewrite I7 by done; unfold free_count; by rewrite Ec.
  - by rewrite Ht.
  - intros b Hb; apply I9; by apply Hf.
Qed.

Lemma takes_after (s s1 s2 : fs_state D) b : unchanged s s1 -> takes L s1 s2 b -> takes L s s2 b.
Proof.
  intros [U1 U2 U3 U4] [T1 T2 T3 T4 T5 T6 T7 T8]; destruct (free_ext s s1 U1) as (_ & Ht & Hf).
  split; auto; [by apply Hf|intros x; rewrite T3, Hf; done|lia|congruence|lia| |by rewrite U1 in T8].
  intros c Hc Hc1 Hc2 x; rewrite T7 by (auto; lia); auto.
Qed.

Lemma unchanged_inv (s s' : fs_state D) : fs_inv L s -> unchanged s s' -> fs_inv L s'.
Proof. intros I U; destruct (fi_bufs _ _ I); apply (fs_inv_ext s); auto using un_disk, un_next; intros; by apply U. Qed.

Lemma allocate_scan n : forall (s : fs_state D) pref i errno,
  fs_inv L s -> 0 <= i -> i + Z.of_nat n = groups L ->
  ((forall g, i <= g < groups L -> g <> pref -> free_count L s g = 0) /\
   exists s', allocate_block_scan drv kmalloc meta pref i n errno s = Ok (0, errno, s') /\ unchanged s s') \/
  (exists b s', allocate_block_scan drv kmalloc meta pref i n errno s = Ok (b, errno, s') /\ takes L s s' b).
Proof.
  induction n as [|n IH]; intros s pref i errno I Hi Hn; cbn [allocate_block_scan].
  { left; split; [intros; lia|]; exists s; split; [done|apply unchanged_refl]. }
  destruct (Z.eqb_spec i pref) as [->|Hne].
  { destruct (IH s pref (pref + 1) errno) as [[H0 H1]|H1]; auto; try lia; left; split; [|done].
    intros g Hg Hgp; apply H0; [lia|done]. }
  destruct (allocate_in_group s i errno I ltac:(lia)) as [(H0 & s1 & E1 & U1)|(b & s1 & E1 & T1)].
  - rewrite (bind_ok _ _ _ _ _ E1); cbn [Z.eqb negb].
    assert (Ec : forall g, free_count L s1 g = free_count L s g).
    { intros g; unfold free_count; destruct (free_ext s s1 (un_disk _ _ U1)) as [-> _]; done. }
    destruct (IH s1 pref (i + 1) errno (unchanged_inv s s1 I U1)) as [(H2 & s2 & E2 & U2)|(b & s2 & E2 & T2)]; try lia.
    + left; split; [|exists s2; split; [done|by eapply unchanged_trans]].
      intros g Hg Hgp; destruct (decide (g = i)) as [->|]; [done|]; rewrite <- Ec; apply H2; [lia|done].
    + right; exists b, s2; split; [done|by eapply takes_after].
  - right; exists b, s1; split; [|done]; rewrite (bind_ok _ _ _ _ _ E1).
    pose proof (fi_free _ _ I b (tk_free _ _ _ _ T1)); by rewrite (proj2 (Z.eqb_neq b 0)) by lia.
Qed.

Lemma no_free_total (s : fs_state D) : (forall g, 0 <= g < groups L -> free_count L s g = 0) -> free_total L s = 0.
Proof.
  intros H; unfold free_total.
  assert (free_count L s <$> seqZ 0 (groups L) = (fun _ => 0) <$> seqZ 0 (groups L)) as ->.
  { apply list_fmap_ext; intros i g Hg%list_elem_of_lookup_2%elem_of_seqZ; apply H; lia. }
  by induction (seqZ 0 (groups L)).
Qed.

Lemma allocate_ok (s : fs_state D) pref errno :
  fs_inv L s -> 0 <= pref < groups L ->
  (free_total L s = 0 /\ exists s', allocate_block drv kmalloc meta pref errno s = Ok (0, errno, s') /\ unchanged s s') \/
  (exists b s', allocate_block drv kmalloc meta pref errno s = Ok (b, errno, s') /\ takes L s s' b).
Proof.
  intros I Hp; unfold allocate_block; fold (groups L); rewrite (proj2 (Z.leb_gt _ _)) by lia.
  erewrite bind_ok by reflexivity; cbn [fst snd]; rewrite (fi_total _ _ I).
  destruct (Z.eqb_spec (free_total L s) 0) as [E0|E0]; [left; split; [done|]; exists s; split; [done|apply unchanged_refl]|].
  destruct (allocate_in_group s pref errno I Hp) as [(H0 & s1 & E1 & U1)|(b & s1 & E1 & T1)]; rewrite (bind_ok _ _ _ _ _ E1).
  - cbn [Z.eqb]; pose proof (lo_groups _ Lo); destruct (free_ext s s1 (un_disk _ _ U1)) as (Ec & Et & _).
    destruct (allocate_scan (Z.to_nat (groups L)) s1 pref 0 errno (unchanged_inv s s1 I U1))
      as [(H2 & s2 & E2 & U2)|(b & s2 & E2 & T2)]; try lia.
    + destruct E0; rewrite <- Et; apply no_free_total; intros g Hg.
      destruct (decide (g = pref)) as [->|]; [|apply H2; [lia|done]]; by unfold free_count; rewrite Ec.
    + right; exists b, s2; split; [done|by eapply takes_after].
  - pose proof (fi_free _ _ I b (tk_free _ _ _ _ T1)); rewrite (proj2 (Z.eqb_neq b 0)) by lia; eauto.
Qed.

(** The group and the bit of a block. *)
Lemma block_index g i :
  0 <= g < groups L -> 0 <= i < l_per_group L -> block_of L g i < l_blocks L ->
  u32 (block_of L g i - 1) / l_per_group L = g /\ u32 (block_of L g i - 1) mod l_per_group L = i.
Proof.
  intros Hg Hi Hb; pose proof (lo_blocks _ Lo); unfold block_of in *.
  replace (g * l_per_group L + 1 + i - 1) with (g * l_per_group L + i) by lia; rewrite u32_small by nia.
  split; [symmetry; apply (Z.div_unique _ _ _ i); lia|symmetry; apply (Z.mod_unique _ _ g); lia].
Qed.

(** Up to the test whether the block is in use. *)
Lemma deallocate_start (s : fs_state D) g i :
  fs_inv L s -> 0 <= g < groups L -> 0 <= i < limit L g -> block_of L g i < l_blocks L ->
  exists s2, unchanged s s2 /\ (next s < next s2)%nat /\
    (forall k, 0 <= k < 8 * BLOCK_SIZE -> BITFIELD_GET_BIT (heap s2 (next s)) k = BITFIELD_GET_BIT (bitmap_of L s g) k) /\
    deallocate_block drv kmalloc meta (block_of L g i) s =
      (m ← get_buf (next s);
       if BITFIELD_GET_BIT m i =? 0 then panic
       else
         set_buf (next s) (BITFIELD_CLEAR_BIT m i) ;;
         rc ← write_bytes drv kmalloc (l_bitmap L g) BLOCK_SIZE (next s, 0) (device meta) 0;
         if negb (rc =? 0) then panic
         else
           total ← ld32 (super, s_free_blocks_count);
           st32 (super, s_free_blocks_count) (u32 (total + 1)) ;;
           free ← ld16 (table, g * sizeof_bgd + bg_free_blocks_count);
           st16 (table, g * sizeof_bgd + bg_free_blocks_count) (u16 (free + 1)) ;;
           rc ← put_meta drv kmalloc meta;
           if negb (rc =? 0) then panic else mret 0) s2.
Proof.
  intros I Hg Hi Hb; unfold deallocate_block; pose proof (limit_bound L g Lo).
  destruct (local_ok s) as (s1 & E1 & U1 & N1); rewrite (bind_ok _ _ _ _ _ E1).
  assert (I1 : fs_inv L s1) by (by eapply unchanged_inv).
  erewrite bind_ok by reflexivity; cbn [fst snd]; destruct (fi_super _ _ I1) as (_ & _ & -> & _).
  destruct (block_index g i Hg ltac:(lia) Hb) as [-> ->].
  fold (groups L); rewrite (proj2 (Z.leb_gt _ _)) by lia.
  erewrite bind_ok by reflexivity; cbn [fst snd]; rewrite (proj1 (fi_table _ _ I1 g Hg)).
  destruct (load_bitmap s1 g (next s) I1 Hg) as (s2 & E2 & D2 & V2 & N2 & H2 & M2).
  rewrite (bind_ok _ _ _ _ _ E2); cbn [Z.eqb negb]; exists s2; split; [|split; [lia|split; [|done]]].
  - destruct U1; split; [congruence|congruence|lia|]; intros b Hb' x; rewrite H2 by lia; auto.
  - intros k Hk; rewrite (get_bit_bitmap _ s1 g) by done; unfold bitmap_of; by rewrite (un_disk _ _ U1).
Qed.

(** A block that is free already stops the kernel. *)
Lemma deallocate_free (s : fs_state D) b : fs_inv L s -> is_free L s b -> deallocate_block drv kmalloc meta b s = Panic.
Proof.
  intros I (g & i & Hg & [Hz Hi]%elem_of_clear & ->); pose proof (limit_bound L g Lo); pose proof (lo_per_group _ Lo).
  destruct (fi_free _ _ I (block_of L g i)) as [Hb _]; [exists g, i; by rewrite elem_of_clear|].
  destruct (deallocate_start s g i I Hg Hi ltac:(lia)) as (s2 & _ & _ & Hbits & ->).
  erewrite bind_ok by reflexivity; by rewrite Hbits, Hz by lia.
Qed.

Lemma deallocate_ok (s : fs_state D) g i :
  fs_inv L s -> 0 <= g < groups L -> 0 <= i < limit L g -> ~ is_free L s (block_of L g i) ->
  0 < block_of L g i < l_blocks L -> ~ reserved L (block_of L g i) ->
  exists s', deallocate_block drv kmalloc meta (block_of L g i) s = Ok (0, s') /\ gives L s s' (block_of L g i).
Proof.
  intros I Hg Hi Hused Hb Hnr; pose proof (limit_bound L g Lo); pose proof (lo_per_group _ Lo).
  destruct (fi_bufs _ _ I) as [Hs Ht]; pose proof (fi_apart _ _ I) as Hst.
  destruct (deallocate_start s g i I Hg Hi ltac:(lia)) as (s2 & U2 & N2 & Hbits & ->).
  assert (Hone : BITFIELD_GET_BIT (bitmap_of L s g) i = 1).
  { destruct (decide (BITFIELD_GET_BIT (bitmap_of L s g) i = 0)) as [E|E].
    - destruct Hused; exists g, i; split; [done|]; by rewrite elem_of_clear.
    - revert E; rewrite get_bit_spec by lia; by destruct (Z.testbit _ _). }
  erewrite bind_ok by reflexivity; rewrite Hbits, Hone by lia; cbn [Z.eqb].
  erewrite bind_ok by reflexivity; set (s3 := mk_fs _ _ _ _).
  destruct (flip_bitmap s s3 g i 0 (next s)) as (s4 & E4 & H4 & F4); auto; [ | |].
  { destruct U2; split; auto; intros b Hb' x; cbn; rewrite fn_lookup_insert_ne by lia; auto. }
  { intros k Hk; cbn; rewrite fn_lookup_insert, clear_bit_ok, Hbits by lia; done. }
  rewrite (bind_ok _ _ _ _ _ E4); cbn [Z.eqb negb].
  erewrite !bind_ok by reflexivity; cbn [fst snd disk heap next vnodes]; rewrite fn_lookup_insert_ne by congruence.
  assert (Et : load32 (heap s4 super) s_free_blocks_count = free_total L s).
  { rewrite H4, (load32_ext (heap s super)), (fi_total _ _ I); [done|]; intros; cbn; rewrite fn_lookup_insert_ne by lia; by apply U2. }
  assert (Ec : load16 (heap s4 table) (g * sizeof_bgd + bg_free_blocks_count) = free_count L s g).
  { rewrite H4, (load16_ext (heap s table)); [by apply (fi_count _ _ I)|].
    intros; cbn; rewrite fn_lookup_insert_ne by lia; by apply U2. }
  rewrite Et, Ec; set (s5 := mk_fs _ _ _ _).
  assert (F5 : flipped s s5 g i 0 1).
  { apply F4; try done; cbn.
    - intros c Hc1 Hc2; by rewrite !fn_lookup_insert_ne.
    - intros x; by rewrite fn_lookup_insert.
    - intros x; rewrite fn_lookup_insert_ne by congruence; by rewrite fn_lookup_insert. }
  destruct (commit s s5 g i 0 1) as (s6 & E6 & V6 & N6 & C6 & M6 & B6 & T6 & I6); auto.
  rewrite (bind_ok _ _ _ _ _ E6); exists s6; split; [reflexivity|].
  assert (Hmap : forall x, is_free L s6 x <-> is_free L s x \/ x = block_of L g i).
  { intros x; rewrite (map_flip s s6 g i 0 Hg Hi B6); destruct (decide (x = _)); split; tauto. }
  split; auto; apply I6; intros b [Hf| ->]%Hmap; [by apply (fi_free _ _ I)|done].
Qed.

End Operations.

(** ** Properties *)

(** C10. Allocation of blocks.  As long as the counters agree with the bitmaps,
    [allocate_block] returns 0, and changes nothing, only if no block is free;
    otherwise it returns a block that was marked as free, marks it as used, and
    changes no other bit and no other block but the reserved ones; the counters
    agree with the bitmaps again.  Releasing the block gives the map as it was, and
    releasing a block that is free stops the kernel. *)
Theorem block_allocation_correct (L : layout) {D : Type} (drv : drivers D) (ops : blk_dev_ops_t D) (dev : Z)
    `{!BlockDevice ops (MINOR dev)} kmalloc (s : fs_state D) pref errno :
  layout_ok L -> drv (MAJOR dev) = DRIVER_BLK ops -> device (l_meta L) = dev -> (forall n, is_Some (kmalloc n)) ->
  fs_inv L s -> 0 <= pref < groups L ->
  (forall b, is_free L s b -> deallocate_block drv kmalloc (l_meta L) b s = Panic) /\
  ((free_total L s = 0 /\
    exists s', allocate_block drv kmalloc (l_meta L) pref errno s = Ok (0, errno, s') /\ unchanged s s') \/
   (exists b s', allocate_block drv kmalloc (l_meta L) pref errno s = Ok (b, errno, s') /\ takes L s s' b /\
    exists s'', deallocate_block drv kmalloc (l_meta L) b s' = Ok (0, s'') /\ fs_inv L s'' /\
      (forall x, is_free L s'' x <-> is_free L s x) /\ free_total L s'' = free_total L s)).
Proof.
  intros Lo Hd Hm Hk I Hp; split; [intros b Hb; by eapply deallocate_free|].
  destruct (allocate_ok L Lo drv ops dev Hd Hm kmalloc Hk s pref errno I Hp) as [?|(b & s' & E & T)]; [by left|right].
  exists b, s'; split; [done|]; split; [done|].
  pose proof (tk_free _ _ _ _ T) as Hf; destruct (fi_free _ _ I b Hf) as [Hb Hr].
  destruct Hf as (g & i & Hg & [Hz Hi]%elem_of_clear & ->).
  destruct (deallocate_ok L Lo drv ops dev Hd Hm kmalloc Hk s' g i (tk_inv _ _ _ _ T) Hg Hi) as (s'' & E' & G); auto.
  { rewrite (tk_map _ _ _ _ T); tauto. }
  exists s''; split; [done|]; split; [apply G|]; split; [|rewrite (gv_total _ _ _ _ G), (tk_total _ _ _ _ T); lia].
  intros x; rewrite (gv_map _ _ _ _ G), (tk_map _ _ _ _ T); destruct (decide (x = block_of L g i)) as [->|]; [|tauto].
  split; [intros _; exists g, i; by rewrite elem_of_clear|by right].
Qed.

(** A file system of 16 blocks: superblock, table, block bitmap, inode bitmap and
    inode table in the blocks 1 to 5, and a file in block 6. *)
Definition small_layout : layout := mk_layout (mk_meta 0 1 256 1 1) 16 1 16 8192 (fun _ => 3) 8 (fun _ => 5).
Definition small_super : mem :=
  store32 (store32 (store32 (store32 (store32 (fun _ => 0) s_blocks_count 16) s_free_blocks_count 9) s_first_data_block 1)
    s_blocks_per_group 8192) s_inodes_per_group 8.
Definition small_table : mem :=
  store16 (store32 (store32 (fun _ => 0) bg_block_bitmap 3) bg_inode_table 5) bg_free_blocks_count 9.
Definition small_inode : mem := store32 (store32 (fun _ => 0) i_size 1000) direct 6.
Definition small_disk : ramdisk :=
  mk_ramdisk 1 8192 24575 (fun x => if x =? 8192 + 3072 then 63 else if x =? 8192 + 3073 then 128 else x / 1024).
Definition small_drivers : drivers ramdisk := snd (ramdisk_init small_disk (fun _ => DRIVER_NONE) 1 8192 24575).
Definition small_fs : fs_state ramdisk :=
  mk_fs small_disk
    (fun b => match b with O => small_super | S O => small_table | S (S O) => small_inode | _ => fun x => x mod 7 end)
    4 (fun _ => mk_inode 1000 1 256 0 0 0 2 1 0 0).

Lemma small_layout_ok : layout_ok small_layout.
Proof. split; intros; try (vm_compute; intuition congruence); unfold groups in *; cbn in *; change (table_end small_layout) with 2; nia. Qed.

Definition small_state_ok (s : fs_state ramdisk) : Prop :=
  ready (ops := ramdisk_ops) (minor := MINOR 256) (disk s) /\
  BlockDevProofs.size (ops := ramdisk_ops) (minor := MINOR 256) (disk s) = 16 /\ (2 <= next s)%nat /\
  heap s 0%nat = small_super /\ heap s 1%nat = small_table /\
  clear_bits small_layout (D := ramdisk) (ops := ramdisk_ops) (minor := MINOR 256) s 0 = [6; 7; 8; 9; 10; 11; 12; 13; 14].

Lemma small_state_free s b :
  small_state_ok s -> is_free small_layout (D := ramdisk) (ops := ramdisk_ops) (minor := MINOR 256) s b -> 7 <= b <= 15.
Proof.
  intros (_ & _ & _ & _ & _ & Hc) (g & i & Hg & Hi & ->); assert (g = 0) as -> by (unfold groups in Hg; cbn in Hg; lia).
  rewrite Hc in Hi; assert (6 <= i <= 14) by (repeat (apply elem_of_cons in Hi as [->|Hi]; [lia|]); by apply elem_of_nil in Hi).
  unfold block_of; cbn; lia.
Qed.

Lemma small_reserved b : reserved small_layout b -> 1 <= b <= 3.
Proof. unfold reserved; change (table_end small_layout) with 2; cbn; intros [?|[?|(g & _ & ?)]]; lia. Qed.

Lemma small_state_total s :
  small_state_ok s -> free_total small_layout (D := ramdisk) (ops := ramdisk_ops) (minor := MINOR 256) s = 9.
Proof. intros (_ & _ & _ & _ & _ & Hc); unfold free_total; change (seqZ 0 _) with [0]; cbn [fmap list_fmap foldr]; unfold free_count; by rewrite Hc. Qed.

Lemma small_state_inv s :
  small_state_ok s -> fs_inv small_layout (D := ramdisk) (ops := ramdisk_ops) (minor := MINOR 256) s.
Proof.
  intros H; pose proof (small_state_total s H) as Ht; pose proof (fun b => small_state_free s b H) as Hf.
  destruct H as (H1 & H2 & H3 & H4 & H5 & H6).
  assert (Hg : forall g, 0 <= g < groups small_layout -> g = 0) by (intros g; unfold groups; cbn; lia).
  split; auto; change (ext2_super (l_meta small_layout)) with 0%nat; change (bgdt (l_meta small_layout)) with 1%nat; rewrite ?H4, ?H5, ?Ht.
  - lia.
  - by vm_compute.
  - intros g ->%Hg; by vm_compute.
  - intros g ->%Hg; unfold free_count; by rewrite H6.
  - by vm_compute.
  - intros b Hb; specialize (Hf b Hb); cbn [l_blocks small_layout]; split; [lia|]; intros ?%small_reserved; lia.
Qed.

Lemma small_fs_ok : small_state_ok small_fs.
Proof. split_and!; try done; cbn; lia. Qed.

Lemma small_fs_inv : fs_inv small_layout (D := ramdisk) (ops := ramdisk_ops) (minor := MINOR 256) small_fs.
Proof. exact (small_state_inv small_fs small_fs_ok). Qed.

Lemma block_allocation_correct_witness :
  exists b s', allocate_block small_drivers (fun _ => Some (fun _ => 0)) (mk_meta 0 1 256 1 1) 0 0 small_fs = Ok (b, 0, s') /\ b = 7 /\
    exists s'', deallocate_block small_drivers (fun _ => Some (fun _ => 0)) (mk_meta 0 1 256 1 1) b s' = Ok (0, s'').
Proof.
  destruct (block_allocation_correct small_layout small_drivers ramdisk_ops 256 (fun _ => Some (fun _ => 0)) small_fs 0 0)
    as [_ [[H _]|(b & s' & E & _ & s'' & E' & _)]].
  - exact small_layout_ok.
  - reflexivity.
  - reflexivity.
  - done.
  - exact small_fs_inv.
  - by vm_compute.
  - by vm_compute in H.
  - exists b, s'; split; [exact E|]; split; [|exists s''; exact E'].
    assert (match allocate_block small_drivers (fun _ => Some (fun _ => 0)) (l_meta small_layout) 0 0 small_fs with
            | Ok (b, _, _) => b = 7 | _ => True end) as H by (by vm_compute).
    by rewrite E in H.
Defined.
