(* ===== verification/Ext2Tree.v ===== *)
(** * EXT2: trees of blocks that do not overlap

    The blocks a tree consists of, when a tree is well formed, and which changes of
    the disk leave it alone. *)

From S2P Require Import Prelude Memory BlockDev Ext2 Ext2Read Ext2Alloc.
Import BlockDev.

Definition entry (im : mem) (b j : Z) : Z := load32 im (b * BLOCK_SIZE + 4 * j).

(** Block [x] belongs to the tree of depth [d] below the entry [b]. *)
Fixpoint reach (im : mem) (d : nat) (b x : Z) : Prop :=
  b <> 0 /\ (x = b \/ match d with O => False | S d => exists j, 0 <= j < 256 /\ reach im d (entry im b j) x end).

(** The blocks are [good], and no block occurs twice. *)
Fixpoint tree_ok (good : Z -> Prop) (im : mem) (d : nat) (b : Z) : Prop :=
  b = 0 \/
  good b /\
  match d with
  | O => True
  | S d =>
      (forall j, 0 <= j < 256 -> tree_ok good im d (entry im b j) /\ ~ reach im d (entry im b j) b) /\
      (forall j k x, 0 <= j < 256 -> 0 <= k < 256 -> j <> k ->
         reach im d (entry im b j) x -> ~ reach im d (entry im b k) x)
  end.

Lemma reach_hole im d x : ~ reach im d 0 x.
Proof. destruct d; intros [? _]; done. Qed.

Lemma reach_root im d b : b <> 0 -> reach im d b b.
Proof. destruct d; split; auto. Qed.

Lemma reach_entry im d b j x : b <> 0 -> 0 <= j < 256 -> reach im d (entry im b j) x -> reach im (S d) b x.
Proof. intros Hb Hj Hx; split; [done|right]; eauto. Qed.

Lemma tree_ok_hole good im d : tree_ok good im d 0.
Proof. destruct d; by left. Qed.

Lemma tree_ok_reach good im d b x : tree_ok good im d b -> reach im d b x -> good x.
Proof.
  revert b; induction d as [|d IH]; intros b; cbn; intros [->|[Hg Ho]] [Hb Hx]; try done.
  - by destruct Hx as [->|[]].
  - destruct Hx as [->|(j & Hj & Hx)]; [done|]; destruct Ho as [Ho _]; destruct (Ho j Hj); eauto.
Qed.

Lemma tree_block_reach im d b i : 0 <= i < width d -> tree_block im d b i <> 0 -> reach im d b (tree_block im d b i).
Proof.
  revert b i; induction d as [|d IH]; intros b i Hi Hne; cbn in *; [auto|].
  destruct (Z.eqb_spec b 0) as [->|Hb]; [done|]; split; [done|right].
  rewrite width_S in Hi; pose proof (width_pos d); exists (i / width d); split.
  - split; [apply Z.div_pos; lia|apply Z.div_lt_upper_bound; lia].
  - apply IH; [apply Z.mod_pos_bound; lia|done].
Qed.

Lemma entry_same im im' b j : same_block im im' b -> 0 <= j < 256 -> entry im' b j = entry im b j.
Proof.
  intros H Hj; unfold entry, load32.
  rewrite <- !Z.add_assoc, !H by (unfold BLOCK_SIZE; lia); done.
Qed.

(** Trees depend on their own blocks only. *)
Lemma tree_frame im im' d b :
  (forall x, reach im d b x -> same_block im im' x) ->
  (forall x, reach im' d b x <-> reach im d b x) /\
  (forall i, 0 <= i < width d -> tree_block im' d b i = tree_block im d b i) /\
  (forall good good' : Z -> Prop, tree_ok good im d b -> (forall x, reach im d b x -> good x -> good' x) -> tree_ok good' im' d b).
Proof.
  revert b; induction d as [|d IH]; intros b H.
  { cbn; split_and!; auto; intros good good' Ho Hi; destruct (decide (b = 0)) as [->|Hb]; [by left|].
    destruct Ho as [?|[Hg _]]; [done|right]; auto. }
  destruct (decide (b = 0)) as [->|Hb].
  { split_and!; [intros x; split; by intros ?%reach_hole|intros; by rewrite !tree_block_hole|intros; apply tree_ok_hole]. }
  assert (He : forall j, 0 <= j < 256 -> entry im' b j = entry im b j)
    by (intros; apply entry_same; [apply H, reach_root|]; done).
  assert (Hj : forall j, 0 <= j < 256 -> forall x, reach im d (entry im b j) x -> same_block im im' x)
    by (intros j Hj x Hx; apply H; by eapply reach_entry).
  assert (Hr : forall j, 0 <= j < 256 -> forall x, reach im' d (entry im' b j) x <-> reach im d (entry im b j) x)
    by (intros j Hj0; rewrite He by done; by apply IH, Hj).
  split_and!.
  - intros x; split; (intros [_ [->|(j & Hj0 & Hx)]]; [by apply reach_root|eapply (reach_entry _ _ _ j); [done..|by apply Hr]]).
  - intros i Hi; rewrite width_S in Hi; pose proof (width_pos d); cbn [tree_block]; rewrite (proj2 (Z.eqb_neq b 0)) by done.
    fold (entry im' b (i / width d)) (entry im b (i / width d)).
    assert (0 <= i / width d < 256) by (split; [apply Z.div_pos; lia|apply Z.div_lt_upper_bound; lia]).
    rewrite He by done; apply IH; [by apply Hj|apply Z.mod_pos_bound; lia].
  - intros good good' Ho Hi; destruct Ho as [?|[Hg [Ho1 Ho2]]]; [done|right]; split; [apply Hi; [by apply reach_root|done]|].
    split.
    + intros j Hj0; destruct (Ho1 j Hj0) as [O1 O2]; rewrite Hr by done; split; [|done]; rewrite He by done.
      destruct (IH (entry im b j) (Hj j Hj0)) as (_ & _ & T); apply (T good); [done|].
      intros x Hx; apply Hi; by eapply reach_entry.
    + intros j k x Hj0 Hk Hne; rewrite !Hr by done; by apply Ho2.
Qed.
