(* ===== verification/Ext2Write.v ===== *)
(** * EXT2: writing

    A write walks the tree of a file, allocates the blocks that are missing and
    stores the data.  The proof follows the walk: every step changes the blocks of
    the part of the tree it visits, blocks that were free, and the metadata. *)

From S2P Require Import Prelude Errors Memory Lists BlockDev BlockDevProofs.
Import Lists BlockDev BlockDevProofs.
From S2P Require Import Ext2 Ext2Read Ext2Alloc Ext2Tree.

Section Write.
Context (L : layout) (Lo : layout_ok L).
Context {D : Type} (drv : drivers D) (ops : blk_dev_ops_t D) (dev : Z) `{!BlockDevice ops (MINOR dev)}.
Context (registered : drv (MAJOR dev) = DRIVER_BLK ops) (meta_dev : device (l_meta L) = dev).
Context (kmalloc : nat -> option mem) (enough : forall n, is_Some (kmalloc n)).

#[local] Abbreviation meta := (l_meta L).
#[local] Abbreviation super := (ext2_super (l_meta L)).
#[local] Abbreviation table := (bgdt (l_meta L)).
#[local] Abbreviation im s := (image (disk s)).

(** The request, the buffers of the inode and of the data, and the block of the
    inode table that holds the inode. *)
Context (r0 : blocklist_walk_t) (ino src : nat) (base ib : Z) (sdata : mem).
Context (r_ok : request_ok r0) (r_data : w_data r0 = (src, base)) (r_dev : w_device r0 = dev).
Context (r_op : process r0 = EXT2_OP_WRITE) (r_alloc : allocate r0 = true) (r_dealloc : deallocate r0 = false).
Context (r_zero : zero r0 = false) (r_abort : abort r0 = false) (r_ino : ext2_inode r0 = ino).
Context (r_meta : ext2_meta r0 = l_meta L) (r_group : 0 <= block_group_nr r0 < groups L).
Context (ino_src : ino <> src) (ino_meta : ino <> super /\ ino <> table) (src_meta : src <> super /\ src <> table).

(** ** States and changes *)

(** A block that may belong to a file. *)
Definition good (s : fs_state D) (b : Z) : Prop :=
  0 < b < l_blocks L /\ ~ reserved L b /\ b <> ib /\ ~ is_free L s b.

Record wstate (s : fs_state D) : Prop := {
  ws_inv : fs_inv L s;
  ws_ino : (ino < next s)%nat;
  ws_src : (src < next s)%nat;
  ws_data : forall x, heap s src x = sdata x;
  ws_table : ~ is_free L s ib;
}.

(** Only blocks in [W] and free blocks, and only the cells [C] of buffers change,
    apart from the metadata. *)
Record wrote (W : Z -> Prop) (C : nat -> Z -> Prop) (s s' : fs_state D) : Prop := {
  wr_state : wstate s';
  wr_vnodes : vnodes s' = vnodes s;
  wr_next : (next s <= next s')%nat;
  wr_free : forall b, is_free L s' b -> is_free L s b;
  wr_image : forall b, ~ reserved L b -> ~ W b -> ~ is_free L s b -> same_block (im s) (im s') b;
  wr_heap : forall c x, (c < next s)%nat -> c <> super -> c <> table -> ~ C c x -> heap s' c x = heap s c x;
}.

(** A pointer to a block number, and the counter of blocks in the inode. *)
Definition cell (p : ptr) (c : nat) (x : Z) : Prop :=
  c = p.1 /\ p.2 <= x < p.2 + 4 \/ c = ino /\ i_blocks <= x < i_blocks + 4.
Definition no_block (_ : Z) : Prop := False.
Definition no_cell (_ : nat) (_ : Z) : Prop := False.

Record cell_ok (s : fs_state D) (p : ptr) : Prop := {
  co_next : (p.1 < next s)%nat;
  co_apart : p.1 <> src /\ p.1 <> super /\ p.1 <> table;
  co_inode : p.1 = ino -> direct <= p.2;
}.

Lemma wrote_refl W C s : wstate s -> wrote W C s s.
Proof. by intros H; split. Qed.

Lemma wrote_trans W C s1 s2 s3 : wrote W C s1 s2 -> wrote W C s2 s3 -> wrote W C s1 s3.
Proof.
  intros [A1 A2 A3 A4 A5 A6] [B1 B2 B3 B4 B5 B6]; split; [done|congruence|lia|auto| |].
  - intros b Hr Hw Hf o Ho; rewrite B5, A5; auto.
  - intros c x Hc Hc1 Hc2 Hx; rewrite B6, A6; auto; lia.
Qed.

Lemma wrote_weaken (W W' : Z -> Prop) (C C' : nat -> Z -> Prop) s s' :
  wrote W C s s' -> (forall b, W b -> W' b \/ is_free L s b) -> (forall c x, (c < next s)%nat -> C c x -> C' c x) -> wrote W' C' s s'.
Proof.
  intros [A1 A2 A3 A4 A5 A6] HW HC; split; auto.
  intros b Hr Hw Hf; apply A5; auto; intros [?|?]%HW; auto.
Qed.

(** The second change may use blocks that were free before the first. *)
Lemma wrote_then (W W2 : Z -> Prop) (C C2 : nat -> Z -> Prop) s1 s2 s3 :
  wrote W C s1 s2 -> wrote W2 C2 s2 s3 -> (forall b, W2 b -> W b \/ is_free L s1 b) ->
  (forall c x, (c < next s1)%nat -> C2 c x -> C c x) -> wrote W C s1 s3.
Proof.
  intros [A1 A2 A3 A4 A5 A6] [B1 B2 B3 B4 B5 B6] HW HC; split; [done|congruence|lia|auto| |].
  - intros b Hr Hw Hf o Ho; rewrite B5, A5; auto; intros [?|?]%HW; auto.
  - intros c x Hc Hc1 Hc2 Hx; rewrite B6, A6; auto; lia.
Qed.

Lemma good_mono W C s s' b : wrote W C s s' -> good s b -> good s' b.
Proof. intros H (? & ? & ? & Hf); split_and!; auto; try lia; intros ?%(wr_free _ _ _ _ H); done. Qed.

Lemma cell_ok_mono W C s s' p : wrote W C s s' -> cell_ok s p -> cell_ok s' p.
Proof. intros H [? ? ?]; split; auto; pose proof (wr_next _ _ _ _ H); lia. Qed.

(** A change that does not touch a tree. *)
Lemma tree_kept W C s s' d b :
  wrote W C s s' -> tree_ok (good s) (im s) d b -> (forall x, reach (im s) d b x -> ~ W x) ->
  tree_ok (good s') (im s') d b /\ (forall x, reach (im s') d b x <-> reach (im s) d b x) /\
  (forall i, 0 <= i < width d -> tree_block (im s') d b i = tree_block (im s) d b i) /\
  (forall x, reach (im s) d b x -> same_block (im s) (im s') x).
Proof.
  intros H Ho Hd.
  assert (Hs : forall x, reach (im s) d b x -> same_block (im s) (im s') x).
  { intros x Hx; destruct (tree_ok_reach _ _ _ _ _ Ho Hx) as (_ & ? & _ & ?); apply (wr_image _ _ _ _ H); auto. }
  destruct (tree_frame _ _ d b Hs) as (T1 & T2 & T3); split_and!; auto.
  apply (T3 (good s)); [done|]; intros x _; by eapply good_mono.
Qed.

(** ** What has been done for a part of the file *)

(** Byte [x] of the file is to be written. *)
Definition in_request (x : Z) : Prop := offset r0 <= x < offset r0 + bytes r0.

(** Block [j] of the file was [o] and is [n]. *)
Record block_done (j o n : Z) (im im' : mem) : Prop := {
  bd_new : first_block r0 <= j <= last_block r0 -> n <> 0;
  bd_old : o <> 0 -> n = o;
  bd_other : ~ (first_block r0 <= j <= last_block r0) -> n = o;
  bd_bytes : forall y, 0 <= y < BLOCK_SIZE ->
    (in_request (j * BLOCK_SIZE + y) -> im' (n * BLOCK_SIZE + y) = sdata (base + (j * BLOCK_SIZE + y - offset r0))) /\
    (~ in_request (j * BLOCK_SIZE + y) -> o <> 0 -> im' (n * BLOCK_SIZE + y) = im (n * BLOCK_SIZE + y));
}.

(** The tree below an entry that was [b] and is [b'], for the blocks of the file
    from [start] on. *)
Record subtree_done (d : nat) (start b b' : Z) (s s' : fs_state D) : Prop := {
  sd_ok : tree_ok (good s') (im s') d b';
  sd_reach : forall x, reach (im s') d b' x -> reach (im s) d b x \/ is_free L s x;
  sd_root : b <> 0 -> b' = b;
  sd_blocks : forall i, 0 <= i < width d ->
    block_done (start + i) (tree_block (im s) d b i) (tree_block (im s') d b' i) (im s) (im s');
}.

(** A block of the file that is not in the request stays as it is. *)
Lemma block_done_same j o im im' :
  ~ (first_block r0 <= j <= last_block r0) -> (o <> 0 -> same_block im im' o) -> block_done j o o im im'.
Proof.
  intros Hj Hs; split; auto; intros y Hy; split; [|intros _ Ho; by apply Hs].
  intros Hr; destruct Hj; destruct r_ok as [? ? ? -> ->]; unfold in_request, BLOCK_SIZE in *; Z.div_mod_to_equations; lia.
Qed.

(** Nothing of the subtree is in the request, and it has not changed. *)
Lemma subtree_same d start b s s' :
  (forall i, 0 <= i < width d -> ~ (first_block r0 <= start + i <= last_block r0)) ->
  tree_ok (good s') (im s') d b -> (forall x, reach (im s') d b x <-> reach (im s) d b x) ->
  (forall i, 0 <= i < width d -> tree_block (im s') d b i = tree_block (im s) d b i) ->
  (forall x, reach (im s) d b x -> same_block (im s) (im s') x) -> subtree_done d start b b s s'.
Proof.
  intros Hr Ho Hre Ht Hs; split; auto; [intros x Hx; left; by apply Hre|].
  intros i Hi; rewrite Ht by done; apply block_done_same; [by apply Hr|]; intros Hne; by apply Hs, tree_block_reach.
Qed.

(** What is done stays done when other blocks are written. *)
Lemma subtree_after W C d start b b' s s1 s2 :
  subtree_done d start b b' s s1 -> wrote W C s1 s2 -> (forall x, reach (im s1) d b' x -> ~ W x) ->
  subtree_done d start b b' s s2.
Proof.
  intros [O1 O2 O3 O4] H Hd; destruct (tree_kept _ _ _ _ d b' H O1 Hd) as (T1 & T2 & T3 & T4).
  split; [done|intros x Hx; apply O2; by apply T2|done|].
  intros i Hi; rewrite T3 by done; destruct (O4 i Hi) as [B1 B2 B3 B4]; split; auto.
  intros y Hy; destruct (B4 y Hy) as [B5 B6].
  assert (Hn : tree_block (im s1) d b' i <> 0 ->
    im s2 (tree_block (im s1) d b' i * BLOCK_SIZE + y) = im s1 (tree_block (im s1) d b' i * BLOCK_SIZE + y)).
  { intros Hne; apply T4; [by apply tree_block_reach|done]. }
  split.
  - intros Hr; rewrite Hn; [by apply B5|]; apply B1; destruct r_ok as [? ? ? -> ->]; unfold in_request, BLOCK_SIZE in *.
    Z.div_mod_to_equations; lia.
  - intros Hr Ho; rewrite Hn; [by apply B6|]; by rewrite B2.
Qed.

(** The blocks were not touched before. *)
Lemma subtree_before d start b b' s s1 s2 :
  (forall x, reach (im s) d b x -> same_block (im s) (im s1) x) -> (forall x, is_free L s1 x -> is_free L s x) ->
  subtree_done d start b b' s1 s2 -> subtree_done d start b b' s s2.
Proof.
  intros Hs Hf [O1 O2 O3 O4]; destruct (tree_frame _ _ d b Hs) as (T1 & T2 & _); split; auto.
  - intros x [Hx|Hx]%O2; [left; by apply T1|right; auto].
  - intros i Hi; destruct (O4 i Hi) as [B1 B2 B3 B4]; rewrite T2 in * by done; split; auto.
    intros y Hy; destruct (B4 y Hy) as [B5 B6]; split; [done|]; intros Hr Hne; rewrite B6 by done.
    rewrite B2 by done; apply Hs; [by apply tree_block_reach|done].
Qed.

(** ** Arrays of entries

    [n] entries, entry [j] of depth [dep j] at [at_ j], for the blocks of the file
    from [from j] on: the entries of an indirect block, or of the inode. *)
Section Array.
Context (n : Z) (dep : Z -> nat) (at_ : Z -> ptr) (from : Z -> Z).
Context (apart : forall j k, 0 <= j < n -> 0 <= k < n -> j <> k ->
  (at_ j).1 <> (at_ k).1 \/ (at_ j).2 + 4 <= (at_ k).2 \/ (at_ k).2 + 4 <= (at_ j).2).

Definition value (s : fs_state D) (j : Z) : Z := load32 (heap s (at_ j).1) (at_ j).2.

Record array_ok (s : fs_state D) : Prop := {
  ao_cell : forall j, 0 <= j < n -> cell_ok s (at_ j);
  ao_tree : forall j, 0 <= j < n -> tree_ok (good s) (im s) (dep j) (value s j);
  ao_apart : forall j k x, 0 <= j < n -> 0 <= k < n -> j <> k ->
    reach (im s) (dep j) (value s j) x -> ~ reach (im s) (dep k) (value s k) x;
}.

(** The blocks of the trees, and the cells. *)
Definition array_blocks (s : fs_state D) (x : Z) : Prop := exists j, 0 <= j < n /\ reach (im s) (dep j) (value s j) x.
Definition array_cells (c : nat) (x : Z) : Prop := exists j, 0 <= j < n /\ cell (at_ j) c x.

(** The entries before [q] have been visited. *)
Record progress (s : fs_state D) (q : Z) (s' : fs_state D) : Prop := {
  pg_wrote : wrote (array_blocks s) array_cells s s';
  pg_ok : array_ok s';
  pg_done : forall j, 0 <= j < q -> subtree_done (dep j) (from j) (value s j) (value s' j) s s';
  pg_rest : forall j, q <= j < n -> value s' j = value s j /\
    forall x, reach (im s) (dep j) (value s j) x -> same_block (im s) (im s') x;
  pg_reach : forall j x, 0 <= j < n -> reach (im s') (dep j) (value s' j) x ->
    reach (im s) (dep j) (value s j) x \/ is_free L s x;
}.

Lemma progress_start s : wstate s -> array_ok s -> progress s 0 s.
Proof. intros H Ho; split; auto; [by apply wrote_refl|intros; lia|intros j Hj; split; [done|]; by intros]. Qed.

(** Entries that are not in the request are skipped. *)
Lemma progress_skip s q s' q' :
  progress s q s' -> 0 <= q <= q' -> q' <= n ->
  (forall j i, q <= j < q' -> 0 <= i < width (dep j) -> ~ (first_block r0 <= from j + i <= last_block r0)) ->
  progress s q' s'.
Proof.
  intros [P1 P2 P3 P4 P5] Hq Hn Hr; split; auto; [|intros j Hj; apply P4; lia].
  intros j Hj; destruct (decide (j < q)); [apply P3; lia|].
  destruct (P4 j ltac:(lia)) as [Ev Hs]; rewrite Ev.
  destruct (tree_frame _ _ (dep j) (value s j) Hs) as (T1 & T2 & _).
  apply subtree_same; auto; [intros i Hi; apply Hr; lia|].
  rewrite <- Ev; apply (ao_tree _ P2); lia.
Qed.

(** The change of one entry. *)
Record level_step (d : nat) (start : Z) (p : ptr) (b : Z) (s : fs_state D) (b' : Z) (s' : fs_state D) : Prop := {
  ls_wrote : wrote (reach (im s) d b) (cell p) s s';
  ls_done : subtree_done d start b b' s s';
  ls_cell : load32 (heap s' p.1) p.2 = b';
}.

Lemma step_other s s' q d start b b' :
  array_ok s -> 0 <= q < n -> level_step d start (at_ q) b s b' s' ->
  forall j, 0 <= j < n -> j <> q -> value s' j = value s j.
Proof.
  intros Ho Hq [Hw _ _] j Hj Hne; destruct (ao_cell _ Ho j Hj) as [C1 (C2 & C3 & C4) C5].
  apply load32_ext; intros x Hx; apply (wr_heap _ _ _ _ Hw); auto.
  intros [[E Hx']|[E Hx']]; [destruct (apart j q Hj Hq Hne); [done|lia]|].
  specialize (C5 E); unfold direct, i_blocks in *; lia.
Qed.

Lemma progress_step s q s1 s' :
  progress s q s1 -> 0 <= q < n ->
  level_step (dep q) (from q) (at_ q) (value s1 q) s1 (value s' q) s' -> progress s (q + 1) s'.
Proof.
  intros [P1 P2 P3 P4 P5] Hq St; pose proof (step_other s1 s' q _ _ _ _ P2 Hq St) as Hv.
  destruct (P4 q ltac:(lia)) as [Eq Sq]; destruct St as [Hw Hd _].
  assert (Rq : forall x, reach (im s1) (dep q) (value s1 q) x <-> reach (im s) (dep q) (value s q) x)
    by (rewrite Eq; by apply tree_frame).
  assert (Hk : forall j, 0 <= j < n -> j <> q -> tree_ok (good s') (im s') (dep j) (value s' j) /\
    (forall x, reach (im s') (dep j) (value s' j) x <-> reach (im s1) (dep j) (value s1 j) x) /\
    (forall x, reach (im s1) (dep j) (value s1 j) x -> same_block (im s1) (im s') x)).
  { intros j Hj Hne; rewrite Hv by done.
    destruct (tree_kept _ _ _ _ (dep j) (value s1 j) Hw (ao_tree _ P2 j Hj)) as (T1 & T2 & _ & T4); [|done].
    intros x Hx; by apply (ao_apart _ P2 j q x). }
  assert (Hfree : forall j x, 0 <= j < n -> reach (im s1) (dep j) (value s1 j) x -> ~ is_free L s1 x)
    by (intros j x Hj Hx; apply (tree_ok_reach _ _ _ _ _ (ao_tree _ P2 j Hj) Hx)).
  assert (Hnew : forall j x, 0 <= j < n -> j <> q -> reach (im s') (dep j) (value s' j) x ->
    ~ reach (im s') (dep q) (value s' q) x).
  { intros j x Hj Hne Hx%Hk Hx'%(sd_reach _ _ _ _ _ _ Hd); [|done..].
    destruct Hx' as [Hx'|Hx']; [by apply (ao_apart _ P2 j q x)|by apply (Hfree j x)]. }
  assert (Ww : wrote (array_blocks s) array_cells s1 s').
  { apply (wrote_weaken _ _ _ _ _ _ Hw); [intros b Hb; left; exists q; split; [done|by apply Rq]|].
    intros c x _ Hc; by exists q. }
  split; [by eapply wrote_trans| | | |].
  - split.
    + intros j Hj; eapply cell_ok_mono; [exact Hw|by apply (ao_cell _ P2)].
    + intros j Hj; destruct (decide (j = q)) as [->|]; [apply Hd|by apply Hk].
    + intros j k x Hj Hk' Hne Hx Hx'; destruct (decide (j = q)) as [->|Hjq]; [by apply (Hnew k x)|].
      destruct (decide (k = q)) as [->|Hkq]; [by apply (Hnew j x)|].
      apply Hk in Hx, Hx'; auto; by apply (ao_apart _ P2 j k x).
  - intros j Hj; destruct (decide (j = q)) as [->|Hne].
    + eapply subtree_before; [exact Sq|apply P1|]; by rewrite <- Eq.
    + rewrite Hv by lia; eapply subtree_after; [apply P3; lia|exact Hw|].
      intros x Hx; apply (ao_apart _ P2 j q x); lia || done.
  - intros j Hj; rewrite Hv by lia; destruct (P4 j ltac:(lia)) as [Ej Sj]; split; [done|].
    intros x Hx; destruct (tree_frame _ _ _ _ Sj) as (Rj & _ & _).
    intros o Hox; rewrite (proj2 (proj2 (Hk j ltac:(lia) ltac:(lia)))), Sj; auto; rewrite Ej; by apply Rj.
  - intros j x Hj Hx; destruct (decide (j = q)) as [->|Hne].
    + apply (sd_reach _ _ _ _ _ _ Hd) in Hx as [Hx|Hx]; [left; by apply Rq|right; by apply (wr_free _ _ _ _ P1)].
    + apply P5; [done|]; by apply Hk.
Qed.

End Array.

(** ** From the entries of a block to its tree *)

(** The entries of an indirect block in the buffer [buf]. *)
Section Block.
Context (d : nat) (start : Z) (b : Z) (buf : nat).

Definition buf_at (j : Z) : ptr := (buf, 4 * j).
Definition buf_from (j : Z) : Z := start + j * width d.
Definition buf_cells (c : nat) (x : Z) : Prop := c = buf \/ c = ino /\ i_blocks <= x < i_blocks + 4.

#[local] Abbreviation buf_value := (value buf_at).
#[local] Abbreviation buf_progress := (progress 256 (fun _ => d) buf_at buf_from).

Lemma buf_apart j k : 0 <= j < 256 -> 0 <= k < 256 -> j <> k ->
  (buf_at j).1 <> (buf_at k).1 \/ (buf_at j).2 + 4 <= (buf_at k).2 \/ (buf_at k).2 + 4 <= (buf_at j).2.
Proof. cbn; lia. Qed.

(** The entries of a well-formed tree. *)
Lemma block_array s :
  b <> 0 -> tree_ok (good s) (im s) (S d) b -> (forall j, 0 <= j < 256 -> buf_value s j = entry (im s) b j) ->
  (buf < next s)%nat -> buf <> src -> buf <> super -> buf <> table -> buf <> ino ->
  array_ok 256 (fun _ => d) buf_at s.
Proof.
  intros Hb [?|[Hg [Ho1 Ho2]]] Hv Hn H1 H2 H3 H4; [done|]; split.
  - intros j Hj; split; cbn; auto; done.
  - intros j Hj; rewrite Hv by done; by apply Ho1.
  - intros j k x Hj Hk Hne; rewrite !Hv by done; by apply Ho2.
Qed.

Lemma block_done_level s s2 s3 :
  b <> 0 -> wstate s -> tree_ok (good s) (im s) (S d) b -> (forall j, 0 <= j < 256 -> buf_value s j = entry (im s) b j) ->
  buf_progress s 256 s2 -> wrote (eq b) no_cell s2 s3 ->
  (forall j, 0 <= j < 256 -> entry (im s3) b j = buf_value s2 j) ->
  wrote (reach (im s) (S d) b) buf_cells s s3 /\ subtree_done (S d) start b b s s3.
Proof.
  intros Hb Hst Ho Hv P Hw He; pose proof Ho as [?|[Hg [Ho1 Ho2]]]; [done|].
  assert (Hnb : forall j x, 0 <= j < 256 -> reach (im s2) d (buf_value s2 j) x -> b <> x).
  { intros j x Hj Hx <-; destruct (pg_reach _ _ _ _ _ _ _ P j b Hj Hx) as [Hx'|Hx'];
      [rewrite Hv in Hx' by done; by apply (Ho1 j Hj)|by apply Hg]. }
  assert (Hk : forall j, 0 <= j < 256 -> forall x, reach (im s3) d (buf_value s2 j) x <-> reach (im s2) d (buf_value s2 j) x).
  { intros j Hj; eapply (tree_kept _ _ _ _ d (buf_value s2 j) Hw); [apply (ao_tree _ _ _ _ (pg_ok _ _ _ _ _ _ _ P) j Hj)|].
    by intros x Hx; apply (Hnb j). }
  assert (Hd : forall j, 0 <= j < 256 -> subtree_done d (buf_from j) (buf_value s j) (buf_value s2 j) s s3).
  { intros j Hj; eapply subtree_after; [by apply (pg_done _ _ _ _ _ _ _ P)|exact Hw|]; by intros x Hx; apply (Hnb j). }
  split.
  - eapply wrote_trans; [apply (wrote_weaken _ _ _ _ _ _ (pg_wrote _ _ _ _ _ _ _ P))|apply (wrote_weaken _ _ _ _ _ _ Hw)].
    + intros x (j & Hj & Hx); left; rewrite Hv in Hx by done; by eapply reach_entry.
    + intros c x _ (j & Hj & [[E _]|E]); [by left|by right].
    + intros x <-; left; by apply reach_root.
    + by intros c x _ [].
  - split; [| |done|].
    + right; split; [eapply good_mono; [exact Hw|]; eapply good_mono; [exact (pg_wrote _ _ _ _ _ _ _ P)|done]|split].
      * intros j Hj; rewrite He by done; split; [apply (Hd j Hj)|]; intros Hx%Hk; [|done]; by apply (Hnb j b Hj Hx).
      * intros j k x Hj Hk' Hne; rewrite !He, !Hk by done; by apply (ao_apart _ _ _ _ (pg_ok _ _ _ _ _ _ _ P) j k x).
    + intros x [_ [->|(j & Hj & Hx)]]; [left; by apply reach_root|]; rewrite He, Hk in Hx by done.
      destruct (pg_reach _ _ _ _ _ _ _ P j x Hj Hx) as [Hx'|Hx']; [left|by right].
      rewrite Hv in Hx' by done; by eapply reach_entry.
    + intros i Hi; rewrite width_S in Hi; pose proof (width_pos d).
      assert (Hj : 0 <= i / width d < 256) by (split; [apply Z.div_pos; lia|apply Z.div_lt_upper_bound; lia]).
      cbn [tree_block]; rewrite (proj2 (Z.eqb_neq b 0)) by done.
      fold (entry (im s) b (i / width d)) (entry (im s3) b (i / width d)); rewrite He, <- Hv by done.
      replace (start + i) with (buf_from (i / width d) + i mod width d)
        by (unfold buf_from; pose proof (Z.div_mod i (width d)); lia).
      apply (sd_blocks _ _ _ _ _ _ (Hd _ Hj)), Z.mod_pos_bound; lia.
Qed.

End Block.

(** ** Elementary changes *)

Lemma write_good (s : fs_state D) b n p off :
  wstate s -> good s b -> 0 < n -> 0 <= off -> off + n <= BLOCK_SIZE ->
  exists s', write_bytes drv kmalloc b n p dev off s = Ok (0, s') /\ wrote (eq b) no_cell s s' /\ heap s' = heap s /\
    free_total L s' = free_total L s /\ next s' = S (next s) /\ (forall x, is_free L s' x <-> is_free L s x) /\
    forall y, 0 <= y < BLOCK_SIZE -> im s' (b * BLOCK_SIZE + y) =
      if (off <=? y) && (y <? off + n) then heap s p.1 (p.2 + (y - off)) else im s (b * BLOCK_SIZE + y).
Proof.
  intros W (Hb & Hres & Hib & Hf) Hn Ho Hon.
  destruct (write_bytes_spec drv ops dev registered kmalloc enough s b n p off) as (s' & E & R & S & V & N & P & M);
    [apply (ws_inv _ W)|done|done|lia|rewrite (fi_size _ _ (ws_inv _ W)); unfold BLOCK_SIZE in *; lia|].
  assert (Ms : forall x, x <> b -> same_block (im s) (im s') x).
  { intros x Hx o Hox; rewrite M, blit_out; [done|unfold BLOCK_SIZE in *; lia]. }
  destruct (inv_blocks L Lo ops dev s s' (ws_inv _ W)) as (I' & F' & T'); auto; [lia|intros x Hx; apply Ms; by intros ->|].
  exists s'; split; [exact E|]; split_and!; auto.
  - destruct W as [W1 W2 W3 W4 W5]; split.
    + split; [done|lia|lia|by rewrite P|by rewrite F'].
    + done.
    + lia.
    + intros x; by rewrite F'.
    + intros x _ Hx _; apply Ms; congruence.
    + by rewrite P.
  - intros y Hy; rewrite M; unfold blit, BLOCK_SIZE in *.
    destruct (Z.leb_spec off y), (Z.ltb_spec y (off + n)), (Z.leb_spec (b * 1024 + off) (b * 1024 + y)),
      (Z.ltb_spec (b * 1024 + y) (b * 1024 + off + n)); cbn; try lia; f_equal; lia.
Qed.

(** A block number is stored in a buffer. *)
Lemma st32_wrote (s : fs_state D) p v C :
  wstate s -> p.1 <> src -> p.1 <> super -> p.1 <> table -> (forall x, p.2 <= x < p.2 + 4 -> C p.1 x) ->
  exists s', st32 p v s = Ok ((), s') /\ wrote no_block C s s' /\ disk s' = disk s /\ next s' = next s /\
    (forall c, c <> p.1 -> heap s' c = heap s c) /\ (forall x, heap s' p.1 x = store32 (heap s p.1) p.2 v x).
Proof.
  intros W H1 H2 H3 HC; eexists; split; [reflexivity|]; cbn [disk heap next vnodes].
  set (s' := mk_fs _ _ _ _).
  assert (Hc : forall c, c <> p.1 -> heap s' c = heap s c) by (intros; by apply fn_lookup_insert_ne).
  split_and!; auto; [|intros x; cbn; by rewrite fn_lookup_insert].
  destruct W as [W1 W2 W3 W4 W5]; split; auto.
  - split; auto; [|intros x; rewrite Hc by auto; done].
    apply (fs_inv_ext L ops dev s); auto; intros x; by rewrite Hc by auto.
  - intros b _ _ _ o Hob; done.
  - intros c x _ _ _ Hx; destruct (decide (c = p.1)) as [->|]; [|by rewrite Hc].
    cbn; rewrite fn_lookup_insert; apply store32_other; intros ?; by apply Hx, HC.
Qed.

Lemma add_blocks_wrote (s : fs_state D) v :
  wstate s ->
  exists s', add_blocks ino v s = Ok ((), s') /\
    wrote no_block (fun c x => c = ino /\ i_blocks <= x < i_blocks + 4) s s' /\ disk s' = disk s /\ next s' = next s /\
    (forall c, c <> ino -> heap s' c = heap s c) /\
    (forall x, ~ (i_blocks <= x < i_blocks + 4) -> heap s' ino x = heap s ino x).
Proof.
  intros W; unfold add_blocks; erewrite bind_ok by reflexivity; cbn [fst snd].
  destruct (st32_wrote s (ino, i_blocks) (u32 (load32 (heap s ino) i_blocks + v)) (fun c x => c = ino /\ i_blocks <= x < i_blocks + 4))
    as (s' & E & W' & D' & N' & H1 & H2); [done|apply ino_src|apply ino_meta|apply ino_meta|done|].
  exists s'; split_and!; auto; intros x Hx; cbn [fst snd] in H2; rewrite H2; by apply store32_other.
Qed.

(** A block is taken from the map. *)
Lemma takes_wrote (s s' : fs_state D) b :
  wstate s -> takes L s s' b -> wrote no_block no_cell s s' /\ good s' b /\ is_free L s b.
Proof.
  intros [W1 W2 W3 W4 W5] [T1 T2 T3 T4 T5 T6 T7 T8]; split_and!; auto.
  - split; auto; [|intros x Hx; by apply T3].
    split; auto; [lia|lia|intros x; rewrite T7; [done|done|apply src_meta..]|].
    by intros [? _]%T3.
  - destruct (fi_free _ _ W1 b T2) as [Hb Hr]; split_and!; auto; try lia; [by intros ->|].
    intros Hf%T3; tauto.
Qed.

(** A block is allocated and its number stored. *)
Lemma allocate_to_cell (s : fs_state D) p errno :
  wstate s -> cell_ok s p -> 0 < free_total L s ->
  exists b s1 s2 s3, allocate_block drv kmalloc meta (block_group_nr r0) errno s = Ok (b, errno, s1) /\
    st32 p b s1 = Ok ((), s2) /\ add_blocks ino 2 s2 = Ok ((), s3) /\
    b <> 0 /\ is_free L s b /\ good s3 b /\ wrote no_block (cell p) s s3 /\
    load32 (heap s3 p.1) p.2 = b /\ free_total L s3 = free_total L s - 1 /\ (next s <= next s3)%nat /\
    (forall c, (c < next s)%nat -> c <> p.1 -> c <> ino -> c <> super -> c <> table -> forall x, heap s3 c x = heap s c x).
Proof.
  intros W [C1 (C2 & C3 & C4) C5] Ht.
  destruct (allocate_ok L Lo drv ops dev registered meta_dev kmalloc enough s (block_group_nr r0) errno (ws_inv _ W) r_group)
    as [[? _]|(b & s1 & E1 & T)]; [lia|]; destruct (takes_wrote s s1 b W T) as (W1 & G1 & F1).
  destruct (fi_free _ _ (ws_inv _ W) b F1) as [Hb _]; pose proof (lo_blocks _ Lo).
  destruct (st32_wrote s1 p b (cell p)) as (s2 & E2 & W2 & D2 & N2 & O2 & P2); auto; [apply W1|by intros x Hx; left|].
  destruct (add_blocks_wrote s2 2 (wr_state _ _ _ _ W2)) as (s3 & E3 & W3 & D3 & N3 & O3 & P3).
  exists b, s1, s2, s3; split; [exact E1|]; split; [exact E2|]; split; [exact E3|]; split_and!; auto; try lia.
  - eapply good_mono; [exact W3|]; eapply good_mono; [exact W2|done].
  - eapply wrote_trans; [|eapply wrote_trans; [|exact (wrote_weaken _ no_block _ (cell p) _ _ W3 (fun b H => or_introl H) (fun c x _ H => or_intror H))]].
    + apply (wrote_weaken _ _ _ _ _ _ W1); [by left|by intros c x _ []].
    + exact W2.
  - assert (forall x, p.2 <= x < p.2 + 4 -> heap s3 p.1 x = heap s2 p.1 x) as Hp.
    { intros x Hx; destruct (decide (p.1 = ino)) as [Ei|Ei]; [|by rewrite O3].
      rewrite Ei; apply P3; specialize (C5 Ei); unfold direct, i_blocks in *; lia. }
    rewrite (load32_ext (heap s2 p.1)) by done.
    rewrite (load32_ext (store32 (heap s1 p.1) p.2 b)) by (intros; apply P2); apply load32_store32_same; lia.
  - destruct (free_ext L ops dev s2 s3 D3) as (_ & -> & _), (free_ext L ops dev s1 s2 D2) as (_ & -> & _); apply T.
  - pose proof (tk_next _ _ _ _ T); lia.
  - intros c Hc H1 H2 H3 H4 x; rewrite O3, O2 by done; apply (tk_heap _ _ _ _ T); done.
Qed.

(** ** Data blocks *)

(** The bytes of block [k] of the request. *)
Lemma range_in_request k y :
  0 <= k < nblocks r0 -> 0 <= y < BLOCK_SIZE ->
  let f := if k =? 0 then offset r0 mod BLOCK_SIZE else 0 in
  let l := if k =? last_block r0 - first_block r0 then (bytes r0 + offset r0 - 1) mod BLOCK_SIZE else BLOCK_SIZE - 1 in
  f <= y < f + (l - f + 1) <-> in_request ((first_block r0 + k) * BLOCK_SIZE + y).
Proof.
  intros Hk Hy; destruct r_ok as [Ho Hb He Hf Hl]; unfold nblocks, in_request, BLOCK_SIZE in *; rewrite Hf, Hl in *.
  destruct (Z.eqb_spec k 0), (Z.eqb_spec k ((offset r0 + bytes r0 - 1) / 1024 - offset r0 / 1024));
    Z.div_mod_to_equations; lia.
Qed.

Lemma write_one (s : fs_state D) k r b :
  wstate s -> at_block r0 k r -> 0 <= k < nblocks r0 -> good s b ->
  exists r' s', process_block drv kmalloc (block_range r) b s = Ok (0, r', s') /\ at_block r0 (k + 1) r' /\
    wrote (eq b) no_cell s s' /\ heap s' = heap s /\ free_total L s' = free_total L s /\
    forall y, 0 <= y < BLOCK_SIZE ->
      (in_request ((first_block r0 + k) * BLOCK_SIZE + y) ->
         im s' (b * BLOCK_SIZE + y) = sdata (base + ((first_block r0 + k) * BLOCK_SIZE + y - offset r0))) /\
      (~ in_request ((first_block r0 + k) * BLOCK_SIZE + y) -> im s' (b * BLOCK_SIZE + y) = im s (b * BLOCK_SIZE + y)).
Proof.
  intros W Hq Hk Hg; rewrite (block_range_at r0 k r r_ok Hq Hk).
  destruct (block_bytes r0 k r_ok Hk) as (F1 & F2 & F3 & F4 & F5 & F6).
  pose proof (fun y Hy => range_in_request k y Hk Hy) as Hin; cbv zeta in Hin.
  set (fb := if k =? 0 then _ else _) in *; set (lb := if k =? last_block r0 - _ then _ else _) in *.
  pose proof (request_bounds r0 r_ok); pose proof (rq_end _ r_ok); pose proof (rq_offset _ r_ok).
  assert (Hproc : at_block r0 (k + 1) (processed (set_range fb lb (set_processed k (done_bytes r0 k) r0)))).
  { exists fb, lb; unfold processed, BLOCK_SIZE in *; cbn; unfold nblocks in *; rewrite !u32_small by lia; by rewrite F3. }
  unfold process_block; cbn [set_range set_processed process]; rewrite r_op.
  unfold write_block, walk_ptr; cbn [set_range set_processed w_data bytes_processed last_byte first_byte w_device].
  rewrite r_data, r_dev, u32_small by (unfold BLOCK_SIZE in *; lia); cbn [fst snd].
  rewrite (proj2 (Z.eqb_neq b 0)) by (destruct Hg; lia).
  destruct (write_good s b (lb - fb + 1) (src, base + done_bytes r0 k) fb) as (s' & E & W' & H' & T' & _ & _ & M'); auto; try lia.
  rewrite (bind_ok _ _ _ _ _ E); eexists _, s'; split; [reflexivity|]; split_and!; auto.
  intros y Hy; rewrite M' by done; cbn [fst snd]; rewrite (ws_data _ W); rewrite <- Hin by done.
  destruct (Z.leb_spec fb y), (Z.ltb_spec y (fb + (lb - fb + 1))); cbn; split; intros; try done; try lia; f_equal; lia.
Qed.

(** One entry of a list of blocks. *)
Lemma write_entry (s : fs_state D) k r p b dirty errno :
  wstate s -> at_block r0 k r -> 0 <= k < nblocks r0 -> cell_ok s p -> load32 (heap s p.1) p.2 = b ->
  tree_ok (good s) (im s) 0 b -> 0 < free_total L s ->
  exists r' s' b', (forall n, walk_blocklist drv kmalloc (S n) r p dirty errno s =
      walk_blocklist drv kmalloc n r' (p.1, p.2 + 4) (dirty || (b =? 0)) errno s') /\
    at_block r0 (k + 1) r' /\ level_step 0 (first_block r0 + k) p b s b' s' /\ free_total L s - 1 <= free_total L s'.
Proof.
  intros W Hq Hk Hc Hb Ho Ht.
  assert (Hr : forall k r, at_block r0 k r -> allocate r = true /\ zero r = false /\ ext2_meta r = meta /\
    block_group_nr r = block_group_nr r0 /\ ext2_inode r = ino) by (intros k' r' (f & l & ->); by split_and!).
  destruct (Hr k r Hq) as (R1 & _ & R3 & R4 & R5).
  assert (exists s1 b', (forall n, walk_blocklist drv kmalloc (S n) r p dirty errno s =
      ('(rc, r) ← process_block drv kmalloc (block_range r) b';
       if negb (rc =? 0) then mret (EIO, r, dirty || (b =? 0))
       else
         dirty ← (if zero r then st32 p 0 ;; mret true else mret (dirty || (b =? 0)));
         walk_blocklist drv kmalloc n r (p.1, p.2 + 4) dirty errno) s1) /\
    wrote no_block (cell p) s s1 /\ good s1 b' /\ (b <> 0 -> b' = b) /\ (b = 0 -> is_free L s b') /\
    load32 (heap s1 p.1) p.2 = b' /\ free_total L s - 1 <= free_total L s1) as (s1 & b' & E1 & W1 & G1 & B1 & B2 & C1 & T1).
  { destruct (Z.eqb_spec b 0) as [E0|E0].
    - destruct (allocate_to_cell s p errno W Hc Ht) as (b' & s1 & s2 & s3 & A1 & A2 & A3 & A4 & A5 & A6 & A7 & A8 & A9 & _).
      exists s3, b'; split_and!; auto; [|done|lia]; intros n; cbn [walk_blocklist]; erewrite bind_ok by reflexivity.
      rewrite Hb, E0, R1, R3, R4, R5; cbn [Z.eqb andb].
      rewrite orb_true_r, (bind_ok _ _ s (None, b', true, errno) s3); [reflexivity|]; rewrite (bind_ok _ _ _ _ _ A1), (bind_ok _ _ _ _ _ A2), (proj2 (Z.eqb_neq b' 0)) by done.
      by rewrite (bind_ok _ _ _ _ _ A3).
    - exists s, b; split_and!; auto; [|by apply wrote_refl|destruct Ho as [?|[? _]]; done|done|lia].
      intros n; cbn [walk_blocklist]; erewrite bind_ok by reflexivity; rewrite Hb, (proj2 (Z.eqb_neq b 0)), andb_false_r by done.
      erewrite bind_ok by reflexivity; by rewrite orb_false_r. }
  destruct (write_one s1 k r b' (wr_state _ _ _ _ W1) Hq Hk G1) as (r' & s' & E' & Q' & W' & H' & T' & M').
  exists r', s', b'; split_and!; [|done| |lia].
  { intros n; rewrite E1, (bind_ok _ _ _ _ _ E'); destruct (Hr _ _ Q') as (_ & Z' & _); rewrite Z'.
    cbn [Z.eqb negb]; erewrite bind_ok by reflexivity; done. }
  assert (Hn0 : b' <> 0) by (destruct G1; lia).
  split; [| |by rewrite H'].
  - eapply wrote_then; [apply (wrote_weaken _ (reach (im s) 0 b) _ _ _ _ W1); [by intros ? []|done]|exact W'| |by intros ? ? _ []].
    intros x <-; destruct (decide (b = 0)) as [E|E]; [right; auto|left; rewrite B1 by done; by apply reach_root].
  - split.
    + right; split; [by eapply good_mono|done].
    + intros x [_ [->|[]]]; destruct (decide (b = 0)) as [E|E]; [right; auto|left; rewrite B1 by done; by apply reach_root].
    + done.
    + intros i Hi; change (width 0) with 1 in Hi; assert (i = 0) as -> by lia; rewrite Z.add_0_r; cbn [tree_block].
      split; [done|done| |]; [intros Hnr; destruct Hnr; unfold nblocks in *; lia|].
      intros y Hy; destruct (M' y Hy) as [M1 M2]; split; [done|]; intros Hnr Hne; rewrite M2 by done; rewrite B1 by done.
      destruct Ho as [?|[(_ & G2 & _ & G4) _]]; [done|]; by apply (wr_image _ _ _ _ W1 b); auto.
Qed.

(** ** Lists of blocks *)

Section Blocklist.
Context (n : Z) (dep : Z -> nat) (at_ : Z -> ptr) (from : Z -> Z) (s0 : fs_state D).
Context (apart : forall j k, 0 <= j < n -> 0 <= k < n -> j <> k ->
  (at_ j).1 <> (at_ k).1 \/ (at_ j).2 + 4 <= (at_ k).2 \/ (at_ k).2 + 4 <= (at_ j).2).

(** Nothing has changed in the array unless [dirty] is set. *)
Definition tracked (dirty dirty' : bool) (s s' : fs_state D) : Prop :=
  dirty' = false -> dirty = false /\ forall j, 0 <= j < n -> value at_ s' j = value at_ s j.

Lemma tracked_trans b1 b2 b3 s1 s2 s3 : tracked b1 b2 s1 s2 -> tracked b2 b3 s2 s3 -> tracked b1 b3 s1 s3.
Proof. intros H1 H2 E; destruct (H2 E) as [E2 V2], (H1 E2) as [E1 V1]; split; [done|]; intros; by rewrite V2, V1. Qed.

Lemma step_tracked q d start s s' b' dirty :
  array_ok n dep at_ s -> 0 <= q < n -> level_step d start (at_ q) (value at_ s q) s b' s' ->
  tracked dirty (dirty || (value at_ s q =? 0)) s s'.
Proof.
  intros Ho Hq St [-> Hne%Z.eqb_neq]%orb_false_iff; split; [done|]; intros j Hj.
  destruct (decide (j = q)) as [->|]; [|by eapply (step_other n dep at_ apart s s' q)].
  unfold value at 1; rewrite (ls_cell _ _ _ _ _ _ _ St); by apply (sd_root _ _ _ _ _ _ (ls_done _ _ _ _ _ _ _ St)).
Qed.

Lemma write_blocklist m : forall q k r s p dirty errno,
  progress n dep at_ from s0 q s -> at_block r0 k r -> 0 <= q -> q + Z.of_nat m <= n -> 0 <= k ->
  k + Z.of_nat m <= nblocks r0 -> Z.of_nat m <= free_total L s ->
  (forall i, 0 <= i < Z.of_nat m ->
     dep (q + i) = O /\ from (q + i) = first_block r0 + k + i /\ at_ (q + i) = (p.1, p.2 + 4 * i)) ->
  exists r' s' dirty', walk_blocklist drv kmalloc m r p dirty errno s = Ok (0, r', dirty', s') /\
    at_block r0 (k + Z.of_nat m) r' /\ progress n dep at_ from s0 (q + Z.of_nat m) s' /\
    free_total L s - Z.of_nat m <= free_total L s' /\ tracked dirty dirty' s s'.
Proof.
  induction m as [|m IH]; intros q k r s p dirty errno P Hq Hq0 Hqn Hk Hkm Ht He.
  { exists r, s, dirty; rewrite !Z.add_0_r; split; [done|]; split_and!; auto; [lia|done]. }
  destruct (He 0 ltac:(lia)) as (D0 & F0 & A0); rewrite Z.mul_0_r, !Z.add_0_r in A0; rewrite !Z.add_0_r in D0, F0.
  assert (A0' : at_ q = p) by (by destruct p).
  pose proof (pg_ok _ _ _ _ _ _ _ P) as Ho.
  destruct (write_entry s k r p (value at_ s q) dirty errno) as (r1 & s1 & b1 & E1 & Q1 & St & T1); auto; try lia.
  { apply (wr_state _ _ _ _ (pg_wrote _ _ _ _ _ _ _ P)). }
  { rewrite <- A0'; apply (ao_cell _ _ _ _ Ho); lia. }
  { unfold value; by rewrite A0'. }
  { rewrite <- D0; apply (ao_tree _ _ _ _ Ho); lia. }
  rewrite <- A0' in St.
  assert (Ev : value at_ s1 q = b1) by apply (ls_cell _ _ _ _ _ _ _ St).
  assert (Hqr : 0 <= q < n) by lia.
  pose proof (step_tracked q _ _ s s1 b1 dirty Ho Hqr St) as Htr.
  assert (P1 : progress n dep at_ from s0 (q + 1) s1).
  { apply (progress_step n dep at_ from apart s0 q s s1); auto; rewrite D0, F0, Z.add_0_r, Ev; exact St. }
  destruct (IH (q + 1) (k + 1) r1 s1 (p.1, p.2 + 4) (dirty || (value at_ s q =? 0)) errno P1 Q1)
    as (r' & s' & dirty' & E' & Q' & P' & T' & Htr'); cbn [fst snd]; try lia.
  { intros i Hi; destruct (He (i + 1) ltac:(lia)) as (D' & F' & A').
    replace (q + 1 + i) with (q + (i + 1)) by lia; split_and!; auto; [rewrite F'; lia|rewrite A'; f_equal; lia]. }
  exists r', s', dirty'; rewrite E1; split; [exact E'|].
  replace (k + Z.of_nat (S m)) with (k + 1 + Z.of_nat m) by lia.
  replace (q + Z.of_nat (S m)) with (q + 1 + Z.of_nat m) by lia.
  split_and!; auto; [lia|by eapply tracked_trans].
Qed.

End Blocklist.

(** ** Indirect blocks *)

Lemma request_fields k r :
  at_block r0 k r -> blocks_processed r = k /\ first_block r = first_block r0 /\ last_block r = last_block r0 /\
  allocate r = true /\ deallocate r = false /\ abort r = false /\ w_device r = dev /\ ext2_meta r = meta /\
  block_group_nr r = block_group_nr r0 /\ ext2_inode r = ino.
Proof. intros (f & l & ->); by split_and!. Qed.

(** A new buffer. *)
Lemma new_buf_wrote (s : fs_state D) :
  wstate s -> exists s', new_buf kmalloc s = Ok (Some (next s), s') /\ wrote no_block no_cell s s' /\ disk s' = disk s /\
    next s' = S (next s) /\ forall c, (c < next s)%nat -> heap s' c = heap s c.
Proof.
  intros W; destruct (enough (next s)) as [m Em]; unfold new_buf; rewrite Em; eexists; split; [reflexivity|].
  assert (Hh : forall c, (c < next s)%nat -> (<[next s := m]> (heap s)) c = heap s c)
    by (intros; rewrite fn_lookup_insert_ne; [done|lia]).
  destruct W as [W1 W2 W3 W4 W5], (fi_bufs _ _ W1); split_and!; auto; split; cbn; auto; try lia.
  - split; cbn; auto; try lia; [|intros x; by rewrite Hh].
    apply (fs_inv_ext L ops dev s); cbn; auto; try lia; intros x; by rewrite Hh.
  - by intros b _ _ _ o _.
  - intros c x Hc _ _ _; by rewrite Hh.
Qed.

(** The contents of a new buffer change. *)
Lemma buffer_wrote (s s' : fs_state D) buf :
  wstate s -> disk s' = disk s -> vnodes s' = vnodes s -> (next s <= next s')%nat ->
  (forall c, c <> buf -> heap s' c = heap s c) -> buf <> src -> buf <> super -> buf <> table ->
  wrote no_block (fun c _ => c = buf) s s'.
Proof.
  intros [W1 W2 W3 W4 W5] Hd Hv Hn Hh H1 H2 H3; destruct (free_ext L ops dev s s' Hd) as (_ & _ & Hf).
  split; auto.
  - split; try lia; [|intros x; by rewrite Hh by auto|by rewrite Hf].
    apply (fs_inv_ext L ops dev s); auto; intros x; by rewrite Hh by auto.
  - intros b; by rewrite Hf.
  - intros b _ _ _ o _; by rewrite Hd.
  - intros c x _ _ _ Hx; by rewrite Hh.
Qed.

(** What [load_indirect_block] provides. *)
Record loaded (d : nat) (p : ptr) (b : Z) (s : fs_state D) (b1 : Z) (buf : nat) (s1 : fs_state D) : Prop := {
  ld_wrote : wrote (reach (im s) (S d) b) (cell p) s s1;
  ld_cell : load32 (heap s1 p.1) p.2 = b1;
  ld_root : b1 <> 0 /\ (b <> 0 -> b1 = b) /\ (b = 0 -> is_free L s b1);
  ld_buf : (next s <= buf < next s1)%nat;
  ld_tree : tree_ok (good s1) (im s1) (S d) b1;
  ld_words : forall j, 0 <= j < 256 -> load32 (heap s1 buf) (4 * j) = entry (im s1) b1 j;
  ld_empty : b = 0 -> forall j, 0 <= j < 256 -> entry (im s1) b1 j = 0;
  ld_disk : b <> 0 -> disk s1 = disk s;
  ld_total : free_total L s - (if b =? 0 then 1 else 0) <= free_total L s1;
}.

Lemma load_existing d (s : fs_state D) k r p b dirty :
  wstate s -> at_block r0 k r -> cell_ok s p -> load32 (heap s p.1) p.2 = b -> tree_ok (good s) (im s) (S d) b -> b <> 0 ->
  exists buf s1, load_indirect_block drv kmalloc r p dirty 0 s = Ok (Some buf, dirty, 0, s1) /\ loaded d p b s b buf s1.
Proof.
  intros W Hq Hc Hb Ho Hne; destruct (request_fields k r Hq) as (_ & _ & _ & _ & _ & _ & Hdev & _).
  destruct Hc as [C1 (C2 & C3 & C4) C5], (fi_bufs _ _ (ws_inv _ W)) as [Fs Ft].
  unfold load_indirect_block; destruct (new_buf_wrote s W) as (s1 & E1 & W1 & D1 & N1 & H1); rewrite (bind_ok _ _ _ _ _ E1).
  erewrite bind_ok by reflexivity; rewrite H1, Hb, (proj2 (Z.eqb_neq b 0)), Hdev by done.
  assert (Hg : good s b) by (by destruct Ho as [?|[? _]]); destruct Hg as (Hg & _).
  destruct (read_bytes_spec drv ops dev registered kmalloc enough s1 b BLOCK_SIZE (next s, 0) 0)
    as (s2 & E2 & D2 & V2 & N2 & H2 & M2); [apply (ws_inv _ (wr_state _ _ _ _ W1))|done|done|lia| |].
  { rewrite D1, (fi_size _ _ (ws_inv _ W)); unfold BLOCK_SIZE; lia. }
  rewrite (bind_ok _ _ _ _ _ E2); cbn [Z.eqb negb fst snd] in *.
  assert (Hh : forall c, (c < next s)%nat -> heap s2 c = heap s c) by (intros c Hc; rewrite H2 by lia; auto).
  assert (W2 : wrote no_block (fun c _ => c = next s) s1 s2).
  { pose proof (ws_src _ W); apply buffer_wrote; auto; try lia; [apply W1|..]; intros ?; lia. }
  destruct (free_ext L ops dev s s2 ltac:(congruence)) as (_ & Ht & Hf).
  exists (next s), s2; split; [reflexivity|]; split.
  - eapply (wrote_then _ _ _ _ s s1 s2); [apply (wrote_weaken _ _ _ (cell p) _ _ W1); [by intros ? []|by intros ? ? _ []]|exact W2|by intros ? []|].
    intros c x Hc ->; lia.
  - by rewrite Hh.
  - done.
  - lia.
  - destruct (tree_frame (im s) (im s2) (S d) b) as (_ & _ & T); [intros x _ o _; by rewrite D2, D1|].
    apply (T (good s)); [done|]; intros x _ (? & ? & ? & ?); split_and!; auto; try lia; by rewrite Hf.
  - intros j Hj; unfold entry; rewrite D2, D1.
    transitivity (load32 (blit (heap s1 (next s)) 0 (im s1) (b * BLOCK_SIZE + 0) BLOCK_SIZE) (4 * j));
      [by apply load32_ext|]; unfold load32.
    rewrite !blit_in by (unfold BLOCK_SIZE; lia); rewrite D1; by rewrite !Z.add_0_r, !Z.sub_0_r, !Z.add_assoc.
  - done.
  - intros _; congruence.
  - rewrite (proj2 (Z.eqb_neq b 0)) by done; lia.
Qed.


(** A tree without entries. *)
Lemma empty_tree d (s : fs_state D) b :
  good s b -> (forall j, 0 <= j < 256 -> entry (im s) b j = 0) ->
  tree_ok (good s) (im s) (S d) b /\ (forall x, reach (im s) (S d) b x -> x = b) /\
  forall i, 0 <= i < width (S d) -> tree_block (im s) (S d) b i = 0.
Proof.
  intros Hg He; split_and!.
  - right; split; [done|]; split.
    + intros j Hj; rewrite He by done; split; [apply tree_ok_hole|apply reach_hole].
    + intros j k x Hj _ _; rewrite He by done; by intros ?%reach_hole.
  - intros x [_ [->|(j & Hj & Hx)]]; [done|]; rewrite He in Hx by done; by apply reach_hole in Hx.
  - intros i Hi; rewrite width_S in Hi; pose proof (width_pos d); cbn [tree_block]; destruct (b =? 0); [done|].
    fold (entry (im s) b (i / width d)); rewrite He; [by apply tree_block_hole|].
    split; [apply Z.div_pos; lia|apply Z.div_lt_upper_bound; lia].
Qed.

Lemma zero_words (m : mem) p : (forall x, p <= x < p + 4 -> m x = 0) -> load32 m p = 0.
Proof. intros H; unfold load32; rewrite !H by lia; done. Qed.

Lemma load_new d (s : fs_state D) k r p dirty :
  wstate s -> at_block r0 k r -> cell_ok s p -> load32 (heap s p.1) p.2 = 0 -> 0 < free_total L s ->
  exists b1 buf s1, load_indirect_block drv kmalloc r p dirty 0 s = Ok (Some buf, true, 0, s1) /\ loaded d p 0 s b1 buf s1.
Proof.
  intros W Hq Hc Hb Ht; destruct (request_fields k r Hq) as (_ & _ & _ & Hal & _ & _ & Hdev & Hm & Hgr & Hin).
  pose proof Hc as [C1 (C2 & C3 & C4) C5]; destruct (fi_bufs _ _ (ws_inv _ W)) as [Fs Ft].
  unfold load_indirect_block; destruct (new_buf_wrote s W) as (s1 & E1 & W1 & D1 & N1 & H1); rewrite (bind_ok _ _ _ _ _ E1).
  erewrite bind_ok by reflexivity; rewrite H1, Hb by done; cbn [Z.eqb]; do 2 erewrite bind_ok by reflexivity.
  set (s2 := mk_fs _ _ _ _); rewrite Hal, Hm, Hgr, Hin, Hdev.
  assert (B2 : forall c, c <> next s -> heap s2 c = heap s1 c) by (intros; cbn; by rewrite fn_lookup_insert_ne).
  assert (Z2 : forall y, 0 <= y < BLOCK_SIZE -> heap s2 (next s) y = 0) by (intros; cbn; by rewrite fn_lookup_insert, blit_in by lia).
  assert (W2 : wrote no_block (cell p) s s2).
  { pose proof (ws_src _ W).
    eapply (wrote_then _ no_block _ (fun c _ => c = next s) s s1 s2);
      [apply (wrote_weaken _ _ _ (cell p) _ _ W1); [by left|by intros ? ? _ []]| |by intros ? []|intros c x Hc' ->; lia].
    apply buffer_wrote; auto; [apply W1|..]; intros ?; lia. }
  assert (T2 : free_total L s2 = free_total L s) by (by destruct (free_ext L ops dev s s2 D1) as (_ & -> & _)).
  destruct (allocate_to_cell s2 p 0 (wr_state _ _ _ _ W2)) as (b1 & sa & sb & s3 & A1 & A2 & A3 & Hn & F3 & G3 & W3 & P3 & T3 & N3 & H3);
    [by eapply cell_ok_mono|lia|].
  rewrite (bind_ok _ _ _ _ _ A1), (bind_ok _ _ _ _ _ A2), (proj2 (Z.eqb_neq b1 0)), (bind_ok _ _ _ _ _ A3) by done.
  destruct (write_good s3 b1 BLOCK_SIZE (next s, 0) 0 (wr_state _ _ _ _ W3) G3) as (s4 & E4 & W4 & H4 & T4 & N4 & F4 & M4);
    [done..|]; rewrite (bind_ok _ _ _ _ _ E4); cbn [Z.eqb negb].
  assert (Z3 : forall y, 0 <= y < BLOCK_SIZE -> heap s3 (next s) y = 0).
  { intros y Hy; rewrite <- (Z2 y Hy); pose proof (ws_ino _ W); apply H3; cbn; lia. }
  assert (M : forall y, 0 <= y < BLOCK_SIZE -> im s4 (b1 * BLOCK_SIZE + y) = 0).
  { intros y Hy; rewrite M4 by done; cbn [fst snd]; rewrite (proj2 (Z.leb_le 0 y)), (proj2 (Z.ltb_lt _ _)) by lia.
    cbn [andb]; apply Z3; lia. }
  assert (He : forall j, 0 <= j < 256 -> entry (im s4) b1 j = 0).
  { intros j Hj; apply zero_words; intros x Hx; replace x with (b1 * BLOCK_SIZE + (x - b1 * BLOCK_SIZE)) by lia.
    apply M; unfold BLOCK_SIZE in *; lia. }
  assert (Hfree : is_free L s b1) by (by apply (wr_free _ _ _ _ W2)).
  exists b1, (next s), s4; split; [reflexivity|]; split; auto.
  - eapply (wrote_then _ _ _ _ s s3 s4); [|exact W4|by intros ? <-; right|by intros ? ? _ []].
    apply (wrote_weaken no_block _ (cell p) _ s s3); [|by intros ? []|done]; by eapply wrote_trans.
  - by rewrite H4.
  - split_and!; auto; done.
  - cbn in *; lia.
  - apply empty_tree; [by eapply good_mono|done].
  - intros j Hj; rewrite He, H4 by done; apply zero_words; intros x Hx; apply Z3; unfold BLOCK_SIZE; lia.
  - done.
  - rewrite T4, T3, T2; cbn; lia.
Qed.


Lemma load_write d (s : fs_state D) k r p b dirty :
  wstate s -> at_block r0 k r -> cell_ok s p -> load32 (heap s p.1) p.2 = b -> tree_ok (good s) (im s) (S d) b ->
  0 < free_total L s ->
  exists b1 buf s1, load_indirect_block drv kmalloc r p dirty 0 s = Ok (Some buf, dirty || (b =? 0), 0, s1) /\
    loaded d p b s b1 buf s1.
Proof.
  intros W Hq Hc Hb Ho Ht; destruct (Z.eqb_spec b 0) as [->|Hne].
  - rewrite orb_true_r; by apply (load_new d s k).
  - rewrite orb_false_r; exists b; by apply (load_existing d s k).
Qed.

(** The buffer of a loaded block is apart from the others. *)
Lemma loaded_apart d p b s b1 buf s1 :
  wstate s -> cell_ok s p -> loaded d p b s b1 buf s1 ->
  buf <> src /\ buf <> super /\ buf <> table /\ buf <> ino /\ buf <> p.1 /\ array_ok 256 (fun _ => d) (buf_at buf) s1.
Proof.
  intros W [C1 _ _] Ld; pose proof (ld_buf _ _ _ _ _ _ _ Ld); pose proof (ws_ino _ W); pose proof (ws_src _ W).
  destruct (fi_bufs _ _ (ws_inv _ W)); assert (Ha : buf <> src /\ buf <> super /\ buf <> table /\ buf <> ino /\ buf <> p.1) by lia.
  destruct Ha as (? & ? & ? & ? & ?); split_and!; auto; apply (block_array d b1 buf); auto; try lia; [apply Ld..].
Qed.

(** The block is written back if it has changed. *)
Lemma finish_write sets (s : fs_state D) k r p b buf changed visited dirty :
  wstate s -> at_block r0 k r -> load32 (heap s p.1) p.2 = b -> good s b ->
  (changed = false -> forall j, 0 <= j < 256 -> entry (im s) b j = value (buf_at buf) s j) ->
  exists s', finish_indirect drv kmalloc sets r p buf changed visited dirty s = Ok (0, r, dirty, s') /\
    wrote (eq b) no_cell s s' /\ heap s' = heap s /\ free_total L s' = free_total L s /\
    forall j, 0 <= j < 256 -> entry (im s') b j = value (buf_at buf) s j.
Proof.
  intros W Hq Hb Hg Hc; destruct (request_fields k r Hq) as (_ & _ & _ & _ & Hde & _ & Hdev & _).
  unfold finish_indirect; erewrite bind_ok by reflexivity; rewrite Hb, Hde, Hdev.
  destruct changed; [|erewrite bind_ok by reflexivity; cbn [Z.eqb negb]; erewrite bind_ok by reflexivity; rewrite andb_false_r].
  - destruct (write_good s b BLOCK_SIZE (buf, 0) 0 W Hg) as (s' & E & W' & H' & T' & _ & _ & M'); [done..|].
    rewrite (bind_ok _ _ _ _ _ E); cbn [Z.eqb negb]; erewrite bind_ok by reflexivity; rewrite andb_false_r.
    exists s'; split; [reflexivity|]; split_and!; auto; intros j Hj; unfold entry, value, load32, buf_at; cbn [fst snd].
    rewrite <- !Z.add_assoc, !M' by (unfold BLOCK_SIZE; lia); cbn [fst snd].
    rewrite !(proj2 (Z.leb_le 0 _)), !(proj2 (Z.ltb_lt _ _)), ?Z.sub_0_r by (unfold BLOCK_SIZE; lia); done.
  - exists s; split; [reflexivity|]; split_and!; auto; by apply wrote_refl.
Qed.

(** One level: the block is loaded, its entries are visited, and it is finished. *)
Lemma level_done d start (s : fs_state D) p b b1 buf s1 s2 s3 :
  wstate s -> cell_ok s p -> tree_ok (good s) (im s) (S d) b -> loaded d p b s b1 buf s1 ->
  progress 256 (fun _ => d) (buf_at buf) (buf_from d start) s1 256 s2 ->
  wrote (eq b1) no_cell s2 s3 -> (forall j, 0 <= j < 256 -> entry (im s3) b1 j = value (buf_at buf) s2 j) ->
  level_step (S d) start p b s b1 s3.
Proof.
  intros W Hc Ho Ld P Hw He; pose proof (loaded_apart _ _ _ _ _ _ _ W Hc Ld) as (A1 & A2 & A3 & A4 & A5 & Aok).
  destruct Ld as [L1 L2 (L3 & L4 & L5) L6 L7 L8 L9 L10 _].
  destruct (block_done_level d start b1 buf s1 s2 s3 L3 (wr_state _ _ _ _ L1) L7 L8 P Hw He) as [Hw3 Hd3].
  assert (Hroot : b = 0 -> forall x, reach (im s1) (S d) b1 x -> x = b1).
  { intros E; apply empty_tree; [by destruct L7 as [?|[? _]]|by apply L9]. }
  assert (Hre : forall x, reach (im s1) (S d) b1 x -> reach (im s) (S d) b x \/ is_free L s x).
  { intros x Hx; destruct (decide (b = 0)) as [E|E]; [right; rewrite (Hroot E x Hx); auto|left].
    rewrite <- (L10 E), <- (L4 E); done. }
  split.
  - eapply wrote_then; [exact L1|exact Hw3|done|]; intros c x Hcx [->|Hi]; [lia|by right].
  - destruct (decide (b = 0)) as [E|E].
    + destruct Hd3 as [S1 S2 _ S4]; split; [done|intros x [Hx|Hx]%S2; [by apply Hre|right; by apply (wr_free _ _ _ _ L1)]|done|].
      intros i Hi; destruct (S4 i Hi) as [B1 B2 B3 B4]; subst b; rewrite tree_block_hole.
      destruct (empty_tree d s1 b1) as (_ & _ & Hz); [by destruct L7 as [?|[? _]]|by apply L9|].
      rewrite Hz in * by done; split; auto; intros y Hy; destruct (B4 y Hy); split; auto; done.
    + rewrite (L4 E) in *; eapply subtree_before; [|apply L1|exact Hd3]; intros x _ o _; by rewrite (L10 E).
  - rewrite <- L2; apply load32_ext; intros x Hx; destruct Hc as [C1 (C2 & C3 & C4) C5].
    apply (wr_heap _ _ _ _ Hw3); [eapply Nat.lt_le_trans; [exact C1|apply L1]|exact C3|exact C4|].
    intros [E|[E Hx']]; [by apply A5|specialize (C5 E); clear -C5 Hx Hx'; unfold direct, i_blocks in *; lia].
Qed.


Lemma level_finish d start (s : fs_state D) k r p b b1 buf s1 s2 sets changed visited dirty :
  wstate s -> cell_ok s p -> tree_ok (good s) (im s) (S d) b -> loaded d p b s b1 buf s1 ->
  progress 256 (fun _ => d) (buf_at buf) (buf_from d start) s1 256 s2 -> at_block r0 k r ->
  tracked 256 (buf_at buf) false changed s1 s2 ->
  exists s3, finish_indirect drv kmalloc sets r p buf changed visited dirty s2 = Ok (0, r, dirty, s3) /\
    level_step (S d) start p b s b1 s3 /\ free_total L s3 = free_total L s2.
Proof.
  intros W Hc Ho Ld P Hq Htr; pose proof (loaded_apart _ _ _ _ _ _ _ W Hc Ld) as (A1 & A2 & A3 & A4 & A5 & Aok).
  pose proof (pg_wrote _ _ _ _ _ _ _ P) as W2; pose proof (ld_tree _ _ _ _ _ _ _ Ld) as Ht.
  destruct (ld_root _ _ _ _ _ _ _ Ld) as [Hn _]; pose proof Ht as [?|[Hg [Ho1 _]]]; [done|].
  destruct (finish_write sets s2 k r p b1 buf changed visited dirty) as (s3 & E & W3 & _ & T3 & He3).
  - exact (wr_state _ _ _ _ W2).
  - exact Hq.
  - rewrite <- (ld_cell _ _ _ _ _ _ _ Ld); apply load32_ext; intros x Hx; destruct Hc as [C1 (_ & C3 & C4) C5].
    apply (wr_heap _ _ _ _ W2); [eapply Nat.lt_le_trans; [exact C1|apply (ld_wrote _ _ _ _ _ _ _ Ld)]|exact C3|exact C4|].
    intros (j & _ & [[E _]|[E Hx']]); [by apply A5|specialize (C5 E); clear -C5 Hx Hx'; unfold direct, i_blocks in *; lia].
  - by eapply good_mono.
  - intros E j Hj; destruct (Htr E) as [_ ->]; [|done]; unfold value; cbn; rewrite (ld_words _ _ _ _ _ _ _ Ld) by done.
    apply entry_same; [|done]; apply (wr_image _ _ _ _ W2); [apply Hg| |apply Hg].
    intros (i & Hi & Hx); unfold value in Hx; cbn in Hx; rewrite (ld_words _ _ _ _ _ _ _ Ld) in Hx by done; by apply (Ho1 i Hi).
  - exists s3; split; [done|]; split; [|done]; by eapply level_done.
Qed.

(** What a function that visits the blocks below an entry of depth [d] does. *)
Definition writes_level (d : nat) (sub : blocklist_walk_t -> Z -> ptr -> bool -> fsM D (Z * blocklist_walk_t * bool)) : Prop :=
  forall r (s : fs_state D) start p dirty b,
  0 <= start -> start + width d < 2 ^ 32 -> wstate s -> at_block r0 (below r0 start) r -> cell_ok s p ->
  load32 (heap s p.1) p.2 = b -> tree_ok (good s) (im s) d b ->
  Z.of_nat (S d) * (below r0 (start + width d) - below r0 start) <= free_total L s ->
  exists r' s' dirty' b', sub r start p dirty s = Ok (0, r', dirty', s') /\
    at_block r0 (below r0 (start + width d)) r' /\ level_step d start p b s b' s' /\
    free_total L s - Z.of_nat (S d) * (below r0 (start + width d) - below r0 start) <= free_total L s' /\
    (dirty' = false -> dirty = false /\ b' = b).

(** Nothing below the entry is in the request. *)
Lemma level_none d start (s : fs_state D) p b :
  wstate s -> load32 (heap s p.1) p.2 = b -> tree_ok (good s) (im s) d b ->
  (start + width d <= first_block r0 \/ last_block r0 < start) -> level_step d start p b s b s.
Proof.
  intros W Hb Ho Hn; split; [by apply wrote_refl| |done].
  apply subtree_same; auto; [|by intros x _ o _]; intros i Hi; lia.
Qed.

Lemma write_level1 : writes_level 1 (walk_indirect_block drv kmalloc).
Proof.
  intros r s start p dirty b Hs Hw W Hq Hc Hb Ho Ht; change (width 1) with 256 in *.
  destruct (request_fields _ r Hq) as (_ & F1 & F2 & _); pose proof (request_bounds r0 r_ok).
  unfold walk_indirect_block, EXT2_INDIRECT_BLOCKS; rewrite F1, F2, (u32_small (start + 256 - 1)) by lia.
  set (a := if first_block r0 <? start then start else first_block r0).
  set (e := if last_block r0 <=? start + 256 - 1 then last_block r0 else start + 256 - 1).
  assert (Ha : a = Z.max (first_block r0) start) by (unfold a; case_test; lia).
  assert (He : e = Z.min (last_block r0) (start + 255)) by (unfold e; case_test; lia).
  destruct (Z.ltb_spec e a).
  { exists r, s, dirty, b; split; [done|]; replace (below r0 (start + 256)) with (below r0 start) by (unfold below, nblocks; lia).
    split_and!; auto; [apply level_none; auto; change (width 1) with 256|]; lia. }
  assert (Hbel : below r0 start = a - first_block r0 /\ below r0 (start + 256) = e - first_block r0 + 1)
    by (unfold below, nblocks; lia).
  destruct Hbel as [B1 B2]; rewrite B1, B2 in *.
  destruct (load_write 0 s _ r p b dirty W Hq Hc Hb Ho) as (b1 & buf & s1 & E1 & Ld); [lia|].
  rewrite (bind_ok _ _ _ _ _ E1); cbn beta iota.
  destruct (loaded_apart _ _ _ _ _ _ _ W Hc Ld) as (A1 & A2 & A3 & A4 & A5 & Aok).
  assert (Ht1 : e - a + 1 <= free_total L s1) by (pose proof (ld_total _ _ _ _ _ _ _ Ld); destruct (b =? 0); lia).
  assert (P0 : progress 256 (fun _ => 0%nat) (buf_at buf) (buf_from 0 start) s1 (a - start) s1).
  { apply (progress_skip 256 _ _ _ s1 0); [apply progress_start; [apply (ld_wrote _ _ _ _ _ _ _ Ld)|done]|lia..|].
    unfold buf_from; change (width 0) with 1; intros; lia. }
  destruct (write_blocklist 256 (fun _ => 0%nat) (buf_at buf) (buf_from 0 start) s1 (buf_apart buf) (Z.to_nat (e - a + 1))
    (a - start) (a - first_block r0) r s1 (buf, 4 * (a - start)) false 0 P0 Hq) as (r2 & s2 & ch & E2 & Q2 & P2 & T2 & Htr);
    unfold nblocks; try lia.
  { intros i Hi; unfold buf_from, buf_at; change (width 0) with 1; cbn [fst snd]; split_and!; [done|lia|f_equal; lia]. }
  rewrite (bind_ok _ _ _ _ _ E2); cbn [Z.eqb negb].
  rewrite Z2Nat.id in * by lia; replace (a - first_block r0 + (e - a + 1)) with (e - first_block r0 + 1) in Q2 by lia.
  assert (P3 : progress 256 (fun _ => 0%nat) (buf_at buf) (buf_from 0 start) s1 256 s2).
  { apply (progress_skip 256 _ _ _ s1 _ _ _ P2); [lia..|]; unfold buf_from; change (width 0) with 1; intros; lia. }
  destruct (level_finish 0 start s _ r2 p b b1 buf s1 s2 true ch (a - start) (dirty || (b =? 0)) W Hc Ho Ld P3 Q2 Htr)
    as (s3 & E3 & St & T3).
  rewrite E3; exists r2, s3, (dirty || (b =? 0)), b1; split; [done|]; split_and!; auto.
  - pose proof (ld_total _ _ _ _ _ _ _ Ld); destruct (b =? 0); lia.
  - intros [-> Hne%Z.eqb_neq]%orb_false_iff; split; [done|]; by apply (ld_root _ _ _ _ _ _ _ Ld).
Qed.


Lemma write_entries d sub start buf s1 :
  writes_level d sub -> 0 <= start -> start + width (S d) < 2 ^ 32 ->
  forall n q r s changed, 0 <= q -> q + Z.of_nat n = 256 ->
  progress 256 (fun _ => d) (buf_at buf) (buf_from d start) s1 q s -> at_block r0 (below r0 (start + q * width d)) r ->
  Z.of_nat (S d) * (below r0 (start + width (S d)) - below r0 (start + q * width d)) <= free_total L s ->
  exists r' s' changed' q', walk_entries sub (width d) start buf n q r changed s = Ok (0, r', changed', q', s') /\
    at_block r0 (below r0 (start + width (S d))) r' /\
    progress 256 (fun _ => d) (buf_at buf) (buf_from d start) s1 256 s' /\
    free_total L s - Z.of_nat (S d) * (below r0 (start + width (S d)) - below r0 (start + q * width d)) <= free_total L s' /\
    tracked 256 (buf_at buf) changed changed' s s'.
Proof.
  intros Hsub Hs Hw; pose proof (width_pos d) as Hpos; rewrite width_S in *.
  induction n as [|n IH]; intros q r s changed Hq Hn P Hr Ht; cbn [walk_entries].
  { exists r, s, changed, q; assert (q = 256) as -> by lia; split; [done|]; split_and!; auto; [lia|done]. }
  destruct (request_fields _ r Hr) as (F0 & F1 & F2 & _); pose proof (request_bounds r0 r_ok) as Hbd.
  rewrite F0, F1, F2, u32_small by lia; fold (nblocks r0).
  destruct (Z.ltb_spec (below r0 (start + q * width d)) (nblocks r0)) as [Hlt|Hge].
  2:{ assert (first_block r0 + nblocks r0 <= start + q * width d) by (clear -Hge Hbd; unfold below, nblocks in *; lia).
      exists r, s, changed, q; split; [done|].
      replace (below r0 (start + 256 * width d)) with (below r0 (start + q * width d)) in * by (unfold below in *; nia).
      split_and!; auto; [|lia|done].
      apply (progress_skip 256 _ _ _ s1 _ _ _ P); [lia..|]; intros j i Hj Hi; unfold buf_from, nblocks in *; nia. }
  rewrite u32_small by nia; pose proof (pg_ok _ _ _ _ _ _ _ P) as Ao.
  assert (Hmono : below r0 (start + q * width d) <= below r0 (start + (q + 1) * width d) <= below r0 (start + 256 * width d))
    by (clear -Hpos Hq Hn; unfold below; nia).
  replace (start + (q + 1) * width d) with (start + q * width d + width d) in * by lia.
  destruct (Hsub r s (start + q * width d) (buf, 4 * q) changed (value (buf_at buf) s q)) as (r1 & s2 & ch & b1 & E1 & Q1 & St & T1 & Tr1);
    auto; try nia.
  { apply (wr_state _ _ _ _ (pg_wrote _ _ _ _ _ _ _ P)). }
  { apply (ao_cell _ _ _ _ Ao q); lia. }
  { apply (ao_tree _ _ _ _ Ao q); lia. }
  rewrite (bind_ok _ _ _ _ _ E1); cbn [Z.eqb negb].
  destruct (request_fields _ r1 Q1) as (_ & _ & _ & _ & _ & -> & _).
  assert (Hqr : 0 <= q < 256) by lia.
  assert (Ev : value (buf_at buf) s2 q = b1) by apply (ls_cell _ _ _ _ _ _ _ St).
  assert (P1 : progress 256 (fun _ => d) (buf_at buf) (buf_from d start) s1 (q + 1) s2).
  { apply (progress_step 256 _ _ _ (buf_apart buf) s1 q s s2 P Hqr); rewrite Ev; exact St. }
  destruct (IH (q + 1) r1 s2 ch) as (r' & s' & ch' & q' & E' & Q' & P' & T' & Tr'); auto; try lia.
  { by replace (start + (q + 1) * width d) with (start + q * width d + width d) by lia. }
  { replace (start + (q + 1) * width d) with (start + q * width d + width d) by lia; nia. }
  replace (start + (q + 1) * width d) with (start + q * width d + width d) in T' by lia.
  exists r', s', ch', q'; split; [exact E'|]; split_and!; auto; [nia|].
  eapply tracked_trans; [|exact Tr'].
  intros E; destruct (Tr1 E) as [-> Eb]; split; [done|]; intros j Hj.
  destruct (decide (j = q)) as [->|]; [by rewrite Ev|by eapply (step_other 256 _ _ (buf_apart buf) s s2 q)].
Qed.

Lemma write_walk_level d sub r (s : fs_state D) start p dirty b :
  writes_level d sub ->
  0 <= start -> start + width (S d) < 2 ^ 32 -> wstate s -> at_block r0 (below r0 start) r -> cell_ok s p ->
  load32 (heap s p.1) p.2 = b -> tree_ok (good s) (im s) (S d) b ->
  Z.of_nat (S (S d)) * (below r0 (start + width (S d)) - below r0 start) <= free_total L s ->
  0 < below r0 (start + width (S d)) - below r0 start ->
  exists r' s' dirty' b', walk_level drv kmalloc sub (width d) r start p dirty s = Ok (0, r', dirty', s') /\
    at_block r0 (below r0 (start + width (S d))) r' /\ level_step (S d) start p b s b' s' /\
    free_total L s - Z.of_nat (S (S d)) * (below r0 (start + width (S d)) - below r0 start) <= free_total L s' /\
    (dirty' = false -> dirty = false /\ b' = b).
Proof.
  intros Hsub Hs Hw W Hq Hc Hb Ho Ht Hpos.
  set (delta := below r0 (start + width (S d)) - below r0 start) in *.
  assert (Hcost : 1 + Z.of_nat (S d) * delta <= Z.of_nat (S (S d)) * delta /\ 0 <= Z.of_nat (S d) * delta) by (clear -Hpos; nia).
  unfold walk_level; destruct (load_write d s _ r p b dirty W Hq Hc Hb Ho) as (b1 & buf & s1 & E1 & Ld); [lia|].
  rewrite (bind_ok _ _ _ _ _ E1); cbn beta iota.
  destruct (loaded_apart _ _ _ _ _ _ _ W Hc Ld) as (A1 & A2 & A3 & A4 & A5 & Aok).
  pose proof (ld_total _ _ _ _ _ _ _ Ld) as Ht1.
  assert (Ht1' : free_total L s - 1 <= free_total L s1) by (destruct (b =? 0); lia).
  destruct (write_entries d sub start buf s1 Hsub Hs Hw 256 0 r s1 false) as (r2 & s2 & ch & q' & E2 & Q2 & P2 & T2 & Htr);
    rewrite ?Z.mul_0_l, ?Z.add_0_r; fold delta; auto; try lia.
  { apply progress_start; [apply (ld_wrote _ _ _ _ _ _ _ Ld)|done]. }
  rewrite Z.mul_0_l, Z.add_0_r in T2; fold delta in T2.
  change (Z.to_nat EXT2_INDIRECT_BLOCKS) with 256%nat; rewrite (bind_ok _ _ _ _ _ E2); cbn [Z.eqb negb].
  destruct (level_finish d start s _ r2 p b b1 buf s1 s2 false ch q' (dirty || (b =? 0)) W Hc Ho Ld P2 Q2 Htr)
    as (s3 & E3 & St & T3).
  rewrite E3; exists r2, s3, (dirty || (b =? 0)), b1; split; [done|]; split_and!; auto; [lia|].
  intros [-> Hne%Z.eqb_neq]%orb_false_iff; split; [done|]; by apply (ld_root _ _ _ _ _ _ _ Ld).
Qed.

Lemma write_level2 : writes_level 2 (walk_double_indirect_block drv kmalloc).
Proof.
  intros r s start p dirty b Hs Hw W Hq Hc Hb Ho Ht.
  destruct (request_fields _ r Hq) as (_ & F1 & F2 & _); pose proof (request_bounds r0 r_ok).
  unfold walk_double_indirect_block, EXT2_DOUBLE_INDIRECT_BLOCKS, EXT2_INDIRECT_BLOCKS; change (width 2) with 65536 in *.
  rewrite F1, F2, (u32_small (start + 256 * 256 - 1)) by lia.
  destruct (Z.ltb_spec (start + 256 * 256 - 1) (first_block r0)), (Z.ltb_spec (last_block r0) start); cbn [orb];
    [exists r, s, dirty, b; split; [done|];
     replace (below r0 (start + 65536)) with (below r0 start) by (unfold below, nblocks; lia);
     split_and!; auto; [apply level_none; auto; change (width 2) with 65536|]; lia..|].
  apply (write_walk_level 1 _ r s start p dirty b write_level1); auto; change (width 2) with 65536; unfold below, nblocks; lia.
Qed.


(** ** The inode *)

Definition inode_dep (j : Z) : nat := if j <? 12 then O else Z.to_nat (j - 11).
Definition inode_at (j : Z) : ptr := (ino, direct + 4 * j).
Definition inode_from (j : Z) : Z := if j <? 12 then j else if j <? 13 then 12 else if j <? 14 then 268 else 65804.

Lemma inode_apart j k : 0 <= j < 15 -> 0 <= k < 15 -> j <> k ->
  (inode_at j).1 <> (inode_at k).1 \/ (inode_at j).2 + 4 <= (inode_at k).2 \/ (inode_at k).2 + 4 <= (inode_at j).2.
Proof. cbn; lia. Qed.

Section File.
Context (s0 : fs_state D) (W0 : wstate s0) (A0 : array_ok 15 inode_dep inode_at s0).
Context (r_blocks : blocks_processed r0 = 0) (r_bytes : bytes_processed r0 = 0).
Context (room : 4 * nblocks r0 <= free_total L s0).

(** The entries before [q], for the blocks of the file before [x], have been visited. *)
Definition write_upto (x q : Z) (r : blocklist_walk_t) (s : fs_state D) : Prop :=
  at_block r0 (below r0 x) r /\ progress 15 inode_dep inode_at inode_from s0 q s /\
  free_total L s0 - 4 * below r0 x <= free_total L s.

Lemma upto_request x q r s :
  write_upto x q r s -> unfinished r = (below r0 x <? nblocks r0) /\ first_block r = first_block r0 /\ abort r = false.
Proof.
  intros [R _]; pose proof (request_bounds r0 r_ok); unfold unfinished.
  destruct (request_fields _ _ R) as (F0 & F1 & F2 & _ & _ & F3 & _).
  by rewrite F0, F1, F2, u32_small by lia.
Qed.

(** An area without blocks of the request. *)
Lemma upto_skip x y q r s :
  below r0 x = below r0 y -> 0 <= q < 15 -> inode_from q = x -> width (inode_dep q) = y - x ->
  write_upto x q r s -> write_upto y (q + 1) r s.
Proof.
  intros E Hq Hx Hy (R & P & T); unfold write_upto; rewrite <- E; split_and!; auto.
  apply (progress_skip _ _ _ _ _ _ _ _ P); [lia..|]; intros j i Hj; assert (j = q) as -> by lia.
  pose proof (request_bounds r0 r_ok); rewrite Hx, Hy; unfold below, nblocks in E; lia.
Qed.

(** A walk through the tree of entry [q]. *)
Lemma upto_step x y q d r s r' s' b' :
  write_upto x q r s -> 0 <= q < 15 -> inode_from q = x -> inode_dep q = d ->
  at_block r0 (below r0 y) r' -> level_step d x (inode_at q) (value inode_at s q) s b' s' ->
  free_total L s - 4 * (below r0 y - below r0 x) <= free_total L s' -> write_upto y (q + 1) r' s'.
Proof.
  intros (R & P & T) Hq Hx Hd R' St T'; split_and!; [done| |lia].
  apply (progress_step 15 inode_dep inode_at inode_from inode_apart s0 q s s' P Hq).
  assert (value inode_at s' q = b') as -> by apply (ls_cell _ _ _ _ _ _ _ St); by rewrite Hx, Hd.
Qed.

Lemma write_area d sub x q r s dirty :
  writes_level d sub -> (d <= 3)%nat -> write_upto x q r s -> 0 <= q < 15 -> inode_from q = x -> inode_dep q = d ->
  0 <= x -> x + width d < 2 ^ 32 ->
  exists r' s' dirty', sub r x (inode_at q) dirty s = Ok (0, r', dirty', s') /\ write_upto (x + width d) (q + 1) r' s'.
Proof.
  intros Hsub Hd3 U Hq Hx Hd H0 Hw; pose proof U as (R & P & T); pose proof (pg_ok _ _ _ _ _ _ _ P) as Ao.
  pose proof (width_pos d); pose proof (request_bounds r0 r_ok) as Hbd.
  assert (Hc : Z.of_nat (S d) * (below r0 (x + width d) - below r0 x) <= 4 * (below r0 (x + width d) - below r0 x) /\
    below r0 (x + width d) <= nblocks r0).
  { split; [apply Z.mul_le_mono_nonneg_r; [unfold below|]; lia|unfold below, nblocks; lia]. }
  destruct (Hsub r s x (inode_at q) dirty (value inode_at s q)) as (r' & s' & dirty' & b' & E & Q & St & T' & _); auto; try lia.
  - apply (wr_state _ _ _ _ (pg_wrote _ _ _ _ _ _ _ P)).
  - by apply (ao_cell _ _ _ _ Ao).
  - rewrite <- Hd; by apply (ao_tree _ _ _ _ Ao).
  - exists r', s', dirty'; split; [done|]; eapply upto_step; eauto; lia.
Qed.

Lemma write_start : at_block r0 0 r0.
Proof.
  assert (E0 : done_bytes r0 0 = 0).
  { unfold done_bytes, BLOCK_SIZE; pose proof (rq_bytes _ r_ok); Z.div_mod_to_equations; lia. }
  exists (first_byte r0), (last_byte r0); rewrite E0; destruct r0; cbn in *; by subst.
Qed.

Lemma write_direct :
  exists r s dirty, (if first_block r0 <=? EXT2_LAST_DIRECT then
      let direct_end := if EXT2_LAST_DIRECT <? last_block r0 then EXT2_LAST_DIRECT else last_block r0 in
      walk_blocklist drv kmalloc (Z.to_nat (direct_end - first_block r0 + 1)) r0 (ino, direct + 4 * first_block r0) false 0
    else mret (0, r0, false)) s0 = Ok (0, r, dirty, s) /\ write_upto 12 12 r s.
Proof.
  pose proof (request_bounds r0 r_ok) as Hbd; pose proof write_start as Q0; unfold EXT2_LAST_DIRECT.
  pose proof (progress_start 15 inode_dep inode_at inode_from s0 W0 A0) as P0.
  assert (Hskip : forall q q' s, progress 15 inode_dep inode_at inode_from s0 q s -> 0 <= q <= q' -> q' <= 12 ->
    (q' <= first_block r0 \/ last_block r0 < q \/ q = q') -> progress 15 inode_dep inode_at inode_from s0 q' s).
  { intros q q' s P H1 H2 H3; apply (progress_skip _ _ _ _ _ _ _ _ P); [lia..|]; intros j i Hj.
    unfold inode_from, inode_dep; rewrite (proj2 (Z.ltb_lt _ _)) by lia; change (width 0) with 1; lia. }
  destruct (Z.leb_spec (first_block r0) 11) as [Hf|Hf]; cbv zeta.
  2:{ exists r0, s0, false; split; [done|]; unfold write_upto.
      replace (below r0 12) with 0 by (unfold below, nblocks; lia); split_and!; auto; [apply (Hskip 0); auto|]; lia. }
  set (e := if 11 <? last_block r0 then 11 else last_block r0).
  assert (He : e = Z.min 11 (last_block r0)) by (unfold e; case_test; lia).
  destruct (write_blocklist 15 inode_dep inode_at inode_from s0 inode_apart (Z.to_nat (e - first_block r0 + 1)) (first_block r0) 0 r0 s0
    (ino, direct + 4 * first_block r0) false 0) as (r1 & s1 & dirty & E1 & Q1 & P1 & T1 & _); auto;
    [apply (Hskip 0); auto; lia|unfold nblocks in *; lia..| |].
  { intros i Hi; unfold inode_dep, inode_from, inode_at; rewrite !(proj2 (Z.ltb_lt _ _)) by lia; cbn [fst snd].
    split_and!; [done|lia|f_equal; lia]. }
  exists r1, s1, dirty; split; [exact E1|]; unfold write_upto.
  replace (below r0 12) with (0 + Z.of_nat (Z.to_nat (e - first_block r0 + 1))) by (unfold below, nblocks; lia).
  split_and!; auto; [apply (Hskip _ 12 s1 P1)|]; lia.
Qed.

Lemma write_file :
  exists r s, walk_file drv kmalloc r0 s0 = Ok (0, r, s) /\ at_block r0 (nblocks r0) r /\
    progress 15 inode_dep inode_at inode_from s0 15 s /\ free_total L s0 - 4 * nblocks r0 <= free_total L s.
Proof.
  pose proof (request_bounds r0 r_ok) as Hbd; unfold walk_file; rewrite r_ino.
  destruct write_direct as (r1 & s1 & d1 & E1 & U1); rewrite (bind_ok _ _ _ _ _ E1); cbn [Z.eqb negb]; clear E1.
  change EXT2_LAST_DIRECT with 11; change EXT2_LAST_INDIRECT with 267; change EXT2_LAST_DOUBLE_INDIRECT with 65803.
  set (m2 := if unfinished r1 && _ then _ else _).
  assert (exists r2 s2 d2, m2 s1 = Ok (0, r2, d2, s2) /\ write_upto 268 13 r2 s2) as (r2 & s2 & d2 & E2 & U2).
  { unfold m2; destruct (upto_request _ _ _ _ U1) as (-> & -> & _).
    destruct (Z.ltb_spec (below r0 12) (nblocks r0)), (Z.leb_spec (first_block r0) 267); cbn [andb];
      [|exists r1, s1, d1; split; [done|]; apply (upto_skip 12 268 12); [unfold below, nblocks in *; lia|done..]..].
    by apply (write_area 1 _ 12 12 r1 s1 d1 write_level1); auto. }
  rewrite (bind_ok _ _ _ _ _ E2); cbn [Z.eqb negb]; clear m2 E2.
  set (m3 := if unfinished r2 && _ && _ then _ else _).
  assert (exists r3 s3 d3, m3 s2 = Ok (0, r3, d3, s3) /\ write_upto 65804 14 r3 s3) as (r3 & s3 & d3 & E3 & U3).
  { unfold m3; destruct (upto_request _ _ _ _ U2) as (-> & -> & ->).
    destruct (Z.ltb_spec (below r0 268) (nblocks r0)), (Z.leb_spec (first_block r0) 65803); cbn [andb negb];
      [|exists r2, s2, d2; split; [done|]; apply (upto_skip 268 65804 13); [unfold below, nblocks in *; lia|done..]..].
    by apply (write_area 2 _ 268 13 r2 s2 d2 write_level2); auto. }
  rewrite (bind_ok _ _ _ _ _ E3); cbn [Z.eqb negb]; clear m3 E3.
  destruct (upto_request _ _ _ _ U3) as (-> & _ & ->); rewrite andb_true_r.
  assert (Hend : nblocks r0 = below r0 (65804 + width 3)) by (change (width 3) with 16777216; unfold below, nblocks; lia).
  destruct (Z.ltb_spec (below r0 65804) (nblocks r0)) as [Hlt|Hge].
  2:{ assert (Hs : below r0 65804 = below r0 (65804 + width 3)) by (rewrite <- Hend; unfold below in *; lia).
      destruct (upto_skip 65804 (65804 + width 3) 14 r3 s3) as (R & P & T); auto; [by change (inode_dep 14) with 3%nat; lia|].
      exists r3, s3; rewrite Hend; done. }
  destruct U3 as (R3 & P3 & T3); pose proof (pg_ok _ _ _ _ _ _ _ P3) as Ao.
  destruct (write_walk_level 2 _ r3 s3 65804 (inode_at 14) false (value inode_at s3 14) write_level2)
    as (r4 & s4 & d4 & b4 & E4 & R4 & St & T4 & _); auto; rewrite <- ?Hend; try lia.
  - done.
  - apply (wr_state _ _ _ _ (pg_wrote _ _ _ _ _ _ _ P3)).
  - apply (ao_cell _ _ _ _ Ao); lia.
  - by apply (ao_tree _ _ _ _ Ao 14).
  - exists r4, s4; rewrite Hend; split; [|split; [done|]].
    + unfold walk_triple_indirect_block; change EXT2_DOUBLE_INDIRECT_BLOCKS with (width 2).
      change (ino, indirect3) with (inode_at 14); by rewrite (bind_ok _ _ _ _ _ E4).
    + eapply (upto_step 65804 (65804 + width 3) 14 3 r3 s3 r4 s4 b4); done.
Qed.

End File.
End Write.
