(* ===== verification/Ext2File.v ===== *)
(** * EXT2: writing a file

    The entries of an inode as one tree per entry, and the theorem about
    [fs_ext2_inode_write]. *)

From S2P Require Import Prelude Errors Memory Lists BlockDev BlockDevProofs.
Import Lists BlockDev BlockDevProofs.
From S2P Require Import Ext2 Ext2Read Ext2Alloc Ext2Tree Ext2Write.

(** ** Files *)

(** Where the inode [nr] is on the disk, and the block that holds it. *)
Definition inode_pos (L : layout) (nr : Z) : Z :=
  l_inode_table L ((nr - 1) / l_inodes L) * BLOCK_SIZE + (nr - 1) mod l_inodes L * sizeof_inode.
Definition inode_block (L : layout) (nr : Z) : Z := inode_pos L nr / BLOCK_SIZE.

Definition inode_entry (m : mem) (j : Z) : Z := load32 m (direct + 4 * j).

(** Block [x] belongs to the file. *)
Definition file_blocks (im m : mem) (x : Z) : Prop :=
  exists j, 0 <= j < 15 /\ reach im (inode_dep j) (inode_entry m j) x.

Definition max_blocks : Z := 65804 + 16777216.

(** The entry of the inode that leads to block [k]. *)
Lemma file_entry k :
  0 <= k < max_blocks ->
  exists j, 0 <= j < 15 /\ 0 <= k - inode_from j < width (inode_dep j) /\
    forall im m, file_block im m k = tree_block im (inode_dep j) (inode_entry m j) (k - inode_from j).
Proof.
  intros Hk; unfold file_block, max_blocks in *.
  change EXT2_LAST_DIRECT with 11; change EXT2_LAST_INDIRECT with 267; change EXT2_LAST_DOUBLE_INDIRECT with 65803.
  destruct (Z.leb_spec k 11).
  { exists k; unfold inode_from, inode_dep; rewrite (proj2 (Z.ltb_lt _ _)) by lia; change (width 0) with 1.
    split; [lia|]; split; [lia|done]. }
  destruct (Z.leb_spec k 267); [exists 12; change (width (inode_dep 12)) with 256; change (inode_from 12) with 12; split_and!; done || lia|].
  destruct (Z.leb_spec k 65803); [exists 13; change (width (inode_dep 13)) with 65536; change (inode_from 13) with 268; split_and!; done || lia|].
  exists 14; change (width (inode_dep 14)) with 16777216; change (inode_from 14) with 65804; split_and!; done || lia.
Qed.

Section Write.
Context (L : layout) (Lo : layout_ok L).
Context {D : Type} (drv : drivers D) (ops : blk_dev_ops_t D) (dev : Z) `{!BlockDevice ops (MINOR dev)}.
Context (registered : drv (MAJOR dev) = DRIVER_BLK ops) (meta_dev : device (l_meta L) = dev).
Context (kmalloc : nat -> option mem) (enough : forall n, is_Some (kmalloc n)).
Context (ib : Z).

#[local] Abbreviation super := (ext2_super (l_meta L)).
#[local] Abbreviation table := (bgdt (l_meta L)).
#[local] Abbreviation im s := (image (disk s)).
#[local] Abbreviation good := (good L ops dev ib).

(** The trees of the file are well formed and do not overlap. *)
Record file_ok (s : fs_state D) (ino : nat) : Prop := {
  fo_tree : forall j, 0 <= j < 15 -> tree_ok (good s) (im s) (inode_dep j) (inode_entry (heap s ino) j);
  fo_apart : forall j k x, 0 <= j < 15 -> 0 <= k < 15 -> j <> k ->
    reach (im s) (inode_dep j) (inode_entry (heap s ino) j) x -> ~ reach (im s) (inode_dep k) (inode_entry (heap s ino) k) x;
}.

Lemma file_block_good s ino k :
  file_ok s ino -> 0 <= k < max_blocks -> file_block (im s) (heap s ino) k <> 0 -> good s (file_block (im s) (heap s ino) k).
Proof.
  intros Ho Hk; destruct (file_entry k Hk) as (j & Hj & Hi & ->); intros Hne.
  eapply tree_ok_reach; [by apply Ho|by apply tree_block_reach].
Qed.

(** A change of other blocks. *)
Lemma file_kept s s' ino ino' :
  file_ok s ino -> (forall x, is_free L s' x -> is_free L s x) ->
  (forall x, good s x -> same_block (im s) (im s') x) ->
  (forall j, 0 <= j < 15 -> inode_entry (heap s' ino') j = inode_entry (heap s ino) j) ->
  file_ok s' ino' /\ forall k, 0 <= k < max_blocks -> file_block (im s') (heap s' ino') k = file_block (im s) (heap s ino) k.
Proof.
  intros [O1 O2] Hf Hs He.
  assert (Ht : forall j, 0 <= j < 15 -> forall x, reach (im s) (inode_dep j) (inode_entry (heap s ino) j) x -> same_block (im s) (im s') x)
    by (intros j Hj x Hx; apply Hs; by eapply tree_ok_reach; eauto).
  split; [split|].
  - intros j Hj; rewrite He by done; destruct (tree_frame _ _ _ _ (Ht j Hj)) as (_ & _ & T); apply (T (good s)); [by apply O1|].
    intros x _ (? & ? & ? & ?); split_and!; auto; lia.
  - intros j k x Hj Hk Hne; rewrite !He by done.
    rewrite (proj1 (tree_frame _ _ _ _ (Ht j Hj))), (proj1 (tree_frame _ _ _ _ (Ht k Hk))); by apply O2.
  - intros k Hk; destruct (file_entry k Hk) as (j & Hj & Hi & Hb); rewrite !Hb, He by done.
    by apply (tree_frame _ _ _ _ (Ht j Hj)).
Qed.

(** The walk of a write request through the file. *)
Lemma write_walk r0 ino src base (s : fs_state D) :
  request_ok r0 -> w_data r0 = (src, base) -> w_device r0 = dev -> process r0 = EXT2_OP_WRITE -> allocate r0 = true ->
  deallocate r0 = false -> zero r0 = false -> abort r0 = false -> ext2_inode r0 = ino -> ext2_meta r0 = l_meta L ->
  0 <= block_group_nr r0 < groups L -> ino <> src -> ino <> super /\ ino <> table -> src <> super /\ src <> table ->
  fs_inv L s -> (ino < next s)%nat -> (src < next s)%nat -> ~ is_free L s ib -> file_ok s ino ->
  blocks_processed r0 = 0 -> bytes_processed r0 = 0 -> 4 * nblocks r0 <= free_total L s ->
  exists r s', walk_file drv kmalloc r0 s = Ok (0, r, s') /\ at_block r0 (nblocks r0) r /\
    wrote L ops dev ino src ib (heap s src) (file_blocks (im s) (heap s ino))
      (fun c x => c = ino /\ (i_blocks <= x < i_blocks + 4 \/ direct <= x < direct + 60)) s s' /\
    file_ok s' ino /\ free_total L s - 4 * nblocks r0 <= free_total L s' /\
    forall k, 0 <= k < max_blocks ->
      block_done r0 base (heap s src) k (file_block (im s) (heap s ino) k) (file_block (im s') (heap s' ino) k) (im s) (im s').
Proof.
  intros Q Qd Qv Qp Qa Qe Qz Qt Qi Qm Qg H1 H2 H3 I Hi Hs Hib Ho Qb Qn Hroom.
  destruct (write_file L Lo drv ops dev registered meta_dev kmalloc enough r0 ino src base ib (heap s src)
    Q Qd Qv Qp Qa Qe Qz Qt Qi Qm Qg H1 H2 H3 s) as (r & s' & E & R & P & T); auto.
  - by split.
  - destruct Ho as [O1 O2], H2; split; [|exact O1|exact O2]; intros j Hj; split; cbn; auto; unfold direct; lia.
  - destruct P as [P1 P2 P3 _ _]; exists r, s'; split; [exact E|]; split; [exact R|]; split_and!.
    + apply (wrote_weaken _ _ _ _ _ _ _ _ _ _ _ _ _ P1); [by left|].
      intros c x _ (j & Hj & [[-> Hx]|[-> Hx]]); cbn in *; (split; [done|]); lia.
    + split; [apply (ao_tree _ _ _ _ _ _ _ _ _ _ P2)|apply (ao_apart _ _ _ _ _ _ _ _ _ _ P2)].
    + exact T.
    + intros k Hk; destruct (file_entry k Hk) as (j & Hj & Hij & Hb); rewrite !Hb.
      pose proof (sd_blocks _ _ _ _ _ _ _ _ _ _ _ _ _ (P3 j Hj) _ Hij) as B.
      by rewrite Zplus_minus in B.
Qed.


(** ** The inode on the disk *)

Lemma inode_location nr :
  0 < l_inodes L < 2 ^ 25 -> 0 < nr <= groups L * l_inodes L -> nr < 2 ^ 32 ->
  let g := u32 (nr - 1) / l_inodes L in
  0 <= g < groups L /\
  inode_pos L nr = l_inode_table L g * BLOCK_SIZE + u32 (u32 (nr - 1) mod l_inodes L * sizeof_inode) /\
  0 <= u32 (u32 (nr - 1) mod l_inodes L * sizeof_inode).
Proof.
  intros Hi Hn Hw; cbv zeta; rewrite (u32_small (nr - 1)) by lia; unfold inode_pos, sizeof_inode.
  pose proof (Z.mod_pos_bound (nr - 1) (l_inodes L)); rewrite u32_small by lia; split_and!; auto; try lia.
  - apply Z.div_pos; lia.
  - apply Z.div_lt_upper_bound; lia.
Qed.

Lemma put_inode_ok (s : fs_state D) inode :
  let nr := inode_nr (vnodes s inode) in
  fs_inv L s -> 0 < l_inodes L < 2 ^ 25 -> 0 < nr <= groups L * l_inodes L -> nr < 2 ^ 32 -> inode_block L nr = ib ->
  0 <= l_inode_table L ((nr - 1) / l_inodes L) -> 0 < ib < l_blocks L -> ~ reserved L ib ->
  exists s', put_inode drv kmalloc (l_meta L) inode s = Ok (0, s') /\ fs_inv L s' /\ heap s' = heap s /\
    vnodes s' = vnodes s /\ (next s <= next s')%nat /\ (forall x, is_free L s' x <-> is_free L s x) /\
    free_total L s' = free_total L s /\
    (forall x, im s' x = blit (im s) (inode_pos L nr) (heap s (Ext2.data (vnodes s inode))) 0 sizeof_inode x) /\
    forall b, b <> ib -> same_block (im s) (im s') b.
Proof.
  intros nr I Hl Hn Hw Hib Ht Hb Hr; destruct (inode_location nr Hl Hn Hw) as (Hg & Hpos & Hoff).
  unfold put_inode; do 3 erewrite bind_ok by reflexivity; cbn [fst snd]; fold nr.
  destruct (fi_super _ _ I) as (_ & _ & _ & ->).
  rewrite (proj2 (fi_table _ _ I _ Hg)), meta_dev.
  set (g := u32 (nr - 1) / l_inodes L) in *; set (off := u32 (u32 (nr - 1) mod l_inodes L * sizeof_inode)) in *.
  assert (Eg : g = (nr - 1) / l_inodes L) by (unfold g; by rewrite u32_small by lia).
  assert (Hin : ib * BLOCK_SIZE <= inode_pos L nr /\ inode_pos L nr + sizeof_inode <= (ib + 1) * BLOCK_SIZE).
  { rewrite <- Hib; unfold inode_block, inode_pos, sizeof_inode, BLOCK_SIZE in *; clear.
    generalize (l_inode_table L ((nr - 1) / l_inodes L)) ((nr - 1) mod l_inodes L); intros a c; Z.div_mod_to_equations; lia. }
  destruct (write_bytes_spec drv ops dev registered kmalloc enough s (l_inode_table L g) sizeof_inode
    (Ext2.data (vnodes s inode), 0) off) as (s' & E & R & S & V & N & P & M); [apply I|done|done|by rewrite Eg| |].
  { rewrite (fi_size _ _ I), <- Hpos; unfold BLOCK_SIZE in *; lia. }
  rewrite <- Hpos in M; cbn [fst snd] in M.
  assert (Ms : forall b, b <> ib -> same_block (im s) (im s') b).
  { intros b Hne o Ho; rewrite M, blit_out; [done|unfold BLOCK_SIZE in *; lia]. }
  rewrite (bind_ok _ _ _ _ _ E); exists s'; split; [reflexivity|].
  destruct (inv_blocks L Lo ops dev s s' I) as (I' & F' & T'); auto; [lia|by intros b Hb'; apply Ms; intros ->|].
  split_and!; auto; lia.
Qed.


(** The size and the time of the last change, in the buffer and in [inode]. *)
Record header (ino inode : nat) (s s' : fs_state D) : Prop := {
  hd_disk : disk s' = disk s;
  hd_next : next s' = next s;
  hd_heap : forall c, c <> ino -> heap s' c = heap s c;
  hd_ino : forall x, ~ (i_size <= x < i_size + 4) -> ~ (i_mtime <= x < i_mtime + 4) -> heap s' ino x = heap s ino x;
  hd_other : forall i, i <> inode -> vnodes s' i = vnodes s i;
  hd_node : Ext2.data (vnodes s' inode) = Ext2.data (vnodes s inode) /\ inode_nr (vnodes s' inode) = inode_nr (vnodes s inode) /\
    Ext2.dev (vnodes s' inode) = Ext2.dev (vnodes s inode);
}.

Lemma header_refl ino inode s : header ino inode s s.
Proof. by split. Qed.

Lemma header_trans ino inode s1 s2 s3 : header ino inode s1 s2 -> header ino inode s2 s3 -> header ino inode s1 s3.
Proof.
  intros [A1 A2 A3 A4 A5 (A6 & A7 & A8)] [B1 B2 B3 B4 B5 (B6 & B7 & B8)]; split; try congruence.
  - intros c Hc; by rewrite B3, A3.
  - intros x H1 H2; by rewrite B4, A4.
  - intros i Hi; by rewrite B5, A5.
  - split_and!; congruence.
Qed.

Lemma header_size ino inode (s : fs_state D) v w :
  0 <= v < 2 ^ 32 ->
  exists s', (st32 (ino, i_size) v ;; i ← get_vnode inode; set_vnode inode (set_size w i)) s = Ok ((), s') /\
    header ino inode s s' /\ load32 (heap s' ino) i_size = v /\ Ext2.size (vnodes s' inode) = w.
Proof.
  intros Hv; eexists; split; [reflexivity|]; cbn; rewrite !fn_lookup_insert; split; [|split; [by apply load32_store32_same|done]].
  split; cbn; rewrite ?fn_lookup_insert; auto.
  - intros c Hc; by rewrite fn_lookup_insert_ne.
  - intros x Hx _; by apply store32_other.
  - intros i Hi; by rewrite fn_lookup_insert_ne.
Qed.

Lemma header_mtime ino inode (s : fs_state D) v w :
  exists s', (st32 (ino, i_mtime) v ;; i ← get_vnode inode; set_vnode inode (set_mtime w i) ;; put_inode drv kmalloc (l_meta L) inode) s =
      put_inode drv kmalloc (l_meta L) inode s' /\
    header ino inode s s' /\ load32 (heap s' ino) i_size = load32 (heap s ino) i_size /\
    Ext2.size (vnodes s' inode) = Ext2.size (vnodes s inode).
Proof.
  eexists; split; [do 3 erewrite bind_ok by reflexivity; reflexivity|]; cbn; rewrite !fn_lookup_insert.
  split; [|split; [apply load32_store32_other; unfold i_size, i_mtime; lia|done]].
  split; cbn; rewrite ?fn_lookup_insert; auto.
  - intros c Hc; by rewrite fn_lookup_insert_ne.
  - intros x _ Hx; by apply store32_other.
  - intros i Hi; by rewrite fn_lookup_insert_ne.
Qed.

(** The new size, if the file grows. *)
Lemma header_grow ino inode (s : fs_state D) (b : bool) v :
  0 <= v < 2 ^ 31 -> b = (load32 (heap s ino) i_size <? v) ->
  exists s', (if b then st32 (ino, i_size) v ;; i ← get_vnode inode; set_vnode inode (set_size (s32 v) i) else mret ()) s = Ok ((), s') /\
    header ino inode s s' /\ load32 (heap s' ino) i_size = Z.max (load32 (heap s ino) i_size) v /\
    (Ext2.size (vnodes s inode) = load32 (heap s ino) i_size -> Ext2.size (vnodes s' inode) = load32 (heap s' ino) i_size).
Proof.
  intros Hv ->; destruct (Z.ltb_spec (load32 (heap s ino) i_size) v).
  - destruct (header_size ino inode s v (s32 v)) as (s' & E & H1 & H2 & H3); [lia|].
    exists s'; split; [exact E|]; split_and!; auto; [lia|]; rewrite H2, H3, s32_small; [done|lia].
  - exists s; split; [done|]; split_and!; [apply header_refl|lia|auto].
Qed.

End Write.

(** ** Writing *)

Lemma init_request_write sz ino n off data dev meta group :
  0 <= off -> 0 < n -> off + n < 2 ^ 31 ->
  let r := init_request sz ino n off data dev EXT2_OP_WRITE meta group in
  request_ok r /\ bytes r = n /\ offset r = off /\ w_data r = data /\ w_device r = dev /\
  process r = EXT2_OP_WRITE /\ allocate r = true /\ deallocate r = false /\ zero r = false /\ abort r = false /\
  ext2_inode r = ino /\ ext2_meta r = meta /\ block_group_nr r = group /\ blocks_processed r = 0 /\ bytes_processed r = 0.
Proof.
  intros Ho Hn He; unfold init_request; cbn -[Z.quot].
  rewrite (u32_small n), (u32_small off) by lia; rewrite Z.quot_div_nonneg by (unfold BLOCK_SIZE; lia); rewrite andb_false_r.
  assert (0 <= off / BLOCK_SIZE < 2 ^ 32) by (unfold BLOCK_SIZE; Z.div_mod_to_equations; lia).
  rewrite (u32_small (off / _)), (u32_small (off + _ - 1)) by lia.
  split_and!; auto; split; cbn; auto; lia.
Qed.

Section Statement.
Context (L : layout) {D : Type} (ops : blk_dev_ops_t D) (device : Z) `{!BlockDevice ops (MINOR device)}.
Context (inode : nat) (n off : Z) (data : ptr).

(** What a write of [n] bytes at [off] needs: an inode of this file system in an
    allocated block, whose trees are well formed, buffers of their own, and enough
    free blocks for the data and the indirect blocks. *)
Record writable (s : fs_state D) : Prop := {
  wb_inv : fs_inv L s;
  wb_dev : dev (vnodes s inode) = device;
  wb_inode : let ino := Ext2.data (vnodes s inode) in
    (ino < next s)%nat /\ ino <> data.1 /\ ino <> ext2_super (l_meta L) /\ ino <> bgdt (l_meta L);
  wb_data : (data.1 < next s)%nat /\ data.1 <> ext2_super (l_meta L) /\ data.1 <> bgdt (l_meta L);
  wb_number : let nr := inode_nr (vnodes s inode) in
    0 < nr <= groups L * l_inodes L /\ nr < 2 ^ 32 /\ 0 <= l_inode_table L ((nr - 1) / l_inodes L);
  wb_table : let ib := inode_block L (inode_nr (vnodes s inode)) in
    0 < ib < l_blocks L /\ ~ reserved L ib /\ ~ is_free L s ib;
  wb_file : file_ok L ops device (inode_block L (inode_nr (vnodes s inode))) s (Ext2.data (vnodes s inode));
  wb_size : 0 <= load32 (heap s (Ext2.data (vnodes s inode))) i_size < 2 ^ 31;
  wb_range : 0 <= off /\ 0 < n /\ off + n < 2 ^ 31;
  wb_room : 4 * ((off + n - 1) / BLOCK_SIZE - off / BLOCK_SIZE + 1) <= free_total L s;
}.

(** The file after the write, and what has not changed. *)
Record written (s s' : fs_state D) : Prop := {
  wt_inv : fs_inv L s';
  wt_file : file_ok L ops device (inode_block L (inode_nr (vnodes s inode))) s' (Ext2.data (vnodes s inode));
  wt_bytes : let ino := Ext2.data (vnodes s inode) in
    forall x, off <= x < off + n -> file_byte (image (disk s')) (heap s' ino) x = heap s data.1 (data.2 + (x - off));
  wt_rest : let ino := Ext2.data (vnodes s inode) in
    forall x, 0 <= x < max_blocks * BLOCK_SIZE -> ~ (off <= x < off + n) ->
    (file_block (image (disk s)) (heap s ino) (x / BLOCK_SIZE) <> 0 \/
     ~ (off / BLOCK_SIZE <= x / BLOCK_SIZE <= (off + n - 1) / BLOCK_SIZE)) ->
    file_byte (image (disk s')) (heap s' ino) x = file_byte (image (disk s)) (heap s ino) x;
  wt_size : let ino := Ext2.data (vnodes s inode) in
    load32 (heap s' ino) i_size = Z.max (load32 (heap s ino) i_size) (off + n) /\
    (Ext2.size (vnodes s inode) = load32 (heap s ino) i_size -> Ext2.size (vnodes s' inode) = load32 (heap s' ino) i_size);
  wt_inode : let ino := Ext2.data (vnodes s inode) in let nr := inode_nr (vnodes s inode) in
    (forall y, 0 <= y < sizeof_inode -> image (disk s') (inode_pos L nr + y) = heap s' ino y) /\
    (forall x, inode_block L nr * BLOCK_SIZE <= x < (inode_block L nr + 1) * BLOCK_SIZE ->
       ~ (inode_pos L nr <= x < inode_pos L nr + sizeof_inode) -> image (disk s') x = image (disk s) x);
  wt_blocks : forall b, ~ reserved L b -> ~ is_free L s b -> b <> inode_block L (inode_nr (vnodes s inode)) ->
    ~ file_blocks (image (disk s)) (heap s (Ext2.data (vnodes s inode))) b ->
    same_block (image (disk s)) (image (disk s')) b;
  wt_free : forall b, is_free L s' b -> is_free L s b;
  wt_bufs : forall c, (c < next s)%nat -> c <> Ext2.data (vnodes s inode) -> c <> ext2_super (l_meta L) -> c <> bgdt (l_meta L) ->
    forall x, heap s' c x = heap s c x;
  wt_map : let ino := Ext2.data (vnodes s inode) in
    forall k, 0 <= k < max_blocks ->
    (off / BLOCK_SIZE <= k <= (off + n - 1) / BLOCK_SIZE -> file_block (image (disk s')) (heap s' ino) k <> 0) /\
    (file_block (image (disk s)) (heap s ino) k <> 0 ->
       file_block (image (disk s')) (heap s' ino) k = file_block (image (disk s)) (heap s ino) k);
  wt_total : free_total L s - 4 * ((off + n - 1) / BLOCK_SIZE - off / BLOCK_SIZE + 1) <= free_total L s';
  wt_next : (next s <= next s')%nat;
  wt_vnodes : forall i, i <> inode -> vnodes s' i = vnodes s i;
  wt_node : Ext2.data (vnodes s' inode) = Ext2.data (vnodes s inode) /\ inode_nr (vnodes s' inode) = inode_nr (vnodes s inode) /\
    Ext2.dev (vnodes s' inode) = Ext2.dev (vnodes s inode);
}.

End Statement.

Lemma done_all r : request_ok r -> done_bytes r (nblocks r) = bytes r.
Proof.
  intros [? ? ? Qf Ql]; unfold done_bytes, nblocks, BLOCK_SIZE in *; rewrite Qf, Ql in *; Z.div_mod_to_equations; lia.
Qed.

Lemma written_of (L : layout) (Lo : layout_ok L) {D : Type} (ops : blk_dev_ops_t D) (device : Z)
    `{!BlockDevice ops (MINOR device)} inode n off data (s s1 s2 s3 : fs_state D) r0 :
  let ino := Ext2.data (vnodes s inode) in let nr := inode_nr (vnodes s inode) in
  writable L ops device inode n off data s -> request_ok r0 -> offset r0 = off -> bytes r0 = n ->
  wrote L ops device ino data.1 (inode_block L nr) (heap s data.1) (file_blocks (image (disk s)) (heap s ino))
    (fun c x => c = ino /\ (i_blocks <= x < i_blocks + 4 \/ direct <= x < direct + 60)) s s1 ->
  file_ok L ops device (inode_block L nr) s1 ino ->
  (forall k, 0 <= k < max_blocks ->
     block_done r0 data.2 (heap s data.1) k (file_block (image (disk s)) (heap s ino) k)
       (file_block (image (disk s1)) (heap s1 ino) k) (image (disk s)) (image (disk s1))) ->
  header ino inode s1 s2 ->
  load32 (heap s2 ino) i_size = Z.max (load32 (heap s ino) i_size) (off + n) ->
  (Ext2.size (vnodes s inode) = load32 (heap s ino) i_size -> Ext2.size (vnodes s2 inode) = load32 (heap s2 ino) i_size) ->
  fs_inv L s3 -> heap s3 = heap s2 -> vnodes s3 = vnodes s2 -> (next s2 <= next s3)%nat -> (forall x, is_free L s3 x <-> is_free L s2 x) ->
  (forall x, image (disk s3) x = blit (image (disk s2)) (inode_pos L nr) (heap s2 ino) 0 sizeof_inode x) ->
  (forall b, b <> inode_block L nr -> same_block (image (disk s2)) (image (disk s3)) b) ->
  free_total L s - 4 * nblocks r0 <= free_total L s1 -> free_total L s3 = free_total L s2 ->
  written L ops device inode n off data s s3.
Proof.
  intros ino nr Wb Q Qo Qb W1 O1 B1 H2 Sz1 Sz2 I3 H3 V3 Nx F3 M3 S3 Tw Tp.
  destruct (free_ext L ops device s1 s2 (hd_disk _ _ _ _ H2)) as (_ & Tm & F2).
  assert (Hs13 : forall x, good L ops device (inode_block L nr) s1 x -> same_block (image (disk s1)) (image (disk s3)) x).
  { intros x (_ & _ & Hx & _) o Ho; rewrite (S3 x Hx o Ho); by rewrite (hd_disk _ _ _ _ H2). }
  destruct (file_kept L ops device (inode_block L nr) s1 s3 ino ino O1) as [O3 E3].
  { intros x Hx; by apply F2, F3. }
  { done. }
  { intros j Hj; rewrite H3; apply load32_ext; intros x Hx; apply (hd_ino _ _ _ _ H2); unfold direct, i_size, i_mtime in *; lia. }
  assert (Hkey : forall k y, 0 <= k < max_blocks -> 0 <= y < BLOCK_SIZE ->
    file_byte (image (disk s3)) (heap s3 ino) (k * BLOCK_SIZE + y) =
    let b := file_block (image (disk s1)) (heap s1 ino) k in if b =? 0 then 0 else image (disk s1) (b * BLOCK_SIZE + y)).
  { intros k y Hk Hy; unfold file_byte; assert (k * BLOCK_SIZE + y = y + k * BLOCK_SIZE) as -> by lia.
    rewrite Z.div_add, Z_mod_plus_full, Z.div_small, Z.mod_small, Z.add_0_l, E3 by (unfold BLOCK_SIZE in *; lia); cbv zeta.
    destruct (Z.eqb_spec (file_block (image (disk s1)) (heap s1 ino) k) 0) as [|Hne]; [done|].
    apply Hs13; [by eapply file_block_good; eauto|done]. }
  destruct (wb_inode _ _ _ _ _ _ _ _ Wb) as (Hi & _), (wb_range _ _ _ _ _ _ _ _ Wb) as (R1 & R2 & R3).
  assert (Hx : forall x, x = x / BLOCK_SIZE * BLOCK_SIZE + x mod BLOCK_SIZE /\ 0 <= x mod BLOCK_SIZE < BLOCK_SIZE)
    by (intros x; unfold BLOCK_SIZE; Z.div_mod_to_equations; lia).
  split; auto.
  - intros ino0; change ino0 with ino; clear ino0; intros x Hxr; destruct (Hx x) as [Ex Hm]; rewrite Ex, Hkey; [|unfold max_blocks, BLOCK_SIZE; Z.div_mod_to_equations; lia|done].
    destruct (B1 (x / BLOCK_SIZE)) as [N1 _ _ N4]; [unfold max_blocks, BLOCK_SIZE; Z.div_mod_to_equations; lia|].
    cbv zeta; rewrite (proj2 (Z.eqb_neq _ 0)).
    + destruct (N4 _ Hm) as [-> _]; [by rewrite Qo|unfold in_request; lia].
    + apply N1; rewrite (rq_first _ Q), (rq_last _ Q), Qo, Qb; unfold BLOCK_SIZE; Z.div_mod_to_equations; lia.
  - intros ino0; change ino0 with ino; clear ino0; intros x Hxr Hout Hor; destruct (Hx x) as [Ex Hm].
    assert (Hk : 0 <= x / BLOCK_SIZE < max_blocks) by (unfold max_blocks, BLOCK_SIZE in *; Z.div_mod_to_equations; lia).
    rewrite Ex at 1; rewrite Hkey by done; unfold file_byte; cbv zeta; fold ino.
    destruct (B1 (x / BLOCK_SIZE) Hk) as [_ N2 N3 N4].
    destruct (decide (file_block (image (disk s)) (heap s ino) (x / BLOCK_SIZE) = 0)) as [E0|E0].
    + rewrite N3, E0; [done|]; rewrite (rq_first _ Q), (rq_last _ Q), Qo, Qb; tauto.
    + rewrite (N2 E0) in *; rewrite !(proj2 (Z.eqb_neq _ 0)) by done.
      destruct (N4 _ Hm) as [_ N5]; apply N5; [unfold in_request; lia|done].
  - split; [by rewrite H3|by rewrite H3, V3].
  - intros ino0 nr0; change ino0 with ino; change nr0 with nr; clear ino0 nr0; split.
    + intros y Hy; rewrite M3, blit_in, H3 by lia; f_equal; lia.
    + intros x Hxr Hout; rewrite M3, blit_out, (hd_disk _ _ _ _ H2) by lia.
      replace x with (inode_block L nr * BLOCK_SIZE + (x - inode_block L nr * BLOCK_SIZE)) by lia.
      destruct (wb_table _ _ _ _ _ _ _ _ Wb) as (T1 & T2 & T3).
      apply (wr_image _ _ _ _ _ _ _ _ _ _ _ W1); auto; [|lia].
      intros (j & Hj & Hr); by destruct (tree_ok_reach _ _ _ _ _ (fo_tree _ _ _ _ _ _ (wb_file _ _ _ _ _ _ _ _ Wb) j Hj) Hr) as (_ & _ & ? & _).
  - intros b Hr Hf Hb Hfb o Ho; rewrite (S3 b Hb o Ho), (hd_disk _ _ _ _ H2); by apply (wr_image _ _ _ _ _ _ _ _ _ _ _ W1).
  - intros b Hb; by apply (wr_free _ _ _ _ _ _ _ _ _ _ _ W1), F2, F3.
  - intros c Hc C1 C2 C3 x; rewrite H3, (hd_heap _ _ _ _ H2) by done.
    apply (wr_heap _ _ _ _ _ _ _ _ _ _ _ W1); auto; by intros [? _].
  - intros ino0; change ino0 with ino; clear ino0; intros k Hk; rewrite E3 by done; destruct (B1 k Hk) as [N1 N2 _ _].
    split; [|exact N2]; intros Hr; apply N1; by rewrite (rq_first _ Q), (rq_last _ Q), Qo, Qb.
  - rewrite Tp, Tm; unfold nblocks in Tw; by rewrite (rq_first _ Q), (rq_last _ Q), Qo, Qb in Tw.
  - pose proof (wr_next _ _ _ _ _ _ _ _ _ _ _ W1); rewrite <- (hd_next _ _ _ _ H2) in *; lia.
  - intros i Hne; rewrite V3, (hd_other _ _ _ _ H2) by done; by rewrite (wr_vnodes _ _ _ _ _ _ _ _ _ _ _ W1).
  - rewrite V3, <- (wr_vnodes _ _ _ _ _ _ _ _ _ _ _ W1); apply H2.
Qed.

Lemma inode_write_ok (L : layout) {D : Type} (drv : drivers D) (ops : blk_dev_ops_t D) (device : Z)
    `{!BlockDevice ops (MINOR device)} kmalloc now (s : fs_state D) inode n off data :
  layout_ok L -> 0 < l_inodes L < 2 ^ 25 -> drv (MAJOR device) = DRIVER_BLK ops -> Ext2.device (l_meta L) = device ->
  (forall i, is_Some (kmalloc i)) -> writable L ops device inode n off data s ->
  exists s', fs_ext2_inode_write drv kmalloc now (l_meta L) inode n off data s = Ok (n, s') /\
    written L ops device inode n off data s s'.
Proof.
  intros Lo Hin Hd Hmd Hk Wb; pose proof Wb as [I Wd (Wi1 & Wi2 & Wi3) (Wd1 & Wd2) (Wn1 & Wn2 & Wn3) (Wt1 & Wt2 & Wt3) Wf Ws (Wr1 & Wr2 & Wr3) Wroom].
  set (ino := Ext2.data (vnodes s inode)) in *; set (nr := inode_nr (vnodes s inode)) in *.
  destruct (inode_location L nr Hin Wn1 Wn2) as (Hg & _ & _).
  unfold fs_ext2_inode_write, fs_ext2_inode_rw; do 2 erewrite bind_ok by reflexivity; fold ino nr; cbn [fst snd].
  rewrite (proj2 (Z.leb_gt n 0)), bool_decide_eq_false_2, andb_false_r by (lia || done); cbn [orb].
  erewrite bind_ok by reflexivity; cbn [fst snd]; destruct (fi_super _ _ I) as (_ & _ & _ & ->); rewrite Wd.
  set (sz := load32 (heap s ino) i_size) in *; set (group := u32 (nr - 1) / l_inodes L) in *.
  destruct (init_request_write sz ino n off data device (l_meta L) group Wr1 Wr2 Wr3)
    as (Q & Qb & Qo & Qd & Qv & Qp & Qa & Qe & Qz & Qt & Qi & Qm & Qg & Q1 & Q2).
  set (r0 := init_request _ _ _ _ _ _ _ _ _) in *.
  assert (Hroom : 4 * nblocks r0 <= free_total L s) by (unfold nblocks; by rewrite (rq_first _ Q), (rq_last _ Q), Qo, Qb).
  destruct (write_walk L Lo drv ops device Hd Hmd kmalloc Hk (inode_block L nr) r0 ino data.1 data.2 s)
    as (r & s1 & E1 & R & W1 & O1 & T1 & B1); auto.
  1:{ by destruct data. }
  rewrite (bind_ok _ _ _ _ _ E1); cbn [Z.eqb negb]; erewrite bind_ok by reflexivity; cbn [fst snd].
  destruct R as (f & l & ->); cbn [set_range set_processed bytes_processed offset].
  rewrite (done_all r0 Q), Qb, Qo, (u32_small (off + n)) by lia.
  rewrite !bool_decide_eq_true_2 by done; rewrite (proj2 (Z.ltb_lt 0 n)), !andb_true_r by done.
  assert (Es1 : load32 (heap s1 ino) i_size = sz).
  { apply load32_ext; intros x Hx; apply (wr_heap _ _ _ _ _ _ _ _ _ _ _ W1); try tauto.
    unfold i_size, i_blocks, direct in *; lia. }
  destruct (header_grow ino inode s1 _ (off + n) ltac:(lia) eq_refl) as (s2 & E2 & H2 & Z2 & Z2').
  rewrite (bind_ok _ _ _ _ _ E2).
  destruct (header_mtime L drv kmalloc ino inode s2 (u32 now) (s32 (u32 now))) as (s3 & E3 & H3 & Z3 & Z3').
  pose proof (header_trans _ _ _ _ _ H2 H3) as H; destruct (hd_node _ _ _ _ H) as (Nd & Nn & _).
  rewrite (wr_vnodes _ _ _ _ _ _ _ _ _ _ _ W1) in Nd, Nn; fold ino in Nd; fold nr in Nn.
  assert (I3 : fs_inv L s3).
  { apply (fs_inv_ext L ops device s1); [apply H|rewrite (hd_next _ _ _ _ H); lia| | |apply W1];
      intros x; rewrite (hd_heap _ _ _ _ H); (done || by destruct Wi3; auto). }
  destruct (put_inode_ok L Lo drv ops device Hd Hmd kmalloc Hk (inode_block L nr) s3 inode)
    as (s4 & E4 & I4 & H4 & V4 & N4 & F4 & T4 & M4 & S4); rewrite ?Nn; auto.
  rewrite Nn, Nd in M4; rewrite (bind_ok _ _ _ _ _ (eq_trans E3 E4)); cbn [Z.eqb negb andb].
  rewrite (proj2 (Z.eqb_neq n 0)), s32_small by lia; exists s4; split; [reflexivity|].
  apply (written_of L Lo ops device inode n off data s s1 s3 s4 r0); auto.
  - fold ino; rewrite Z3, Z2, Es1; done.
  - fold ino; intros Es; rewrite Z3, Z3'; apply Z2'; by rewrite (wr_vnodes _ _ _ _ _ _ _ _ _ _ _ W1), Es1.
Qed.

(** C5. Writing to a file of an EXT2 file system, on any device that implements the
    interface of a block device, when memory and enough free blocks are available:
    all [n] bytes are written, whether they lie within the file, in holes or behind
    its end, and whether the blocks and the single, double and triple indirect
    blocks that lead to them exist or have to be allocated.  Afterwards the bytes
    of the file from [off] on are those of the buffer, all other bytes in blocks
    that existed or are not part of the request are as before, the size is the
    larger one of the old size and the end of the request, and the inode on the disk
    is the one in memory.  The allocation bitmaps and counters are consistent, the
    blocks of the file still form trees without overlap that do not contain free
    or reserved blocks, and every other block of the disk, other inodes in the same
    block of the inode table and all other buffers are untouched. *)
Theorem ext2_write_correct (L : layout) {D : Type} (drv : drivers D) (ops : blk_dev_ops_t D) (device : Z)
    `{!BlockDevice ops (MINOR device)} kmalloc now (s : fs_state D) inode n off data :
  layout_ok L -> 0 < l_inodes L < 2 ^ 25 -> drv (MAJOR device) = DRIVER_BLK ops -> Ext2.device (l_meta L) = device ->
  (forall i, is_Some (kmalloc i)) -> writable L ops device inode n off data s ->
  exists s', fs_ext2_inode_write drv kmalloc now (l_meta L) inode n off data s = Ok (n, s') /\
    written L ops device inode n off data s s'.
Proof. apply inode_write_ok. Qed.

Lemma small_entries j : 0 <= j < 15 -> inode_entry (heap small_fs 2) j = if j =? 0 then 6 else 0.
Proof.
  intros Hj; change (heap small_fs 2) with small_inode; unfold inode_entry, small_inode.
  destruct (Z.eqb_spec j 0) as [->|]; [by vm_compute|]; unfold direct, i_size; by rewrite !load32_store32_other by lia.
Qed.

(** 200 bytes in the last direct and the first indirect block of the file. *)
Lemma small_writable : writable small_layout ramdisk_ops 256 0 200 (11 * 1024 + 900) (3%nat, 0) small_fs.
Proof.
  split; [exact small_fs_inv|done|cbn; lia|cbn; lia|by vm_compute| | |by vm_compute|lia|by vm_compute].
  - intros ib; change ib with 5; split; [cbn; lia|]; split; [intros ?%small_reserved|intros ?%(small_state_free _ _ small_fs_ok)]; lia.
  - split; change (Ext2.data (vnodes small_fs 0)) with 2%nat.
    + intros j Hj; rewrite small_entries by done; destruct (Z.eqb_spec j 0) as [->|]; [|apply tree_ok_hole].
      right; split; [|done]; split_and!; [cbn; lia..|intros ?%small_reserved; lia|done|intros ?%(small_state_free _ _ small_fs_ok); lia].
    + intros j k x Hj Hk Hne; rewrite !small_entries by done.
      destruct (Z.eqb_spec j 0), (Z.eqb_spec k 0); subst; try lia; intros Hx Hx'; by (eapply reach_hole, Hx' || eapply reach_hole, Hx).
Qed.

Lemma ext2_write_correct_witness :
  exists s', fs_ext2_inode_write small_drivers (fun _ => Some (fun _ => 0)) 77 (mk_meta 0 1 256 1 1) 0 200 (11 * 1024 + 900) (3%nat, 0)
      small_fs = Ok (200, s') /\
    load32 (heap s' 2) i_size = 12364 /\ file_byte (ramdisk_image (disk s')) (heap s' 2) (12 * 1024) = 124 mod 7.
Proof.
  destruct (ext2_write_correct small_layout small_drivers ramdisk_ops 256 (fun _ => Some (fun _ => 0)) 77
    small_fs 0 200 (11 * 1024 + 900) (3%nat, 0)) as (s' & E & W).
  - exact small_layout_ok.
  - cbn; lia.
  - reflexivity.
  - reflexivity.
  - done.
  - exact small_writable.
  - exists s'; split; [exact E|]; split; [apply (wt_size _ _ _ _ _ _ _ _ _ W)|].
    apply (wt_bytes _ _ _ _ _ _ _ _ _ W (12 * 1024)); lia.
Defined.

(** ** Reading what was written *)

Lemma tree_ok_valid good im n d b : (forall x, good x -> 0 < x < n) -> tree_ok good im d b -> tree_valid im n d b.
Proof.
  intros Hg; revert b; induction d as [|d IH]; intros b; cbn; (intros [?|[Hb Ho]]; [by left|right]); split; auto.
  intros j Hj; apply IH; by apply Ho.
Qed.

Lemma file_ok_valid (L : layout) {D : Type} (ops : blk_dev_ops_t D) (device : Z) `{!BlockDevice ops (MINOR device)} ib s ino :
  fs_inv L s -> file_ok L ops device ib s ino ->
  file_valid (image (disk s)) (BlockDevProofs.size (disk s)) (heap s ino).
Proof.
  intros I Ho.
  assert (H : forall j, 0 <= j < 15 ->
    tree_valid (image (disk s)) (BlockDevProofs.size (disk s)) (inode_dep j) (inode_entry (heap s ino) j)).
  { intros j Hj; eapply tree_ok_valid; [|by apply Ho]; rewrite (fi_size _ _ I); by intros x [? _]. }
  split; [|by apply (H 12)|by apply (H 13)|by apply (H 14)].
  intros k Hk; specialize (H k ltac:(lia)); unfold inode_dep in H; by rewrite (proj2 (Z.ltb_lt _ _)) in H by lia.
Qed.

(** C6. What is written to a file can be read back: a write of [n] bytes followed by
    a read of [n] bytes at the same offset into another buffer returns [n] both
    times and copies the data, for all offsets and lengths and whatever blocks have
    to be allocated; the read does not change the disk. *)
Theorem ext2_write_read (L : layout) {D : Type} (drv : drivers D) (ops : blk_dev_ops_t D) (device : Z)
    `{!BlockDevice ops (MINOR device)} kmalloc now (s : fs_state D) inode n off data dst :
  layout_ok L -> 0 < l_inodes L < 2 ^ 25 -> drv (MAJOR device) = DRIVER_BLK ops -> Ext2.device (l_meta L) = device ->
  (forall i, is_Some (kmalloc i)) -> writable L ops device inode n off data s ->
  (dst.1 < next s)%nat -> dst.1 <> Ext2.data (vnodes s inode) ->
  exists s1 s2, fs_ext2_inode_write drv kmalloc now (l_meta L) inode n off data s = Ok (n, s1) /\
    fs_ext2_inode_read drv kmalloc now (l_meta L) inode n off dst s1 = Ok (n, s2) /\ disk s2 = disk s1 /\
    forall x, 0 <= x < n -> heap s2 dst.1 (dst.2 + x) = heap s data.1 (data.2 + x).
Proof.
  intros Lo Hl Hd Hm Hk Wb Hdst Hne.
  destruct (inode_write_ok L drv ops device kmalloc now s inode n off data Lo Hl Hd Hm Hk Wb) as (s1 & E1 & W).
  destruct (wb_range _ _ _ _ _ _ _ _ Wb) as (R1 & R2 & R3); pose proof (wb_size _ _ _ _ _ _ _ _ Wb) as Hsz.
  destruct (wt_node _ _ _ _ _ _ _ _ _ W) as (Nd & _ & Nv), (wt_size _ _ _ _ _ _ _ _ _ W) as [Sz _].
  destruct (wb_inode _ _ _ _ _ _ _ _ Wb) as (Hi & _); pose proof (wt_next _ _ _ _ _ _ _ _ _ W) as Hn.
  set (ino := Ext2.data (vnodes s inode)) in *.
  destruct (inode_read_ok drv ops device kmalloc now (l_meta L) s1 inode n off dst) as (s2 & E2 & D2 & _ & _ & _ & M2);
    rewrite ?Nd, ?Nv, ?Sz; auto; try lia.
  - apply (wt_inv _ _ _ _ _ _ _ _ _ W).
  - apply (wb_dev _ _ _ _ _ _ _ _ Wb).
  - eapply file_ok_valid; [apply (wt_inv _ _ _ _ _ _ _ _ _ W)|apply (wt_file _ _ _ _ _ _ _ _ _ W)].
  - rewrite Nd, Sz in E2, M2; replace (Z.max 0 _) with n in E2, M2 by lia.
    exists s1, s2; split; [exact E1|]; split; [exact E2|]; split; [done|]; intros x Hx; rewrite M2.
    rewrite (proj2 (Z.leb_le _ _)), (proj2 (Z.ltb_lt _ _)) by lia; cbn [andb].
    replace (off + (dst.2 + x - dst.2)) with (off + x) by lia.
    rewrite (wt_bytes _ _ _ _ _ _ _ _ _ W) by lia; f_equal; lia.
Qed.

Lemma ext2_write_read_witness :
  exists s1 s2, fs_ext2_inode_write small_drivers (fun _ => Some (fun _ => 0)) 77 (mk_meta 0 1 256 1 1) 0 200 (11 * 1024 + 900) (3%nat, 0)
      small_fs = Ok (200, s1) /\
    fs_ext2_inode_read small_drivers (fun _ => Some (fun _ => 0)) 77 (mk_meta 0 1 256 1 1) 0 200 (11 * 1024 + 900) (3%nat, 500) s1 =
      Ok (200, s2) /\ heap s2 3 530 = 2.
Proof.
  destruct (ext2_write_read small_layout small_drivers ramdisk_ops 256 (fun _ => Some (fun _ => 0)) 77
    small_fs 0 200 (11 * 1024 + 900) (3%nat, 0) (3%nat, 500)) as (s1 & s2 & E1 & E2 & _ & M).
  - exact small_layout_ok.
  - cbn; lia.
  - reflexivity.
  - reflexivity.
  - done.
  - exact small_writable.
  - cbn; lia.
  - done.
  - exists s1, s2; split; [exact E1|]; split; [exact E2|]; apply (M 30); lia.
Defined.

(** ** Behaviour outside the preconditions *)

(** A result that can be evaluated. *)
Lemma evaluated {A} (r : res A) (P : A -> bool) :
  match r with Ok x => P x | _ => false end = true -> exists x, r = Ok x /\ P x = true.
Proof. destruct r; [eauto|done..]. Qed.

(** A file of 20 blocks with a hole for the whole area of the indirect block. *)
Definition sparse_inode : mem := store32 (store32 (store16 (fun _ => 0) i_mode 32768) i_size 20480) direct 6.
Definition sparse_fs : fs_state ramdisk :=
  mk_fs small_disk
    (fun b => match b with O => small_super | S O => small_table | S (S O) => sparse_inode | _ => fun x => x mod 7 end)
    4 (fun _ => mk_inode 20480 1 256 32768 0 0 2 1 0 0).

(** Truncating a file whose indirect block is a hole succeeds, and overwrites block
    0 of the disk with zeroes: the walk sets [blocklist_dirty] although no indirect
    block exists, and block number 0 is written. *)
Theorem sparse_truncate_overwrites_block_0 :
  ramdisk_image (disk sparse_fs) 0 = 8 /\
  exists s', fs_ext2_inode_trunc small_drivers (fun _ => Some (fun _ => 0)) 77 (mk_meta 0 1 256 1 1) 0 0 sparse_fs = Ok (0, s') /\
    forallb (fun x => ramdisk_image (disk s') x =? 0) (seqZ 0 1024) = true.
Proof.
  split; [by vm_compute|].
  destruct (evaluated (fs_ext2_inode_trunc small_drivers (fun _ => Some (fun _ => 0)) 77 (mk_meta 0 1 256 1 1) 0 0 sparse_fs)
    (fun '(rc, s') => (rc =? 0) && forallb (fun x => ramdisk_image (disk s') x =? 0) (seqZ 0 1024))) as ([rc s'] & E & H).
  { vm_compute; reflexivity. }
  apply andb_true_iff in H as [->%Z.eqb_eq H]; exists s'; split; [exact E|exact H].
Qed.

(** A full disk, and a file whose block 11 is a hole while block 12 exists. *)
Definition full_inode : mem := store32 (store32 (store16 (fun _ => 0) i_mode 32768) i_size 20480) indirect1 7.
Definition full_disk : ramdisk :=
  mk_ramdisk 1 8192 24575
    (store32 (fun x => if x / 1024 =? 8 + 7 then 0 else if x / 1024 =? 8 + 3 then 255 else 9) (8192 + 7 * 1024) 8).
Definition full_fs : fs_state ramdisk :=
  mk_fs full_disk
    (fun b => match b with
              | O => store32 small_super s_free_blocks_count 0
              | S O => store16 small_table bg_free_blocks_count 0
              | S (S O) => full_inode
              | _ => fun x => if x <? 1024 then 1 else 2
              end)
    4 (fun _ => mk_inode 20480 1 256 32768 0 0 2 1 0 0).

(** Writing two blocks from block 11 on returns 1024, as if block 11 had been
    written, but the data of block 11 replace those of block 12: the flag [abort] is
    not looked at before the indirect block is visited. *)
Theorem full_disk_misplaces_data :
  exists s', fs_ext2_inode_write small_drivers (fun _ => Some (fun _ => 0)) 77 (mk_meta 0 1 256 1 1) 0 2048 (11 * 1024) (3%nat, 0) full_fs
      = Ok (1024, s') /\
    file_byte (ramdisk_image (disk s')) (heap s' 2) (11 * 1024) = 0 /\ heap full_fs 3 0 = 1 /\
    file_byte (ramdisk_image (disk s')) (heap s' 2) (12 * 1024) = 1 /\ heap full_fs 3 1024 = 2.
Proof.
  destruct (evaluated (fs_ext2_inode_write small_drivers (fun _ => Some (fun _ => 0)) 77 (mk_meta 0 1 256 1 1) 0 2048 (11 * 1024)
      (3%nat, 0) full_fs)
    (fun '(rc, s') => (rc =? 1024) && (file_byte (ramdisk_image (disk s')) (heap s' 2) (11 * 1024) =? 0) &&
       (file_byte (ramdisk_image (disk s')) (heap s' 2) (12 * 1024) =? 1))) as ([rc s'] & E & H).
  { vm_compute; reflexivity. }
  apply andb_true_iff in H as [[->%Z.eqb_eq H1%Z.eqb_eq]%andb_true_iff H2%Z.eqb_eq].
  exists s'; split; [exact E|]; split; [exact H1|]; split; [reflexivity|]; split; [exact H2|reflexivity].
Qed.
