(* ===== verification/Ext2Dir.v ===== *)
(** * EXT2 directories ([kernel/fs_ext2.c])

    A directory is a file of records: the number of an inode, the length of the
    record, the length of the name and the name.  The records of a block fill the
    block.  Names are lists of characters, without the terminating zero. *)

From S2P Require Import Prelude Errors Memory Lists BlockDev.
Import BlockDev Lists.
From S2P Require Import Ext2.

(** ** Layout *)

(** [ext2_direntry_t] *)
Definition d_inode : Z := 0.
Definition d_rec_len : Z := 4.
Definition d_name_len : Z := 6.
Definition d_file_type : Z := 7.
Definition sizeof_direntry : Z := 8.

(** [direntry_t] *)
Definition de_inode_nr : Z := 0.
Definition de_name : Z := 4.
Definition FILE_NAME_MAX : Z := 256.

(** Further fields of [ext2_inode_t]. *)
Definition i_dtime : Z := 20.
Definition i_link_count : Z := 26.
Definition LINK_MAX : Z := 16.

Definition ld8 {D} (p : ptr) : fsM D Z := fun s => Ok (heap s p.1 p.2, s).
Definition st8 {D} (p : ptr) (v : Z) : fsM D () := m ← get_buf p.1; set_buf p.1 (store8 m p.2 v).
Definition hang {D A} : fsM D A := fun _ => Hang.

Definition strlen (name : list Z) : Z := Z.of_nat (length name).

(** [memcpy] from another buffer, and from a string. *)
Definition copy_buf {D} (dst : ptr) (src : ptr) (n : Z) : fsM D () :=
  m ← get_buf dst.1; m' ← get_buf src.1; set_buf dst.1 (blit m dst.2 m' src.2 n).
Definition copy_name {D} (dst : ptr) (name : list Z) (n : Z) : fsM D () :=
  m ← get_buf dst.1; set_buf dst.1 (blit m dst.2 (fun i => default 0 (name !! Z.to_nat i)) 0 n).

(** The next multiple of four. *)
Definition align4 (x : Z) : Z := if negb (x mod 4 =? 0) then u32 (Z.land x 4294967292 + 4) else x.

Section Dir.
Context {D : Type} (drv : drivers D) (kmalloc : nat -> option mem) (do_time : Z).

#[local] Abbreviation M := (fsM D).
#[local] Abbreviation inode_read := (fs_ext2_inode_read drv kmalloc do_time).
#[local] Abbreviation inode_write := (fs_ext2_inode_write drv kmalloc do_time).

(** ** Finding entries *)

(** The loops get fuel. *)
Fixpoint get_direntry_loop (fuel : nat) (meta : ext2_metadata_t) (inode : nat) (index : Z) (direntry entry : nat)
    (offset read : Z) : M Z :=
  match fuel with
  | O => hang
  | S fuel =>
      if negb (read <=? u32 index) then mret (-1)
      else
        n ← inode_read meta inode sizeof_direntry (s32 offset) (entry, 0);
        if negb (u32 n =? sizeof_direntry) then mret EIO
        else
          nr ← ld32 (entry, d_inode);
          rec_len ← ld16 (entry, d_rec_len);
          next ← (if negb (nr =? 0) then
                    if read =? u32 index then
                      st32 (direntry, de_inode_nr) nr ;;
                      name_len ← ld8 (entry, d_name_len);
                      let name_len := if FILE_NAME_MAX - 1 <? name_len then FILE_NAME_MAX - 1 else name_len in
                      n ← inode_read meta inode name_len (s32 (u32 (offset + sizeof_direntry))) (direntry, de_name);
                      if negb (u32 n =? name_len) then mret (inl EIO)
                      else st8 (direntry, de_name + name_len) 0 ;; mret (inl 0)
                    else if negb (rec_len mod 4 =? 0) then panic
                    else mret (inr (u32 (read + 1)))
                  else if rec_len =? 0 then panic
                  else mret (inr read));
          match next with
          | inl rc => mret rc
          | inr read =>
              let offset := u32 (offset + rec_len) in
              i ← get_vnode inode;
              if u32 (size i) <=? offset then mret (-1)
              else get_direntry_loop fuel meta inode index direntry entry offset read
          end
  end.

Definition fs_ext2_get_direntry (fuel : nat) (meta : ext2_metadata_t) (inode : nat) (index : Z) (direntry : nat) : M Z :=
  entry ← local;
  i ← get_vnode inode;
  if size i =? 0 then mret (-1)
  else get_direntry_loop fuel meta inode index direntry entry 0 0.

(** ** Changing entries *)

Definition validate_direntry (direntry : nat) (dir : nat) : M Z :=
  rec_len ← ld16 (direntry, d_rec_len);
  i ← get_vnode dir;
  mret (if negb (rec_len mod 4 =? 0) then 1 else if negb (Z.rem (size i) BLOCK_SIZE =? 0) then 1 else 0).

Definition splice_direntry (existing_entry new_entry : nat) (meta : ext2_metadata_t) (dir : nat) (offset : Z) (name : list Z) : M Z :=
  rc ← validate_direntry existing_entry dir;
  if negb (rc =? 0) then mret (-1)
  else
    name_len ← ld8 (existing_entry, d_name_len);
    rec_len ← ld16 (existing_entry, d_rec_len);
    new_len ← ld16 (new_entry, d_rec_len);
    let first_free_byte := align4 (u32 (offset + (name_len + sizeof_direntry))) in
    if u32 (first_free_byte + new_len - 1) <? u32 (offset + rec_len) then
      buffer ← new_buf kmalloc;
      match buffer with
      | None => mret (-1)
      | Some buffer =>
          new_name ← ld8 (new_entry, d_name_len);
          if BLOCK_SIZE <? sizeof_direntry + new_name then panic
          else
            let new_len := u16 (offset + rec_len - first_free_byte) in
            st16 (new_entry, d_rec_len) new_len ;;
            st16 (existing_entry, d_rec_len) (u16 (first_free_byte - offset)) ;;
            n ← inode_write meta dir sizeof_direntry (s32 offset) (existing_entry, 0);
            if negb (u32 n =? sizeof_direntry) then mret (-1)
            else
              copy_buf (buffer, 0) (new_entry, 0) sizeof_direntry ;;
              copy_name (buffer, sizeof_direntry) name new_name ;;
              n ← inode_write meta dir new_len (s32 first_free_byte) (buffer, 0);
              mret (if negb (n =? new_len) then -1 else 1)
      end
    else mret 0.

(** The fields of a new entry. *)
Definition fill_direntry (new_direntry : nat) (inode_nr : Z) (name : list Z) (rec_len : Z) : M () :=
  st8 (new_direntry, d_file_type) 0 ;;
  st32 (new_direntry, d_inode) inode_nr ;;
  st8 (new_direntry, d_name_len) (u8 (strlen name)) ;;
  st16 (new_direntry, d_rec_len) rec_len.

Definition append_direntry (meta : ext2_metadata_t) (dir : nat) (inode_nr : Z) (name : list Z) : M Z :=
  new_direntry ← local;
  fill_direntry new_direntry inode_nr name BLOCK_SIZE ;;
  buffer ← new_buf kmalloc;
  match buffer with
  | None => mret ENOMEM
  | Some buffer =>
      m ← get_buf buffer;
      set_buf buffer (blit m 0 (fun _ => 0) 0 BLOCK_SIZE) ;;
      name_len ← ld8 (new_direntry, d_name_len);
      if BLOCK_SIZE <? sizeof_direntry + name_len then panic
      else
        copy_buf (buffer, 0) (new_direntry, 0) sizeof_direntry ;;
        copy_name (buffer, sizeof_direntry) name name_len ;;
        i ← get_vnode dir;
        n ← inode_write meta dir BLOCK_SIZE (size i) (buffer, 0);
        mret (if negb (n =? BLOCK_SIZE) then EIO else 0)
  end.

Fixpoint update_direntry_loop (fuel : nat) (meta : ext2_metadata_t) (dir : nat) (index inode_nr : Z) (entry : nat)
    (offset read : Z) : M Z :=
  match fuel with
  | O => hang
  | S fuel =>
      if negb (read <=? u32 index) then mret (-1)
      else
        n ← inode_read meta dir sizeof_direntry (s32 offset) (entry, 0);
        if negb (u32 n =? sizeof_direntry) then mret EIO
        else
          nr ← ld32 (entry, d_inode);
          rec_len ← ld16 (entry, d_rec_len);
          if negb (nr =? 0) && (read =? u32 index) then
            st32 (entry, d_inode) inode_nr ;;
            n ← inode_write meta dir sizeof_direntry (s32 offset) (entry, 0);
            mret (if negb (u32 n =? sizeof_direntry) then EIO else 0)
          else
            let read := if negb (nr =? 0) then u32 (read + 1) else read in
            let offset := u32 (offset + rec_len) in
            i ← get_vnode dir;
            if u32 (size i) <=? offset then mret (-1)
            else update_direntry_loop fuel meta dir index inode_nr entry offset read
  end.

Definition update_direntry (fuel : nat) (meta : ext2_metadata_t) (dir : nat) (index inode_nr : Z) : M Z :=
  entry ← local;
  i ← get_vnode dir;
  if size i =? 0 then mret (-1)
  else update_direntry_loop fuel meta dir index inode_nr entry 0 0.

Fixpoint create_direntry_loop (fuel : nat) (meta : ext2_metadata_t) (dir : nat) (inode_nr : Z) (name : list Z)
    (entry new_direntry : nat) (offset : Z) : M Z :=
  match fuel with
  | O => hang
  | S fuel =>
      n ← inode_read meta dir sizeof_direntry (s32 offset) (entry, 0);
      if negb (u32 n =? sizeof_direntry) then mret EIO
      else
        rc ← splice_direntry entry new_direntry meta dir offset name;
        if rc =? -1 then mret EIO
        else if rc =? 1 then mret 0
        else
          rec_len ← ld16 (entry, d_rec_len);
          let offset := u32 (offset + rec_len) in
          i ← get_vnode dir;
          if u32 (size i) <=? offset then append_direntry meta dir inode_nr name
          else create_direntry_loop fuel meta dir inode_nr name entry new_direntry offset
  end.

Definition create_direntry (fuel : nat) (meta : ext2_metadata_t) (dir : nat) (inode_nr : Z) (name : list Z) : M Z :=
  entry ← local;
  new_direntry ← local;
  if FILE_NAME_MAX <? strlen name then mret EINVAL
  else
    fill_direntry new_direntry inode_nr name (u16 (align4 (u16 (sizeof_direntry + strlen name)))) ;;
    create_direntry_loop fuel meta dir inode_nr name entry new_direntry 0.

Definition remove_direntry (current_entry preceding_entry : option nat) (meta : ext2_metadata_t) (dir : nat)
    (current_offset preceding_offset : Z) : M Z :=
  match current_entry with
  | None => mret EINVAL
  | Some current =>
      if negb (current_offset mod BLOCK_SIZE =? 0) then
        match preceding_entry with
        | None => mret EINVAL
        | Some preceding =>
            len ← ld16 (preceding, d_rec_len);
            len' ← ld16 (current, d_rec_len);
            st16 (preceding, d_rec_len) (u16 (len + len')) ;;
            n ← inode_write meta dir sizeof_direntry (s32 preceding_offset) (preceding, 0);
            mret (if negb (u32 n =? sizeof_direntry) then EIO else 0)
        end
      else
        st32 (current, d_inode) 0 ;;
        n ← inode_write meta dir sizeof_direntry (s32 current_offset) (current, 0);
        mret (if negb (u32 n =? sizeof_direntry) then EIO else 0)
  end.

(** ** Link counts *)

Definition set_link_count (v : Z) (i : inode_t) : inode_t :=
  mk_inode (size i) (inode_nr i) (dev i) (mode i) (mtime i) (atime i) (data i) v (mount_point i) (s_dev i).

Definition inc_link_count (meta : ext2_metadata_t) (inode : nat) : M Z :=
  i ← get_vnode inode;
  n ← ld16 (data i, i_link_count);
  if n =? LINK_MAX then panic
  else
    st16 (data i, i_link_count) (u16 (n + 1)) ;;
    set_vnode inode (set_link_count (u16 (n + 1)) i) ;;
    put_inode drv kmalloc meta inode.

Definition dec_link_count (meta : ext2_metadata_t) (inode : nat) : M Z :=
  i ← get_vnode inode;
  n ← ld16 (data i, i_link_count);
  st16 (data i, i_link_count) (u16 (n - 1)) ;;
  set_vnode inode (set_link_count (u16 (n - 1)) i) ;;
  (if u16 (n - 1) =? 0 then
     st32 (data i, i_dtime) (u32 do_time) ;;
     st32 (data i, i_mtime) (u32 do_time)
   else mret ()) ;;
  put_inode drv kmalloc meta inode.

End Dir.
