(* ===== verification/Ext2DirFile.v ===== *)
(** * EXT2 directories as files

    What reading and writing promise to the code that handles directories: a
    directory is a file without holes whose contents can be read and changed
    in place, and which grows by whole blocks. *)

From S2P Require Import Prelude Errors Memory Lists BlockDev BlockDevProofs.
Import Lists BlockDev BlockDevProofs.
From S2P Require Import Ext2 Ext2Read Ext2Alloc Ext2Tree Ext2Write Ext2File Ext2Dir.

Section DirFile.
Context (L : layout) (Lo : layout_ok L) (Li : 0 < l_inodes L < 2 ^ 25).
Context {D : Type} (drv : drivers D) (ops : blk_dev_ops_t D) (device : Z) `{!BlockDevice ops (MINOR device)}.
Context (registered : drv (MAJOR device) = DRIVER_BLK ops) (meta_dev : Ext2.device (l_meta L) = device).
Context (kmalloc : nat -> option mem) (enough : forall n, is_Some (kmalloc n)) (now : Z).
Context (dir : nat).

#[local] Abbreviation super := (ext2_super (l_meta L)).
#[local] Abbreviation table := (bgdt (l_meta L)).
#[local] Abbreviation im s := (image (disk s)).
#[local] Abbreviation ino s := (Ext2.data (vnodes s dir)).
#[local] Abbreviation ib s := (inode_block L (inode_nr (vnodes s dir))).

(** The directory [dir] has the [n] bytes [F]. *)
Record dirfile (n : Z) (F : mem) (s : fs_state D) : Prop := {
  df_inv : fs_inv L s;
  df_dev : dev (vnodes s dir) = device;
  df_inode : (ino s < next s)%nat /\ ino s <> super /\ ino s <> table;
  df_number : let nr := inode_nr (vnodes s dir) in
    0 < nr <= groups L * l_inodes L /\ nr < 2 ^ 32 /\ 0 <= l_inode_table L ((nr - 1) / l_inodes L);
  df_table : 0 < ib s < l_blocks L /\ ~ reserved L (ib s) /\ ~ is_free L s (ib s);
  df_file : file_ok L ops device (ib s) s (ino s);
  df_length : 0 < n < 2 ^ 30 /\ n mod BLOCK_SIZE = 0;
  df_size : load32 (heap s (ino s)) i_size = n /\ Ext2.size (vnodes s dir) = n;
  df_dense : forall k, 0 <= k < n / BLOCK_SIZE -> file_block (im s) (heap s (ino s)) k <> 0;
  df_bytes : forall x, 0 <= x < n -> file_byte (im s) (heap s (ino s)) x = F x;
}.

(** A buffer that does not belong to the file system. *)
Definition buffer (s : fs_state D) (c : nat) : Prop :=
  (c < next s)%nat /\ c <> ino s /\ c <> super /\ c <> table.

(** The states have the same buffers, except [c], and the same inodes. *)
Record kept (c : nat -> Prop) (s s' : fs_state D) : Prop := {
  kp_next : (next s <= next s')%nat;
  kp_heap : forall b, buffer s b -> ~ c b -> forall x, heap s' b x = heap s b x;
  kp_node : Ext2.data (vnodes s' dir) = Ext2.data (vnodes s dir) /\ inode_nr (vnodes s' dir) = inode_nr (vnodes s dir);
  kp_vnodes : forall i, i <> dir -> vnodes s' i = vnodes s i;
}.

Lemma kept_refl c s : kept c s s.
Proof. by split. Qed.

Lemma buffer_kept c s s' b : kept c s s' -> buffer s b -> buffer s' b.
Proof. intros [K1 _ [K3 _] _] (? & ? & ? & ?); unfold buffer; rewrite K3; split_and!; auto; lia. Qed.

Lemma kept_trans c s1 s2 s3 : kept c s1 s2 -> kept c s2 s3 -> kept c s1 s3.
Proof.
  intros A B; pose proof (fun b => buffer_kept c s1 s2 b A) as Hb; destruct A as [A1 A2 [A3 A3'] A4], B as [B1 B2 [B3 B3'] B4]; split.
  - lia.
  - intros b H1 H2 x; rewrite B2, A2; auto.
  - split; congruence.
  - intros i Hi; by rewrite B4, A4.
Qed.

Lemma kept_weaken (c c' : nat -> Prop) s s' : kept c s s' -> (forall b, buffer s b -> c b -> c' b) -> kept c' s s'.
Proof. intros [A1 A2 A3 A4] H; split; auto. Qed.

(** Changes of buffers only. *)
Lemma dirfile_heap n F s s' :
  dirfile n F s -> disk s' = disk s -> vnodes s' = vnodes s -> (next s <= next s')%nat ->
  (forall x, heap s' super x = heap s super x) -> (forall x, heap s' table x = heap s table x) ->
  (forall x, heap s' (ino s) x = heap s (ino s) x) -> dirfile n F s'.
Proof.
  intros [A1 A2 A3 A4 A5 A6 A7 A8 A9 A10] Hd Hv Hn Hs Ht Hi.
  destruct (free_ext L ops device s s' Hd) as (_ & _ & Hf).
  destruct (file_kept L ops device (ib s) s s' (ino s) (ino s') A6) as [O E].
  { intros x; by rewrite Hf. }
  { intros x _ o _; by rewrite Hd. }
  { intros j _; rewrite Hv; by apply load32_ext; intros; apply Hi. }
  split; rewrite ?Hv in *; auto.
  - by apply (fs_inv_ext L ops device s).
  - split_and!; try apply A3; lia.
  - by rewrite Hf.
  - split; [|apply A8]; rewrite <- (proj1 A8); by apply load32_ext; intros; apply Hi.
  - intros k Hk; rewrite E; [by apply A9|]; destruct A7; unfold max_blocks, BLOCK_SIZE in *; Z.div_mod_to_equations; lia.
  - intros x Hx; rewrite <- A10 by done; unfold file_byte; rewrite E, Hd; [done|].
    destruct A7; unfold max_blocks, BLOCK_SIZE in *; Z.div_mod_to_equations; lia.
Qed.

(** Reading. *)
Lemma dir_read n F s len off c o :
  dirfile n F s -> buffer s c -> 0 <= off -> 0 <= len -> off + len <= n ->
  exists s', fs_ext2_inode_read drv kmalloc now (l_meta L) dir len off (c, o) s = Ok (len, s') /\
    dirfile n F s' /\ kept (eq c) s s' /\ free_total L s' = free_total L s /\
    forall x, heap s' c x = if (o <=? x) && (x <? o + len) then F (off + (x - o)) else heap s c x.
Proof.
  intros A (C1 & C2 & C3 & C4) Ho Hl Hn; destruct (decide (len = 0)) as [->|Hl0].
  { exists s; split; [|split; [done|split; [apply kept_refl|split; [done|]]]].
    - unfold fs_ext2_inode_read, fs_ext2_inode_rw; by do 2 erewrite bind_ok by reflexivity.
    - intros x; rewrite Z.add_0_r; destruct (Z.leb_spec o x), (Z.ltb_spec x o); done || lia. }
  pose proof A as [A1 A2 A3 A4 A5 A6 A7 A8 A9 A10].
  destruct (inode_read_ok drv ops device kmalloc now (l_meta L) s dir len off (c, o)) as (s' & E & Hd & Hv & Hnx & Hh & Hc); auto; try lia.
  - apply A1.
  - by eapply file_ok_valid; eauto.
  - rewrite (proj1 A8) in E, Hc; replace (Z.max 0 (Z.min len (n - off))) with len in * by lia; cbn [fst snd] in *.
    destruct (fi_bufs _ _ A1).
    exists s'; split; [exact E|]; split; [|split; [|split]].
    + apply (dirfile_heap n F s); auto; intros x; apply Hh; auto; apply A3.
    + split; auto; [intros b (B1 & _) Hb x; apply Hh; auto|by rewrite Hv|intros; by rewrite Hv].
    + by destruct (free_ext L ops device s s' Hd) as (_ & -> & _).
    + intros x; rewrite Hc; destruct ((o <=? x) && (x <? o + len)) eqn:Ex; [|done].
      apply A10; apply andb_true_iff in Ex as [?%Z.leb_le ?%Z.ltb_lt]; lia.
Qed.


Lemma blocks_max n : 0 < n < 2 ^ 30 -> forall k, 0 <= k <= n / BLOCK_SIZE -> 0 <= k < max_blocks.
Proof. unfold max_blocks, BLOCK_SIZE; intros; Z.div_mod_to_equations; lia. Qed.

(** Writing within the directory, or a block at its end. *)
Lemma dir_write n F s len off c o :
  dirfile n F s -> buffer s c -> 0 <= off -> 0 < len -> (off + len <= n \/ off = n /\ len = BLOCK_SIZE) ->
  off + len < 2 ^ 30 -> 4 * ((off + len - 1) / BLOCK_SIZE - off / BLOCK_SIZE + 1) <= free_total L s ->
  exists s', fs_ext2_inode_write drv kmalloc now (l_meta L) dir len off (c, o) s = Ok (len, s') /\
    dirfile (Z.max n (off + len)) (blit F off (heap s c) o len) s' /\ kept (fun _ => False) s s' /\
    free_total L s - 4 * ((off + len - 1) / BLOCK_SIZE - off / BLOCK_SIZE + 1) <= free_total L s'.
Proof.
  intros A (C1 & C2 & C3 & C4) Ho Hl Hn Hm Hroom; pose proof A as [A1 A2 (A3 & A3' & A3'') A4 A5 A6 A7 A8 A9 A10].
  destruct (inode_write_ok L drv ops device kmalloc now s dir len off (c, o) Lo Li registered meta_dev enough) as (s' & E & W).
  { split; cbn; auto; try lia. }
  destruct W as [W1 W2 W3 W4 W5 W6 W7 W7' W8 W9 W10 W11 W12 (W13 & W14 & W15)].
  exists s'; split; [exact E|]; split; [|split; [split; auto; intros b (? & ? & ? & ?) _; by apply W8|exact W10]].
  assert (Hk : forall k, 0 <= k <= n / BLOCK_SIZE -> 0 <= k < max_blocks) by (apply blocks_max; lia).
  destruct A7 as [A7 A7'], A8 as [A8 A8'], W5 as [W5 W5'].
  split; rewrite ?W13, ?W14, ?W15; auto.
  - split_and!; auto; lia.
  - destruct A5 as (? & ? & ?); split_and!; auto; lia.
  - split; [lia|]; clear -Hn A7'; unfold BLOCK_SIZE in *; Z.div_mod_to_equations; lia.
  - rewrite W5' by congruence; by rewrite W5, A8.
  - intros k Hkr; destruct (decide (k < n / BLOCK_SIZE)) as [Hkn|Hkn].
    + destruct (W9 k) as [_ ->]; [apply Hk; lia|apply A9; lia..].
    + assert (off = n /\ len = BLOCK_SIZE /\ k = n / BLOCK_SIZE) as (-> & -> & ->)
        by (clear -Hkr Hkn Hn A7' Ho; unfold BLOCK_SIZE in *; Z.div_mod_to_equations; lia).
      apply W9; [apply Hk; lia|]; clear -A7'; unfold BLOCK_SIZE in *; Z.div_mod_to_equations; lia.
  - intros x Hx; destruct (decide (off <= x < off + len)) as [Hr|Hr].
    + rewrite W3, blit_in by done; cbn; f_equal; lia.
    + assert (Hxn : 0 <= x < n) by (clear -Hx Hr Hn; lia).
      assert (Hxk : 0 <= x / BLOCK_SIZE < n / BLOCK_SIZE) by (clear -Hxn A7'; unfold BLOCK_SIZE in *; Z.div_mod_to_equations; lia).
      rewrite W4, blit_out, A10; [done|exact Hxn|lia|clear -Hxn A7; unfold max_blocks, BLOCK_SIZE; lia|exact Hr|left; by apply A9].
Qed.

End DirFile.
