(* ===== verification/Ext2DirProofs.v ===== *)
(** * EXT2 directories: correctness

    A directory is a chain of records; its entries are the records with an inode. *)

From S2P Require Import Prelude Errors Memory Lists BlockDev BlockDevProofs.
Import Lists BlockDev BlockDevProofs.
From S2P Require Import Ext2 Ext2Read Ext2Alloc Ext2Tree Ext2Write Ext2File Ext2Dir Ext2DirFile.

(** ** Records *)

Definition e_inode (F : mem) (o : Z) : Z := load32 F (o + d_inode).
Definition e_len (F : mem) (o : Z) : Z := load16 F (o + d_rec_len).
Definition e_nlen (F : mem) (o : Z) : Z := F (o + d_name_len).
Definition e_name (F : mem) (o : Z) : list Z := map (fun i => F (o + sizeof_direntry + i)) (seqZ 0 (e_nlen F o)).

(** A record is large enough for its name and lies within a block. *)
Record record_ok (F : mem) (o : Z) : Prop := {
  ro_inode : 0 <= e_inode F o < 2 ^ 32;
  ro_name : 0 <= e_nlen F o < 256;
  ro_align : e_len F o mod 4 = 0;
  ro_fits : sizeof_direntry + e_nlen F o <= e_len F o;
  ro_block : o mod BLOCK_SIZE + e_len F o <= BLOCK_SIZE;
}.

(** The records from [a] to [b] are at the offsets [os]. *)
Fixpoint chain (F : mem) (a : Z) (os : list Z) (b : Z) : Prop :=
  match os with
  | [] => a = b
  | o :: os => o = a /\ record_ok F o /\ chain F (o + e_len F o) os b
  end.

(** The entries: numbers of inodes and names. *)
Definition entries (F : mem) (os : list Z) : list (Z * list Z) :=
  map (fun o => (e_inode F o, e_name F o)) (filter (fun o => e_inode F o <> 0) os).

Lemma dir_chain_app F a os os' c : chain F a (os ++ os') c <-> exists b, chain F a os b /\ chain F b os' c.
Proof.
  revert a; induction os as [|o os IH]; intros a; cbn; [naive_solver|].
  rewrite IH; naive_solver.
Qed.

Lemma chain_le F a os b : chain F a os b -> a + 8 * Z.of_nat (length os) <= b.
Proof.
  revert a; induction os as [|o os IH]; intros a; cbn; [lia|].
  intros (-> & R & ?%IH); pose proof (ro_fits _ _ R); pose proof (ro_name _ _ R); unfold sizeof_direntry in *; lia.
Qed.

(** The records of a chain lie between its ends. *)
Lemma chain_in F a os b o : chain F a os b -> o ∈ os -> record_ok F o /\ a <= o /\ o + e_len F o <= b.
Proof.
  revert a; induction os as [|o' os IH]; intros a; cbn; [by intros _ ?%elem_of_nil|].
  intros (-> & R & C) [->|Hin]%elem_of_cons.
  - pose proof (chain_le _ _ _ _ C); split_and!; auto; lia.
  - destruct (IH _ C Hin) as (R' & ? & ?); pose proof (ro_fits _ _ R); pose proof (ro_name _ _ R); unfold sizeof_direntry in *.
    split_and!; auto; lia.
Qed.

Lemma entries_app F os os' : entries F (os ++ os') = entries F os ++ entries F os'.
Proof. unfold entries; by rewrite list.filter_app, map_app. Qed.

Lemma load32_shift (m m' : mem) p q : (forall x, 0 <= x < 4 -> m (p + x) = m' (q + x)) -> load32 m p = load32 m' q.
Proof. intros H; unfold load32; pose proof (H 0 ltac:(lia)) as H0; rewrite !Z.add_0_r in H0; by rewrite H0, !H by lia. Qed.

Lemma load16_shift (m m' : mem) p q : (forall x, 0 <= x < 2 -> m (p + x) = m' (q + x)) -> load16 m p = load16 m' q.
Proof. intros H; unfold load16; pose proof (H 0 ltac:(lia)) as H0; rewrite !Z.add_0_r in H0; by rewrite H0, !H by lia. Qed.

(** A record depends on its fields and its name only. *)
Lemma record_same F F' o :
  (forall x, 0 <= x < sizeof_direntry + e_nlen F o -> F' (o + x) = F (o + x)) -> 0 <= e_nlen F o ->
  e_inode F' o = e_inode F o /\ e_len F' o = e_len F o /\ e_nlen F' o = e_nlen F o /\ e_name F' o = e_name F o.
Proof.
  intros H Hn; unfold sizeof_direntry in *.
  assert (En : e_nlen F' o = e_nlen F o) by (apply H; unfold d_name_len; lia).
  split_and!; auto.
  - apply load32_shift; intros x Hx; unfold d_inode; rewrite <- !Z.add_assoc; apply H; lia.
  - apply load16_shift; intros x Hx; unfold d_rec_len; rewrite <- !Z.add_assoc; apply H; lia.
  - unfold e_name; rewrite En; apply map_ext_in; intros i Hi%list_elem_of_In%elem_of_seqZ.
    unfold sizeof_direntry; rewrite <- !Z.add_assoc; apply H; lia.
Qed.

(** A chain whose bytes do not change. *)
Lemma chain_same F F' a os b :
  chain F a os b -> (forall x, a <= x < b -> F' x = F x) -> chain F' a os b /\ entries F' os = entries F os.
Proof.
  revert a; induction os as [|o os IH]; intros a C H; [done|].
  cbn in C; destruct C as (-> & R & C); pose proof (chain_le _ _ _ _ C); pose proof R as [R0 R1 R2 R3 R4]; unfold sizeof_direntry in *.
  destruct (record_same F F' a) as (E1 & E2 & E3 & E4); [intros x Hx; apply H; unfold sizeof_direntry in *; lia|lia|].
  destruct (IH _ C) as [C' Ee]; [intros x Hx; apply H; lia|].
  split.
  - cbn; rewrite E2; split; [done|]; split; [|done]; split; rewrite ?E1, ?E2, ?E3; auto; lia.
  - unfold entries in *; rewrite !list.filter_cons; rewrite E1; destruct (decide (e_inode F a <> 0)); cbn; rewrite ?E1, ?E4; by rewrite Ee.
Qed.

Lemma land_align x : 0 <= x < 2 ^ 32 -> Z.land x 4294967292 = x - x mod 4.
Proof.
  intros Hx; replace (x - x mod 4) with (Z.shiftl (Z.shiftr x 2) 2)
    by (rewrite Z.shiftl_mul_pow2, Z.shiftr_div_pow2 by lia; Z.div_mod_to_equations; lia).
  change 4294967292 with (Z.shiftl (Z.ones 30) 2); apply Z.bits_inj'; intros n Hn.
  rewrite Z.land_spec, !Z.shiftl_spec by lia.
  destruct (Z.ltb_spec n 2); [rewrite !(Z.testbit_neg_r _ (n - 2)) by lia; by rewrite andb_false_r|].
  rewrite Z.shiftr_spec, Z.sub_add by lia; destruct (Z.ltb_spec (n - 2) 30); [rewrite Z.ones_spec_low by lia; apply andb_true_r|].
  rewrite Z.ones_spec_high, andb_false_r by lia; symmetry; apply Z.bits_above_log2; [lia|].
  destruct (decide (x = 0)) as [->|]; [cbn; lia|]; apply Z.log2_lt_pow2; [lia|].
  apply Z.lt_le_trans with (2 ^ 32); [lia|]; apply Z.pow_le_mono_r; lia.
Qed.

Lemma align4_ok x : 0 <= x < 2 ^ 31 -> x <= align4 x < x + 4 /\ align4 x mod 4 = 0.
Proof.
  intros Hx; unfold align4; destruct (Z.eqb_spec (x mod 4) 0); cbn [negb]; [lia|].
  rewrite land_align, u32_small; Z.div_mod_to_equations; lia.
Qed.

(** The records of a directory are aligned. *)
Lemma chain_aligned F a os b : chain F a os b -> a mod 4 = 0 -> b mod 4 = 0 /\ forall o, o ∈ os -> o mod 4 = 0.
Proof.
  revert a; induction os as [|o os IH]; intros a; cbn; [intros -> Ha; split; [done|by intros o ?%elem_of_nil]|].
  intros (-> & R & C) Ha; destruct (IH _ C) as [Hb Hos]; [rewrite Zplus_mod, Ha, (ro_align _ _ R); done|].
  split; [done|]; intros o [->|Ho]%elem_of_cons; auto.
Qed.

Section DirProofs.
Context (L : layout) (Lo : layout_ok L) (Li : 0 < l_inodes L < 2 ^ 25).
Context {D : Type} (drv : drivers D) (ops : blk_dev_ops_t D) (device : Z) `{!BlockDevice ops (MINOR device)}.
Context (registered : drv (MAJOR device) = DRIVER_BLK ops) (meta_dev : Ext2.device (l_meta L) = device).
Context (kmalloc : nat -> option mem) (enough : forall n, is_Some (kmalloc n)) (now : Z).
Context (dir : nat).

#[local] Abbreviation inode_read := (fs_ext2_inode_read drv kmalloc now (l_meta L) dir).
#[local] Abbreviation inode_write := (fs_ext2_inode_write drv kmalloc now (l_meta L) dir).
#[local] Abbreviation dirfile := (dirfile L ops device dir).
#[local] Abbreviation buffer := (buffer L dir).
#[local] Abbreviation kept := (kept L dir).

(** ** Reading records *)

Lemma read_record n F s entry o :
  dirfile n F s -> buffer s entry -> 0 <= o -> o + sizeof_direntry <= n ->
  exists s', inode_read sizeof_direntry (s32 o) (entry, 0) s = Ok (sizeof_direntry, s') /\
    dirfile n F s' /\ kept (eq entry) s s' /\ free_total L s' = free_total L s /\
    (forall x, 0 <= x < sizeof_direntry -> heap s' entry x = F (o + x)) /\
    load32 (heap s' entry) d_inode = e_inode F o /\ load16 (heap s' entry) d_rec_len = e_len F o /\
    heap s' entry d_name_len = e_nlen F o.
Proof.
  intros A B Ho Hn; pose proof (df_length _ _ _ _ _ _ _ A) as [? _].
  rewrite s32_small by (unfold sizeof_direntry in *; lia).
  destruct (dir_read L Li drv ops device registered kmalloc enough now dir n F s sizeof_direntry o entry 0 A B Ho) as (s' & E & A' & K & T & M);
    [done|done|].
  assert (M' : forall x, 0 <= x < sizeof_direntry -> heap s' entry x = F (o + x)).
  { intros x Hx; rewrite M, (proj2 (Z.leb_le _ _)), (proj2 (Z.ltb_lt _ _)) by lia; cbn; f_equal; lia. }
  exists s'; split; [exact E|]; split_and!; auto.
  - apply load32_shift; intros x Hx; rewrite M' by (unfold d_inode, sizeof_direntry; lia); f_equal; lia.
  - apply load16_shift; intros x Hx; rewrite M' by (unfold d_rec_len, sizeof_direntry; lia); f_equal; lia.
Qed.

(** A local variable is a buffer of its own. *)
Lemma local_buffer n F s :
  dirfile n F s -> exists s', local s = Ok (next s, s') /\ dirfile n F s' /\ buffer s' (next s) /\ kept (fun _ => False) s s' /\
    free_total L s' = free_total L s /\ (forall b, heap s' b = heap s b) /\ next s' = S (next s).
Proof.
  intros A; eexists; split; [reflexivity|].
  pose proof (df_inode _ _ _ _ _ _ _ A) as (? & ? & ?); pose proof (fi_bufs _ _ (df_inv _ _ _ _ _ _ _ A)) as [? ?].
  split; [eapply dirfile_heap; [done|exact A|..]; cbn; done || lia|]; split; [unfold buffer; cbn; lia|]; split; [|done].
  split; cbn; auto; lia.
Qed.

Lemma chain_first F n o os : chain F o os n -> o < n -> exists os', os = o :: os' /\ record_ok F o /\ chain F (o + e_len F o) os' n.
Proof. destruct os as [|o' os]; cbn; [lia|]; intros (-> & R & C) _; eauto. Qed.

Lemma record_bounds F o : record_ok F o -> 8 <= e_len F o <= BLOCK_SIZE \/ o mod BLOCK_SIZE < 0.
Proof. intros [? ? ? ? ?]; unfold sizeof_direntry in *; lia. Qed.

(** What has been found: the inode and the name with a terminating zero. *)
Definition found (m : mem) (e : Z * list Z) : Prop :=
  load32 m de_inode_nr = e.1 /\ m (de_name + strlen e.2) = 0 /\
  forall i, 0 <= i < strlen e.2 -> Some (m (de_name + i)) = e.2 !! Z.to_nat i.

(** Stores to a buffer. *)
Lemma set_buf_ok n F s c m :
  dirfile n F s -> buffer s c ->
  exists s', set_buf c m s = Ok ((), s') /\ dirfile n F s' /\ kept (eq c) s s' /\ free_total L s' = free_total L s /\
    heap s' c = m /\ (forall b, b <> c -> heap s' b = heap s b) /\ vnodes s' = vnodes s.
Proof.
  intros A (B1 & B2 & B3 & B4); eexists; split; [reflexivity|].
  assert (Hh : forall b, b <> c -> (<[c := m]> (heap s)) b = heap s b) by (intros; by rewrite fn_lookup_insert_ne).
  split_and!; cbn; auto; [| |by rewrite fn_lookup_insert].
  - eapply dirfile_heap; [done|exact A|..]; cbn; auto; intros x; rewrite Hh; auto.
  - split; cbn; auto; intros b _ Hb x; rewrite Hh; auto.
Qed.

Lemma get_direntry_found n F s direntry entry o :
  dirfile n F s -> buffer s direntry -> buffer s entry -> direntry <> entry -> record_ok F o -> 0 <= o -> o + e_len F o <= n ->
  heap s entry d_name_len = e_nlen F o ->
  exists s', (st32 (direntry, de_inode_nr) (e_inode F o) ;;
      name_len ← ld8 (entry, d_name_len);
      let name_len := if FILE_NAME_MAX - 1 <? name_len then FILE_NAME_MAX - 1 else name_len in
      n ← inode_read name_len (s32 (u32 (o + sizeof_direntry))) (direntry, de_name);
      if negb (u32 n =? name_len) then mret (inl EIO)
      else st8 (direntry, de_name + name_len) 0 ;; mret (M := fsM D) (A := Z + Z) (inl 0)) s = Ok (inl 0, s') /\
    dirfile n F s' /\ kept (eq direntry) s s' /\ found (heap s' direntry) (e_inode F o, e_name F o).
Proof.
  intros A Bd Be Hne [R0 R1 R2 R3 R4] Ho Hn Hl; pose proof (df_length _ _ _ _ _ _ _ A) as [? _]; unfold sizeof_direntry in *.
  destruct (set_buf_ok n F s direntry (store32 (heap s direntry) de_inode_nr (e_inode F o)) A Bd) as (s1 & E1 & A1 & K1 & _ & H1 & O1 & _).
  rewrite (bind_ok _ _ _ _ _ (E1 : st32 (direntry, de_inode_nr) (e_inode F o) s = Ok ((), s1))); unfold ld8; erewrite bind_ok by reflexivity; cbn [fst snd]; rewrite O1, Hl by done.
  rewrite (proj2 (Z.ltb_ge _ _)) by (unfold FILE_NAME_MAX; lia); cbv zeta.
  rewrite (u32_small (o + 8)), (s32_small (o + 8)) by lia.
  destruct (dir_read L Li drv ops device registered kmalloc enough now dir n F s1 (e_nlen F o) (o + 8) direntry de_name A1
    (buffer_kept _ _ _ _ _ _ K1 Bd)) as (s2 & E2 & A2 & K2 & _ & M2); [lia..|].
  rewrite (bind_ok _ _ _ _ _ E2), u32_small, Z.eqb_refl by lia; cbn [negb].
  pose proof (kept_trans _ _ _ _ _ _ K1 K2) as K12.
  destruct (set_buf_ok n F s2 direntry (store8 (heap s2 direntry) (de_name + e_nlen F o) 0) A2 (buffer_kept _ _ _ _ _ _ K12 Bd))
    as (s3 & E3 & A3 & K3 & _ & H3 & _ & _).
  rewrite (bind_ok _ _ _ _ _ (E3 : st8 (direntry, de_name + e_nlen F o) 0 s2 = Ok ((), s3))); exists s3; split; [reflexivity|]; split; [exact A3|]; split; [by eapply kept_trans|].
  assert (Hlen : strlen (e_name F o) = e_nlen F o) by (unfold strlen, e_name; rewrite length_map, length_seqZ; lia).
  rewrite H3; unfold found; cbn [fst snd]; rewrite Hlen; split_and!.
  - rewrite load32_store8 by (unfold de_inode_nr, de_name; lia).
    rewrite (load32_ext (heap s1 direntry)), H1.
    + by apply load32_store32_same.
    + intros x Hx; rewrite M2, (proj2 (Z.leb_gt _ _)) by (unfold de_inode_nr, de_name in *; lia); done.
  - apply store8_same.
  - intros i Hi; rewrite store8_other by lia; rewrite M2, (proj2 (Z.leb_le _ _)), (proj2 (Z.ltb_lt _ _)) by lia; cbn [andb].
    unfold e_name; rewrite list_lookup_fmap, lookup_seqZ_lt by lia; cbn; do 2 f_equal; unfold sizeof_direntry; lia.
Qed.


(** The position after a record. *)
Lemma advance n F o :
  0 <= o -> n < 2 ^ 30 -> o + e_len F o <= n -> 0 <= e_len F o ->
  u32 (o + e_len F o) = o + e_len F o /\ u32 n = n.
Proof. intros; rewrite !u32_small by lia; done. Qed.

(** The rest of a chain behind its first record. *)
Lemma chain_next F o os n :
  chain F o os n -> o < n -> exists os', os = o :: os' /\ record_ok F o /\ chain F (o + e_len F o) os' n /\
    sizeof_direntry <= e_len F o /\ o + e_len F o <= n /\ (os' = [] <-> n <= o + e_len F o).
Proof.
  intros C Hn; destruct (chain_first F n o os C Hn) as (os' & -> & R & C'); exists os'; split; [done|].
  pose proof (chain_le _ _ _ _ C') as Hle; destruct R as [R0 R1 R2 R3 R4]; split_and!; auto; [done|lia|lia|].
  split; [intros ->; cbn in C'; lia|]; destruct os'; [done|]; cbn in Hle; lia.
Qed.

Lemma entries_cons F o os :
  entries F (o :: os) = if decide (e_inode F o = 0) then entries F os else (e_inode F o, e_name F o) :: entries F os.
Proof. unfold entries; rewrite list.filter_cons; destruct (decide (e_inode F o = 0)), (decide (e_inode F o <> 0)); done. Qed.

Lemma get_direntry_walk fuel : forall os n F s direntry entry o read index,
  dirfile n F s -> buffer s direntry -> buffer s entry -> direntry <> entry -> chain F o os n -> 0 <= o < n ->
  0 <= read <= index -> index < 2 ^ 31 -> (length os <= fuel)%nat ->
  exists s' rc, get_direntry_loop drv kmalloc now fuel (l_meta L) dir index direntry entry o read s = Ok (rc, s') /\
    dirfile n F s' /\ kept (fun b => b = direntry \/ b = entry) s s' /\
    match entries F os !! Z.to_nat (index - read) with Some e => rc = 0 /\ found (heap s' direntry) e | None => rc = -1 end.
Proof.
  induction fuel as [|fuel IH]; intros os n F s direntry entry o read index A Bd Be Hne C Ho Hr Hi Hf.
  { destruct os; cbn in *; lia. }
  destruct (chain_next F o os n C ltac:(lia)) as (os' & -> & R & C' & R1 & R2 & R3); clear C; pose proof (df_length _ _ _ _ _ _ _ A) as [Hn _].
  pose proof (ro_align _ _ R) as Ral; cbn [get_direntry_loop]; rewrite (u32_small index), (proj2 (Z.leb_le read index)) by lia; cbn [negb].
  destruct (read_record n F s entry o A Be ltac:(lia) ltac:(lia)) as (s1 & E1 & A1 & K1 & _ & _ & M1 & M2 & M3).
  rewrite (bind_ok _ _ _ _ _ E1); cbn [negb]; change (negb (u32 sizeof_direntry =? sizeof_direntry)) with false; cbv iota.
  erewrite bind_ok by reflexivity; erewrite bind_ok by reflexivity; cbn [fst snd]; rewrite M1, M2.
  assert (K1' : kept (fun b => b = direntry \/ b = entry) s s1) by (eapply kept_weaken; [exact K1|]; intros b _ <-; by right).
  assert (Hgo : forall read', 0 <= read' <= index ->
    exists s' rc, (i ← get_vnode dir; if u32 (Ext2.size i) <=? u32 (o + e_len F o) then mret (-1)
        else get_direntry_loop drv kmalloc now fuel (l_meta L) dir index direntry entry (u32 (o + e_len F o)) read') s1 = Ok (rc, s') /\
      dirfile n F s' /\ kept (fun b => b = direntry \/ b = entry) s s' /\
      match entries F os' !! Z.to_nat (index - read') with Some e => rc = 0 /\ found (heap s' direntry) e | None => rc = -1 end).
  { intros read' Hr'; erewrite bind_ok by reflexivity; rewrite (proj2 (df_size _ _ _ _ _ _ _ A1)).
    destruct (advance n F o) as [-> ->]; [lia..|unfold sizeof_direntry in *; lia|].
    destruct (Z.leb_spec n (o + e_len F o)) as [Hle|Hgt].
    - exists s1, (-1); split; [done|]; split; [done|]; split; [done|]; by rewrite (proj2 R3).
    - destruct (IH os' n F s1 direntry entry (o + e_len F o) read' index) as (s' & rc & E' & A' & K' & H'); auto;
        try (unfold sizeof_direntry in *; lia); try (by eapply buffer_kept); [cbn in Hf; lia|].
      exists s', rc; split; [exact E'|]; split; [done|]; split; [by eapply kept_trans|done]. }
  rewrite entries_cons; destruct (decide (e_inode F o = 0)) as [E0|E0].
  - rewrite E0; cbn [Z.eqb negb]; rewrite (proj2 (Z.eqb_neq (e_len F o) 0)) by (unfold sizeof_direntry in *; lia).
    erewrite bind_ok by reflexivity; apply (Hgo read Hr).
  - rewrite (proj2 (Z.eqb_neq _ 0)) by done; cbn [negb].
    destruct (Z.eqb_spec read index) as [->|Hri].
    + destruct (get_direntry_found n F s1 direntry entry o A1 (buffer_kept _ _ _ _ _ _ K1 Bd) (buffer_kept _ _ _ _ _ _ K1 Be) Hne R
        ltac:(lia) R2 M3) as (s2 & E2 & A2 & K2 & F2).
      rewrite (bind_ok _ _ _ _ _ E2); exists s2, 0; split; [reflexivity|]; split; [exact A2|]; split.
      * eapply kept_trans; [exact K1'|]; eapply kept_weaken; [exact K2|]; intros b _ <-; by left.
      * by rewrite Z.sub_diag.
    + rewrite Ral; cbn [Z.eqb negb]; erewrite bind_ok by reflexivity; rewrite (u32_small (read + 1)) by lia.
      destruct (Hgo (read + 1) ltac:(lia)) as (s' & rc & E' & A' & K' & H'); exists s', rc; split; [exact E'|]; split_and!; auto.
      by replace (Z.to_nat (index - read)) with (S (Z.to_nat (index - (read + 1)))) by lia.
Qed.


(** Buffers that are new do not matter. *)
Lemma kept_fresh (c : nat -> Prop) (s s1 s2 : fs_state D) :
  kept (fun _ => False) s s1 -> kept c s1 s2 -> forall c' : nat -> Prop, (forall b, (b < next s)%nat -> c b -> c' b) -> kept c' s s2.
Proof.
  intros K1 K2 c' H; pose proof (fun b => buffer_kept _ _ _ s s1 b K1) as Hb.
  destruct K1 as [A1 A2 [A3 A3'] A4], K2 as [B1 B2 [B3 B3'] B4]; split; [lia| |split; congruence|intros i Hi; by rewrite B4, A4].
  intros b Hbb Hn x; rewrite B2, A2; auto; intros Hc; apply Hn, H; [apply Hbb|done].
Qed.

Lemma get_direntry_ok fuel os n F s direntry index :
  dirfile n F s -> buffer s direntry -> chain F 0 os n -> 0 <= index < 2 ^ 31 -> n / sizeof_direntry <= Z.of_nat fuel ->
  exists s' rc, fs_ext2_get_direntry drv kmalloc now fuel (l_meta L) dir index direntry s = Ok (rc, s') /\
    dirfile n F s' /\ kept (eq direntry) s s' /\
    match entries F os !! Z.to_nat index with Some e => rc = 0 /\ found (heap s' direntry) e | None => rc = -1 end.
Proof.
  intros A B C Hi Hf; pose proof (df_length _ _ _ _ _ _ _ A) as [Hn _]; pose proof (chain_le _ _ _ _ C) as Hle.
  assert (Hlen : (length os <= fuel)%nat) by (unfold sizeof_direntry in *; Z.div_mod_to_equations; lia).
  destruct (local_buffer n F s A) as (s1 & E1 & A1 & B1 & K1 & _ & _ & N1).
  unfold fs_ext2_get_direntry; rewrite (bind_ok _ _ _ _ _ E1); erewrite bind_ok by reflexivity.
  rewrite (proj2 (df_size _ _ _ _ _ _ _ A1)), (proj2 (Z.eqb_neq n 0)) by lia.
  destruct (get_direntry_walk fuel os n F s1 direntry (next s) 0 0 index A1 (buffer_kept _ _ _ _ _ _ K1 B) B1) as (s' & rc & E & A' & K & H);
    auto; try lia; [destruct B; lia|].
  rewrite Z.sub_0_r in H; exists s', rc; split; [exact E|]; split; [done|]; split; [|done].
  eapply kept_fresh; [exact K1|exact K|]; intros b Hb [->| ->]; [done|lia].
Qed.

(** ** Adding entries *)

(** A record is split: it keeps the bytes up to [f], and a new record is at [f]. *)
Lemma split_record F F' o f inode name pre post n :
  chain F 0 (pre ++ o :: post) n -> 0 <= o ->
  o + sizeof_direntry + e_nlen F o <= f -> f mod 4 = 0 -> o mod 4 = 0 -> 0 <= e_inode F o ->
  f + sizeof_direntry + strlen name <= o + e_len F o -> strlen name < 256 -> 0 < inode < 2 ^ 32 ->
  (forall x, ~ (o <= x < o + sizeof_direntry) -> ~ (f <= x < o + e_len F o) -> F' x = F x) ->
  e_inode F' o = e_inode F o -> e_nlen F' o = e_nlen F o -> e_len F' o = f - o ->
  e_inode F' f = inode -> e_nlen F' f = strlen name -> e_len F' f = o + e_len F o - f -> e_name F' f = name ->
  chain F' 0 (pre ++ o :: f :: post) n /\
  exists l1 l2, entries F (pre ++ o :: post) = l1 ++ l2 /\ entries F' (pre ++ o :: f :: post) = l1 ++ (inode, name) :: l2.
Proof.
  intros C Ho Hf1 Hf2 Ho4 Hi0 Hf3 Hl Hin Hs E1 E2 E3 E4 E5 E6 E7; apply dir_chain_app in C as (b & C1 & C2); cbn in C2.
  destruct C2 as (<- & [R0 R1 R2 R3 R4] & C3); pose proof (chain_le _ _ _ _ C1); unfold sizeof_direntry, strlen in *.
  destruct (chain_same F F' 0 pre o C1) as [C1' N1]; [intros x Hx; apply Hs; lia|].
  destruct (chain_same F F' (o + e_len F o) post n C3) as [C3' N3]; [intros x Hx; apply Hs; lia|].
  assert (En : e_name F' o = e_name F o).
  { unfold e_name; rewrite E2; apply map_ext_in; intros i Hi%list_elem_of_In%elem_of_seqZ; apply Hs; unfold sizeof_direntry; lia. }
  split.
  - apply dir_chain_app; exists o; split; [done|]; cbn; rewrite E3, E6; split_and!; auto; try lia.
    + split; rewrite ?E1, ?E2, ?E3; auto; unfold sizeof_direntry; [|lia|lia].
      rewrite Zminus_mod, Hf2, Ho4; done.
    + split; rewrite ?E4, ?E5, ?E6; unfold sizeof_direntry; try lia.
      * rewrite Zminus_mod, Zplus_mod, R2, Ho4, Hf2; done.
      * assert (f mod BLOCK_SIZE = o mod BLOCK_SIZE + (f - o)); [|lia].
        assert (f / BLOCK_SIZE = o / BLOCK_SIZE) by (unfold BLOCK_SIZE in *; Z.div_mod_to_equations; lia).
        unfold BLOCK_SIZE in *; Z.div_mod_to_equations; lia.
    + by replace (f + (o + e_len F o - f)) with (o + e_len F o) by lia.
  - exists (entries F (pre ++ [o])), (entries F post); split; [by rewrite <- entries_app, <- app_assoc|].
    rewrite !entries_app, N1, !entries_cons, E1, En, E4, E7, N3; rewrite (decide_False (P := inode = 0)) by lia.
    by destruct (decide (e_inode F o = 0)); cbn; rewrite <- app_assoc, ?app_nil_l.
Qed.



Lemma new_buf_ok n F s :
  dirfile n F s -> exists s', new_buf kmalloc s = Ok (Some (next s), s') /\ dirfile n F s' /\ buffer s' (next s) /\
    kept (fun _ => False) s s' /\ free_total L s' = free_total L s /\ next s' = S (next s) /\
    (forall b, (b < next s)%nat -> heap s' b = heap s b).
Proof.
  intros A; pose proof (df_inode _ _ _ _ _ _ _ A) as (? & ? & ?); pose proof (fi_bufs _ _ (df_inv _ _ _ _ _ _ _ A)) as [? ?].
  unfold new_buf; destruct (enough (next s)) as [m ->]; eexists; split; [reflexivity|].
  assert (Hh : forall b, (b < next s)%nat -> (<[next s := m]> (heap s)) b = heap s b)
    by (intros; rewrite fn_lookup_insert_ne; [done|lia]).
  split_and!; auto.
  - eapply dirfile_heap; [done|exact A|..]; cbn; auto; intros; by rewrite Hh by lia.
  - unfold buffer; cbn; lia.
  - split; cbn; auto; intros b (? & _) _ x; by rewrite Hh.
Qed.

(** What the buffers of the existing and of the new entry hold. *)
Definition holds_record (s : fs_state D) (b : nat) (F : mem) (o : Z) : Prop :=
  forall x, 0 <= x < sizeof_direntry -> heap s b x = F (o + x).
Definition holds_new (s : fs_state D) (b : nat) (inode : Z) (name : list Z) (len : Z) : Prop :=
  load32 (heap s b) d_inode = inode /\ heap s b d_name_len = strlen name /\ load16 (heap s b) d_rec_len = len.

Lemma name_of F o name :
  e_nlen F o = strlen name -> (forall i, 0 <= i < strlen name -> F (o + sizeof_direntry + i) = default 0 (name !! Z.to_nat i)) ->
  e_name F o = name.
Proof.
  intros En H; unfold e_name; rewrite En; apply list_eq; intros i; rewrite list_lookup_fmap.
  destruct (decide (i < length name)%nat) as [Hin|Hin].
  - rewrite lookup_seqZ_lt by (unfold strlen; lia); cbn; rewrite H by (unfold strlen; lia).
    rewrite Z.add_0_l, Nat2Z.id; destruct (lookup_lt_is_Some_2 name i Hin) as [v ->]; done.
  - rewrite lookup_seqZ_ge by (unfold strlen; lia); symmetry; apply lookup_ge_None_2; lia.
Qed.

(** The name that gets into the record: its length is kept in a byte. *)
Definition stored (name : list Z) : list Z := take (Z.to_nat (u8 (strlen name))) name.

Lemma stored_length name : strlen (stored name) = u8 (strlen name) /\ 0 <= strlen (stored name) < 256 /\ strlen (stored name) <= strlen name.
Proof.
  unfold stored, strlen; rewrite length_take; set (k := Z.of_nat (length name)).
  assert (0 <= u8 k < 256 /\ u8 k <= k) by (unfold u8; change (2 ^ 8) with 256; Z.div_mod_to_equations; lia); lia.
Qed.

Lemma stored_lookup name i : 0 <= i < strlen (stored name) -> stored name !! Z.to_nat i = name !! Z.to_nat i.
Proof. intros Hi; unfold stored; apply lookup_take_lt; unfold strlen, stored in Hi; rewrite length_take in Hi; lia. Qed.

Lemma stored_name name : strlen name <= 256 -> stored name = if strlen name =? 256 then [] else name.
Proof.
  intros Hl; unfold stored; case_test; [|by rewrite u8_small, take_ge by (unfold strlen in *; lia)].
  by replace (strlen name) with 256 by lia.
Qed.

(** The bytes of the directory after both records have been written. *)
Lemma splice_bytes F o f (E N B : mem) inode name pre post n :
  let len := e_len F o in
  let F2 := blit (blit F o (store16 E d_rec_len (f - o)) 0 8) f B 0 (o + len - f) in
  chain F 0 (pre ++ o :: post) n -> 0 <= o -> o mod 4 = 0 -> f mod 4 = 0 -> record_ok F o ->
  o + 8 + e_nlen F o <= f -> f + 8 + strlen name <= o + len -> strlen name < 256 -> 0 < inode < 2 ^ 32 -> len <= BLOCK_SIZE ->
  (forall x, 0 <= x < 8 -> E x = F (o + x)) ->
  load32 N d_inode = inode -> N d_name_len = strlen name ->
  (forall x, 0 <= x < 8 -> B x = store16 N d_rec_len (o + len - f) x) ->
  (forall i, 0 <= i < strlen name -> B (8 + i) = default 0 (name !! Z.to_nat i)) ->
  chain F2 0 (pre ++ o :: f :: post) n /\
  exists l1 l2, entries F (pre ++ o :: post) = l1 ++ l2 /\ entries F2 (pre ++ o :: f :: post) = l1 ++ (inode, name) :: l2.
Proof.
  intros len F2 C Ho Ho4 Hf4 R Hf1 Hf2 Hl Hi Hlen HE HN1 HN2 HB1 HB2; pose proof R as [R0 R1 R2 R3 R4].
  assert (Hl0 : 0 <= strlen name) by (unfold strlen; lia); unfold d_rec_len, d_inode, d_name_len, BLOCK_SIZE in *.
  assert (Fo : forall x, 0 <= x < 8 -> F2 (o + x) = store16 E 4 (f - o) x).
  { intros x Hx; unfold F2; rewrite blit_out, blit_in by lia; f_equal; lia. }
  assert (Ff : forall x, 0 <= x < o + len - f -> F2 (f + x) = B x).
  { intros x Hx; unfold F2; rewrite blit_in by lia; f_equal; lia. }
  assert (Eo : forall x, 0 <= x < 8 -> ~ (4 <= x < 6) -> F2 (o + x) = F (o + x)).
  { intros x Hx Hx'; rewrite Fo, store16_other by lia; by apply HE. }
  apply (split_record F F2 o f inode name pre post n C); unfold sizeof_direntry; auto; try lia.
  - intros x H1 H2; unfold F2; rewrite !blit_out by lia; done.
  - apply load32_shift; intros x Hx; unfold d_inode; rewrite <- !Z.add_assoc; apply Eo; lia.
  - unfold e_nlen, d_name_len; apply Eo; lia.
  - unfold e_len, d_rec_len; rewrite (load16_shift F2 (store16 E 4 (f - o)) _ 4) by (intros; rewrite <- Z.add_assoc; apply Fo; lia).
    apply load16_store16_same; lia.
  - rewrite <- HN1; apply load32_shift; intros x Hx; unfold d_inode; rewrite <- Z.add_assoc, Ff, HB1 by lia.
    apply store16_other; lia.
  - unfold e_nlen, d_name_len; rewrite Ff, HB1, store16_other by lia; done.
  - unfold e_len, d_rec_len; rewrite (load16_shift F2 (store16 N 4 (o + len - f)) _ 4) by (intros; rewrite <- Z.add_assoc, Ff by lia; apply HB1; lia).
    transitivity (o + len - f); [apply load16_store16_same; lia|done].
  - apply name_of; [unfold e_nlen, d_name_len; rewrite Ff, HB1, store16_other by lia; done|].
    intros i Hin; unfold sizeof_direntry; rewrite <- Z.add_assoc, Ff by lia; by apply HB2.
Qed.

Lemma splice_ok pre o post n F s entry new inode name :
  dirfile n F s -> chain F 0 (pre ++ o :: post) n -> buffer s entry -> buffer s new -> entry <> new ->
  holds_record s entry F o -> holds_new s new inode (stored name) (align4 (sizeof_direntry + strlen name)) ->
  strlen name <= 256 -> 0 < inode < 2 ^ 32 -> 8 <= free_total L s ->
  exists s' rc, splice_direntry drv kmalloc now entry new (l_meta L) dir o name s = Ok (rc, s') /\
    ((rc = 0 /\ s' = s) \/
     rc = 1 /\ kept (fun b => b = entry \/ b = new) s s' /\ exists F' os', dirfile n F' s' /\ chain F' 0 os' n /\
       exists l1 l2, entries F (pre ++ o :: post) = l1 ++ l2 /\ entries F' os' = l1 ++ (inode, stored name) :: l2).
Proof.
  intros A C Be Bn Hne He (Hn1 & Hn2 & Hn3) Hl Hi Ht; pose proof (df_length _ _ _ _ _ _ _ A) as [Hn Hm].
  destruct (chain_in F 0 (pre ++ o :: post) n o C) as (R & R1 & R2); [apply elem_of_app; right; by left|].
  destruct (chain_aligned F 0 _ n C) as [_ Hal]; [done|]; specialize (Hal o ltac:(apply elem_of_app; right; by left)).
  pose proof R as [R0 Rn Ra Rf Rb]; unfold holds_record, sizeof_direntry in *.
  assert (Hv : load16 (heap s entry) d_rec_len = e_len F o)
    by (apply load16_shift; intros x Hx; rewrite He by (unfold d_rec_len; lia); f_equal; lia).
  assert (Hvn : heap s entry d_name_len = e_nlen F o) by (by rewrite He).
  assert (Hl0 : 0 <= strlen name) by (unfold strlen; lia); destruct (stored_length name) as (_ & Hs1 & Hs2).
  destruct (align4_ok (8 + strlen name)) as [Al1 Al2]; [lia|].
  destruct (align4_ok (o + (e_nlen F o + 8))) as [Af1 Af2]; [lia|].
  assert (Ev : validate_direntry entry dir s = Ok (0, s)).
  { unfold validate_direntry; do 2 erewrite bind_ok by reflexivity; cbn [fst snd]; rewrite Hv, Ra, (proj2 (df_size _ _ _ _ _ _ _ A)).
    by rewrite Z.rem_mod_nonneg, Hm by (unfold BLOCK_SIZE; lia). }
  unfold splice_direntry; rewrite (bind_ok _ _ _ _ _ Ev); cbn [Z.eqb negb]; unfold ld8; do 3 erewrite bind_ok by reflexivity; cbn [fst snd].
  rewrite Hv, Hvn, Hn3; unfold sizeof_direntry; rewrite (u32_small (o + (e_nlen F o + 8))) by lia; cbv zeta.
  set (f := align4 (o + (e_nlen F o + 8))) in *; set (new_len := align4 (8 + strlen name)) in *.
  rewrite (u32_small (f + new_len - 1)), (u32_small (o + e_len F o)) by lia.
  destruct (Z.ltb_spec (f + new_len - 1) (o + e_len F o)) as [Hfit|Hfit]; [|exists s, 0; split; [done|by left]].
  destruct (new_buf_ok n F s A) as (s1 & E1 & A1 & B1 & K1 & T1 & N1 & H1); rewrite (bind_ok _ _ _ _ _ E1).
  erewrite bind_ok by reflexivity; cbn [fst snd]; rewrite H1 by apply Bn; rewrite Hn2.
  rewrite (proj2 (Z.ltb_ge BLOCK_SIZE _)) by (unfold BLOCK_SIZE; lia); rewrite (u16_small (o + e_len F o - f)), (u16_small (f - o))
    by (unfold BLOCK_SIZE in *; pose proof (Z.mod_pos_bound o 1024); lia).
  set (c := fun b => b = entry \/ b = new \/ b = next s).
  assert (Hc : forall b, b = entry \/ b = new \/ b = next s -> forall s' s'' : fs_state D, kept (eq b) s' s'' -> kept c s' s'')
    by (intros b Hb s' s'' K; eapply kept_weaken; [exact K|]; by intros ? _ <-).
  pose proof (buffer_kept _ _ _ _ _ _ K1 Be) as Be1; pose proof (buffer_kept _ _ _ _ _ _ K1 Bn) as Bn1.
  destruct (set_buf_ok n F s1 new (store16 (heap s1 new) d_rec_len (o + e_len F o - f)) A1 Bn1) as (s2 & E2 & A2 & K2%Hc & T2 & H2 & O2 & _);
    [|by right; left].
  rewrite (bind_ok _ _ _ _ _ (E2 : st16 (new, d_rec_len) (o + e_len F o - f) s1 = Ok ((), s2))).
  destruct (set_buf_ok n F s2 entry (store16 (heap s2 entry) d_rec_len (f - o)) A2 (buffer_kept _ _ _ _ _ _ K2 Be1))
    as (s3 & E3 & A3 & K3%Hc & T3 & H3 & O3 & _); [|by left].
  rewrite (bind_ok _ _ _ _ _ (E3 : st16 (entry, d_rec_len) (f - o) s2 = Ok ((), s3))).
  pose proof (kept_trans _ _ _ _ _ _ K2 K3) as K13.
  assert (Hblk : o / BLOCK_SIZE = (o + e_len F o - 1) / BLOCK_SIZE /\ f / BLOCK_SIZE = o / BLOCK_SIZE /\ (o + 8 - 1) / BLOCK_SIZE = o / BLOCK_SIZE)
    by (unfold BLOCK_SIZE in *; Z.div_mod_to_equations; lia).
  destruct Hblk as (Hb1 & Hb2 & Hb3); rewrite (s32_small o), (s32_small f) by lia.
  destruct (dir_write L Lo Li drv ops device registered meta_dev kmalloc enough now dir n F s3 8 o entry 0 A3
    (buffer_kept _ _ _ _ _ _ K13 Be1)) as (s4 & E4 & A4 & K4 & T4); [lia..|].
  rewrite (bind_ok _ _ _ _ _ E4); change (negb (u32 8 =? 8)) with false; cbv iota.
  rewrite Z.max_l in A4 by lia; set (F1 := blit F o (heap s3 entry) 0 8) in *.
  assert (K14 : kept c s1 s4) by (eapply kept_trans; [exact K13|]; eapply kept_weaken; [exact K4|by intros b _ []]).
  pose proof (buffer_kept _ _ _ _ _ _ K14 B1) as Bb4.
  destruct (set_buf_ok n F1 s4 (next s) (blit (heap s4 (next s)) 0 (heap s4 new) 0 8) A4 Bb4)
    as (s5 & E5 & A5 & K5%Hc & T5 & H5 & O5 & _); [|by right; right].
  rewrite (bind_ok _ _ _ _ _ (E5 : copy_buf (next s, 0) (new, 0) 8 s4 = Ok ((), s5))).
  destruct (set_buf_ok n F1 s5 (next s) (blit (heap s5 (next s)) 8 (fun i => default 0 (name !! Z.to_nat i)) 0 (strlen (stored name))) A5
    (buffer_kept _ _ _ _ _ _ K5 Bb4)) as (s6 & E6 & A6 & K6%Hc & T6 & H6 & _ & _); [|by right; right].
  rewrite (bind_ok _ _ _ _ _ (E6 : copy_name (next s, 8) name (strlen (stored name)) s5 = Ok ((), s6))).
  pose proof (kept_trans _ _ _ _ _ _ K14 (kept_trans _ _ _ _ _ _ K5 K6)) as K16.
  destruct (dir_write L Lo Li drv ops device registered meta_dev kmalloc enough now dir n F1 s6 (o + e_len F o - f) f (next s) 0 A6
    (buffer_kept _ _ _ _ _ _ K16 B1)) as (s7 & E7 & A7 & K7 & T7);
    [lia..|replace (f + (o + e_len F o - f) - 1) with (o + e_len F o - 1) by lia; rewrite <- Hb1, Hb2; lia|].
  rewrite (bind_ok _ _ _ _ _ E7), Z.eqb_refl; cbn [negb]; rewrite Z.max_l in A7 by lia.
  exists s7, 1; split; [reflexivity|]; right; split; [done|]; split.
  { eapply kept_fresh; [exact K1|eapply kept_trans; [exact K16|eapply kept_weaken; [exact K7|by intros b _ []]]|].
    intros b Hb [->|[->| ->]]; [by left|by right|lia]. }
  eexists _, (pre ++ o :: f :: post); split; [exact A7|].
  unfold F1; rewrite H3, O2, (H1 entry) by (done || apply Be).
  apply (splice_bytes F o f (heap s entry) (heap s new) (heap s6 (next s)) inode (stored name) pre post n C); auto; try (unfold BLOCK_SIZE in *; lia).
  - pose proof (Z.mod_pos_bound o BLOCK_SIZE); unfold BLOCK_SIZE in *; lia.
  - intros x Hx; rewrite H6, blit_out, H5, blit_in by lia; rewrite (kp_heap _ _ _ _ _ K4 new (buffer_kept _ _ _ _ _ _ K13 Bn1)) by auto.
    rewrite O3, H2, H1 by (done || apply Bn); f_equal; lia.
  - intros i Hin; rewrite H6, blit_in, stored_lookup by lia; do 3 f_equal; lia.
Qed.

Lemma fill_ok n F s b inode name len :
  dirfile n F s -> buffer s b -> 0 <= inode < 2 ^ 32 -> 0 <= len < 2 ^ 16 ->
  exists s', fill_direntry b inode name len s = Ok ((), s') /\ dirfile n F s' /\ kept (eq b) s s' /\
    free_total L s' = free_total L s /\ holds_new s' b inode (stored name) len.
Proof.
  intros A B Hi Hn; destruct (stored_length name) as (Hs & Hs1 & _); unfold fill_direntry; rewrite <- Hs.
  destruct (set_buf_ok n F s b (store8 (heap s b) d_file_type 0) A B) as (s1 & E1 & A1 & K1 & T1 & H1 & _ & _).
  rewrite (bind_ok _ _ _ _ _ (E1 : st8 (b, d_file_type) 0 s = Ok ((), s1))).
  destruct (set_buf_ok n F s1 b (store32 (heap s1 b) d_inode inode) A1 (buffer_kept _ _ _ _ _ _ K1 B)) as (s2 & E2 & A2 & K2 & T2 & H2 & _ & _).
  rewrite (bind_ok _ _ _ _ _ (E2 : st32 (b, d_inode) inode s1 = Ok ((), s2))); pose proof (kept_trans _ _ _ _ _ _ K1 K2) as K12.
  destruct (set_buf_ok n F s2 b (store8 (heap s2 b) d_name_len (strlen (stored name))) A2 (buffer_kept _ _ _ _ _ _ K12 B))
    as (s3 & E3 & A3 & K3 & T3 & H3 & _ & _).
  rewrite (bind_ok _ _ _ _ _ (E3 : st8 (b, d_name_len) (strlen (stored name)) s2 = Ok ((), s3))); pose proof (kept_trans _ _ _ _ _ _ K12 K3) as K13.
  destruct (set_buf_ok n F s3 b (store16 (heap s3 b) d_rec_len len) A3 (buffer_kept _ _ _ _ _ _ K13 B))
    as (s4 & E4 & A4 & K4 & T4 & H4 & _ & _).
  exists s4; split; [exact E4|]; split; [done|]; split; [by eapply kept_trans|]; split; [lia|].
  unfold holds_new; rewrite H4, H3, H2; split_and!.
  - unfold d_inode, d_rec_len, d_name_len; rewrite load32_store16, load32_store8 by lia; by apply load32_store32_same.
  - rewrite store16_other by (unfold d_name_len, d_rec_len; lia); apply store8_same.
  - by apply load16_store16_same.
Qed.

(** A record for a whole block at the end. *)
Lemma append_bytes F (B N : mem) os n inode name :
  let F' := blit F n B 0 BLOCK_SIZE in
  chain F 0 os n -> 0 <= n -> n mod BLOCK_SIZE = 0 -> strlen name < 256 -> 0 < inode < 2 ^ 32 ->
  load32 N d_inode = inode -> N d_name_len = strlen name -> load16 N d_rec_len = BLOCK_SIZE ->
  (forall x, 0 <= x < 8 -> B x = N x) -> (forall i, 0 <= i < strlen name -> B (8 + i) = default 0 (name !! Z.to_nat i)) ->
  chain F' 0 (os ++ [n]) (n + BLOCK_SIZE) /\ entries F' (os ++ [n]) = entries F os ++ [(inode, name)].
Proof.
  intros F' C Hn Hm Hl Hi N1 N2 N3 HB1 HB2; assert (Hl0 : 0 <= strlen name) by (unfold strlen; lia).
  destruct (chain_same F F' 0 os n C) as [C' Ee]; [intros x Hx; unfold F'; rewrite blit_out by lia; done|].
  assert (Hb : forall x, 0 <= x < BLOCK_SIZE -> F' (n + x) = B x) by (intros x Hx; unfold F'; rewrite blit_in by lia; f_equal; lia).
  unfold BLOCK_SIZE, d_inode, d_rec_len, d_name_len in *.
  assert (E1 : e_inode F' n = inode).
  { rewrite <- N1; apply load32_shift; intros x Hx; unfold d_inode; rewrite <- Z.add_assoc, Hb by lia; apply HB1; lia. }
  assert (E2 : e_len F' n = 1024).
  { rewrite <- N3; apply load16_shift; intros x Hx; unfold d_rec_len; rewrite <- Z.add_assoc, Hb by lia; apply HB1; lia. }
  assert (E3 : e_nlen F' n = strlen name) by (unfold e_nlen, d_name_len; rewrite Hb, HB1 by lia; done).
  assert (E4 : e_name F' n = name) by (apply name_of; [done|]; intros i Hin; rewrite <- Z.add_assoc, Hb by (unfold sizeof_direntry; lia); apply HB2; lia).
  split.
  - apply dir_chain_app; exists n; split; [done|]; cbn; rewrite E2; split; [done|]; split; [|done].
    split; rewrite ?E1, ?E2, ?E3; unfold sizeof_direntry, BLOCK_SIZE; try lia; done.
  - rewrite entries_app, Ee, entries_cons, E1, E4, decide_False by lia; done.
Qed.

Lemma append_ok os n F s inode name :
  dirfile n F s -> chain F 0 os n -> strlen name <= 256 -> 0 < inode < 2 ^ 32 -> n + BLOCK_SIZE < 2 ^ 30 -> 4 <= free_total L s ->
  exists s' F', append_direntry drv kmalloc now (l_meta L) dir inode name s = Ok (0, s') /\ kept (fun _ => False) s s' /\
    dirfile (n + BLOCK_SIZE) F' s' /\ chain F' 0 (os ++ [n]) (n + BLOCK_SIZE) /\
    entries F' (os ++ [n]) = entries F os ++ [(inode, stored name)].
Proof.
  intros A C Hl Hi Hn Ht; destruct (stored_length name) as (_ & Hs1 & Hs2); pose proof (df_length _ _ _ _ _ _ _ A) as [Hn0 Hm].
  unfold append_direntry; destruct (local_buffer n F s A) as (s1 & E1 & A1 & B1 & K1 & T1 & _ & N1); rewrite (bind_ok _ _ _ _ _ E1).
  destruct (fill_ok n F s1 (next s) inode name BLOCK_SIZE A1 B1) as (s2 & E2 & A2 & K2 & T2 & Hf1 & Hf2 & Hf3); [lia|done|].
  rewrite (bind_ok _ _ _ _ _ E2); destruct (new_buf_ok n F s2 A2) as (s3 & E3 & A3 & B3 & K3 & T3 & N3 & H3); rewrite (bind_ok _ _ _ _ _ E3).
  erewrite bind_ok by reflexivity; set (b := next s2) in *.
  destruct (set_buf_ok n F s3 b (blit (heap s3 b) 0 (fun _ => 0) 0 BLOCK_SIZE) A3 B3) as (s4 & E4 & A4 & K4 & T4 & H4 & O4 & _).
  rewrite (bind_ok _ _ _ _ _ E4); unfold ld8; erewrite bind_ok by reflexivity; cbn [fst snd].
  assert (Hlt : (next s < b)%nat) by (pose proof (kp_next _ _ _ _ _ K2); unfold b; lia).
  rewrite O4, H3, Hf2 by lia; rewrite (proj2 (Z.ltb_ge BLOCK_SIZE _)) by (unfold BLOCK_SIZE, sizeof_direntry; lia).
  pose proof (buffer_kept _ _ _ _ _ _ K4 B3) as B4.
  destruct (set_buf_ok n F s4 b (blit (heap s4 b) 0 (heap s4 (next s)) 0 8) A4 B4) as (s5 & E5 & A5 & K5 & T5 & H5 & O5 & _).
  rewrite (bind_ok _ _ _ _ _ (E5 : copy_buf (b, 0) (next s, 0) sizeof_direntry s4 = Ok ((), s5))).
  destruct (set_buf_ok n F s5 b (blit (heap s5 b) 8 (fun i => default 0 (name !! Z.to_nat i)) 0 (strlen (stored name))) A5 (buffer_kept _ _ _ _ _ _ K5 B4))
    as (s6 & E6 & A6 & K6 & T6 & H6 & _ & _).
  rewrite (bind_ok _ _ _ _ _ (E6 : copy_name (b, sizeof_direntry) name (strlen (stored name)) s5 = Ok ((), s6))).
  erewrite bind_ok by reflexivity; rewrite (proj2 (df_size _ _ _ _ _ _ _ A6)).
  pose proof (kept_trans _ _ _ _ _ _ K5 K6) as K56.
  destruct (dir_write L Lo Li drv ops device registered meta_dev kmalloc enough now dir n F s6 BLOCK_SIZE n b 0 A6 (buffer_kept _ _ _ _ _ _ K56 B4))
    as (s7 & E7 & A7 & K7 & T7); [lia|done|by right|done| |].
  { assert ((n + BLOCK_SIZE - 1) / BLOCK_SIZE = n / BLOCK_SIZE) as -> by (unfold BLOCK_SIZE in *; Z.div_mod_to_equations; lia); lia. }
  rewrite (bind_ok _ _ _ _ _ E7); change (negb (BLOCK_SIZE =? BLOCK_SIZE)) with false; cbv iota; rewrite Z.max_r in A7 by (unfold BLOCK_SIZE; lia).
  eexists s7, _; split; [reflexivity|]; split; [|split; [exact A7|]].
  - assert (Kb : kept (eq b) s3 s7).
    { eapply kept_trans; [exact K4|]; eapply kept_trans; [exact K56|]; eapply kept_weaken; [exact K7|by intros ? _ []]. }
    assert (K23 : kept (fun x => x = next s \/ x = b) s1 s7).
    { eapply kept_trans; [eapply kept_weaken; [exact K2|]; intros x _ <-; by left|].
      eapply kept_trans; [eapply kept_weaken; [exact K3|by intros ? _ []]|]; eapply kept_weaken; [exact Kb|]; intros x _ <-; by right. }
    eapply kept_fresh; [exact K1|exact K23|]; intros x Hx [->| ->]; lia.
  - apply (append_bytes F (heap s6 b) (heap s2 (next s)) os n inode (stored name) C); auto; try lia.
    + intros x Hx; rewrite H6, blit_out, H5, blit_in, O4, H3 by lia; f_equal; lia.
    + intros i Hin; rewrite H6, blit_in, stored_lookup by lia; do 3 f_equal; lia.
Qed.

(** An entry has been added to the directory. *)
Definition added (inode : Z) (name : list Z) (F : mem) (os : list Z) (n : Z) (s' : fs_state D) : Prop :=
  exists F' os' n', dirfile n' F' s' /\ chain F' 0 os' n' /\ n <= n' <= n + BLOCK_SIZE /\
    exists l1 l2, entries F os = l1 ++ l2 /\ entries F' os' = l1 ++ (inode, stored name) :: l2.

Lemma create_walk inode name n F entry new fuel : forall pre o post s,
  dirfile n F s -> chain F 0 (pre ++ o :: post) n -> buffer s entry -> buffer s new -> entry <> new ->
  holds_new s new inode (stored name) (align4 (sizeof_direntry + strlen name)) ->
  strlen name <= 256 -> 0 < inode < 2 ^ 32 -> n + BLOCK_SIZE < 2 ^ 30 -> 8 <= free_total L s -> (length (o :: post) <= fuel)%nat ->
  exists s', create_direntry_loop drv kmalloc now fuel (l_meta L) dir inode name entry new o s = Ok (0, s') /\
    kept (fun b => b = entry \/ b = new) s s' /\ added inode name F (pre ++ o :: post) n s'.
Proof.
  induction fuel as [|fuel IH]; intros pre o post s A C Be Bn Hne Hh Hl Hi Hn Ht Hf; [cbn in Hf; lia|].
  pose proof (df_length _ _ _ _ _ _ _ A) as [Hn0 _].
  destruct (chain_in F 0 (pre ++ o :: post) n o C) as (R & R1 & R2); [apply elem_of_app; right; by left|].
  pose proof (ro_fits _ _ R); pose proof (ro_name _ _ R); cbn [create_direntry_loop].
  destruct (read_record n F s entry o A Be R1) as (s1 & E1 & A1 & K1 & T1 & M1 & _ & M2 & _); [lia|].
  rewrite (bind_ok _ _ _ _ _ E1); change (negb (u32 sizeof_direntry =? sizeof_direntry)) with false; cbv iota.
  assert (Hk : forall s2, kept (fun b => b = entry \/ b = new) s1 s2 -> kept (fun b => b = entry \/ b = new) s s2).
  { intros s2 K; eapply kept_trans; [eapply kept_weaken; [exact K1|]; intros b _ <-; by left|exact K]. }
  pose proof (buffer_kept _ _ _ _ _ _ K1 Be) as Be1; pose proof (buffer_kept _ _ _ _ _ _ K1 Bn) as Bn1.
  assert (Hh1 : holds_new s1 new inode (stored name) (align4 (sizeof_direntry + strlen name))).
  { destruct Hh as (H1 & H2 & H3); unfold holds_new; pose proof (kp_heap _ _ _ _ _ K1 new Bn Hne) as Hx.
    rewrite (load32_ext (heap s new)), (load16_ext (heap s new)), Hx by (intros; apply Hx); done. }
  destruct (splice_ok pre o post n F s1 entry new inode name A1 C Be1 Bn1 Hne M1 Hh1 Hl Hi ltac:(lia))
    as (s2 & rc & E2 & [[-> ->]|(-> & K2 & F' & os' & A2 & C2 & Hadd)]); rewrite (bind_ok _ _ _ _ _ E2); cbn [Z.eqb].
  2:{ exists s2; split; [done|]; split; [by apply Hk|]; exists F', os', n; split_and!; auto; unfold BLOCK_SIZE; lia. }
  erewrite bind_ok by reflexivity; erewrite bind_ok by reflexivity; cbn [fst snd]; rewrite M2, (proj2 (df_size _ _ _ _ _ _ _ A1)).
  destruct (advance n F o) as [-> ->]; [lia..|unfold sizeof_direntry in *; lia|].
  assert (C' : exists b, chain F b post n /\ b = o + e_len F o).
  { apply dir_chain_app in C as (b & _ & C); cbn in C; destruct C as (_ & _ & C); eauto. }
  destruct C' as (b & C' & ->); destruct (Z.leb_spec n (o + e_len F o)) as [Hle|Hgt].
  - destruct (append_ok (pre ++ o :: post) n F s1 inode name A1 C Hl Hi Hn ltac:(lia)) as (s2 & F' & E3 & K3 & A3 & C3 & N3).
    exists s2; split; [exact E3|]; split; [apply Hk; eapply kept_weaken; [exact K3|by intros ? _ []]|].
    exists F', ((pre ++ o :: post) ++ [n]), (n + BLOCK_SIZE); split_and!; auto; try (unfold BLOCK_SIZE; lia).
    exists (entries F (pre ++ o :: post)), []; split; [by rewrite app_nil_r|done].
  - destruct (chain_next F _ post n C' Hgt) as (post' & -> & _ & C'' & _).
    destruct (IH (pre ++ [o]) (o + e_len F o) post' s1) as (s2 & E3 & K3 & Hadd); rewrite <- ?app_assoc; auto; try lia.
    { cbn in *; lia. }
    exists s2; split; [exact E3|]; split; [by apply Hk|]; by rewrite <- app_assoc in Hadd.
Qed.

Lemma create_direntry_ok fuel os n F s inode name :
  dirfile n F s -> chain F 0 os n -> strlen name <= 256 -> 0 < inode < 2 ^ 32 -> n + BLOCK_SIZE < 2 ^ 30 ->
  8 <= free_total L s -> n / sizeof_direntry <= Z.of_nat fuel ->
  exists s', create_direntry drv kmalloc now fuel (l_meta L) dir inode name s = Ok (0, s') /\
    kept (fun _ => False) s s' /\ added inode name F os n s'.
Proof.
  intros A C Hl Hi Hn Ht Hf; assert (Hl0 : 0 <= strlen name) by (unfold strlen; lia).
  pose proof (df_length _ _ _ _ _ _ _ A) as [Hn0 _]; pose proof (chain_le _ _ _ _ C) as Hle.
  assert (Hlen : (length os <= fuel)%nat) by (unfold sizeof_direntry in *; Z.div_mod_to_equations; lia).
  destruct (chain_next F 0 os n C ltac:(lia)) as (os' & -> & _).
  unfold create_direntry; destruct (local_buffer n F s A) as (s1 & E1 & A1 & B1 & K1 & T1 & _ & N1); rewrite (bind_ok _ _ _ _ _ E1).
  destruct (local_buffer n F s1 A1) as (s2 & E2 & A2 & B2 & K2 & T2 & _ & N2); rewrite (bind_ok _ _ _ _ _ E2).
  rewrite (proj2 (Z.ltb_ge FILE_NAME_MAX _)) by (unfold FILE_NAME_MAX; lia).
  destruct (align4_ok (sizeof_direntry + strlen name)) as [Al _]; [unfold sizeof_direntry; lia|].
  rewrite (u16_small (sizeof_direntry + strlen name)), u16_small by (unfold sizeof_direntry in *; lia).
  destruct (fill_ok n F s2 (next s1) inode name (align4 (sizeof_direntry + strlen name)) A2 B2) as (s3 & E3 & A3 & K3 & T3 & Hh);
    [lia|unfold sizeof_direntry in *; lia|]; rewrite (bind_ok _ _ _ _ _ E3).
  pose proof (buffer_kept _ _ _ _ _ _ K3 (buffer_kept _ _ _ _ _ _ K2 B1)) as Be.
  destruct (create_walk inode name n F (next s) (next s1) fuel [] 0 os' s3) as (s4 & E4 & K4 & Hadd); auto; try lia.
  { by eapply buffer_kept. }
  exists s4; split; [exact E4|]; split; [|exact Hadd].
  eapply (kept_fresh (fun b => b = next s \/ b = next s1)); [exact K1| |intros b Hb [->| ->]; lia].
  eapply kept_trans; [eapply kept_weaken; [exact K2|by intros ? _ []]|].
  eapply kept_trans; [eapply kept_weaken; [exact K3|]; intros b _ <-; by right|exact K4].
Qed.

Lemma create_direntry_long fuel n F s inode name :
  dirfile n F s -> FILE_NAME_MAX < strlen name ->
  exists s', create_direntry drv kmalloc now fuel (l_meta L) dir inode name s = Ok (EINVAL, s') /\ dirfile n F s' /\ disk s' = disk s.
Proof.
  intros A Hl; unfold create_direntry; destruct (local_buffer n F s A) as (s1 & E1 & A1 & _); rewrite (bind_ok _ _ _ _ _ E1).
  destruct (local_buffer n F s1 A1) as (s2 & E2 & A2 & _); rewrite (bind_ok _ _ _ _ _ E2), (proj2 (Z.ltb_lt _ _)) by done.
  exists s2; split; [done|]; split; [done|]; by injection E1 as <-; injection E2 as <-.
Qed.

(** ** Removing and changing entries *)

Lemma holds_fields s b F o :
  holds_record s b F o -> load32 (heap s b) d_inode = e_inode F o /\ load16 (heap s b) d_rec_len = e_len F o /\ heap s b d_name_len = e_nlen F o.
Proof.
  intros H; unfold holds_record, sizeof_direntry in H; split_and!.
  - apply load32_shift; intros x Hx; unfold d_inode; rewrite H by lia; f_equal; lia.
  - apply load16_shift; intros x Hx; unfold d_rec_len; rewrite H by lia; f_equal; lia.
  - by rewrite H by (unfold d_name_len; lia).
Qed.

(** A record is extended by the next one. *)
Lemma merge_bytes F (P : mem) pre p o post n :
  let F' := blit F p (store16 P d_rec_len (e_len F p + e_len F o)) 0 8 in
  chain F 0 (pre ++ p :: o :: post) n -> o mod BLOCK_SIZE <> 0 -> (forall x, 0 <= x < 8 -> P x = F (p + x)) ->
  chain F' 0 (pre ++ p :: post) n /\ entries F' (pre ++ p :: post) = entries F (pre ++ p :: post).
Proof.
  intros F' C Ho HP; apply dir_chain_app in C as (b & C1 & C2); cbn in C2; destruct C2 as (<- & Rp & Eo & Ro & C3).
  pose proof (chain_le _ _ _ _ C1); destruct Rp as [P0 P1 P2 P3 P4], Ro as [O0 O1 O2 O3 O4]; unfold sizeof_direntry, BLOCK_SIZE in *.
  assert (Hmod : o mod 1024 = p mod 1024 + e_len F p) by (Z.div_mod_to_equations; lia).
  set (len := e_len F p + e_len F o) in *; pose proof (Z.mod_pos_bound p 1024).
  assert (Fp : forall x, 0 <= x < 8 -> F' (p + x) = store16 P 4 len x) by (intros x Hx; unfold F'; rewrite blit_in by lia; f_equal; lia).
  assert (Fo : forall x, ~ (p + 4 <= x < p + 6) -> F' x = F x).
  { intros x Hx; destruct (decide (p <= x < p + 8)); [|unfold F'; by rewrite blit_out by lia].
    replace x with (p + (x - p)) by lia; rewrite Fp, store16_other, HP by lia; done. }
  destruct (chain_same F F' 0 pre p C1) as [C1' N1]; [intros x Hx; apply Fo; lia|].
  destruct (chain_same F F' _ post n C3) as [C3' N3]; [intros x Hx; apply Fo; lia|].
  assert (E1 : e_inode F' p = e_inode F p) by (apply load32_shift; intros x Hx; unfold d_inode; apply Fo; lia).
  assert (E2 : e_nlen F' p = e_nlen F p) by (unfold e_nlen, d_name_len; apply Fo; lia).
  assert (E3 : e_name F' p = e_name F p) by (unfold e_name; rewrite E2; apply map_ext_in; intros i Hi%list_elem_of_In%elem_of_seqZ; apply Fo; unfold sizeof_direntry; lia).
  assert (E4 : e_len F' p = len).
  { unfold e_len, d_rec_len; rewrite (load16_shift F' (store16 P 4 len) _ 4) by (intros; rewrite <- Z.add_assoc; apply Fp; lia).
    apply load16_store16_same; lia. }
  split.
  - apply dir_chain_app; exists p; split; [done|]; cbn; rewrite E4; split; [done|]; split; [|by replace (p + len) with (o + e_len F o) by (unfold len; lia)].
    split; rewrite ?E1, ?E2, ?E4; unfold sizeof_direntry, BLOCK_SIZE; try lia; unfold len; rewrite Zplus_mod, P2, O2; done.
  - rewrite !entries_app, !entries_cons, E1, E3, N1, N3; done.
Qed.


(** The inode of a record changes. *)
Lemma inode_bytes F (E : mem) pre o post n v :
  let F' := blit F o (store32 E d_inode v) 0 8 in
  chain F 0 (pre ++ o :: post) n -> 0 <= v < 2 ^ 32 -> (forall x, 0 <= x < 8 -> E x = F (o + x)) ->
  chain F' 0 (pre ++ o :: post) n /\
  entries F' (pre ++ o :: post) = entries F pre ++ (if decide (v = 0) then [] else [(v, e_name F o)]) ++ entries F post.
Proof.
  intros F' C Hv HE; apply dir_chain_app in C as (b & C1 & C2); cbn in C2; destruct C2 as (<- & Ro & C3).
  pose proof (chain_le _ _ _ _ C1); destruct Ro as [O0 O1 O2 O3 O4]; unfold sizeof_direntry in *.
  assert (Fp : forall x, 0 <= x < 8 -> F' (o + x) = store32 E 0 v x) by (intros x Hx; unfold F'; rewrite blit_in by lia; f_equal; lia).
  assert (Fo : forall x, ~ (o <= x < o + 4) -> F' x = F x).
  { intros x Hx; destruct (decide (o <= x < o + 8)); [|unfold F'; by rewrite blit_out by lia].
    replace x with (o + (x - o)) by lia; rewrite Fp, store32_other, HE by lia; done. }
  destruct (chain_same F F' 0 pre o C1) as [C1' N1]; [intros x Hx; apply Fo; lia|].
  destruct (chain_same F F' _ post n C3) as [C3' N3]; [intros x Hx; apply Fo; lia|].
  assert (E1 : e_inode F' o = v).
  { unfold e_inode, d_inode; rewrite (load32_shift F' (store32 E 0 v) _ 0) by (intros; rewrite <- Z.add_assoc; apply Fp; lia).
    by apply load32_store32_same. }
  assert (E2 : e_nlen F' o = e_nlen F o) by (unfold e_nlen, d_name_len; apply Fo; lia).
  assert (E3 : e_name F' o = e_name F o)
    by (unfold e_name; rewrite E2; apply map_ext_in; intros i Hi%list_elem_of_In%elem_of_seqZ; apply Fo; unfold sizeof_direntry; lia).
  assert (E4 : e_len F' o = e_len F o) by (apply load16_shift; intros x Hx; unfold d_rec_len; apply Fo; lia).
  split.
  - apply dir_chain_app; exists o; split; [done|]; cbn; rewrite E4; split; [done|]; split; [|done].
    split; rewrite ?E1, ?E2, ?E4; auto.
  - rewrite !entries_app, !entries_cons, E1, E3, N1, N3; by destruct (decide (v = 0)).
Qed.

(** Writing the fields of a record back. *)
Lemma write_record n F s b o :
  dirfile n F s -> buffer s b -> 0 <= o -> record_ok F o -> o + e_len F o <= n -> 4 <= free_total L s ->
  exists s', inode_write sizeof_direntry (s32 o) (b, 0) s = Ok (sizeof_direntry, s') /\
    dirfile n (blit F o (heap s b) 0 8) s' /\ kept (fun _ => False) s s' /\ free_total L s - 4 <= free_total L s'.
Proof.
  intros A B Ho R Hn Ht; pose proof (df_length _ _ _ _ _ _ _ A) as [? _]; destruct R as [_ R1 _ R3 R4]; unfold sizeof_direntry, BLOCK_SIZE in *.
  assert (Hb : (o + 8 - 1) / 1024 - o / 1024 + 1 = 1) by (Z.div_mod_to_equations; lia).
  destruct (dir_write L Lo Li drv ops device registered meta_dev kmalloc enough now dir n F s 8 o b 0 A B) as (s' & E & A' & K & T);
    unfold BLOCK_SIZE in *; rewrite ?Hb in *; try lia.
  rewrite s32_small, Z.max_l in * by lia; exists s'; split; [exact E|]; split_and!; auto; lia.
Qed.

(** The entry [o] has been removed. *)
Lemma remove_direntry_ok pre o post n F s cur prec poff :
  dirfile n F s -> chain F 0 (pre ++ o :: post) n -> buffer s cur -> buffer s prec -> holds_record s cur F o ->
  (forall pre' p, pre = pre' ++ [p] -> poff = p /\ holds_record s prec F p) -> 4 <= free_total L s ->
  exists s' F' os', remove_direntry drv kmalloc now (Some cur) (Some prec) (l_meta L) dir o poff s = Ok (0, s') /\
    kept (fun b => b = cur \/ b = prec) s s' /\ dirfile n F' s' /\ chain F' 0 os' n /\ entries F' os' = entries F (pre ++ post) /\
    free_total L s - 4 <= free_total L s'.
Proof.
  intros A C Bc Bp Hc Hp Ht; destruct (chain_in F 0 (pre ++ o :: post) n o C) as (R & R1 & R2); [apply elem_of_app; right; by left|].
  destruct (holds_fields s cur F o Hc) as (_ & Hlen & _); unfold remove_direntry.
  destruct (Z.eqb_spec (o mod BLOCK_SIZE) 0) as [Hb|Hb]; cbn [negb].
  - destruct (set_buf_ok n F s cur (store32 (heap s cur) d_inode 0) A Bc) as (s1 & E1 & A1 & K1 & T1 & H1 & _ & _).
    rewrite (bind_ok _ _ _ _ _ (E1 : st32 (cur, d_inode) 0 s = Ok ((), s1))).
    destruct (write_record n F s1 cur o A1 (buffer_kept _ _ _ _ _ _ K1 Bc) R1 R R2 ltac:(lia)) as (s2 & E2 & A2 & K2 & T2).
    rewrite (bind_ok _ _ _ _ _ E2); change (negb (u32 sizeof_direntry =? sizeof_direntry)) with false; cbv iota; rewrite H1 in A2.
    destruct (inode_bytes F (heap s cur) pre o post n 0 C ltac:(lia) Hc) as [C2 N2].
    eexists s2, _, _; split; [reflexivity|]; split; [|split; [exact A2|split; [exact C2|split; [by rewrite N2, entries_app|lia]]]].
    eapply kept_trans; [eapply kept_weaken; [exact K1|intros b _ <-; by left]|eapply kept_weaken; [exact K2|by intros ? _ []]].
  - destruct (decide (pre = [])) as [->|Hpre]; [|destruct (exists_last Hpre) as (pre' & p & ->); clear Hpre].
    { apply dir_chain_app in C as (b & C1 & C2); cbn in C1, C2; destruct C2 as (-> & _); subst b; done. }
    destruct (Hp pre' p eq_refl) as [-> Hpr]; destruct (holds_fields s prec F p Hpr) as (_ & Hplen & _).
    rewrite <- app_assoc in C; cbn in C; destruct (chain_in F 0 _ n p C) as (Rp & Rp1 & Rp2); [apply elem_of_app; right; by left|].
    do 2 erewrite bind_ok by reflexivity; cbn [fst snd]; rewrite Hlen, Hplen.
    assert (Hsum : 0 <= e_len F p + e_len F o < 2 ^ 16).
    { pose proof (Z.mod_pos_bound p BLOCK_SIZE); pose proof (Z.mod_pos_bound o BLOCK_SIZE); destruct R as [_ ? _ ? ?], Rp as [_ ? _ ? ?].
      unfold sizeof_direntry, BLOCK_SIZE in *; lia. }
    rewrite u16_small by lia.
    destruct (set_buf_ok n F s prec (store16 (heap s prec) d_rec_len (e_len F p + e_len F o)) A Bp) as (s1 & E1 & A1 & K1 & T1 & H1 & _ & _).
    rewrite (bind_ok _ _ _ _ _ (E1 : st16 (prec, d_rec_len) (e_len F p + e_len F o) s = Ok ((), s1))).
    destruct (write_record n F s1 prec p A1 (buffer_kept _ _ _ _ _ _ K1 Bp) Rp1 Rp Rp2 ltac:(lia)) as (s2 & E2 & A2 & K2 & T2).
    rewrite (bind_ok _ _ _ _ _ E2); change (negb (u32 sizeof_direntry =? sizeof_direntry)) with false; cbv iota; rewrite H1 in A2.
    destruct (merge_bytes F (heap s prec) pre' p o post n C Hb Hpr) as [C2 N2].
    eexists s2, _, _; split; [reflexivity|]; split; [|split; [exact A2|split; [exact C2|split; [by rewrite N2, <- app_assoc|lia]]]].
    eapply kept_trans; [eapply kept_weaken; [exact K1|intros b _ <-; by right]|eapply kept_weaken; [exact K2|by intros ? _ []]].
Qed.


(** The entry with a given index gets another inode. *)
Lemma update_walk fuel : forall pre os n F s entry o read index v,
  dirfile n F s -> buffer s entry -> chain F 0 (pre ++ os) n -> chain F o os n -> 0 <= o < n ->
  Z.of_nat (length (entries F pre)) = read ->
  0 <= read <= index -> index < 2 ^ 31 -> (length os <= fuel)%nat -> 0 < v < 2 ^ 32 -> 4 <= free_total L s ->
  exists s' rc, update_direntry_loop drv kmalloc now fuel (l_meta L) dir index v entry o read s = Ok (rc, s') /\
    kept (eq entry) s s' /\
    match entries F os !! Z.to_nat (index - read) with
    | Some e => rc = 0 /\ exists F', dirfile n F' s' /\ chain F' 0 (pre ++ os) n /\
        entries F' (pre ++ os) = <[Z.to_nat index := (v, e.2)]> (entries F (pre ++ os))
    | None => rc = -1 /\ dirfile n F s'
    end.
Proof.
  induction fuel as [|fuel IH]; intros pre os n F s entry o read index v A Be C0 C Ho Hp Hr Hi Hf Hv Ht.
  { destruct os; cbn in *; lia. }
  destruct (chain_next F o os n C ltac:(lia)) as (os' & -> & R & C' & R1 & R2 & R3); clear C; pose proof (df_length _ _ _ _ _ _ _ A) as [Hn _].
  cbn [update_direntry_loop]; rewrite (u32_small index), (proj2 (Z.leb_le read index)) by lia; cbn [negb].
  destruct (read_record n F s entry o A Be ltac:(lia) ltac:(lia)) as (s1 & E1 & A1 & K1 & T1 & M1 & M2 & M3 & _).
  rewrite (bind_ok _ _ _ _ _ E1); change (negb (u32 sizeof_direntry =? sizeof_direntry)) with false; cbv iota.
  do 2 erewrite bind_ok by reflexivity; cbn [fst snd]; rewrite M2, M3, entries_cons.
  destruct (negb (e_inode F o =? 0) && (read =? index)) eqn:Ec.
  - apply andb_true_iff in Ec as [E0%negb_true_iff%Z.eqb_neq ->%Z.eqb_eq]; rewrite decide_False, Z.sub_diag by done; cbn [lookup list_lookup Z.to_nat].
    destruct (set_buf_ok n F s1 entry (store32 (heap s1 entry) d_inode v) A1 (buffer_kept _ _ _ _ _ _ K1 Be))
      as (s2 & E2 & A2 & K2 & T2 & H2 & _ & _).
    rewrite (bind_ok _ _ _ _ _ (E2 : st32 (entry, d_inode) v s1 = Ok ((), s2))); pose proof (kept_trans _ _ _ _ _ _ K1 K2) as K12.
    destruct (write_record n F s2 entry o A2 (buffer_kept _ _ _ _ _ _ K12 Be) ltac:(lia) R R2 ltac:(lia)) as (s3 & E3 & A3 & K3 & _).
    rewrite (bind_ok _ _ _ _ _ E3); exists s3, 0; split; [reflexivity|]; split.
    { eapply kept_trans; [exact K12|]; eapply kept_weaken; [exact K3|by intros ? _ []]. }
    split; [done|]; rewrite H2 in A3; destruct (inode_bytes F (heap s1 entry) pre o os' n v C0 ltac:(lia) M1) as [C3 N3].
    eexists; split; [exact A3|]; split; [exact C3|]; rewrite N3, entries_app, entries_cons, !decide_False by lia.
    by rewrite <- Hp, Nat2Z.id, insert_app_r_alt, Nat.sub_diag by lia.
  - assert (Hgo : forall read', read' = Z.of_nat (length (entries F (pre ++ [o]))) -> read' <= index ->
      exists s' rc, (i ← get_vnode dir; if u32 (Ext2.size i) <=? u32 (o + e_len F o) then mret (-1)
          else update_direntry_loop drv kmalloc now fuel (l_meta L) dir index v entry (u32 (o + e_len F o)) read') s1 = Ok (rc, s') /\
        kept (eq entry) s s' /\
        match entries F os' !! Z.to_nat (index - read') with
        | Some e => rc = 0 /\ exists F', dirfile n F' s' /\ chain F' 0 (pre ++ o :: os') n /\
            entries F' (pre ++ o :: os') = <[Z.to_nat index := (v, e.2)]> (entries F (pre ++ o :: os'))
        | None => rc = -1 /\ dirfile n F s'
        end).
    { intros read' Hr' Hri; erewrite bind_ok by reflexivity; rewrite (proj2 (df_size _ _ _ _ _ _ _ A1)).
      destruct (advance n F o) as [-> ->]; [lia..|unfold sizeof_direntry in *; lia|].
      destruct (Z.leb_spec n (o + e_len F o)) as [Hle|Hgt].
      - exists s1, (-1); split; [done|]; split; [done|]; by rewrite (proj2 R3).
      - destruct (IH (pre ++ [o]) os' n F s1 entry (o + e_len F o) read' index v) as (s' & rc & E' & K' & H'); rewrite <- ?app_assoc in *; auto;
          try (unfold sizeof_direntry in *; lia); try (by eapply buffer_kept); [cbn in Hf; lia|].
        exists s', rc; split; [exact E'|]; split; [by eapply kept_trans|done]. }
    rewrite entries_app, entries_cons, length_app in Hgo; destruct (decide (e_inode F o = 0)) as [E0|E0]; cbn [length app] in Hgo.
    + rewrite (proj2 (Z.eqb_eq _ 0)) by done; cbn [negb]; apply Hgo; [cbn; lia|lia].
    + rewrite (proj2 (Z.eqb_neq _ 0)) in * by done; cbn [negb andb] in *; apply Z.eqb_neq in Ec; rewrite (u32_small (read + 1)) by lia.
      destruct (Hgo (read + 1)) as (s' & rc & E' & K' & H'); [cbn; lia|lia|]; exists s', rc; split; [exact E'|]; split; [done|].
      by replace (Z.to_nat (index - read)) with (S (Z.to_nat (index - (read + 1)))) by lia.
Qed.

Lemma update_direntry_ok fuel os n F s index v :
  dirfile n F s -> chain F 0 os n -> 0 <= index < 2 ^ 31 -> n / sizeof_direntry <= Z.of_nat fuel -> 0 < v < 2 ^ 32 -> 4 <= free_total L s ->
  exists s' rc, update_direntry drv kmalloc now fuel (l_meta L) dir index v s = Ok (rc, s') /\ kept (fun _ => False) s s' /\
    match entries F os !! Z.to_nat index with
    | Some e => rc = 0 /\ exists F', dirfile n F' s' /\ chain F' 0 os n /\ entries F' os = <[Z.to_nat index := (v, e.2)]> (entries F os)
    | None => rc = -1 /\ dirfile n F s'
    end.
Proof.
  intros A C Hi Hf Hv Ht; pose proof (df_length _ _ _ _ _ _ _ A) as [Hn _]; pose proof (chain_le _ _ _ _ C) as Hle.
  assert (Hlen : (length os <= fuel)%nat) by (unfold sizeof_direntry in *; Z.div_mod_to_equations; lia).
  destruct (local_buffer n F s A) as (s1 & E1 & A1 & B1 & K1 & T1 & _ & N1).
  unfold update_direntry; rewrite (bind_ok _ _ _ _ _ E1); erewrite bind_ok by reflexivity.
  rewrite (proj2 (df_size _ _ _ _ _ _ _ A1)), (proj2 (Z.eqb_neq n 0)) by lia.
  destruct (update_walk fuel [] os n F s1 (next s) 0 0 index v A1 B1) as (s' & rc & E & K & H); auto; try lia.
  rewrite Z.sub_0_r in H; exists s', rc; split; [exact E|]; split; [|exact H].
  eapply kept_fresh; [exact K1|exact K|]; intros b Hb <-; lia.
Qed.

End DirProofs.

(** C8. Adding an entry to a directory of an EXT2 file system, of which the records form a chain.  If the name has at most 256
    characters, memory can be allocated, eight blocks are free and the directory stays below 1 GB, [create_direntry]
    succeeds, whether there is room behind one of the records or a block has to be
    appended, and the new entry takes its place among the entries that were there,
    which keep their order.  Afterwards [fs_ext2_get_direntry] returns, for every
    index, the inode and the name of the entry with that index and -1 behind the
    last one; both loops end.  The name of the new entry is the one given, except that a name of 256 characters,
    whose length does not fit into the field of the record, is stored as the empty name.  A longer name is refused with
    [EINVAL], and neither the directory nor the disk is changed. *)
Theorem create_direntry_lookup (L : layout) {D : Type} (drv : drivers D) (ops : blk_dev_ops_t D) (device : Z)
    `{!BlockDevice ops (MINOR device)} kmalloc now dir fuel os n F (s : fs_state D) inode name direntry :
  layout_ok L -> 0 < l_inodes L < 2 ^ 25 -> drv (MAJOR device) = DRIVER_BLK ops -> Ext2.device (l_meta L) = device ->
  (forall i, is_Some (kmalloc i)) -> dirfile L ops device dir n F s -> chain F 0 os n -> buffer L dir s direntry ->
  0 < inode < 2 ^ 32 -> n + BLOCK_SIZE < 2 ^ 30 -> 8 <= free_total L s ->
  (n + BLOCK_SIZE) / sizeof_direntry <= Z.of_nat fuel ->
  (FILE_NAME_MAX < strlen name ->
   exists s', create_direntry drv kmalloc now fuel (l_meta L) dir inode name s = Ok (EINVAL, s') /\
     dirfile L ops device dir n F s' /\ disk s' = disk s) /\
  (strlen name <= FILE_NAME_MAX -> exists s' l1 l2, create_direntry drv kmalloc now fuel (l_meta L) dir inode name s = Ok (0, s') /\ entries F os = l1 ++ l2 /\
    forall index, 0 <= index < 2 ^ 31 ->
      exists s'' rc, fs_ext2_get_direntry drv kmalloc now fuel (l_meta L) dir index direntry s' = Ok (rc, s'') /\
        match (l1 ++ (inode, if strlen name =? 256 then [] else name) :: l2) !! Z.to_nat index with
        | Some e => rc = 0 /\ found (heap s'' direntry) e
        | None => rc = -1
        end).
Proof.
  intros Lo Li Hd Hm Hk A C B Hi Hn Ht Hf; split; [by apply create_direntry_long|intros Hl].
  assert (Hf' : forall x, x <= n + BLOCK_SIZE -> x / sizeof_direntry <= Z.of_nat fuel)
    by (intros x Hx; pose proof (Z.div_le_mono x (n + BLOCK_SIZE) sizeof_direntry); unfold sizeof_direntry in *; lia).
  destruct (create_direntry_ok L Lo Li drv ops device Hd Hm kmalloc Hk now dir fuel os n F s inode name A C Hl Hi Hn Ht)
    as (s' & E & K & F' & os' & n' & A' & C' & Hn' & l1 & l2 & E1 & E2); [apply Hf'; unfold BLOCK_SIZE; lia|].
  exists s', l1, l2; split; [exact E|]; split; [done|]; intros index Hx.
  destruct (get_direntry_ok L Li drv ops device Hd kmalloc Hk now dir fuel os' n' F' s' direntry index A' (buffer_kept _ _ _ _ _ _ K B) C' Hx)
    as (s'' & rc & E' & _ & _ & H); [apply Hf'; lia|].
  rewrite E2, stored_name in H by exact Hl; exists s'', rc; split; [exact E'|exact H].
Qed.

(** A directory with the entries "." and ".." in block 6 of the small file system. *)
Definition dir_block : mem :=
  store8 (store8 (store16 (store32 (store8 (store16 (store32 (store8 (store8 (fun _ => 0) 20 46) 21 46) 12 2) 16 1012) 18 2) 0 2) 4 12) 6 1) 8 46.
Definition dir_disk : ramdisk := mk_ramdisk 1 8192 24575 (blit (ram small_disk) (8192 + 6 * 1024) dir_block 0 1024).
Definition dir_inode : mem := store32 (store32 (store16 (fun _ => 0) i_mode (4 * 4096)) i_size 1024) direct 6.
Definition dir_fs : fs_state ramdisk :=
  mk_fs dir_disk (fun b => match b with O => small_super | S O => small_table | S (S O) => dir_inode | _ => fun x => x mod 7 end)
    4 (fun _ => mk_inode 1024 2 256 (4 * 4096) 0 0 2 2 0 0).

Lemma dir_fs_ok : small_state_ok dir_fs.
Proof. split_and!; try done; cbn; lia. Qed.

Lemma dir_entries j : 0 <= j < 15 -> inode_entry (heap dir_fs 2) j = if j =? 0 then 6 else 0.
Proof.
  intros Hj; change (heap dir_fs 2) with dir_inode; unfold inode_entry, dir_inode.
  destruct (Z.eqb_spec j 0) as [->|]; [by vm_compute|]; unfold direct, i_size, i_mode.
  by rewrite !load32_store32_other, load32_store16 by lia.
Qed.

Lemma dir_fs_dirfile : dirfile small_layout ramdisk_ops 256 0 1024 dir_block dir_fs.
Proof.
  assert (Hb : forall k, 0 <= k < 1024 / BLOCK_SIZE -> k = 0) by (intros k; change (1024 / BLOCK_SIZE) with 1; lia).
  split; [exact (small_state_inv _ dir_fs_ok)|done|cbn; lia|cbn; lia| | |done|by vm_compute| | ].
  - change (inode_block _ _) with 5; split; [cbn; lia|]; split; [intros ?%small_reserved|intros ?%(small_state_free _ _ dir_fs_ok)]; lia.
  - split; change (Ext2.data (vnodes dir_fs 0)) with 2%nat.
    + intros j Hj; rewrite dir_entries by done; destruct (Z.eqb_spec j 0) as [->|]; [|apply tree_ok_hole].
      right; split; [|done]; split_and!; [cbn; lia..|intros ?%small_reserved; lia|done|intros ?%(small_state_free _ _ dir_fs_ok); lia].
    + intros j k x Hj Hk Hne; rewrite !dir_entries by done.
      destruct (Z.eqb_spec j 0), (Z.eqb_spec k 0); subst; try lia; intros Hx Hx'; by (eapply reach_hole, Hx' || eapply reach_hole, Hx).
  - intros k ->%Hb; by vm_compute.
  - intros x Hx; unfold file_byte; unfold BLOCK_SIZE in *; rewrite Z.div_small, Z.mod_small by lia.
    change (file_block _ _ 0) with 6; cbn; unfold ramdisk_image; cbn; rewrite blit_in by lia; f_equal; lia.
Qed.

Lemma dir_chain : chain dir_block 0 [0; 12] 1024.
Proof. cbn; split_and!; try done; split; by vm_compute. Qed.

Lemma create_direntry_lookup_witness :
  let added_as name stored := exists index s' s'',
    create_direntry small_drivers (fun _ => Some (fun _ => 0)) 77 256 (mk_meta 0 1 256 1 1) 0 5 name dir_fs = Ok (0, s') /\
    fs_ext2_get_direntry small_drivers (fun _ => Some (fun _ => 0)) 77 256 (mk_meta 0 1 256 1 1) 0 index 3 s' = Ok (0, s'') /\
    found (heap s'' 3) (5, stored) in
  added_as [102; 111; 111] [102; 111; 111] /\ added_as (repeat 102 256) [].
Proof.
  intros added_as.
  assert (W : forall name, strlen name <= FILE_NAME_MAX -> added_as name (if strlen name =? 256 then [] else name)).
  { intros name Hl.
    destruct (create_direntry_lookup small_layout small_drivers ramdisk_ops 256 (fun _ => Some (fun _ => 0)) 77 0 256 [0; 12] 1024 dir_block
      dir_fs 5 name 3) as [_ H];
      [exact small_layout_ok|cbn; lia|reflexivity|reflexivity|done|exact dir_fs_dirfile|exact dir_chain|unfold buffer; cbn; lia|lia
      |unfold BLOCK_SIZE; lia|rewrite (small_state_total _ dir_fs_ok); lia|by vm_compute|].
    destruct (H Hl) as (s' & l1 & l2 & E & El & Hx).
    assert (Hn : (length l1 <= 2)%nat) by (change 2%nat with (length (entries dir_block [0; 12])); rewrite El, length_app; lia).
    destruct (Hx (Z.of_nat (length l1)) ltac:(lia)) as (s'' & rc & E' & Hr).
    rewrite Nat2Z.id, list_lookup_middle in Hr by done; destruct Hr as [-> Hr]; unfold added_as; eauto 8. }
  split; [exact (W [102; 111; 111] ltac:(done))|exact (W (repeat 102 256) ltac:(done))].
Defined.
