(* ===== verification/Ext2Stable.v ===== *)
(** * What operations on EXT2 files keep

    Reading, writing and truncating files, allocating blocks and inodes and changing
    directories never change which inode a structure in memory stands for, and
    never give back a number of a buffer. *)

From S2P Require Import Prelude Errors Memory Lists BlockDev.
Import BlockDev Lists.
From S2P Require Import Ext2 Ext2Dir.

(** The fields that identify an inode. *)
Definition ident (i : inode_t) : Z * Z * nat := (inode_nr i, dev i, data i).

Definition keeps {D A} (ids : nat -> Z * Z * nat) (m : fsM D A) : Prop :=
  forall s a s', (forall i, ident (vnodes s i) = ids i) -> m s = Ok (a, s') ->
    (next s <= next s')%nat /\ forall i, ident (vnodes s' i) = ids i.

Create HintDb keeps.

Section Rules.
Context {D : Type} (ids : nat -> Z * Z * nat).

Lemma keeps_ret {A} (a : A) : keeps (D := D) ids (mret a).
Proof. intros s ? ? H [= _ <-]; auto. Qed.

Lemma keeps_bind {A B} (m : fsM D A) (f : A -> fsM D B) : keeps ids m -> (forall a, keeps ids (f a)) -> keeps ids (m ≫= f).
Proof.
  intros Hm Hf s b s' H; unfold mbind, fsM_bind; cbn; destruct (m s) as [[a s1]| | |] eqn:E; cbn; try done.
  destruct (Hm s a s1 H E) as [N1 H1]; intros E2; destruct (Hf a s1 b s' H1 E2); split; [lia|done].
Qed.

Lemma keeps_get_vnode {B} i (f : inode_t -> fsM D B) :
  (forall v, ident v = ids i -> keeps ids (f v)) -> keeps ids (get_vnode i ≫= f).
Proof. intros Hf s b s' H E; exact (Hf (vnodes s i) (H i) s b s' H E). Qed.

Lemma keeps_set_vnode i v : ident v = ids i -> keeps (D := D) ids (set_vnode i v).
Proof.
  intros Hv s a s' H [= _ <-]; cbn; split; [done|]; intros j.
  destruct (decide (j = i)) as [->|]; [by rewrite fn_lookup_insert|by rewrite fn_lookup_insert_ne].
Qed.

Lemma keeps_same {A} (m : fsM D A) :
  (forall s a s', m s = Ok (a, s') -> (next s <= next s')%nat /\ vnodes s' = vnodes s) -> keeps ids m.
Proof. intros Hm s a s' H E; destruct (Hm s a s' E) as [? ->]; auto. Qed.

End Rules.

(** Primitive operations do not change inodes at all. *)
Ltac keeps_primitive := apply keeps_same; intros s a s' [= <- <-]; cbn; auto.

(** Follows the code; the hints are the lemmas for the functions that are called. *)
Ltac keeps :=
  repeat first
    [ progress intros
    | solve [eauto with keeps]
    | apply keeps_ret
    | apply keeps_get_vnode
    | apply keeps_set_vnode
    | apply keeps_bind
    | match goal with
      | |- keeps _ (let _ := _ in _) => cbv zeta
      | |- keeps _ (match ?x with _ => _ end) => destruct x
      end ].

Section Primitives.
Context {D : Type} (ids : nat -> Z * Z * nat).

Lemma keeps_get_inode i : keeps (D := D) ids (get_vnode i).
Proof. keeps_primitive. Qed.
Lemma keeps_panic {A} : keeps (D := D) (A := A) ids panic.
Proof. by apply keeps_same. Qed.
Lemma keeps_hang {A} : keeps (D := D) (A := A) ids hang.
Proof. by apply keeps_same. Qed.
Lemma keeps_ld32 p : keeps (D := D) ids (ld32 p).
Proof. keeps_primitive. Qed.
Lemma keeps_ld16 p : keeps (D := D) ids (ld16 p).
Proof. keeps_primitive. Qed.
Lemma keeps_ld8 p : keeps (D := D) ids (ld8 p).
Proof. keeps_primitive. Qed.
Lemma keeps_get_buf b : keeps (D := D) ids (get_buf b).
Proof. keeps_primitive. Qed.
Lemma keeps_set_buf b m : keeps (D := D) ids (set_buf b m).
Proof. keeps_primitive. Qed.
Lemma keeps_local : keeps (D := D) ids local.
Proof. keeps_primitive. Qed.
End Primitives.
#[export] Hint Resolve keeps_get_inode keeps_panic keeps_hang keeps_ld32 keeps_ld16 keeps_ld8 keeps_get_buf keeps_set_buf keeps_local : keeps.

Section Stores.
Context {D : Type} (ids : nat -> Z * Z * nat).
Lemma keeps_st32 p v : keeps (D := D) ids (st32 p v).
Proof. unfold st32; keeps. Qed.
Lemma keeps_st16 p v : keeps (D := D) ids (st16 p v).
Proof. unfold st16; keeps. Qed.
Lemma keeps_st8 p v : keeps (D := D) ids (st8 p v).
Proof. unfold st8; keeps. Qed.
Lemma keeps_copy_buf p q n : keeps (D := D) ids (copy_buf p q n).
Proof. unfold copy_buf; keeps. Qed.
Lemma keeps_copy_name p l n : keeps (D := D) ids (copy_name p l n).
Proof. unfold copy_name; keeps. Qed.
End Stores.
#[export] Hint Resolve keeps_st32 keeps_st16 keeps_st8 keeps_copy_buf keeps_copy_name : keeps.

Section Files.
Context {D : Type} (drv : drivers D) (kmalloc : nat -> option mem) (do_time : Z) (ids : nat -> Z * Z * nat).
#[local] Abbreviation keeps := (keeps (D := D) ids).

Lemma keeps_new_buf : keeps (new_buf kmalloc).
Proof. apply keeps_same; unfold new_buf; intros s a s'; destruct (kmalloc (next s)); intros [= <- <-]; cbn; auto. Qed.
Lemma keeps_read_bytes b n p d o : keeps (read_bytes drv kmalloc b n p d o).
Proof. keeps_primitive. Qed.
Lemma keeps_write_bytes b n p d o : keeps (write_bytes drv kmalloc b n p d o).
Proof. keeps_primitive. Qed.
#[local] Hint Resolve keeps_new_buf keeps_read_bytes keeps_write_bytes : keeps.

Lemma keeps_put_meta m : keeps (put_meta drv kmalloc m).
Proof. unfold put_meta; keeps. Qed.
#[local] Hint Resolve keeps_put_meta : keeps.
Lemma keeps_get_ext2_inode nr m : keeps (get_ext2_inode drv kmalloc nr m).
Proof. unfold get_ext2_inode; keeps. Qed.
Lemma keeps_put_inode m i : keeps (put_inode drv kmalloc m i).
Proof. unfold put_inode; keeps. Qed.
#[local] Hint Resolve keeps_get_ext2_inode keeps_put_inode : keeps.

Lemma keeps_allocate_block_in_group m g e : keeps (allocate_block_in_group drv kmalloc m g e).
Proof. unfold allocate_block_in_group; keeps. Qed.
#[local] Hint Resolve keeps_allocate_block_in_group : keeps.
Lemma keeps_allocate_block_scan m p i n e : keeps (allocate_block_scan drv kmalloc m p i n e).
Proof. revert i e; induction n as [|n IH]; intros; cbn [allocate_block_scan]; keeps. Qed.
#[local] Hint Resolve keeps_allocate_block_scan : keeps.
Lemma keeps_allocate_block m g e : keeps (allocate_block drv kmalloc m g e).
Proof. unfold allocate_block; keeps. Qed.
Lemma keeps_deallocate_block m b : keeps (deallocate_block drv kmalloc m b).
Proof. unfold deallocate_block; keeps. Qed.
Lemma keeps_deallocate_inode m i : keeps (deallocate_inode drv kmalloc m i).
Proof. unfold deallocate_inode; keeps. Qed.
#[local] Hint Resolve keeps_allocate_block keeps_deallocate_block keeps_deallocate_inode : keeps.

Lemma keeps_allocate_inode_in_group x m g d e : keeps (allocate_inode_in_group drv kmalloc x m g d e).
Proof. unfold allocate_inode_in_group; keeps. Qed.
#[local] Hint Resolve keeps_allocate_inode_in_group : keeps.
Lemma keeps_allocate_inode_scan x m i n d e : keeps (allocate_inode_scan drv kmalloc x m i n d e).
Proof. revert i e; induction n as [|n IH]; intros; cbn [allocate_inode_scan]; keeps. Qed.
#[local] Hint Resolve keeps_allocate_inode_scan : keeps.
Lemma keeps_allocate_inode x m d e : keeps (allocate_inode drv kmalloc x m d e).
Proof. unfold allocate_inode; keeps. Qed.
#[local] Hint Resolve keeps_allocate_inode : keeps.

Lemma keeps_add_blocks b n : keeps (add_blocks b n).
Proof. unfold add_blocks; keeps. Qed.
#[local] Hint Resolve keeps_add_blocks : keeps.
Lemma keeps_load_indirect_block r b d e : keeps (load_indirect_block drv kmalloc r b d e).
Proof. unfold load_indirect_block; keeps. Qed.
Lemma keeps_process_block r b : keeps (process_block drv kmalloc r b).
Proof. unfold process_block, read_block, write_block, truncate_block; keeps. Qed.
#[local] Hint Resolve keeps_load_indirect_block keeps_process_block : keeps.
Lemma keeps_walk_blocklist n r b d e : keeps (walk_blocklist drv kmalloc n r b d e).
Proof. revert r b d e; induction n as [|n IH]; intros; cbn [walk_blocklist]; keeps. Qed.
Lemma keeps_finish_indirect x r b f c v d : keeps (finish_indirect drv kmalloc x r b f c v d).
Proof. unfold finish_indirect; keeps. Qed.
#[local] Hint Resolve keeps_walk_blocklist keeps_finish_indirect : keeps.
Lemma keeps_walk_indirect_block r o b d : keeps (walk_indirect_block drv kmalloc r o b d).
Proof. unfold walk_indirect_block; keeps. Qed.
#[local] Hint Resolve keeps_walk_indirect_block : keeps.

Lemma keeps_walk_entries sub w o f n b r c :
  (forall r o b d, keeps (sub r o b d)) -> keeps (walk_entries sub w o f n b r c).
Proof. intros H; revert b r c; induction n as [|n IH]; intros; cbn [walk_entries]; keeps. Qed.
#[local] Hint Resolve keeps_walk_entries : keeps.
Lemma keeps_walk_level sub w r o b d : (forall r o b d, keeps (sub r o b d)) -> keeps (walk_level drv kmalloc sub w r o b d).
Proof. intros H; unfold walk_level; keeps. Qed.
#[local] Hint Resolve keeps_walk_level : keeps.
Lemma keeps_walk_double_indirect_block r o b d : keeps (walk_double_indirect_block drv kmalloc r o b d).
Proof. unfold walk_double_indirect_block; keeps. Qed.
#[local] Hint Resolve keeps_walk_double_indirect_block : keeps.
Lemma keeps_walk_triple_indirect_block r o b : keeps (walk_triple_indirect_block drv kmalloc r o b).
Proof. unfold walk_triple_indirect_block; keeps. Qed.
#[local] Hint Resolve keeps_walk_triple_indirect_block : keeps.
Lemma keeps_walk_file r : keeps (walk_file drv kmalloc r).
Proof. unfold walk_file; keeps. Qed.
#[local] Hint Resolve keeps_walk_file : keeps.

Lemma keeps_rw m i n o p op : keeps (fs_ext2_inode_rw drv kmalloc do_time m i n o p op).
Proof. unfold fs_ext2_inode_rw; keeps. Qed.
#[local] Hint Resolve keeps_rw : keeps.
Lemma keeps_read m i n o p : keeps (fs_ext2_inode_read drv kmalloc do_time m i n o p).
Proof. apply keeps_rw. Qed.
Lemma keeps_write m i n o p : keeps (fs_ext2_inode_write drv kmalloc do_time m i n o p).
Proof. apply keeps_rw. Qed.
Lemma keeps_flush m i : keeps (fs_ext2_inode_flush drv kmalloc m i).
Proof. unfold fs_ext2_inode_flush; keeps. Qed.
Lemma keeps_trunc m i n : keeps (fs_ext2_inode_trunc drv kmalloc do_time m i n).
Proof. unfold fs_ext2_inode_trunc; keeps. Qed.
#[local] Hint Resolve keeps_read keeps_write keeps_trunc : keeps.
Lemma keeps_wipe_inode m i : keeps (wipe_inode drv kmalloc do_time m i).
Proof. unfold wipe_inode; keeps. Qed.

Lemma keeps_get_direntry fuel m i x d : keeps (fs_ext2_get_direntry drv kmalloc do_time fuel m i x d).
Proof.
  assert (forall e o r, keeps (get_direntry_loop drv kmalloc do_time fuel m i x d e o r)).
  { induction fuel as [|fuel IH]; intros; cbn [get_direntry_loop]; keeps. }
  unfold fs_ext2_get_direntry; keeps.
Qed.
Lemma keeps_update_direntry fuel m i x v : keeps (update_direntry drv kmalloc do_time fuel m i x v).
Proof.
  assert (forall e o r, keeps (update_direntry_loop drv kmalloc do_time fuel m i x v e o r)).
  { induction fuel as [|fuel IH]; intros; cbn [update_direntry_loop]; keeps. }
  unfold update_direntry; keeps.
Qed.
Lemma keeps_fill_direntry b v l n : keeps (fill_direntry b v l n).
Proof. unfold fill_direntry; keeps. Qed.
#[local] Hint Resolve keeps_fill_direntry : keeps.
Lemma keeps_append_direntry m i v l : keeps (append_direntry drv kmalloc do_time m i v l).
Proof. unfold append_direntry; keeps. Qed.
Lemma keeps_splice_direntry e f m i o l : keeps (splice_direntry drv kmalloc do_time e f m i o l).
Proof. unfold splice_direntry, validate_direntry; keeps. Qed.
#[local] Hint Resolve keeps_append_direntry keeps_splice_direntry : keeps.
Lemma keeps_create_direntry fuel m i v l : keeps (create_direntry drv kmalloc do_time fuel m i v l).
Proof.
  assert (forall e f o, keeps (create_direntry_loop drv kmalloc do_time fuel m i v l e f o)).
  { induction fuel as [|fuel IH]; intros; cbn [create_direntry_loop]; keeps. }
  unfold create_direntry; keeps.
Qed.
Lemma keeps_remove_direntry e f m i o p : keeps (remove_direntry drv kmalloc do_time e f m i o p).
Proof. unfold remove_direntry; keeps. Qed.
Lemma keeps_inc_link_count m i : keeps (inc_link_count drv kmalloc m i).
Proof. unfold inc_link_count; keeps. Qed.
Lemma keeps_dec_link_count m i : keeps (dec_link_count drv kmalloc do_time m i).
Proof. unfold dec_link_count; keeps. Qed.

End Files.
#[export] Hint Resolve keeps_new_buf keeps_read_bytes keeps_write_bytes keeps_get_ext2_inode keeps_put_inode keeps_allocate_inode
  keeps_rw keeps_read keeps_write keeps_flush keeps_trunc keeps_wipe_inode keeps_get_direntry keeps_update_direntry keeps_append_direntry
  keeps_create_direntry keeps_remove_direntry keeps_inc_link_count keeps_dec_link_count : keeps.
