(* ===== verification/Ext2Cache.v ===== *)
(** * The cache of EXT2 inodes and superblocks ([kernel/fs_ext2.c])

    Metadata structures, one for each mounted device, and the inodes that are in
    use, with their reference counts.  Structures are numbered like buffers: an
    allocation returns the next number, and 0 stands for the null pointer.  The lists keep the order of the code. *)

From S2P Require Import Prelude Errors Memory Lists BlockDev.
Import BlockDev Lists.
From S2P Require Import Ext2 Ext2Dir.

(** ** State *)

(** [superblock_t]; [sb_data] is the metadata structure. *)
Record superblock_t := mk_superblock { sb_device : Z; sb_root : Z; sb_data : nat }.

(** [ext2_metadata_t]: [meta] has the fields that files use; [has_bgdt] is false while
    there is no block group descriptor table. *)
Record metadata := mk_metadata {
  meta : ext2_metadata_t;
  has_bgdt : bool;
  super : nat;
  inodes : list nat;
  meta_count : Z;
}.

Record ext2_inode_data_t := mk_inode_data {
  id_meta : nat;
  ext2_inode_ : nat;
  id_inode : nat;
  inode_count : Z;
}.

(** [links] is the field [data] of the generic inodes; [freed] has the structures
    that were given back. *)
Record cache (D : Type) := mk_cache {
  files : fs_state D;
  supers : nat -> superblock_t;
  metas : nat -> metadata;
  ext2_metadata : list nat;
  idatas : nat -> ext2_inode_data_t;
  links : nat -> nat;
  freed : list nat;
}.
Arguments mk_cache {D}.
Arguments files {D}.
Arguments supers {D}.
Arguments metas {D}.
Arguments ext2_metadata {D}.
Arguments idatas {D}.
Arguments links {D}.
Arguments freed {D}.

Definition cM (D A : Type) : Type := cache D -> res (A * cache D).
#[export] Instance cM_ret {D} : MRet (cM D) := fun A a c => Ok (a, c).
#[export] Instance cM_bind {D} : MBind (cM D) := fun A B f m c => '(a, c) ← m c; f a c.

Definition set_files {D} (s : fs_state D) (c : cache D) : cache D :=
  mk_cache s (supers c) (metas c) (ext2_metadata c) (idatas c) (links c) (freed c).

(** A computation on files. *)
Definition lift {D A} (m : fsM D A) : cM D A := fun c => '(a, s) ← m (files c); Ok (a, set_files s c).

Definition cpanic {D A} : cM D A := fun _ => Panic.
Definition cfault {D A} : cM D A := fun _ => Fault.
Definition get {D} : cM D (cache D) := fun c => Ok (c, c).
Definition assert_ptr {D} (p : nat) : cM D () := if decide (p = 0%nat) then cpanic else mret ().

(** A reference count is an [int]; its overflow, which the language leaves undefined, is a [Fault]. *)
Definition count_up {D} (n : Z) : cM D Z := if n =? 2 ^ 31 - 1 then cfault else mret (n + 1).
Definition count_down {D} (n : Z) : cM D Z := if n =? - 2 ^ 31 then cfault else mret (n - 1).
Definition kfree {D} (id : nat) : cM D () := fun c =>
  Ok ((), mk_cache (files c) (supers c) (metas c) (ext2_metadata c) (idatas c) (links c) (freed c ++ [id])).
Definition set_super {D} (id : nat) (v : superblock_t) : cM D () := fun c =>
  Ok ((), mk_cache (files c) (<[id := v]> (supers c)) (metas c) (ext2_metadata c) (idatas c) (links c) (freed c)).
Definition set_metadata {D} (id : nat) (v : metadata) : cM D () := fun c =>
  Ok ((), mk_cache (files c) (supers c) (<[id := v]> (metas c)) (ext2_metadata c) (idatas c) (links c) (freed c)).
Definition set_list {D} (l : list nat) : cM D () := fun c =>
  Ok ((), mk_cache (files c) (supers c) (metas c) l (idatas c) (links c) (freed c)).
Definition set_idata {D} (id : nat) (v : ext2_inode_data_t) : cM D () := fun c =>
  Ok ((), mk_cache (files c) (supers c) (metas c) (ext2_metadata c) (<[id := v]> (idatas c)) (links c) (freed c)).
Definition set_link {D} (inode idata : nat) : cM D () := fun c =>
  Ok ((), mk_cache (files c) (supers c) (metas c) (ext2_metadata c) (idatas c) (<[inode := idata]> (links c)) (freed c)).

Definition with_count (n : Z) (m : metadata) : metadata := mk_metadata (meta m) (has_bgdt m) (super m) (inodes m) n.
Definition with_inodes (l : list nat) (m : metadata) : metadata := mk_metadata (meta m) (has_bgdt m) (super m) l (meta_count m).
Definition with_meta (e : ext2_metadata_t) (b : bool) (m : metadata) : metadata :=
  mk_metadata e b (super m) (inodes m) (meta_count m).
Definition with_refs (n : Z) (d : ext2_inode_data_t) : ext2_inode_data_t :=
  mk_inode_data (id_meta d) (ext2_inode_ d) (id_inode d) n.

Definition EXT2_ROOT_INODE : Z := 2.
Definition EXT2_SUPERBLOCK_SIZE : Z := 1024.
Definition EXT2_MAGIC_NUMBER : Z := 61267.

(** Further fields of the superblock. *)
Definition s_log_block_size : Z := 24.
Definition s_log_frag_size : Z := 28.
Definition s_magic : Z := 56.
Definition s_inode_size : Z := 88.
Definition s_feature_incompat : Z := 96.
Definition s_feature_ro_compat : Z := 100.

(** Removes the first occurrence. *)
Fixpoint list_remove1 (x : nat) (l : list nat) : list nat :=
  match l with [] => [] | y :: l => if decide (x = y) then l else y :: list_remove1 x l end.

Section Cache.
Context {D : Type} (drv : drivers D) (kmalloc : nat -> option mem) (do_time : Z).

#[local] Abbreviation M := (cM D).
#[local] Abbreviation alloc := (lift (new_buf kmalloc)).

(** ** Metadata *)

(** Opening and closing the device. *)
Definition open_device (device : Z) : M Z := fun c =>
  let s := files c in let '(d, rc) := bc_open drv (disk s) device in
  Ok (rc, set_files (mk_fs d (heap s) (next s) (vnodes s)) c).
Definition close_device (device : Z) : M Z := fun c =>
  let s := files c in let '(d, rc) := bc_close drv (disk s) device in
  Ok (rc, set_files (mk_fs d (heap s) (next s) (vnodes s)) c).

Definition fs_ext2_probe (device : Z) : M Z :=
  rc ← open_device device;
  if negb (rc =? 0) then mret ENODEV
  else
    buffer ← alloc;
    match buffer with
    | None => mret ENOMEM
    | Some buffer =>
        rc ← lift (read_bytes drv kmalloc 1 1024 (buffer, 0) device 0);
        if negb (rc =? 0) then kfree buffer ;; close_device device ;; mret EIO
        else
          magic ← lift (ld16 (buffer, s_magic));
          incompat ← lift (ld32 (buffer, s_feature_incompat));
          ro_compat ← lift (ld32 (buffer, s_feature_ro_compat));
          log_block_size ← lift (ld32 (buffer, s_log_block_size));
          log_frag_size ← lift (ld32 (buffer, s_log_frag_size));
          inode_size ← lift (ld16 (buffer, s_inode_size));
          let failed := negb (magic =? EXT2_MAGIC_NUMBER) || negb (incompat =? 0) || negb (ro_compat =? 0) ||
                        negb (log_block_size =? 0) || negb (log_frag_size =? 0) || negb (sizeof_inode =? inode_size) in
          kfree buffer ;; close_device device ;;
          mret (if failed : bool then 0 else 1)
    end.

Definition new_meta : M (option nat) :=
  m ← alloc;
  match m with
  | None => mret None
  | Some m =>
      sb ← alloc;
      match sb with
      | None => mret None
      | Some sb =>
          ext2_super ← alloc;
          match ext2_super with
          | None => mret None
          | Some ext2_super => set_metadata m (mk_metadata (mk_meta ext2_super 0 0 0 0) false sb [] 1) ;; mret (Some m)
          end
      end
  end.

Definition destroy_ext2_inode_data (id : nat) : M () :=
  c ← get;
  kfree (ext2_inode_ (idatas c id)) ;; kfree (id_inode (idatas c id)).

Fixpoint destroy_inodes (l : list nat) : M () :=
  match l with [] => mret () | id :: l => destroy_ext2_inode_data id ;; destroy_inodes l end.

Definition destroy_meta (m : nat) : M () :=
  c ← get;
  let d := metas c m in
  kfree (ext2_super (meta d)) ;;
  (if has_bgdt d then kfree (bgdt (meta d)) else mret ()) ;;
  kfree (super d) ;;
  destroy_inodes (inodes d).

(** [destroy_meta], followed by [kfree]. *)
Definition drop_meta (m : nat) : M () := destroy_meta m ;; kfree m.

Definition read_meta (device : Z) : M (option nat) :=
  m ← new_meta;
  match m with
  | None => mret None
  | Some m =>
      c ← get;
      let sb := ext2_super (meta (metas c m)) in
      rc ← lift (read_bytes drv kmalloc 1 sizeof_superblock (sb, 0) device 0);
      if negb (rc =? 0) then drop_meta m ;; mret None
      else
        blocks ← lift (ld32 (sb, s_blocks_count));
        per_group ← lift (ld32 (sb, s_blocks_per_group));
        if per_group =? 0 then cfault
        else
          let size := u32 (blocks / per_group + 1) in
          let blocks := u32 (u32 (u32 (size * sizeof_bgd) - 1) / BLOCK_SIZE + 1) in
          table ← alloc;
          match table with
          | None => drop_meta m ;; mret None
          | Some table =>
              c ← get;
              set_metadata m (with_meta (mk_meta sb table device size blocks) true (metas c m)) ;;
              first ← lift (ld32 (sb, s_first_data_block));
              rc ← lift (read_bytes drv kmalloc (u32 (first + 1)) (u32 (size * sizeof_bgd)) (table, 0) device 0);
              if negb (rc =? 0) then drop_meta m ;; mret None else mret (Some m)
          end
  end.

(** Takes a reference. *)
Definition get_meta (device : Z) : M (option nat) :=
  c ← get;
  match list_find (fun m => Ext2.device (meta (metas c m)) = device /\ 0 < meta_count (metas c m)) (ext2_metadata c) with
  | Some (_, m) => n ← count_up (meta_count (metas c m)); set_metadata m (with_count n (metas c m)) ;; mret (Some m)
  | None => mret None
  end.

Definition get_meta_lock (device : Z) : M (option nat) := get_meta device.

Definition clone_meta (m : nat) : M nat :=
  c ← get;
  n ← count_up (meta_count (metas c m));
  set_metadata m (with_count n (metas c m)) ;; mret m.

Definition init_super (m : nat) : M () :=
  c ← get;
  set_super (super (metas c m)) (mk_superblock (Ext2.device (meta (metas c m))) EXT2_ROOT_INODE m).

(** The part of [fs_ext2_get_superblock] under the lock: the metadata [m] read from
    the disk are added unless another thread was faster. *)
Definition add_superblock (device : Z) (m : option nat) : M nat :=
  check ← get_meta device;
  match check, m with
  | _, None => cfault
  | None, Some m =>
      c ← get;
      set_list (ext2_metadata c ++ [m]) ;;
      init_super m ;;
      mret (super (metas c m))
  | Some other, Some m => drop_meta m ;; c ← get; mret (super (metas c other))
  end.

Definition fs_ext2_get_superblock (device : Z) : M nat :=
  m ← get_meta_lock device;
  match m with
  | Some m => c ← get; mret (super (metas c m))
  | None => m ← read_meta device; add_superblock device m
  end.

Definition fs_ext2_release_superblock (superblock : nat) : M () :=
  c ← get;
  let m := sb_data (supers c superblock) in
  n ← count_down (meta_count (metas c m));
  set_metadata m (with_count n (metas c m)) ;;
  if n =? 0 then set_list (list_remove1 m (ext2_metadata c)) ;; drop_meta m else mret ().

(** ** Inodes *)

Definition init_ext2_inode_data (inode ext2_inode m : nat) : M (option nat) :=
  id ← alloc;
  match id with
  | None => mret None
  | Some id => set_idata id (mk_inode_data m ext2_inode inode 1) ;; mret (Some id)
  end.

Definition init_inode (ext2_inode m : nat) (inode_nr : Z) : M (option nat) :=
  inode ← alloc;
  match inode with
  | None => mret None
  | Some inode =>
      c ← get;
      mode ← lift (ld16 (ext2_inode, i_mode));
      mtime ← lift (ld32 (ext2_inode, i_mtime));
      atime ← lift (ld32 (ext2_inode, i_atime));
      size ← lift (ld32 (ext2_inode, i_size));
      link_count ← lift (ld16 (ext2_inode, i_link_count));
      s_dev ← lift (ld32 (ext2_inode, direct));
      lift (set_vnode inode (mk_inode (s32 size) inode_nr (Ext2.device (meta (metas c m))) mode (s32 mtime) (s32 atime)
                               ext2_inode link_count 0 s_dev)) ;;
      mret (Some inode)
  end.

Definition store_inode (m id : nat) : M () :=
  c ← get;
  set_metadata m (with_inodes (inodes (metas c m) ++ [id]) (metas c m)).

Definition find_inode (c : cache D) (m : nat) (inode_nr : Z) : option nat :=
  match list_find (fun id => Ext2.inode_nr (vnodes (files c) (id_inode (idatas c id))) = inode_nr) (inodes (metas c m)) with
  | Some (_, id) => Some id
  | None => None
  end.

(** The inode is read from the disk. *)
Definition load_inode (inode_nr : Z) (m : nat) : M (option nat) :=
  c ← get;
  ext2_inode ← lift (get_ext2_inode drv kmalloc inode_nr (meta (metas c m)));
  match ext2_inode with
  | None => mret None
  | Some ext2_inode =>
      inode ← init_inode ext2_inode m inode_nr;
      match inode with
      | None => mret None
      | Some inode =>
          id ← init_ext2_inode_data inode ext2_inode m;
          match id with
          | None => kfree inode ;; mret None
          | Some id => mret (Some id)
          end
      end
  end.

(** The part of [get_inode] under the second lock: the inode with the data [id] is
    added unless another thread was faster. *)
Definition insert_inode (inode_nr : Z) (m id : nat) : M nat :=
  c ← get;
  match find_inode c m inode_nr with
  | Some check => destroy_ext2_inode_data id ;; kfree id ;; mret (id_inode (idatas c check))
  | None =>
      store_inode m id ;;
      set_link (id_inode (idatas c id)) id ;;
      mret (id_inode (idatas c id))
  end.

Definition get_inode (inode_nr : Z) (m : nat) : M (option nat) :=
  c ← get;
  match find_inode c m inode_nr with
  | Some id =>
      n ← count_up (inode_count (idatas c id));
      set_idata id (with_refs n (idatas c id)) ;;
      mret (Some (id_inode (idatas c id)))
  | None =>
      id ← load_inode inode_nr m;
      match id with
      | None => mret None
      | Some id => inode ← insert_inode inode_nr m id; mret (Some inode)
      end
  end.

Definition fs_ext2_get_inode (device inode_nr : Z) : M (option nat) :=
  m ← get_meta_lock device;
  match m with
  | Some m => get_inode inode_nr m
  | None => mret None
  end.

Definition fs_ext2_inode_clone (inode : nat) : M nat :=
  assert_ptr inode ;;
  c ← get;
  let id := links c inode in
  assert_ptr id ;;
  clone_meta (id_meta (idatas c id)) ;;
  n ← count_up (inode_count (idatas c id));
  set_idata id (with_refs n (idatas c id)) ;;
  mret inode.

Definition fs_ext2_is_busy (superblock : nat) : M Z :=
  c ← get;
  mret (if 1 <? meta_count (metas c (sb_data (supers c superblock))) then 1 else 0).

Definition fs_ext2_inode_release (inode : nat) : M () :=
  assert_ptr inode ;;
  c ← get;
  let id := links c inode in
  assert_ptr id ;;
  let d := idatas c id in
  let m := id_meta d in
  n ← count_down (inode_count d);
  set_idata id (with_refs n d) ;;
  (if n =? 0 then set_metadata m (with_inodes (list_remove1 id (inodes (metas c m))) (metas c m)) else mret ()) ;;
  (if n =? 0 then
     link_count ← lift (ld16 (ext2_inode_ d, i_link_count));
     (if link_count =? 0 then lift (wipe_inode drv kmalloc do_time (meta (metas c m)) inode) else mret ()) ;;
     destroy_ext2_inode_data id ;;
     kfree id
   else mret ()) ;;
  fs_ext2_release_superblock (super (metas c m)).

End Cache.
