(* ===== verification/Ext2Names.v ===== *)
(** * Names of EXT2 inodes ([kernel/fs_ext2.c])

    Creating, linking and unlinking inodes: the operations on directories that use
    the cache of inodes. *)

From S2P Require Import Prelude Errors Memory Lists BlockDev.
Import BlockDev Lists.
From S2P Require Import Ext2 Ext2Dir Ext2Cache.

Definition EMLINK : Z := 149.
Definition ENOTEMPTY : Z := 152.
Definition FS_UNLINK_FORCE : Z := 1.
Definition FS_UNLINK_NOTRUNC : Z := 2.
Definition EXT2_S_IFREG : Z := 32768.
Definition S_IFDIR : Z := 4 * 4096.
Definition i_uid : Z := 2.
Definition i_ctime : Z := 12.
Definition i_gid : Z := 24.

(** [strncmp(name, current_name, strlen(name)) == 0] *)
Definition starts_with (name : list Z) (m : mem) : bool :=
  forallb (fun '(i, c) => m (Z.of_nat i) =? c) (imap pair name).

Section Names.
Context {D : Type} (drv : drivers D) (kmalloc : nat -> option mem) (do_time : Z) (fuel : nat).

#[local] Abbreviation M := (cM D).
#[local] Abbreviation release := (fs_ext2_inode_release drv kmalloc do_time).

(** The metadata of an inode. *)
Definition meta_of (c : cache D) (inode : nat) : ext2_metadata_t := meta (metas c (id_meta (idatas c (links c inode)))).

Definition prep_dir_for_deletion (dir parent : nat) (flags : Z) : M Z :=
  c ← get;
  i ← lift (get_vnode dir);
  let sb := supers c (super (metas c (id_meta (idatas c (links c dir))))) in
  let force := negb (Z.land flags FS_UNLINK_FORCE =? 0) in
  if sb_root sb =? inode_nr i then mret EEXIST
  else if negb (mount_point i =? 0) then mret EBUSY
  else
    n ← lift (ld16 (data i, i_link_count));
    if (2 <? n) && negb force then mret EEXIST
    else
      direntry ← lift local;
      rc ← lift (fs_ext2_get_direntry drv kmalloc do_time fuel (meta_of c dir) dir 2 direntry);
      if (rc =? 0) && negb force then mret ENOTEMPTY
      else
        (if Z.land flags FS_UNLINK_NOTRUNC =? 0 then
           lift (fs_ext2_inode_trunc drv kmalloc do_time (meta_of c dir) dir 0) ;;
           lift (st16 (data i, i_link_count) 1) ;;
           lift (i ← get_vnode dir; set_vnode dir (set_link_count 1 i))
         else mret ()) ;;
        lift (dec_link_count drv kmalloc do_time (meta_of c parent) parent).

(** The walk through the directory: a return code, or the inode whose entry was
    removed, if there is one. *)
Fixpoint unlink_loop (fuel : nat) (dir : nat) (name : list Z) (flags : Z) (current_entry preceding_entry current_name : nat)
    (offset preceding_offset : Z) : M (Z + option nat) :=
  match fuel with
  | O => lift hang
  | S fuel =>
      c ← get;
      n ← lift (fs_ext2_inode_read drv kmalloc do_time (meta_of c dir) dir sizeof_direntry (s32 offset) (current_entry, 0));
      if negb (u32 n =? sizeof_direntry) then mret (inl EIO)
      else
        name_len ← lift (ld8 (current_entry, d_name_len));
        nr ← lift (ld32 (current_entry, d_inode));
        i ← lift (get_vnode dir);
        result ←
          (if negb (name_len =? 0) && negb (nr =? 0) then
             n ← lift (fs_ext2_inode_read drv kmalloc do_time (meta_of c dir) dir name_len (s32 (u32 (offset + sizeof_direntry)))
                         (current_name, 0));
             if negb (n =? name_len) then mret (Some (inl EIO))
             else
               m ← lift (get_buf current_name);
               if starts_with name m then
                 removed ← fs_ext2_get_inode drv kmalloc (dev i) nr;
                 match removed with
                 | None => cfault
                 | Some removed =>
                     j ← lift (get_vnode removed);
                     rc ← (if S_ISDIR (mode j) then prep_dir_for_deletion removed dir flags else mret 0);
                     if negb (rc =? 0) then release removed ;; mret (Some (inl rc))
                     else
                       rc ← lift (remove_direntry drv kmalloc do_time (Some current_entry) (Some preceding_entry) (meta_of c dir) dir
                                    offset preceding_offset);
                       if negb (rc =? 0) then release removed ;; mret (Some (inl EIO))
                       else mret (Some (inr (Some removed)))
                 end
               else mret None
           else mret None);
        match result with
        | Some r => mret r
        | None =>
            lift (copy_buf (preceding_entry, 0) (current_entry, 0) sizeof_direntry) ;;
            rec_len ← lift (ld16 (current_entry, d_rec_len));
            i ← lift (get_vnode dir);
            let next := u32 (offset + rec_len) in
            if u32 (size i) <=? next then mret (inr None)
            else unlink_loop fuel dir name flags current_entry preceding_entry current_name next offset
        end
  end.

Definition fs_ext2_unlink_inode (dir : nat) (name : list Z) (flags : Z) : M Z :=
  current_entry ← lift local;
  preceding_entry ← lift local;
  current_name ← lift local;
  r ← unlink_loop fuel dir name flags current_entry preceding_entry current_name 0 0;
  match r with
  | inl rc => mret rc
  | inr None => mret ENOENT
  | inr (Some removed) =>
      c ← get;
      rc ← lift (dec_link_count drv kmalloc do_time (meta_of c removed) removed);
      release removed ;;
      mret (if negb (rc =? 0) then EIO else 0)
  end.

Definition init_ext2_inode (mode egid euid : Z) : M (option nat) :=
  b ← lift (new_buf kmalloc);
  match b with
  | None => mret None
  | Some b =>
      m ← lift (get_buf b);
      lift (set_buf b (blit m 0 (fun _ => 0) 0 sizeof_inode)) ;;
      lift (st16 (b, i_mode) (u16 (Z.land mode 4095 + EXT2_S_IFREG))) ;;
      lift (st16 (b, i_link_count) 0) ;;
      lift (st32 (b, i_ctime) (u32 do_time)) ;;
      lift (st32 (b, i_atime) (u32 do_time)) ;;
      lift (st32 (b, i_mtime) (u32 do_time)) ;;
      lift (st16 (b, i_gid) (u16 egid)) ;;
      lift (st16 (b, i_uid) (u16 euid)) ;;
      mret (Some b)
  end.

Definition dot_dot : list Z := [46; 46].

(** The loop that corrects the entry for the parent: a return code, or whether the
    entry was found. *)
Fixpoint fix_parent (indices : list Z) (dir inode direntry : nat) : M (Z + bool) :=
  match indices with
  | [] => mret (inr false)
  | index :: indices =>
      c ← get;
      m ← lift (get_buf direntry);
      lift (set_buf direntry (blit m 0 (fun _ => 0) 0 (de_name + FILE_NAME_MAX))) ;;
      rc ← lift (fs_ext2_get_direntry drv kmalloc do_time fuel (meta_of c inode) inode index direntry);
      if rc =? -1 then mret (inr false)
      else if negb (rc =? 0) then mret (inl rc)
      else
        m ← lift (get_buf direntry);
        if starts_with (dot_dot ++ [0]) (fun x => m (de_name + x)) then
          d ← lift (get_vnode dir);
          rc ← lift (update_direntry drv kmalloc do_time fuel (meta_of c inode) inode index (inode_nr d));
          mret (if rc =? -1 then inl EIO else if negb (rc =? 0) then inl rc else inr true)
        else fix_parent indices dir inode direntry
  end.

Definition fs_ext2_inode_link (dir : nat) (name : list Z) (inode : nat) : M Z :=
  direntry ← lift local;
  c ← get;
  i ← lift (get_vnode inode);
  d ← lift (get_vnode dir);
  n ← lift (ld16 (data i, i_link_count));
  if n =? LINK_MAX then mret EMLINK
  else
    rc ← (if S_ISDIR (mode i) then
            n ← lift (ld16 (data d, i_link_count));
            if n =? LINK_MAX then mret EMLINK
            else
              rc ← lift (inc_link_count drv kmalloc (meta_of c dir) dir);
              mret (if negb (rc =? 0) then EIO else 0)
          else mret 0);
    if negb (rc =? 0) then mret rc
    else
      rc ← lift (create_direntry drv kmalloc do_time fuel (meta_of c dir) dir (inode_nr i) name);
      if negb (rc =? 0) then lift (dec_link_count drv kmalloc do_time (meta_of c dir) dir) ;; mret rc
      else
        r ← (if S_ISDIR (mode i) then fix_parent [0; 1] dir inode direntry else mret (inr true));
        match r with
        | inl rc => mret rc
        | inr false => cpanic
        | inr true =>
            lift (inc_link_count drv kmalloc (meta_of c inode) inode) ;;
            lift (put_inode drv kmalloc (meta_of c inode) inode)
        end.

Definition fs_ext2_create_inode (garbage errno : Z) (egid euid : Z) (dir : nat) (name : list Z) (mode : Z) : M (option nat) :=
  c ← get;
  d ← lift (get_vnode dir);
  if size d =? 0 then mret None
  else
    ext2_inode ← init_ext2_inode mode egid euid;
    match ext2_inode with
    | None => mret None
    | Some ext2_inode =>
        m ← clone_meta (id_meta (idatas c (links c dir)));
        let sb := super (metas c m) in
        '(inode_nr, _) ← lift (allocate_inode drv kmalloc garbage (meta (metas c m)) (S_ISDIR mode) errno);
        if inode_nr =? 0 then kfree ext2_inode ;; fs_ext2_release_superblock sb ;; mret None
        else
          i_mode ← lift (ld16 (ext2_inode, Ext2.i_mode));
          (if S_ISDIR mode then lift (st16 (ext2_inode, Ext2.i_mode) (u16 (Z.land i_mode 4095 + S_IFDIR))) else mret ()) ;;
          inode ← init_inode kmalloc ext2_inode m inode_nr;
          match inode with
          | None => kfree ext2_inode ;; fs_ext2_release_superblock sb ;; mret None
          | Some inode =>
              id ← init_ext2_inode_data kmalloc inode ext2_inode m;
              match id with
              | None => cpanic
              | Some id =>
                  set_link inode id ;;
                  store_inode m id ;;
                  ok ← (if S_ISDIR mode then
                          n ← lift (ld16 (data d, i_link_count));
                          if n =? LINK_MAX then mret false
                          else
                            rc ← lift (append_direntry drv kmalloc do_time (meta (metas c m)) inode inode_nr [46]);
                            if negb (rc =? 0) then mret false
                            else
                              rc ← lift (inc_link_count drv kmalloc (meta (metas c m)) inode);
                              if negb (rc =? 0) then mret false
                              else
                                rc ← lift (create_direntry drv kmalloc do_time fuel (meta (metas c m)) inode (Ext2.inode_nr d) dot_dot);
                                if negb (rc =? 0) then
                                  lift (dec_link_count drv kmalloc do_time (meta_of c dir) dir) ;; mret false
                                else mret true
                        else mret true);
                  if negb ok then release inode ;; mret None
                  else
                    rc ← fs_ext2_inode_link dir name inode;
                    if negb (rc =? 0) then release inode ;; mret None
                    else mret (Some inode)
              end
          end
    end.

End Names.
