(* ===== verification/Ext2CacheProofs.v ===== *)
(** * The cache of EXT2 inodes: reference counts

    Reference counts are the numbers of references that callers hold; structures
    that are in use are not given back, and none is given back twice. *)

From S2P Require Import Prelude Errors Memory Lists BlockDev.
Import BlockDev Lists.
From S2P Require Import Ext2 Ext2Dir Ext2Stable Ext2Cache Ext2Names.

(** ** Lists *)

(** How often a number occurs. *)
Definition occ (x : nat) (l : list nat) : Z := Z.of_nat (length (filter (eq x) l)).

Lemma occ_cons x y l : occ x (y :: l) = occ x l + (if decide (x = y) then 1 else 0).
Proof. unfold occ; rewrite list.filter_cons; destruct (decide (x = y)); cbn; lia. Qed.

Lemma occ_nonneg x l : 0 <= occ x l.
Proof. unfold occ; lia. Qed.

Lemma occ_elem x l : 0 < occ x l <-> x ∈ l.
Proof.
  induction l as [|y l IH]; [by rewrite elem_of_nil|]; rewrite occ_cons, elem_of_cons, <- IH.
  pose proof (occ_nonneg x l); destruct (decide (x = y)); split; try lia; intros [|]; try lia; done.
Qed.

#[export] Instance occ_proper x : Proper ((≡ₚ) ==> eq) (occ x).
Proof. intros l l' H; unfold occ; by rewrite H. Qed.

Fixpoint sum (f : nat -> Z) (l : list nat) : Z := match l with [] => 0 | x :: l => f x + sum f l end.

#[export] Instance sum_proper f : Proper ((≡ₚ) ==> eq) (sum f).
Proof. induction 1; cbn; lia. Qed.

Lemma sum_ext f g l : (forall x, x ∈ l -> f x = g x) -> sum f l = sum g l.
Proof.
  induction l as [|x l IH]; intros H; [done|]; cbn; rewrite H, IH; [done|intros; apply H; by right|by left].
Qed.

Lemma sum_zero f l : (forall x, x ∈ l -> 0 < f x) -> sum f l <= 0 -> l = [].
Proof.
  destruct l as [|x l]; [done|]; intros H; cbn; pose proof (H x ltac:(by left)).
  assert (0 <= sum f l); [|lia].
  clear -H; induction l as [|y l IH]; cbn; [done|]; pose proof (H y ltac:(right; by left)).
  assert (0 <= sum f l); [|lia]; apply IH; intros z [->|]%elem_of_cons; apply H; [by left|by right; right].
Qed.

Lemma NoDup_map_inj {A} (f : nat -> A) l : NoDup (map f l) -> forall x y, x ∈ l -> y ∈ l -> f x = f y -> x = y.
Proof.
  induction l as [|z l IH]; [by intros _ x y ?%elem_of_nil|]; cbn; rewrite list.NoDup_cons, list_elem_of_fmap; intros [Hn Nd] x y.
  rewrite !elem_of_cons; intros [->|Hx] [->|Hy] E; auto; exfalso; apply Hn; eauto.
Qed.

Lemma bind_apart (f : nat -> list nat) l l' x y z :
  NoDup ((l ++ l') ≫= f) -> x ∈ l -> y ∈ l' -> z ∈ f x -> z ∈ f y -> False.
Proof.
  rewrite bind_app; intros (_ & H & _)%list.NoDup_app Hx Hy Hz Hz'.
  apply (H z); apply list_elem_of_bind; eauto.
Qed.

Lemma bind_ext_in (f g : nat -> list nat) l : (forall x, x ∈ l -> f x = g x) -> l ≫= f = l ≫= g.
Proof. induction l as [|x l IH]; intros H; [done|]; cbn; rewrite H, IH; [done|intros; apply H; by right|by left]. Qed.

#[export] Instance bind_permutation (f : nat -> list nat) : Proper ((≡ₚ) ==> (≡ₚ)) (mbind f).
Proof. intros l l' H; induction H; cbn; [done|by f_equiv|rewrite !app_assoc; f_equiv; apply Permutation_app_comm|by etrans]. Qed.

Lemma remove1_permutation x l : x ∈ l -> l ≡ₚ x :: list_remove1 x l.
Proof.
  induction l as [|y l IH]; [by intros ?%elem_of_nil|]; cbn; destruct (decide (x = y)) as [->|]; [done|].
  intros [|Hx]%elem_of_cons; [done|]; rewrite (IH Hx) at 1; constructor.
Qed.

(** ** The invariant *)

Section Invariant.
Context {D : Type}.

(** The structures of an inode, and of the metadata with their inodes. *)
Definition inode_objects (c : cache D) (id : nat) : list nat := [id; id_inode (idatas c id); ext2_inode_ (idatas c id)].
Definition meta_objects (c : cache D) (m : nat) : list nat :=
  [m; super (metas c m); ext2_super (meta (metas c m)); bgdt (meta (metas c m))] ++ (inodes (metas c m) ≫= inode_objects c).

Definition number (c : cache D) (id : nat) : Z := inode_nr (vnodes (files c) (id_inode (idatas c id))).

(** The inode [id] belongs to the metadata [m], and its count is the number of
    references in [R]. *)
Record inode_ok (R : list nat) (c : cache D) (m id : nat) : Prop := {
  io_meta : id_meta (idatas c id) = m;
  io_link : links c (id_inode (idatas c id)) = id;
  io_count : inode_count (idatas c id) = occ (id_inode (idatas c id)) R;
  io_used : 0 < inode_count (idatas c id);
  io_dev : dev (vnodes (files c) (id_inode (idatas c id))) = Ext2.device (meta (metas c m));
  io_data : data (vnodes (files c) (id_inode (idatas c id))) = ext2_inode_ (idatas c id);
}.

(** Each reference to an inode is a reference to its metadata, too; [S] are the
    other ones.  Numbers of inodes are unique if [u]. *)
Record meta_ok (u : bool) (R S : list nat) (c : cache D) (m : nat) : Prop := {
  mo_bgdt : has_bgdt (metas c m) = true;
  mo_super : sb_data (supers c (super (metas c m))) = m;
  mo_device : sb_device (supers c (super (metas c m))) = Ext2.device (meta (metas c m));
  mo_inodes : forall id, id ∈ inodes (metas c m) -> inode_ok R c m id;
  mo_unique : u = true -> NoDup (map (number c) (inodes (metas c m)));
  mo_count : meta_count (metas c m) = occ m S + sum (fun id => inode_count (idatas c id)) (inodes (metas c m));
  mo_used : 0 < meta_count (metas c m);
}.

(** [P] are structures that are not part of the cache yet, or not any more. *)
Record cache_ok (u : bool) (P R S : list nat) (c : cache D) : Prop := {
  ck_metas : forall m, m ∈ ext2_metadata c -> meta_ok u R S c m;
  ck_devices : NoDup (map (fun m => Ext2.device (meta (metas c m))) (ext2_metadata c));
  ck_objects : NoDup (P ++ (ext2_metadata c ≫= meta_objects c) ++ freed c);
  ck_fresh : Forall (fun x => (x < next (files c))%nat) (P ++ (ext2_metadata c ≫= meta_objects c) ++ freed c);
  ck_refs : forall r, r ∈ R -> exists m id, m ∈ ext2_metadata c /\ id ∈ inodes (metas c m) /\ id_inode (idatas c id) = r;
  ck_supers : forall m, m ∈ S -> m ∈ ext2_metadata c;
}.

(** The states and the references agree but for the structures in [X]. *)
Record agree (X : list nat) (c c' : cache D) (R R' S S' : list nat) : Prop := {
  ag_metas : forall x, x ∉ X -> metas c' x = metas c x;
  ag_supers : forall x, x ∉ X -> supers c' x = supers c x;
  ag_idatas : forall x, x ∉ X -> idatas c' x = idatas c x;
  ag_links : forall x, x ∉ X -> links c' x = links c x;
  ag_ident : forall x, x ∉ X -> ident (vnodes (files c') x) = ident (vnodes (files c) x);
  ag_refs : forall x, x ∉ X -> occ x R' = occ x R;
  ag_counts : forall x, x ∉ X -> occ x S' = occ x S;
}.

Lemma meta_objects_self c m : m ∈ meta_objects c m.
Proof. by left. Qed.
Lemma meta_objects_super c m : super (metas c m) ∈ meta_objects c m.
Proof. right; by left. Qed.
Lemma meta_objects_inode c m id x : id ∈ inodes (metas c m) -> x ∈ inode_objects c id -> x ∈ meta_objects c m.
Proof. intros H Hx; apply elem_of_app; right; apply list_elem_of_bind; eauto. Qed.

(** Metadata outside of [X] are not affected. *)
Lemma agree_meta u X c c' R R' S S' m :
  agree X c c' R R' S S' -> (forall x, x ∈ meta_objects c m -> x ∉ X) -> meta_ok u R S c m ->
  meta_ok u R' S' c' m /\ meta_objects c' m = meta_objects c m.
Proof.
  intros [A1 A2 A3 A4 A5 A6 A7] HX [M1 M2 M3 M4 M5 M6 M7].
  assert (Hm : metas c' m = metas c m) by (apply A1, HX, meta_objects_self).
  assert (Hid : forall id, id ∈ inodes (metas c m) -> idatas c' id = idatas c id)
    by (intros id Hid; apply A3, HX; eapply meta_objects_inode; [exact Hid|by left]).
  assert (Hi : forall id, id ∈ inodes (metas c m) -> id_inode (idatas c id) ∉ X)
    by (intros id Hin; apply HX; eapply meta_objects_inode; [exact Hin|right; by left]).
  split.
  - split; rewrite ?Hm, ?(A2 (super (metas c m))), ?(A7 m) by (apply HX; (apply meta_objects_super || apply meta_objects_self)); auto.
    + intros id Hin; pose proof (Hi id Hin) as Hx; destruct (M4 id Hin) as [I1 I2 I3 I4 I5 I6]; pose proof (A5 _ Hx) as [= E1 E2 E3].
      split; rewrite (Hid id Hin), ?A4, ?A6, ?Hm, ?E2, ?E3 by done; auto.
    + intros Hu; erewrite map_ext_in; [by apply M5|]; intros id Hin%list_elem_of_In; unfold number; rewrite (Hid id Hin).
      by pose proof (A5 _ (Hi id Hin)) as [= -> _ _].
    + rewrite M6; f_equal; apply sum_ext; intros id Hin; by rewrite Hid.
  - unfold meta_objects; rewrite Hm; f_equal; apply bind_ext_in; intros id Hin; unfold inode_objects; by rewrite Hid.
Qed.

(** How the cache changes: the metadata [old] are replaced by [new], and the
    numbers [N] are new. *)
Lemma cache_update u (N P R S P' R' S' old new rest : list nat) (c c' : cache D) :
  cache_ok u P R S c -> ext2_metadata c ≡ₚ old ++ rest -> ext2_metadata c' ≡ₚ new ++ rest ->
  agree (N ++ P ++ (old ≫= meta_objects c)) c c' R R' S S' ->
  P' ++ (new ≫= meta_objects c') ++ freed c' ≡ₚ N ++ P ++ (old ≫= meta_objects c) ++ freed c ->
  NoDup N -> (forall x, x ∈ N -> (next (files c) <= x < next (files c'))%nat) -> (next (files c) <= next (files c'))%nat ->
  (forall m, m ∈ new -> meta_ok u R' S' c' m) ->
  NoDup (map (fun m => Ext2.device (meta (metas c' m))) new) ->
  (forall m m', m ∈ new -> m' ∈ rest -> Ext2.device (meta (metas c' m)) <> Ext2.device (meta (metas c m'))) ->
  (forall r, r ∈ R' -> (exists m id, m ∈ new /\ id ∈ inodes (metas c' m) /\ id_inode (idatas c' id) = r) \/
     r ∈ R /\ forall m id, m ∈ old -> id ∈ inodes (metas c m) -> id_inode (idatas c id) <> r) ->
  (forall m, m ∈ S' -> m ∈ new \/ m ∈ S /\ m ∉ old) ->
  cache_ok u P' R' S' c'.
Proof.
  intros [C1 C2 C3 C4 C5 C6] Ho Hn HA HP HN HN' Hx Hm Hd Hdd HR HS.
  rewrite Ho, bind_app in C3; rewrite Ho, bind_app in C4; rewrite Ho, map_app in C2.
  assert (Hout : forall m x, m ∈ rest -> x ∈ meta_objects c m -> x ∉ N ++ P ++ (old ≫= meta_objects c)).
  { intros m x Hin Hxm Hx'; assert (x ∈ rest ≫= meta_objects c) as Hxr by (apply list_elem_of_bind; eauto).
    rewrite list.Forall_forall in C4; apply elem_of_app in Hx' as [HxN|Hx']; [specialize (HN' x HxN); assert (x < next (files c))%nat by (apply C4; rewrite !elem_of_app; auto); lia|].
    clear -C3 Hxr Hx'; rewrite <- app_assoc, app_assoc in C3; apply list.NoDup_app in C3 as (_ & C3 & _); apply (C3 x Hx'); rewrite !elem_of_app; auto. }
  assert (Hrest : forall m, m ∈ rest -> meta_ok u R' S' c' m /\ meta_objects c' m = meta_objects c m).
  { intros m Hin; apply (agree_meta u _ c c' R R' S S' m HA); [intros x; by apply Hout|apply C1; rewrite Ho; apply elem_of_app; by right]. }
  assert (Hm' : forall m, m ∈ rest -> metas c' m = metas c m) by (intros m Hin; apply (ag_metas _ _ _ _ _ _ _ HA), (Hout m m Hin), meta_objects_self).
  assert (Hbind : rest ≫= meta_objects c' = rest ≫= meta_objects c) by (apply bind_ext_in; intros x Hin; by apply Hrest).
  assert (Hall : P' ++ ((new ++ rest) ≫= meta_objects c') ++ freed c' ≡ₚ N ++ P ++ ((old ≫= meta_objects c) ++ (rest ≫= meta_objects c)) ++ freed c).
  { rewrite bind_app, Hbind, (Permutation_app_comm (new ≫= _)), (Permutation_app_comm (old ≫= _)), <- !app_assoc.
    rewrite (Permutation_app_swap_app P' (rest ≫= _)), HP, (Permutation_app_swap_app P (rest ≫= _)), (Permutation_app_swap_app N (rest ≫= _)); done. }
  split.
  - intros m; rewrite Hn; intros [Hin|Hin]%elem_of_app; [by apply Hm|by apply Hrest].
  - rewrite Hn, map_app; apply list.NoDup_app in C2 as (_ & _ & C2); apply list.NoDup_app; split; [done|]; split.
    + intros d (m & -> & H1)%list_elem_of_fmap (m' & E & H2)%list_elem_of_fmap; apply (Hdd m m' H1 H2); by rewrite E, Hm'.
    + erewrite map_ext_in; [exact C2|]; intros m Hin%list_elem_of_In; cbn; by rewrite Hm'.
  - rewrite Hn, Hall; apply list.NoDup_app; split; [done|]; split; [|done].
    intros x HxN Hx'; rewrite list.Forall_forall in C4; specialize (HN' x HxN); specialize (C4 x Hx'); cbn in C4; lia.
  - rewrite Hn, Hall; apply Forall_app; split; [|eapply list.Forall_impl; [exact C4|cbn; lia]].
    apply list.Forall_forall; intros x HxN; apply (HN' x HxN).
  - intros r Hr; destruct (HR r Hr) as [(m & id & Hin & H)|[Hr' Hno]]; [exists m, id; rewrite Hn; split; [apply elem_of_app; by left|done]|].
    destruct (C5 r Hr') as (m & id & Hin & H & <-); rewrite Ho in Hin; apply elem_of_app in Hin as [Hin|Hin]; [by edestruct Hno|].
    exists m, id; rewrite Hn, Hm' by done; split; [apply elem_of_app; by right|]; split; [done|].
    rewrite (ag_idatas _ _ _ _ _ _ _ HA); [done|]; apply (Hout m id Hin); eapply meta_objects_inode; [exact H|by left].
  - intros m Hin; rewrite Hn; destruct (HS m Hin) as [|[H1 H2]]; [apply elem_of_app; by left|].
    specialize (C6 m H1); rewrite Ho in C6; rewrite elem_of_app in *; tauto.
Qed.

Lemma agree_files X s (c : cache D) R S :
  (forall x, x ∉ X -> ident (vnodes s x) = ident (vnodes (files c) x)) -> agree X c (set_files s c) R R S S.
Proof. by split. Qed.

(** Changes of structures that are not in the cache. *)
Lemma cache_private u N P R S P' (c c' : cache D) :
  cache_ok u P R S c -> ext2_metadata c' = ext2_metadata c -> agree (N ++ P) c c' R R S S ->
  P' ++ freed c' ≡ₚ N ++ P ++ freed c -> NoDup N -> (forall x, x ∈ N -> (next (files c) <= x < next (files c'))%nat) ->
  (next (files c) <= next (files c'))%nat -> cache_ok u P' R S c'.
Proof.
  intros H El HA HP HN HN' Hx; apply (cache_update u N P R S P' R S [] [] (ext2_metadata c) c); auto; cbn [mbind list_bind].
  - by rewrite El.
  - by rewrite app_nil_r.
  - by intros m ?%elem_of_nil.
  - constructor.
  - by intros m m' ?%elem_of_nil.
  - intros r Hr; right; split; [done|]; by intros m id ?%elem_of_nil.
  - intros m Hm; right; split; [done|]; by intros ?%elem_of_nil.
Qed.

(** Changes of files, and new buffers. *)
Lemma cache_files u N P R S (c : cache D) s :
  cache_ok u P R S c -> NoDup N -> (forall x, x ∈ N -> (next (files c) <= x < next s)%nat) -> (next (files c) <= next s)%nat ->
  (forall x, x ∉ N ++ P -> ident (vnodes s x) = ident (vnodes (files c) x)) -> cache_ok u (N ++ P) R S (set_files s c).
Proof.
  intros H HN HN' Hx Hi; apply (cache_private u N P R S _ c); auto; [by apply agree_files|by rewrite app_assoc].
Qed.

(** Computations on files keep the invariant. *)
Lemma lift_ok {A} u P R S (m : fsM D A) c a c' :
  cache_ok u P R S c -> lift m c = Ok (a, c') -> (forall ids, keeps ids m) ->
  cache_ok u P R S c' /\ exists s, c' = set_files s c /\ (next (files c) <= next s)%nat.
Proof.
  unfold lift; intros H E K; destruct (m (files c)) as [[a' s]| | |] eqn:Em; cbn in E; try done; injection E as <- <-.
  destruct (K (fun i => ident (vnodes (files c) i)) (files c) a' s) as [Hn Hi]; [done|done|].
  split; [|eauto]; apply (cache_files u []); auto; [constructor|by intros x ?%elem_of_nil].
Qed.

Lemma alloc_ok u P R S kmalloc c o c' :
  cache_ok u P R S c -> lift (new_buf kmalloc) c = Ok (o, c') ->
  (exists s, c' = set_files s c /\ (next (files c) <= next s)%nat) /\
  match o with Some b => cache_ok u (b :: P) R S c' /\ b = next (files c) | None => cache_ok u P R S c' end.
Proof.
  unfold lift, new_buf; intros H E; destruct (kmalloc (next (files c))); cbn in E; injection E as <- <-.
  - split; [eexists; split; [done|cbn; lia]|]; split; [|done]; apply (cache_files u [next (files c)]); auto; cbn.
    + apply NoDup_singleton.
    + intros x ->%list_elem_of_singleton; lia.
    + lia.
  - split; [eexists; split; [done|cbn; lia]|]; apply (cache_files u []); auto; [constructor|by intros x ?%elem_of_nil|cbn; lia].
Qed.

(** Structures that are not in the cache can be given back. *)
Lemma kfree_ok u x P R S c c' : cache_ok u (x :: P) R S c -> kfree x c = Ok ((), c') -> cache_ok u P R S c'.
Proof.
  intros H [= <-]; apply (cache_private u [] (x :: P) R S _ c); auto; cbn; [by split| |constructor|by intros ? ?%elem_of_nil].
  rewrite (Permutation_app_comm (freed c)); cbn; by rewrite <- Permutation_middle.
Qed.

(** A change of one metadata structure. *)
Lemma cache_meta u P R S P' R' S' m (c c' : cache D) :
  cache_ok u P R S c -> m ∈ ext2_metadata c -> ext2_metadata c' = ext2_metadata c -> freed c' = freed c ->
  (next (files c) <= next (files c'))%nat -> agree (P ++ meta_objects c m) c c' R R' S S' ->
  meta (metas c' m) = meta (metas c m) -> P' ++ meta_objects c' m ≡ₚ P ++ meta_objects c m -> meta_ok u R' S' c' m ->
  (forall r, r ∈ R' -> (exists id, id ∈ inodes (metas c' m) /\ id_inode (idatas c' id) = r) \/
     r ∈ R /\ forall id, id ∈ inodes (metas c m) -> id_inode (idatas c id) <> r) ->
  (forall x, x ∈ S' -> x = m \/ x ∈ S) ->
  cache_ok u P' R' S' c'.
Proof.
  intros H Hm El Ef Hx HA Em HP Hok HR HS; pose proof (remove1_permutation _ _ Hm) as Hp; set (rest := list_remove1 m (ext2_metadata c)) in *.
  apply (cache_update u [] P R S P' R' S' [m] [m] rest c); auto; cbn [mbind list_bind]; rewrite ?app_nil_r, ?Ef; auto.
  - by rewrite El.
  - by rewrite !app_assoc, HP.
  - constructor.
  - by intros x ?%elem_of_nil.
  - by intros m' ->%list_elem_of_singleton.
  - apply NoDup_singleton.
  - intros m1 m2 ->%list_elem_of_singleton H2; rewrite Em; pose proof (ck_devices _ _ _ _ _ H) as Hd; rewrite Hp in Hd.
    cbn in Hd; apply list.NoDup_cons in Hd as [Hd _]; contradict Hd; apply list_elem_of_fmap; eauto.
  - intros r Hr; destruct (HR r Hr) as [(id & ? & ?)|[? Hno]]; [left; exists m, id; split; [by left|done]|right; split; [done|]].
    by intros m' id ->%list_elem_of_singleton; apply Hno.
  - intros x Hx'; destruct (decide (x = m)) as [->|Hne]; [left; by left|]; right; destruct (HS x Hx'); [done|]; split; [done|].
    by intros ->%list_elem_of_singleton.
Qed.

#[export] Instance cache_ok_proper u : Proper ((≡ₚ) ==> (≡ₚ) ==> (≡ₚ) ==> eq ==> impl) (cache_ok u).
Proof.
  intros P P' HP R R' HR S S' HS c ? <- [C1 C2 C3 C4 C5 C6]; split; auto.
  - intros m Hm; destruct (C1 m Hm) as [M1 M2 M3 M4 M5 M6 M7]; split; auto; [|by rewrite <- HS].
    intros id Hid; destruct (M4 id Hid) as [I1 I2 I3 I4 I5 I6]; split; auto; by rewrite <- HR.
  - by rewrite <- HP.
  - by rewrite <- HP.
  - intros r; rewrite <- HR; apply C5.
  - intros m; rewrite <- HS; apply C6.
Qed.

Lemma bind_NoDup (f : nat -> list nat) l : NoDup (l ≫= f) -> (forall x, x ∈ f x) -> NoDup l.
Proof.
  intros H Hf; induction l as [|x l IH]; [constructor|]; cbn in H; apply list.NoDup_app in H as (_ & H1 & H2).
  apply list.NoDup_cons; split; [|by apply IH]; intros Hx; apply (H1 x (Hf x)), list_elem_of_bind; eauto.
Qed.

Lemma bind_part (f : nat -> list nat) l x : NoDup (l ≫= f) -> x ∈ l -> NoDup (f x).
Proof.
  intros H Hx; rewrite (remove1_permutation x l Hx) in H; cbn in H; by apply list.NoDup_app in H as (? & _ & _).
Qed.

Lemma inodes_NoDup u P R S (c : cache D) m : cache_ok u P R S c -> m ∈ ext2_metadata c -> NoDup (inodes (metas c m)).
Proof.
  intros [_ _ C3 _ _ _] Hm; apply list.NoDup_app in C3 as (_ & _ & (C3 & _ & _)%list.NoDup_app).
  pose proof (bind_part _ _ m C3 Hm) as H; unfold meta_objects in H; apply list.NoDup_app in H as (_ & _ & H).
  apply (bind_NoDup _ _ H); intros id; by left.
Qed.

(** The metadata of an inode in use. *)
Lemma ref_meta u P R S (c : cache D) i :
  cache_ok u P R S c -> i ∈ R ->
  let id := links c i in let m := id_meta (idatas c id) in
  m ∈ ext2_metadata c /\ id ∈ inodes (metas c m) /\ id_inode (idatas c id) = i /\ meta_ok u R S c m /\ inode_ok R c m id.
Proof.
  intros H Hi; destruct (ck_refs _ _ _ _ _ H i Hi) as (m & id & Hm & Hid & <-); pose proof (ck_metas _ _ _ _ _ H m Hm) as M.
  pose proof (mo_inodes _ _ _ _ _ M id Hid) as I; cbn; rewrite (io_link _ _ _ _ I), (io_meta _ _ _ _ I); auto.
Qed.

(** ** Counts *)

(** References either belong to inodes of [m] or not. *)
Lemma refs_split (c : cache D) m (R : list nat) r :
  r ∈ R -> (exists id, id ∈ inodes (metas c m) /\ id_inode (idatas c id) = r) \/
    r ∈ R /\ forall id, id ∈ inodes (metas c m) -> id_inode (idatas c id) <> r.
Proof.
  intros Hr; destruct (decide (r ∈ map (fun id => id_inode (idatas c id)) (inodes (metas c m)))) as [Hin|Hin].
  - left; apply list_elem_of_fmap in Hin as (id & -> & Hid); eauto.
  - right; split; [done|]; intros id Hid E; apply Hin, list_elem_of_fmap; eauto.
Qed.

Lemma meta_change u P R S S' (c : cache D) m d :
  let n := meta_count (metas c m) + d in
  cache_ok u P R S c -> m ∈ ext2_metadata c -> 0 < n -> (forall x, occ x S' = occ x S + (if decide (x = m) then d else 0)) ->
  cache_ok u P R S'
    (mk_cache (files c) (supers c) (<[m := with_count n (metas c m)]> (metas c)) (ext2_metadata c) (idatas c) (links c) (freed c)).
Proof.
  intros n H Hm Hn HS; pose proof (ck_metas _ _ _ _ _ H m Hm) as [M1 M2 M3 M4 M5 M6 M7].
  match goal with |- cache_ok _ _ _ _ ?x => set (c' := x) end.
  assert (Em : metas c' m = with_count n (metas c m)) by apply fn_lookup_insert.
  apply (cache_meta u P R S P R S' m c c'); rewrite ?Em; auto.
  - split; auto; intros x Hx; assert (x <> m) by (intros ->; apply Hx, elem_of_app; right; apply meta_objects_self).
    + by apply fn_lookup_insert_ne.
    + rewrite HS, decide_False by done; lia.
  - unfold meta_objects; by rewrite Em.
  - split; rewrite ?Em; auto.
    + intros id Hid; destruct (M4 id Hid) as [I1 I2 I3 I4 I5 I6]; split; rewrite ?Em; auto.
    + cbn; rewrite HS, decide_True by done; unfold n; lia.
  - exact (refs_split c m R).
  - intros x Hx; destruct (decide (x = m)); [by left|]; right; apply occ_elem; apply occ_elem in Hx.
    rewrite HS, decide_False in Hx by done; lia.
Qed.

(** A reference to an inode is exchanged for one to its metadata, or the other way
    round. *)
Lemma inode_change u P R S R' S' (c : cache D) m id d :
  let i := id_inode (idatas c id) in let n := inode_count (idatas c id) + d in
  cache_ok u P R S c -> m ∈ ext2_metadata c -> id ∈ inodes (metas c m) -> 0 < n ->
  (forall x, occ x R' = occ x R + (if decide (x = i) then d else 0)) ->
  (forall x, occ x S' = occ x S - (if decide (x = m) then d else 0)) ->
  exists c', set_idata id (with_refs n (idatas c id)) c = Ok ((), c') /\ cache_ok u P R' S' c' /\
    c' = mk_cache (files c) (supers c) (metas c) (ext2_metadata c) (<[id := with_refs n (idatas c id)]> (idatas c)) (links c) (freed c).
Proof.
  intros i n H Hm Hid Hn HR HS; eexists; split; [reflexivity|]; split; [|done].
  pose proof (ck_metas _ _ _ _ _ H m Hm) as [M1 M2 M3 M4 M5 M6 M7]; pose proof (inodes_NoDup _ _ _ _ _ _ H Hm) as Nd.
  pose proof (M4 id Hid) as [I1 I2 I3 I4 I5 I6].
  match goal with |- cache_ok _ _ _ _ ?x => set (c' := x) end.
  assert (Ei : idatas c' id = with_refs n (idatas c id)) by apply fn_lookup_insert.
  assert (Eo : forall x, x <> id -> idatas c' x = idatas c x) by (intros; by apply fn_lookup_insert_ne).
  assert (Es : forall x, id_inode (idatas c' x) = id_inode (idatas c x) /\ ext2_inode_ (idatas c' x) = ext2_inode_ (idatas c x))
    by (intros x; destruct (decide (x = id)) as [->|]; [by rewrite Ei|by rewrite Eo]).
  assert (Hout : forall x, x ∉ P ++ meta_objects c m -> x <> m /\ x <> id /\ x <> i).
  { intros x Hx; split_and!; intros ->; apply Hx, elem_of_app; right; [apply meta_objects_self|..];
      (eapply meta_objects_inode; [exact Hid|]); [by left|right; by left]. }
  assert (Ec : inode_count (idatas c' id) = n) by (by rewrite Ei).
  apply (cache_meta u P R S P R' S' m c c'); auto.
  - split; auto; intros x (? & ? & ?)%Hout; [by apply Eo|rewrite HR, decide_False by done; lia|rewrite HS, decide_False by done; lia].
  - unfold meta_objects; erewrite (bind_ext_in (inode_objects c')); [done|]; intros x _; unfold inode_objects; by destruct (Es x) as [-> ->].
  - split; auto.
    + intros id' Hid'; destruct (M4 id' Hid') as [J1 J2 J3 J4 J5 J6], (Es id') as [E1 E2].
      destruct (decide (id' = id)) as [->|Hne].
      * split; rewrite ?E1, ?E2, ?Ec, ?HR, ?decide_True by done; auto; [by rewrite Ei|unfold n; lia].
      * split; rewrite ?Eo by done; auto; rewrite HR, J3, decide_False; [lia|]; intros E; apply Hne; rewrite <- J2, <- I2; by f_equal.
    + intros Hu; specialize (M5 Hu); erewrite map_ext; [exact M5|]; intros x; unfold number; by destruct (Es x) as [-> _].
    + change (metas c' m) with (metas c m); rewrite M6, HS, decide_True by done; rewrite (remove1_permutation _ _ Hid) in *; cbn [sum]; rewrite Ec.
      apply list.NoDup_cons in Nd as [Nd _]; unfold n.
      rewrite (sum_ext (fun x => inode_count (idatas c' x)) (fun x => inode_count (idatas c x))); [lia|]; intros x Hx; rewrite Eo; [done|]; by intros ->.
  - intros r Hr; destruct (decide (r = i)) as [->|Hne]; [left; exists id; by rewrite (proj1 (Es id))|].
    apply occ_elem in Hr; rewrite HR, decide_False in Hr by done.
    destruct (refs_split c m R r) as [(x & ? & ?)|]; [by apply occ_elem; lia| |by right]; left; exists x; by rewrite (proj1 (Es x)).
  - intros x Hx; destruct (decide (x = m)) as [|Hne]; [by left|]; right; apply occ_elem; apply occ_elem in Hx.
    rewrite HS, decide_False in Hx by done; lia.
Qed.

(** The last reference to an inode is dropped: its structures leave the cache. *)
Lemma inode_last u P R S (c : cache D) m id :
  let i := id_inode (idatas c id) in
  cache_ok u P (i :: R) S c -> m ∈ ext2_metadata c -> id ∈ inodes (metas c m) -> inode_count (idatas c id) = 1 ->
  cache_ok u (id :: i :: ext2_inode_ (idatas c id) :: P) R (m :: S)
    (mk_cache (files c) (supers c) (<[m := with_inodes (list_remove1 id (inodes (metas c m))) (metas c m)]> (metas c)) (ext2_metadata c)
       (<[id := with_refs 0 (idatas c id)]> (idatas c)) (links c) (freed c)).
Proof.
  intros i H Hm Hid Hn.
  pose proof (ck_metas _ _ _ _ _ H m Hm) as [M1 M2 M3 M4 M5 M6 M7]; pose proof (inodes_NoDup _ _ _ _ _ _ H Hm) as Nd.
  pose proof (M4 id Hid) as [I1 I2 I3 I4 I5 I6]; rewrite Hn, occ_cons, decide_True in I3 by done.
  match goal with |- cache_ok _ _ _ _ ?x => set (c' := x) end.
  set (l := list_remove1 id (inodes (metas c m))) in *; pose proof (remove1_permutation _ _ Hid : inodes (metas c m) ≡ₚ id :: l) as Hp.
  assert (Em : metas c' m = with_inodes l (metas c m)) by apply fn_lookup_insert.
  assert (Eo : forall x, x <> id -> idatas c' x = idatas c x) by (intros; by apply fn_lookup_insert_ne).
  assert (Hl : forall x, x ∈ l -> x ∈ inodes (metas c m) /\ x <> id).
  { intros x Hx; rewrite Hp; split; [by right|]; intros ->; rewrite Hp in Nd; by apply list.NoDup_cons in Nd as [Nd _]. }
  assert (Hne : forall x, x ∈ l -> id_inode (idatas c x) <> i).
  { intros x [Hx Hx']%Hl E; apply Hx'; destruct (M4 x Hx) as [_ J2 _ _ _ _]; rewrite <- J2, <- I2; by f_equal. }
  assert (Hout : forall x, x ∉ P ++ meta_objects c m -> x <> m /\ x <> id /\ x <> i).
  { intros x Hx; split_and!; intros ->; apply Hx, elem_of_app; right; [apply meta_objects_self|..];
      (eapply meta_objects_inode; [exact Hid|]); [by left|right; by left]. }
  assert (Ho : l ≫= inode_objects c' = l ≫= inode_objects c)
    by (apply bind_ext_in; intros x [_ Hx]%Hl; unfold inode_objects; by rewrite Eo).
  apply (cache_meta u P (i :: R) S _ R (m :: S) m c c'); rewrite ?Em; auto.
  - split; auto; intros x (? & ? & ?)%Hout; [by apply fn_lookup_insert_ne|by apply Eo| |]; rewrite occ_cons, decide_False by done; lia.
  - unfold meta_objects; rewrite Em; cbn [with_inodes super meta inodes]; rewrite Ho, (bind_permutation _ _ _ Hp); cbn [mbind list_bind].
    change (inode_objects c id) with [id; i; ext2_inode_ (idatas c id)].
    rewrite !(app_assoc P), (Permutation_app_comm _ ([id; i; ext2_inode_ (idatas c id)] ++ _)), <- !app_assoc; cbn.
    do 3 f_equiv; rewrite (Permutation_app_comm (l ≫= _)), <- app_assoc; done.
  - split; rewrite ?Em; cbn [with_inodes inodes meta_count has_bgdt super meta]; auto.
    + intros x Hx; destruct (Hl x Hx) as [Hx1 Hx2]; destruct (M4 x Hx1) as [J1 J2 J3 J4 J5 J6].
      split; rewrite ?Em, Eo by done; auto; rewrite J3, occ_cons, decide_False by (done || by apply Hne); lia.
    + intros Hu; specialize (M5 Hu); rewrite Hp in M5; cbn in M5; apply list.NoDup_cons in M5 as [_ M5].
      erewrite map_ext_in; [exact M5|]; intros x [_ Hx]%list_elem_of_In%Hl; unfold number; by rewrite Eo.
    + rewrite M6, Hp, occ_cons, decide_True by done; cbn [sum]; rewrite Hn.
      rewrite (sum_ext (fun x => inode_count (idatas c' x)) (fun x => inode_count (idatas c x))); [lia|].
      intros x [_ Hx]%Hl; by rewrite Eo.
  - intros r Hr; cbn [with_inodes inodes]; assert (r <> i) as Hri by (intros ->; apply occ_elem in Hr; unfold i in Hr; lia).
    destruct (refs_split c m (i :: R) r) as [(x & Hx & E)|]; [by right| |by right].
    left; exists x; rewrite Hp in Hx; apply elem_of_cons in Hx as [->|Hx]; [done|]; rewrite Eo by (by apply Hl); auto.
  - intros x [->|]%elem_of_cons; auto.
Qed.

End Invariant.

(** ** Operations *)

Lemma cbind_inv {D A B} (m : cM D A) (f : A -> cM D B) c b c' :
  (m ≫= f) c = Ok (b, c') -> exists a c1, m c = Ok (a, c1) /\ f a c1 = Ok (b, c').
Proof. unfold mbind, cM_bind; cbn; destruct (m c) as [[a c1]| | |]; cbn; try done; eauto. Qed.

(** Takes the first step of a computation. *)
Tactic Notation "first_step" hyp(E) "as" ident(a) ident(c1) ident(E1) := apply cbind_inv in E as (a & c1 & E1 & E).

Section Ops.
Context {D : Type} (drv : drivers D) (kmalloc : nat -> option mem) (do_time : Z) (fuel : nat).

Lemma count_up_inv n (c : cache D) v c' : count_up n c = Ok (v, c') -> v = n + 1 /\ c' = c.
Proof. unfold count_up; case_test; [done|by intros [= <- <-]]. Qed.

Lemma count_down_inv n (c : cache D) v c' : count_down n c = Ok (v, c') -> v = n - 1 /\ c' = c.
Proof. unfold count_down; case_test; [done|by intros [= <- <-]]. Qed.

Lemma assert_ptr_inv p (c : cache D) x c' : assert_ptr p c = Ok (x, c') -> p <> 0%nat /\ c' = c.
Proof. unfold assert_ptr; destruct (decide _); [done|by intros [= _ <-]]. Qed.

Lemma get_meta_ok u P R S (c : cache D) d o c' :
  cache_ok u P R S c -> get_meta d c = Ok (o, c') ->
  match o with
  | Some m => cache_ok u P R (m :: S) c' /\ m ∈ ext2_metadata c /\ Ext2.device (meta (metas c m)) = d /\
      c' = mk_cache (files c) (supers c) (<[m := with_count (meta_count (metas c m) + 1) (metas c m)]> (metas c)) (ext2_metadata c) (idatas c) (links c) (freed c)
  | None => c' = c /\ forall m, m ∈ ext2_metadata c -> Ext2.device (meta (metas c m)) <> d
  end.
Proof.
  intros H E; unfold get_meta in E; first_step E as x c1 E1; injection E1 as <- <-.
  destruct (list_find _ _) as [[k m]|] eqn:Ef.
  - apply list_find_Some in Ef as (Hk & [Hd _] & _); apply list_elem_of_lookup_2 in Hk.
    first_step E as n c0 E0; apply count_up_inv in E0 as [-> ->]; first_step E as x c1 E1; injection E1 as <- <-; injection E as <- <-; split; [|auto].
    pose proof (mo_used _ _ _ _ _ (ck_metas _ _ _ _ _ H m Hk)); apply (meta_change u P R S (m :: S) c m 1); auto; [lia|]; intros y; apply occ_cons.
  - injection E as <- <-; split; [done|]; intros m Hm Hd; apply list_find_None in Ef; rewrite list.Forall_forall in Ef.
    apply (Ef m Hm); split; [done|]; apply (mo_used _ _ _ _ _ (ck_metas _ _ _ _ _ H m Hm)).
Qed.

Lemma kfree_perm u x P P' R S (c c' : cache D) : cache_ok u P R S c -> P ≡ₚ x :: P' -> kfree x c = Ok ((), c') -> cache_ok u P' R S c'.
Proof. intros H HP; rewrite HP in H; apply (kfree_ok u x P' R S c c' H). Qed.

(** Metadata without references leave the cache. *)
Lemma meta_last u P R S (c : cache D) m :
  cache_ok u P R (m :: S) c -> meta_count (metas c m) = 1 ->
  inodes (metas c m) = [] /\
  cache_ok u ([m; super (metas c m); ext2_super (meta (metas c m)); bgdt (meta (metas c m))] ++ P) R S
    (mk_cache (files c) (supers c) (<[m := with_count 0 (metas c m)]> (metas c)) (list_remove1 m (ext2_metadata c)) (idatas c) (links c) (freed c)).
Proof.
  intros H Hn; assert (Hm : m ∈ ext2_metadata c) by (apply (ck_supers _ _ _ _ _ H); by left).
  pose proof (ck_metas _ _ _ _ _ H m Hm) as [M1 M2 M3 M4 M5 M6 M7]; rewrite occ_cons, decide_True in M6 by done.
  pose proof (occ_nonneg m S) as Hpos.
  assert (Hnil : inodes (metas c m) = []).
  { apply (sum_zero (fun id => inode_count (idatas c id))); [|lia]; intros id Hid; apply (io_used _ _ _ _ (M4 id Hid)). }
  split; [done|]; match goal with |- cache_ok _ _ _ _ ?x => set (c' := x) end.
  rewrite Hnil in M6; cbn [sum] in M6.
  assert (Ho : meta_objects c m = [m; super (metas c m); ext2_super (meta (metas c m)); bgdt (meta (metas c m))])
    by (unfold meta_objects; by rewrite Hnil).
  apply (cache_update u [] P R (m :: S) _ R S [m] [] (list_remove1 m (ext2_metadata c)) c c'); auto; cbn [mbind list_bind]; rewrite ?app_nil_r, ?Ho.
  - by apply remove1_permutation.
  - split; auto; intros x Hx; assert (x <> m) by (intros ->; apply Hx; cbn; apply elem_of_app; right; by left).
    + by apply fn_lookup_insert_ne.
    + rewrite occ_cons, decide_False by done; lia.
  - change (freed c') with (freed c); rewrite !app_nil_l, (app_assoc P), (Permutation_app_comm P); done.
  - constructor.
  - by intros x ?%elem_of_nil.
  - by intros x ?%elem_of_nil.
  - constructor.
  - by intros x y ?%elem_of_nil.
  - intros r Hr; right; split; [done|]; intros x id ->%list_elem_of_singleton; rewrite Hnil; by intros ?%elem_of_nil.
  - intros x Hx; right; split; [by right|]; intros ->%list_elem_of_singleton; apply occ_elem in Hx; lia.
Qed.

Lemma release_superblock_ok u P R S (c : cache D) m sb c' :
  cache_ok u P R (m :: S) c -> sb_data (supers c sb) = m -> fs_ext2_release_superblock sb c = Ok ((), c') ->
  cache_ok u P R S c'.
Proof.
  intros H Hsb E; unfold fs_ext2_release_superblock in E; first_step E as x c1 E1; injection E1 as <- <-; rewrite Hsb in E.
  first_step E as n c0 E0; apply count_down_inv in E0 as [-> ->]; first_step E as y c2 E2; destruct (Z.eqb_spec (meta_count (metas c m) - 1) 0) as [Hz|Hz].
  - destruct (meta_last u P R S c m H ltac:(lia)) as [Hnil H1]; replace (meta_count (metas c m) - 1) with 0 in E2 by lia.
    injection E2 as <- <-; first_step E as y c3 E3; injection E3 as <- <-; unfold drop_meta, destroy_meta in E.
    set (c3 := mk_cache _ _ _ _ _ _ _) in *; assert (Em : metas c3 m = with_count 0 (metas c m)) by apply fn_lookup_insert.
    pose proof (mo_bgdt _ _ _ _ _ (ck_metas _ _ _ _ _ H m ltac:(apply (ck_supers _ _ _ _ _ H); by left))) as Hb.
    first_step E as y c4 E4; first_step E4 as z c5 E5; injection E5 as <- <-; rewrite Em in E4; cbn [with_count meta has_bgdt super inodes] in E4.
    rewrite Hb, Hnil in E4; first_step E4 as z c5 E5; first_step E4 as z' c6 E6; first_step E4 as z'' c7 E7; injection E4 as <- <-.
    destruct z, z', z''; set (s := super (metas c m)) in *; set (e := ext2_super (meta (metas c m))) in *; set (b := bgdt (meta (metas c m))) in *.
    pose proof (kfree_perm u e _ (m :: s :: b :: P) R S _ _ H1 (symmetry (Permutation_middle [m; s] (b :: P) e)) E5) as H5.
    pose proof (kfree_perm u b _ (m :: s :: P) R S _ _ H5 (symmetry (Permutation_middle [m; s] P b)) E6) as H6.
    pose proof (kfree_perm u s _ (m :: P) R S _ _ H6 (Permutation_swap _ _ _) E7) as H7.
    exact (kfree_ok u m P R S _ _ H7 E).
  - injection E2 as <- <-; injection E as <-.
    assert (Hm : m ∈ ext2_metadata c) by (apply (ck_supers _ _ _ _ _ H); by left).
    pose proof (mo_used _ _ _ _ _ (ck_metas _ _ _ _ _ H m Hm)); apply (meta_change u P R (m :: S) S c m (-1)); auto; [lia|].
    intros x; rewrite occ_cons; destruct (decide (x = m)); lia.
Qed.

Lemma cget_inv (c : cache D) x c' : get c = Ok (x, c') -> x = c /\ c' = c.
Proof. by intros [= <- <-]. Qed.

(** Giving back the structures of an inode. *)
Lemma free_inode_ok u P R S (c : cache D) id c1 c' :
  cache_ok u (id :: id_inode (idatas c id) :: ext2_inode_ (idatas c id) :: P) R S c ->
  destroy_ext2_inode_data id c = Ok ((), c1) -> kfree id c1 = Ok ((), c') ->
  cache_ok u P R S c' /\ supers c' = supers c.
Proof.
  intros H E1 E2; first_step E1 as x c2 E3; apply cget_inv in E3 as [-> ->]; first_step E1 as y c3 E4; destruct y.
  split; [|by injection E4 as <-; injection E1 as <-; injection E2 as <-].
  set (i := id_inode (idatas c id)) in *; set (e := ext2_inode_ (idatas c id)) in *.
  pose proof (kfree_perm u e _ (id :: i :: P) R S _ _ H (symmetry (Permutation_middle [id; i] P e)) E4) as H4.
  pose proof (kfree_perm u i _ (id :: P) R S _ _ H4 (Permutation_swap _ _ _) E1) as H1.
  exact (kfree_ok u id P R S _ _ H1 E2).
Qed.

Lemma inode_release_ok u P R S (c : cache D) i c' :
  cache_ok u P (i :: R) S c -> fs_ext2_inode_release drv kmalloc do_time i c = Ok ((), c') -> cache_ok u P R S c'.
Proof.
  intros H E; destruct (ref_meta u P (i :: R) S c i H ltac:(by left)) as (Hm & Hid & Hi & M & I).
  unfold fs_ext2_inode_release in E; first_step E as x0 c0 E0; apply assert_ptr_inv in E0 as [_ ->].
  first_step E as x c1 E1; apply cget_inv in E1 as [-> ->]; first_step E as x1 c0 E0; apply assert_ptr_inv in E0 as [_ ->].
  set (id := links c i) in *; set (m := id_meta (idatas c id)) in *; first_step E as n0 c0 E0; apply count_down_inv in E0 as [-> ->].
  first_step E as y c2 E2; first_step E as z c3 E3; first_step E as w c4 E4.
  destruct (Z.eqb_spec (inode_count (idatas c id) - 1) 0) as [Hz|Hz].
  - pose proof (inode_last u P R S c m id) as H3; cbn zeta in H3; rewrite Hi in H3; specialize (H3 H Hm Hid ltac:(lia)).
    rewrite Hz in E2; injection E2 as <- <-; injection E3 as <- <-; set (c3 := mk_cache _ _ _ _ _ _ _) in *.
    first_step E4 as n c5 E5; destruct (lift_ok u _ R (m :: S) _ _ _ _ H3 E5 ltac:(intros ids; keeps)) as [H5 (s5 & -> & _)].
    first_step E4 as y c6 E6; assert (exists s6, c6 = set_files s6 c3 /\ cache_ok u (id :: i :: ext2_inode_ (idatas c id) :: P) R (m :: S) c6)
      as (s6 & -> & H6).
    { destruct (n =? 0); [|injection E6 as <- <-; eauto].
      destruct (lift_ok u _ R (m :: S) _ _ _ _ H5 E6 ltac:(intros ids; keeps)) as [H6 (s6 & -> & _)]; eauto. }
    first_step E4 as y' c7 E7; destruct y', w.
    destruct (free_inode_ok u P R (m :: S) (set_files s6 c3) id c7 c4) as [H4 Hs]; auto.
    { assert (idatas (set_files s6 c3) id = with_refs 0 (idatas c id)) as -> by apply fn_lookup_insert; cbn; by rewrite Hi. }
    apply (release_superblock_ok u P R S c4 m _ c' H4) in E; [done|]; rewrite Hs; exact (mo_super _ _ _ _ _ M).
  - injection E3 as <- <-; injection E4 as <- <-; pose proof (io_used _ _ _ _ I).
    destruct (inode_change u P (i :: R) S R (m :: S) c m id (-1)) as (c5 & E5 & H5 & Ec); auto; try lia.
    { intros x; rewrite occ_cons, Hi; destruct (decide (x = i)); lia. }
    { intros x; rewrite occ_cons; destruct (decide (x = m)); lia. }
    assert (c5 = c2) as ->. { change (inode_count (idatas c id) + -1) with (inode_count (idatas c id) - 1) in E5; rewrite E5 in E2; by injection E2. }
    apply (release_superblock_ok u P R S c2 m _ c' H5) in E; [done|]; rewrite Ec; exact (mo_super _ _ _ _ _ M).
Qed.

Lemma inode_clone_ok u P R S (c : cache D) i j c' :
  cache_ok u P R S c -> i ∈ R -> fs_ext2_inode_clone i c = Ok (j, c') -> j = i /\ cache_ok u P (i :: R) S c'.
Proof.
  intros H Hr E; destruct (ref_meta u P R S c i H Hr) as (Hm & Hid & Hi & M & I); unfold fs_ext2_inode_clone, clone_meta in E.
  first_step E as x0 c0 E0; apply assert_ptr_inv in E0 as [_ ->].
  first_step E as x c1 E1; apply cget_inv in E1 as [-> ->]; set (id := links c i) in *; set (m := id_meta (idatas c id)) in *.
  first_step E as x1 c0 E0; apply assert_ptr_inv in E0 as [_ ->].
  first_step E as y c2 E2; first_step E2 as z c3 E3; apply cget_inv in E3 as [-> ->].
  first_step E2 as n c0 E0; apply count_up_inv in E0 as [-> ->]; first_step E2 as z c3 E3.
  injection E3 as <- <-; injection E2 as <- <-; pose proof (mo_used _ _ _ _ _ M); pose proof (io_used _ _ _ _ I).
  pose proof (meta_change u P R S (m :: S) c m 1 H Hm ltac:(lia) ltac:(intros; apply occ_cons)) as H2; cbn zeta in H2.
  set (c1 := mk_cache _ _ _ _ _ _ _) in H2, E.
  destruct (inode_change u P R (m :: S) (i :: R) S c1 m id 1) as (c4 & E4 & H4 & _); auto.
  { assert (metas c1 m = with_count (meta_count (metas c m) + 1) (metas c m)) as -> by apply fn_lookup_insert; done. }
  { cbn; lia. }
  { intros x; rewrite occ_cons; change (id_inode (idatas c1 id)) with (id_inode (idatas c id)); by rewrite Hi. }
  { intros x; rewrite occ_cons; destruct (decide (x = m)); lia. }
  first_step E as n c0 E0; apply count_up_inv in E0 as [-> ->]; first_step E as y c5 E5; injection E as <- <-; split; [done|].
  change (idatas c1 id) with (idatas c id) in E4; rewrite E4 in E5; by injection E5 as <- <-.
Qed.

(** ** New inodes *)

(** Structures outside of the cache can be changed. *)
Lemma private_ok u P R S (c c' : cache D) :
  cache_ok u P R S c -> ext2_metadata c' = ext2_metadata c -> freed c' = freed c -> (next (files c) <= next (files c'))%nat ->
  agree P c c' R R S S -> cache_ok u P R S c'.
Proof.
  intros H El Ef Hn HA; apply (cache_private u [] P R S P c); auto; [by rewrite Ef|constructor|by intros x ?%elem_of_nil].
Qed.

Lemma private_link u P R S (c c' : cache D) i id : cache_ok u P R S c -> i ∈ P -> set_link i id c = Ok ((), c') -> cache_ok u P R S c'.
Proof.
  intros H Hi [= <-]; eapply private_ok; [exact H|..]; cbn; auto; split; cbn; auto.
  intros x Hx; rewrite fn_lookup_insert_ne; [done|]; by intros ->.
Qed.

Lemma private_ref u P R S (c : cache D) i : cache_ok u P R S c -> i ∈ P -> occ i R = 0.
Proof.
  intros H Hi; destruct (decide (i ∈ R)) as [Hr|Hr]; [|pose proof (occ_nonneg i R); rewrite <- occ_elem in Hr; lia].
  destruct (ck_refs _ _ _ _ _ H i Hr) as (m & id & Hm & Hid & <-); exfalso.
  pose proof (ck_objects _ _ _ _ _ H) as Nd; apply list.NoDup_app in Nd as (_ & Nd & _); apply (Nd _ Hi), elem_of_app; left.
  apply list_elem_of_bind; exists m; split; [|done]; eapply meta_objects_inode; [exact Hid|right; by left].
Qed.

(** An inode enters the cache. *)
Lemma inode_add u P R S (c : cache D) m id i e :
  cache_ok u (id :: i :: e :: P) R (m :: S) c -> idatas c id = mk_inode_data m e i 1 -> links c i = id ->
  dev (vnodes (files c) i) = Ext2.device (meta (metas c m)) -> data (vnodes (files c) i) = e ->
  (u = true -> inode_nr (vnodes (files c) i) ∉ map (number c) (inodes (metas c m))) ->
  cache_ok u P (i :: R) S
    (mk_cache (files c) (supers c) (<[m := with_inodes (inodes (metas c m) ++ [id]) (metas c m)]> (metas c)) (ext2_metadata c) (idatas c)
       (links c) (freed c)).
Proof.
  intros H Ed El Hd He Hu; assert (Hm : m ∈ ext2_metadata c) by (apply (ck_supers _ _ _ _ _ H); by left).
  pose proof (ck_metas _ _ _ _ _ H m Hm) as [M1 M2 M3 M4 M5 M6 M7]; rewrite occ_cons, decide_True in M6 by done.
  pose proof (private_ref _ _ _ _ _ i H ltac:(right; by left)) as Hi; match goal with |- cache_ok _ _ _ _ ?x => set (c' := x) end.
  assert (Em : metas c' m = with_inodes (inodes (metas c m) ++ [id]) (metas c m)) by apply fn_lookup_insert.
  assert (Hne : forall x, x ∈ inodes (metas c m) -> id_inode (idatas c x) <> i).
  { intros x Hx E; pose proof (io_used _ _ _ _ (M4 x Hx)) as Hp; rewrite (io_count _ _ _ _ (M4 x Hx)), E, Hi in Hp; lia. }
  apply (cache_meta u (id :: i :: e :: P) R (m :: S) P (i :: R) S m c c'); rewrite ?Em; auto.
  - assert (Hout : forall x, x ∉ (id :: i :: e :: P) ++ meta_objects c m -> x <> m /\ x <> i).
    { intros x Hx; split; intros ->; apply Hx, elem_of_app; [right; apply meta_objects_self|left; right; by left]. }
    split; auto; intros x [? ?]%Hout; [by apply fn_lookup_insert_ne|..]; rewrite occ_cons, decide_False by done; lia.
  - unfold meta_objects; rewrite Em; cbn [with_inodes super meta inodes]; rewrite bind_app; cbn [mbind list_bind]; rewrite app_nil_r.
    change (inode_objects c') with (inode_objects c); unfold inode_objects at 2; rewrite Ed; cbn [id_inode ext2_inode_].
    rewrite !app_assoc, (Permutation_app_comm _ [id; i; e]); cbn; done.
  - split; rewrite ?Em; cbn [with_inodes super meta inodes has_bgdt meta_count]; auto.
    + intros x [Hx| ->%list_elem_of_singleton]%elem_of_app.
      * destruct (M4 x Hx) as [J1 J2 J3 J4 J5 J6]; split; rewrite ?Em; auto; cbn.
        rewrite occ_cons, decide_False by (by apply Hne); lia.
      * split; cbn; rewrite ?Ed, ?fn_lookup_insert; cbn; auto; [|lia]; rewrite occ_cons, decide_True by done; lia.
    + intros Hu'; rewrite map_app; apply list.NoDup_app; split; [by apply M5|]; split; [|apply NoDup_singleton].
      intros x Hx ->%list_elem_of_singleton; apply (Hu Hu').
      change (number c' id ∈ map (number c) (inodes (metas c m))) in Hx.
      assert (number c' id = inode_nr (vnodes (files c) i)) as <- by (unfold number; cbn; by rewrite Ed); done.
    + assert (inodes (metas c m) ++ [id] ≡ₚ id :: inodes (metas c m)) as -> by (rewrite Permutation_app_comm; done).
      cbn [sum]; change (idatas c') with (idatas c); rewrite Ed; cbn; lia.
  - intros r Hr; cbn [with_inodes inodes]; destruct (decide (r = i)) as [->|Hri].
    + left; exists id; split; [apply elem_of_app; right; by left|cbn; by rewrite Ed].
    + destruct (refs_split c m R r) as [(x & ? & ?)|]; [by apply elem_of_cons in Hr as [|]| |by right].
      left; exists x; split; [apply elem_of_app; by left|done].
  - intros x Hx; right; by right.
Qed.

(** What concerns structures that exist already has not changed. *)
Definition older (c c' : cache D) : Prop :=
  (next (files c) <= next (files c'))%nat /\
  forall x, (x < next (files c))%nat -> idatas c' x = idatas c x /\ ident (vnodes (files c') x) = ident (vnodes (files c) x).

Lemma older_trans c1 c2 c3 : older c1 c2 -> older c2 c3 -> older c1 c3.
Proof.
  intros [N1 H1] [N2 H2]; split; [lia|]; intros x Hx; destruct (H1 x Hx) as [<- <-]; apply H2; lia.
Qed.

Lemma alloc_older (c : cache D) o c' : lift (new_buf kmalloc) c = Ok (o, c') -> older c c'.
Proof. unfold lift, new_buf; destruct (kmalloc _); intros [= <- <-]; (split; [cbn; lia|done]). Qed.

Lemma init_inode_ok u P R S (c : cache D) e m nr o c' :
  cache_ok u P R S c -> init_inode kmalloc e m nr c = Ok (o, c') ->
  (exists s, c' = set_files s c /\ (next (files c) <= next s)%nat) /\ older c c' /\
  match o with
  | Some i => cache_ok u (i :: P) R S c' /\ ident (vnodes (files c') i) = (nr, Ext2.device (meta (metas c m)), e)
  | None => cache_ok u P R S c'
  end.
Proof.
  intros H E; unfold init_inode in E; first_step E as b c1 E1; pose proof (alloc_older _ _ _ E1) as O1.
  destruct (alloc_ok u P R S _ _ _ _ H E1) as [(s1 & -> & N1) H1].
  destruct b as [i|]; [|injection E as <- <-; eauto]; destruct H1 as [H1 Ei].
  first_step E as x c2 E2; apply cget_inv in E2 as [-> ->].
  do 6 (let a := fresh "v" in let c2 := fresh "c" in let E2 := fresh "F" in apply cbind_inv in E as (a & c2 & E2 & E); injection E2 as <- <-).
  first_step E as y c2 E2; injection E as <- <-; injection E2 as <- <-.
  split; [eexists; split; [reflexivity|done]|]; split.
  { split; [done|]; cbn; intros x Hx; rewrite fn_lookup_insert_ne by lia; by apply O1. }
  split; [|cbn; by rewrite fn_lookup_insert]; eapply private_ok; [exact H1|..]; cbn; auto; split; cbn; auto.
  intros x Hx; rewrite fn_lookup_insert_ne; [done|]; intros ->; apply Hx; by left.
Qed.

Lemma init_ext2_inode_data_ok u P R S (c : cache D) i e m o c' :
  cache_ok u P R S c -> init_ext2_inode_data kmalloc i e m c = Ok (o, c') ->
  match o with
  | Some id => cache_ok u (id :: P) R S c' /\ id = next (files c) /\ vnodes (files c') = vnodes (files c) /\
      idatas c' = <[id := mk_inode_data m e i 1]> (idatas c)
  | None => cache_ok u P R S c'
  end /\ older c c' /\ ext2_metadata c' = ext2_metadata c /\ metas c' = metas c /\ supers c' = supers c /\ links c' = links c.
Proof.
  intros H E; unfold init_ext2_inode_data in E; first_step E as b c1 E1; pose proof (alloc_older _ _ _ E1) as O1.
  assert (Hv : vnodes (files c1) = vnodes (files c))
    by (unfold lift, new_buf in E1; destruct (kmalloc _); by injection E1 as _ <-).
  destruct (alloc_ok u P R S _ _ _ _ H E1) as [(s1 & -> & N1) H1]; destruct b as [id|]; [|injection E as <- <-; split_and!; auto].
  destruct H1 as [H1 Eid]; first_step E as y c2 E2; injection E as <- <-; injection E2 as <- <-; split.
  2:{ split; [|auto]; split; [done|]; cbn; intros x Hx; rewrite fn_lookup_insert_ne by lia; by apply O1. }
  split; [|auto]; eapply private_ok; [exact H1|..]; cbn; auto; split; cbn; auto.
  intros x Hx; rewrite fn_lookup_insert_ne; [done|]; intros ->; apply Hx; by left.
Qed.

(** Structures that are not given back are lost. *)
Lemma cache_forget u x P R S (c : cache D) : cache_ok u (x :: P) R S c -> cache_ok u P R S c.
Proof.
  intros [C1 C2 C3 C4 C5 C6]; split; auto; cbn in C3, C4.
  - by apply list.NoDup_cons in C3 as [_ ?].
  - by apply list.Forall_cons in C4 as [_ ?].
Qed.

Lemma get_ext2_inode_ok u P R S (c : cache D) nr m o c' :
  cache_ok u P R S c -> lift (get_ext2_inode drv kmalloc nr m) c = Ok (o, c') ->
  (exists s, c' = set_files s c) /\ older c c' /\ match o with Some e => cache_ok u (e :: P) R S c' | None => cache_ok u P R S c' end.
Proof.
  intros H E.
  assert (O : (exists s, c' = set_files s c) /\ older c c' /\ forall e, o = Some e -> e = next (files c) /\ (e < next (files c'))%nat).
  { unfold lift, get_ext2_inode, new_buf, mbind, fsM_bind, res_bind in E; cbn in E; destruct (kmalloc _); cbn in E; injection E as <- <-.
    - split; [eauto|]; split; [split; [cbn; lia|done]|]; cbn; intros e; destruct (negb _); [done|]; intros [= <-]; lia.
    - split; [eauto|]; split; [split; [cbn; lia|done]|done]. }
  destruct O as ((s & ->) & [On Oi] & Oe); split; [eauto|]; split; [done|].
  destruct (lift_ok u P R S _ _ _ _ H E ltac:(intros ids; keeps)) as [H' _]; destruct o as [e|]; [|done].
  destruct (Oe e eq_refl) as [-> He]; apply (cache_files u [next (files c)] P R S c s H); [apply NoDup_singleton| |done|].
  - intros x ->%list_elem_of_singleton; cbn in He; lia.
  - intros x _; unfold lift in E; destruct (get_ext2_inode _ _ _ _ _) as [[a s']| | |] eqn:Es; try done; injection E as -> <-.
    destruct (keeps_get_ext2_inode drv kmalloc (fun i => ident (vnodes (files c) i)) nr m (files c) _ s' ltac:(done) Es) as [_ Hi]; apply Hi.
Qed.

Lemma load_inode_ok u P R S (c : cache D) nr m o c' :
  cache_ok u P R S c -> load_inode drv kmalloc nr m c = Ok (o, c') ->
  older c c' /\ metas c' = metas c /\ supers c' = supers c /\ links c' = links c /\
  match o with
  | Some id => exists i e, cache_ok u (id :: i :: e :: P) R S c' /\ idatas c' id = mk_inode_data m e i 1 /\
      ident (vnodes (files c') i) = (nr, Ext2.device (meta (metas c m)), e)
  | None => cache_ok u P R S c'
  end.
Proof.
  intros H E; unfold load_inode in E; first_step E as x c1 E1; apply cget_inv in E1 as [-> ->].
  first_step E as e c1 E1; destruct (get_ext2_inode_ok u P R S c nr _ e c1 H E1) as ((s1 & ->) & O1 & H1).
  destruct e as [e|]; [|injection E as <- <-; split_and!; auto].
  first_step E as i c2 E2; destruct (init_inode_ok u (e :: P) R S _ e m nr i c2 H1 E2) as ((s2 & -> & _) & O2 & H2).
  pose proof (older_trans _ _ _ O1 O2) as O12; destruct i as [i|]; [|injection E as <- <-; split_and!; auto; by apply (cache_forget u e)].
  destruct H2 as [H2 Ei]; first_step E as id c3 E3; destruct (init_ext2_inode_data_ok u (i :: e :: P) R S _ i e m id c3 H2 E3)
    as (H3 & O3 & _ & M3 & S3 & L3); pose proof (older_trans _ _ _ O12 O3) as O13.
  destruct id as [id|].
  - injection E as <- <-; destruct H3 as (H3 & _ & V3 & I3); split_and!; auto; exists i, e; split; [done|]; split; [by rewrite I3, fn_lookup_insert|].
    by rewrite V3.
  - first_step E as y c4 E4; destruct y; injection E as <- <-; pose proof (kfree_ok u i _ R S _ _ H3 E4) as H4; injection E4 as <-.
    split_and!; auto; by apply (cache_forget u e).
Qed.

Lemma find_inode_some (c : cache D) m nr id : find_inode c m nr = Some id -> id ∈ inodes (metas c m) /\ number c id = nr.
Proof.
  unfold find_inode; destruct (list_find _ _) as [[k x]|] eqn:E; [|done]; intros [= <-].
  apply list_find_Some in E as (E1 & E2 & _); split; [by eapply list_elem_of_lookup_2|done].
Qed.

Lemma find_inode_none (c : cache D) m nr : find_inode c m nr = None <-> nr ∉ map (number c) (inodes (metas c m)).
Proof.
  unfold find_inode; rewrite list_elem_of_fmap; destruct (list_find _ _) as [[k x]|] eqn:E.
  - apply list_find_Some in E as (E1 & E2 & _); split; [done|]; intros []; exists x; split; [done|]; by eapply list_elem_of_lookup_2.
  - apply list_find_None in E; rewrite list.Forall_forall in E; split; [|done]; intros _ (x & -> & Hx); by apply (E x Hx).
Qed.

(** What is cached is older than new structures. *)
Lemma older_numbers u P R S (c c' : cache D) m :
  cache_ok u P R S c -> m ∈ ext2_metadata c -> older c c' -> metas c' m = metas c m ->
  map (number c') (inodes (metas c' m)) = map (number c) (inodes (metas c m)).
Proof.
  intros H Hm [_ O] ->; apply map_ext_in; intros id Hid%list_elem_of_In; unfold number.
  assert (Hlt : forall x, x ∈ inode_objects c id -> (x < next (files c))%nat).
  { intros x Hx; pose proof (ck_fresh _ _ _ _ _ H) as F; rewrite list.Forall_forall in F; apply F, elem_of_app; right; apply elem_of_app; left.
    apply list_elem_of_bind; exists m; split; [by eapply meta_objects_inode|done]. }
  destruct (O id) as [-> _]; [apply Hlt; by left|]; by destruct (O (id_inode (idatas c id))) as [_ [= -> _ _]]; [apply Hlt; right; by left|].
Qed.

(** [get_inode] exchanges the reference to the metadata for one to the inode. *)
Lemma get_inode_ok u P R S (c : cache D) nr m o c' :
  cache_ok u P R (m :: S) c -> get_inode drv kmalloc nr m c = Ok (o, c') ->
  match o with
  | Some i => cache_ok u P (i :: R) S c' /\ inode_nr (vnodes (files c') i) = nr /\ dev (vnodes (files c') i) = Ext2.device (meta (metas c m))
  | None => cache_ok u P R (m :: S) c'
  end.
Proof.
  intros H E; assert (Hm : m ∈ ext2_metadata c) by (apply (ck_supers _ _ _ _ _ H); by left).
  unfold get_inode in E; first_step E as x c1 E1; apply cget_inv in E1 as [-> ->]; destruct (find_inode c m nr) as [id|] eqn:Ef.
  - apply find_inode_some in Ef as [Hid Hnr]; first_step E as n c0 E0; apply count_up_inv in E0 as [-> ->]; first_step E as y c1 E1; injection E as <- <-.
    pose proof (mo_inodes _ _ _ _ _ (ck_metas _ _ _ _ _ H m Hm) id Hid) as I; pose proof (io_used _ _ _ _ I).
    destruct (inode_change u P R (m :: S) (id_inode (idatas c id) :: R) S c m id 1) as (c2 & E2 & H2 & Ec); auto; try lia.
    { intros x; apply occ_cons. }
    { intros x; rewrite occ_cons; destruct (decide (x = m)); lia. }
    rewrite E2 in E1; injection E1 as <- <-; split; [done|]; rewrite Ec; split; [done|apply I].
  - first_step E as id c1 E1; destruct (load_inode_ok u P R (m :: S) c nr m id c1 H E1) as (O & Em & _ & _ & H1).
    destruct id as [id|]; [|by injection E as <- <-]; destruct H1 as (i & e & H1 & Ed & [= Hn Hd He]).
    assert (Ef1 : nr ∉ map (number c1) (inodes (metas c1 m))).
    { rewrite (older_numbers u P R (m :: S) c c1 m H Hm O) by (by rewrite Em); by apply find_inode_none. }
    first_step E as j c2 E2; injection E as <- <-; unfold insert_inode in E2; first_step E2 as x c3 E3; apply cget_inv in E3 as [-> ->].
    rewrite (proj2 (find_inode_none c1 m nr) Ef1) in E2; rewrite Ed in E2; cbn [id_inode] in E2.
    first_step E2 as x c4 E4; first_step E4 as x' c5 E5; apply cget_inv in E5 as [-> ->]; injection E4 as <- <-.
    first_step E2 as x c5 E5; injection E5 as <- <-; injection E2 as <- <-; split; [|auto].
    destruct (set_link i id c1) as [[[] c4]| | |] eqn:E4; try done.
    pose proof (private_link u _ R (m :: S) c1 c4 i id H1 ltac:(right; by left) E4) as H4; injection E4 as <-.
    apply (inode_add u P R S _ m id i e H4 Ed); cbn; rewrite ?fn_lookup_insert, ?Em; auto; intros _; by rewrite Hn, <- Em.
Qed.

(** What happens to the references to the metadata if no inode is returned: nothing
    if the device is not mounted, else one is lost. *)
Definition lost (c : cache D) (d : Z) (S S' : list nat) : Prop :=
  (S' = S /\ forall m, m ∈ ext2_metadata c -> Ext2.device (meta (metas c m)) <> d) \/
  exists m, m ∈ ext2_metadata c /\ Ext2.device (meta (metas c m)) = d /\ S' = m :: S.

Lemma lost_unique u P R S (c : cache D) d S1 S2 : cache_ok u P R S c -> lost c d S S1 -> lost c d S S2 -> S1 = S2.
Proof.
  intros H [[-> H1]|(m1 & H1 & D1 & ->)] [[-> H2]|(m2 & H2 & D2 & ->)]; [done|by apply H1 in D2|by apply H2 in D1|].
  f_equal; apply (NoDup_map_inj _ _ (ck_devices _ _ _ _ _ H)); auto; congruence.
Qed.

Lemma fs_ext2_get_inode_ok u P R S (c : cache D) d nr o c' :
  cache_ok u P R S c -> fs_ext2_get_inode drv kmalloc d nr c = Ok (o, c') ->
  match o with
  | Some i => cache_ok u P (i :: R) S c' /\ inode_nr (vnodes (files c') i) = nr /\ dev (vnodes (files c') i) = d
  | None => exists S', lost c d S S' /\ cache_ok u P R S' c'
  end.
Proof.
  intros H E; unfold fs_ext2_get_inode, get_meta_lock in E; first_step E as m c1 E1; pose proof (get_meta_ok u P R S c d m c1 H E1) as H1.
  destruct m as [m|]; [|injection E as <- <-; destruct H1 as [-> Hno]; exists S; split; [by left|done]]; destruct H1 as (H1 & Hm & Hd & Ec).
  pose proof (get_inode_ok u P R S c1 nr m o c' H1 E) as H2.
  assert (Hd1 : Ext2.device (meta (metas c1 m)) = d) by (rewrite Ec; cbn; by rewrite fn_lookup_insert).
  destruct o as [i|]; [destruct H2 as (? & ? & ->); auto|exists (m :: S); split; [right; eauto|done]].
Qed.

(** ** Superblocks *)

Lemma private_meta u P R S (c c' : cache D) m v : cache_ok u P R S c -> m ∈ P -> set_metadata m v c = Ok ((), c') -> cache_ok u P R S c'.
Proof.
  intros H Hi [= <-]; eapply private_ok; [exact H|..]; cbn; auto; split; cbn; auto.
  intros x Hx; rewrite fn_lookup_insert_ne; [done|]; by intros ->.
Qed.

Lemma private_listed u P R S (c : cache D) m : cache_ok u P R S c -> m ∈ P -> m ∉ ext2_metadata c.
Proof.
  intros H Hi Hm; pose proof (ck_objects _ _ _ _ _ H) as Nd; apply list.NoDup_app in Nd as (_ & Nd & _); apply (Nd _ Hi), elem_of_app; left.
  apply list_elem_of_bind; exists m; split; [apply meta_objects_self|done].
Qed.

(** Metadata enter the cache. *)
Lemma meta_add u P R S (c : cache D) m sb e :
  cache_ok u ([m; sb; ext2_super e; bgdt e] ++ P) R S c -> metas c m = mk_metadata e true sb [] 1 ->
  (forall m', m' ∈ ext2_metadata c -> Ext2.device (meta (metas c m')) <> Ext2.device e) ->
  cache_ok u P R (m :: S)
    (mk_cache (files c) (<[sb := mk_superblock (Ext2.device e) EXT2_ROOT_INODE m]> (supers c)) (metas c) (ext2_metadata c ++ [m]) (idatas c)
       (links c) (freed c)).
Proof.
  intros H Em Hd; pose proof (private_listed _ _ _ _ _ m H ltac:(by left)) as Hm.
  assert (Hs : occ m S = 0).
  { destruct (decide (m ∈ S)) as [HS|HS]; [by apply (ck_supers _ _ _ _ _ H) in HS|]; pose proof (occ_nonneg m S); rewrite <- occ_elem in HS; lia. }
  match goal with |- cache_ok _ _ _ _ ?x => set (c' := x) end; assert (Em' : metas c' m = mk_metadata e true sb [] 1) by done.
  apply (cache_update u [] ([m; sb; ext2_super e; bgdt e] ++ P) R S P R (m :: S) [] [m] (ext2_metadata c) c c'); auto.
  - cbn; by rewrite Permutation_app_comm.
  - split; auto; intros x Hx; rewrite !elem_of_app in Hx; cbn; [rewrite fn_lookup_insert_ne; [done|]|rewrite occ_cons, decide_False; [lia|]];
      intros ->; apply Hx; right; left; left; [right; by left|by left].
  - cbn [mbind list_bind]; unfold meta_objects; rewrite Em'; cbn [inodes super meta mbind list_bind]; rewrite !app_nil_r, app_nil_l.
    change (freed c') with (freed c); rewrite <- app_assoc, (Permutation_app_swap_app P); done.
  - constructor.
  - by intros x ?%elem_of_nil.
  - intros x ->%list_elem_of_singleton; split; rewrite ?Em'; cbn; rewrite ?Em; cbn; auto; try done.
    + by rewrite fn_lookup_insert.
    + by rewrite fn_lookup_insert.
    + by intros id ?%elem_of_nil.
    + intros _; constructor.
    + rewrite occ_cons, decide_True by done; lia.
  - apply NoDup_singleton.
  - intros x m' ->%list_elem_of_singleton Hm'; rewrite Em'; intros E; by apply (Hd m' Hm').
  - intros r Hr; right; split; [done|]; by intros x id ?%elem_of_nil.
  - intros x [->|Hx]%elem_of_cons; [left; by left|right; split; [done|]; by intros ?%elem_of_nil].
Qed.

(** The metadata differ at most in structures outside of the cache. *)
Definition same_metas (c c' : cache D) : Prop :=
  ext2_metadata c' = ext2_metadata c /\ forall m, m ∈ ext2_metadata c -> metas c' m = metas c m.

Lemma new_meta_ok u P R S (c : cache D) o c' :
  cache_ok u P R S c -> new_meta kmalloc c = Ok (o, c') ->
  same_metas c c' /\
  match o with
  | Some m => exists sb es, cache_ok u ([m; sb; es] ++ P) R S c' /\ metas c' m = mk_metadata (mk_meta es 0 0 0 0) false sb [] 1
  | None => cache_ok u P R S c'
  end.
Proof.
  intros H E; unfold new_meta in E; first_step E as m c1 E1; destruct (alloc_ok u P R S _ _ _ _ H E1) as [(s1 & -> & N1) H1].
  destruct m as [m|]; [|by injection E as <- <-]; destruct H1 as [H1 _].
  first_step E as sb c2 E2; destruct (alloc_ok u _ R S _ _ _ _ H1 E2) as [(s2 & -> & N2) H2].
  destruct sb as [sb|]; [|injection E as <- <-; split; [done|by apply (cache_forget u m)]]; destruct H2 as [H2 _].
  first_step E as es c3 E3; destruct (alloc_ok u _ R S _ _ _ _ H2 E3) as [(s3 & -> & N3) H3].
  destruct es as [es|]; [|injection E as <- <-; split; [done|by apply (cache_forget u m), (cache_forget u sb)]]; destruct H3 as [H3 _].
  first_step E as y c4 E4; destruct y; injection E as <- <-.
  pose proof (private_meta u _ R S _ _ m _ H3 ltac:(right; right; by left) E4) as H4.
  pose proof (private_listed _ _ _ _ _ m H3 ltac:(right; right; by left)) as Hm; injection E4 as <-; split.
  - split; [done|]; intros m' Hm'; cbn; apply fn_lookup_insert_ne; by intros ->.
  - exists sb, es; split; [|cbn; by rewrite fn_lookup_insert].
    eapply cache_ok_proper; [| | | |exact H4]; [|done..]; cbn; rewrite (Permutation_swap es sb), (Permutation_swap es m), (Permutation_swap sb m); done.
Qed.

Lemma same_metas_files c0 (c : cache D) s : same_metas c0 c -> same_metas c0 (set_files s c).
Proof. done. Qed.

Lemma read_meta_ok u P R S (c : cache D) d m c' :
  cache_ok u P R S c -> read_meta drv kmalloc d c = Ok (Some m, c') ->
  same_metas c c' /\ exists sb e, cache_ok u ([m; sb; ext2_super e; bgdt e] ++ P) R S c' /\ metas c' m = mk_metadata e true sb [] 1 /\
    Ext2.device e = d.
Proof.
  intros H E; unfold read_meta in E; first_step E as o c1 E1; destruct (new_meta_ok u P R S c o c1 H E1) as [Q1 H1].
  destruct o as [m1|]; [|by injection E]; destruct H1 as (sb & es & H1 & M1); first_step E as x c2 E2; apply cget_inv in E2 as [-> ->].
  rewrite M1 in E; cbn [meta ext2_super] in E; first_step E as rc c2 E2.
  destruct (lift_ok u _ R S _ _ _ _ H1 E2 ltac:(intros ids; keeps)) as [H2 (s2 & -> & _)].
  destruct (negb (rc =? 0)); [by first_step E as x c3 E3; injection E|].
  first_step E as blocks c3 E3; injection E3 as <- <-; first_step E as per_group c3 E3; injection E3 as <- <-.
  destruct (_ =? 0) eqn:Ep; [done|]; cbv zeta in E; first_step E as table c3 E3.
  destruct (alloc_ok u _ R S _ _ _ _ H2 E3) as [(s3 & -> & _) H3]; destruct table as [table|]; [|by first_step E as x c4 E4; injection E].
  destruct H3 as [H3 _]; first_step E as x c4 E4; apply cget_inv in E4 as [-> ->]; first_step E as y c4 E4; destruct y.
  pose proof (private_meta u _ R S _ _ m1 _ H3 ltac:(right; by left) E4) as H4.
  pose proof (private_listed _ _ _ _ _ m1 H3 ltac:(right; by left)) as Hm; set (e := mk_meta es table d _ _) in E4.
  assert (Em : metas c4 m1 = mk_metadata e true sb [] 1) by (injection E4 as <-; cbn; rewrite fn_lookup_insert, M1; done).
  assert (Q4 : same_metas c c4).
  { destruct Q1 as [Q1 Q1']; injection E4 as <-; split; [done|]; intros m' Hm'; cbn; rewrite fn_lookup_insert_ne; [by apply Q1'|].
    intros ->; by rewrite <- Q1 in Hm'. }
  clear E4; first_step E as first c5 E5; injection E5 as <- <-; first_step E as rc' c5 E5.
  destruct (lift_ok u _ R S _ _ _ _ H4 E5 ltac:(intros ids; keeps)) as [H5 (s5 & -> & _)].
  destruct (negb (rc' =? 0)); [by first_step E as x c6 E6; injection E|]; injection E as <- <-.
  split; [done|]; exists sb, e; split; [|done].
  eapply cache_ok_proper; [| | | |exact H5]; [|done..]; exact (Permutation_middle [m1; sb; es] P table).
Qed.

Lemma get_superblock_ok u P R S (c : cache D) d sb c' :
  cache_ok u P R S c -> fs_ext2_get_superblock drv kmalloc d c = Ok (sb, c') ->
  exists m, cache_ok u P R (m :: S) c' /\ sb_data (supers c' sb) = m /\ sb_device (supers c' sb) = d.
Proof.
  intros H E; unfold fs_ext2_get_superblock, get_meta_lock in E; first_step E as o c1 E1.
  pose proof (get_meta_ok u P R S c d o c1 H E1) as H1; destruct o as [m|].
  - destruct H1 as (H1 & Hm & Hd & Ec); first_step E as x c2 E2; apply cget_inv in E2 as [-> ->]; injection E as <- <-.
    assert (Em : meta (metas c1 m) = meta (metas c m)) by (rewrite Ec; cbn; by rewrite fn_lookup_insert).
    exists m; split; [done|]; assert (Hm1 : m ∈ ext2_metadata c1) by (apply (ck_supers _ _ _ _ _ H1); by left).
    destruct (ck_metas _ _ _ _ _ H1 m Hm1) as [_ M2 M3 _ _ _ _]; rewrite M2, M3, Em; done.
  - destruct H1 as [-> Hno]; first_step E as o c2 E2; unfold add_superblock in E; first_step E as o' c3 E3.
    destruct o as [m|]; [|by destruct o']; destruct (read_meta_ok u P R S c d m c2 H E2) as ([Q Q'] & sb' & e & H2 & Em & Ed).
    pose proof (get_meta_ok u _ R S c2 d o' c3 H2 E3) as H3; destruct o' as [m'|].
    { destruct H3 as (_ & Hm' & Hd' & _); rewrite Q in Hm'; rewrite Q' in Hd' by done; by apply Hno in Hm'. }
    destruct H3 as [-> Hno']; first_step E as x c4 E4; apply cget_inv in E4 as [-> ->].
    first_step E as y c4 E4; injection E4 as <- <-; first_step E as y c5 E5; injection E as <- <-; unfold init_super in E5.
    first_step E5 as x c6 E6; apply cget_inv in E6 as [-> ->]; cbn [metas] in E5; rewrite Em in E5; cbn [super meta] in E5.
    injection E5 as <- <-; exists m; split; [|cbn; rewrite Em; cbn; by rewrite fn_lookup_insert].
    apply (meta_add u P R S c2 m sb' e H2 Em); by rewrite Ed.
Qed.

End Ops.

(** ** Operations on names *)

(** Computations that keep all references. *)
Definition quiet {D A} (m : cM D A) : Prop :=
  forall u P R S c a c', cache_ok u P R S c -> m c = Ok (a, c') -> cache_ok u P R S c'.

Create HintDb quiet.

Section Quiet.
Context {D : Type}.
Lemma quiet_ret {A} (a : A) : quiet (D := D) (mret a).
Proof. by intros u P R S c ? ? H [= <- <-]. Qed.
Lemma quiet_bind {A B} (m : cM D A) (f : A -> cM D B) : quiet m -> (forall a, quiet (f a)) -> quiet (m ≫= f).
Proof. intros Hm Hf u P R S c a c' H E; first_step E as b c1 E1; eapply Hf; [eapply Hm; [exact H|exact E1]|exact E]. Qed.
Lemma quiet_get : quiet (D := D) get.
Proof. by intros u P R S c ? ? H [-> ->]%cget_inv. Qed.
Lemma quiet_lift {A} (m : fsM D A) : (forall ids, keeps ids m) -> quiet (lift m).
Proof. intros K u P R S c a c' H E; by destruct (lift_ok u P R S m c a c' H E K). Qed.
Lemma quiet_panic {A} : quiet (D := D) (A := A) cpanic.
Proof. by intros u P R S c a c' _ [=]. Qed.
Lemma quiet_fault {A} : quiet (D := D) (A := A) cfault.
Proof. by intros u P R S c a c' _ [=]. Qed.
End Quiet.
#[export] Hint Resolve quiet_get quiet_panic quiet_fault : quiet.
#[export] Hint Resolve quiet_ret : quiet.

Ltac quiet :=
  repeat first
    [ progress intros
    | solve [eauto with quiet]
    | apply quiet_lift; intros; solve [keeps]
    | apply quiet_bind
    | match goal with
      | |- quiet (let _ := _ in _) => cbv zeta
      | |- quiet (match ?x with _ => _ end) => destruct x
      end ].

Section Names.
Context {D : Type} (drv : drivers D) (kmalloc : nat -> option mem) (do_time : Z) (fuel : nat).

Lemma quiet_prep_dir dir parent flags : quiet (prep_dir_for_deletion drv kmalloc do_time fuel dir parent flags).
Proof. unfold prep_dir_for_deletion; quiet. Qed.

Lemma quiet_fix_parent l dir inode e : quiet (fix_parent drv kmalloc do_time fuel l dir inode e).
Proof. induction l as [|x l IH]; cbn [fix_parent]; quiet. Qed.
#[local] Hint Resolve quiet_prep_dir quiet_fix_parent : quiet.

Lemma quiet_link dir name inode : quiet (fs_ext2_inode_link drv kmalloc do_time fuel dir name inode).
Proof. unfold fs_ext2_inode_link; quiet. Qed.

#[local] Abbreviation release := (fs_ext2_inode_release drv kmalloc do_time).

(** The result of the walk is a reference. *)
Definition walk_refs (r : Z + option nat) (R : list nat) : list nat := match r with inr (Some i) => i :: R | _ => R end.

(** What is done with the entry that matches. *)
Lemma unlink_found u P R S (c : cache D) meta d nr dir flags cur prec off poff r c' :
  cache_ok u P R S c ->
  (removed ← fs_ext2_get_inode drv kmalloc d nr;
   match removed with
   | None => cfault
   | Some removed =>
       j ← lift (get_vnode removed);
       rc ← (if S_ISDIR (mode j) then prep_dir_for_deletion drv kmalloc do_time fuel removed dir flags else mret 0);
       if negb (rc =? 0) then release removed ;; mret (Some (inl rc))
       else
         rc ← lift (remove_direntry drv kmalloc do_time (Some cur) (Some prec) meta dir off poff);
         if negb (rc =? 0) then release removed ;; mret (Some (inl EIO))
         else mret (Some (inr (Some removed)))
   end) c = Ok (r, c') ->
  exists r', r = Some r' /\ cache_ok u P (walk_refs r' R) S c'.
Proof.
  intros H E; first_step E as o c1 E1; pose proof (fs_ext2_get_inode_ok drv kmalloc u P R S c d nr o c1 H E1) as H1.
  destruct o as [i|]; [|done]; destruct H1 as (H1 & _ & _).
  first_step E as j c1' E1'; apply (quiet_lift _ (fun ids => keeps_get_inode ids i) u P (i :: R) S) in E1'; [|done].
  first_step E as rc c2 E2; assert (H2 : cache_ok u P (i :: R) S c2).
  { destruct (S_ISDIR _); [|by injection E2 as <- <-]; by eapply quiet_prep_dir; [|exact E2]. }
  destruct (negb (rc =? 0)).
  - first_step E as y c3 E3; destruct y; injection E as <- <-; exists (inl rc); split; [done|].
    exact (inode_release_ok drv kmalloc do_time u P R S _ i _ H2 E3).
  - first_step E as rc' c3 E3; assert (H3 : cache_ok u P (i :: R) S c3) by (eapply quiet_lift; [|exact H2|exact E3]; intros ids; keeps).
    destruct (negb (rc' =? 0)); [|injection E as <- <-; by exists (inr (Some i))].
    first_step E as y c4 E4; destruct y; injection E as <- <-; exists (inl EIO); split; [done|].
    exact (inode_release_ok drv kmalloc do_time u P R S _ i _ H3 E4).
Qed.

Lemma unlink_loop_ok u P R S n : forall (c : cache D) dir name flags cur prec cname off poff r c',
  cache_ok u P R S c -> unlink_loop drv kmalloc do_time fuel n dir name flags cur prec cname off poff c = Ok (r, c') ->
  cache_ok u P (walk_refs r R) S c'.
Proof.
  induction n as [|n IH]; intros c dir name flags cur prec cname off poff r c' H E; [done|]; cbn [unlink_loop] in E.
  assert (Q : forall A (m : cM D A) c a c', quiet m -> m c = Ok (a, c') -> cache_ok u P R S c -> cache_ok u P R S c')
    by (intros A m c0 a c0' Qm Em H0; by eapply Qm).
  first_step E as x c1 E1; apply cget_inv in E1 as [-> ->].
  first_step E as k c1 E1; apply Q in E1; [|apply quiet_lift; intros; keeps|done].
  destruct (negb _); [by injection E as <- <-|].
  first_step E as nl c2 E2; apply Q in E2; [|apply quiet_lift; intros; keeps|done].
  first_step E as nr c3 E3; apply Q in E3; [|apply quiet_lift; intros; keeps|done].
  first_step E as i c4 E4; apply Q in E4; [|apply quiet_lift; intros; keeps|done].
  first_step E as res c5 E5.
  assert (H5 : match res with Some r' => cache_ok u P (walk_refs r' R) S c5 | None => cache_ok u P R S c5 end).
  { destruct (_ && _); [|by injection E5 as <- <-].
    first_step E5 as k' c6 E6; apply Q in E6; [|apply quiet_lift; intros; keeps|done].
    destruct (negb _); [by injection E5 as <- <-|].
    first_step E5 as mm c7 E7; apply Q in E7; [|apply quiet_lift; intros; keeps|done].
    destruct (starts_with _ _); [|by injection E5 as <- <-].
    by apply (unlink_found u P R S) in E5 as (r' & -> & H'). }
  destruct res as [r'|]; [by injection E as <- <-|].
  first_step E as y c6 E6; apply Q in E6; [|apply quiet_lift; intros; keeps|done].
  first_step E as rl c7 E7; apply Q in E7; [|apply quiet_lift; intros; keeps|done].
  first_step E as i' c8 E8; apply Q in E8; [|apply quiet_lift; intros; keeps|done].
  destruct (_ <=? _); [by injection E as <- <-|]; exact (IH _ _ _ _ _ _ _ _ _ _ _ E8 E).
Qed.

Lemma quiet_unlink dir name flags : quiet (fs_ext2_unlink_inode drv kmalloc do_time fuel dir name flags).
Proof.
  unfold fs_ext2_unlink_inode; do 3 (apply quiet_bind; [apply quiet_lift; intros; keeps|intros ?]); intros u P R S c a' c' H E.
  first_step E as r c1 E1; pose proof (unlink_loop_ok u P R S _ _ _ _ _ _ _ _ _ _ _ _ H E1) as H1.
  destruct r as [rc|[i|]]; [by injection E as <- <-| |by injection E as <- <-].
  first_step E as x c2 E2; apply cget_inv in E2 as [-> ->]; first_step E as rc c3 E3.
  apply (quiet_lift _ (fun ids => keeps_dec_link_count drv kmalloc do_time ids _ _) u P (i :: R) S) in E3; [|done].
  first_step E as y c4 E4; destruct y; injection E as <- <-; exact (inode_release_ok drv kmalloc do_time u P R S _ i _ E3 E4).
Qed.

Lemma init_ext2_inode_ok u P R S (c : cache D) mode egid euid o c' :
  cache_ok u P R S c -> init_ext2_inode kmalloc do_time mode egid euid c = Ok (o, c') ->
  (exists s, c' = set_files s c) /\ match o with Some b => cache_ok u (b :: P) R S c' | None => cache_ok u P R S c' end.
Proof.
  intros H E; unfold init_ext2_inode in E; first_step E as b c1 E1; destruct (alloc_ok u P R S _ _ _ _ H E1) as [(s1 & -> & N1) H1].
  destruct b as [b|]; [|injection E as <- <-; eauto]; destruct H1 as [H1 _].
  do 9 (let y := fresh "y" in let c2 := fresh "c" in let E2 := fresh "F" in apply cbind_inv in E as (y & c2 & E2 & E);
        destruct (lift_ok u _ R S _ _ _ _ H1 E2 ltac:(intros ids; keeps)) as [HH (? & -> & _)]; clear H1 E2; rename HH into H1).
  injection E as <- <-; split; [|done]; by eexists.
Qed.

(** The new inode is linked; until then it is only known here. *)
Lemma create_link u P R S (c : cache D) meta meta' d dir name mode nr inode o c' :
  cache_ok u P (inode :: R) S c ->
  (ok ← (if S_ISDIR mode then
           n ← lift (ld16 (data d, i_link_count));
           if n =? LINK_MAX then mret false
           else
             rc ← lift (append_direntry drv kmalloc do_time meta inode nr [46]);
             if negb (rc =? 0) then mret false
             else
               rc ← lift (inc_link_count drv kmalloc meta inode);
               if negb (rc =? 0) then mret false
               else
                 rc ← lift (create_direntry drv kmalloc do_time fuel meta inode (inode_nr d) dot_dot);
                 if negb (rc =? 0) then lift (dec_link_count drv kmalloc do_time meta' dir) ;; mret false
                 else mret true
         else mret true);
   if negb ok then release inode ;; mret None
   else
     rc ← fs_ext2_inode_link drv kmalloc do_time fuel dir name inode;
     if negb (rc =? 0) then release inode ;; mret None
     else mret (Some inode)) c = Ok (o, c') ->
  match o with Some i => i = inode /\ cache_ok u P (i :: R) S c' | None => cache_ok u P R S c' end.
Proof.
  intros H E; first_step E as ok c1 E1; assert (H1 : cache_ok u P (inode :: R) S c1).
  { revert E1; match goal with |- ?m c = _ -> _ => assert (quiet m) as Q by quiet end; intros E1; by eapply Q. }
  destruct (negb ok).
  - first_step E as y c2 E2; destruct y; injection E as <- <-; exact (inode_release_ok drv kmalloc do_time u P R S _ _ _ H1 E2).
  - first_step E as rc c2 E2; pose proof (quiet_link dir name inode u P _ S _ _ _ H1 E2) as H2.
    destruct (negb (rc =? 0)); [|by injection E as <- <-].
    first_step E as y c3 E3; destruct y; injection E as <- <-; exact (inode_release_ok drv kmalloc do_time u P R S _ _ _ H2 E3).
Qed.

(** Giving up before the new inode is in the cache. *)
Lemma create_fails u b P R S (c : cache D) sb m (o : option nat) c' :
  cache_ok u (b :: P) R (m :: S) c -> sb_data (supers c sb) = m ->
  (kfree b ;; fs_ext2_release_superblock sb ;; mret None) c = Ok (o, c') -> o = None /\ cache_ok u P R S c'.
Proof.
  intros H Hs E; first_step E as y c1 E1; destruct y; pose proof (kfree_ok u b P R (m :: S) _ _ H E1) as H1.
  first_step E as y c2 E2; destruct y; injection E as <- <-; split; [done|].
  eapply release_superblock_ok; [exact H1| |exact E2]; by injection E1 as <-.
Qed.

Lemma create_inode_ok P R S (c : cache D) garbage errno egid euid dir name mode o c' :
  cache_ok false P R S c -> dir ∈ R ->
  fs_ext2_create_inode drv kmalloc do_time fuel garbage errno egid euid dir name mode c = Ok (o, c') ->
  cache_ok false P (match o with Some i => i :: R | None => R end) S c'.
Proof.
  intros H Hr E; destruct (ref_meta false P R S c dir H Hr) as (Hm & _ & _ & M & _).
  unfold fs_ext2_create_inode, clone_meta, store_inode in E; first_step E as x c1 E1; apply cget_inv in E1 as [-> ->].
  set (m := id_meta (idatas c (links c dir))) in *; first_step E as d c1 E1.
  destruct (lift_ok false P R S _ _ _ _ H E1 (fun ids => keeps_get_inode ids dir)) as [H1 (s1 & -> & _)].
  destruct (size d =? 0); [by injection E as <- <-|].
  first_step E as b c2 E2; destruct (init_ext2_inode_ok false P R S _ mode egid euid b c2 H1 E2) as [(s2 & ->) H2].
  destruct b as [b|]; [|by injection E as <- <-].
  first_step E as m' c3 E3; first_step E3 as x c4 E4; apply cget_inv in E4 as [-> ->].
  first_step E3 as n c4 E4; apply count_up_inv in E4 as [-> ->]; first_step E3 as y c4 E4.
  injection E4 as <- <-; injection E3 as <- <-; pose proof (mo_used _ _ _ _ _ M).
  pose proof (meta_change false (b :: P) R S (m :: S) _ m 1 H2 Hm ltac:(cbn; lia) ltac:(intros; apply occ_cons)) as H3; cbn zeta in H3.
  set (c3 := mk_cache _ _ _ _ _ _ _) in H3, E; assert (Em : metas c3 m = with_count (meta_count (metas c m) + 1) (metas c m)) by apply fn_lookup_insert.
  first_step E as r c4 E4; destruct (lift_ok false _ R (m :: S) _ _ _ _ H3 E4 ltac:(intros ids; keeps)) as [H4 (s4 & -> & _)].
  destruct r as [nr e]; destruct (nr =? 0).
  { apply (create_fails false b P R S _ _ m) in E as [-> ?]; [done|exact H4|apply (mo_super _ _ _ _ _ M)]. }
  first_step E as im c5 E5; destruct (lift_ok false _ R (m :: S) _ _ _ _ H4 E5 ltac:(intros ids; keeps)) as [H5 (s5 & -> & _)].
  first_step E as y c6 E6; assert (H6 : cache_ok false (b :: P) R (m :: S) c6 /\ exists s, c6 = set_files s c3).
  { destruct (S_ISDIR mode); [|injection E6 as <- <-; eauto].
    destruct (lift_ok false _ R (m :: S) _ _ _ _ H5 E6 ltac:(intros ids; keeps)) as [H6 (s6 & -> & _)]; eauto. }
  destruct H6 as [H6 (s6 & ->)]; first_step E as i c7 E7.
  destruct (init_inode_ok kmalloc false _ R (m :: S) _ b m nr i c7 H6 E7) as ((s7 & -> & _) & _ & H7); destruct i as [i|].
  2:{ apply (create_fails false b P R S _ _ m) in E as [-> ?]; [done|exact H7|apply (mo_super _ _ _ _ _ M)]. }
  destruct H7 as [H7 [= Hn Hd He]]; first_step E as id c8 E8.
  destruct (init_ext2_inode_data_ok kmalloc false _ R (m :: S) _ i b m id c8 H7 E8) as (H8 & _ & L8 & M8 & S8 & K8); destruct id as [id|]; [|done].
  destruct H8 as (H8 & _ & V8 & I8); first_step E as y' c9 E9; destruct y'.
  pose proof (private_link false _ R (m :: S) _ _ i id H8 ltac:(right; by left) E9) as H9.
  assert (Ed : idatas c9 id = mk_inode_data m b i 1) by (injection E9 as <-; cbn; rewrite I8; apply fn_lookup_insert).
  assert (El : links c9 i = id) by (injection E9 as <-; apply fn_lookup_insert).
  assert (Ev : vnodes (files c9) = vnodes s7 /\ metas c9 = metas c3) by (injection E9 as <-; cbn; by rewrite V8, M8).
  destruct Ev as [Ev Em9]; assert (Hd9 : dev (vnodes (files c9) i) = Ext2.device (meta (metas c9 m))) by (rewrite Ev, Em9; exact Hd).
  assert (He9 : data (vnodes (files c9) i) = b) by (rewrite Ev; exact He).
  first_step E as y' c10 E10; first_step E10 as x c11 E11; apply cget_inv in E11 as [-> ->]; injection E10 as <- <-.
  pose proof (inode_add false P R S _ m id i b H9 Ed El Hd9 He9 ltac:(done)) as H10.
  pose proof (create_link false P R S _ _ _ d dir name mode nr i o c' H10 E) as H11; by destruct o as [j|]; [destruct H11|].
Qed.

End Names.
