(* ===== verification/Ext2Refs.v ===== *)
(** * EXT2: references to inodes and superblocks

    The operations of the file system as steps of a machine whose states are the
    references that are held and the cache. *)

From S2P Require Import Prelude Errors Memory Lists BlockDev BlockDevProofs.
Import Lists BlockDev BlockDevProofs.
From S2P Require Import Ext2 Ext2File Ext2Dir Ext2Stable Ext2Cache Ext2Names Ext2CacheProofs.

Section Steps.
Context {D : Type} (drv : drivers D) (kmalloc : nat -> option mem) (do_time : Z) (fuel : nat).

(** Operations on files and directories that neither take nor drop references. *)
Inductive file_call : forall A, cM D A -> Prop :=
  | call_read m i n o p : file_call _ (lift (fs_ext2_inode_read drv kmalloc do_time m i n o p))
  | call_write m i n o p : file_call _ (lift (fs_ext2_inode_write drv kmalloc do_time m i n o p))
  | call_trunc m i n : file_call _ (lift (fs_ext2_inode_trunc drv kmalloc do_time m i n))
  | call_flush m i : file_call _ (lift (fs_ext2_inode_flush drv kmalloc m i))
  | call_get_direntry m i x d : file_call _ (lift (fs_ext2_get_direntry drv kmalloc do_time fuel m i x d))
  | call_unlink dir name flags : file_call _ (fs_ext2_unlink_inode drv kmalloc do_time fuel dir name flags)
  | call_link dir name i : file_call _ (fs_ext2_inode_link drv kmalloc do_time fuel dir name i)
  | call_busy sb : file_call _ (fs_ext2_is_busy sb).

(** References to inodes, references to metadata, and the cache.  Inodes are created
    only if [u] is false: the number of a new inode is taken from the bitmap on the
    disk, which the cache does not look at. *)
Definition state : Type := list nat * list nat * cache D.

Inductive step (u : bool) : state -> state -> Prop :=
  | step_get_superblock R S c d sb c' :
      fs_ext2_get_superblock drv kmalloc d c = Ok (sb, c') -> step u (R, S, c) (R, sb_data (supers c' sb) :: S, c')
  | step_release_superblock R S S' c sb c' :
      S ≡ₚ sb_data (supers c sb) :: S' -> fs_ext2_release_superblock sb c = Ok ((), c') -> step u (R, S, c) (R, S', c')
  | step_get_inode R S c d nr i c' :
      fs_ext2_get_inode drv kmalloc d nr c = Ok (Some i, c') -> step u (R, S, c) (i :: R, S, c')
  | step_no_inode R S S' c d nr c' :
      fs_ext2_get_inode drv kmalloc d nr c = Ok (None, c') -> lost c d S S' -> step u (R, S, c) (R, S', c')
  | step_clone R S c i j c' :
      i ∈ R -> fs_ext2_inode_clone i c = Ok (j, c') -> step u (R, S, c) (j :: R, S, c')
  | step_release R R' S c i c' :
      R ≡ₚ i :: R' -> fs_ext2_inode_release drv kmalloc do_time i c = Ok ((), c') -> step u (R, S, c) (R', S, c')
  | step_file R S c A (m : cM D A) a c' :
      file_call A m -> m c = Ok (a, c') -> step u (R, S, c) (R, S, c')
  | step_create R S c garbage errno egid euid dir name mode i c' :
      u = false -> dir ∈ R -> fs_ext2_create_inode drv kmalloc do_time fuel garbage errno egid euid dir name mode c = Ok (Some i, c') ->
      step u (R, S, c) (i :: R, S, c')
  | step_create_fails R S c garbage errno egid euid dir name mode c' :
      u = false -> dir ∈ R -> fs_ext2_create_inode drv kmalloc do_time fuel garbage errno egid euid dir name mode c = Ok (None, c') ->
      step u (R, S, c) (R, S, c').

Lemma file_call_quiet A (m : cM D A) : file_call A m -> quiet m.
Proof.
  destruct 1; try (apply quiet_lift; intros; keeps); [apply quiet_unlink|apply quiet_link|unfold fs_ext2_is_busy; quiet].
Qed.

Definition state_ok (u : bool) (s : state) : Prop := let '(R, T, c) := s in cache_ok u [] R T c.

Lemma step_ok u s s' : step u s s' -> state_ok u s -> state_ok u s'.
Proof.
  destruct 1 as [R T c d sb c' E|R T T' c sb c' HS E|R T c d nr i c' E|R T T' c d nr c' E HS|R T c i j c' Hi E|R R' T c i c' HR E
    |R T c A m a c' Hc E|R T c g e eg eu dir name mode i c' -> Hd E|R T c g e eg eu dir name mode c' -> Hd E]; cbn; intros H.
  - by destruct (get_superblock_ok drv kmalloc u [] R T c d sb c' H E) as (m & Hm & -> & _).
  - rewrite HS in H; by eapply release_superblock_ok.
  - apply (fs_ext2_get_inode_ok drv kmalloc u [] R T c d nr _ c' H E).
  - destruct (fs_ext2_get_inode_ok drv kmalloc u [] R T c d nr _ c' H E) as (T'' & HS' & H'); by rewrite (lost_unique u [] R T c d T' T'' H HS HS').
  - by destruct (inode_clone_ok u [] R T c i j c' H Hi E) as [-> ?].
  - rewrite HR in H; exact (inode_release_ok drv kmalloc do_time u [] R' T c i c' H E).
  - exact (file_call_quiet A m Hc u [] R T c a c' H E).
  - exact (create_inode_ok drv kmalloc do_time fuel [] R T c g e eg eu dir name mode (Some i) c' H Hd E).
  - exact (create_inode_ok drv kmalloc do_time fuel [] R T c g e eg eu dir name mode None c' H Hd E).
Qed.

Lemma start_ok u (c : cache D) : ext2_metadata c = [] -> freed c = [] -> cache_ok u [] [] [] c.
Proof.
  intros El Ef; split; rewrite ?El, ?Ef; cbn; first [apply NoDup_nil_2 | apply Forall_nil_2 | by intros ? ?%elem_of_nil].
Qed.

Lemma reachable_ok u s s' : rtc (step u) s s' -> state_ok u s -> state_ok u s'.
Proof. induction 1; [done|]; intros; eauto using step_ok. Qed.

(** C9. The cache of inodes and superblocks.  Consider any sequence of calls of the
    file system that return, with success or an error (a call in which a count overflows does not), made by callers that use and
    drop only references they hold; a reference that [fs_ext2_get_inode] does not
    drop when it fails counts as held.  The reference count of every inode in use is
    the number of references to it; that of the metadata of a device is the number
    of references to its superblock and its inodes; a structure that is in use has
    not been given back, and none has been given back twice.  Unless inodes are
    created, an inode is in memory at most once.  When all references are dropped,
    the cache is empty.  The claim is about safety: it does not say that the calls
    return. *)
Theorem inode_cache_correct u (c0 c : cache D) R S :
  ext2_metadata c0 = [] -> freed c0 = [] -> rtc (step u) ([], [], c0) (R, S, c) ->
  NoDup (freed c) /\
  (forall i, i ∈ R -> let id := links c i in let m := id_meta (idatas c id) in
     id_inode (idatas c id) = i /\ data (vnodes (files c) i) = ext2_inode_ (idatas c id) /\ inode_count (idatas c id) = occ i R /\
     m ∈ ext2_metadata c /\ id ∈ inodes (metas c m) /\
     forall x, x ∈ (i :: ext2_inode_ (idatas c id) :: id :: meta_objects c m) -> x ∉ freed c) /\
  (forall m, m ∈ ext2_metadata c -> (m ∉ freed c) /\ (super (metas c m) ∉ freed c) /\
     meta_count (metas c m) = occ m S + sum (fun id => occ (id_inode (idatas c id)) R) (inodes (metas c m))) /\
  (u = true -> forall i j, i ∈ R -> j ∈ R -> dev (vnodes (files c) i) = dev (vnodes (files c) j) ->
     inode_nr (vnodes (files c) i) = inode_nr (vnodes (files c) j) -> i = j) /\
  (R = [] -> S = [] -> ext2_metadata c = []).
Proof.
  intros El Ef Hs; pose proof (reachable_ok u _ _ Hs (start_ok u c0 El Ef)) as H; cbn in H; pose proof H as [C1 C2 C3 C4 C5 C6].
  rewrite app_nil_l in C3; apply list.NoDup_app in C3 as (_ & Hfree & Nf).
  assert (Hobj : forall m x, m ∈ ext2_metadata c -> x ∈ meta_objects c m -> x ∉ freed c)
    by (intros m x Hm Hx; apply Hfree, list_elem_of_bind; eauto).
  split; [done|]; split; [|split; [|split]].
  - intros i Hi id m; destruct (ref_meta u [] R S c i H Hi) as (Hm & Hid & Ei & M & I); fold id in Hm, Hid, Ei, M, I; fold m in Hm, Hid, M, I.
    split; [done|]; split; [rewrite <- Ei at 1; apply I|]; split; [by rewrite (io_count _ _ _ _ I), Ei|]; split; [done|]; split; [done|].
    intros x Hx; apply (Hobj m); [done|]; rewrite !elem_of_cons in Hx; destruct Hx as [Hx|[Hx|[Hx|Hx]]]; [..|done];
      (eapply meta_objects_inode; [exact Hid|]); rewrite Hx; unfold inode_objects; rewrite Ei; rewrite !elem_of_cons; auto.
  - intros m Hm; split; [apply (Hobj m); [done|apply meta_objects_self]|]; split; [apply (Hobj m); [done|apply meta_objects_super]|].
    rewrite (mo_count _ _ _ _ _ (C1 m Hm)); f_equal; apply sum_ext; intros id Hid; apply (mo_inodes _ _ _ _ _ (C1 m Hm) id Hid).
  - intros Hu i j Hi Hj; destruct (ref_meta u [] R S c i H Hi) as (Hm & Hid & Ei & M & I), (ref_meta u [] R S c j H Hj) as (Hm' & Hid' & Ej & M' & I').
    pose proof (io_dev _ _ _ _ I) as Di; pose proof (io_dev _ _ _ _ I') as Dj; rewrite Ei in Di; rewrite Ej in Dj; rewrite Di, Dj; intros Hd Hn.
    assert (Hmm := NoDup_map_inj _ _ C2 _ _ Hm Hm' Hd); rewrite <- Hmm in Hid'.
    pose proof (NoDup_map_inj _ _ (mo_unique _ _ _ _ _ M Hu) _ _ Hid Hid') as Hii; rewrite <- Ei, <- Ej; f_equal; f_equal; apply Hii.
    unfold number; by rewrite Ei, Ej.
  - intros -> ->; destruct (ext2_metadata c) as [|m l] eqn:E; [done|]; specialize (C1 m ltac:(by left)).
    pose proof (mo_used _ _ _ _ _ C1) as Hp; rewrite (mo_count _ _ _ _ _ C1) in Hp.
    destruct (inodes (metas c m)) as [|id l'] eqn:Ei; [by change (0 < 0 + 0) in Hp|].
    pose proof (mo_inodes _ _ _ _ _ C1 id ltac:(rewrite Ei; by left)) as I; pose proof (io_used _ _ _ _ I) as Hq.
    rewrite (io_count _ _ _ _ I) in Hq; by change (0 < 0) in Hq.
Qed.

End Steps.

(** ** An example *)

(** A small file system with the root directory in inode 2 and a file foobar, inode 3. *)
Definition root_block : mem :=
  store8 (store8 (store8 (store8 (store8 (store8
    (store8 (store16 (store32 (store8 (store8 (store8 (store16 (store32 (store8 (store8 (store16 (store32 (fun _ => 0)
      0 2) 4 12) 6 1) 8 46) 12 2) 16 12) 18 2) 20 46) 21 46) 24 3) 28 1000) 30 6) 32 102) 33 111) 34 111) 35 98) 36 97) 37 114.
Definition root_inode : mem := store32 (store32 (store16 (store16 (fun _ => 0) i_mode (4 * 4096)) i_link_count 2) i_size 1024) direct 6.
Definition file_inode : mem := store16 (store16 (fun _ => 0) i_mode (8 * 4096)) i_link_count 1.
Definition names_image : mem :=
  let image := blit (fun x => if x =? 3072 then 63 else if x / 1024 =? 3 then 0 else if x / 1024 =? 4 then 255 else 0) 1024
    (store32 (store32 (store32 (store32 (store32 (fun _ => 0) s_blocks_count 16) s_free_blocks_count 9) s_first_data_block 1)
       s_blocks_per_group 8192) s_inodes_per_group 8) 0 120 in
  let image := blit image 2048
    (store16 (store32 (store32 (store32 (fun _ => 0) bg_block_bitmap 3) bg_inode_bitmap 4) bg_inode_table 5) bg_free_blocks_count 9) 0 32 in
  blit (blit (blit image (5 * 1024 + 128) root_inode 0 128) (5 * 1024 + 256) file_inode 0 128) (6 * 1024) root_block 0 1024.
Definition names_disk : ramdisk := mk_ramdisk 1 8192 24575 (fun x => names_image (x - 8192)).
Definition names_drivers : drivers ramdisk := snd (ramdisk_init names_disk (fun _ => DRIVER_NONE) 1 8192 24575).
Definition names_start : cache ramdisk :=
  mk_cache (mk_fs names_disk (fun _ _ => 0) 1 (fun _ => mk_inode 0 0 0 0 0 0 0 0 0 0)) (fun _ => mk_superblock 0 0 0)
    (fun _ => mk_metadata (mk_meta 0 0 0 0 0) false 0 [] 0) [] (fun _ => mk_inode_data 0 0 0 0) (fun _ => 0%nat) [].

#[local] Abbreviation memory := (fun _ : nat => Some (fun _ : Z => 0)).

(** The root directory is opened twice. *)
Definition open_root : cM ramdisk (nat * nat) :=
  sb ← fs_ext2_get_superblock names_drivers memory 256;
  root ← fs_ext2_get_inode names_drivers memory 256 2;
  match root with
  | Some root => i ← fs_ext2_inode_clone root; mret (sb, i)
  | None => cfault
  end.

Lemma open_root_inv c0 sb i c :
  open_root c0 = Ok ((sb, i), c) ->
  exists c1 c2, fs_ext2_get_superblock names_drivers memory 256 c0 = Ok (sb, c1) /\
    fs_ext2_get_inode names_drivers memory 256 2 c1 = Ok (Some i, c2) /\ fs_ext2_inode_clone i c2 = Ok (i, c).
Proof.
  unfold open_root; intros E; first_step E as sb' c1 E1; first_step E as root c2 E2; destruct root as [root|]; [|done].
  first_step E as j c3 E3; injection E as -> -> ->; exists c1, c2.
  pose proof E3 as E4; first_step E4 as x c4 E5; first_step E4 as y c5 E6; first_step E4 as y' c6 E7; first_step E4 as z c7 E8.
  first_step E4 as z' c8 E9; first_step E4 as z'' c9 E10; injection E4 as <- _; auto.
Qed.

Lemma open_root_runs : exists sb i c, open_root names_start = Ok ((sb, i), c).
Proof.
  destruct (evaluated (open_root names_start) (fun _ => true)) as ([[sb i] c] & E & _); [vm_compute; reflexivity|eauto].
Qed.

Lemma inode_cache_correct_witness :
  exists R S c i, rtc (step names_drivers memory 77 100 true) ([], [], names_start) (R, S, c) /\ R = [i; i] /\
    inode_count (idatas c (links c i)) = 2.
Proof.
  destruct open_root_runs as (sb & i & c & (c1 & c2 & E1 & E2 & E3)%open_root_inv).
  assert (Hs : rtc (step names_drivers memory 77 100 true) ([], [], names_start) ([i; i], [sb_data (supers c1 sb)], c)).
  { eapply rtc_l; [by eapply step_get_superblock|]; eapply rtc_l; [by eapply step_get_inode|].
    eapply rtc_once, step_clone; [|exact E3]; by left. }
  destruct (inode_cache_correct names_drivers memory 77 100 true names_start c [i; i] [sb_data (supers c1 sb)]) as (_ & Hi & _).
  - reflexivity.
  - reflexivity.
  - exact Hs.
  - exists [i; i], [sb_data (supers c1 sb)], c, i; split; [exact Hs|]; split; [done|].
    destruct (Hi i ltac:(by left)) as (_ & _ & -> & _); unfold occ; rewrite !list.filter_cons_True by done; done.
Defined.

(** ** Behaviour that differs from what is meant *)

(** The result of looking for entry 2 of the root directory, before and after a name
    is unlinked, with the result of the latter. *)
Definition unlink_experiment (name : list Z) : cM ramdisk (Z * Z * Z) :=
  '(_, root) ← open_root;
  c ← get;
  direntry ← lift local;
  before ← lift (fs_ext2_get_direntry names_drivers memory 77 100 (meta_of c root) root 2 direntry);
  rc ← fs_ext2_unlink_inode names_drivers memory 77 100 root name 0;
  after ← lift (fs_ext2_get_direntry names_drivers memory 77 100 (meta_of c root) root 2 direntry);
  mret (before, rc, after).

(** Unlinking foo removes the file foobar: only as many characters are compared as the
    name that is given has. *)
Theorem unlink_removes_prefix :
  exists c, unlink_experiment [102; 111; 111] names_start = Ok ((0, 0, -1), c).
Proof.
  destruct (evaluated (unlink_experiment [102; 111; 111] names_start) (fun '(r, _) => bool_decide (r = (0, 0, -1))))
    as ([r c] & E & ->%bool_decide_eq_true); [vm_compute; reflexivity|eauto].
Qed.

(** If another thread has added the inode between the two critical sections of
    [get_inode], the second one returns it without counting the reference. *)
Theorem insert_inode_race {D} (c : cache D) nr m id check i c' :
  find_inode c m nr = Some check -> insert_inode nr m id c = Ok (i, c') ->
  i = id_inode (idatas c check) /\ idatas c' = idatas c.
Proof.
  intros Ef E; first_step E as x c1 E1; apply cget_inv in E1 as [-> ->]; rewrite Ef in E.
  first_step E as y c2 E2; first_step E as z c3 E3; injection E as <- <-; split; [done|].
  first_step E2 as x c4 E4; apply cget_inv in E4 as [-> ->]; first_step E2 as w c5 E5.
  injection E5 as <- <-; injection E2 as <- <-; by injection E3 as <- <-.
Qed.
